(* ===== verification/_CoqProject ===== *)
-Q . S2P
Prelude.v
GoString.v
Json.v
GoPath.v
GoDate.v
Base64.v
Core.v
Common.v
Setting.v
ResultDivider.v
Job.v
Queue.v
Scheduler.v
Alone.v
Poller.v
Run.v
Converter.v
Cloud.v
Mitigation.v
SamplingJob.v
EstimationJob.v
Tranqu.v
MultiprogJob.v
Device.v
Circuit.v
Gateway.v
SseData.v
SseRun.v
SseJob.v
SseRouter.v
Edge.v
Metrics.v
Jx.v
JxText.v
ApiSchemas.v
ApiCodec.v
ApiJson.v
ApiValidate.v
ApiHttp.v
ApiRouter.v
ApiClient.v
ApiServer.v
ApiRoundtrip.v
ApiCloud.v
Antlr.v
AntlrLaws.v
AntlrContexts.v
AntlrMachine.v
AntlrComplete.v
Qasm3Grammar.v
Qasm3Parser.v
Qasm3Sound.v
Qasm3Contexts.v
Qasm3Complete.v
Qasm3Listener.v
Qasm3Circuit.v
Qasm3Machine.v
