(* ===== verification/Prelude.v ===== *)
(** * OQTOPUS engine: verification library

    The engine (src/coreapp) runs between a cloud service and a quantum
    computer.  The poller asks the cloud for jobs; each job is converted to
    [JobData], validated by the job manager and given to the scheduler.  The
    scheduler starts one handler goroutine per job: it pre-processes the job
    (transpilation), puts it on the queue, waits until the single worker
    goroutine has run it on the QPU, and post-processes it.  Every change of a
    job is sent as a clone on the database channel, from which the service
    database updates the cloud.  The QPU manager talks to the gateway and
    publishes changes of the device.  A server-side job (sse) runs the user's
    program in a container; the program sends circuits back to the engine
    through a gRPC router.  The command (cmd/edge) sets all of it up and runs
    the periodic tasks of the settings file.

    ** Files

    - Prelude: outcomes of Go calls, the state monad with panics, machine
      integers, iteration over Go maps, tactics.
    - GoString: byte strings, decimal numbers, Join, TrimSpace and the like.
    - Json: JSON values, their printer and parser with the round trip, and the
      [Unmarshal] targets of the program.
    - Core: core/data.go and the data of core/syscomponent.go.
    - Common: common/util.go.
    - Setting: core/setting.go, conf.go and info.go; settings are values of
      [interface{}], modelled by [Dyn].
    - ResultDivider: multiprog/manual/resultdivider/result_divider.go.
    - Job: core/job.go (the [Job] interface as class [IJob], normal and unknown
      jobs, the job manager) and core/db.go.  The classes [ITranspiler],
      [IQPUManager] and [IDBChan] are what jobs know of the other components.
    - Queue: scheduler/queue.go over the class [IFifo] of the third-party FIFO.
    - Scheduler: scheduler/scheduler.go, once as the composition one handler
      runs ([handleImpl]) and once as a step relation ([step]) in which
      handlers, worker and queue goroutine interleave; Alone relates the two.
    - Poller: poller/poller.go with time.ParseDuration.
    - Run: core/run.go, the run group and the loop that runs the poller; the
      version log of log/version.go.
    - Converter: oas/converter.go.
    - Cloud: db/service.go and the poll client of poller/awspollclient.go.
    - Mitigation, SamplingJob, EstimationJob: mitig/mitig.go and the two job
      types (sampling/job.go, estimation/job.go).
    - Gateway: qpu/gateway.go and qpu/qpu.go.
    - Tranqu: transpiler/tranqu.go, the transpiler the jobs call.
    - MultiprogJob: multiprog/manual/job.go, the job around the result divider.
    - Device, Circuit: qpu/device.go, and qpu/ir.go with qpu/circuit.go (the
      listener that numbers qubits and the validation of programs).
    - GoPath, GoDate, Base64: the parts of the packages path/filepath, time and
      encoding/base64 the program uses.
    - SseData: sse/conf/sseconf.go, the result file of sse/sserun.go, the calls
      to Docker, files and services ([sseE]) with their traces.
    - SseRun: sse/sserun.go and sse/apiclient/apiclient.go; SseJob: sse/job.go;
      SseRouter: sse/router/sse_gateway_router.go.
    - Edge: cmd/edge/main.go, core/version.go and the container of
      core/syscomponent.go; the loading of both flag configurations.
    - Metrics: log/metrics.go.
    - Jx, JxText: the interface of the streaming JSON library the generated
      API package is written against, its laws, and an instance over texts.
    - ApiSchemas, ApiCodec, ApiJson, ApiValidate: oas/gen/providerapi, the data
      of the provider API with its wrappers, encoders, decoders and checks
      (oas_schemas_gen.go, oas_defaults_gen.go, oas_json_gen.go,
      oas_validators_gen.go).
    - ApiHttp, ApiRouter, ApiClient, ApiServer: the client the poller and the
      service database call (oas_client_gen.go and its encoders and decoders)
      and the server of the same package (router, parameters, handlers).
    - ApiRoundtrip, ApiCloud: client and server joined by a transport, and on
      them poller/awspollclient.go and the requests of db/service.go, with an
      instance of every library class between them.
    - Antlr, AntlrLaws, AntlrContexts: what generated parsers use of the ANTLR
      runtime as classes (parser state, prediction, recovery; children of
      contexts) with laws, grammars and derivations, the judgement [parses].
      AntlrMachine, AntlrComplete: a runtime whose prediction answers as told,
      and the judgement [accepts] of code that follows every derivation.
    - Qasm3Grammar, Qasm3Parser, Qasm3Contexts, Qasm3Listener: the generated
      core/parser/qasm3_parser.go with its tokens and grammar, a definition per
      parsing function, accessor and listener call; Qasm3Sound and Qasm3Complete
      prove it against the grammar, Qasm3Circuit puts the listener of qpu/ir.go
      on its contexts, Qasm3Machine parses a program.
    ** Conventions

    A Go call returns or panics ([outcome]); effectful code is a function on an
    explicit state ([M]) that keeps its mutations when it panics, as Go does,
    and [recovering] is a deferred [recover].  An [error] is its message.
    Integers are [Z] with the wrap-around of the conversions written in the
    source.  Strings are byte strings.  Map iteration takes its order from the
    class [MapRange]: theorems hold for every order.  Floating point numbers,
    times and remote services are parameters (class methods or section
    variables) and the laws used of them are named classes with instances in
    the witnesses.  Log output is left out.

    ** What the theorems show

    - Scheduling: in every interleaving the queue is bounded and jobs run in
      the order of their arrival, a queued job can always be brought through
      its processing, a job that a full queue drops leaves its handler blocked
      for ever; a handler that ends has reported the job's final state; the
      handler loop goes on only while the job is READY at the end of a turn, and
      ends within two turns for a job type that never goes back to READY (a
      server-side job whose result file says ready does); the sequence of statuses a
      normal job is reported with; for a job that is alone, the interleaving
      system and the sequential composition are equivalent.
    - Queue: refinement of the bounded first-in first-out list [SpecQueue].
    - Results: the reordering of counts by the qubit mapping is the bit
      permutation it means to be and loses nothing, the division computes the
      marginals of every circuit.
    - Jobs: validation accepts exactly the valid jobs; the job types of the
      manager are unique; the laws of the in-memory database.
    - Cloud: which requests are made for a job and what they carry, the
      conversion of jobs in both directions, counts that decode to themselves,
      what a poll keeps and drops.
    - Poller: its state is a function of the polls without jobs since the last
      success; every fetched job is handed over; the ticker of its task runs
      at the period this state asks for; what the run group contains.
    - Gateway: a sent job is settled as the answer says; the device is
      published on change.
    - Mitigation and estimation: when jobs are mitigated, what is collected.
    - Transpilation and multi-programming: the stored mapping is the service's,
      in both directions; a multi-programming job that succeeds is reported
      with its own programs, the combiner's answer and the counts that dividing
      the result gave, through handler, post-processing and conversion.
    - Circuits: qubits are numbered consistently for every parse tree; which
      representation a program gets; exactly which programs a device accepts, over
      any parser whose trees have the shape of the grammar (the generated one
      has, [Qasm3Circuit.generated_shape]).
    - Server-side execution: container, volume and directory of a run are
      removed; files are changed only below the directory of the job; the
      program executed in the container is the one uploaded; what is reported of
      a job that succeeds is what its result file says, and a run without error
      has read a file whose status, counts and mapping are well formed; the router executes only checked circuits, and its conversion of
      the shots accepts nothing out of range.
    - Command and metrics: set-up, start and tear-down happen in their order,
      the run group is the one the settings file names, the tear-down is skipped
      after a run; metrics land in the file of their
      local day with one file open at a time.
    - Provider API: what is exchanged survives its JSON text, members that are
      missing are named, unknown ones passed over; the validation accepts what
      the API allows; the client hands on all jobs of an answer or none, and
      sends nothing without its key; the router is the path patterns.
    - Engine and server together: a poll reaches the handler of the generated
      server and its jobs come back one by one; the service database on client
      and server refines the one on an API that accepts requests; no handler
      runs without an accepted key.
    - QASM parser: whatever prediction answers, the parser stops, and what it
      returns derives by the grammar, right operands bound by precedence, from
      exactly its tokens; conversely every derivation is returned for some
      answers, so its tests of the next token are exact; accessors return every child once; the circuit listener
      on the parser's contexts is the one of Circuit on the tree it sees.
    Several theorems (kind error in the manifest) state behaviour that differs
    from what the code means to do; each is exact about the condition.

    ** Bounds and fuel

    Parsers and loops without a structural argument take fuel computed from
    the length of their input, and the lemmas on them prove that it suffices
    (the JSON parser in Json, [getIdx_loop] in Queue, [ParseDuration] in
    Poller).  [handle_loop] counts turns.
    The parsing functions need 64 steps a token and 128 more ([Qasm3Sound]).

    ** Not modelled

    Generated code that is called through an interface (the gRPC stubs, the QASM
    lexer) is a class or an argument where it is used: tables and calls of
    third-party runtimes.  The runtime of the QASM parser is a class: prediction
    over the serialised automaton may answer any alternative of a decision.
    Left out for good: mocks, log lines (the version log apart), third-party
    packages (container, flag parser, run group, toml decoder, Docker client),
    which are classes or arguments with their documented behaviour as named
    laws, and the goroutine that keeps reading the output of a command after
    its timeout. *)

From stdpp Require Import base gmap strings list fin_maps.
From Stdlib Require Import ZArith Lia.

#[global] Open Scope list_scope.
#[global] Open Scope Z_scope.

(** ** Outcomes: a Go call returns or panics

    A Go panic unwinds the stack but keeps every mutation made before it, so
    the monad of effectful code returns the state in both cases. *)
Inductive outcome (A : Type) : Type :=
| Ret (a : A)
| Panic (msg : string).
Arguments Ret {A} a.
Arguments Panic {A} msg.

(** A Go [error] value is known to the program only through [err.Error()]. *)
Abbreviation error := string (only parsing).

(** Effectful code over a state [S]. *)
Definition M (S A : Type) : Type := S -> outcome A * S.

Definition ret {S A} (a : A) : M S A := fun s => (Ret a, s).
Definition gopanic {S A} (msg : string) : M S A := fun s => (Panic msg, s).
Definition bind {S A B} (c : M S A) (k : A -> M S B) : M S B :=
  fun s => match c s with
           | (Ret a, s') => k a s'
           | (Panic m, s') => (Panic m, s')
           end.
Definition get {S} : M S S := fun s => (Ret s, s).
Definition put {S} (s : S) : M S unit := fun _ => (Ret tt, s).
Definition modify {S} (f : S -> S) : M S unit := fun s => (Ret tt, f s).
Definition gets {S A} (f : S -> A) : M S A := fun s => (Ret (f s), s).

(** [defer func() { if r := recover(); r != nil { h(r) } }()] around [c]. *)
Definition recovering {S A} (c : M S A) (h : string -> M S A) : M S A :=
  fun s => match c s with
           | (Ret a, s') => (Ret a, s')
           | (Panic m, s') => h m s'
           end.

(** A pure call that may panic. *)
Definition lift {S A} (o : outcome A) : M S A := fun s => (o, s).

Definition obind {A B} (o : outcome A) (k : A -> outcome B) : outcome B :=
  match o with Ret a => k a | Panic m => Panic m end.

Declare Scope go_scope.
Delimit Scope go_scope with go.
Notation "'let!' x ':=' c 'in' k" := (bind c (fun x => k))
  (at level 10, x pattern, c at level 100, k at level 200) : go_scope.
Notation "c ;;! k" := (bind c (fun _ => k))
  (at level 100, k at level 200, right associativity) : go_scope.
Notation "'let?' x ':=' c 'in' k" := (obind c (fun x => k))
  (at level 10, x pattern, c at level 100, k at level 200) : go_scope.
#[global] Open Scope go_scope.

(** [mfor body l] runs [for _, x := range l { body }]. *)
Fixpoint mfor {S A} (body : A -> M S unit) (l : list A) : M S unit :=
  match l with
  | [] => ret tt
  | x :: l' => body x ;;! mfor body l'
  end.

Lemma bind_ret_l {S A B} (a : A) (k : A -> M S B) s : bind (ret a) k s = k a s.
Proof. reflexivity. Qed.

Lemma bind_assoc {S A B C} (c : M S A) (k : A -> M S B) (h : B -> M S C) s :
  bind (bind c k) h s = bind c (fun a => bind (k a) h) s.
Proof. unfold bind. destruct (c s) as [[a|m] s']; reflexivity. Qed.

Lemma mfor_app {S A} (body : A -> M S unit) l1 l2 s :
  mfor body (l1 ++ l2) s = bind (mfor body l1) (fun _ => mfor body l2) s.
Proof.
  revert s. induction l1 as [|x l1 IH]; intros s; [reflexivity|].
  cbn. unfold bind at 1 3. unfold bind at 1.
  destruct (body x s) as [[[]|m] s']; [|reflexivity]. exact (IH s').
Qed.

(** ** Machine integers

    A [w]-bit Go integer is a [Z] in its range; the conversions written in the
    source ([uint32(x)], [int32(x)], [int(x)]) wrap around. *)
Definition wrapU (w : Z) (z : Z) : Z := z mod 2 ^ w.
Definition wrapS (w : Z) (z : Z) : Z := (z + 2 ^ (w - 1)) mod 2 ^ w - 2 ^ (w - 1).
Abbreviation u32 := (wrapU 32).
Abbreviation i32 := (wrapS 32).
Abbreviation i64 := (wrapS 64).

Definition in_u32 (z : Z) : Prop := 0 <= z < 2 ^ 32.
Definition in_i32 (z : Z) : Prop := - 2 ^ 31 <= z < 2 ^ 31.
Definition in_i64 (z : Z) : Prop := - 2 ^ 63 <= z < 2 ^ 63.

Lemma wrapU_range w z : 0 <= w -> 0 <= wrapU w z < 2 ^ w.
Proof. intros Hw. apply Z.mod_pos_bound, Z.pow_pos_nonneg; lia. Qed.

Lemma u32_small z : in_u32 z -> u32 z = z.
Proof. intros H. apply Z.mod_small, H. Qed.

Lemma u32_range z : in_u32 (u32 z).
Proof. apply wrapU_range. lia. Qed.

Lemma u32_add_l a b : u32 (u32 a + b) = u32 (a + b).
Proof. unfold wrapU. apply Zplus_mod_idemp_l. Qed.

Lemma u32_add_r a b : u32 (a + u32 b) = u32 (a + b).
Proof. unfold wrapU. apply Zplus_mod_idemp_r. Qed.

Lemma wrapS_small w z : 0 < w -> - 2 ^ (w - 1) <= z < 2 ^ (w - 1) -> wrapS w z = z.
Proof.
  intros Hw [Hl Hu]. unfold wrapS. rewrite Z.mod_small; [lia|].
  replace (2 ^ w) with (2 * 2 ^ (w - 1)); [lia|].
  rewrite <- Z.pow_succ_r by lia. f_equal; lia.
Qed.

Lemma i32_small z : in_i32 z -> i32 z = z.
Proof. intros H. apply wrapS_small; [lia|exact H]. Qed.

Lemma i64_small z : in_i64 z -> i64 z = z.
Proof. intros H. apply wrapS_small; [lia|exact H]. Qed.

(** ** Go maps

    [for k, v := range m] visits the entries of [m] in an order the language
    leaves open.  The order is a class argument of every definition that
    iterates over a map; a theorem that does not fix the instance holds for
    every order. *)
Class MapRange := {
  range : forall {K : Type} {HE : EqDecision K} {HC : Countable K} {V : Type}, gmap K V -> list (K * V);
  range_perm : forall K (HE : EqDecision K) (HC : Countable K) V (m : gmap K V), range m ≡ₚ map_to_list m
}.

(** One order, to evaluate the definitions with. *)
Definition canonical_range : MapRange.
Proof.
  refine {| range := fun K HE HC V m => map_to_list m |}. reflexivity.
Defined.

(** Another order, to test that a result does not depend on it. *)
Definition reverse_range : MapRange.
Proof.
  refine {| range := fun K HE HC V m => reverse (map_to_list m) |}.
  intros. apply reverse_Permutation.
Defined.

Section range_lemmas.
Context {MR : MapRange} {K : Type} `{HC : Countable K} {V : Type}.
Implicit Types m : gmap K V.

Lemma elem_of_range m k v : (k, v) ∈ range m <-> m !! k = Some v.
Proof. rewrite range_perm. apply elem_of_map_to_list. Qed.

Lemma NoDup_fst_range m : NoDup (range m).*1.
Proof. rewrite range_perm. apply NoDup_fst_map_to_list. Qed.

Lemma NoDup_range m : NoDup (range m).
Proof. apply (NoDup_fmap_1 fst), NoDup_fst_range. Qed.

Lemma length_range m : length (range m) = size m.
Proof. rewrite range_perm. apply length_map_to_list. Qed.

Lemma range_empty : range (∅ : gmap K V) = [].
Proof. apply Permutation_nil_r. rewrite range_perm, map_to_list_empty. reflexivity. Qed.

Lemma range_nil_inv m : range m = [] -> m = ∅.
Proof.
  intros H. apply map_size_empty_inv. rewrite <- length_range, H. reflexivity.
Qed.

Lemma list_to_map_range m : list_to_map (range m) = m.
Proof.
  rewrite <- (list_to_map_to_list m) at 2.
  apply list_to_map_proper; [apply NoDup_fst_range|apply range_perm].
Qed.
End range_lemmas.

Lemma range_perm_any {K} `{Countable K} {V} (R1 R2 : MapRange) (m : gmap K V) :
  @range R1 K _ _ V m ≡ₚ @range R2 K _ _ V m.
Proof. rewrite !range_perm. reflexivity. Qed.

(** ** Sums *)

Definition zsum (l : list Z) : Z := foldr Z.add 0 l.

Lemma zsum_app l1 l2 : zsum (l1 ++ l2) = zsum l1 + zsum l2.
Proof. induction l1 as [|x l1 IH]; cbn; [done|]. fold (zsum (l1 ++ l2)) (zsum l1). lia. Qed.

#[global] Instance zsum_Permutation : Proper ((≡ₚ) ==> (=)) zsum.
Proof.
  intros l1 l2. induction 1 as [|x l1 l2 _ IH|x y l|l1 l2 l3 _ IH1 _ IH2]; [done| | |congruence];
    unfold zsum in *; cbn; lia.
Qed.

Lemma zsum_nonneg l : Forall (fun x => 0 <= x) l -> 0 <= zsum l.
Proof. unfold zsum. induction 1; cbn; lia. Qed.

(** The sum of the values of a map. *)
Definition map_total `{Countable K} (m : gmap K Z) : Z := zsum (map_to_list m).*2.

Lemma map_total_range {MR : MapRange} `{Countable K} (m : gmap K Z) : map_total m = zsum (range m).*2.
Proof. unfold map_total. by rewrite range_perm. Qed.

Lemma map_total_list_to_map `{Countable K} (l : list (K * Z)) :
  NoDup l.*1 -> map_total (list_to_map l : gmap K Z) = zsum l.*2.
Proof. intros Hnd. unfold map_total. by rewrite map_to_list_to_map. Qed.

(** ** Tactics *)

(** Case analysis on every [match]/[if] of the goal, remembering equations. *)
Ltac go_cases :=
  repeat (case_match; simplify_eq/=; try done).

Ltac bool_lia :=
  repeat match goal with
  | H : (_ <? _) = true |- _ => apply Z.ltb_lt in H
  | H : (_ <? _) = false |- _ => apply Z.ltb_ge in H
  | H : (_ <=? _) = true |- _ => apply Z.leb_le in H
  | H : (_ <=? _) = false |- _ => apply Z.leb_gt in H
  | H : (_ =? _) = true |- _ => apply Z.eqb_eq in H
  | H : (_ =? _) = false |- _ => apply Z.eqb_neq in H
  | H : (_ >? _) = _ |- _ => rewrite Z.gtb_ltb in H
  | H : (_ && _)%bool = true |- _ => apply andb_true_iff in H as [? ?]
  | H : (_ || _)%bool = false |- _ => apply orb_false_iff in H as [? ?]
  end; try lia.

Create HintDb go.
#[export] Hint Resolve u32_range : go.
Create Rewrite HintDb go.
#[export] Hint Rewrite @bind_ret_l : go.
