(* ===== verification/GoString.v ===== *)
(** * Go's [strings] and [strconv], as far as the engine uses them

    A Go string is a byte sequence: Rocq's [string] of 8-bit [ascii].
    [slice], [byte_at] and [len] follow the language; [ToLower], [ReplaceAll],
    [TrimSuffix], [TrimSpace], [Join] follow package [strings]; [ParseUint],
    [Atoi], [FormatUint] and [FormatInt] follow package [strconv].  The lemmas
    give the round trip of decimal printing and parsing, and the length and
    append laws the other files use. *)

From stdpp Require Import base gmap strings list fin_maps.
From Stdlib Require Import ZArith Lia Ascii.
From S2P Require Import Prelude.

(** ** Bytes and slices *)

Definition len (s : string) : Z := Z.of_nat (String.length s).

Definition byte (c : ascii) : Z := Z.of_N (N_of_ascii c).

(** [s[i]]: a byte, or a run-time panic. *)
Definition byte_at (s : string) (i : Z) : outcome ascii :=
  if (0 <=? i) && (i <? len s) then
    match String.get (Z.to_nat i) s with
    | Some c => Ret c
    | None => Panic "index out of range"
    end
  else Panic "index out of range".

(** [s[i:j]]: a substring, or a run-time panic. *)
Definition slice (s : string) (i j : Z) : outcome string :=
  if (0 <=? i) && (i <=? j) && (j <=? len s)
  then Ret (String.substring (Z.to_nat i) (Z.to_nat (j - i)) s)
  else Panic "slice bounds out of range".

Fixpoint string_forallb (p : ascii -> bool) (s : string) : bool :=
  match s with
  | EmptyString => true
  | String c s' => p c && string_forallb p s'
  end.

Fixpoint string_map (f : ascii -> ascii) (s : string) : string :=
  match s with
  | EmptyString => EmptyString
  | String c s' => String (f c) (string_map f s')
  end.

Definition string_rev (s : string) : string :=
  String.string_of_list_ascii (rev (String.list_ascii_of_string s)).

Definition in_range (lo hi c : ascii) : bool := (byte lo <=? byte c) && (byte c <=? byte hi).

Definition is_digit (c : ascii) : bool := in_range "0"%char "9"%char c.
Definition is_ascii (c : ascii) : bool := byte c <? 128.

(** ** Package strings *)

Definition HasPrefix (s p : string) : bool := String.prefix p s.

Fixpoint drop_prefix (p s : string) : option string :=
  match p, s with
  | EmptyString, _ => Some s
  | String a p', String b s' => if Ascii.eqb a b then drop_prefix p' s' else None
  | String _ _, EmptyString => None
  end.

(** [strings.TrimSuffix] *)
Definition TrimSuffix (s suffix : string) : string :=
  match drop_prefix (string_rev suffix) (string_rev s) with
  | Some r => string_rev r
  | None => s
  end.

(** [strings.ReplaceAll] for a non-empty [old]: leftmost, non-overlapping.
    [skip] counts the bytes of a match still to be dropped. *)
Fixpoint replace_all (old new : string) (skip : nat) (s : string) : string :=
  match s with
  | EmptyString => EmptyString
  | String c s' =>
      match skip with
      | S n => replace_all old new n s'
      | O => if HasPrefix s old
             then new +:+ replace_all old new (String.length old - 1) s'
             else String c (replace_all old new O s')
      end
  end.

Definition ReplaceAll (s old new : string) : string := replace_all old new O s.

Definition lower_ascii (c : ascii) : ascii :=
  if in_range "A"%char "Z"%char c then ascii_of_N (N_of_ascii c + 32) else c.

(** The white space of [unicode.IsSpace], in UTF-8. *)
Definition byte_string (l : list N) : string :=
  String.string_of_list_ascii (map ascii_of_N l).

Definition space_runes : list string :=
  map byte_string
    ([[9]; [10]; [11]; [12]; [13]; [32]; [194; 133]; [194; 160]; [225; 154; 128]]
     ++ map (fun n => [226; 128; n]) [128; 129; 130; 131; 132; 133; 134; 135; 136; 137; 138; 168; 169; 175]
     ++ [[226; 129; 159]; [227; 128; 128]])%N.

Definition strip_one (pats : list string) (s : string) : option string :=
  foldr (fun p acc => match drop_prefix p s with Some r => Some r | None => acc end) None pats.

Fixpoint strip_all (pats : list string) (fuel : nat) (s : string) : string :=
  match fuel with
  | O => s
  | S n => match strip_one pats s with
           | Some r => strip_all pats n r
           | None => s
           end
  end.

Definition TrimLeft (pats : list string) (s : string) : string :=
  strip_all pats (String.length s) s.

(** [strings.TrimSpace] *)
Definition TrimSpace (s : string) : string :=
  let s1 := TrimLeft space_runes s in
  string_rev (TrimLeft (map string_rev space_runes) (string_rev s1)).

(** [strings.Join] *)
Fixpoint Join (l : list string) (sep : string) : string :=
  match l with
  | [] => ""
  | [x] => x
  | x :: l' => x +:+ sep +:+ Join l' sep
  end.

(** ** Package strconv *)

Definition digit_value (c : ascii) : Z := byte c - 48.
Definition digit_char (d : Z) : ascii := ascii_of_N (Z.to_N (d + 48)).

(** The double quote. *)
Definition dq : string := String "034"%char EmptyString.

Definition num_error (fn s reason : string) : error :=
  "strconv." +:+ fn +:+ ": parsing " +:+ dq +:+ s +:+ dq +:+ ": " +:+ reason.

(** The digit loop of [ParseUint] in base 10: a bad byte is a syntax error, a
    value over [max] a range error, whichever comes first. *)
Fixpoint parse_digits (max acc : Z) (s : string) : Z + string :=
  match s with
  | EmptyString => inl acc
  | String c s' =>
      if is_digit c then
        let acc' := acc * 10 + digit_value c in
        if max <? acc' then inr "value out of range" else parse_digits max acc' s'
      else inr "invalid syntax"
  end.

(** [strconv.ParseUint(s, 10, bits)] *)
Definition ParseUint (s : string) (bits : Z) : Z + error :=
  match s with
  | EmptyString => inr (num_error "ParseUint" s "invalid syntax")
  | String _ _ =>
      match parse_digits (2 ^ bits - 1) 0 s with
      | inl n => inl n
      | inr r => inr (num_error "ParseUint" s r)
      end
  end.

(** [strconv.Atoi]: an optional sign, then digits, in the range of a 64-bit
    [int]. *)
Definition Atoi (s : string) : Z + error :=
  let '(neg, body) :=
    match s with
    | String c s' => if Ascii.eqb c "-"%char then (true, s')
                     else if Ascii.eqb c "+"%char then (false, s') else (false, s)
    | EmptyString => (false, s)
    end in
  match body with
  | EmptyString => inr (num_error "Atoi" s "invalid syntax")
  | String _ _ =>
      match parse_digits (if neg then 2 ^ 63 else 2 ^ 63 - 1) 0 body with
      | inl n => inl (if neg then - n else n)
      | inr r => inr (num_error "Atoi" s r)
      end
  end.

Fixpoint format_digits (fuel : nat) (n : Z) (acc : string) : string :=
  match fuel with
  | O => acc
  | S f =>
      let acc' := String (digit_char (n mod 10)) acc in
      if n / 10 =? 0 then acc' else format_digits f (n / 10) acc'
  end.

(** [strconv.FormatUint(n, 10)]; the fuel is enough because [n < 2 ^ fuel]. *)
Definition FormatUint (n : Z) : string :=
  format_digits (S (Z.to_nat (Z.log2 n))) n "".

(** [strconv.Itoa], [strconv.FormatInt(n, 10)] and the verb [%d]. *)
Definition FormatInt (n : Z) : string :=
  if n <? 0 then "-" +:+ FormatUint (- n) else FormatUint n.

(** ** Lemmas *)

Lemma string_cons_app c a b : String c a +:+ b = String c (a +:+ b).
Proof. reflexivity. Qed.

Lemma string_app_assoc (a b c : string) : (a +:+ b) +:+ c = a +:+ (b +:+ c).
Proof. induction a as [|x a IH]; [reflexivity|]. rewrite !string_cons_app. by f_equal. Qed.

Lemma string_app_nil_r (a : string) : a +:+ "" = a.
Proof. induction a as [|x a IH]; [reflexivity|]. rewrite string_cons_app. by f_equal. Qed.

Lemma string_app_length (a b : string) :
  String.length (a +:+ b) = (String.length a + String.length b)%nat.
Proof. induction a as [|x a IH]; [reflexivity|]. rewrite string_cons_app. cbn. by rewrite IH. Qed.

Lemma len_app a b : len (a +:+ b) = len a + len b.
Proof. unfold len. rewrite string_app_length. lia. Qed.

Lemma len_nonneg s : 0 <= len s.
Proof. unfold len. lia. Qed.

Lemma len_nil : len "" = 0.
Proof. reflexivity. Qed.

Lemma substring_full (s : string) : String.substring 0 (String.length s) s = s.
Proof. induction s as [|c s IH]; [reflexivity|]. cbn. by rewrite IH. Qed.

Lemma substring_length (s : string) i n :
  (i + n <= String.length s)%nat -> String.length (String.substring i n s) = n.
Proof.
  revert i n. induction s as [|c s IH]; intros i n H; cbn in *.
  - destruct i, n; cbn; lia.
  - destruct i as [|i].
    + destruct n as [|n]; [reflexivity|]. cbn. rewrite IH; lia.
    + apply IH. lia.
Qed.

(** Two adjacent slices are the slice of the union. *)
Lemma substring_split (s : string) i a b :
  (i + a + b <= String.length s)%nat ->
  String.substring i (a + b) s = String.substring i a s +:+ String.substring (i + a) b s.
Proof.
  revert i a. induction s as [|c s IH]; intros i a H; cbn in *.
  - assert (a = 0%nat) as -> by lia. assert (b = 0%nat) as -> by lia. by destruct i.
  - destruct i as [|i]; cbn.
    + destruct a as [|a]; cbn.
      * by destruct b.
      * rewrite string_cons_app. f_equal. exact (IH 0%nat a ltac:(lia)).
    + rewrite IH by lia. reflexivity.
Qed.

Lemma get_string_app (a b : string) i :
  String.get i (a +:+ b) =
    if (i <? String.length a)%nat then String.get i a else String.get (i - String.length a) b.
Proof.
  revert i. induction a as [|x a IH]; intros i.
  - cbn. by rewrite Nat.sub_0_r.
  - rewrite string_cons_app. destruct i as [|i]; [reflexivity|]. exact (IH i).
Qed.

Lemma get_string_list (s : string) i : String.get i s = String.list_ascii_of_string s !! i.
Proof. revert i. induction s as [|c s IH]; intros [|i]; cbn; auto. Qed.

Lemma get_lt_Some (s : string) i : (i < String.length s)%nat -> exists c, String.get i s = Some c.
Proof.
  revert i. induction s as [|c s IH]; intros i H; cbn in *; [lia|].
  destruct i as [|i]; [eauto|]. apply IH. lia.
Qed.

Lemma length_list_ascii (s : string) : length (String.list_ascii_of_string s) = String.length s.
Proof. induction s as [|c s IH]; cbn; congruence. Qed.

Lemma byte_at_Ret s i : 0 <= i < len s -> exists c, byte_at s i = Ret c /\ String.get (Z.to_nat i) s = Some c.
Proof.
  intros H. unfold byte_at. unfold len in *.
  rewrite (proj2 (Z.leb_le _ _)), (proj2 (Z.ltb_lt _ _)) by lia. cbn.
  destruct (get_lt_Some s (Z.to_nat i)) as [c Hc]; [lia|]. rewrite Hc. eauto.
Qed.

Lemma byte_range c : 0 <= byte c < 256.
Proof. unfold byte. pose proof (N_ascii_bounded c). lia. Qed.

Lemma is_digit_spec c : is_digit c = true <-> 48 <= byte c <= 57.
Proof.
  unfold is_digit, in_range. change (byte "0"%char) with 48. change (byte "9"%char) with 57.
  rewrite andb_true_iff, !Z.leb_le. reflexivity.
Qed.

Lemma byte_digit_char d : 0 <= d <= 9 -> byte (digit_char d) = d + 48.
Proof.
  intros H. unfold byte, digit_char. rewrite N_ascii_embedding by lia. lia.
Qed.

Lemma is_digit_char d : 0 <= d <= 9 -> is_digit (digit_char d) = true.
Proof. intros H. apply is_digit_spec. rewrite byte_digit_char; lia. Qed.

Lemma digit_value_char d : 0 <= d <= 9 -> digit_value (digit_char d) = d.
Proof. intros H. unfold digit_value. rewrite byte_digit_char; lia. Qed.

Lemma format_digits_all_digits fuel n acc :
  0 <= n -> string_forallb is_digit acc = true ->
  string_forallb is_digit (format_digits fuel n acc) = true.
Proof.
  revert n acc. induction fuel as [|f IH]; intros n acc Hn Hacc; [exact Hacc|].
  assert (string_forallb is_digit (String (digit_char (n mod 10)) acc) = true) as Hacc'.
  { cbn. rewrite Hacc, is_digit_char; [reflexivity|].
    pose proof (Z.mod_pos_bound n 10). lia. }
  cbn. destruct (n / 10 =? 0); [exact Hacc'|]. apply IH; [|exact Hacc'].
  apply Z.div_pos; lia.
Qed.

Lemma FormatUint_digits n : 0 <= n -> string_forallb is_digit (FormatUint n) = true.
Proof. intros Hn. by apply format_digits_all_digits. Qed.

Lemma format_digits_nonempty fuel n acc : format_digits (S fuel) n acc <> "".
Proof.
  revert n acc. induction fuel as [|f IH]; intros n acc; cbn.
  - by destruct (n / 10 =? 0).
  - destruct (n / 10 =? 0); [done|]. apply (IH (n / 10)).
Qed.

Lemma FormatUint_nonempty n : FormatUint n <> "".
Proof. apply format_digits_nonempty. Qed.

(** Parsing what was printed: the printed digits push [n] onto [acc]. *)
Lemma parse_format_digits max fuel n rest a :
  0 <= n < 2 ^ Z.of_nat fuel -> 0 <= a ->
  (exists k, 0 <= k /\ (a * 10 ^ k + n) <= max /\
     parse_digits max a (format_digits fuel n rest) = parse_digits max (a * 10 ^ k + n) rest)
  \/ (exists k, 0 <= k /\ max < a * 10 ^ k + n).
Proof.
  revert n rest. induction fuel as [|f IH]; intros n rest Hn Ha.
  { cbn in Hn. assert (n = 0) as -> by lia. cbn.
    destruct (Z.leb_spec a max).
    - left. exists 0. rewrite Z.pow_0_r, Z.mul_1_r, Z.add_0_r. split; [lia|]. split; [lia|done].
    - right. exists 0. rewrite Z.pow_0_r. lia. }
  cbn [format_digits]. pose proof (Z.mod_pos_bound n 10 ltac:(lia)) as Hm.
  pose proof (Z.div_mod n 10 ltac:(lia)) as Hdm.
  assert (0 <= n / 10) by (apply Z.div_pos; lia).
  destruct (Z.eqb_spec (n / 10) 0) as [E|E].
  - cbn [parse_digits]. rewrite is_digit_char by lia. rewrite digit_value_char by lia.
    destruct (Z.ltb_spec max (a * 10 + n mod 10)) as [Hlt|Hge].
    + right. exists 1. rewrite Z.pow_1_r. lia.
    + left. exists 1. rewrite Z.pow_1_r. split; [lia|]. split; [lia|]. f_equal. lia.
  - assert (n / 10 < 2 ^ Z.of_nat f).
    { rewrite Nat2Z.inj_succ, Z.pow_succ_r in Hn by lia. lia. }
    destruct (IH (n / 10) (String (digit_char (n mod 10)) rest)) as [(k & Hk & Hle & ->)|(k & Hk & Hlt)];
      [lia|lia| |].
    + cbn [parse_digits]. rewrite is_digit_char by lia. rewrite digit_value_char by lia.
      assert (a * 10 ^ (k + 1) + n = (a * 10 ^ k + n / 10) * 10 + n mod 10) as Eq.
      { rewrite Z.pow_add_r, Z.pow_1_r by lia. lia. }
      destruct (Z.ltb_spec max ((a * 10 ^ k + n / 10) * 10 + n mod 10)).
      * right. exists (k + 1). split; [lia|]. lia.
      * left. exists (k + 1). split; [lia|]. split; [lia|]. f_equal. lia.
    + right. exists (k + 1). split; [lia|]. rewrite Z.pow_add_r, Z.pow_1_r by lia. lia.
Qed.

Lemma log2_fuel n : 0 <= n -> n < 2 ^ Z.of_nat (S (Z.to_nat (Z.log2 n))).
Proof.
  intros Hn. rewrite Nat2Z.inj_succ, Z2Nat.id by apply Z.log2_nonneg.
  destruct (Z.eq_dec n 0) as [->|]; [cbn; lia|]. apply Z.log2_spec. lia.
Qed.

Lemma parse_digits_FormatUint max n rest :
  0 <= n <= max -> parse_digits max 0 (format_digits (S (Z.to_nat (Z.log2 n))) n rest) = parse_digits max n rest.
Proof.
  intros Hn. pose proof (log2_fuel n ltac:(lia)).
  destruct (parse_format_digits max (S (Z.to_nat (Z.log2 n))) n rest 0) as [(k & _ & _ & ->)|(k & _ & Hlt)];
    [lia|lia|f_equal; lia|lia].
Qed.

(** [ParseUint] inverts [FormatUint] on every value of the width. *)
Lemma ParseUint_FormatUint bits n :
  0 <= n < 2 ^ bits -> ParseUint (FormatUint n) bits = inl n.
Proof.
  intros Hn. unfold ParseUint.
  destruct (FormatUint n) as [|c s] eqn:E; [by destruct (FormatUint_nonempty n)|].
  rewrite <- E. unfold FormatUint. rewrite parse_digits_FormatUint by lia. reflexivity.
Qed.

Lemma FormatUint_inj n m : 0 <= n -> 0 <= m -> FormatUint n = FormatUint m -> n = m.
Proof.
  intros Hn Hm E.
  set (b := Z.max n m + 1). assert (n < 2 ^ b) by (apply Z.lt_trans with b; [lia|apply Z.pow_gt_lin_r; lia]).
  assert (m < 2 ^ b) by (apply Z.lt_trans with b; [lia|apply Z.pow_gt_lin_r; lia]).
  pose proof (ParseUint_FormatUint b n ltac:(lia)) as P1.
  pose proof (ParseUint_FormatUint b m ltac:(lia)) as P2.
  rewrite E in P1. congruence.
Qed.

Lemma parse_digits_range max a s n : 0 <= a -> parse_digits max a s = inl n -> 0 <= n.
Proof.
  revert a. induction s as [|c s IH]; intros a Ha; cbn; [congruence|].
  destruct (is_digit c) eqn:Hd; [|congruence].
  destruct (max <? _); [congruence|]. apply IH.
  apply is_digit_spec in Hd. unfold digit_value. lia.
Qed.

Lemma parse_digits_le max a s n : a <= max -> parse_digits max a s = inl n -> n <= max.
Proof.
  revert a. induction s as [|c s IH]; intros a Ha; cbn; [intros [= <-]; exact Ha|].
  destruct (is_digit c); [|congruence].
  destruct (Z.ltb_spec max (a * 10 + digit_value c)); [congruence|]. apply IH. lia.
Qed.

Lemma ParseUint_range s bits n : 0 <= bits -> ParseUint s bits = inl n -> 0 <= n < 2 ^ bits.
Proof.
  intros Hb. unfold ParseUint. destruct s as [|c s]; [congruence|].
  destruct (parse_digits _ 0 _) as [m|] eqn:E; [|congruence]. intros [= <-].
  split; [by eapply parse_digits_range, E|].
  apply parse_digits_le in E; [lia|]. pose proof (Z.pow_pos_nonneg 2 bits). lia.
Qed.

#[export] Hint Rewrite string_app_assoc string_app_nil_r len_app : go.

#[global] Arguments FormatUint : simpl never.
#[global] Arguments FormatInt : simpl never.
#[global] Arguments ParseUint : simpl never.
#[global] Arguments Atoi : simpl never.
#[global] Arguments ReplaceAll : simpl never.
#[global] Arguments TrimSpace : simpl never.
#[global] Arguments TrimSuffix : simpl never.
