(* ===== verification/Json.v ===== *)
(** * Go's [encoding/json], as far as the engine uses it

    [Parse] is the decoder's reading of a text (the grammar of the scanner,
    with its nesting limit, and the unquoting of strings); [Print] is the
    encoder's compact output with HTML escaping.  [decode_map], [decode_uint],
    [decode_string] and [decode_list] are [json.Unmarshal] into the Go types
    the engine decodes into: a value of the wrong type does not stop the
    decoding, it leaves the zero value behind and the first such error is
    returned at the end.  [parse_print] is the round trip on which the
    round-trip theorems of the components rest.

    Error texts of the package are represented by a short tag. *)

From stdpp Require Import base gmap strings list fin_maps sorting.
From Stdlib Require Import ZArith Lia Ascii.
From S2P Require Import Prelude GoString.

#[local] Unset Elimination Schemes.
Inductive json : Type :=
| JNull
| JBool (b : bool)
| JNum (lit : string)
| JStr (s : string)
| JArr (l : list json)
| JObj (l : list (string * json)).
#[local] Set Elimination Schemes.

(** ** Characters *)

Definition ch (n : N) : ascii := ascii_of_N n.
Definition quote_c : ascii := ch 34.
Definition backslash_c : ascii := ch 92.

Definition is_ws (c : ascii) : bool :=
  match N_of_ascii c with
  | 32 | 9 | 10 | 13 => true
  | _ => false
  end%N.

Fixpoint skip_ws (s : string) : string :=
  match s with
  | String c s' => if is_ws c then skip_ws s' else s
  | EmptyString => EmptyString
  end.

Definition hex_value (c : ascii) : option Z :=
  if is_digit c then Some (byte c - 48)
  else if in_range "a"%char "f"%char c then Some (byte c - 87)
  else if in_range "A"%char "F"%char c then Some (byte c - 55)
  else None.

Definition hex_digit (d : Z) : ascii :=
  if d <? 10 then ch (Z.to_N (d + 48)) else ch (Z.to_N (d + 87)).

(** The value of [\uXXXX] digits. *)
Definition hex4 (s : string) : option (Z * string) :=
  match s with
  | String a (String b (String c (String d r))) =>
      match hex_value a, hex_value b, hex_value c, hex_value d with
      | Some x, Some y, Some z, Some w => Some (((x * 16 + y) * 16 + z) * 16 + w, r)
      | _, _, _, _ => None
      end
  | _ => None
  end.

(** [utf8.EncodeRune]; surrogates and out-of-range values become U+FFFD. *)
Definition encode_rune (r : Z) : string :=
  let r := if ((0 <=? r) && (r <? 55296)) || ((57343 <? r) && (r <=? 1114111)) then r else 65533 in
  let b n := ch (Z.to_N n) in
  if r <? 128 then String (b r) ""
  else if r <? 2048 then String (b (192 + r / 64)) (String (b (128 + r mod 64)) "")
  else if r <? 65536 then
    String (b (224 + r / 4096)) (String (b (128 + (r / 64) mod 64)) (String (b (128 + r mod 64)) ""))
  else
    String (b (240 + r / 262144)) (String (b (128 + (r / 4096) mod 64))
      (String (b (128 + (r / 64) mod 64)) (String (b (128 + r mod 64)) ""))).

(** [utf8.DecodeRune]: the length of the rune at the head, 0 when invalid. *)
Definition rune_len (s : string) : nat :=
  let cont lo hi c := (lo <=? byte c) && (byte c <=? hi) in
  match s with
  | EmptyString => 0%nat
  | String a s1 =>
      let x := byte a in
      if x <? 128 then 1%nat
      else if (194 <=? x) && (x <=? 223) then
        match s1 with String b _ => if cont 128 191 b then 2%nat else 0%nat | _ => 0%nat end
      else if (224 <=? x) && (x <=? 239) then
        match s1 with
        | String b (String c _) =>
            if cont (if x =? 224 then 160 else 128) (if x =? 237 then 159 else 191) b && cont 128 191 c
            then 3%nat else 0%nat
        | _ => 0%nat
        end
      else if (240 <=? x) && (x <=? 244) then
        match s1 with
        | String b (String c (String d _)) =>
            if cont (if x =? 240 then 144 else 128) (if x =? 244 then 143 else 191) b
               && cont 128 191 c && cont 128 191 d
            then 4%nat else 0%nat
        | _ => 0%nat
        end
      else 0%nat
  end.

Definition take_str (n : nat) (s : string) : string := String.substring 0 n s.
Definition drop_str (n : nat) (s : string) : string := String.substring n (String.length s - n) s.

(** ** Strings *)

(** The character a one-letter escape stands for. *)
Definition simple_escape (c : ascii) : option ascii :=
  match N_of_ascii c with
  | 34 => Some (ch 34) | 92 => Some (ch 92) | 47 => Some (ch 47)
  | 98 => Some (ch 8) | 102 => Some (ch 12) | 110 => Some (ch 10)
  | 114 => Some (ch 13) | 116 => Some (ch 9)
  | _ => None
  end%N.

Definition is_surrogate (r : Z) : bool := (55296 <=? r) && (r <? 57344).

Definition prepend (u : string) (o : option (string * string)) : option (string * string) :=
  match o with Some (v, rest) => Some (u +:+ v, rest) | None => None end.

(** A string literal after its opening quote: the unquoted bytes and the rest
    of the input.  Invalid UTF-8 and lone surrogates become U+FFFD. *)
Fixpoint scan_string (fuel : nat) (s : string) : option (string * string) :=
  match fuel with
  | O => None
  | S f =>
      match s with
      | EmptyString => None
      | String c r =>
          if Ascii.eqb c quote_c then Some ("", r)
          else if Ascii.eqb c backslash_c then
            match r with
            | EmptyString => None
            | String e r1 =>
                match simple_escape e with
                | Some x => prepend (String x "") (scan_string f r1)
                | None =>
                    if Ascii.eqb e "u"%char then
                      match hex4 r1 with
                      | None => None
                      | Some (v, r2) =>
                          if is_surrogate v then
                            let lone := prepend (encode_rune 65533) (scan_string f r2) in
                            match r2 with
                            | String b (String u2 r3) =>
                                if Ascii.eqb b backslash_c && Ascii.eqb u2 "u"%char then
                                  match hex4 r3 with
                                  | Some (v2, r4) =>
                                      if (v <? 56320) && (56320 <=? v2) && (v2 <? 57344) then
                                        prepend (encode_rune ((v - 55296) * 1024 + (v2 - 56320) + 65536))
                                          (scan_string f r4)
                                      else lone
                                  | None => None
                                  end
                                else lone
                            | _ => lone
                            end
                          else prepend (encode_rune v) (scan_string f r2)
                      end
                    else None
                end
            end
          else if byte c <? 32 then None
          else if byte c <? 128 then prepend (String c "") (scan_string f r)
          else
            match rune_len s with
            | O => prepend (encode_rune 65533) (scan_string f r)
            | n => prepend (take_str n s) (scan_string f (drop_str n s))
            end
      end
  end.

(** The encoder's form of one ASCII byte, with HTML escaping. *)
Definition quote_byte (c : ascii) : string :=
  let n := byte c in
  if (n =? 34) || (n =? 92) then String backslash_c (String c "")
  else if n =? 8 then String backslash_c "b"
  else if n =? 12 then String backslash_c "f"
  else if n =? 10 then String backslash_c "n"
  else if n =? 13 then String backslash_c "r"
  else if n =? 9 then String backslash_c "t"
  else if (n <? 32) || (n =? 60) || (n =? 62) || (n =? 38) then
    String backslash_c ("u00" +:+ String (hex_digit (n / 16)) (String (hex_digit (n mod 16)) ""))
  else String c "".

Fixpoint quote_body (fuel : nat) (s : string) : string :=
  match fuel with
  | O => ""
  | S f =>
      match s with
      | EmptyString => ""
      | String c r =>
          if byte c <? 128 then quote_byte c +:+ quote_body f r
          else
            match rune_len s with
            | O => String backslash_c "ufffd" +:+ quote_body f r
            | n =>
                let u := take_str n s in
                (if String.eqb u (encode_rune 8232) then String backslash_c "u2028"
                 else if String.eqb u (encode_rune 8233) then String backslash_c "u2029"
                 else u) +:+ quote_body f (drop_str n s)
            end
      end
  end.

(** The encoder's string literal. *)
Definition quote (s : string) : string :=
  dq +:+ quote_body (String.length s) s +:+ dq.

(** ** Numbers *)

Fixpoint span_digits (s : string) : string * string :=
  match s with
  | String c r => if is_digit c then let '(d, rest) := span_digits r in (String c d, rest) else ("", s)
  | EmptyString => ("", "")
  end.

Definition scan_frac (s : string) : option (string * string) :=
  match s with
  | String "." r =>
      let '(d, rest) := span_digits r in
      match d with EmptyString => None | _ => Some (String "." d, rest) end
  | _ => Some ("", s)
  end.

Definition scan_exp (s : string) : option (string * string) :=
  match s with
  | String e r =>
      if Ascii.eqb e "e"%char || Ascii.eqb e "E"%char then
        let '(sgn, r1) :=
          match r with
          | String c r' => if Ascii.eqb c "+"%char || Ascii.eqb c "-"%char then (String c "", r') else ("", r)
          | EmptyString => ("", r)
          end in
        let '(d, rest) := span_digits r1 in
        match d with EmptyString => None | _ => Some (String e (sgn +:+ d), rest) end
      else Some ("", s)
  | EmptyString => Some ("", s)
  end.

Definition scan_number (s : string) : option (string * string) :=
  let '(sgn, r) := match s with String "-" r => ("-", r) | _ => ("", s) end in
  let '(ds, r1) := span_digits r in
  match ds with
  | EmptyString => None
  | String d0 d =>
      if Ascii.eqb d0 "0"%char && negb (String.eqb d "") then None
      else
        match scan_frac r1 with
        | None => None
        | Some (fr, r2) =>
            match scan_exp r2 with
            | None => None
            | Some (ex, r3) => Some (sgn +:+ ds +:+ fr +:+ ex, r3)
            end
        end
  end.

(** ** Values *)

(** What follows the byte [c], when the text begins with it. *)
Definition expect (c : ascii) (s : string) : option string :=
  match s with
  | String d r => if Ascii.eqb d c then Some r else None
  | EmptyString => None
  end.

(** The literal tokens and numbers. *)
Definition parse_scalar (s : string) : option (json * string) :=
  match drop_prefix "null" s, drop_prefix "true" s, drop_prefix "false" s with
  | Some rest, _, _ => Some (JNull, rest)
  | None, Some rest, _ => Some (JBool true, rest)
  | None, None, Some rest => Some (JBool false, rest)
  | None, None, None =>
      match scan_number s with
      | Some (lit, rest) => Some (JNum lit, rest)
      | None => None
      end
  end.

Fixpoint parse_value (fuel : nat) (depth : nat) (s : string) : option (json * string) :=
  match fuel with
  | O => None
  | S f =>
      match skip_ws s with
      | EmptyString => None
      | String c r =>
          if Ascii.eqb c quote_c then
            match scan_string (String.length r) r with
            | Some (u, rest) => Some (JStr u, rest)
            | None => None
            end
          else if Ascii.eqb c "{"%char then
            match depth with
            | O => None
            | S d =>
                match expect "}"%char (skip_ws r) with
                | Some rest => Some (JObj [], rest)
                | None => match parse_members f d r with
                          | Some (ms, rest) => Some (JObj ms, rest)
                          | None => None
                          end
                end
            end
          else if Ascii.eqb c "["%char then
            match depth with
            | O => None
            | S d =>
                match expect "]"%char (skip_ws r) with
                | Some rest => Some (JArr [], rest)
                | None => match parse_elems f d r with
                          | Some (es, rest) => Some (JArr es, rest)
                          | None => None
                          end
                end
            end
          else parse_scalar (String c r)
      end
  end
with parse_elems (fuel : nat) (depth : nat) (s : string) : option (list json * string) :=
  match fuel with
  | O => None
  | S f =>
      match parse_value f depth s with
      | None => None
      | Some (j, r) =>
          match expect "]"%char (skip_ws r), expect ","%char (skip_ws r) with
          | Some rest, _ => Some ([j], rest)
          | None, Some r' =>
              match parse_elems f depth r' with
              | Some (js, rest) => Some (j :: js, rest)
              | None => None
              end
          | None, None => None
          end
      end
  end
with parse_members (fuel : nat) (depth : nat) (s : string) : option (list (string * json) * string) :=
  match fuel with
  | O => None
  | S f =>
      match expect quote_c (skip_ws s) with
      | None => None
      | Some r0 =>
          match scan_string (String.length r0) r0 with
          | None => None
          | Some (k, r) =>
              match expect ":"%char (skip_ws r) with
              | None => None
              | Some r1 =>
                  match parse_value f depth r1 with
                  | None => None
                  | Some (j, r2) =>
                      match expect "}"%char (skip_ws r2), expect ","%char (skip_ws r2) with
                      | Some rest, _ => Some ([(k, j)], rest)
                      | None, Some r' =>
                          match parse_members f depth r' with
                          | Some (ms, rest) => Some ((k, j) :: ms, rest)
                          | None => None
                          end
                      | None, None => None
                      end
                  end
              end
          end
      end
  end.

(** The decoder's nesting limit. *)
Definition max_depth : nat := Z.to_nat 10000.

Definition Parse (s : string) : option json :=
  match parse_value (2 * String.length s + 2) max_depth s with
  | Some (j, rest) => match skip_ws rest with EmptyString => Some j | _ => None end
  | None => None
  end.

(** [json.Valid] *)
Definition Valid (s : string) : bool :=
  match Parse s with Some _ => true | None => false end.

(** The encoder's compact form. *)
Fixpoint Print (j : json) : string :=
  match j with
  | JNull => "null"
  | JBool true => "true"
  | JBool false => "false"
  | JNum lit => lit
  | JStr s => quote s
  | JArr l => "[" +:+ Join (map Print l) "," +:+ "]"
  | JObj l => "{" +:+ Join (map (fun kv => quote kv.1 +:+ ":" +:+ Print kv.2) l) "," +:+ "}"
  end.

(** ** Unmarshal into Go types *)

Definition syntax_error : error := "json: invalid JSON input".
Definition type_error (ty : string) : error := "json: cannot unmarshal value into Go value of type " +:+ ty.

(** A decoded element and the error its decoding saved. *)
Definition decoded (A : Type) : Type := A * option error.

Definition first_error (e1 e2 : option error) : option error :=
  match e1 with Some _ => e1 | None => e2 end.

(** A number into an unsigned integer of [bits] bits. *)
Definition decode_uint (bits : Z) (ty : string) (j : json) : decoded Z :=
  match j with
  | JNull => (0, None)
  | JNum lit =>
      match ParseUint lit 64 with
      | inl n => if n <? 2 ^ bits then (n, None) else (0, Some (type_error ty))
      | inr _ => (0, Some (type_error ty))
      end
  | _ => (0, Some (type_error ty))
  end.

(** A number into a 64-bit [int]. *)
Definition decode_int (j : json) : decoded Z :=
  match j with
  | JNull => (0, None)
  | JNum lit =>
      match Atoi lit with
      | inl n => (n, None)
      | inr _ => (0, Some (type_error "int"))
      end
  | _ => (0, Some (type_error "int"))
  end.

Definition decode_string (j : json) : decoded string :=
  match j with
  | JNull => ("", None)
  | JStr s => (s, None)
  | _ => ("", Some (type_error "string"))
  end.

(** An object into a [map[string]T], on top of the entries [m] has already. *)
Definition decode_map_from {A} (elem : json -> decoded A) (ty : string)
    (m : gmap string A) (j : json) : decoded (gmap string A) :=
  match j with
  | JNull => (m, None)
  | JObj l =>
      foldl (fun acc kv => let '(v, e) := elem kv.2 in
                           (<[kv.1 := v]> acc.1, first_error acc.2 e)) (m, None) l
  | _ => (m, Some (type_error ty))
  end.

Definition decode_map {A} (elem : json -> decoded A) (ty : string) (j : json) : decoded (gmap string A) :=
  decode_map_from elem ty ∅ j.

Definition decode_list {A} (elem : json -> decoded A) (ty : string) (j : json) : decoded (list A) :=
  match j with
  | JNull => ([], None)
  | JArr l =>
      foldr (fun x acc => let '(v, e) := elem x in (v :: acc.1, first_error e acc.2)) ([], None) l
  | _ => ([], Some (type_error ty))
  end.

(** [json.Unmarshal]: the whole text is checked first, so a syntax error
    leaves the target at its zero value. *)
Definition Unmarshal {A} (dec : json -> decoded A) (zero : A) (s : string) : decoded A :=
  match Parse s with
  | None => (zero, Some syntax_error)
  | Some j => dec j
  end.

(** ** Marshal of Go maps: keys in increasing byte order *)

Definition str_le (a b : string * json) : Prop := String.le a.1 b.1.

#[global] Instance str_le_dec : RelDecision str_le.
Proof. intros a b. unfold str_le. apply _. Defined.

Definition sort_members (l : list (string * json)) : list (string * json) :=
  merge_sort str_le l.

Definition json_of_map {MR : MapRange} {A} (f : A -> json) (m : gmap string A) : json :=
  JObj (sort_members (prod_map id f <$> range m)).

(** ** Round trip *)

Section json_induction.
Variable P : json -> Prop.
Hypothesis Hnull : P JNull.
Hypothesis Hbool : forall b, P (JBool b).
Hypothesis Hnum : forall lit, P (JNum lit).
Hypothesis Hstr : forall s, P (JStr s).
Hypothesis Harr : forall l, Forall P l -> P (JArr l).
Hypothesis Hobj : forall l, Forall (fun kv => P kv.2) l -> P (JObj l).

Fixpoint json_nested_ind (j : json) : P j :=
  match j with
  | JNull => Hnull
  | JBool b => Hbool b
  | JNum lit => Hnum lit
  | JStr s => Hstr s
  | JArr l =>
      Harr l ((fix go l : Forall P l :=
                 match l with
                 | [] => Forall_nil_2 P
                 | x :: l' => Forall_cons_2 P x l' (json_nested_ind x) (go l')
                 end) l)
  | JObj l =>
      Hobj l ((fix go l : Forall (fun kv => P kv.2) l :=
                 match l with
                 | [] => Forall_nil_2 _
                 | kv :: l' => Forall_cons_2 _ kv l' (json_nested_ind kv.2) (go l')
                 end) l)
  end.
End json_induction.

Definition ascii_str (s : string) : Prop := string_forallb is_ascii s = true.

(** A text after which a number literal is complete. *)
Definition num_delim (rest : string) : Prop :=
  match rest with
  | EmptyString => True
  | String c _ => is_digit c = false /\ c <> "."%char /\ c <> "e"%char /\ c <> "E"%char
  end.

Definition num_ok (lit : string) : Prop :=
  (exists c r, lit = String c r /\ (is_digit c = true \/ c = "-"%char)) /\
  forall rest, num_delim rest -> scan_number (lit +:+ rest) = Some (lit, rest).

Fixpoint wf_json (j : json) : Prop :=
  match j with
  | JNull | JBool _ => True
  | JNum lit => num_ok lit
  | JStr s => ascii_str s
  | JArr l => foldr (fun x acc => wf_json x /\ acc) True l
  | JObj l => foldr (fun kv acc => (ascii_str kv.1 /\ wf_json kv.2) /\ acc) True l
  end.

Fixpoint jfuel (j : json) : nat :=
  match j with
  | JArr l => S (foldr (fun x acc => S (Nat.max (jfuel x) acc)) 0%nat l)
  | JObj l => S (foldr (fun kv acc => S (Nat.max (jfuel kv.2) acc)) 0%nat l)
  | _ => 1%nat
  end.

Fixpoint jdepth (j : json) : nat :=
  match j with
  | JArr l => S (foldr (fun x acc => Nat.max (jdepth x) acc) 0%nat l)
  | JObj l => S (foldr (fun kv acc => Nat.max (jdepth kv.2) acc) 0%nat l)
  | _ => 0%nat
  end.

Lemma scan_quote_byte c f t :
  is_ascii c = true ->
  scan_string (S f) (quote_byte c +:+ t) = prepend (String c "") (scan_string f t).
Proof.
  destruct c as [[] [] [] [] [] [] [] []]; intros H; try discriminate H; reflexivity.
Qed.

Lemma scan_quote_body s fuel rest :
  ascii_str s -> (String.length s < fuel)%nat ->
  scan_string fuel (quote_body (String.length s) s +:+ dq +:+ rest) = Some (s, rest).
Proof.
  unfold ascii_str. revert fuel. induction s as [|c s IH]; intros fuel Hs Hf.
  - destruct fuel; [cbn in Hf; lia|]. reflexivity.
  - cbn in Hs, Hf. apply andb_true_iff in Hs as [Hc Hs].
    destruct fuel as [|f]; [lia|]. cbn [quote_body String.length].
    unfold is_ascii in Hc. rewrite Hc. rewrite string_app_assoc.
    rewrite scan_quote_byte by exact Hc. rewrite IH by (auto; lia). reflexivity.
Qed.

Lemma quote_app s rest : quote s +:+ rest = String quote_c (quote_body (String.length s) s +:+ dq +:+ rest).
Proof. unfold quote. rewrite !string_app_assoc. reflexivity. Qed.

Lemma quote_body_length s : ascii_str s -> (String.length s <= String.length (quote_body (String.length s) s))%nat.
Proof.
  unfold ascii_str. induction s as [|c s IH]; intros Hs; cbn in *; [lia|].
  apply andb_true_iff in Hs as [Hc Hs]. unfold is_ascii in Hc. rewrite Hc, string_app_length.
  specialize (IH Hs). enough (1 <= String.length (quote_byte c))%nat by lia.
  unfold quote_byte. repeat case_match; cbn; lia.
Qed.

Lemma scan_quote s rest :
  ascii_str s ->
  let r := quote_body (String.length s) s +:+ dq +:+ rest in
  scan_string (String.length r) r = Some (s, rest).
Proof.
  intros Hs r. subst r. apply scan_quote_body; [exact Hs|].
  rewrite !string_app_length. pose proof (quote_body_length s Hs). cbn. lia.
Qed.

Lemma skip_ws_nonws c s : is_ws c = false -> skip_ws (String c s) = String c s.
Proof. intros H. cbn. by rewrite H. Qed.

(** How a printed value begins: not with white space nor a closing bracket. *)
Lemma Print_head j :
  wf_json j -> exists c r, Print j = String c r /\ is_ws c = false /\ c <> "]"%char.
Proof.
  destruct j as [|[]|lit|s|l|l]; intros Hwf; cbn [Print].
  1-3: by eauto.
  - destruct Hwf as [(c & r & -> & Hc) _]. exists c, r. split; [done|].
    destruct Hc as [Hc| ->]; [|done].
    destruct c as [[] [] [] [] [] [] [] []]; try discriminate Hc; done.
  - unfold quote. eexists _, _. split; [reflexivity|done].
  - eexists _, _. split; [reflexivity|done].
  - eexists _, _. split; [reflexivity|done].
Qed.

Lemma num_delim_comma r : num_delim (String "," r).
Proof. done. Qed.
Lemma num_delim_bracket r : num_delim (String "]" r).
Proof. done. Qed.
Lemma num_delim_brace r : num_delim (String "}" r).
Proof. done. Qed.
#[local] Hint Resolve num_delim_comma num_delim_bracket num_delim_brace : core.

Lemma comma_app r : "," +:+ r = String "," r.
Proof. reflexivity. Qed.

Lemma expect_eq c r : expect c (String c r) = Some r.
Proof. cbn. by rewrite Ascii.eqb_refl. Qed.

Lemma expect_ne c d r : d <> c -> expect c (String d r) = None.
Proof. intros H. cbn. by rewrite (proj2 (Ascii.eqb_neq d c)). Qed.

Lemma Join_map_cons {A} (f : A -> string) x y l sep :
  Join (map f (x :: y :: l)) sep = f x +:+ sep +:+ Join (map f (y :: l)) sep.
Proof. reflexivity. Qed.

(** The parser inverts the printer on one value, whatever follows it. *)
Definition parses (j : json) : Prop :=
  forall fuel depth rest,
    (jfuel j <= fuel)%nat -> (jdepth j <= depth)%nat -> num_delim rest ->
    parse_value fuel depth (Print j +:+ rest) = Some (j, rest).

Lemma parse_num lit : num_ok lit -> parses (JNum lit).
Proof.
  intros [(c & r & -> & Hc) Hscan] [|fuel] depth rest Hf _ Hd; [cbn in Hf; lia|].
  cbn [Print]. specialize (Hscan rest Hd). rewrite string_cons_app in *. cbn [parse_value].
  assert (skip_ws (String c (r +:+ rest)) = String c (r +:+ rest)) as ->.
  { apply skip_ws_nonws. destruct Hc as [Hc| ->]; [|done].
    destruct c as [[] [] [] [] [] [] [] []]; try discriminate Hc; done. }
  assert (parse_scalar (String c (r +:+ rest)) = Some (JNum (String c r), rest)) as ->.
  { unfold parse_scalar. rewrite Hscan. destruct Hc as [Hc| ->]; [|reflexivity].
    destruct c as [[] [] [] [] [] [] [] []]; try discriminate Hc; reflexivity. }
  destruct Hc as [Hc| ->]; [|reflexivity].
  destruct c as [[] [] [] [] [] [] [] []]; try discriminate Hc; reflexivity.
Qed.

Lemma parse_str s : ascii_str s -> parses (JStr s).
Proof.
  intros Hs [|fuel] depth rest Hf _ _; [cbn in Hf; lia|].
  cbn [Print]. rewrite quote_app. cbn [parse_value].
  rewrite skip_ws_nonws by done. cbn [Ascii.eqb]. rewrite scan_quote by exact Hs. reflexivity.
Qed.

Lemma parse_elems_print l fuel depth rest :
  l <> [] -> Forall wf_json l -> Forall parses l ->
  (foldr (fun x acc => S (Nat.max (jfuel x) acc)) 0%nat l <= fuel)%nat ->
  (foldr (fun x acc => Nat.max (jdepth x) acc) 0%nat l <= depth)%nat ->
  parse_elems fuel depth (Join (map Print l) "," +:+ String "]" rest) = Some (l, rest).
Proof.
  intros Hne Hwf Hp. revert fuel. induction Hp as [|x l Hx Hl IH]; intros fuel Hf Hd; [done|].
  inversion Hwf; subst. cbn [foldr] in Hf, Hd.
  destruct fuel as [|f]; [lia|]. destruct l as [|y l].
  - cbn [map Join parse_elems]. rewrite Hx by (auto; lia). reflexivity.
  - rewrite Join_map_cons, !string_app_assoc, comma_app. cbn [parse_elems].
    rewrite Hx by (auto; lia). rewrite skip_ws_nonws by done. cbn [expect Ascii.eqb Bool.eqb].
    rewrite IH; [reflexivity|done|done|lia|lia].
Qed.

Lemma parse_members_print l fuel depth rest :
  l <> [] -> Forall (fun kv => ascii_str kv.1 /\ wf_json kv.2) l -> Forall (fun kv => parses kv.2) l ->
  (foldr (fun kv acc => S (Nat.max (jfuel kv.2) acc)) 0%nat l <= fuel)%nat ->
  (foldr (fun kv acc => Nat.max (jdepth kv.2) acc) 0%nat l <= depth)%nat ->
  parse_members fuel depth
    (Join (map (fun kv => quote kv.1 +:+ ":" +:+ Print kv.2) l) "," +:+ String "}" rest) = Some (l, rest).
Proof.
  intros Hne Hwf Hp. revert fuel. induction Hp as [|[k x] l Hx Hl IH]; intros fuel Hf Hd; [done|].
  inversion Hwf as [|? ? [Hk Hxw] Hwf']; subst. cbn [foldr fst snd] in *.
  destruct fuel as [|f]; [lia|].
  assert (forall t, num_delim t ->
    parse_members (S f) depth ((quote k +:+ ":" +:+ Print x) +:+ t) =
      match expect "}"%char (skip_ws t), expect ","%char (skip_ws t) with
      | Some rest, _ => Some ([(k, x)], rest)
      | None, Some r' =>
          match parse_members f depth r' with
          | Some (ms, rest) => Some ((k, x) :: ms, rest)
          | None => None
          end
      | None, None => None
      end) as Hstep.
  { intros t Ht. rewrite !string_app_assoc, quote_app. cbn [parse_members].
    rewrite skip_ws_nonws by done. rewrite expect_eq, scan_quote by exact Hk.
    change (":" +:+ ?a) with (String ":" a). rewrite skip_ws_nonws by done.
    rewrite expect_eq, Hx by (auto; lia). reflexivity. }
  destruct l as [|y l].
  - cbn [map Join fst snd]. rewrite Hstep by done. reflexivity.
  - rewrite Join_map_cons. cbn [fst snd]. set (hd := quote k +:+ ":" +:+ Print x) in *.
    rewrite !string_app_assoc, comma_app, Hstep by done. rewrite skip_ws_nonws by done. cbn [expect Ascii.eqb Bool.eqb].
    rewrite IH; [reflexivity|done|done|lia|lia].
Qed.

Lemma wf_arr_Forall l : foldr (fun x acc => wf_json x /\ acc) True l -> Forall wf_json l.
Proof. induction l; cbn; [constructor|]. intros []; constructor; auto. Qed.

Lemma wf_obj_Forall (l : list (string * json)) :
  foldr (fun kv acc => (ascii_str kv.1 /\ wf_json kv.2) /\ acc) True l ->
  Forall (fun kv => ascii_str kv.1 /\ wf_json kv.2) l.
Proof. induction l; cbn; [constructor|]. intros []; constructor; auto. Qed.

Lemma parse_value_print j : wf_json j -> parses j.
Proof.
  induction j as [|b|lit|s|l IH|l IH] using json_nested_ind; intros Hwf.
  - intros [|f] d rest Hf _ _; [cbn in Hf; lia|reflexivity].
  - intros [|f] d rest Hf _ _; [cbn in Hf; lia|]. destruct b; reflexivity.
  - by apply parse_num.
  - by apply parse_str.
  - intros [|f] d rest Hf Hd _; [cbn in Hf; lia|]. cbn in Hf, Hd, Hwf.
    apply wf_arr_Forall in Hwf. destruct d as [|d]; [lia|].
    cbn [Print]. rewrite !string_app_assoc.
    change ("[" +:+ ?a) with (String "[" a). change ("]" +:+ ?a) with (String "]" a).
    cbn [parse_value]. rewrite skip_ws_nonws by done. cbn [Ascii.eqb Bool.eqb].
    destruct l as [|x l]; [reflexivity|].
    assert (exists c r, Join (map Print (x :: l)) "," +:+ String "]" rest = String c r
              /\ is_ws c = false /\ c <> "]"%char) as (c & r & E & Hws & Hc).
    { destruct (Print_head x) as (c & r & E & ? & ?); [by inversion Hwf|].
      destruct l; cbn [map Join]; rewrite E; eauto. }
    rewrite (parse_elems_print (x :: l)); [|done|done| |lia|lia].
    + rewrite E, skip_ws_nonws, expect_ne by done. reflexivity.
    + rewrite Forall_forall in *. auto.
  - intros [|f] d rest Hf Hd _; [cbn in Hf; lia|]. cbn in Hf, Hd, Hwf.
    apply wf_obj_Forall in Hwf. destruct d as [|d]; [lia|].
    cbn [Print]. rewrite !string_app_assoc.
    change ("{" +:+ ?a) with (String "{" a). change ("}" +:+ ?a) with (String "}" a).
    cbn [parse_value]. rewrite skip_ws_nonws by done. cbn [Ascii.eqb Bool.eqb].
    destruct l as [|[k x] l]; [reflexivity|].
    assert (exists r, Join (map (fun kv => quote kv.1 +:+ ":" +:+ Print kv.2) ((k, x) :: l)) "," +:+ String "}" rest
              = String quote_c r) as (r & E).
    { destruct l; cbn [map Join fst snd]; rewrite !string_app_assoc, quote_app; eauto. }
    rewrite (parse_members_print ((k, x) :: l)); [|done|done| |lia|lia].
    { rewrite E, skip_ws_nonws, expect_ne by done. reflexivity. }
    rewrite Forall_forall in *. intros kv Hkv. apply IH, Hwf; assumption.
Qed.

Lemma foldr_max_fuel {A} (f : A -> string) (g : A -> nat) (l : list A) :
  Forall (fun x => (g x <= 2 * String.length (f x))%nat) l ->
  (foldr (fun x acc => S (Nat.max (g x) acc)) 0%nat l <= 2 * String.length (Join (map f l) ",") + 1)%nat.
Proof.
  induction 1 as [|x l Hx Hl IH]; [cbn; lia|]. destruct l as [|y l].
  - cbn in *. lia.
  - rewrite Join_map_cons, !string_app_length. cbn [foldr] in *. cbn [String.length]. lia.
Qed.

Lemma jfuel_bound j : wf_json j -> (jfuel j <= 2 * String.length (Print j))%nat.
Proof.
  induction j as [|b|lit|s|l IH|l IH] using json_nested_ind; intros Hwf; cbn [jfuel Print].
  - cbn. lia.
  - destruct b; cbn; lia.
  - destruct Hwf as [(c & r & -> & _) _]. cbn. lia.
  - unfold quote. rewrite !string_app_length. cbn. lia.
  - apply wf_arr_Forall in Hwf. rewrite !string_app_length. cbn [String.length].
    pose proof (foldr_max_fuel Print jfuel l) as H.
    enough (Forall (fun x => (jfuel x <= 2 * String.length (Print x))%nat) l) by (specialize (H ltac:(assumption)); lia).
    rewrite Forall_forall in *. auto.
  - apply wf_obj_Forall in Hwf. rewrite !string_app_length. cbn [String.length].
    pose proof (foldr_max_fuel (fun kv : string * json => quote kv.1 +:+ ":" +:+ Print kv.2) (fun kv => jfuel kv.2) l) as H.
    enough (Forall (fun kv : string * json => (jfuel kv.2 <= 2 * String.length (quote kv.1 +:+ ":" +:+ Print kv.2))%nat) l)
      by (specialize (H ltac:(assumption)); lia).
    rewrite Forall_forall in *. intros kv Hkv. specialize (IH kv Hkv). specialize (Hwf kv Hkv) as [_ Hw].
    specialize (IH Hw). rewrite !string_app_length. lia.
Qed.

(** Decoding what was encoded gives the value back. *)
Lemma Parse_Print j : wf_json j -> (jdepth j <= max_depth)%nat -> Parse (Print j) = Some j.
Proof.
  intros Hwf Hd. unfold Parse.
  pose proof (parse_value_print j Hwf (2 * String.length (Print j) + 2)%nat max_depth "") as H.
  rewrite string_app_nil_r in H. rewrite H; [reflexivity| |exact Hd|done].
  pose proof (jfuel_bound j Hwf). lia.
Qed.

Lemma span_digits_app d rest :
  string_forallb is_digit d = true ->
  match rest with String c _ => is_digit c = false | EmptyString => True end ->
  span_digits (d +:+ rest) = (d, rest).
Proof.
  intros Hd Hr. induction d as [|c d IH]; cbn in Hd.
  - change ("" +:+ rest) with rest. destruct rest as [|c r]; [reflexivity|]. cbn. by rewrite Hr.
  - apply andb_true_iff in Hd as [Hc Hd]. rewrite string_cons_app. cbn. by rewrite Hc, (IH Hd).
Qed.

Lemma format_digits_head fuel n acc :
  0 < n < 2 ^ Z.of_nat fuel -> exists c r, format_digits fuel n acc = String c r /\ c <> "0"%char.
Proof.
  revert n acc. induction fuel as [|f IH]; intros n acc Hn; [cbn in Hn; lia|].
  cbn [format_digits]. pose proof (Z.div_mod n 10 ltac:(lia)). pose proof (Z.mod_pos_bound n 10 ltac:(lia)).
  destruct (Z.eqb_spec (n / 10) 0).
  - eexists _, _. split; [reflexivity|]. intros E.
    assert (byte (digit_char (n mod 10)) = 48) as Hb by (rewrite E; reflexivity).
    rewrite byte_digit_char in Hb; lia.
  - apply IH. assert (0 <= n / 10) by (apply Z.div_pos; lia).
    rewrite Nat2Z.inj_succ, Z.pow_succ_r in Hn by lia. lia.
Qed.

Lemma FormatUint_head n :
  0 <= n -> exists c r, FormatUint n = String c r /\ is_digit c = true /\ (c = "0"%char -> r = "").
Proof.
  intros Hn. destruct (Z.eq_dec n 0) as [->|Hn0]; [by exists "0"%char, ""|].
  destruct (format_digits_head (S (Z.to_nat (Z.log2 n))) n "") as (c & r & E & Hc).
  { split; [lia|by apply log2_fuel]. }
  fold (FormatUint n) in E. exists c, r. split; [exact E|].
  pose proof (FormatUint_digits n Hn) as Hd. rewrite E in Hd. cbn in Hd.
  apply andb_true_iff in Hd as [Hd _]. done.
Qed.

Lemma scan_frac_delim rest : num_delim rest -> scan_frac rest = Some ("", rest).
Proof.
  destruct rest as [|c r]; [done|]. intros (_ & Hc & _). cbn.
  destruct c as [[] [] [] [] [] [] [] []]; try reflexivity. by destruct Hc.
Qed.

Lemma scan_exp_delim rest : num_delim rest -> scan_exp rest = Some ("", rest).
Proof.
  destruct rest as [|c r]; [done|]. intros (_ & _ & H1 & H2). cbn.
  rewrite (proj2 (Ascii.eqb_neq c "e"%char)), (proj2 (Ascii.eqb_neq c "E"%char)) by done. reflexivity.
Qed.

(** The decimal literals the encoder writes are scanned whole. *)
Lemma num_ok_FormatUint n : 0 <= n -> num_ok (FormatUint n).
Proof.
  intros Hn. destruct (FormatUint_head n Hn) as (c & r & E & Hc & Hz).
  split; [exists c, r; auto|]. intros rest Hr. unfold scan_number.
  assert ((match FormatUint n +:+ rest with String "-" r0 => ("-", r0) | _ => ("", FormatUint n +:+ rest) end)
          = ("", FormatUint n +:+ rest)) as ->.
  { rewrite E, string_cons_app. destruct c as [[] [] [] [] [] [] [] []]; try discriminate Hc; reflexivity. }
  rewrite span_digits_app; [|by apply FormatUint_digits|by destruct rest; [|apply Hr]].
  rewrite E. destruct (Ascii.eqb c "0"%char && negb (String.eqb r "")) eqn:Hzero.
  { apply andb_true_iff in Hzero as [H1 H2]. apply Ascii.eqb_eq in H1. rewrite (Hz H1) in H2. done. }
  rewrite scan_frac_delim, scan_exp_delim by exact Hr. cbn [app].
  change ("" +:+ ?a) with a. by rewrite !string_app_nil_r.
Qed.

Lemma ascii_str_digits s : string_forallb is_digit s = true -> ascii_str s.
Proof.
  unfold ascii_str. induction s as [|c s IH]; [done|]. cbn. rewrite !andb_true_iff.
  intros [Hc Hs]. split; [|auto]. apply is_digit_spec in Hc. unfold is_ascii. apply Z.ltb_lt. lia.
Qed.

Lemma ascii_FormatUint n : 0 <= n -> ascii_str (FormatUint n).
Proof. intros Hn. by apply ascii_str_digits, FormatUint_digits. Qed.

(** ** Decoding an encoded map *)

Lemma foldl_insert_list_to_map {A} (l : list (string * A)) (m : gmap string A) :
  NoDup l.*1 -> foldl (fun acc kv => <[kv.1 := kv.2]> acc) m l = list_to_map l ∪ m.
Proof.
  revert m. induction l as [|[k v] l IH]; intros m Hnd; cbn.
  - by rewrite map_empty_union.
  - inversion Hnd as [|? ? Hk Hnd']; subst. rewrite (IH _ Hnd').
    apply (not_elem_of_list_to_map_1 (M := gmap string)) in Hk.
    by rewrite <- insert_union_r, insert_union_l.
Qed.

Lemma sort_members_fmap {A} (f : A -> json) (l : list (string * A)) :
  exists l', l' ≡ₚ l /\ sort_members (prod_map id f <$> l) = prod_map id f <$> l'.
Proof.
  unfold sort_members.
  assert (merge_sort str_le (prod_map id f <$> l) ≡ₚ prod_map id f <$> l) as Hp by apply merge_sort_Permutation.
  apply Permutation_map_inv in Hp as (l' & E & Hp'). exists l'. split; [by symmetry|exact E].
Qed.

(** Members with distinct names are decoded into the map of their values. *)
Lemma decode_members {A B} (elem : json -> decoded B) (f : A -> json) (h : A -> B) ty (l : list (string * A)) :
  NoDup l.*1 -> Forall (fun kv => elem (f kv.2) = (h kv.2, None)) l ->
  decode_map elem ty (JObj (prod_map id f <$> l)) = (h <$> (list_to_map l : gmap string A), None).
Proof.
  intros Hnd Hall. unfold decode_map, decode_map_from.
  assert (forall m0, foldl (fun acc kv => let '(v, e) := elem kv.2 in (<[kv.1 := v]> acc.1, first_error acc.2 e))
            (m0, None) (prod_map id f <$> l)
          = (foldl (fun acc kv => <[kv.1 := kv.2]> acc) m0 (prod_map id h <$> l), None)) as ->.
  { clear Hnd. induction Hall as [|[k v] l Hv Hl IH]; intros m0; [reflexivity|].
    cbn in *. rewrite Hv. cbn. apply IH. }
  assert ((prod_map id h <$> l).*1 = l.*1) as E.
  { clear. induction l as [|[k a] l IH]; cbn; [done|]. f_equal. exact IH. }
  rewrite foldl_insert_list_to_map, map_union_empty by (rewrite E; exact Hnd). f_equal.
  apply (list_to_map_fmap (M := gmap string)).
Qed.

(** An element decoder that only inverts the encoder on the values of the map. *)
Lemma decode_json_of_map {MR : MapRange} {A} (elem : json -> decoded A) (f : A -> json) ty (m : gmap string A) :
  (forall k a, m !! k = Some a -> elem (f a) = (a, None)) -> decode_map elem ty (json_of_map f m) = (m, None).
Proof.
  intros Hef. unfold json_of_map. destruct (sort_members_fmap f (range m)) as (l' & Hp & ->).
  assert (NoDup l'.*1) as Hnd by (rewrite Hp; apply NoDup_fst_range).
  assert (Forall (fun kv => elem (f kv.2) = (kv.2, None)) l') as Hall.
  { apply Forall_forall. intros [k a] Hin. apply (Hef k). apply elem_of_range. by rewrite <- Hp. }
  rewrite (decode_members elem f id) by done. rewrite map_fmap_id. f_equal.
  transitivity (list_to_map (range m) : gmap string A); [|apply list_to_map_range].
  apply list_to_map_proper; [exact Hnd|by rewrite Hp].
Qed.

Lemma wf_members {A} (f : A -> json) (l : list (string * A)) :
  Forall (fun kv => ascii_str kv.1 /\ wf_json (f kv.2)) l -> wf_json (JObj (prod_map id f <$> l)).
Proof. intros H. cbn. induction H as [|[k a] l Hk Hl IH]; cbn; [done|]. split; [exact Hk|exact IH]. Qed.

Lemma jdepth_members {A} (f : A -> json) d (l : list (string * A)) :
  Forall (fun kv => (jdepth (f kv.2) <= d)%nat) l -> (jdepth (JObj (prod_map id f <$> l)) <= S d)%nat.
Proof. intros H. cbn. induction H as [|[k a] l Hk Hl IH]; cbn in *; lia. Qed.

Lemma wf_json_of_map {MR : MapRange} {A} (f : A -> json) (m : gmap string A) :
  (forall k a, m !! k = Some a -> ascii_str k /\ wf_json (f a)) -> wf_json (json_of_map f m).
Proof.
  intros H. unfold json_of_map. destruct (sort_members_fmap f (range m)) as (l' & Hp & ->).
  apply wf_members, Forall_forall. intros [k a] Hin. apply H, elem_of_range. by rewrite <- Hp.
Qed.

Lemma jdepth_json_of_map {MR : MapRange} {A} (f : A -> json) (m : gmap string A) d :
  (forall a, (jdepth (f a) <= d)%nat) -> (jdepth (json_of_map f m) <= S d)%nat.
Proof.
  intros H. unfold json_of_map. destruct (sort_members_fmap f (range m)) as (l' & _ & ->).
  apply jdepth_members, Forall_forall. intros kv _. apply H.
Qed.

(** [json.Unmarshal] of a [json.Marshal]ed map. *)
Lemma Unmarshal_Marshal_map {MR : MapRange} {A} (elem : json -> decoded A) (f : A -> json) ty (m : gmap string A) :
  (forall k a, m !! k = Some a -> elem (f a) = (a, None)) ->
  (forall k a, m !! k = Some a -> ascii_str k /\ wf_json (f a)) ->
  (forall a, jdepth (f a) = 0%nat) ->
  Unmarshal (decode_map elem ty) ∅ (Print (json_of_map f m)) = (m, None).
Proof.
  intros H1 H2 H3. unfold Unmarshal. rewrite Parse_Print.
  - by apply decode_json_of_map.
  - by apply wf_json_of_map.
  - transitivity 1%nat; [|unfold max_depth; lia].
    apply jdepth_json_of_map. intros a. rewrite H3. lia.
Qed.

Lemma wf_JStr_list (l : list string) : Forall ascii_str l -> wf_json (JArr (map JStr l)).
Proof. induction 1; cbn; auto. Qed.

(** [json.Unmarshal] of a [json.Marshal]ed string slice. *)
Lemma Unmarshal_Marshal_strings (l : list string) ty :
  Forall ascii_str l -> Unmarshal (decode_list decode_string ty) [] (Print (JArr (map JStr l))) = (l, None).
Proof.
  intros Hl. unfold Unmarshal. rewrite Parse_Print; [|by apply wf_JStr_list|].
  - cbn. clear Hl. induction l as [|x l IH]; [reflexivity|]. cbn. by rewrite IH.
  - transitivity 1%nat; [|unfold max_depth; lia]. cbn. clear Hl.
    enough (foldr (fun x acc => Nat.max (jdepth x) acc) 0%nat (map JStr l) = 0%nat) as -> by lia.
    induction l as [|x l IH]; [reflexivity|]. cbn. exact IH.
Qed.

#[global] Arguments Parse : simpl never.
#[global] Arguments Unmarshal : simpl never.
#[global] Arguments quote : simpl never.
