(* ===== verification/GoPath.v ===== *)
(** * Paths of the Go library (path/filepath on Unix)

    [Clean] and [Join] work on the text of a path only.  [path_elems] are the
    names of a cleaned path in order; [under d p] says that [p] is [d] or
    something below it. *)

From stdpp Require Import base strings list.
From Stdlib Require Import ZArith Lia Ascii.
From S2P Require Import Prelude GoString.

Definition slash : ascii := "/"%char.

(** [strings.Split(s, "/")]: never the empty list. *)
Fixpoint split_slash (s : string) : list string :=
  match s with
  | EmptyString => [""]
  | String c s' =>
      if Ascii.eqb c slash then "" :: split_slash s'
      else match split_slash s' with
           | [] => [String c ""]
           | x :: l => String c x :: l
           end
  end.

Definition rooted (s : string) : bool :=
  match s with String c _ => Ascii.eqb c slash | EmptyString => false end.

(** One element of a path on top of the names kept so far (last first). *)
Definition clean_step (root : bool) (stack : list string) (e : string) : list string :=
  if String.eqb e "" || String.eqb e "." then stack
  else if String.eqb e ".." then
    match stack with
    | [] => if root then [] else [".."]
    | x :: st => if String.eqb x ".." then ".." :: stack else st
    end
  else e :: stack.

Definition clean_elems (root : bool) (l : list string) : list string := foldl (clean_step root) [] l.

Definition path_elems (s : string) : list string := reverse (clean_elems (rooted s) (split_slash s)).

Definition Clean (s : string) : string :=
  let out := Join (path_elems s) "/" in
  if rooted s then "/" +:+ out else if String.eqb out "" then "." else out.

(** [filepath.Join]: leading empty elements are ignored. *)
Fixpoint filepath_Join (elems : list string) : string :=
  match elems with
  | [] => ""
  | e :: l => if String.eqb e "" then filepath_Join l else Clean (Join elems "/")
  end.

(** The path up to and with its last slash, and [filepath.Dir]. *)
Fixpoint upto_slash (s : string) : string :=
  match s with
  | "" => ""
  | String c s' =>
      let r := upto_slash s' in
      if Ascii.eqb c slash then String c r else if String.eqb r "" then "" else String c r
  end.
Definition filepath_Dir (path : string) : string := Clean (upto_slash path).

(** [path.Base]. *)
Definition path_Base (s : string) : string :=
  if String.eqb s "" then "."
  else default "/" (last (List.filter (fun e => negb (String.eqb e "")) (split_slash s))).

(** ** Names *)

Definition no_slash (s : string) : Prop := string_forallb (fun c => negb (Ascii.eqb c slash)) s = true.

(** A name that stands for an entry of a directory. *)
Definition normal_name (n : string) : Prop := n <> "" /\ n <> "." /\ n <> ".." /\ no_slash n.

(** A path none of whose elements leads up. *)
Definition no_way_up (s : string) : Prop := Forall (fun e => e <> "..") (split_slash s).

Definition under (d p : string) : Prop :=
  rooted p = rooted d /\ exists r, path_elems p = path_elems d ++ r /\ Forall normal_name r.

Lemma split_slash_cons s : exists x l, split_slash s = x :: l.
Proof.
  destruct s as [|c s]; cbn; [eauto|]. destruct (Ascii.eqb c slash); [eauto|].
  destruct (split_slash s); eauto.
Qed.

Lemma split_slash_app a b : split_slash (a +:+ String slash b) = split_slash a ++ split_slash b.
Proof.
  induction a as [|c a IH]; [reflexivity|]. rewrite string_cons_app. cbn [split_slash].
  destruct (Ascii.eqb c slash); rewrite IH; [reflexivity|].
  destruct (split_slash_cons a) as (x & l & ->). reflexivity.
Qed.

Lemma split_slash_Join e l : split_slash (Join (e :: l) "/") = concat (split_slash <$> e :: l).
Proof.
  revert e. induction l as [|x l IH]; intros e; [cbn; by rewrite app_nil_r|].
  change (Join (e :: x :: l) "/") with (e +:+ String slash (Join (x :: l) "/")).
  by rewrite split_slash_app, IH.
Qed.

Lemma split_slash_no_slash s : no_slash s -> split_slash s = [s].
Proof.
  unfold no_slash. induction s as [|c s IH]; cbn; [done|]. intros [Hc Hs]%andb_true_iff.
  destruct (Ascii.eqb c slash); [done|]. by rewrite IH.
Qed.

Lemma split_slash_elems s : Forall no_slash (split_slash s).
Proof.
  induction s as [|c s IH]; cbn; [by repeat constructor|].
  destruct (Ascii.eqb c slash) eqn:E; [by constructor|].
  destruct (split_slash s) as [|x l]; inversion IH; subst; constructor; try done; unfold no_slash in *; cbn; by rewrite E.
Qed.

(** ** Cleaning *)

Definition is_name (e : string) : bool := negb (String.eqb e "" || String.eqb e ".").

Lemma clean_step_name root stack e :
  clean_step root stack e =
  if negb (is_name e) then stack
  else if String.eqb e ".." then
    match stack with
    | [] => if root then [] else [".."]
    | x :: st => if String.eqb x ".." then ".." :: stack else st
    end
  else e :: stack.
Proof. unfold clean_step, is_name. by rewrite negb_involutive. Qed.

(** The names kept, first to last: some ways up, never in a rooted path, then
    normal names. *)
Definition cleaned (root : bool) (l : list string) : Prop :=
  exists ups ns, l = ups ++ ns /\ Forall (fun e => e = "..") ups /\ Forall normal_name ns /\ (root = true -> ups = []).

Lemma normal_is_name n : normal_name n -> is_name n = true /\ String.eqb n ".." = false.
Proof.
  intros (H1 & H2 & H3 & _). unfold is_name.
  by rewrite (proj2 (String.eqb_neq _ _) H1), (proj2 (String.eqb_neq _ _) H2), (proj2 (String.eqb_neq _ _) H3).
Qed.

Lemma clean_step_cleaned root stack e :
  no_slash e -> cleaned root (reverse stack) -> cleaned root (reverse (clean_step root stack e)).
Proof.
  intros He (ups & ns & Hl & Hu & Hn & Hr). rewrite clean_step_name.
  destruct (is_name e) eqn:En; cbn [negb]; [|by exists ups, ns].
  destruct (String.eqb_spec e "..") as [->|Hne].
  - destruct stack as [|x st].
    { destruct root; [by exists [], []|]. exists [".."], []. split_and!; [done|by constructor|constructor|done]. }
    rewrite reverse_cons in Hl. destruct ns as [|n ns _] using rev_ind.
    + rewrite app_nil_r in Hl. subst ups. apply Forall_app in Hu as [Hu Hx]. inversion Hx; subst. rewrite String.eqb_refl.
      exists (reverse st ++ [".."; ".."]), []. rewrite app_nil_r, !reverse_cons, <- app_assoc.
      split_and!; [done|apply Forall_app; split; [done|by repeat constructor]|constructor|].
      intros ->. specialize (Hr eq_refl). by destruct (reverse st).
    + rewrite app_assoc in Hl. apply app_inj_tail in Hl as [Hl ->]. apply Forall_app in Hn as [Hn Hx].
      inversion Hx as [|? ? Hx' _]; subst. rewrite (proj2 (normal_is_name n Hx')). by exists ups, ns.
  - exists ups, (ns ++ [e]). rewrite reverse_cons, Hl, app_assoc. split_and!; [done|done| |done].
    apply Forall_app. split; [done|]. repeat constructor; try done; unfold is_name in En; intros ->; done.
Qed.

Lemma clean_elems_cleaned root l stack :
  Forall no_slash l -> cleaned root (reverse stack) -> cleaned root (reverse (foldl (clean_step root) stack l)).
Proof. intros Hl. revert stack. induction Hl; intros stack Hs; [done|]. cbn. by apply IHHl, clean_step_cleaned. Qed.

Lemma path_elems_cleaned s : cleaned (rooted s) (path_elems s).
Proof. apply clean_elems_cleaned; [apply split_slash_elems|]. by exists [], []. Qed.

(** Names that lead nowhere up are pushed. *)
Lemma clean_push root l stack :
  Forall (fun e => e <> "..") l ->
  foldl (clean_step root) stack l = reverse (List.filter is_name l) ++ stack.
Proof.
  intros Hl. revert stack. induction Hl as [|e l He _ IH]; intros stack; [done|]. cbn [foldl List.filter].
  rewrite IH, clean_step_name. destruct (is_name e); cbn [negb]; cbv iota; [|done].
  rewrite (proj2 (String.eqb_neq _ _) He). by rewrite reverse_cons, <- app_assoc.
Qed.

Lemma filter_names ns : Forall normal_name ns -> List.filter is_name ns = ns.
Proof. induction 1 as [|n ns Hn _ IH]; [done|]. cbn. rewrite (proj1 (normal_is_name n Hn)). by rewrite IH. Qed.

Lemma clean_ups ups stack :
  Forall (fun e => e = "..") ups -> Forall (fun e => e = "..") stack ->
  foldl (clean_step false) stack ups = reverse ups ++ stack.
Proof.
  intros Hu. revert stack. induction Hu as [|e ups -> _ IH]; intros stack Hs; [done|]. cbn [foldl].
  rewrite reverse_cons, <- app_assoc.
  assert (clean_step false stack ".." = ".." :: stack) as -> by (destruct Hs as [|x st ->]; done).
  apply IH. by constructor.
Qed.

(** Cleaning is idempotent on the names. *)
Lemma clean_cleaned root l : cleaned root l -> clean_elems root l = reverse l.
Proof.
  intros (ups & ns & -> & Hu & Hn & Hr). unfold clean_elems. rewrite foldl_app.
  rewrite (clean_push _ ns), filter_names, reverse_app by (done || (eapply Forall_impl; [exact Hn|]; by intros ? (_ & _ & ? & _))).
  f_equal. destruct root; [by rewrite (Hr eq_refl)|]. rewrite clean_ups by done. by rewrite app_nil_r.
Qed.

Lemma rooted_app a b : a <> "" -> rooted (a +:+ b) = rooted a.
Proof. destruct a as [|c a]; [done|]. intros _. by rewrite string_cons_app. Qed.

Lemma rooted_Join e l : e <> "" -> rooted (Join (e :: l) "/") = rooted e.
Proof. intros He. destruct l as [|x l]; [done|]. by apply rooted_app. Qed.

Lemma cleaned_no_slash root l : cleaned root l -> Forall (fun e => e <> "" /\ no_slash e) l.
Proof.
  intros (ups & ns & -> & Hu & Hn & _). apply Forall_app. split.
  - eapply Forall_impl; [exact Hu|]. by intros ? ->.
  - eapply Forall_impl; [exact Hn|]. by intros ? (? & _ & _ & ?).
Qed.

Lemma split_names l : Forall (fun e => e <> "" /\ no_slash e) l -> l <> [] -> split_slash (Join l "/") = l.
Proof.
  intros Hl Hne. destruct l as [|e l]; [done|]. rewrite split_slash_Join.
  induction Hl as [|x xs [_ Hx] _ IH]; [done|]. rewrite fmap_cons, concat_cons, split_slash_no_slash by done. cbn. f_equal.
  destruct xs; [done|]. by apply IH.
Qed.

Lemma rooted_no_slash e s : e <> "" -> no_slash e -> rooted (e +:+ s) = false.
Proof.
  intros He Hs. rewrite rooted_app by done. destruct e as [|c e]; [done|]. unfold no_slash in Hs.
  cbn in *. apply andb_true_iff in Hs as [Hc _]. by destruct (Ascii.eqb c slash).
Qed.

Lemma path_elems_Clean s : path_elems (Clean s) = path_elems s /\ rooted (Clean s) = rooted s.
Proof.
  pose proof (path_elems_cleaned s) as Hc. pose proof (cleaned_no_slash _ _ Hc) as Hn. unfold Clean.
  destruct (rooted s) eqn:Er.
  - assert (rooted ("/" +:+ Join (path_elems s) "/") = true) as Hr by reflexivity. split; [|done].
    unfold path_elems at 1. rewrite Hr. cbn [split_slash Ascii.eqb]. change ("/" +:+ ?t) with ("" +:+ String slash t).
    rewrite split_slash_app. cbn [split_slash app]. unfold clean_elems. cbn [foldl].
    change (clean_step true [] "") with (@nil string).
    destruct (path_elems s) as [|e l] eqn:El; [done|].
    rewrite split_names by done. fold (clean_elems true (e :: l)). by rewrite clean_cleaned, reverse_involutive.
  - destruct (path_elems s) as [|e l] eqn:El; [done|].
    assert (rooted (Join (e :: l) "/") = false) as Hr.
    { inversion Hn as [|? ? [He Hs] _]; subst. destruct l as [|x l]; [|by apply rooted_no_slash].
      rewrite <- (string_app_nil_r (Join [e] "/")). by apply rooted_no_slash. }
    assert (Join (e :: l) "/" <> "") as Hne.
    { inversion Hn as [|? ? [He _] _]; subst. destruct l, e; done. }
    rewrite (proj2 (String.eqb_neq _ _) Hne). split; [|done].
    unfold path_elems. rewrite Hr, split_names by done. by rewrite clean_cleaned, reverse_involutive.
Qed.

(** ** Joining *)

Lemma path_elems_Join a l :
  a <> "" -> Forall no_way_up l ->
  path_elems (filepath_Join (a :: l)) = path_elems a ++ concat (List.filter is_name <$> (split_slash <$> l)) /\
  rooted (filepath_Join (a :: l)) = rooted a.
Proof.
  intros Ha Hl. cbn [filepath_Join]. rewrite (proj2 (String.eqb_neq _ _) Ha).
  destruct (path_elems_Clean (Join (a :: l) "/")) as [-> ->]. rewrite rooted_Join by done. split; [|done].
  unfold path_elems at 1. rewrite rooted_Join, split_slash_Join, fmap_cons, concat_cons by done.
  unfold clean_elems. rewrite foldl_app, clean_push.
  - rewrite reverse_app, reverse_involutive. f_equal. clear Hl. induction l as [|x l IH]; [done|].
    rewrite !fmap_cons, !concat_cons, List.filter_app. by rewrite IH.
  - clear Ha. induction Hl as [|x l Hx _ IH]; [constructor|]. rewrite fmap_cons, concat_cons. by apply Forall_app.
Qed.

Lemma filter_is_name s : no_way_up s -> Forall normal_name (List.filter is_name (split_slash s)).
Proof.
  unfold no_way_up. pose proof (split_slash_elems s) as H. induction H as [|e l He _ IH]; intros Hu; [constructor|].
  inversion Hu; subst. cbn. destruct (is_name e) eqn:E; [|by apply IH]. constructor; [|by apply IH].
  unfold is_name in E. unfold normal_name. split_and!; try done; intros ->; done.
Qed.

(** A path joined below a directory without ways up is under it. *)
Lemma under_Join a l1 l2 :
  a <> "" -> Forall no_way_up l1 -> Forall no_way_up l2 ->
  under (filepath_Join (a :: l1)) (filepath_Join (a :: l1 ++ l2)).
Proof.
  intros Ha H1 H2. destruct (path_elems_Join a l1 Ha H1) as [E1 R1].
  destruct (path_elems_Join a (l1 ++ l2) Ha) as [E2 R2]; [by apply Forall_app|].
  split; [congruence|]. rewrite E1, E2, !fmap_app, concat_app. eexists. split; [by rewrite app_assoc|].
  clear -H2. induction H2 as [|x l Hx _ IH]; [constructor|]. rewrite !fmap_cons, concat_cons.
  apply Forall_app. split; [by apply filter_is_name|done].
Qed.

Lemma Clean_nonempty s : Clean s <> "".
Proof. unfold Clean. destruct (rooted s); [done|]. by destruct (String.eqb_spec (Join (path_elems s) "/") ""). Qed.

Lemma filepath_Join_nonempty a l : a <> "" -> filepath_Join (a :: l) <> "".
Proof. intros Ha. cbn [filepath_Join]. rewrite (proj2 (String.eqb_neq _ _) Ha). apply Clean_nonempty. Qed.

(** A cleaned path is determined by its names. *)
Lemma Clean_ext s t : rooted s = rooted t -> path_elems s = path_elems t -> Clean s = Clean t.
Proof. intros H1 H2. unfold Clean. by rewrite H1, H2. Qed.

Lemma filepath_Join_ext a l b l' :
  a <> "" -> b <> "" -> rooted a = rooted b -> Forall no_way_up l -> Forall no_way_up l' ->
  path_elems a ++ concat (List.filter is_name <$> (split_slash <$> l))
  = path_elems b ++ concat (List.filter is_name <$> (split_slash <$> l')) ->
  filepath_Join (a :: l) = filepath_Join (b :: l').
Proof.
  intros Ha Hb Hr Hl Hl' E. destruct (path_elems_Join a l Ha Hl) as [E1 R1]. destruct (path_elems_Join b l' Hb Hl') as [E2 R2].
  cbn [filepath_Join] in *. rewrite (proj2 (String.eqb_neq _ _) Ha), (proj2 (String.eqb_neq _ _) Hb) in *.
  destruct (path_elems_Clean (Join (a :: l) "/")) as [C1 D1]. destruct (path_elems_Clean (Join (b :: l') "/")) as [C2 D2].
  apply Clean_ext; congruence.
Qed.

Lemma under_child d p e : p <> "" -> under d p -> no_way_up e -> under d (filepath_Join [p; e]).
Proof.
  intros Hp [Hr (r & Er & Hn)] He. destruct (path_elems_Join p [e] Hp) as [E R]; [by repeat constructor|].
  split; [congruence|]. rewrite E, Er. cbn. rewrite app_nil_r, <- app_assoc. eexists. split; [reflexivity|].
  apply Forall_app. split; [done|]. by apply filter_is_name.
Qed.

(** A way up from below a directory stays in it. *)
Lemma under_parent d p r :
  p <> "" -> r <> [] -> rooted p = rooted d -> path_elems p = path_elems d ++ r -> Forall normal_name r ->
  under d (filepath_Join [p; ".."]).
Proof.
  intros Hp Hne Hr Er Hn. cbn [filepath_Join]. rewrite (proj2 (String.eqb_neq _ _) Hp).
  destruct r as [|n r _] using rev_ind; [done|]. apply Forall_app in Hn as [Hn Hl]. inversion Hl as [|? ? Hx _]; subst.
  destruct (path_elems_Clean (Join [p; ".."] "/")) as [E R]. rewrite rooted_Join in R by done.
  split; [congruence|]. exists r. split; [|done]. rewrite E. unfold path_elems at 1.
  rewrite rooted_Join, split_slash_Join by done. unfold clean_elems. cbn [fmap list_fmap concat]. rewrite foldl_app.
  fold (clean_elems (rooted p) (split_slash p)).
  assert (clean_elems (rooted p) (split_slash p) = n :: reverse (path_elems d ++ r)) as ->.
  { rewrite <- (reverse_involutive (clean_elems _ _)). fold (path_elems p). by rewrite Er, app_assoc, reverse_snoc. }
  change (split_slash ".." ++ []) with [".."]. cbn [foldl]. rewrite clean_step_name.
  change (negb (is_name "..")) with false. cbv iota. rewrite String.eqb_refl, (proj2 (normal_is_name n Hx)).
  by rewrite reverse_involutive.
Qed.

(** The last element of a path is no path that leads further up than once. *)
Lemma path_Base_up s : no_way_up (path_Base s) \/ path_Base s = "..".
Proof.
  unfold path_Base. destruct (String.eqb s ""); [left; by repeat constructor|].
  destruct (last _) as [x|] eqn:E; cbn; [|left; by repeat constructor].
  apply last_Some_elem_of, list_elem_of_In, List.filter_In in E as [E _]. apply list_elem_of_In in E.
  pose proof (split_slash_elems s) as Hs. rewrite Forall_forall in Hs. specialize (Hs x E).
  destruct (decide (x = "..")) as [->|Hx]; [by right|]. left. unfold no_way_up. rewrite split_slash_no_slash by done.
  by repeat constructor.
Qed.

Lemma normal_no_way_up n : normal_name n -> no_way_up n.
Proof. intros (_ & _ & Hn & Hs). unfold no_way_up. rewrite split_slash_no_slash by done. by repeat constructor. Qed.

Lemma under_refl d : under d d.
Proof. split; [done|]. exists []. by rewrite app_nil_r. Qed.

Example join_in : filepath_Join ["/home/example/sse/"; "id"; "/in"] = "/home/example/sse/id/in".
Proof. reflexivity. Qed.

Example join_up : filepath_Join ["a/b/"; "../../../c"; ""; "./d//"] = "../c/d".
Proof. reflexivity. Qed.

#[global] Arguments Clean : simpl never.
#[global] Arguments filepath_Join : simpl never.
#[global] Arguments path_Base : simpl never.
