(* ===== verification/GoDate.v ===== *)
(** * Package time: civil dates

    The date of a time in days since 1 January 1970, as [Time.Format] prints it
    for the layout 2006-01-02: the proleptic Gregorian calendar, computed in
    eras of 400 years that begin on 1 March. *)

From stdpp Require Import base strings list.
From Stdlib Require Import ZArith Lia Ascii.
From S2P Require Import Prelude GoString.

(** Days from 1 March of the year 0 to 1 January 1970, and in 400 years. *)
Definition epoch_shift : Z := 719468.
Definition era_days : Z := 146097.

(** Year (counted from March), month and day of a day of the era. *)
Definition year_of_era (doe : Z) : Z := (doe - doe / 1460 + doe / 36524 - doe / 146096) / 365.
Definition day_of_year (doe : Z) : Z :=
  let yoe := year_of_era doe in doe - (365 * yoe + yoe / 4 - yoe / 100).
Definition march_month (doy : Z) : Z := (5 * doy + 2) / 153.
Definition day_of_month (doy : Z) : Z := doy - (153 * march_month doy + 2) / 5 + 1.
Definition month_of (mp : Z) : Z := if mp <? 10 then mp + 3 else mp - 9.

Definition civil (days : Z) : Z * Z * Z :=
  let z := days + epoch_shift in
  let doe := z mod era_days in
  let doy := day_of_year doe in
  let m := month_of (march_month doy) in
  let y := year_of_era doe + 400 * (z / era_days) in
  (if m <=? 2 then y + 1 else y, m, day_of_month doy).

(** The other way round. *)
Definition days_of_civil (c : Z * Z * Z) : Z :=
  let '(y, m, d) := c in
  let y' := if m <=? 2 then y - 1 else y in
  let yoe := y' mod 400 in
  let doy := (153 * (if 2 <? m then m - 3 else m + 9) + 2) / 5 + d - 1 in
  (yoe * 365 + yoe / 4 - yoe / 100 + doy) + era_days * (y' / 400) - epoch_shift.

(** At least [width] digits, the last one first. *)
Fixpoint pad_digits (width : nat) (n : Z) (acc : string) : string :=
  match width with
  | O => if n =? 0 then acc else FormatUint n +:+ acc
  | S w => pad_digits w (n / 10) (String (digit_char (n mod 10)) acc)
  end.
Definition pad (width : nat) (n : Z) : string :=
  if n <? 0 then "-" +:+ pad_digits width (- n) "" else pad_digits width n "".

Definition FormatDate (days : Z) : string :=
  let '(y, m, d) := civil days in pad 4 y +:+ "-" +:+ pad 2 m +:+ "-" +:+ pad 2 d.

(** ** The calendar is a bijection on days *)

(** A year of the era has 365 days, 366 when February has 29. *)
Lemma year_bounds doe : 0 <= doe < era_days -> 0 <= year_of_era doe < 400 /\ 0 <= day_of_year doe <= 365.
Proof.
  unfold day_of_year, year_of_era, era_days. intros H.
  assert (doe / 146096 = 0 \/ doe / 146096 = 1) as [E|E] by (Z.to_euclidean_division_equations; lia).
  - rewrite E. split; Z.to_euclidean_division_equations; lia.
  - assert (doe = 146096) as -> by (Z.to_euclidean_division_equations; lia). vm_compute. split; split; congruence.
Qed.

(** Months begin on the days the source of the calendar says. *)
Definition check_month (doy : Z) : bool :=
  let m := month_of (march_month doy) in
  let d := day_of_month doy in
  (1 <=? m) && (m <=? 12) && (1 <=? d) && (d <=? 31) && ((153 * (if 2 <? m then m - 3 else m + 9) + 2) / 5 + d - 1 =? doy).

Lemma months_checked doy : 0 <= doy <= 365 -> check_month doy = true.
Proof.
  intros H. assert (forallb (fun n => check_month (Z.of_nat n)) (seq 0 366) = true) as Hc by (vm_compute; reflexivity).
  rewrite forallb_forall in Hc. rewrite <- (Z2Nat.id doy) by lia. apply Hc, in_seq. lia.
Qed.

Lemma civil_spec days :
  let '(y, m, d) := civil days in 1 <= m <= 12 /\ 1 <= d <= 31 /\ days_of_civil (y, m, d) = days.
Proof.
  unfold civil, days_of_civil. set (z := days + epoch_shift). set (doe := z mod era_days).
  pose proof (Z.mod_pos_bound z era_days ltac:(done)) as Hdoe. fold doe in Hdoe.
  destruct (year_bounds doe Hdoe) as [Hy Hd]. pose proof (months_checked _ Hd) as Hc. unfold check_month in Hc.
  unfold day_of_year in *. set (yoe := year_of_era doe) in *. cbn zeta in *.
  set (doy := doe - _) in *. set (m := month_of _) in *. set (d := day_of_month _) in *. set (era := z / era_days).
  rewrite !andb_true_iff, !Z.leb_le, Z.eqb_eq in Hc. destruct Hc as ((((H3 & H4) & H5) & H6) & H7).
  split; [lia|]. split; [lia|].
  assert ((if m <=? 2 then (if m <=? 2 then yoe + 400 * era + 1 else yoe + 400 * era) - 1
           else (if m <=? 2 then yoe + 400 * era + 1 else yoe + 400 * era)) = yoe + era * 400) as ->.
  { destruct (m <=? 2); lia. }
  rewrite Z.div_add, Z.mod_add, (Z.div_small yoe 400), (Z.mod_small yoe 400) by lia. rewrite H7.
  pose proof (Z.div_mod z era_days ltac:(done)) as Hz. fold doe era in Hz. unfold doy, z in *. lia.
Qed.

(** ** Printed dates *)

Lemma string_app_inj (a a' b b' : string) :
  String.length a = String.length a' -> a +:+ b = a' +:+ b' -> a = a' /\ b = b'.
Proof.
  revert a'. induction a as [|c a IH]; intros [|c' a']; cbn; try done.
  intros [= Hl] [= -> H]. by destruct (IH a' Hl H) as [-> ->].
Qed.

Lemma pad_digits_length width n acc :
  0 <= n < 10 ^ Z.of_nat width -> String.length (pad_digits width n acc) = (width + String.length acc)%nat.
Proof.
  revert n acc. induction width as [|w IH]; intros n acc Hn; cbn [pad_digits].
  - destruct (Z.eqb_spec n 0); [done|]. cbn in Hn. lia.
  - rewrite IH; [cbn; lia|]. rewrite Nat2Z.inj_succ, Z.pow_succ_r in Hn by lia. Z.to_euclidean_division_equations; lia.
Qed.

Lemma pad_digits_inj width n m acc acc' :
  0 <= n < 10 ^ Z.of_nat width -> 0 <= m < 10 ^ Z.of_nat width -> String.length acc = String.length acc' ->
  pad_digits width n acc = pad_digits width m acc' -> n = m /\ acc = acc'.
Proof.
  revert n m acc acc'. induction width as [|w IH]; intros n m acc acc' Hn Hm Hl; cbn [pad_digits].
  - cbn in Hn, Hm. assert (n = 0) as -> by lia. assert (m = 0) as -> by lia. done.
  - rewrite Nat2Z.inj_succ, Z.pow_succ_r in Hn, Hm by lia. intros E.
    apply IH in E as [Eq [= Ec ->]]; [|Z.to_euclidean_division_equations; lia|Z.to_euclidean_division_equations; lia|by cbn; f_equal].
    pose proof (Z.mod_pos_bound n 10 ltac:(lia)). pose proof (Z.mod_pos_bound m 10 ltac:(lia)).
    apply (f_equal digit_value) in Ec. rewrite !digit_value_char in Ec by lia. split; [|done].
    rewrite (Z.div_mod n 10), (Z.div_mod m 10) by lia. congruence.
Qed.

Lemma pad_length width n : 0 <= n < 10 ^ Z.of_nat width -> String.length (pad width n) = width.
Proof. intros H. unfold pad. rewrite (proj2 (Z.ltb_ge n 0)) by lia. rewrite pad_digits_length by done. cbn. lia. Qed.

Lemma pad_inj width n m :
  0 <= n < 10 ^ Z.of_nat width -> 0 <= m < 10 ^ Z.of_nat width -> pad width n = pad width m -> n = m.
Proof.
  intros Hn Hm. unfold pad. rewrite (proj2 (Z.ltb_ge n 0)), (proj2 (Z.ltb_ge m 0)) by lia.
  intros E. by apply pad_digits_inj in E as [E _].
Qed.

(** Days in the years 0 to 9999. *)
Definition common_year (days : Z) : Prop := 0 <= (civil days).1.1 <= 9999.

(** A printed date stands for one day. *)
Lemma FormatDate_inj d1 d2 : common_year d1 -> common_year d2 -> FormatDate d1 = FormatDate d2 -> d1 = d2.
Proof.
  unfold common_year, FormatDate. intros H1 H2. pose proof (civil_spec d1) as S1. pose proof (civil_spec d2) as S2.
  destruct (civil d1) as [[y1 m1] e1]. destruct (civil d2) as [[y2 m2] e2]. cbn in H1, H2.
  destruct S1 as (M1 & E1 & S1). destruct S2 as (M2 & E2 & S2). intros Heq.
  apply string_app_inj in Heq as [Hy Heq]; [|rewrite !pad_length by (cbn; lia); done]. apply (string_app_inj "-" "-") in Heq as [_ Heq]; [|done].
  apply string_app_inj in Heq as [Hm Heq]; [|rewrite !pad_length by (cbn; lia); done]. apply (string_app_inj "-" "-") in Heq as [_ Heq]; [|done].
  apply pad_inj in Hy; [|cbn; lia..]. apply pad_inj in Hm; [|cbn; lia..]. apply pad_inj in Heq; [|cbn; lia..]. congruence.
Qed.
