(* ===== verification/Base64.v ===== *)
(** * Standard base64 (encoding/base64, StdEncoding)

    [DecodeString] follows the library: line breaks are skipped everywhere, the
    last group must be padded, an error names the offset of the offending byte.
    [EncodeToString] is the encoding it is the inverse of. *)

From stdpp Require Import base strings list.
From Stdlib Require Import ZArith Lia Ascii.
From S2P Require Import Prelude GoString.

Definition b64_digit (n : Z) : ascii :=
  if n <? 26 then ascii_of_N (Z.to_N (n + 65))
  else if n <? 52 then ascii_of_N (Z.to_N (n + 71))
  else if n <? 62 then ascii_of_N (Z.to_N (n - 4))
  else if n =? 62 then "+"%char else "/"%char.

Definition b64_value (c : ascii) : option Z :=
  if in_range "A"%char "Z"%char c then Some (byte c - 65)
  else if in_range "a"%char "z"%char c then Some (byte c - 71)
  else if is_digit c then Some (byte c + 4)
  else if Ascii.eqb c "+"%char then Some 62
  else if Ascii.eqb c "/"%char then Some 63
  else None.

Definition pad_c : ascii := "="%char.
Definition is_line_break (c : ascii) : bool := (byte c =? 10) || (byte c =? 13).
Definition char_of (n : Z) : ascii := ascii_of_N (Z.to_N (n mod 256)).

Fixpoint EncodeToString (s : string) : string :=
  match s with
  | EmptyString => ""
  | String x EmptyString =>
      String (b64_digit (byte x / 4)) (String (b64_digit (byte x mod 4 * 16)) (String pad_c (String pad_c "")))
  | String x (String y EmptyString) =>
      String (b64_digit (byte x / 4)) (String (b64_digit (byte x mod 4 * 16 + byte y / 16))
        (String (b64_digit (byte y mod 16 * 4)) (String pad_c "")))
  | String x (String y (String z s')) =>
      String (b64_digit (byte x / 4)) (String (b64_digit (byte x mod 4 * 16 + byte y / 16))
        (String (b64_digit (byte y mod 16 * 4 + byte z / 64)) (String (b64_digit (byte z mod 64)) (EncodeToString s'))))
  end.

(** The line breaks at the head, with the offset after them. *)
Fixpoint skip_breaks (s : string) (si : Z) : string * Z :=
  match s with
  | String c s' => if is_line_break c then skip_breaks s' (si + 1) else (s, si)
  | EmptyString => (s, si)
  end.

(** What follows the padding may only be line breaks. *)
Definition at_end (out : string) (s : string) (si : Z) : string + Z :=
  let '(r, si) := skip_breaks s si in
  if String.eqb r "" then inl out else inr si.

(** [buf] are the digits of the group read so far; an error is an offset. *)
Fixpoint decode_from (s : string) (si : Z) (buf : list Z) : string + Z :=
  match s with
  | EmptyString => if bool_decide (buf = []) then inl "" else inr (si - Z.of_nat (length buf))
  | String c s' =>
      match b64_value c with
      | Some d =>
          match buf with
          | [a; b; c0] =>
              let val := a * 2 ^ 18 + b * 2 ^ 12 + c0 * 2 ^ 6 + d in
              match decode_from s' (si + 1) [] with
              | inl out => inl (String (char_of (val / 2 ^ 16)) (String (char_of (val / 2 ^ 8)) (String (char_of val) out)))
              | inr e => inr e
              end
          | _ => decode_from s' (si + 1) (buf ++ [d])
          end
      | None =>
          if is_line_break c then decode_from s' (si + 1) buf
          else if negb (Ascii.eqb c pad_c) then inr si
          else
            match buf with
            | [a; b] =>
                let '(r, si') := skip_breaks s' (si + 1) in
                match r with
                | EmptyString => inr si'
                | String c' r' =>
                    if negb (Ascii.eqb c' pad_c) then inr (si' - 1)
                    else at_end (String (char_of ((a * 2 ^ 18 + b * 2 ^ 12) / 2 ^ 16)) "") r' (si' + 1)
                end
            | [a; b; c0] =>
                let val := a * 2 ^ 18 + b * 2 ^ 12 + c0 * 2 ^ 6 in
                at_end (String (char_of (val / 2 ^ 16)) (String (char_of (val / 2 ^ 8)) "")) s' (si + 1)
            | _ => inr si
            end
      end
  end.

Definition DecodeString (s : string) : string + error :=
  match decode_from s 0 [] with
  | inl out => inl out
  | inr n => inr ("illegal base64 data at input byte " +:+ FormatInt n)
  end.

(** ** The round trip *)

Definition check_digit (n : Z) : bool := bool_decide (b64_value (b64_digit n) = Some n).

Lemma value_digit n : 0 <= n < 64 -> b64_value (b64_digit n) = Some n.
Proof.
  intros Hn. assert (Forall (fun k => check_digit (Z.of_nat k) = true) (seq 0 64)) as H.
  { apply Forall_forall. rewrite <- (Forall_forall (fun k => check_digit (Z.of_nat k) = true)).
    repeat (constructor; [vm_compute; reflexivity|]). constructor. }
  rewrite Forall_forall in H. specialize (H (Z.to_nat n)).
  rewrite Z2Nat.id in H by lia. apply (bool_decide_eq_true _), H. apply elem_of_seq. lia.
Qed.

Lemma char_of_byte c z : z mod 256 = byte c -> char_of z = c.
Proof. intros H. unfold char_of. rewrite H. unfold byte. by rewrite N2Z.id, ascii_N_embedding. Qed.

#[local] Ltac Zify.zify_post_hook ::= Z.to_euclidean_division_equations.

(** The bytes come back from the digits of a group. *)
Lemma group_bytes x y z :
  0 <= x < 256 -> 0 <= y < 256 -> 0 <= z < 256 ->
  let val := x / 4 * 2 ^ 18 + (x mod 4 * 16 + y / 16) * 2 ^ 12 + (y mod 16 * 4 + z / 64) * 2 ^ 6 + z mod 64 in
  (val / 2 ^ 16) mod 256 = x /\ (val / 2 ^ 8) mod 256 = y /\ val mod 256 = z.
Proof.
  intros Hx Hy Hz val. assert (val = x * 65536 + y * 256 + z) as -> by (unfold val; lia).
  change (2 ^ 16) with 65536. change (2 ^ 8) with 256. split_and!; lia.
Qed.

(** One more digit of a group that is not full. *)
Lemma decode_digit n t si buf :
  0 <= n < 64 -> (length buf < 3)%nat ->
  decode_from (String (b64_digit n) t) si buf = decode_from t (si + 1) (buf ++ [n]).
Proof.
  intros Hn Hb. cbn [decode_from]. rewrite value_digit by done.
  destruct buf as [|? [|? [|? [|? ?]]]]; cbn in Hb; [done..|lia|lia].
Qed.

Lemma decode_pad1 a b c si :
  decode_from (String pad_c "") si [a; b; c]
  = inl (String (char_of ((a * 2 ^ 18 + b * 2 ^ 12 + c * 2 ^ 6) / 2 ^ 16))
           (String (char_of ((a * 2 ^ 18 + b * 2 ^ 12 + c * 2 ^ 6) / 2 ^ 8)) "")).
Proof. reflexivity. Qed.

Lemma decode_pad2 a b si :
  decode_from (String pad_c (String pad_c "")) si [a; b]
  = inl (String (char_of ((a * 2 ^ 18 + b * 2 ^ 12) / 2 ^ 16)) "").
Proof. reflexivity. Qed.

(** The library decodes every encoding to what was encoded. *)
Lemma decode_encode s : forall si, decode_from (EncodeToString s) si [] = inl s.
Proof.
  induction s as [s IH] using (induction_ltof1 _ String.length). unfold ltof in IH. intros si.
  destruct s as [|x [|y [|z s]]]; [reflexivity| | |]; pose proof (byte_range x) as Hx.
  - cbn [EncodeToString]. rewrite !decode_digit by (cbn [app length]; lia). cbn [app]. rewrite decode_pad2.
    destruct (group_bytes (byte x) 0 0) as [H _]; [lia..|]. do 2 f_equal. apply char_of_byte.
    rewrite <- H at 2. f_equal. f_equal. lia.
  - pose proof (byte_range y) as Hy. cbn [EncodeToString]. rewrite !decode_digit by (cbn [app length]; lia). cbn [app].
    rewrite decode_pad1. destruct (group_bytes (byte x) (byte y) 0) as (H1 & H2 & _); [lia..|].
    do 2 f_equal; [|f_equal]; apply char_of_byte; [rewrite <- H1 at 3|rewrite <- H2 at 3]; f_equal; f_equal; lia.
  - pose proof (byte_range y) as Hy. pose proof (byte_range z) as Hz. cbn [EncodeToString].
    rewrite 3 decode_digit by (cbn [app length]; lia). cbn [app decode_from]. rewrite value_digit, IH by (cbn [String.length]; lia).
    destruct (group_bytes (byte x) (byte y) (byte z)) as (H1 & H2 & H3); [done..|].
    by rewrite (char_of_byte x), (char_of_byte y), (char_of_byte z).
Qed.

Lemma DecodeString_Encode s : DecodeString (EncodeToString s) = inl s.
Proof. unfold DecodeString. by rewrite decode_encode. Qed.

Example decode_hello : DecodeString "aGVsbG8=" = inl "hello".
Proof. vm_compute. reflexivity. Qed.
Example decode_truncated : DecodeString "aGVsb" = inr "illegal base64 data at input byte 4".
Proof. vm_compute. reflexivity. Qed.
Example decode_garbage : DecodeString "aG==x" = inr "illegal base64 data at input byte 4".
Proof. vm_compute. reflexivity. Qed.

#[global] Arguments DecodeString : simpl never.
