(* ===== verification/Core.v ===== *)
(** * Package core: job data (core/data.go)

    The records a job carries, the status type, and the operations on them.
    Pointers that the code may find nil are options; [Result] is never nil in
    the engine, because every [JobData] is built by [NewJobData] or given a
    fresh [Result].  A [json.RawMessage] is an [option string] ([None] is nil),
    a [float32] its 32-bit pattern, a [time.Duration] and a timestamp a [Z].
    A deep copy of a value is the value: sharing only matters where the code
    keeps two pointers to one object, which the scheduler's store models. *)

From stdpp Require Import base gmap strings list fin_maps sorting.
From Stdlib Require Import ZArith Lia.
From S2P Require Import Prelude GoString Json.

(** ** Status *)

Inductive Status := SUBMITTED | READY | RUNNING | SUCCEEDED | FAILED | CANCELLED.

#[global] Instance Status_eq_dec : EqDecision Status.
Proof. solve_decision. Defined.

Definition Status_String (s : Status) : string :=
  match s with
  | SUBMITTED => "submitted"
  | READY => "ready"
  | RUNNING => "running"
  | SUCCEEDED => "succeeded"
  | FAILED => "failed"
  | CANCELLED => "cancelled"
  end.

(** [ToStatus] returns a status and an error; with an error the status is the
    zero value. *)
Definition ToStatus (s : string) : Status * option error :=
  if String.eqb s "submitted" then (SUBMITTED, None)
  else if String.eqb s "ready" then (READY, None)
  else if String.eqb s "running" then (RUNNING, None)
  else if String.eqb s "succeeded" then (SUCCEEDED, None)
  else if String.eqb s "failed" then (FAILED, None)
  else if String.eqb s "cancelled" then (CANCELLED, None)
  else (SUBMITTED, Some ("unknown status: " +:+ s)).

(** ** Records *)

Record TranspilerConfig := mkTranspilerConfig {
  TranspilerLib : option string;
  TranspilerOptions : option string;
  UseDefault : bool
}.

Record TranspilerInfo := mkTranspilerInfo {
  StatsRaw : option string;
  PhysicalVirtualMapping : option (gmap Z Z);
  VirtualPhysicalMappingRaw : option string;
  VirtualPhysicalMappingMap : option (gmap Z Z)
}.

Record Estimation := mkEstimation {
  Exp_value : Z;
  Stds : Z
}.

Record Result := mkResult {
  Counts : gmap string Z;
  DividedResult : gmap Z (gmap string Z);
  Result_TranspilerInfo : option TranspilerInfo;
  Result_Estimation : option Estimation;
  Message : string;
  ExecutionTime : Z
}.

Record JobData := mkJobData {
  ID : string;
  JobStatus : Status;
  Shots : Z;
  Transpiler : option TranspilerConfig;
  QASM : string;
  TranspiledQASM : string;
  JobResult : Result;
  JobType : string;
  Created : Z;
  Ended : Z;
  Info : string;
  MitigationInfoStr : string;
  UseJobInfoUpdate : bool;
  NeedsUpdateTranspilerInfo : bool
}.

(** Field assignments. *)
Definition set_StatsRaw (v : option string) (r : TranspilerInfo) : TranspilerInfo :=
  {| StatsRaw := v;
     PhysicalVirtualMapping := PhysicalVirtualMapping r;
     VirtualPhysicalMappingRaw := VirtualPhysicalMappingRaw r;
     VirtualPhysicalMappingMap := VirtualPhysicalMappingMap r |}.
Definition set_PhysicalVirtualMapping (v : option (gmap Z Z)) (r : TranspilerInfo) : TranspilerInfo :=
  {| StatsRaw := StatsRaw r;
     PhysicalVirtualMapping := v;
     VirtualPhysicalMappingRaw := VirtualPhysicalMappingRaw r;
     VirtualPhysicalMappingMap := VirtualPhysicalMappingMap r |}.
Definition set_VirtualPhysicalMappingRaw (v : option string) (r : TranspilerInfo) : TranspilerInfo :=
  {| StatsRaw := StatsRaw r;
     PhysicalVirtualMapping := PhysicalVirtualMapping r;
     VirtualPhysicalMappingRaw := v;
     VirtualPhysicalMappingMap := VirtualPhysicalMappingMap r |}.
Definition set_VirtualPhysicalMappingMap (v : option (gmap Z Z)) (r : TranspilerInfo) : TranspilerInfo :=
  {| StatsRaw := StatsRaw r;
     PhysicalVirtualMapping := PhysicalVirtualMapping r;
     VirtualPhysicalMappingRaw := VirtualPhysicalMappingRaw r;
     VirtualPhysicalMappingMap := v |}.
Definition set_Counts (v : gmap string Z) (r : Result) : Result :=
  {| Counts := v;
     DividedResult := DividedResult r;
     Result_TranspilerInfo := Result_TranspilerInfo r;
     Result_Estimation := Result_Estimation r;
     Message := Message r;
     ExecutionTime := ExecutionTime r |}.
Definition set_DividedResult (v : gmap Z (gmap string Z)) (r : Result) : Result :=
  {| Counts := Counts r;
     DividedResult := v;
     Result_TranspilerInfo := Result_TranspilerInfo r;
     Result_Estimation := Result_Estimation r;
     Message := Message r;
     ExecutionTime := ExecutionTime r |}.
Definition set_Result_TranspilerInfo (v : option TranspilerInfo) (r : Result) : Result :=
  {| Counts := Counts r;
     DividedResult := DividedResult r;
     Result_TranspilerInfo := v;
     Result_Estimation := Result_Estimation r;
     Message := Message r;
     ExecutionTime := ExecutionTime r |}.
Definition set_Result_Estimation (v : option Estimation) (r : Result) : Result :=
  {| Counts := Counts r;
     DividedResult := DividedResult r;
     Result_TranspilerInfo := Result_TranspilerInfo r;
     Result_Estimation := v;
     Message := Message r;
     ExecutionTime := ExecutionTime r |}.
Definition set_Message (v : string) (r : Result) : Result :=
  {| Counts := Counts r;
     DividedResult := DividedResult r;
     Result_TranspilerInfo := Result_TranspilerInfo r;
     Result_Estimation := Result_Estimation r;
     Message := v;
     ExecutionTime := ExecutionTime r |}.
Definition set_ExecutionTime (v : Z) (r : Result) : Result :=
  {| Counts := Counts r;
     DividedResult := DividedResult r;
     Result_TranspilerInfo := Result_TranspilerInfo r;
     Result_Estimation := Result_Estimation r;
     Message := Message r;
     ExecutionTime := v |}.
Definition set_ID (v : string) (r : JobData) : JobData :=
  {| ID := v;
     JobStatus := JobStatus r;
     Shots := Shots r;
     Transpiler := Transpiler r;
     QASM := QASM r;
     TranspiledQASM := TranspiledQASM r;
     JobResult := JobResult r;
     JobType := JobType r;
     Created := Created r;
     Ended := Ended r;
     Info := Info r;
     MitigationInfoStr := MitigationInfoStr r;
     UseJobInfoUpdate := UseJobInfoUpdate r;
     NeedsUpdateTranspilerInfo := NeedsUpdateTranspilerInfo r |}.
Definition set_JobStatus (v : Status) (r : JobData) : JobData :=
  {| ID := ID r;
     JobStatus := v;
     Shots := Shots r;
     Transpiler := Transpiler r;
     QASM := QASM r;
     TranspiledQASM := TranspiledQASM r;
     JobResult := JobResult r;
     JobType := JobType r;
     Created := Created r;
     Ended := Ended r;
     Info := Info r;
     MitigationInfoStr := MitigationInfoStr r;
     UseJobInfoUpdate := UseJobInfoUpdate r;
     NeedsUpdateTranspilerInfo := NeedsUpdateTranspilerInfo r |}.
Definition set_Shots (v : Z) (r : JobData) : JobData :=
  {| ID := ID r;
     JobStatus := JobStatus r;
     Shots := v;
     Transpiler := Transpiler r;
     QASM := QASM r;
     TranspiledQASM := TranspiledQASM r;
     JobResult := JobResult r;
     JobType := JobType r;
     Created := Created r;
     Ended := Ended r;
     Info := Info r;
     MitigationInfoStr := MitigationInfoStr r;
     UseJobInfoUpdate := UseJobInfoUpdate r;
     NeedsUpdateTranspilerInfo := NeedsUpdateTranspilerInfo r |}.
Definition set_Transpiler (v : option TranspilerConfig) (r : JobData) : JobData :=
  {| ID := ID r;
     JobStatus := JobStatus r;
     Shots := Shots r;
     Transpiler := v;
     QASM := QASM r;
     TranspiledQASM := TranspiledQASM r;
     JobResult := JobResult r;
     JobType := JobType r;
     Created := Created r;
     Ended := Ended r;
     Info := Info r;
     MitigationInfoStr := MitigationInfoStr r;
     UseJobInfoUpdate := UseJobInfoUpdate r;
     NeedsUpdateTranspilerInfo := NeedsUpdateTranspilerInfo r |}.
Definition set_QASM (v : string) (r : JobData) : JobData :=
  {| ID := ID r;
     JobStatus := JobStatus r;
     Shots := Shots r;
     Transpiler := Transpiler r;
     QASM := v;
     TranspiledQASM := TranspiledQASM r;
     JobResult := JobResult r;
     JobType := JobType r;
     Created := Created r;
     Ended := Ended r;
     Info := Info r;
     MitigationInfoStr := MitigationInfoStr r;
     UseJobInfoUpdate := UseJobInfoUpdate r;
     NeedsUpdateTranspilerInfo := NeedsUpdateTranspilerInfo r |}.
Definition set_TranspiledQASM (v : string) (r : JobData) : JobData :=
  {| ID := ID r;
     JobStatus := JobStatus r;
     Shots := Shots r;
     Transpiler := Transpiler r;
     QASM := QASM r;
     TranspiledQASM := v;
     JobResult := JobResult r;
     JobType := JobType r;
     Created := Created r;
     Ended := Ended r;
     Info := Info r;
     MitigationInfoStr := MitigationInfoStr r;
     UseJobInfoUpdate := UseJobInfoUpdate r;
     NeedsUpdateTranspilerInfo := NeedsUpdateTranspilerInfo r |}.
Definition set_JobResult (v : Result) (r : JobData) : JobData :=
  {| ID := ID r;
     JobStatus := JobStatus r;
     Shots := Shots r;
     Transpiler := Transpiler r;
     QASM := QASM r;
     TranspiledQASM := TranspiledQASM r;
     JobResult := v;
     JobType := JobType r;
     Created := Created r;
     Ended := Ended r;
     Info := Info r;
     MitigationInfoStr := MitigationInfoStr r;
     UseJobInfoUpdate := UseJobInfoUpdate r;
     NeedsUpdateTranspilerInfo := NeedsUpdateTranspilerInfo r |}.
Definition set_JobType (v : string) (r : JobData) : JobData :=
  {| ID := ID r;
     JobStatus := JobStatus r;
     Shots := Shots r;
     Transpiler := Transpiler r;
     QASM := QASM r;
     TranspiledQASM := TranspiledQASM r;
     JobResult := JobResult r;
     JobType := v;
     Created := Created r;
     Ended := Ended r;
     Info := Info r;
     MitigationInfoStr := MitigationInfoStr r;
     UseJobInfoUpdate := UseJobInfoUpdate r;
     NeedsUpdateTranspilerInfo := NeedsUpdateTranspilerInfo r |}.
Definition set_Created (v : Z) (r : JobData) : JobData :=
  {| ID := ID r;
     JobStatus := JobStatus r;
     Shots := Shots r;
     Transpiler := Transpiler r;
     QASM := QASM r;
     TranspiledQASM := TranspiledQASM r;
     JobResult := JobResult r;
     JobType := JobType r;
     Created := v;
     Ended := Ended r;
     Info := Info r;
     MitigationInfoStr := MitigationInfoStr r;
     UseJobInfoUpdate := UseJobInfoUpdate r;
     NeedsUpdateTranspilerInfo := NeedsUpdateTranspilerInfo r |}.
Definition set_Ended (v : Z) (r : JobData) : JobData :=
  {| ID := ID r;
     JobStatus := JobStatus r;
     Shots := Shots r;
     Transpiler := Transpiler r;
     QASM := QASM r;
     TranspiledQASM := TranspiledQASM r;
     JobResult := JobResult r;
     JobType := JobType r;
     Created := Created r;
     Ended := v;
     Info := Info r;
     MitigationInfoStr := MitigationInfoStr r;
     UseJobInfoUpdate := UseJobInfoUpdate r;
     NeedsUpdateTranspilerInfo := NeedsUpdateTranspilerInfo r |}.
Definition set_Info (v : string) (r : JobData) : JobData :=
  {| ID := ID r;
     JobStatus := JobStatus r;
     Shots := Shots r;
     Transpiler := Transpiler r;
     QASM := QASM r;
     TranspiledQASM := TranspiledQASM r;
     JobResult := JobResult r;
     JobType := JobType r;
     Created := Created r;
     Ended := Ended r;
     Info := v;
     MitigationInfoStr := MitigationInfoStr r;
     UseJobInfoUpdate := UseJobInfoUpdate r;
     NeedsUpdateTranspilerInfo := NeedsUpdateTranspilerInfo r |}.
Definition set_MitigationInfoStr (v : string) (r : JobData) : JobData :=
  {| ID := ID r;
     JobStatus := JobStatus r;
     Shots := Shots r;
     Transpiler := Transpiler r;
     QASM := QASM r;
     TranspiledQASM := TranspiledQASM r;
     JobResult := JobResult r;
     JobType := JobType r;
     Created := Created r;
     Ended := Ended r;
     Info := Info r;
     MitigationInfoStr := v;
     UseJobInfoUpdate := UseJobInfoUpdate r;
     NeedsUpdateTranspilerInfo := NeedsUpdateTranspilerInfo r |}.
Definition set_UseJobInfoUpdate (v : bool) (r : JobData) : JobData :=
  {| ID := ID r;
     JobStatus := JobStatus r;
     Shots := Shots r;
     Transpiler := Transpiler r;
     QASM := QASM r;
     TranspiledQASM := TranspiledQASM r;
     JobResult := JobResult r;
     JobType := JobType r;
     Created := Created r;
     Ended := Ended r;
     Info := Info r;
     MitigationInfoStr := MitigationInfoStr r;
     UseJobInfoUpdate := v;
     NeedsUpdateTranspilerInfo := NeedsUpdateTranspilerInfo r |}.
Definition set_NeedsUpdateTranspilerInfo (v : bool) (r : JobData) : JobData :=
  {| ID := ID r;
     JobStatus := JobStatus r;
     Shots := Shots r;
     Transpiler := Transpiler r;
     QASM := QASM r;
     TranspiledQASM := TranspiledQASM r;
     JobResult := JobResult r;
     JobType := JobType r;
     Created := Created r;
     Ended := Ended r;
     Info := Info r;
     MitigationInfoStr := MitigationInfoStr r;
     UseJobInfoUpdate := UseJobInfoUpdate r;
     NeedsUpdateTranspilerInfo := v |}.

(** [jd.Result.F = v]. *)
Definition upd_Result (f : Result -> Result) (jd : JobData) : JobData :=
  set_JobResult (f (JobResult jd)) jd.

Definition nil_pointer : string := "invalid memory address or nil pointer dereference".

(** ** Printing *)

Section printing.
Context {MR : MapRange}.

Definition json_u32 (n : Z) : json := JNum (FormatUint n).

(** The JSON object of a map with [uint32] keys: keys in decimal. *)
Definition string_keys {A} (m : gmap Z A) : gmap string A :=
  list_to_map (prod_map FormatUint id <$> range m).

Definition Counts_String (c : gmap string Z) : string := Print (json_of_map json_u32 c).

Definition PhysicalVirtualMapping_String (p : gmap Z Z) : string :=
  Print (json_of_map json_u32 (string_keys p)).

(** [json.Marshal] of a Go string. *)
Definition NewStatsRawFromString (s : string) : option string := Some (Print (JStr s)).

Definition VirtualPhysicalMappingMap_ToRaw (v : gmap Z Z) : option string :=
  Some (Print (json_of_map json_u32 (string_keys v))).

(** The conversion loop of [ToMap] over the decoded entries. *)
Fixpoint to_map_loop (l : list (string * Z)) (result : gmap Z Z) : gmap Z Z + error :=
  match l with
  | [] => inl result
  | (k, v) :: l' =>
      match ParseUint k 32 with
      | inr e => inr e
      | inl key => to_map_loop l' (<[key := v]> result)
      end
  end.

(** [VirtualPhysicalMappingRaw.ToMap]: an error of [json.Unmarshal] is logged
    and the loop goes on with what was decoded. *)
Definition VirtualPhysicalMappingRaw_ToMap (v : option string) : gmap Z Z + error :=
  let '(temp, _) := Unmarshal (decode_map (decode_uint 32 "uint32") "map[string]uint32") ∅ (default "" v) in
  to_map_loop (range temp) ∅.
End printing.

(** ** Cloning and construction *)

Section clone.
Context {MR : MapRange}.

Definition copy_map {A} `{Countable K} (src dst : gmap K A) : gmap K A :=
  foldl (fun m kv => <[kv.1 := kv.2]> m) dst (range src).

Definition cloneCounts (counts : gmap string Z) : gmap string Z := copy_map counts ∅.

(** [clone.VirtualPhysicalMappingMap] is never made, so the first assignment
    to it panics. *)
Definition cloneTranspilerInfo (info : option TranspilerInfo) : outcome TranspilerInfo :=
  match info with
  | None => Panic nil_pointer
  | Some info =>
      let pvm := copy_map (default ∅ (PhysicalVirtualMapping info)) ∅ in
      let raw := match VirtualPhysicalMappingRaw info with
                 | None | Some "" => None
                 | Some r => Some r
                 end in
      match range (default ∅ (VirtualPhysicalMappingMap info)) with
      | [] => Ret (mkTranspilerInfo None (Some pvm) raw None)
      | _ :: _ => Panic "assignment to entry in nil map"
      end
  end.

Definition cloneEstimation (estimation : option Estimation) : outcome Estimation :=
  match estimation with
  | None => Panic nil_pointer
  | Some e => Ret (mkEstimation (Exp_value e) (Stds e))
  end.

Definition NewResult : Result :=
  mkResult ∅ ∅ (Some (mkTranspilerInfo None (Some ∅) None None)) None "" 0.

Definition NewJobData (now : Z) : JobData :=
  mkJobData "" SUBMITTED 0 None "" "" NewResult "" now 0 "" "" false false.

(** [(jd *JobData).Clone]: a deep copy. *)
Definition JobData_Clone (jd : JobData) : JobData :=
  set_UseJobInfoUpdate (UseJobInfoUpdate jd) (set_Ended (Ended jd) (set_Created (Created jd) jd)).

Definition JobData_NeedTranspiling (jd : JobData) : outcome bool :=
  match Transpiler jd with
  | None => Panic nil_pointer
  | Some c => Ret (bool_decide (TranspilerLib c <> None))
  end.

Definition TranspilerConfig_NeedTranspiling (c : TranspilerConfig) : bool :=
  bool_decide (TranspilerLib c <> None).

Definition CloneJobData (now : Z) (i : JobData) : outcome JobData :=
  let o := NewJobData now in
  let o := set_ID (ID i) o in
  let o := set_JobStatus (JobStatus i) o in
  let o := set_Shots (Shots i) o in
  let o := set_Transpiler (Transpiler i) o in
  let o := set_QASM (QASM i) o in
  let o := set_TranspiledQASM (TranspiledQASM i) o in
  let o := upd_Result (set_Counts (cloneCounts (Counts (JobResult i)))) o in
  let? ti := cloneTranspilerInfo (Result_TranspilerInfo (JobResult i)) in
  let o := upd_Result (set_Result_TranspilerInfo (Some ti)) o in
  let o := set_JobType (JobType i) o in
  let o := set_Created (Created i) o in
  let o := set_Ended (Ended i) o in
  if String.eqb (JobType i) "estimation" then
    let? e := cloneEstimation (Result_Estimation (JobResult i)) in
    Ret (upd_Result (set_Result_Estimation (Some e)) o)
  else Ret o.

End clone.

(** [DEFAULT_TRANSPILER_CONFIG] (core/syscomponent.go). *)
Definition DEFAULT_TRANSPILER_CONFIG : TranspilerConfig :=
  mkTranspilerConfig (Some "qiskit")
    (Some (Print (JObj [("optimization_level", JNum (FormatInt 1))]))) true.

(** [SetFailureWithErrorToJobData] (core/job.go). *)
Definition SetFailureWithErrorToJobData (now : Z) (err : error) (jd : JobData) : JobData :=
  set_Ended now (set_JobStatus FAILED (upd_Result (set_Message err) jd)).

(** ** Lemmas *)

Lemma ToStatus_String s : ToStatus (Status_String s) = (s, None).
Proof. by destruct s. Qed.

Lemma ToStatus_sound str s : ToStatus str = (s, None) -> str = Status_String s.
Proof.
  unfold ToStatus. repeat (case_match; [intros [= <-]; by apply String.eqb_eq|]). discriminate.
Qed.

Lemma copy_map_spec {MR : MapRange} {A} `{Countable K} (src dst : gmap K A) :
  copy_map src dst = src ∪ dst.
Proof.
  unfold copy_map. pose proof (NoDup_fst_range src) as Hnd. rewrite <- (list_to_map_range src) at 2.
  revert Hnd. generalize (range src) as l. intros l Hnd. revert dst.
  induction l as [|[k v] l IH]; intros dst; cbn; [by rewrite map_empty_union|].
  cbn in Hnd. inversion Hnd as [|? ? Hk Hnd']; subst. rewrite IH by exact Hnd'.
  apply not_elem_of_list_to_map_1 in Hk. by rewrite <- insert_union_r, insert_union_l.
Qed.

Lemma cloneCounts_eq {MR : MapRange} c : cloneCounts c = c.
Proof. unfold cloneCounts. rewrite copy_map_spec. apply map_union_empty. Qed.

(** The entries of [string_keys m] are those of [m] under decimal keys. *)
Lemma string_keys_lookup {MR : MapRange} {A} (m : gmap Z A) (s : string) (a : A) :
  (forall k v, m !! k = Some v -> 0 <= k) ->
  string_keys m !! s = Some a <-> exists k, s = FormatUint k /\ m !! k = Some a.
Proof.
  intros Hpos. unfold string_keys.
  assert (NoDup (prod_map FormatUint id <$> range m).*1) as Hnd.
  { rewrite <- list_fmap_compose.
    assert (forall l : list (Z * A), (forall kv, kv ∈ l -> 0 <= kv.1) -> NoDup l.*1 -> NoDup ((fst ∘ prod_map FormatUint id) <$> l)) as H.
    { clear. induction l as [|[k v] l IH]; cbn; intros Hk Hnd; [constructor|].
      inversion Hnd as [|? ? Hni Hnd']; subst. constructor.
      - intros Hin. apply list_elem_of_fmap in Hin as ([k' v'] & E & Hin). cbn in E.
        apply FormatUint_inj in E; [|apply (Hk (k, v)); by left|apply (Hk (k', v')); by right].
        subst. apply Hni. apply list_elem_of_fmap. by exists (k', v').
      - apply IH; [|exact Hnd']. intros kv Hkv. apply Hk. by right. }
    apply H; [|apply NoDup_fst_range]. intros [k v] Hin. apply elem_of_range in Hin. by eapply Hpos. }
  rewrite <- elem_of_list_to_map by exact Hnd. rewrite list_elem_of_fmap. split.
  - intros ([k v] & E & Hin). cbn in E. injection E as -> ->. exists k. split; [done|].
    by apply elem_of_range.
  - intros (k & -> & Hk). exists (k, a). split; [done|]. by apply elem_of_range.
Qed.

(** The loop of [ToMap] on distinct decimal keys reads each key back. *)
Lemma to_map_loop_ok (l : list (string * Z)) (m : gmap Z Z) :
  NoDup l.*1 -> Forall (fun kv => exists k, kv.1 = FormatUint k /\ in_u32 k) l ->
  exists m', to_map_loop l m = inl m' /\
    (forall k, 0 <= k -> m' !! k = match (list_to_map l : gmap string Z) !! FormatUint k with
                                   | Some v => Some v | None => m !! k end) /\
    (forall k, k < 0 -> m' !! k = m !! k).
Proof.
  intros Hnd H. revert m. induction H as [|[s v] l (k0 & E & Hk0) Hl IH]; intros m; cbn in *.
  - exists m. split; [done|]. split; intros k Hk; [by rewrite lookup_empty|done].
  - subst. inversion Hnd as [|? ? Hni Hnd']; subst.
    destruct (IH Hnd' (<[k0 := v]> m)) as (m' & Heq & Hpos & Hneg).
    apply (not_elem_of_list_to_map_1 (M := gmap string)) in Hni. unfold in_u32 in Hk0.
    rewrite ParseUint_FormatUint by lia. exists m'. split; [exact Heq|]. split; intros k Hk.
    + rewrite Hpos by exact Hk. destruct (decide (k0 = k)) as [->|Hne].
      * by rewrite Hni, !lookup_insert_eq.
      * rewrite !lookup_insert_ne; [done| |done].
        intros E. apply FormatUint_inj in E; lia.
    + rewrite Hneg by exact Hk. rewrite lookup_insert_ne; [done|lia].
Qed.

(** A mapping whose keys and values are [uint32]. *)
Definition u32_map (m : gmap Z Z) : Prop :=
  forall k v, m !! k = Some v -> in_u32 k /\ in_u32 v.

Lemma decode_json_u32 n : in_u32 n -> decode_uint 32 "uint32" (json_u32 n) = (n, None).
Proof.
  intros Hn. unfold json_u32, decode_uint. unfold in_u32 in Hn.
  rewrite ParseUint_FormatUint by lia. rewrite (proj2 (Z.ltb_lt _ _)) by lia. done.
Qed.

Lemma wf_json_u32 n : in_u32 n -> wf_json (json_u32 n).
Proof. intros [Hn _]. by apply num_ok_FormatUint. Qed.

Lemma string_keys_entry {MR : MapRange} m s a :
  u32_map m -> string_keys m !! s = Some a -> exists k, s = FormatUint k /\ in_u32 k /\ in_u32 a /\ m !! k = Some a.
Proof.
  intros Hm Hs. apply string_keys_lookup in Hs as (k & -> & Hk).
  - exists k. destruct (Hm _ _ Hk). auto.
  - intros k v Hk. apply Hm in Hk as [[? ?] _]. done.
Qed.

Lemma string_keys_at {MR : MapRange} m k :
  u32_map m -> 0 <= k -> string_keys m !! FormatUint k = m !! k.
Proof.
  intros Hm Hk. assert (forall k v, m !! k = Some v -> 0 <= k) as Hpos.
  { intros k' v' H. by apply Hm in H as [[? ?] _]. }
  apply option_eq. intros a. rewrite string_keys_lookup by exact Hpos. split.
  - intros (k' & E & H). apply FormatUint_inj in E; [by subst|exact Hk|by eapply Hpos].
  - intros H. by exists k.
Qed.

(** A [uint32] mapping survives [ToRaw] followed by [ToMap], in every
    iteration order of the maps on the way. *)
Lemma ToMap_ToRaw_id (R1 R2 : MapRange) m :
  u32_map m ->
  @VirtualPhysicalMappingRaw_ToMap R2 (@VirtualPhysicalMappingMap_ToRaw R1 m) = inl m.
Proof.
  intros Hm. unfold VirtualPhysicalMappingRaw_ToMap, VirtualPhysicalMappingMap_ToRaw.
  cbn [default from_option id].
  rewrite (@Unmarshal_Marshal_map R1 _ _ json_u32); [| | |done].
  - destruct (to_map_loop_ok (@range R2 _ _ _ _ (@string_keys R1 _ m)) ∅) as (m' & -> & Hpos & Hneg).
    + apply NoDup_fst_range.
    + apply Forall_forall. intros [s a] Hin. apply elem_of_range, string_keys_entry in Hin as (k & -> & ? & _); eauto.
    + f_equal. apply map_eq. intros k. destruct (Z.ltb_spec k 0) as [Hk|Hk].
      * rewrite Hneg, lookup_empty by exact Hk. destruct (m !! k) eqn:E; [|done].
        apply Hm in E as [[? ?] _]. lia.
      * rewrite Hpos, list_to_map_range, string_keys_at by assumption.
        rewrite lookup_empty. by destruct (m !! k).
  - intros s a Hs. apply string_keys_entry in Hs as (k & _ & _ & Ha & _); [|exact Hm]. by apply decode_json_u32.
  - intros s a Hs. apply string_keys_entry in Hs as (k & -> & [Hk _] & Ha & _); [|exact Hm].
    split; [by apply ascii_FormatUint|by apply wf_json_u32].
Qed.

(** ** Properties *)

(** A qubit mapping survives its raw form.  Every map of uint32 to uint32
    converted by [ToRaw] and read back by [ToMap] is the same map, whatever the
    iteration orders of the maps in between. *)
Theorem mapping_raw_roundtrip (R1 R2 : MapRange) m :
  u32_map m ->
  @VirtualPhysicalMappingRaw_ToMap R2 (@VirtualPhysicalMappingMap_ToRaw R1 m) = inl m.
Proof. apply ToMap_ToRaw_id. Qed.

(** Status names are read back.  [ToStatus] accepts exactly the names
    [String] prints, and returns the status that was printed. *)
Theorem status_name_roundtrip str s : ToStatus str = (s, None) <-> str = Status_String s.
Proof.
  split; [apply ToStatus_sound|]. intros ->. apply ToStatus_String.
Qed.

Section clone_facts.
Context {MR : MapRange}.

Lemma clone_ti_spec o :
  match cloneTranspilerInfo o with
  | Panic _ => o = None \/ exists ti, o = Some ti /\ default ∅ (VirtualPhysicalMappingMap ti) <> ∅
  | Ret _ => exists ti, o = Some ti /\ default ∅ (VirtualPhysicalMappingMap ti) = ∅
  end.
Proof.
  destruct o as [ti|]; cbn; [|by left].
  destruct (range (default ∅ (VirtualPhysicalMappingMap ti))) as [|x l] eqn:E.
  - apply range_nil_inv in E. eauto.
  - right. exists ti. split; [done|]. intros H. rewrite H, range_empty in E. done.
Qed.

(** [CloneJobData] panics exactly when the transpiler information is nil or
    carries a decoded qubit mapping, or when a job of type "estimation" has no
    estimation result; otherwise the copy has the ID, status, shots, programs,
    counts and times of the job, but neither its message nor its divided
    result. *)
Theorem clone_job_data_spec now i :
  match CloneJobData now i with
  | Panic _ =>
      Result_TranspilerInfo (JobResult i) = None \/
      (exists ti, Result_TranspilerInfo (JobResult i) = Some ti /\ default ∅ (VirtualPhysicalMappingMap ti) <> ∅) \/
      (JobType i = "estimation" /\ Result_Estimation (JobResult i) = None)
  | Ret o =>
      (exists ti, Result_TranspilerInfo (JobResult i) = Some ti /\ default ∅ (VirtualPhysicalMappingMap ti) = ∅) /\
      (JobType i = "estimation" -> Result_Estimation (JobResult o) = Result_Estimation (JobResult i)) /\
      ID o = ID i /\ JobStatus o = JobStatus i /\ Shots o = Shots i /\ Transpiler o = Transpiler i /\
      QASM o = QASM i /\ TranspiledQASM o = TranspiledQASM i /\ JobType o = JobType i /\
      Created o = Created i /\ Ended o = Ended i /\ Counts (JobResult o) = Counts (JobResult i) /\
      Message (JobResult o) = "" /\ DividedResult (JobResult o) = ∅
  end.
Proof.
  unfold CloneJobData. pose proof (clone_ti_spec (Result_TranspilerInfo (JobResult i))) as H.
  destruct (cloneTranspilerInfo _) as [ti'|m]; cbn [obind]; [|tauto].
  destruct (String.eqb_spec (JobType i) "estimation") as [E|E].
  - destruct (Result_Estimation (JobResult i)) as [[ev st]|] eqn:Ee; cbn; [|auto].
    repeat split; auto. apply cloneCounts_eq.
  - cbn. repeat split; auto; [done|]. apply cloneCounts_eq.
Qed.
End clone_facts.

Lemma mapping_raw_roundtrip_witness :
  @VirtualPhysicalMappingRaw_ToMap reverse_range
    (@VirtualPhysicalMappingMap_ToRaw canonical_range {[ 0 := 4; 1 := 1; 10 := 4294967295 ]})
  = inl {[ 0 := 4; 1 := 1; 10 := 4294967295 ]}.
Proof.
  apply (mapping_raw_roundtrip canonical_range reverse_range). apply (bool_decide_eq_true_1 _). vm_compute. reflexivity.
Defined.
