(* ===== verification/Common.v ===== *)
(** * Package common (common/util.go)

    The string helpers of the engine: statement names, service addresses and
    the log form of JSON; the assets and settings files, read through the
    class [FileAccess].  [IsDirWritable] is with the server-side run, which is
    its only caller; dialling is left to the callers' models. *)

From stdpp Require Import base gmap strings list fin_maps.
From Stdlib Require Import ZArith Lia Ascii.
From S2P Require Import Prelude GoString GoPath.

(** [strings.ToLower] has an ASCII fast path; the Unicode tables of the other
    path are a parameter. *)
Class UnicodeLower := unicode_lower : string -> string.

Definition ToLower {U : UnicodeLower} (s : string) : string :=
  if string_forallb is_ascii s then string_map lower_ascii s else unicode_lower s.

Section statement_names.
Context {U : UnicodeLower}.

Definition NormalizeStatementName (s : string) : string :=
  let s := ToLower s in
  let s := ReplaceAll s "_" "" in
  let s := ReplaceAll s "-" "" in
  TrimSuffix s "statement".

Definition ContainsStatementName (s : string) (list : list string) : bool :=
  let s := NormalizeStatementName s in
  existsb (fun c => bool_decide (s = NormalizeStatementName c)) list.
End statement_names.

(** The pattern [^([0-9a-zA-Z_-]|\.)+$]. *)
Definition host_char (c : ascii) : bool :=
  in_range "0"%char "9"%char c || in_range "a"%char "z"%char c || in_range "A"%char "Z"%char c
  || Ascii.eqb c "_"%char || Ascii.eqb c "-"%char || Ascii.eqb c "."%char.
Definition hostPattern (s : string) : bool := negb (bool_decide (s = "")) && string_forallb host_char s.

(** The pattern [^[0-9]+$]. *)
Definition portPattern (s : string) : bool := negb (bool_decide (s = "")) && string_forallb is_digit s.

Definition ValidAddress (host port : string) : string + error :=
  if negb (hostPattern host) then inr (host +:+ " is an invalid host name")
  else if negb (portPattern port) then inr (port +:+ " is an invalid port number")
  else
    match Atoi port with
    | inr e => inr e
    | inl num =>
        if (num <? 0) || (65535 <? num)
        then inr (FormatInt num +:+ " is not a port number within the allowed range")
        else inl (host +:+ ":" +:+ port)
    end.

Definition dquote_char : ascii := "034"%char.
Definition newline : string := String "010"%char "".
Definition escaped_dq : string := String "\"%char dq.

Definition PlainJsonString (jsonInput : string) : outcome string :=
  let? c := byte_at jsonInput 0 in
  let? jsonInput := if Ascii.eqb c dquote_char then slice jsonInput 1 (len jsonInput) else Ret jsonInput in
  let? c := byte_at jsonInput (len jsonInput - 1) in
  let? jsonInput := if Ascii.eqb c dquote_char then slice jsonInput 0 (len jsonInput - 1) else Ret jsonInput in
  let jsonInput := ReplaceAll jsonInput newline "" in
  let jsonInput := ReplaceAll jsonInput escaped_dq dq in
  let jsonInput := ReplaceAll jsonInput " " "" in
  Ret jsonInput.

(** ** Files *)

(** What the packages os and runtime answer: the content of a file, the error
    of [os.Stat], and the file of the running function where it is known. *)
Class FileAccess := {
  os_ReadFile : string -> string + error;
  os_Stat : string -> option error;
  runtime_Caller : option string
}.

Section files.
Context {F : FileAccess}.

Definition GetAbsPath (fileName dirName : string) : string + error :=
  match runtime_Caller with
  | None => inr "runtime.Caller error"
  | Some cFilePath =>
      let path := filepath_Dir cFilePath +:+ "/" +:+ dirName +:+ "/" +:+ fileName in
      match os_Stat path with Some err => inr err | None => inl path end
  end.

Definition GetAssetAbsPath (fileName : string) : string + error := GetAbsPath fileName "assets".

Definition ReadFile (filepath : string) : string + error := os_ReadFile filepath.

Definition GetAsset (filename : string) : string + error :=
  match GetAssetAbsPath filename with
  | inr err => inr err
  | inl path => ReadFile path
  end.

(** The absolute path of a file that cannot be read is only logged. *)
Definition ReadSettingsFile (settingsPath : string) : string + error := os_ReadFile settingsPath.

(** An asset is read from the directory [assets] beside the file of the
    package, where it exists; nothing else is ever returned. *)
Lemma get_asset_exact (name text : string) :
  GetAsset name = inl text <->
  exists source, runtime_Caller = Some source /\
    os_Stat (filepath_Dir source +:+ "/assets/" +:+ name) = None /\
    os_ReadFile (filepath_Dir source +:+ "/assets/" +:+ name) = inl text.
Proof.
  unfold GetAsset, GetAssetAbsPath, GetAbsPath, ReadFile.
  split.
  - destruct runtime_Caller as [src|]; [|done]. cbn zeta.
    destruct (os_Stat _) eqn:Hs; [done|]. intros Hr. exists src. done.
  - intros (src & -> & Hs & Hr). cbn zeta.
    change ("/" +:+ "assets" +:+ "/" +:+ name) with ("/assets/" +:+ name). by rewrite Hs.
Qed.
End files.

(** ** Addresses *)

Lemma host_char_not_colon : host_char ":"%char = false.
Proof. reflexivity. Qed.

Lemma is_digit_not_colon : is_digit ":"%char = false.
Proof. reflexivity. Qed.

(** A separator that the first component cannot contain makes the
    concatenation readable. *)
Lemma split_at_char (p : ascii -> bool) (c : ascii) (a1 b1 a2 b2 : string) :
  p c = false -> string_forallb p a1 = true -> string_forallb p a2 = true ->
  a1 +:+ String c b1 = a2 +:+ String c b2 -> a1 = a2 /\ b1 = b2.
Proof.
  intros Hc. revert a2. induction a1 as [|x a1 IH]; intros [|y a2] H1 H2 E; rewrite ?string_cons_app in E.
  - by injection E as ->.
  - cbn in H2. injection E as <- _. rewrite Hc in H2. done.
  - cbn in H1. injection E as -> _. rewrite Hc in H1. done.
  - injection E as <- E. cbn in H1, H2. apply andb_true_iff in H1 as [_ H1], H2 as [_ H2].
    destruct (IH a2 H1 H2 E) as [-> ->]. done.
Qed.

Lemma ValidAddress_inl host port addr :
  ValidAddress host port = inl addr <->
  hostPattern host = true /\ portPattern port = true /\
  (exists num, Atoi port = inl num /\ 0 <= num <= 65535) /\ addr = host +:+ ":" +:+ port.
Proof.
  unfold ValidAddress. destruct (hostPattern host); cbn [negb]; [|split; [done|by intros (? & ? & _)]].
  destruct (portPattern port); cbn [negb]; [|split; [done|by intros (? & ? & _)]].
  destruct (Atoi port) as [num|e] eqn:E.
  - destruct (_ || _) eqn:Hr.
    + split; [done|]. intros (_ & _ & (n & [= <-] & Hn) & _). apply orb_true_iff in Hr as [Hr|Hr]; bool_lia.
    + apply orb_false_iff in Hr as [H1 H2]. apply Z.ltb_ge in H1, H2.
      split; [intros [= <-]; eauto 10|]. by intros (_ & _ & _ & ->).
  - split; [done|]. by intros (_ & _ & (n & ? & _) & _).
Qed.

(** An address is accepted exactly when the host is a non-empty string of
    host characters and the port a non-empty string of digits whose value is at
    most 65535; the address is then [host:port], and it determines the host and
    the port. *)
Theorem valid_address_exact :
  (forall host port addr,
     ValidAddress host port = inl addr <->
     hostPattern host = true /\ portPattern port = true /\
     (exists num, Atoi port = inl num /\ 0 <= num <= 65535) /\ addr = host +:+ ":" +:+ port) /\
  (forall h1 p1 h2 p2 addr,
     ValidAddress h1 p1 = inl addr -> ValidAddress h2 p2 = inl addr -> h1 = h2 /\ p1 = p2).
Proof.
  split; [apply ValidAddress_inl|]. intros h1 p1 h2 p2 addr H1 H2.
  apply ValidAddress_inl in H1 as (Hh1 & _ & _ & ->), H2 as (Hh2 & _ & _ & E).
  apply andb_true_iff in Hh1 as [_ Hh1], Hh2 as [_ Hh2].
  exact (split_at_char host_char ":"%char h1 p1 h2 p2 host_char_not_colon Hh1 Hh2 E).
Qed.

Lemma valid_address_exact_witness :
  ValidAddress "localhost" "5011" = inl "localhost:5011" /\
  forall h p, ValidAddress h p = inl "localhost:5011" -> "localhost" = h /\ "5011" = p.
Proof.
  split; [vm_compute; reflexivity|]. intros h p H.
  apply (proj2 valid_address_exact "localhost" "5011" h p "localhost:5011"); [vm_compute; reflexivity|exact H].
Defined.

(** ** The log form of JSON *)

Lemma byte_at_first c s : byte_at (String c s) 0 = Ret c.
Proof. reflexivity. Qed.

Lemma slice_ok s i j : 0 <= i <= j -> j <= len s -> exists r, slice s i j = Ret r.
Proof. intros H1 H2. unfold slice. rewrite !(proj2 (Z.leb_le _ _)) by lia. cbn. eauto. Qed.

Lemma slice_tail c s : slice (String c s) 1 (len (String c s)) = Ret s.
Proof.
  unfold slice, len. cbn [String.length]. rewrite !(proj2 (Z.leb_le _ _)) by lia. cbn [andb].
  replace (Z.to_nat (Z.of_nat (S (String.length s)) - 1)) with (String.length s) by lia.
  change (Z.to_nat 1) with 1%nat. cbn. f_equal. apply substring_full.
Qed.

Lemma plain_json_tail s :
  s <> "" ->
  exists r, (let? c := byte_at s (len s - 1) in
             let? s := if Ascii.eqb c dquote_char then slice s 0 (len s - 1) else Ret s in
             Ret (ReplaceAll (ReplaceAll (ReplaceAll s newline "") escaped_dq dq) " " "")) = Ret r.
Proof.
  intros Hs. assert (0 < len s) by (destruct s; [done|unfold len; cbn; lia]).
  destruct (byte_at_Ret s (len s - 1)) as (c & -> & _); [lia|]. cbn [obind].
  destruct (Ascii.eqb c dquote_char); cbn [obind]; [|eauto].
  destruct (slice_ok s 0 (len s - 1)) as [r ->]; [lia|lia|]. cbn. eauto.
Qed.

(** [PlainJsonString] panics exactly on the empty string and on a lone
    double quote; on every other input it returns. *)
Theorem plain_json_panics_iff s :
  (exists m, PlainJsonString s = Panic m) <-> s = "" \/ s = dq.
Proof.
  split.
  - intros [m Hm]. destruct s as [|c s]; [by left|right]. unfold PlainJsonString in Hm.
    rewrite byte_at_first in Hm. cbn [obind] in Hm. destruct (Ascii.eqb_spec c dquote_char) as [->|Hc].
    + rewrite slice_tail in Hm. cbn [obind] in Hm. destruct s as [|c s]; [done|].
      destruct (plain_json_tail (String c s)) as [r Hr]; [done|]. by rewrite Hr in Hm.
    + cbn [obind] in Hm. destruct (plain_json_tail (String c s)) as [r Hr]; [done|]. by rewrite Hr in Hm.
  - intros [->| ->]; eexists; reflexivity.
Qed.
