(* ===== verification/Setting.v ===== *)
(** * Package core: settings and configuration (core/setting.go, core/conf.go, core/info.go)

    [Dyn] is the dynamic value of an [interface{}] in a decoded settings file,
    with its dynamic type.  The decoder (package toml) is a parameter of
    [parseSetting]. *)

From stdpp Require Import base gmap strings list fin_maps.
From Stdlib Require Import ZArith Lia.
From S2P Require Import Prelude GoString.

#[local] Set Warnings "-register-all".

Inductive Dyn :=
| DString (s : string)
| DInt (z : Z)
| DInt64 (z : Z)
| DBool (b : bool)
| DStrings (l : list string)
| DAnys (l : list Dyn)
| DMap (l : list (string * Dyn))
| DStruct (fields : list (string * Dyn)).

(** The verbs [%s] and [%v] on such a value. *)
Class FormatV := format_v : Dyn -> string.

(** The type assertions of the source: the comma-ok forms. *)
Definition as_string (v : option Dyn) : option string :=
  match v with Some (DString s) => Some s | _ => None end.
Definition as_strings (v : option Dyn) : option (list string) :=
  match v with Some (DStrings l) => Some l | _ => None end.
Definition as_map (v : option Dyn) : option (gmap string Dyn) :=
  match v with Some (DMap l) => Some (list_to_map l) | _ => None end.

(** [reflect.ValueOf(v).IsZero()] *)
Fixpoint IsZero (v : Dyn) : bool :=
  match v with
  | DString s => bool_decide (s = "")
  | DInt z | DInt64 z => z =? 0
  | DBool b => negb b
  | DStrings _ | DAnys _ | DMap _ => false
  | DStruct fields => forallb (fun f => IsZero f.2) fields
  end.

Record Conf := mkConf {
  Conf_Version : string;
  DevMode : bool;
  DisableStdoutLog : bool;
  EnableFileLog : bool;
  LogDir : string;
  LogLevel : string;
  LogRotationMaxDays : Z;
  UseDummyDevice : bool;
  DeviceSettingPath : string;
  QueueMaxSize : Z;
  QueueRefillThreshold : Z;
  GRPCTranspilerHost : string;
  GRPCTranspilerPort : string;
  TranspilerPluginPath : string;
  EnableDummyQPUTimeInsertion : bool;
  DummyQPUTime : Z;
  ServiceDBEndpoint : string;
  ServiceDBAPIKey : string;
  DisableStartDevicePolling : bool;
  SettingPath : string
}.

Record NonSecretConf := mkNonSecretConf {
  N_DevMode : bool;
  N_DisableStdoutLog : bool;
  N_EnableFileLog : bool;
  N_LogDir : string;
  N_LogLevel : string;
  N_LogRotationMaxDays : Z;
  N_UseDummyDevice : bool;
  N_DeviceSettingsPath : string;
  N_QueueMaxSize : Z;
  N_QueueRefillThreshold : Z;
  N_GRPCTranspilerHost : string;
  N_GRPCTranspilerPort : string;
  N_TranspilerPluginPath : string;
  N_ServiceDBEndpoint : string;
  N_ServiceDBRegion : string;
  N_DisableStartDevicePolling : bool
}.

(** What is published of the configuration: not the API key. *)
Definition SetInfo (c : Conf) : NonSecretConf :=
  mkNonSecretConf (DevMode c) (DisableStdoutLog c) (EnableFileLog c) (LogDir c) (LogLevel c)
    (LogRotationMaxDays c) (UseDummyDevice c) (DeviceSettingPath c) (QueueMaxSize c) (QueueRefillThreshold c)
    (GRPCTranspilerHost c) (GRPCTranspilerPort c) (TranspilerPluginPath c) (ServiceDBEndpoint c) ""
    (DisableStartDevicePolling c).

Record MitigatorSetting := mkMitigatorSetting { MS_Host : string; MS_Port : string }.
Definition NewMitigatorSetting : MitigatorSetting := mkMitigatorSetting "localhost" "5011".

Record Setting := mkSetting {
  ComponentSetting : gmap string Dyn;
  RunGroupSetting : gmap string Dyn
}.

(** The global setting; [None] is the nil pointer before [ResetSetting]. *)
Definition ResetSetting (g : option Setting) : option Setting := Some (mkSetting ∅ ∅).

Definition RegisterSetting (settingName : string) (settingVal : Dyn) : M (option Setting) unit :=
  let! g := get in
  match g with
  | None => gopanic "invalid memory address or nil pointer dereference"
  | Some s => put (Some (mkSetting (<[settingName := settingVal]> (ComponentSetting s)) (RunGroupSetting s)))
  end.

(** The constructor and the method on a setting that is not the global one. *)
Definition newSetting : Setting := mkSetting ∅ ∅.
Definition Setting_registerSetting (s : Setting) (settingName : string) (settingVal : Dyn) : Setting :=
  mkSetting (<[settingName := settingVal]> (ComponentSetting s)) (RunGroupSetting s).

Lemma register_setting_method s n v : RegisterSetting n v (Some s) = (Ret tt, Some (Setting_registerSetting s n v)).
Proof. reflexivity. Qed.

(** The global setting as the running components see it. *)
Class GlobalSetting := globalSetting : option Setting.

Definition GetComponentSetting (g : option Setting) (name : string) : option Dyn :=
  match g with
  | None => None
  | Some s => ComponentSetting s !! name
  end.

(** The mandatory string members of the settings: a missing one panics. *)
Definition must_string (m : gmap string Dyn) (key : string) : outcome string :=
  match as_string (m !! key) with
  | Some s => Ret s
  | None => Panic "interface conversion"
  end.

Section parsing.
(** The decoder: the entries of the two tables of the file, or its error. *)
Context (decode : string -> (gmap string Dyn * gmap string Dyn) + error).

(** The decoder fills the maps the setting already holds; on an error nothing
    is relied on. *)
Definition parseSetting (tomlString : string) : M (option Setting) (option error) :=
  let! g := get in
  match g with
  | None => gopanic "invalid memory address or nil pointer dereference"
  | Some s =>
      match decode tomlString with
      | inr e => ret (Some e)
      | inl (com, rg) => put (Some (mkSetting (com ∪ ComponentSetting s) (rg ∪ RunGroupSetting s))) ;;! ret None
      end
  end.

(** The argument is the answer of [ReadSettingsFile] for the path. *)
Definition ParseSettingFromPath (file : string + error) : M (option Setting) (option error) :=
  match file with
  | inr e => ret (Some e)
  | inl tomlString => parseSetting tomlString
  end.
End parsing.
