(* ===== verification/ResultDivider.v ===== *)
(** * Package multiprog: dividing a combined result (resultdivider/result_divider.go)

    The bit string of a measured count is ordered by physical qubit.
    [swapVirtualPhysical] reorders it by virtual qubit, and [DivideResult] cuts
    it into the bit strings of the combined circuits and accumulates the counts
    of each.  [relabel] is the order-free description of the reordering. *)

From stdpp Require Import base gmap strings list fin_maps sorting.
From Stdlib Require Import ZArith Lia Ascii.
From S2P Require Import Prelude GoString Json Core.

Definition bytestr (c : ascii) : string := String c "".

(** The loop [for i := 0; i <= maxPhysical; i++]; position [maxPhysical - i]
    is written at step [i], so the cells are consed from the right. *)
Fixpoint fill_loop (input : string) (l : list Z) (fuel : nat) (i cursor : Z) (acc : list string)
    : outcome (list string) :=
  match fuel with
  | O => Ret acc
  | S f =>
      if bool_decide (i ∈ l) then
        let? c := byte_at input cursor in
        fill_loop input l f (i + 1) (cursor - 1) (bytestr c :: acc)
      else fill_loop input l f (i + 1) cursor ("0" :: acc)
  end.

(** The loop that finds the maximum, from 0. *)
Definition max_physical (l : list Z) : Z :=
  foldl (fun m p => if m <? p then p else m) 0 l.

(** Each step of [fill_loop] is one value of [i], so [maxPhysical + 1] units
    of fuel are the whole loop. *)
Definition fillMissingDigits (inputPhysicalBitString : string) (physicalQubitList : list Z)
    : outcome (list string + error) :=
  if negb (Z.of_nat (length physicalQubitList) =? len inputPhysicalBitString) then
    Ret (inr ("The length of the physical qubit list " +:+ FormatInt (Z.of_nat (length physicalQubitList))
              +:+ " is not equal to the length of the input bit string "
              +:+ FormatInt (len inputPhysicalBitString)))
  else
    let maxPhysical := max_physical physicalQubitList in
    let? filled := fill_loop inputPhysicalBitString physicalQubitList (Z.to_nat (maxPhysical + 1)) 0
                     (len inputPhysicalBitString - 1) [] in
    Ret (inl filled).

Section divider.
Context {MR : MapRange}.

Definition n_cbits (counts : gmap string Z) : Z :=
  match range counts with
  | [] => 0
  | (k, _) :: _ => len k
  end.

Definition extractVirtualPhysicalMapping (counts : gmap string Z) (vpm : gmap Z Z) : gmap Z Z :=
  let n := n_cbits counts in
  if n <? Z.of_nat (size vpm) then
    foldl (fun result vp => if vp.1 <? u32 n then <[vp.1 := vp.2]> result else result) ∅ (range vpm)
  else vpm.

(** Step 3 of [swapVirtualPhysical]: [swappedVirtualBitMap] is filled cell by
    cell. *)
Fixpoint swap_bits (l : list (Z * Z)) (virtualQubits physicalQubits : Z) (filled swapped : list string)
    : list string + error :=
  match l with
  | [] => inl swapped
  | (virtual, physical) :: l' =>
      if virtualQubits <=? virtual then
        inr ("virtual qubit number is out of range. virtual: " +:+ FormatInt virtual
             +:+ ", length: " +:+ FormatInt virtualQubits)
      else if physicalQubits <=? physical then
        inr ("physical qubit number is out of range. physical: " +:+ FormatInt physical
             +:+ ", length: " +:+ FormatInt physicalQubits)
      else
        swap_bits l' virtualQubits physicalQubits filled
          (<[Z.to_nat (virtualQubits - virtual - 1) :=
               default "" (filled !! Z.to_nat (physicalQubits - physical - 1))]> swapped)
  end.

Fixpoint swap_loop (l : list (string * Z)) (vpm : gmap Z Z) (physicalQubitList : list Z)
    (result : gmap string Z) : outcome (gmap string Z + error) :=
  match l with
  | [] => Ret (inl result)
  | (bits, count) :: l' =>
      let virtualQubits := len bits in
      let? r := fillMissingDigits bits physicalQubitList in
      match r with
      | inr e => Ret (inr e)
      | inl filled =>
          match swap_bits (range vpm) virtualQubits (Z.of_nat (length filled)) filled
                  (replicate (Z.to_nat virtualQubits) "") with
          | inr e => Ret (inr e)
          | inl swapped => swap_loop l' vpm physicalQubitList (<[Join swapped "" := count]> result)
          end
      end
  end.

Definition swapVirtualPhysical (counts : gmap string Z) (vpm : gmap Z Z)
    : outcome (gmap string Z * option error) :=
  if Z.of_nat (size vpm) =? 0 then Ret (counts, None)
  else
    let vpm := extractVirtualPhysicalMapping counts vpm in
    let physicalQubitList := (range vpm).*2 in
    let? r := swap_loop (range counts) vpm physicalQubitList ∅ in
    match r with
    | inr e => Ret (counts, Some e)
    | inl result => Ret (result, None)
    end.

Fixpoint divide_loop (input : string) (lengths : list Z) (currentPos : Z) (result : list string)
    : outcome (list string * Z + error) :=
  match lengths with
  | [] => Ret (inl (result, currentPos))
  | length :: lengths' =>
      if i32 (len input) <? i32 (currentPos + length) then Ret (inr "inconsistent qubits")
      else
        let? part := slice input currentPos (i32 (currentPos + length)) in
        divide_loop input lengths' (i32 (currentPos + length)) (result ++ [part])
  end.

Definition divideStringByLengths (input : string) (lengths : list Z) : outcome (list string + error) :=
  let? r := divide_loop input lengths 0 [] in
  match r with
  | inr e => Ret (inr e)
  | inl (result, currentPos) =>
      if negb (currentPos =? i32 (len input)) then Ret (inr "inconsistent qubits")
      else Ret (inl result)
  end.

(** [divided_job_result[ith_circuit][key] += v], the inner map made on demand. *)
Definition add_divided (d : gmap Z (gmap string Z)) (circuit : Z) (key : string) (v : Z)
    : gmap Z (gmap string Z) :=
  let d := if bool_decide (is_Some (d !! circuit)) then d else <[circuit := ∅]> d in
  let inner := default ∅ (d !! circuit) in
  <[circuit := <[key := u32 (default 0 (inner !! key) + v)]> inner]> d.

Fixpoint add_keys (n : Z) (i : Z) (keys : list string) (v : Z) (d : gmap Z (gmap string Z))
    : gmap Z (gmap string Z) :=
  match keys with
  | [] => d
  | key :: keys' => add_keys n (i + 1) keys' v (add_divided d (u32 (u32 (n - i) - 1)) key v)
  end.

Fixpoint divide_counts (l : list (string * Z)) (lengths : list Z) (d : gmap Z (gmap string Z))
    : outcome (gmap Z (gmap string Z) + error) :=
  match l with
  | [] => Ret (inl d)
  | (k, v) :: l' =>
      let? r := divideStringByLengths k lengths in
      match r with
      | inr e => Ret (inr e)
      | inl keys => divide_counts l' lengths (add_keys (Z.of_nat (length lengths)) 0 keys v d)
      end
  end.

(** [DivideResult] mutates [jd]: the counts are replaced by the swapped ones
    before the division can fail. *)
Definition DivideResult (combinedQubitsList : list Z) : M JobData (option error) :=
  let! jd := get in
  if bool_decide (Counts (JobResult jd) = ∅) then ret (Some "inconsistent qubit property")
  else
    match Result_TranspilerInfo (JobResult jd) with
    | None => gopanic nil_pointer
    | Some ti =>
        match VirtualPhysicalMappingRaw_ToMap (VirtualPhysicalMappingRaw ti) with
        | inr e => ret (Some e)
        | inl vpmMap =>
            let! r := lift (swapVirtualPhysical (Counts (JobResult jd)) vpmMap) in
            let '(counts, err) := r in
            modify (upd_Result (set_Counts counts)) ;;!
            match err with
            | Some e => ret (Some e)
            | None =>
                let! d := lift (divide_counts (range counts) combinedQubitsList ∅) in
                match d with
                | inr e => ret (Some e)
                | inl divided => modify (upd_Result (set_DividedResult divided)) ;;! ret None
                end
            end
        end
    end.
End divider.

(** ** fillMissingDigits *)

(** The number of physical qubits of [l] below [p]. *)
Definition rank (l : list Z) (p : Z) : Z :=
  Z.of_nat (length (filter (fun q => q ∈ l) (seqZ 0 p))).

(** The cell the code fills for physical qubit [p]. *)
Definition phys_cell (s : string) (l : list Z) (p : Z) : string :=
  if bool_decide (p ∈ l)
  then bytestr (default "0"%char (String.get (Z.to_nat (len s - 1 - rank l p)) s))
  else "0".

Lemma rank_nonneg l p : 0 <= rank l p.
Proof. unfold rank. lia. Qed.

Lemma rank_split l p q : 0 <= p <= q ->
  rank l q = rank l p + Z.of_nat (length (filter (fun x => x ∈ l) (seqZ p (q - p)))).
Proof.
  intros Hpq. unfold rank. replace q with (p + (q - p)) at 1 by lia.
  rewrite seqZ_app, filter_app, length_app by lia. rewrite Z.add_0_l. lia.
Qed.

Lemma rank_succ l p : 0 <= p -> rank l (p + 1) = rank l p + (if bool_decide (p ∈ l) then 1 else 0).
Proof.
  intros Hp. rewrite (rank_split l p) by lia. replace (p + 1 - p) with 1 by lia.
  rewrite seqZ_cons, seqZ_nil by lia. cbn.
  destruct (decide (p ∈ l)); [rewrite bool_decide_true|rewrite bool_decide_false]; done.
Qed.

Lemma rank_mono l p q : 0 <= p <= q -> rank l p <= rank l q.
Proof. intros H. rewrite (rank_split l p q) by exact H. lia. Qed.

Lemma rank_lt_length l p : 0 <= p -> p ∈ l -> rank l p < Z.of_nat (length l).
Proof.
  intros Hp Hin. assert (rank l (p + 1) <= Z.of_nat (length l)) as H.
  { unfold rank. apply inj_le. apply submseteq_length, NoDup_submseteq.
    - apply NoDup_filter, NoDup_seqZ.
    - intros x Hx. by apply list_elem_of_filter in Hx as [? _]. }
  rewrite rank_succ, bool_decide_true in H by done. lia.
Qed.

Lemma rank_lt l p q : 0 <= p < q -> p ∈ l -> rank l p < rank l q.
Proof.
  intros Hpq Hin. pose proof (rank_mono l (p + 1) q ltac:(lia)) as H.
  rewrite rank_succ, bool_decide_true in H by (done || lia). lia.
Qed.

Lemma rank_inj l p q : 0 <= p -> 0 <= q -> p ∈ l -> q ∈ l -> rank l p = rank l q -> p = q.
Proof.
  intros Hp Hq Hpl Hql E. destruct (Z.lt_trichotomy p q) as [H|[H|H]]; [|done|].
  - pose proof (rank_lt l p q ltac:(lia) Hpl). lia.
  - pose proof (rank_lt l q p ltac:(lia) Hql). lia.
Qed.

(** [rank] only looks at membership. *)
Lemma rank_proper l1 l2 p : (forall x, x ∈ l1 <-> x ∈ l2) -> rank l1 p = rank l2 p.
Proof. intros H. unfold rank. f_equal. f_equal. apply list_filter_iff. exact H. Qed.

Lemma fill_loop_spec s l fuel i acc :
  Z.of_nat (length l) = len s -> 0 <= i ->
  fill_loop s l fuel i (len s - 1 - rank l i) acc =
    Ret (reverse (phys_cell s l <$> seqZ i (Z.of_nat fuel)) ++ acc).
Proof.
  intros Hlen. revert i acc. induction fuel as [|f IH]; intros i acc Hi; [done|].
  assert (forall x, reverse (phys_cell s l <$> seqZ i (Z.of_nat (S f))) ++ x =
    reverse (phys_cell s l <$> seqZ (i + 1) (Z.of_nat f)) ++ phys_cell s l i :: x) as ->.
  { intros x. rewrite seqZ_cons, fmap_cons, reverse_cons, <- app_assoc by lia.
    cbn. do 3 f_equal. f_equal; lia. }
  cbn [fill_loop]. pose proof (rank_succ l i Hi) as Hr.
  unfold phys_cell at 2. case_bool_decide as Hin.
  - pose proof (rank_lt_length l i Hi Hin). pose proof (rank_nonneg l i).
    destruct (byte_at_Ret s (len s - 1 - rank l i)) as (c & -> & Hc); [lia|]. cbn [obind].
    rewrite Hc. replace (len s - 1 - rank l i - 1) with (len s - 1 - rank l (i + 1)) by lia.
    rewrite IH by lia. reflexivity.
  - replace (len s - 1 - rank l i) with (len s - 1 - rank l (i + 1)) by lia.
    rewrite IH by lia. reflexivity.
Qed.

Lemma max_physical_spec l : 0 <= max_physical l /\ forall p, p ∈ l -> p <= max_physical l.
Proof.
  unfold max_physical.
  assert (forall m, m <= foldl (fun m p => if m <? p then p else m) m l /\
    forall p, p ∈ l -> p <= foldl (fun m p => if m <? p then p else m) m l) as H.
  { induction l as [|x l IH]; intros m; cbn.
    - split; [lia|]. intros p Hp. by apply not_elem_of_nil in Hp.
    - destruct (IH (if m <? x then x else m)) as [H1 H2].
      split; [destruct (Z.ltb_spec m x); lia|]. intros p [->|Hp]%elem_of_cons; [|auto].
      destruct (Z.ltb_spec m x); lia. }
  apply (H 0).
Qed.

(** Every physical qubit from 0 to the largest gets its cell, in decreasing
    order; no input makes the function panic. *)
Lemma fillMissingDigits_spec s l :
  fillMissingDigits s l =
    if Z.of_nat (length l) =? len s
    then Ret (inl (reverse (phys_cell s l <$> seqZ 0 (max_physical l + 1))))
    else Ret (inr ("The length of the physical qubit list " +:+ FormatInt (Z.of_nat (length l))
              +:+ " is not equal to the length of the input bit string " +:+ FormatInt (len s))).
Proof.
  unfold fillMissingDigits. destruct (Z.eqb_spec (Z.of_nat (length l)) (len s)) as [E|E]; [|done].
  cbn [negb]. destruct (max_physical_spec l) as [Hmax _].
  assert (rank l 0 = 0) as Hr0 by done.
  replace (len s - 1) with (len s - 1 - rank l 0) by lia.
  rewrite fill_loop_spec by (done || lia). cbn [obind]. rewrite app_nil_r, Z2Nat.id by lia. done.
Qed.

Lemma filled_lookup s l p :
  0 <= p <= max_physical l ->
  reverse (phys_cell s l <$> seqZ 0 (max_physical l + 1)) !! Z.to_nat (max_physical l + 1 - p - 1)
    = Some (phys_cell s l p).
Proof.
  intros Hp. set (l' := phys_cell s l <$> seqZ 0 (max_physical l + 1)).
  assert (length l' = Z.to_nat (max_physical l + 1)) as Hl by (subst l'; by rewrite length_fmap, length_seqZ).
  rewrite reverse_lookup by lia. subst l'. rewrite list_lookup_fmap, lookup_seqZ_lt by lia.
  cbn. do 2 f_equal. lia.
Qed.

(** ** swapVirtualPhysical *)

(** A mapping of the virtual qubits [0 .. n-1] to distinct physical qubits. *)
Definition wf_vpm (n : Z) (m : gmap Z Z) : Prop :=
  (forall v, is_Some (m !! v) <-> 0 <= v < n) /\
  (forall v p, m !! v = Some p -> 0 <= p) /\
  (forall v1 v2 p, m !! v1 = Some p -> m !! v2 = Some p -> v1 = v2).

Definition phys_list (m : gmap Z Z) : list Z := (map_to_list m).*2.

(** The bit of virtual qubit [v] in the measured string [s]: the one of the
    physical qubit it is mapped to. *)
Definition virtual_bit (m : gmap Z Z) (s : string) (v : Z) : ascii :=
  default "0"%char
    (String.get (Z.to_nat (len s - 1 - rank (phys_list m) (default 0 (m !! v)))) s).

(** The measured string in the order of the virtual qubits, the largest first. *)
Definition relabel (m : gmap Z Z) (s : string) : string :=
  String.string_of_list_ascii (virtual_bit m s <$> reverse (seqZ 0 (len s))).

Lemma elem_of_phys_list m p : p ∈ phys_list m <-> exists v, m !! v = Some p.
Proof.
  unfold phys_list. rewrite list_elem_of_fmap. split.
  - intros ([v q] & -> & H). apply elem_of_map_to_list in H. by exists v.
  - intros (v & H). exists (v, p). split; [done|]. by apply elem_of_map_to_list.
Qed.

Lemma length_phys_list m : length (phys_list m) = size m.
Proof. unfold phys_list. by rewrite length_fmap, length_map_to_list. Qed.

Lemma wf_vpm_size n m : 0 <= n -> wf_vpm n m -> Z.of_nat (size m) = n.
Proof.
  intros Hn (Hdom & _). rewrite <- size_dom.
  assert (dom m = list_to_set (seqZ 0 n)) as ->.
  { apply set_eq. intros v. rewrite elem_of_dom, Hdom, elem_of_list_to_set, elem_of_seqZ. lia. }
  rewrite size_list_to_set by apply NoDup_seqZ. rewrite length_seqZ. lia.
Qed.

Section swap.
Context {MR : MapRange}.

Lemma elem_of_range_snd (m : gmap Z Z) p : p ∈ (range m).*2 <-> p ∈ phys_list m.
Proof. unfold phys_list. by rewrite range_perm. Qed.

(** [swap_bits] on in-range entries with distinct virtual qubits. *)
Lemma swap_bits_spec (l : list (Z * Z)) n pq filled swapped :
  Forall (fun vp => 0 <= vp.1 < n /\ 0 <= vp.2 < pq) l -> NoDup l.*1 ->
  Z.of_nat (length swapped) = n ->
  exists r, swap_bits l n pq filled swapped = inl r /\ Z.of_nat (length r) = n /\
    (forall v p, (v, p) ∈ l -> r !! Z.to_nat (n - v - 1) = Some (default "" (filled !! Z.to_nat (pq - p - 1)))) /\
    (forall v, 0 <= v < n -> v ∉ l.*1 -> r !! Z.to_nat (n - v - 1) = swapped !! Z.to_nat (n - v - 1)).
Proof.
  intros H. revert swapped. induction H as [|[v p] l [Hv Hp] Hl IH]; intros swapped Hnd Hlen; cbn in *.
  - exists swapped. repeat split; try done. intros v p Hin. by apply not_elem_of_nil in Hin.
  - inversion Hnd as [|? ? Hni Hnd']; subst.
    rewrite (proj2 (Z.leb_gt _ _)), (proj2 (Z.leb_gt _ _)) by lia.
    edestruct (IH (<[Z.to_nat (Z.of_nat (length swapped) - v - 1):=default "" (filled !! Z.to_nat (pq - p - 1))]> swapped))
      as (r & -> & Hr & Hin & Hout); [done|by rewrite length_insert|].
    exists r. split; [done|]. split; [done|]. split.
    + intros v' p' [[= -> ->]|Hin']%elem_of_cons; [|by apply Hin].
      rewrite Hout by (done || lia). apply list_lookup_insert_eq. lia.
    + intros v' Hv' [Hne Hni']%not_elem_of_cons. rewrite Hout by done.
      apply list_lookup_insert_ne. lia.
Qed.

Lemma Join_bytestr (cs : list ascii) : Join (bytestr <$> cs) "" = String.string_of_list_ascii cs.
Proof.
  induction cs as [|c cs IH]; [done|]. destruct cs as [|d cs]; [done|].
  change (bytestr c +:+ "" +:+ Join (bytestr <$> d :: cs) "" = String.string_of_list_ascii (c :: d :: cs)).
  rewrite IH. done.
Qed.

Lemma wf_vpm_bounds n m v p : wf_vpm n m -> (v, p) ∈ range m ->
  0 <= v < n /\ 0 <= p <= max_physical (range m).*2.
Proof.
  intros (Hdom & Hpos & _) Hin. pose proof Hin as Hin'. apply elem_of_range in Hin.
  split; [apply Hdom; eauto|]. split; [by eapply Hpos|].
  apply (proj2 (max_physical_spec _)). apply list_elem_of_fmap. by exists (v, p).
Qed.

(** One measured string: filling and swapping together are [relabel]. *)
Lemma swap_one_string m s :
  wf_vpm (len s) m ->
  exists filled, fillMissingDigits s (range m).*2 = Ret (inl filled) /\
    exists swapped,
      swap_bits (range m) (len s) (Z.of_nat (length filled)) filled (replicate (Z.to_nat (len s)) "") = inl swapped /\
      Join swapped "" = relabel m s.
Proof.
  intros Hwf. pose proof (len_nonneg s) as Hn. rewrite fillMissingDigits_spec.
  rewrite length_fmap, length_range, (wf_vpm_size (len s)), Z.eqb_refl by done.
  eexists. split; [reflexivity|].
  destruct (max_physical_spec (range m).*2) as [Hmax _].
  rewrite length_reverse, length_fmap, length_seqZ, Z2Nat.id by lia.
  destruct (swap_bits_spec (range m) (len s) (max_physical (range m).*2 + 1)
    (reverse (phys_cell s (range m).*2 <$> seqZ 0 (max_physical (range m).*2 + 1)))
    (replicate (Z.to_nat (len s)) "")) as (r & -> & Hr & Hin & _).
  - apply Forall_forall. intros [v p] Hvp. pose proof (wf_vpm_bounds _ _ _ _ Hwf Hvp). cbn. lia.
  - apply NoDup_fst_range.
  - rewrite length_replicate. lia.
  - exists r. split; [done|]. unfold relabel. rewrite <- Join_bytestr. f_equal.
    apply list_eq_same_length with (Z.to_nat (len s)); [|lia|].
    { rewrite !length_fmap, length_reverse, length_seqZ. done. }
    intros i x y Hi Hx Hy.
    destruct Hwf as (Hdom & Hpos & Hinj). set (v := len s - 1 - Z.of_nat i).
    destruct (proj2 (Hdom v)) as [p Hp]; [lia|].
    assert ((v, p) ∈ range m) as Hvp by by apply elem_of_range.
    specialize (Hin v p Hvp). replace (Z.to_nat (len s - v - 1)) with i in Hin by lia.
    rewrite Hx in Hin. injection Hin as ->.
    assert (wf_vpm (len s) m) as Hwf' by done.
    pose proof (wf_vpm_bounds _ _ _ _ Hwf' Hvp) as [_ Hpb]. rewrite filled_lookup by lia. cbn.
    rewrite !list_lookup_fmap, reverse_lookup, length_seqZ, lookup_seqZ_lt in Hy
      by (rewrite ?length_seqZ; lia).
    cbn in Hy. injection Hy as <-.
    unfold phys_cell, virtual_bit. replace (0 + _) with v by lia. rewrite Hp. cbn.
    rewrite bool_decide_true by (rewrite elem_of_range_snd, elem_of_phys_list; eauto).
    rewrite (rank_proper _ _ _ (elem_of_range_snd m)). done.
Qed.
End swap.

(** The positions of the physical qubits of a well-formed mapping are all the
    positions of the measured string. *)
Lemma rank_surjective n m j :
  0 <= n -> wf_vpm n m -> 0 <= j < n ->
  exists v p, 0 <= v < n /\ m !! v = Some p /\ rank (phys_list m) p = j.
Proof.
  intros Hn Hwf Hj. pose proof (wf_vpm_size n m Hn Hwf) as Hsz. destruct Hwf as (Hdom & Hpos & Hinj).
  set (ranks := (fun v => rank (phys_list m) (default 0 (m !! v))) <$> seqZ 0 n).
  assert (ranks ≡ₚ seqZ 0 n) as Hperm.
  { apply submseteq_length_Permutation; [|subst ranks; by rewrite length_fmap].
    apply NoDup_submseteq.
    - apply NoDup_fmap_2_strong; [|apply NoDup_seqZ].
      intros v1 v2 Hv1 Hv2 E. apply elem_of_seqZ in Hv1, Hv2.
      destruct (proj2 (Hdom v1)) as [p1 H1]; [lia|]. destruct (proj2 (Hdom v2)) as [p2 H2]; [lia|].
      rewrite H1, H2 in E. cbn in E. apply rank_inj in E; [subst; by eapply Hinj|by eapply Hpos|by eapply Hpos| |];
        apply elem_of_phys_list; eauto.
    - intros x Hx. apply list_elem_of_fmap in Hx as (v & -> & Hv). apply elem_of_seqZ in Hv.
      destruct (proj2 (Hdom v)) as [p Hp]; [lia|]. rewrite Hp. cbn. apply elem_of_seqZ.
      pose proof (rank_nonneg (phys_list m) p).
      assert (rank (phys_list m) p < Z.of_nat (length (phys_list m))) as Hlt.
      { apply rank_lt_length; [by eapply Hpos|]. apply elem_of_phys_list. eauto. }
      rewrite length_phys_list in Hlt. lia. }
  assert (j ∈ ranks) as Hin by (rewrite Hperm; apply elem_of_seqZ; lia).
  apply list_elem_of_fmap in Hin as (v & -> & Hv). apply elem_of_seqZ in Hv.
  destruct (proj2 (Hdom v)) as [p Hp]; [lia|]. exists v, p. rewrite Hp. cbn. auto with lia.
Qed.

Lemma relabel_bits m s1 s2 v :
  len s1 = len s2 -> relabel m s1 = relabel m s2 -> 0 <= v < len s1 ->
  virtual_bit m s1 v = virtual_bit m s2 v.
Proof.
  intros Hlen E Hv. unfold relabel in E.
  apply (f_equal String.list_ascii_of_string) in E.
  rewrite !String.list_ascii_of_string_of_list_ascii, <- Hlen in E.
  apply (f_equal (fun l => l !! Z.to_nat (len s1 - 1 - v))) in E.
  rewrite !list_lookup_fmap, reverse_lookup, length_seqZ, lookup_seqZ_lt in E by (rewrite ?length_seqZ; lia).
  cbn in E. injection E as E. replace (0 + _) with v in E by lia. exact E.
Qed.

Lemma string_get_ext s1 s2 :
  String.length s1 = String.length s2 ->
  (forall j, (j < String.length s1)%nat -> String.get j s1 = String.get j s2) -> s1 = s2.
Proof.
  intros Hlen H. rewrite <- (String.string_of_list_ascii_of_string s1), <- (String.string_of_list_ascii_of_string s2).
  f_equal. apply list_eq. intros j. rewrite <- !get_string_list.
  destruct (decide (j < String.length s1)%nat) as [Hj|Hj]; [by apply H|].
  rewrite !get_string_list, !lookup_ge_None_2; [done| |]; rewrite length_list_ascii; lia.
Qed.

(** Different measured strings stay different. *)
Lemma relabel_inj m s1 s2 :
  len s1 = len s2 -> wf_vpm (len s1) m -> relabel m s1 = relabel m s2 -> s1 = s2.
Proof.
  intros Hlen Hwf E. apply string_get_ext; [unfold len in Hlen; lia|]. intros j Hj.
  destruct (rank_surjective (len s1) m (len s1 - 1 - Z.of_nat j)) as (v & p & Hv & Hp & Hr);
    [apply len_nonneg|done|unfold len; lia|].
  pose proof (relabel_bits m s1 s2 v Hlen E Hv) as Hb. unfold virtual_bit in Hb. rewrite <- Hlen, Hp in Hb.
  cbn in Hb. rewrite Hr in Hb. replace (Z.to_nat (len s1 - 1 - (len s1 - 1 - Z.of_nat j))) with j in Hb by lia.
  destruct (get_lt_Some s1 j) as [c1 H1]; [lia|]. destruct (get_lt_Some s2 j) as [c2 H2]; [unfold len in Hlen; lia|].
  rewrite H1, H2 in *. cbn in Hb. congruence.
Qed.

(** The mapping of the measured virtual qubits. *)
Definition measured (n : Z) (m : gmap Z Z) : gmap Z Z := filter (fun vp => vp.1 < n) m.

Lemma wf_measured n N m : 0 <= n <= N -> wf_vpm N m -> wf_vpm n (measured n m).
Proof.
  intros HnN (Hdom & Hpos & Hinj). unfold measured. split; [|split].
  - intros v. split.
    + intros (p & Hp). apply map_lookup_filter_Some in Hp as [Hp Hlt]. cbn in Hlt.
      enough (0 <= v < N) by lia. apply Hdom. eauto.
    + intros Hv. destruct (proj2 (Hdom v)) as [p Hp]; [lia|]. exists p.
      apply map_lookup_filter_Some. cbn. split; [done|lia].
  - intros v p Hp. apply map_lookup_filter_Some in Hp as [Hp _]. by eapply Hpos.
  - intros v1 v2 p H1 H2. apply map_lookup_filter_Some in H1 as [H1 _], H2 as [H2 _]. by eapply Hinj.
Qed.

Section swap_whole.
Context {MR : MapRange}.

Lemma foldl_if_insert (f : Z * Z -> bool) (l : list (Z * Z)) (m : gmap Z Z) :
  foldl (fun r vp => if f vp then <[vp.1 := vp.2]> r else r) m l =
  foldl (fun r vp => <[vp.1 := vp.2]> r) m (filter (fun vp => f vp = true) l).
Proof.
  revert m. induction l as [|x l IH]; intros m; [done|]. cbn. rewrite IH.
  destruct (f x); [rewrite decide_True by done|rewrite decide_False by done]; done.
Qed.

Lemma extract_measured n N counts m :
  0 <= n <= N -> n < 2 ^ 32 -> wf_vpm N m -> counts <> ∅ ->
  (forall s c, counts !! s = Some c -> len s = n) ->
  extractVirtualPhysicalMapping counts m = measured n m.
Proof.
  intros HnN Hn32 Hwf Hne Hlen. unfold extractVirtualPhysicalMapping.
  assert (n_cbits counts = n) as ->.
  { unfold n_cbits. destruct (range counts) as [|[k c] l] eqn:E; [by apply range_nil_inv in E|].
    eapply Hlen, elem_of_range. rewrite E. by left. }
  rewrite (wf_vpm_size N) by (lia || done). destruct (Z.ltb_spec n N).
  - rewrite u32_small by (unfold in_u32; lia). rewrite (foldl_if_insert (fun vp => vp.1 <? n)).
    apply map_eq. intros v. apply option_eq. intros p. unfold measured.
    rewrite map_lookup_filter_Some. cbn.
    set (l := filter (fun vp => (vp.1 <? n) = true) (range m)).
    assert (NoDup l.*1) as Hnd.
    { eapply sublist_NoDup; [apply NoDup_fst_range with (m := m)|]. apply fmap_sublist, sublist_filter. }
    assert (foldl (fun r vp => <[vp.1 := vp.2]> r) ∅ l = list_to_map l) as ->.
    { revert Hnd. generalize l. clear. intros l Hnd. rewrite <- (map_union_empty (list_to_map l)).
      generalize (∅ : gmap Z Z). induction l as [|[k x] l IH]; intros m; cbn; [by rewrite map_empty_union|].
      cbn in Hnd. inversion Hnd as [|? ? Hk Hnd']; subst. rewrite (IH Hnd').
      apply (not_elem_of_list_to_map_1 (M := gmap Z)) in Hk. by rewrite <- insert_union_r, insert_union_l. }
    rewrite <- elem_of_list_to_map by exact Hnd. subst l. rewrite list_elem_of_filter. cbn.
    rewrite Z.ltb_lt, elem_of_range. tauto.
  - symmetry. apply map_filter_id. intros v p Hp. cbn. destruct Hwf as (Hdom & _).
    enough (0 <= v < N) by lia. apply Hdom. eauto.
Qed.

Lemma swap_loop_spec n m (l : list (string * Z)) acc :
  wf_vpm n m -> Forall (fun kc => len kc.1 = n) l ->
  swap_loop l m (range m).*2 acc = Ret (inl (foldl (fun r kc => <[relabel m kc.1 := kc.2]> r) acc l)).
Proof.
  intros Hwf Hl. revert acc. induction Hl as [|[s c] l Hs Hl IH]; intros acc; [done|]. cbn in *. subst.
  destruct (swap_one_string m s Hwf) as (filled & -> & swapped & Hsw & Hj). cbn [obind].
  rewrite Hsw, Hj. apply IH.
Qed.

Lemma foldl_relabel_lookup n m (l : list (string * Z)) (acc : gmap string Z) s :
  wf_vpm n m -> len s = n -> Forall (fun kc => len kc.1 = n) l -> NoDup l.*1 ->
  foldl (fun r kc => <[relabel m kc.1 := kc.2]> r) acc l !! relabel m s =
    match (list_to_map l : gmap string Z) !! s with Some c => Some c | None => acc !! relabel m s end.
Proof.
  intros Hwf Hs Hl. revert acc. induction Hl as [|[k c] l Hk Hl IH]; intros acc Hnd; [done|]. cbn in *.
  inversion Hnd as [|? ? Hni Hnd']; subst. rewrite IH by done.
  apply (not_elem_of_list_to_map_1 (M := gmap string)) in Hni.
  destruct (decide (k = s)) as [->|Hne].
  - by rewrite Hni, !lookup_insert_eq.
  - rewrite (lookup_insert_ne _ k s) by exact Hne. destruct ((list_to_map l : gmap string Z) !! s); [done|].
    apply lookup_insert_ne. intros E. apply Hne. apply (relabel_inj m); [congruence| |done]. by rewrite Hk.
Qed.

(** Every key of the folded map is a relabelled key or was there before. *)
Lemma foldl_relabel_inv m (l : list (string * Z)) (acc : gmap string Z) k c :
  foldl (fun r kc => <[relabel m kc.1 := kc.2]> r) acc l !! k = Some c ->
  acc !! k = Some c \/ exists s, (s, c) ∈ l /\ k = relabel m s.
Proof.
  revert acc. induction l as [|[s v] l IH]; intros acc; cbn; [auto|]. intros H.
  apply IH in H as [H|(s' & H & ->)]; [|right; exists s'; by rewrite elem_of_cons; auto].
  apply lookup_insert_Some in H as [[<- <-]|[_ H]]; [|auto]. right. exists s. by rewrite elem_of_cons; auto.
Qed.

Lemma swapVirtualPhysical_ok N n counts m :
  0 < N -> 0 <= n <= N -> n < 2 ^ 32 -> wf_vpm N m -> counts <> ∅ ->
  (forall s c, counts !! s = Some c -> len s = n) ->
  exists result, swapVirtualPhysical counts m = Ret (result, None) /\
    result = foldl (fun r kc => <[relabel (measured n m) kc.1 := kc.2]> r) ∅ (range counts).
Proof.
  intros HN HnN Hn32 Hwf Hne Hlen. unfold swapVirtualPhysical.
  rewrite (wf_vpm_size N) by (lia || done). rewrite (proj2 (Z.eqb_neq N 0)) by lia.
  rewrite (extract_measured n N) by done.
  pose proof (wf_measured n N m HnN Hwf) as Hwf'.
  rewrite (swap_loop_spec n) by (exact Hwf' || (apply Forall_forall; intros [s c] Hin; apply elem_of_range in Hin; cbn; eauto)).
  cbn [obind]. eauto.
Qed.

Lemma relabel_fold_spec n counts m :
  wf_vpm n m -> (forall s c, counts !! s = Some c -> len s = n) ->
  let result := foldl (fun r kc => <[relabel m kc.1 := kc.2]> r) (∅ : gmap string Z) (range counts) in
  (forall s, len s = n -> result !! relabel m s = counts !! s) /\
  (forall k c, result !! k = Some c -> exists s, counts !! s = Some c /\ k = relabel m s).
Proof.
  intros Hwf Hlen result. split.
  - intros s Hs. subst result. rewrite (foldl_relabel_lookup n) by
      (done || apply NoDup_fst_range || (apply Forall_forall; intros [k c] Hin; apply elem_of_range in Hin; cbn; eauto)).
    rewrite list_to_map_range. destruct (counts !! s); [done|]. apply lookup_empty.
  - intros k c H. apply foldl_relabel_inv in H as [H|(s & H & ->)]; [by rewrite lookup_empty in H|].
    apply elem_of_range in H. eauto.
Qed.

Lemma relabel_fold_perm n counts m :
  wf_vpm n m -> (forall s c, counts !! s = Some c -> len s = n) ->
  let result := foldl (fun r kc => <[relabel m kc.1 := kc.2]> r) (∅ : gmap string Z) (range counts) in
  map_to_list result ≡ₚ prod_map (relabel m) id <$> map_to_list counts.
Proof.
  intros Hwf Hlen result. destruct (relabel_fold_spec n counts m Hwf Hlen) as [H1 H2]. fold result in H1, H2.
  apply NoDup_Permutation; [apply NoDup_map_to_list| |].
  - apply NoDup_fmap_2_strong; [|apply NoDup_map_to_list]. intros [s1 c1] [s2 c2] Hs1 Hs2 E.
    apply elem_of_map_to_list in Hs1, Hs2. cbn in E. injection E as E <-. f_equal.
    apply (relabel_inj m); [|by rewrite (Hlen s1 c1)|done]. rewrite (Hlen s1 c1), (Hlen s2 c1); done.
  - intros [k c]. rewrite elem_of_map_to_list, list_elem_of_fmap. split.
    + intros H. destruct (H2 k c H) as (s & Hs & ->). exists (s, c). split; [done|by apply elem_of_map_to_list].
    + intros ([s c'] & E & Hs). cbn in E. injection E as -> ->. apply elem_of_map_to_list in Hs.
      rewrite H1; [done|]. eauto.
Qed.

Lemma relabel_fold_total n counts m :
  wf_vpm n m -> (forall s c, counts !! s = Some c -> len s = n) ->
  let result := foldl (fun r kc => <[relabel m kc.1 := kc.2]> r) (∅ : gmap string Z) (range counts) in
  size result = size counts /\ map_total result = map_total counts.
Proof.
  intros Hwf Hlen result.
  pose proof (relabel_fold_perm n counts m Hwf Hlen) as Hp. fold result in Hp.
  split.
  - rewrite <- !length_map_to_list, Hp. apply length_fmap.
  - unfold map_total. rewrite Hp. f_equal. rewrite <- list_fmap_compose. by apply list_fmap_ext.
Qed.

(** C4: reordering a combined result by virtual qubit succeeds and loses
    nothing.  For a one-to-one mapping of the virtual qubits [0 .. N-1] to
    physical qubits and counts of which every key has [n <= N] bits, in every
    iteration order of the two maps: the call does not fail, the count of a
    measured string [s] is found under [relabel] of [s] (the string whose bit of
    virtual qubit [v] is the bit of the physical qubit [v] is mapped to), there
    are no other keys, and the number of keys and the total of the counts are
    kept. *)
Theorem swap_counts_relabelled N n counts m :
  0 < N -> 0 <= n <= N -> n < 2 ^ 32 -> wf_vpm N m -> counts <> ∅ ->
  (forall s c, counts !! s = Some c -> len s = n) ->
  exists result, swapVirtualPhysical counts m = Ret (result, None) /\
    (forall s, len s = n -> result !! relabel (measured n m) s = counts !! s) /\
    (forall k c, result !! k = Some c -> exists s, counts !! s = Some c /\ k = relabel (measured n m) s) /\
    size result = size counts /\ map_total result = map_total counts.
Proof.
  intros HN HnN Hn32 Hwf Hne Hlen.
  destruct (swapVirtualPhysical_ok N n counts m HN HnN Hn32 Hwf Hne Hlen) as (result & E & ->).
  pose proof (wf_measured n N m HnN Hwf) as Hwf'. eexists. split; [exact E|].
  destruct (relabel_fold_spec n counts _ Hwf' Hlen) as [H1 H2].
  destruct (relabel_fold_total n counts _ Hwf' Hlen) as [H3 H4]. auto.
Qed.
End swap_whole.

(** ** divideStringByLengths *)

(** The consecutive segments of [s] of the given lengths, from [pos]. *)
Fixpoint segments (s : string) (pos : Z) (lengths : list Z) : list string :=
  match lengths with
  | [] => []
  | l :: lengths' => String.substring (Z.to_nat pos) (Z.to_nat l) s :: segments s (pos + l) lengths'
  end.

Lemma length_segments s pos lengths : length (segments s pos lengths) = length lengths.
Proof. revert pos. induction lengths; intros pos; cbn; auto. Qed.

Lemma zsum_cons x l : zsum (x :: l) = x + zsum l.
Proof. reflexivity. Qed.

Lemma divide_loop_spec s lengths pos acc :
  Forall (fun l => 0 <= l) lengths -> 0 <= pos <= len s -> len s < 2 ^ 31 -> pos + zsum lengths < 2 ^ 31 ->
  divide_loop s lengths pos acc =
    if pos + zsum lengths <=? len s
    then Ret (inl (acc ++ segments s pos lengths, pos + zsum lengths))
    else Ret (inr "inconsistent qubits").
Proof.
  intros Hl. revert pos acc. induction Hl as [|l lengths Hl Hls IH]; intros pos acc Hpos Hlen Hsum; cbn [divide_loop].
  - cbn [zsum foldr segments]. rewrite (proj2 (Z.leb_le _ _)) by lia. by rewrite Z.add_0_r, app_nil_r.
  - rewrite zsum_cons in *. pose proof (zsum_nonneg _ Hls). pose proof (len_nonneg s).
    rewrite !i32_small by (unfold in_i32; lia). destruct (Z.ltb_spec (len s) (pos + l)).
    + rewrite (proj2 (Z.leb_gt _ _)) by lia. done.
    + unfold slice. rewrite !(proj2 (Z.leb_le _ _)) by lia. cbn [andb obind].
      rewrite IH by lia. rewrite <- Z.add_assoc, <- app_assoc. cbn [segments app].
      by replace (pos + l - pos) with l by lia.
Qed.

Lemma divideStringByLengths_spec s lengths :
  Forall (fun l => 0 <= l) lengths -> len s < 2 ^ 31 -> zsum lengths < 2 ^ 31 ->
  divideStringByLengths s lengths =
    if zsum lengths =? len s then Ret (inl (segments s 0 lengths)) else Ret (inr "inconsistent qubits").
Proof.
  intros Hl Hlen Hsum. unfold divideStringByLengths. pose proof (len_nonneg s).
  rewrite divide_loop_spec by (done || lia). rewrite Z.add_0_l, app_nil_l.
  destruct (Z.leb_spec (zsum lengths) (len s)); cbn [obind].
  - rewrite i32_small by (unfold in_i32; lia). by destruct (Z.eqb_spec (zsum lengths) (len s)).
  - rewrite (proj2 (Z.eqb_neq _ _)) by lia. done.
Qed.

Lemma Join_nil_cons p ps : Join (p :: ps) "" = p +:+ Join ps "".
Proof. destruct ps; cbn; [by rewrite string_app_nil_r|done]. Qed.

Lemma segments_join s lengths pos :
  Forall (fun l => 0 <= l) lengths -> 0 <= pos -> pos + zsum lengths <= len s ->
  Join (segments s pos lengths) "" = String.substring (Z.to_nat pos) (Z.to_nat (zsum lengths)) s /\
  Forall2 (fun part l => len part = l) (segments s pos lengths) lengths.
Proof.
  intros Hl. revert pos. induction Hl as [|l lengths Hl Hls IH]; intros pos Hpos Hsum.
  - cbn. split; [|done]. generalize (Z.to_nat pos). clear. intros i. revert i.
    induction s; intros [|i]; cbn; auto.
  - rewrite zsum_cons in *. pose proof (zsum_nonneg _ Hls). cbn [segments].
    destruct (IH (pos + l)) as [IH1 IH2]; [lia|lia|]. rewrite Join_nil_cons, IH1.
    rewrite (Z2Nat.inj_add l), (Z2Nat.inj_add pos) by lia. unfold len in *. split.
    + symmetry. apply substring_split. lia.
    + constructor; [|done]. unfold len. rewrite substring_length by lia. lia.
Qed.

(** Cutting a bit string by the qubit counts of the combined circuits.
    For non-negative counts in the range of int32 the call never panics: it
    fails exactly when the counts do not add up to the length of the string,
    and otherwise returns one part per circuit, of the circuit's length, whose
    concatenation is the string. *)
Theorem divide_string_partition s lengths :
  Forall (fun l => 0 <= l) lengths -> len s < 2 ^ 31 -> zsum lengths < 2 ^ 31 ->
  match divideStringByLengths s lengths with
  | Ret (inl parts) => Forall2 (fun part l => len part = l) parts lengths /\ Join parts "" = s
  | Ret (inr e) => zsum lengths <> len s /\ e = "inconsistent qubits"
  | Panic _ => False
  end.
Proof.
  intros Hl Hlen Hsum. rewrite divideStringByLengths_spec by done.
  destruct (Z.eqb_spec (zsum lengths) (len s)) as [E|E]; [|done].
  destruct (segments_join s lengths 0 Hl) as [H1 H2]; [lia|lia|]. split; [done|].
  rewrite H1, E. unfold len. rewrite Nat2Z.id. apply substring_full.
Qed.

Lemma divide_string_partition_witness :
  divideStringByLengths "0110" [1; 3] = Ret (inl ["0"; "110"]) /\
  match divideStringByLengths "0110" [1; 3] with
  | Ret (inl parts) => Forall2 (fun part l => len part = l) parts [1; 3] /\ Join parts "" = "0110"
  | Ret (inr e) => zsum [1; 3] <> len "0110" /\ e = "inconsistent qubits"
  | Panic _ => False
  end.
Proof.
  split; [reflexivity|]. apply (divide_string_partition "0110" [1; 3]); [|reflexivity|reflexivity].
  repeat constructor; lia.
Defined.

(** ** DivideResult *)

(** The count of [key] in the result of circuit [c]. *)
Definition divided_count (d : gmap Z (gmap string Z)) (c : Z) (key : string) : option Z :=
  d !! c ≫= lookup key.

Lemma divided_count_add d c0 k0 v c k :
  divided_count (add_divided d c0 k0 v) c k =
    if decide (c = c0 /\ k = k0) then Some (u32 (default 0 (divided_count d c k) + v)) else divided_count d c k.
Proof.
  unfold divided_count, add_divided. case_bool_decide as Hd.
  - destruct Hd as [inner Hi]. rewrite Hi. cbn. destruct (decide (c = c0)) as [->|Hc].
    + rewrite lookup_insert_eq, Hi. cbn. destruct (decide (k = k0)) as [->|Hk].
      * rewrite decide_True by done. by rewrite lookup_insert_eq.
      * rewrite decide_False by tauto. by apply lookup_insert_ne.
    + rewrite decide_False by tauto. by rewrite lookup_insert_ne.
  - apply eq_None_not_Some in Hd. rewrite lookup_insert_eq. cbn [from_option id]. rewrite lookup_empty. cbn [from_option id].
    destruct (decide (c = c0)) as [->|Hc].
    + rewrite lookup_insert_eq, Hd. cbn. destruct (decide (k = k0)) as [->|Hk].
      * rewrite decide_True by done. by rewrite lookup_insert_eq.
      * rewrite decide_False by tauto. by rewrite lookup_insert_ne, lookup_empty.
    + rewrite decide_False by tauto. by rewrite !lookup_insert_ne.
Qed.

(** The part of circuit [c] among the parts of a string: the last part is
    circuit 0. *)
Definition part_of (c : Z) (keys : list string) : option string :=
  if (0 <=? c) && (c <? Z.of_nat (length keys))
  then keys !! Z.to_nat (Z.of_nat (length keys) - 1 - c) else None.

Lemma part_of_cons c key keys :
  part_of c (key :: keys) = if c =? Z.of_nat (length keys) then Some key else part_of c keys.
Proof.
  unfold part_of. cbn [length]. destruct (Z.leb_spec 0 c); cbn [andb].
  2: { rewrite (proj2 (Z.eqb_neq _ _)) by lia. done. }
  destruct (Z.ltb_spec c (Z.of_nat (S (length keys)))); destruct (Z.eqb_spec c (Z.of_nat (length keys)));
    destruct (Z.ltb_spec c (Z.of_nat (length keys))); try lia; try done.
  - by replace (Z.to_nat _) with 0%nat by lia.
  - by replace (Z.to_nat (Z.of_nat (S _) - 1 - c)) with (S (Z.to_nat (Z.of_nat (length keys) - 1 - c))) by lia.
Qed.

Lemma divided_count_add_keys n i keys v d c k :
  0 <= i -> n - i = Z.of_nat (length keys) -> n < 2 ^ 32 ->
  divided_count (add_keys n i keys v d) c k =
    if decide (part_of c keys = Some k) then Some (u32 (default 0 (divided_count d c k) + v))
    else divided_count d c k.
Proof.
  revert i d. induction keys as [|key keys IH]; intros i d Hi Hn Hn32; cbn [add_keys].
  - unfold part_of. cbn. destruct (_ && _); by rewrite decide_False.
  - cbn [length] in Hn. rewrite IH by lia. rewrite part_of_cons.
    rewrite (u32_small (n - i)), (u32_small (n - i - 1)) by (unfold in_u32; lia).
    replace (n - i - 1) with (Z.of_nat (length keys)) by lia. rewrite divided_count_add.
    destruct (Z.eqb_spec c (Z.of_nat (length keys))) as [->|Hc].
    + assert (part_of (Z.of_nat (length keys)) keys = None) as ->.
      { unfold part_of. by rewrite Z.ltb_irrefl, andb_false_r. }
      rewrite (decide_False (P := None = Some k)) by done.
      destruct (decide (k = key)) as [->|Hk]; [by rewrite !decide_True|].
      rewrite !decide_False by (intros ?; intuition congruence). done.
    + by rewrite (decide_False (P := c = _ /\ _)) by tauto.
Qed.

(** The entries of which the part of circuit [c] is [key]. *)
Definition entries_of (lengths : list Z) (c : Z) (key : string) (l : list (string * Z)) : list (string * Z) :=
  filter (fun kv => part_of c (segments kv.1 0 lengths) = Some key) l.

Lemma entries_of_cons lengths c k s v l :
  entries_of lengths c k ((s, v) :: l) =
    if decide (part_of c (segments s 0 lengths) = Some k) then (s, v) :: entries_of lengths c k l
    else entries_of lengths c k l.
Proof. reflexivity. Qed.

Lemma divide_counts_spec lengths l d :
  Forall (fun x => 0 <= x) lengths -> zsum lengths < 2 ^ 31 -> Z.of_nat (length lengths) < 2 ^ 32 ->
  Forall (fun kv => len kv.1 = zsum lengths) l ->
  exists d', divide_counts l lengths d = Ret (inl d') /\
    forall c k, divided_count d' c k =
      if decide (entries_of lengths c k l = []) then divided_count d c k
      else Some (u32 (default 0 (divided_count d c k) + zsum (entries_of lengths c k l).*2)).
Proof.
  intros Hpos Hsum Hn Hl. revert d. induction Hl as [|[s v] l Hs Hl IH]; intros d; cbn [divide_counts].
  - exists d. split; [done|]. intros c k. by rewrite decide_True.
  - cbn in Hs. rewrite divideStringByLengths_spec by (done || lia). rewrite (proj2 (Z.eqb_eq _ _)) by done.
    cbn [obind]. destruct (IH (add_keys (Z.of_nat (length lengths)) 0 (segments s 0 lengths) v d)) as (d' & -> & Hd').
    exists d'. split; [done|]. intros c k. rewrite Hd'.
    rewrite divided_count_add_keys by (rewrite ?length_segments; lia).
    rewrite entries_of_cons.
    destruct (decide (part_of c (segments s 0 lengths) = Some k)) as [Hp|Hp]; [|done].
    rewrite (decide_False (P := _ :: _ = [])) by done. cbn [fmap list_fmap snd]. rewrite zsum_cons.
    cbn [from_option id]. rewrite u32_add_l.
    destruct (decide (entries_of lengths c k l = [])) as [->|]; [|by rewrite Z.add_assoc].
    cbn. by rewrite Z.add_0_r.
Qed.

Lemma len_relabel m s : len (relabel m s) = len s.
Proof.
  unfold relabel, len. rewrite <- length_list_ascii, String.list_ascii_of_string_of_list_ascii.
  rewrite length_fmap, length_reverse, length_seqZ. lia.
Qed.

Lemma entries_of_perm lengths c k l1 l2 : l1 ≡ₚ l2 -> entries_of lengths c k l1 ≡ₚ entries_of lengths c k l2.
Proof. intros H. unfold entries_of. by rewrite H. Qed.

(** The measured counts, each under its bit string in virtual order. *)
Definition relabelled_entries (n : Z) (m : gmap Z Z) (counts : gmap string Z) : list (string * Z) :=
  prod_map (relabel (measured n m)) id <$> map_to_list counts.

Section divide_whole.
Context {MR : MapRange} (jd : JobData) (ti : TranspilerInfo) (m : gmap Z Z) (N n : Z).
Let counts := Counts (JobResult jd).
Hypothesis Hti : Result_TranspilerInfo (JobResult jd) = Some ti.
Hypothesis Hraw : VirtualPhysicalMappingRaw_ToMap (VirtualPhysicalMappingRaw ti) = inl m.
Hypothesis Hne : counts <> ∅.
Hypothesis HN : 0 < N.
Hypothesis HnN : 0 <= n <= N.
Hypothesis Hn : n < 2 ^ 31.
Hypothesis Hwf : wf_vpm N m.
Hypothesis Hlen : forall s c, counts !! s = Some c -> len s = n.

(** C1: dividing a combined result gives every circuit its marginal counts.
    When the job's transpiler information maps the virtual qubits one to one
    and the qubit counts of the circuits add up to the width of the result,
    [DivideResult] returns nil, changes nothing of the job but the counts and
    the divided result, and under circuit [c] and bit string [k] stores the sum
    (in uint32) of the counts of all measured strings whose part of circuit [c]
    (the last part is circuit 0) is [k]; a bit string no measured string has is
    absent.  The iteration order of the maps is arbitrary. *)
Theorem divide_result_marginals lengths :
  Forall (fun x => 0 <= x) lengths -> zsum lengths = n -> Z.of_nat (length lengths) < 2 ^ 32 ->
  exists counts' divided,
    DivideResult lengths jd =
      (Ret None, upd_Result (set_DividedResult divided) (upd_Result (set_Counts counts') jd)) /\
    map_to_list counts' ≡ₚ relabelled_entries n m counts /\
    forall c k,
      divided_count divided c k =
        let es := entries_of lengths c k (relabelled_entries n m counts) in
        if decide (es = []) then None else Some (u32 (zsum es.*2)).
Proof.
  intros Hpos Hsum Hk. unfold DivideResult, get, ret, gopanic, lift, modify, bind. cbn. fold counts.
  rewrite bool_decide_eq_false_2 by exact Hne. rewrite Hti, Hraw.
  destruct (swapVirtualPhysical_ok N n counts m HN HnN) as (counts' & -> & E); [lia|done..|]. cbn.
  pose proof (relabel_fold_perm n counts _ (wf_measured n N m HnN Hwf) Hlen) as Hperm. rewrite <- E in Hperm.
  destruct (divide_counts_spec lengths (range counts') ∅) as (d & -> & Hd); [done|lia|done| |].
  { rewrite range_perm, Hperm. apply Forall_fmap, Forall_forall. intros [s c] Hin.
    apply elem_of_map_to_list in Hin. cbn. rewrite len_relabel. rewrite Hsum. eauto. }
  exists counts', d. split; [done|]. split; [done|]. intros c k. rewrite Hd. cbn zeta.
  assert (entries_of lengths c k (range counts') ≡ₚ entries_of lengths c k (relabelled_entries n m counts)) as Hp.
  { apply entries_of_perm. by rewrite range_perm. }
  unfold divided_count. rewrite lookup_empty. cbn [mbind option_bind from_option id]. rewrite Z.add_0_l.
  assert (zsum (entries_of lengths c k (range counts')).*2
          = zsum (entries_of lengths c k (relabelled_entries n m counts)).*2) as -> by (by rewrite Hp).
  destruct (decide (entries_of lengths c k (range counts') = [])) as [H0|H0].
  - rewrite H0 in Hp. rewrite decide_True by (by apply Permutation_nil_l in Hp). done.
  - rewrite decide_False; [done|]. intros H1. apply H0. rewrite H1 in Hp. by apply Permutation_nil_r.
Qed.
End divide_whole.

(** ** Instances *)

(** A test of [wf_vpm] that evaluates. *)
Definition wf_vpm_b (n : Z) (m : gmap Z Z) : bool :=
  forallb (fun vp => (0 <=? vp.1) && (vp.1 <? n) && (0 <=? vp.2)) (map_to_list m) &&
  forallb (fun v => bool_decide (is_Some (m !! v))) (seqZ 0 n) &&
  bool_decide (NoDup (map_to_list m).*2).

Lemma NoDup_snd_inj (l : list (Z * Z)) v1 v2 p :
  NoDup l.*2 -> (v1, p) ∈ l -> (v2, p) ∈ l -> v1 = v2.
Proof.
  induction l as [|[v q] l IH]; cbn; [by rewrite elem_of_nil|]. intros Hnd H1 H2.
  inversion Hnd as [|? ? Hq Hnd']; subst.
  apply elem_of_cons in H1 as [[= <- <-]|H1], H2 as [[= <-]|H2]; [done| | |eauto].
  - destruct Hq. apply list_elem_of_fmap. by exists (v2, p).
  - subst. destruct Hq. apply list_elem_of_fmap. by exists (v1, q).
Qed.

Lemma wf_vpm_b_sound n m : wf_vpm_b n m = true -> wf_vpm n m.
Proof.
  unfold wf_vpm_b. rewrite !andb_true_iff, !forallb_forall, bool_decide_eq_true. intros [[H1 H2] H3].
  assert (forall v p, m !! v = Some p -> 0 <= v < n /\ 0 <= p) as H4.
  { intros v p Hp. apply elem_of_map_to_list, list_elem_of_In, H1 in Hp. cbn in Hp. bool_lia. }
  split; [|split].
  - intros v. split; [intros [p Hp]; by eapply H4|]. intros Hv. apply (bool_decide_eq_true_1 (is_Some _)), H2.
    apply list_elem_of_In, elem_of_seqZ. lia.
  - intros v p Hp. by eapply H4.
  - intros v1 v2 p Hv1 Hv2. apply elem_of_map_to_list in Hv1, Hv2. by eapply NoDup_snd_inj.
Qed.

Module DividerExample.
(** Two circuits of one and two qubits; virtual qubit 0 is on physical qubit 4,
    1 on 1, 2 on 3. *)
Definition mapping : gmap Z Z := {[ 0 := 4; 1 := 1; 2 := 3 ]}.
Definition counts : gmap string Z := {[ "100" := 7; "001" := 4; "110" := 1 ]}.
End DividerExample.

Lemma swap_counts_relabelled_witness :
  relabel (measured 3 DividerExample.mapping) "100" = "001" /\
  exists result, @swapVirtualPhysical canonical_range DividerExample.counts DividerExample.mapping = Ret (result, None) /\
    result !! "001" = Some 7 /\ result !! "010" = Some 4 /\ map_total result = 12.
Proof.
  split; [vm_compute; reflexivity|].
  destruct (@swap_counts_relabelled canonical_range 3 3 DividerExample.counts DividerExample.mapping)
    as (r & E & H1 & H2 & H3 & H4); [lia|lia|lia|by apply wf_vpm_b_sound; vm_compute|done| |].
  - intros s c H. revert s c H. change (map_Forall (fun s _ => len s = 3) DividerExample.counts).
    apply (bool_decide_eq_true_1 _). vm_compute. reflexivity.
  - exists r. split; [exact E|]. rewrite H4. split; [exact (H1 "100" eq_refl)|].
    split; [exact (H1 "001" eq_refl)|vm_compute; reflexivity].
Defined.

Module DividerJob.
Definition quoted (s : string) : string := dq +:+ s +:+ dq.
Definition raw : string :=
  "{" +:+ quoted "0" +:+ ":4," +:+ quoted "1" +:+ ":1," +:+ quoted "2" +:+ ":3}".
Definition ti : TranspilerInfo := mkTranspilerInfo None None (Some raw) None.
Definition jd : JobData :=
  upd_Result (set_Counts DividerExample.counts) (upd_Result (set_Result_TranspilerInfo (Some ti)) (NewJobData 0)).
End DividerJob.

Lemma divide_result_marginals_witness :
  exists counts' divided,
    @DivideResult canonical_range [1; 2] DividerJob.jd =
      (Ret None, upd_Result (set_DividedResult divided) (upd_Result (set_Counts counts') DividerJob.jd)) /\
    divided_count divided 0 "01" = Some 8 /\ divided_count divided 0 "10" = Some 4 /\
    divided_count divided 0 "11" = None.
Proof.
  destruct (@divide_result_marginals canonical_range DividerJob.jd DividerJob.ti DividerExample.mapping 3 3)
    with (lengths := [1; 2]) as (c' & d & E & _ & H);
    [reflexivity|vm_compute; reflexivity|done|lia|lia|lia|by apply wf_vpm_b_sound; vm_compute| |repeat constructor; lia
     |reflexivity|vm_compute; reflexivity|].
  - intros s c Hs. revert s c Hs. change (map_Forall (fun s _ => len s = 3) DividerExample.counts).
    apply (bool_decide_eq_true_1 _). vm_compute. reflexivity.
  - exists c', d. split; [exact E|]. rewrite !H. vm_compute. auto.
Defined.
