(* ===== verification/Job.v ===== *)
(** * Package core: the Job interface and the job manager (core/job.go, core/db.go)

    [IJob] is the [Job] interface: what the scheduler may ask of a job.  The
    classes [ITranspiler] and [IQPUManager] are the components a job calls
    through the container; they act on the world [W] they share and on the
    [JobData] of the job they are given.  [NormalJob] and [UnknownJob] are the
    two jobs of the package; the other packages give further instances.
    [JobManager] is the factory, [MemoryDB] the in-memory store. *)

From stdpp Require Import base gmap strings list fin_maps.
From Stdlib Require Import ZArith Lia.
From S2P Require Import Prelude GoString Core.

(** ** Components seen by a job *)

Inductive DeviceStatus := Available | Unavailable | QueuePaused.
#[global] Instance DeviceStatus_eq_dec : EqDecision DeviceStatus.
Proof. solve_decision. Defined.

Definition DeviceStatus_String (ds : DeviceStatus) : string :=
  match ds with
  | Available => "Available"
  | Unavailable => "Unavailable"
  | QueuePaused => "QueuePaused"
  end.

Record DeviceInfo := mkDeviceInfo {
  DeviceName : string;
  ProviderName : string;
  DeviceType : string;
  DI_Status : DeviceStatus;
  MaxQubits : Z;
  MaxShots : Z;
  DeviceInfoSpecJson : string;
  CalibratedAt : string
}.

Class GoClock (W : Type) := Now : W -> Z * W.

(** [t.Sub(u)] and [time.Since(u)] at [t]: saturating. *)
Definition time_Sub (t u : Z) : Z := Z.max (- 2 ^ 63) (Z.min (2 ^ 63 - 1) (t - u)).

Class ITranspiler (W : Type) := {
  IsAcceptableTranspilerLib : W -> string -> bool;
  Transpile : M (W * JobData) (option error)
}.

(** [GetDeviceInfo] returns a pointer; [None] is nil. *)
Class IQPUManager (W : Type) := {
  QPU_Send : M (W * JobData) (option error);
  QPU_GetDeviceInfo : W -> option DeviceInfo
}.

(** The database manager as jobs call it in pre-processing. *)
Class IDBManager (W : Type) := db_Insert : JobData -> W -> option error * W.

(** The channel to the database; [db_sent] is everything sent on it so far. *)
Class IDBChan (W J : Type) := {
  db_send : J -> W -> W;
  db_sent : W -> list J;
  db_sent_send : forall j w, db_sent (db_send j w) = db_sent w ++ [j]
}.

(** ** Jobs *)

(** [j.JobData()] returns the mutable data of the job. *)
Class HasJobData (J : Type) := {
  jd : J -> JobData;
  with_jd : JobData -> J -> J;
  jd_with_jd : forall d j, jd (with_jd d j) = d;
  with_jd_jd : forall j, with_jd (jd j) j = j;
  with_jd_with_jd : forall d1 d2 j, with_jd d1 (with_jd d2 j) = with_jd d1 j
}.

Class IJob (W J : Type) `{HasJobData J} := {
  PreProcess : M (W * J) unit;
  Process : M (W * J) unit;
  PostProcess : M (W * J) unit;
  IsFinished : J -> outcome bool;
  Clone : J -> J;
  jd_Clone : forall j, jd (Clone j) = jd j
}.

Section job_state.
Context {W J : Type} `{HJ : HasJobData J}.

(** A component called with the job: it sees the job data only. *)
Definition zoom {A} (c : M (W * JobData) A) : M (W * J) A :=
  fun s => match c (s.1, jd s.2) with
           | (r, (w', d)) => (r, (w', with_jd d s.2))
           end.
Definition get_jd : M (W * J) JobData := gets (fun s => jd s.2).
(** A call that changes the world only. *)
Definition on_world {A} (f : W -> A * W) : M (W * J) A :=
  fun s => let '(a, w) := f s.1 in (Ret a, (w, s.2)).
Definition upd_jd (f : JobData -> JobData) : M (W * J) unit :=
  modify (fun s => (s.1, with_jd (f (jd s.2)) s.2)).

Definition SetFailureWithError `{GoClock W} (err : error) : M (W * J) string :=
  modify (fun s => let '(t, w) := Now s.1 in
                   (w, with_jd (SetFailureWithErrorToJobData t err (jd s.2)) s.2)) ;;!
  ret err.
End job_state.

(** [NormalJob] *)
Definition NORMAL_JOB : string := "normal".

Record NormalJob := mkNormalJob { nj_jobData : JobData }.

#[global] Program Instance NormalJob_data : HasJobData NormalJob :=
  {| jd := nj_jobData; with_jd d j := mkNormalJob d |}.
Next Obligation. reflexivity. Qed.
Next Obligation. by intros []. Qed.
Next Obligation. reflexivity. Qed.

Section normal_job.
Context {W : Type} `{GoClock W} `{ITranspiler W} `{IQPUManager W}.

Definition NormalJob_New (d : JobData) : NormalJob := mkNormalJob d.

Definition NormalJob_preProcessImpl : M (W * NormalJob) (option error) :=
  let! d := get_jd in
  let! need := lift (JobData_NeedTranspiling d) in
  if need then zoom Transpile else ret None.

Definition NormalJob_PreProcess : M (W * NormalJob) unit :=
  let! err := NormalJob_preProcessImpl in
  match err with
  | Some e => SetFailureWithError e ;;! ret tt
  | None => ret tt
  end.

Definition NormalJob_Process : M (W * NormalJob) unit :=
  let! err := zoom QPU_Send in
  match err with
  | Some e => upd_jd (set_JobStatus FAILED)
  | None => ret tt
  end.

Definition NormalJob_PostProcess : M (W * NormalJob) unit := ret tt.

Definition NormalJob_IsFinished (j : NormalJob) : outcome bool :=
  Ret (bool_decide (JobStatus (jd j) = SUCCEEDED) || bool_decide (JobStatus (jd j) = FAILED)).

Definition NormalJob_Clone (j : NormalJob) : NormalJob := mkNormalJob (JobData_Clone (nj_jobData j)).

#[global] Program Instance NormalJob_job : IJob W NormalJob :=
  {| PreProcess := NormalJob_PreProcess; Process := NormalJob_Process; PostProcess := NormalJob_PostProcess;
     IsFinished := NormalJob_IsFinished; Clone := NormalJob_Clone |}.
Next Obligation. intros [[]]. reflexivity. Qed.
End normal_job.

(** [UnknownJob]: a job the manager could not accept. *)
Record UnknownJob := mkUnknownJob { uj_jobData : JobData }.

#[global] Program Instance UnknownJob_data : HasJobData UnknownJob :=
  {| jd := uj_jobData; with_jd d j := mkUnknownJob d |}.
Next Obligation. reflexivity. Qed.
Next Obligation. by intros []. Qed.
Next Obligation. reflexivity. Qed.

Section unknown_job.
Context {W : Type}.

Definition UnknownJob_New (d : JobData) : UnknownJob := mkUnknownJob d.
Definition UnknownJob_PreProcess : M (W * UnknownJob) unit := ret tt.
Definition UnknownJob_Process : M (W * UnknownJob) unit := ret tt.
Definition UnknownJob_PostProcess : M (W * UnknownJob) unit := ret tt.
Definition UnknownJob_IsFinished (j : UnknownJob) : outcome bool :=
  Ret (bool_decide (JobStatus (jd j) = SUCCEEDED) || bool_decide (JobStatus (jd j) = FAILED)).
Definition UnknownJob_JobType (j : UnknownJob) : string := JobType (uj_jobData j).
Definition UnknownJob_Clone (j : UnknownJob) : UnknownJob := mkUnknownJob (JobData_Clone (uj_jobData j)).

#[global] Program Instance UnknownJob_job : IJob W UnknownJob :=
  {| PreProcess := UnknownJob_PreProcess; Process := UnknownJob_Process; PostProcess := UnknownJob_PostProcess;
     IsFinished := UnknownJob_IsFinished; Clone := UnknownJob_Clone |}.
Next Obligation. intros [[]]. reflexivity. Qed.
End unknown_job.

(** ** The job manager *)

Record JobParam := mkJobParam {
  JP_JobID : string;
  JP_QASM : string;
  JP_Shots : Z;
  JP_Transpiler : option TranspilerConfig;
  JP_JobType : string
}.

Definition set_JP_JobType (t : string) (p : JobParam) : JobParam :=
  mkJobParam (JP_JobID p) (JP_QASM p) (JP_Shots p) (JP_Transpiler p) t.

(** A registered (empty) job: its Go type, its [JobType()] and its [New]. *)
Record JobProto (J : Type) := mkJobProto {
  proto_type : string;
  proto_JobType : string;
  proto_New : JobData -> J
}.
Arguments mkJobProto {J}.
Arguments proto_type {J}.
Arguments proto_JobType {J}.
Arguments proto_New {J}.

Record JobManager (J : Type) := mkJobManager { acceptableJobs : list (JobProto J) }.
Arguments mkJobManager {J}.
Arguments acceptableJobs {J}.

Section job_manager.
Context {J : Type}.
Implicit Types jm : JobManager J.

(** The jobs before a duplicate stay registered. *)
Fixpoint RegisterJob (jobs : list (JobProto J)) (jm : JobManager J) : option error * JobManager J :=
  match jobs with
  | [] => (None, jm)
  | job :: jobs' =>
      if existsb (fun t => bool_decide (proto_type t = proto_type job)) (acceptableJobs jm)
      then (Some ("job:" +:+ proto_JobType job +:+ " is already registered"), jm)
      else RegisterJob jobs' (mkJobManager (acceptableJobs jm ++ [job]))
  end.

(** Registers the jobs one call at a time and returns the manager only if all
    were accepted. *)
Fixpoint new_manager_loop (jobs : list (JobProto J)) (jm : JobManager J) : JobManager J + error :=
  match jobs with
  | [] => inl jm
  | job :: jobs' =>
      match RegisterJob [job] jm with
      | (Some e, _) => inr e
      | (None, jm') => new_manager_loop jobs' jm'
      end
  end.
Definition NewJobManager (jobs : list (JobProto J)) : JobManager J + error :=
  new_manager_loop jobs (mkJobManager []).

Definition AcceptableJobTypes jm : list string := proto_JobType <$> acceptableJobs jm.

(** [jd.JobType] is assigned through the pointer, so the data is returned. *)
Definition NewJobFromJobData jm (d : JobData) : (J + error) * JobData :=
  let d := if bool_decide (JobType d = "") then set_JobType NORMAL_JOB d else d in
  match find (fun j => bool_decide (proto_JobType j = JobType d)) (acceptableJobs jm) with
  | Some j => (inl (proto_New j d), d)
  | None => (inr ("job type " +:+ JobType d +:+ " is not registered"), d)
  end.

Definition NewJob (now : Z) jm (param : JobParam) : J + error :=
  let d := NewJobData now in
  let d := set_ID (JP_JobID param) d in
  let d := set_QASM (JP_QASM param) d in
  let d := set_Shots (JP_Shots param) d in
  let d := set_Transpiler (JP_Transpiler param) d in
  let d := set_JobType (JP_JobType param) d in
  (NewJobFromJobData jm d).1.

Context {W : Type} `{ITranspiler W} `{IQPUManager W}.

Definition validateTranspilerLib (w : W) (p : JobParam) : outcome (option error) :=
  match JP_Transpiler p with
  | None => Panic nil_pointer
  | Some c =>
      match TranspilerLib c with
      | None => Ret None
      | Some lib =>
          if IsAcceptableTranspilerLib w lib then Ret None
          else Ret (Some ("transpiler lib " +:+ lib +:+ " is not acceptable"))
      end
  end.

Definition validateJobParam (w : W) (p : JobParam) : outcome (option error) :=
  if bool_decide (JP_JobID p = "") then Ret (Some "jobID is empty")
  else
    let? err :=
      if bool_decide (JP_JobType p = NORMAL_JOB) then
        if JP_Shots p <=? 0
        then Ret (Some ("shots(" +:+ FormatInt (JP_Shots p) +:+ ") must be greater than 0"))
        else
          match QPU_GetDeviceInfo w with
          | None => Panic nil_pointer
          | Some di =>
              if MaxShots di <? JP_Shots p
              then Ret (Some ("shots(" +:+ FormatInt (JP_Shots p) +:+ ") is over the limit("
                              +:+ FormatInt (MaxShots di) +:+ ")"))
              else Ret None
          end
      else Ret None in
    match err with
    | Some e => Ret (Some e)
    | None => validateTranspilerLib w p
    end.

Definition NewJobWithValidation (w : W) (now : Z) jm (param : JobParam) : outcome (J + error) :=
  let param := if bool_decide (JP_JobType param = "") then set_JP_JobType NORMAL_JOB param else param in
  let? err := validateJobParam w param in
  match err with
  | Some e => Ret (inr e)
  | None => Ret (NewJob now jm param)
  end.

Definition NewJobFromJobDataWithValidation (w : W) jm (d : JobData) : outcome ((J + error) * JobData) :=
  let d := if bool_decide (JobType d = "") then set_JobType NORMAL_JOB d else d in
  let p := mkJobParam (ID d) (QASM d) (Shots d) (Transpiler d) (JobType d) in
  let? err := validateJobParam w p in
  match err with
  | Some e => Ret (inr e, d)
  | None => Ret (NewJobFromJobData jm d)
  end.
End job_manager.

(** ** MemoryDB (core/db.go)

    The map holds references to jobs, so that a job inserted once and changed
    afterwards is seen changed by [Get], and [UpdateQASM] changes the job of
    its owner. *)
Definition loc : Type := positive.

Record MemoryDB (J : Type) := mkMemoryDB {
  heap : gmap loc J;
  dbMap : gmap string loc
}.
Arguments mkMemoryDB {J}.
Arguments heap {J}.
Arguments dbMap {J}.

Section memory_db.
Context {J : Type} `{HJ : HasJobData J}.

Definition deref (j : loc) : M (MemoryDB J) J :=
  let! d := get in
  match heap d !! j with
  | Some v => ret v
  | None => gopanic nil_pointer
  end.

Definition MemoryDB_Setup : M (MemoryDB J) (option error) :=
  modify (fun d => mkMemoryDB (heap d) ∅) ;;! ret None.

Definition MemoryDB_put (j : loc) : M (MemoryDB J) (option error) :=
  let! v := deref j in
  modify (fun d => mkMemoryDB (heap d) (<[ID (jd v) := j]> (dbMap d))) ;;! ret None.

Definition MemoryDB_Insert : loc -> M (MemoryDB J) (option error) := MemoryDB_put.
Definition MemoryDB_Update : loc -> M (MemoryDB J) (option error) := MemoryDB_put.

(** [None] stands for the empty [NormalJob] returned beside the error. *)
Definition MemoryDB_Get (jobID : string) : M (MemoryDB J) (option loc * option error) :=
  let! d := get in
  match dbMap d !! jobID with
  | Some j => ret (Some j, None)
  | None => ret (None, Some ("not found " +:+ jobID))
  end.

Definition MemoryDB_Delete (jobID : string) : M (MemoryDB J) (option error) :=
  let! d := get in
  match dbMap d !! jobID with
  | Some _ => put (mkMemoryDB (heap d) (delete jobID (dbMap d))) ;;! ret None
  | None => ret (Some ("failed to find " +:+ jobID))
  end.

Definition MemoryDB_UpdateQASM (jobID qasm_str : string) : M (MemoryDB J) unit :=
  let! d := get in
  match dbMap d !! jobID with
  | None => gopanic nil_pointer
  | Some j =>
      let! v := deref j in
      modify (fun d => mkMemoryDB (<[j := with_jd (set_QASM qasm_str (jd v)) v]> (heap d)) (<[jobID := j]> (dbMap d)))
  end.

(** The goroutine of [Setup]: every job received on the channel is stored; nil
    (the channel is closed) ends it. *)
Fixpoint MemoryDB_loop (msgs : list (option loc)) : M (MemoryDB J) unit :=
  match msgs with
  | [] => ret tt
  | None :: _ => ret tt
  | Some j :: msgs' => MemoryDB_Update j ;;! MemoryDB_loop msgs'
  end.

(** [GetJob] and [DeleteJob] of core/job.go, over this manager. *)
Definition GetJob (id : string) : M (MemoryDB J) (option loc) :=
  let! r := MemoryDB_Get id in
  match r.2 with
  | Some _ => ret None
  | None => ret r.1
  end.

Definition DeleteJob (id : string) : M (MemoryDB J) bool :=
  let! err := MemoryDB_Delete id in
  ret (bool_decide (err = None)).
End memory_db.

(** ** Properties of the manager *)

Section manager_facts.
Context {J : Type}.
Implicit Types jm : JobManager J.

Lemma registered_spec jm (job : JobProto J) :
  existsb (fun t => bool_decide (proto_type t = proto_type job)) (acceptableJobs jm) = true <->
  proto_type job ∈ proto_type <$> acceptableJobs jm.
Proof.
  rewrite existsb_exists, list_elem_of_fmap. split.
  - intros (t & Hin & Ht). apply bool_decide_eq_true in Ht. exists t. by rewrite list_elem_of_In.
  - intros (t & Ht & Hin). exists t. rewrite bool_decide_eq_true. by rewrite <- list_elem_of_In.
Qed.

Lemma RegisterJob_prefix jobs jm :
  NoDup (proto_type <$> acceptableJobs jm) ->
  let '(err, jm') := RegisterJob jobs jm in
  NoDup (proto_type <$> acceptableJobs jm') /\
  exists k, acceptableJobs jm' = acceptableJobs jm ++ take k jobs /\
    match err with
    | None => take k jobs = jobs
    | Some e => exists job, jobs !! k = Some job /\ proto_type job ∈ proto_type <$> acceptableJobs jm' /\
                  e = "job:" +:+ proto_JobType job +:+ " is already registered"
    end.
Proof.
  revert jm. induction jobs as [|job jobs IH]; intros jm Hnd; cbn.
  - split; [done|]. exists 0%nat. by rewrite app_nil_r.
  - destruct (existsb _ _) eqn:E.
    + apply registered_spec in E. split; [done|]. exists 0%nat. cbn. rewrite app_nil_r. eauto.
    + assert (proto_type job ∉ proto_type <$> acceptableJobs jm) as Hni.
      { rewrite <- registered_spec, E. done. }
      specialize (IH (mkJobManager (acceptableJobs jm ++ [job]))). cbn in IH.
      destruct (RegisterJob jobs _) as [err jm']. destruct IH as (Hnd' & k & Hk & He).
      { rewrite fmap_app. apply NoDup_app. split; [done|]. split; [|apply NoDup_singleton].
        intros x Hx Hin. apply list_elem_of_singleton in Hin. by subst. }
      split; [done|]. exists (S k). cbn. split; [by rewrite Hk, <- app_assoc|].
      destruct err; [exact He|]. by rewrite He.
Qed.

(** The manager never holds two jobs of one Go type.  Registering a list of
    jobs keeps that invariant and appends to the manager a prefix of the list:
    all of it when nil is returned, and otherwise the jobs before the first one
    whose type is already registered, which the error names. *)
Theorem register_job_unique_types jobs jm :
  NoDup (proto_type <$> acceptableJobs jm) ->
  let '(err, jm') := RegisterJob jobs jm in
  NoDup (proto_type <$> acceptableJobs jm') /\
  exists k, acceptableJobs jm' = acceptableJobs jm ++ take k jobs /\
    match err with
    | None => take k jobs = jobs
    | Some e => exists job, jobs !! k = Some job /\ proto_type job ∈ proto_type <$> acceptableJobs jm' /\
                  e = "job:" +:+ proto_JobType job +:+ " is already registered"
    end.
Proof. apply RegisterJob_prefix. Qed.

Context {W : Type} `{ITranspiler W} `{IQPUManager W}.

(** What [validateJobParam] accepts. *)
Definition acceptable_param (w : W) (p : JobParam) : Prop :=
  JP_JobID p <> "" /\
  (JP_JobType p = NORMAL_JOB -> exists di, QPU_GetDeviceInfo w = Some di /\ 0 < JP_Shots p <= MaxShots di) /\
  exists c, JP_Transpiler p = Some c /\
    match TranspilerLib c with None => True | Some lib => IsAcceptableTranspilerLib w lib = true end.

Lemma validateTranspilerLib_None w p :
  validateTranspilerLib w p = Ret None <->
  exists c, JP_Transpiler p = Some c /\
    match TranspilerLib c with None => True | Some lib => IsAcceptableTranspilerLib w lib = true end.
Proof.
  unfold validateTranspilerLib. destruct (JP_Transpiler p) as [c|]; [|split; [done|by intros (? & ? & _)]].
  destruct (TranspilerLib c) as [lib|] eqn:E; [|split; [intros _; exists c; by rewrite E|done]].
  destruct (IsAcceptableTranspilerLib w lib) eqn:Ha.
  - split; [intros _; exists c; by rewrite E|done].
  - split; [done|]. intros (? & [= <-] & Hl). rewrite E in Hl. congruence.
Qed.

Lemma validateJobParam_None w p : validateJobParam w p = Ret None <-> acceptable_param w p.
Proof.
  unfold validateJobParam, acceptable_param. rewrite <- validateTranspilerLib_None.
  case_bool_decide as Hid; [split; [done|]; tauto|].
  case_bool_decide as Hn; cbn [obind]; [|tauto].
  destruct (Z.leb_spec (JP_Shots p) 0).
  { split; [done|]. intros (_ & Hd & _). destruct (Hd Hn) as (di & _ & ?). lia. }
  destruct (QPU_GetDeviceInfo w) as [di|]; [|split; [done|]; intros (_ & Hd & _); by destruct (Hd Hn) as (di & ? & _)].
  destruct (Z.ltb_spec (MaxShots di) (JP_Shots p)); cbn [obind].
  { split; [done|]. intros (_ & Hd & _). destruct (Hd Hn) as (? & [= <-] & ?). lia. }
  split; [|tauto]. intros Hv. split; [done|]. split; [|done]. intros _. exists di. split; [done|lia].
Qed.

(** The job type with its default. *)
Definition default_type (d : JobData) : JobData :=
  if bool_decide (JobType d = "") then set_JobType NORMAL_JOB d else d.

Lemma default_type_idem d : default_type (default_type d) = default_type d.
Proof.
  unfold default_type at 2 3. destruct (bool_decide (JobType d = "")) eqn:E; [by destruct d|].
  unfold default_type. by rewrite E.
Qed.

(** C30: a job is made from polled job data exactly when the data is valid and
    its type is registered: the ID is not empty, a normal job asks for between
    1 and the device's limit of shots, the transpiler configuration is there and
    names no library or an acceptable one, and some registered job has the type
    (an empty type counting as normal).  The job is then the one the first
    such registered job makes, and it holds the data with the defaulted type. *)
Theorem new_job_validation_exact w jm d j d' :
  NewJobFromJobDataWithValidation w jm d = Ret (inl j, d') <->
  d' = default_type d /\
  acceptable_param w (mkJobParam (ID d) (QASM d) (Shots d) (Transpiler d) (JobType d')) /\
  exists pr, find (fun p => bool_decide (proto_JobType p = JobType d')) (acceptableJobs jm) = Some pr /\
             j = proto_New pr d'.
Proof.
  unfold NewJobFromJobDataWithValidation. fold (default_type d).
  assert (mkJobParam (ID (default_type d)) (QASM (default_type d)) (Shots (default_type d))
            (Transpiler (default_type d)) (JobType (default_type d))
          = mkJobParam (ID d) (QASM d) (Shots d) (Transpiler d) (JobType (default_type d))) as ->.
  { unfold default_type. case_bool_decide; by destruct d. }
  unfold NewJobFromJobData. fold (default_type (default_type d)). rewrite default_type_idem.
  destruct (validateJobParam _ _) as [[e|]|m] eqn:E; cbn [obind].
  - split; [done|]. intros (-> & Ha & _). apply validateJobParam_None in Ha. congruence.
  - apply validateJobParam_None in E. destruct (find _ _) as [pr|] eqn:F.
    + split; [intros [= <- <-]; eauto|]. intros (-> & _ & pr' & F' & ->). congruence.
    + split; [done|]. intros (-> & _ & pr' & F' & _). congruence.
  - split; [done|]. intros (-> & Ha & _). apply validateJobParam_None in Ha. congruence.
Qed.
End manager_facts.

(** ** Properties of the in-memory store *)

Section memory_facts.
Context {J : Type} `{HJ : HasJobData J}.
Implicit Types db : MemoryDB J.

(** The stored jobs exist. *)
Definition closed_db db : Prop := forall id j, dbMap db !! id = Some j -> is_Some (heap db !! j).

(** The ID of the job at [j]. *)
Definition id_of db (j : loc) : option string := (fun v => ID (jd v)) <$> heap db !! j.

Lemma MemoryDB_Update_spec j v db :
  heap db !! j = Some v ->
  MemoryDB_Update j db = (Ret None, mkMemoryDB (heap db) (<[ID (jd v) := j]> (dbMap db))).
Proof.
  intros Hv. unfold MemoryDB_Update, MemoryDB_put, deref, bind, get, modify, ret. by rewrite Hv.
Qed.

Lemma MemoryDB_loop_spec msgs db :
  Forall (fun j => is_Some (heap db !! j)) msgs ->
  exists m, MemoryDB_loop (Some <$> msgs) db = (Ret tt, mkMemoryDB (heap db) m) /\
    forall id, m !! id = match last (filter (fun j => id_of db j = Some id) msgs) with
                         | Some j => Some j
                         | None => dbMap db !! id
                         end.
Proof.
  revert db. induction msgs as [|j msgs IH]; intros db Hall.
  - exists (dbMap db). destruct db. done.
  - inversion Hall as [|? ? [v Hv] Hall']; subst. rewrite fmap_cons. cbn [MemoryDB_loop].
    unfold bind. rewrite (MemoryDB_Update_spec j v) by done.
    destruct (IH (mkMemoryDB (heap db) (<[ID (jd v) := j]> (dbMap db))) Hall') as (m & E & Hm).
    rewrite E. exists m. split; [done|].
    intros id. rewrite Hm, filter_cons. unfold id_of in *. cbn. rewrite Hv. cbn.
    destruct (decide (Some (ID (jd v)) = Some id)) as [[= <-]|Hne].
    + rewrite last_cons. destruct (last _); [done|]. by rewrite lookup_insert_eq.
    + destruct (last _); [done|]. rewrite lookup_insert_ne; [done|]. congruence.
Qed.

(** The database goroutine keeps, per job ID, the last job received.  After
    any sequence of received jobs, [Get] returns for an ID the last received job
    with that ID, and the job stored before when there was none; the goroutine
    never panics and changes no job. *)
Theorem memory_db_keeps_last msgs db id :
  Forall (fun j => is_Some (heap db !! j)) msgs ->
  exists db', MemoryDB_loop (Some <$> msgs) db = (Ret tt, db') /\ heap db' = heap db /\
    (MemoryDB_Get id db').1 =
      match last (filter (fun j => id_of db j = Some id) msgs) with
      | Some j => Ret (Some j, None)
      | None => (MemoryDB_Get id db).1
      end.
Proof.
  intros Hall. destruct (MemoryDB_loop_spec msgs db Hall) as (m & E & Hm).
  eexists. split; [exact E|]. split; [done|]. unfold MemoryDB_Get, bind, get. cbn. rewrite Hm.
  destruct (last _) as [j|]; [done|]. by destruct (dbMap db !! id).
Qed.

(** The store follows the map it is meant to be.  In a closed store,
    inserting a job makes [Get] return it and leaves the other IDs alone;
    deleting an ID that is there makes it absent and fails otherwise without
    effect; the store stays closed; and [UpdateQASM] rewrites the job object in
    place, so that every ID stored for the same object sees the new program,
    while it panics for an unknown ID. *)
Theorem memory_db_laws db :
  closed_db db ->
  (forall j v, heap db !! j = Some v ->
     exists db', MemoryDB_Insert j db = (Ret None, db') /\ closed_db db' /\
       (forall id, (MemoryDB_Get id db').1 =
          if decide (id = ID (jd v)) then Ret (Some j, None) else (MemoryDB_Get id db).1)) /\
  (forall id, exists db', (MemoryDB_Delete id db).2 = db' /\ closed_db db' /\
     (MemoryDB_Get id db').1 = Ret (None, Some ("not found " +:+ id)) /\
     ((MemoryDB_Delete id db).1 = Ret None <-> is_Some (dbMap db !! id))) /\
  (forall id q, match dbMap db !! id with
     | None => (MemoryDB_UpdateQASM id q db).1 = Panic nil_pointer
     | Some j => exists db' v', MemoryDB_UpdateQASM id q db = (Ret tt, db') /\ closed_db db' /\
         dbMap db' = dbMap db /\ heap db' !! j = Some v' /\ QASM (jd v') = q
     end).
Proof.
  intros Hcl. split; [|split].
  - intros j v Hv. eexists. split; [apply (MemoryDB_Update_spec j v _ Hv)|]. split.
    + intros id j' Hj'. cbn in *. apply lookup_insert_Some in Hj' as [[_ <-]|[_ Hj']]; eauto.
    + intros id. unfold MemoryDB_Get, bind, get. cbn. destruct (decide (id = ID (jd v))) as [->|Hne].
      * by rewrite lookup_insert_eq.
      * rewrite lookup_insert_ne by done. by destruct (dbMap db !! id).
  - intros id. eexists. split; [reflexivity|]. unfold MemoryDB_Delete, MemoryDB_Get, bind, get, put, ret.
    destruct (dbMap db !! id) as [j|] eqn:E; cbn.
    + split; [|split; [by rewrite lookup_delete_eq|split; eauto]].
      intros id' j' Hj'. cbn in *. apply lookup_delete_Some in Hj' as [_ Hj']. eauto.
    + rewrite E. split; [done|]. split; [done|]. split; [done|]. by intros [? ?].
  - intros id q. unfold MemoryDB_UpdateQASM, deref, bind, get, gopanic, modify, ret.
    destruct (dbMap db !! id) as [j|] eqn:E; cbn; [|done]. destruct (Hcl _ _ E) as [v Hv]. rewrite Hv.
    eexists _, _. split; [reflexivity|]. cbn. rewrite (insert_id (dbMap db)) by done. split.
    + intros id' j' Hj'. cbn in *. destruct (decide (j = j')) as [->|Hne].
      * rewrite lookup_insert_eq. eauto.
      * rewrite lookup_insert_ne by done. eauto.
    + split; [done|]. rewrite lookup_insert_eq. split; [done|]. rewrite jd_with_jd. by destruct (jd v).
Qed.
End memory_facts.

(** ** Instances *)

Module JobExample.
Definition proto (t : string) : JobProto NormalJob := mkJobProto ("*core." +:+ t) t NormalJob_New.
Definition job (id qasm : string) : NormalJob := mkNormalJob (set_ID id (set_QASM qasm (NewJobData 0))).
Definition store : MemoryDB NormalJob :=
  mkMemoryDB {[ 1%positive := job "a" "old"; 2%positive := job "b" "p"; 3%positive := job "a" "new" ]}
             {[ "a" := 1%positive ]}.
End JobExample.

Lemma register_job_unique_types_witness :
  (RegisterJob [JobExample.proto "normal"; JobExample.proto "sse"; JobExample.proto "normal"] (mkJobManager [])).1
    = Some "job:normal is already registered" /\
  let '(err, jm') := RegisterJob [JobExample.proto "normal"; JobExample.proto "sse"; JobExample.proto "normal"]
                       (mkJobManager []) in
  NoDup (proto_type <$> acceptableJobs jm').
Proof.
  split; [vm_compute; reflexivity|].
  pose proof (register_job_unique_types [JobExample.proto "normal"; JobExample.proto "sse"; JobExample.proto "normal"]
                (mkJobManager []) (NoDup_nil_2)) as H.
  destruct (RegisterJob _ _) as [err jm']. apply H.
Defined.

Lemma memory_db_keeps_last_witness :
  exists db', MemoryDB_loop (Some <$> [2%positive; 3%positive]) JobExample.store = (Ret tt, db') /\
    heap db' = heap JobExample.store /\ (MemoryDB_Get "a" db').1 = Ret (Some 3%positive, None).
Proof.
  destruct (memory_db_keeps_last [2%positive; 3%positive] JobExample.store "a") as (db' & H1 & H2 & H3);
    [repeat constructor; vm_compute; eauto|].
  exists db'. split; [exact H1|]. split; [exact H2|]. rewrite H3. vm_compute. reflexivity.
Defined.

Lemma memory_db_laws_witness :
  closed_db JobExample.store /\
  exists db' v', MemoryDB_UpdateQASM "a" "q" JobExample.store = (Ret tt, db') /\ closed_db db' /\
     dbMap db' = dbMap JobExample.store /\ heap db' !! 1%positive = Some v' /\ QASM (jd v') = "q".
Proof.
  assert (closed_db JobExample.store) as Hcl.
  { intros id j Hj. cbn in Hj. apply lookup_singleton_Some in Hj as [_ <-]. vm_compute. eauto. }
  split; [exact Hcl|]. exact (proj2 (proj2 (memory_db_laws JobExample.store Hcl)) "a" "q").
Defined.
