(* ===== verification/Queue.v ===== *)
(** * Package scheduler: the queue (scheduler/queue.go)

    [NormalQueue] keeps waiting jobs in a concurrent FIFO of a third-party
    package.  [IFifo] is the part of that package's contract the queue relies
    on, [FifoSpec] its documented behaviour while the queue is never locked,
    which the engine does not do.  The queue itself is shown to be a bounded
    list: [SpecQueue]. *)

From stdpp Require Import base gmap strings list.
From Stdlib Require Import ZArith Lia.
From S2P Require Import Prelude GoString.

(** The methods of interface [fifo] over a state [Q] of elements [A].  A result
    [inr e] is an error. *)
Class IFifo (Q A : Type) := {
  NewFIFO : Q;
  Enqueue : A -> Q -> option error * Q;
  Dequeue : Q -> (A + error) * Q;
  Fifo_Get : Z -> Q -> A + error;
  GetLen : Q -> Z;
  Remove : Z -> Q -> option error * Q
}.

(** The elements of a FIFO, oldest first, and what the methods do to them. *)
Class FifoSpec (Q A : Type) `{IFifo Q A} := {
  items : Q -> list A;
  items_new : items NewFIFO = [];
  items_enqueue : forall a q, exists q', Enqueue a q = (None, q') /\ items q' = items q ++ [a];
  items_dequeue : forall q, match items q with
    | [] => exists e, Dequeue q = (inr e, q)
    | a :: l => exists q', Dequeue q = (inl a, q') /\ items q' = l
    end;
  items_get : forall i q, 0 <= i -> match items q !! Z.to_nat i with
    | Some a => Fifo_Get i q = inl a
    | None => exists e, Fifo_Get i q = inr e
    end;
  items_len : forall q, GetLen q = Z.of_nat (length (items q));
  items_remove : forall i q, 0 <= i -> match items q !! Z.to_nat i with
    | Some _ => exists q', Remove i q = (None, q') /\ items q' = delete (Z.to_nat i) (items q)
    | None => exists e, Remove i q = (Some e, q)
    end
}.

Record NormalQueue (Q : Type) := mkNormalQueue {
  fifo : Q;
  maxSize : Z;
  refillThreshold : Z
}.
Arguments mkNormalQueue {Q}.
Arguments fifo {Q}.
Arguments maxSize {Q}.
Arguments refillThreshold {Q}.

Definition set_fifo {Q} (f : Q) (n : NormalQueue Q) : NormalQueue Q :=
  mkNormalQueue f (maxSize n) (refillThreshold n).

Section queue.
Context {Q A : Type} `{HF : IFifo Q A} (job_id : A -> string).
Implicit Types n : NormalQueue Q.

(** The synchronous part of [Setup]. *)
Definition Queue_Setup (QueueRefillThreshold QueueMaxSize : Z) : NormalQueue Q :=
  mkNormalQueue NewFIFO QueueMaxSize QueueRefillThreshold.

(** One turn of the goroutine of [Setup] that received [jis].  A full queue
    drops it; a failed [Enqueue] is only logged. *)
Definition Queue_receive (jis : A) n : NormalQueue Q :=
  if maxSize n <=? GetLen (fifo n) then n
  else set_fifo (Enqueue jis (fifo n)).2 n.

(** [Dequeue(false)]; [Dequeue(true)] waits for an element first. *)
Definition Queue_Dequeue n : (A + error) * NormalQueue Q :=
  let '(r, f) := Dequeue (fifo n) in (r, set_fifo f n).

(** The loop of [getIdx] from index [i]; the fuel is the number of turns. *)
Fixpoint getIdx_loop (jobID : string) n (fuel : nat) (i : Z) : Z + error :=
  match fuel with
  | O => inr "No entry"
  | S f =>
      match Fifo_Get i (fifo n) with
      | inl js => if bool_decide (job_id js = jobID) then inl i else getIdx_loop jobID n f (i + 1)
      | inr _ => getIdx_loop jobID n f (i + 1)
      end
  end.

Definition getIdx (jobID : string) n : Z + error :=
  getIdx_loop jobID n (Z.to_nat (GetLen (fifo n))) 0.

Definition Queue_Delete (jobID : string) n : option error * NormalQueue Q :=
  match getIdx jobID n with
  | inr e => (Some e, n)
  | inl idx =>
      let '(err, f) := Remove idx (fifo n) in
      match err with
      | Some e => (Some e, set_fifo f n)
      | None => (None, set_fifo f n)
      end
  end.

Definition IsOverRefillThreshold n : bool := refillThreshold n <=? GetLen (fifo n).
Definition GetCurrentSize n : Z := GetLen (fifo n).
End queue.

(** ** The abstract queue *)

Module SpecQueue.
Section spec.
Context {A : Type} (job_id : A -> string).

(** At most [cap] elements, the oldest first. *)
Definition receive (cap : Z) (a : A) (l : list A) : list A :=
  if cap <=? Z.of_nat (length l) then l else l ++ [a].

Fixpoint remove_first (jobID : string) (l : list A) : option (list A) :=
  match l with
  | [] => None
  | a :: l' => if bool_decide (job_id a = jobID) then Some l' else (fun r => a :: r) <$> remove_first jobID l'
  end.
End spec.
End SpecQueue.

Section refinement.
Context {Q A : Type} `{HF : IFifo Q A} `{HS : !FifoSpec Q A} (job_id : A -> string).
Implicit Types n : NormalQueue Q.

(** The queue [n] implements the list [l]. *)
Definition queue_rel n (l : list A) : Prop := items (fifo n) = l.

Lemma receive_refines a n :
  items (fifo (Queue_receive a n)) = SpecQueue.receive (maxSize n) a (items (fifo n)).
Proof.
  unfold Queue_receive, SpecQueue.receive. rewrite items_len. destruct (_ <=? _); [done|].
  destruct (items_enqueue a (fifo n)) as (q' & -> & E). exact E.
Qed.

Lemma dequeue_refines n :
  match items (fifo n) with
  | [] => exists e, Queue_Dequeue n = (inr e, n)
  | a :: l => exists n', Queue_Dequeue n = (inl a, n') /\ items (fifo n') = l /\ maxSize n' = maxSize n
  end.
Proof.
  pose proof (items_dequeue (fifo n)) as H. unfold Queue_Dequeue. destruct (items (fifo n)) as [|a l].
  - destruct H as [e ->]. exists e. by destruct n.
  - destruct H as (q' & -> & E). by exists (set_fifo q' n).
Qed.

Lemma getIdx_loop_refines jobID n fuel i (pre l : list A) :
  items (fifo n) = pre ++ l -> i = Z.of_nat (length pre) -> fuel = length l ->
  match SpecQueue.remove_first job_id jobID l with
  | None => getIdx_loop job_id jobID n fuel i = inr "No entry"
  | Some l' => exists k, getIdx_loop job_id jobID n fuel i = inl (Z.of_nat k) /\
                 (length pre <= k < length (pre ++ l))%nat /\ delete k (pre ++ l) = pre ++ l'
  end.
Proof.
  revert fuel i pre. induction l as [|a l IH]; intros fuel i pre Hit -> ->; [done|]. cbn.
  pose proof (items_get (Z.of_nat (length pre)) (fifo n) ltac:(lia)) as Hg.
  rewrite Hit, Nat2Z.id, lookup_app_r, Nat.sub_diag in Hg by lia. cbn in Hg. rewrite Hg.
  case_bool_decide.
  - exists (length pre). split; [done|]. rewrite length_app. cbn. split; [lia|].
    rewrite delete_take_drop, take_app_length. f_equal.
    replace (S (length pre)) with (length pre + 1)%nat by lia. by rewrite drop_app_add.
  - specialize (IH (length l) (Z.of_nat (length pre) + 1) (pre ++ [a])).
    rewrite <- app_assoc in IH. specialize (IH Hit).
    rewrite !length_app in IH. cbn in IH. specialize (IH ltac:(lia) eq_refl).
    destruct (SpecQueue.remove_first job_id jobID l) as [l'|]; cbn; [|exact IH].
    destruct IH as (k & Hk & Hr & Hd). exists k. rewrite length_app. cbn. split; [done|]. split; [lia|].
    by rewrite Hd, <- app_assoc.
Qed.

Lemma delete_refines jobID n :
  match SpecQueue.remove_first job_id jobID (items (fifo n)) with
  | None => Queue_Delete job_id jobID n = (Some "No entry", n)
  | Some l' => exists n', Queue_Delete job_id jobID n = (None, n') /\ items (fifo n') = l'
  end.
Proof.
  pose proof (getIdx_loop_refines jobID n (length (items (fifo n))) 0 [] (items (fifo n)) eq_refl eq_refl eq_refl) as H.
  cbn in H. unfold Queue_Delete, getIdx. rewrite items_len, Nat2Z.id.
  destruct (SpecQueue.remove_first job_id jobID (items (fifo n))) as [l'|]; [|by rewrite H].
  destruct H as (k & -> & Hk & Hd). pose proof (items_remove (Z.of_nat k) (fifo n) ltac:(lia)) as Hr.
  rewrite Nat2Z.id in Hr. destruct (lookup_lt_is_Some_2 (items (fifo n)) k) as [a Ha]; [lia|].
  rewrite Ha in Hr. destruct Hr as (q' & -> & E). exists (set_fifo q' n). by rewrite <- Hd.
Qed.

(** C6: the queue implements a bounded first-in first-out list.  Over every
    FIFO that behaves as documented: a received job is appended when fewer than
    the maximal number wait and dropped otherwise, so that the length never
    exceeds the maximum; dequeueing takes the oldest job and fails on an empty
    queue; deleting removes the first job of the ID and fails without effect when
    there is none; and the size and the refill test read the length. *)
Theorem normal_queue_refines_list n l :
  queue_rel n l ->
  (forall a, queue_rel (Queue_receive a n) (SpecQueue.receive (maxSize n) a l) /\
             (Z.of_nat (length l) <= maxSize n ->
              Z.of_nat (length (SpecQueue.receive (maxSize n) a l)) <= maxSize n)) /\
  match l with
  | [] => exists e, Queue_Dequeue n = (inr e, n)
  | a :: l' => exists n', Queue_Dequeue n = (inl a, n') /\ queue_rel n' l' /\ maxSize n' = maxSize n
  end /\
  (forall jobID, match SpecQueue.remove_first job_id jobID l with
     | None => Queue_Delete job_id jobID n = (Some "No entry", n)
     | Some l' => exists n', Queue_Delete job_id jobID n = (None, n') /\ queue_rel n' l'
     end) /\
  GetCurrentSize n = Z.of_nat (length l) /\
  IsOverRefillThreshold n = (refillThreshold n <=? Z.of_nat (length l)).
Proof.
  unfold queue_rel. intros Hl. subst l. split; [|split; [|split; [|split]]].
  - intros a. split; [apply receive_refines|]. unfold SpecQueue.receive.
    destruct (Z.leb_spec (maxSize n) (Z.of_nat (length (items (fifo n))))); [done|].
    rewrite length_app. cbn. lia.
  - apply dequeue_refines.
  - intros jobID. apply delete_refines.
  - apply items_len.
  - unfold IsOverRefillThreshold. by rewrite items_len.
Qed.
End refinement.

(** ** The list FIFO

    A model of the contract, to evaluate with. *)
Section list_fifo.
Context {A : Type}.

#[global] Instance list_IFifo : IFifo (list A) A := {
  NewFIFO := [];
  Enqueue a q := (None, q ++ [a]);
  Dequeue q := match q with [] => (inr "empty queue", []) | a :: l => (inl a, l) end;
  Fifo_Get i q := match q !! Z.to_nat i with Some a => inl a | None => inr "index out of bounds" end;
  GetLen q := Z.of_nat (length q);
  Remove i q := match q !! Z.to_nat i with
                | Some _ => (None, delete (Z.to_nat i) q)
                | None => (Some "index out of bounds", q)
                end
}.

#[global] Program Instance list_FifoSpec : FifoSpec (list A) A := {| items := id |}.
Next Obligation. reflexivity. Qed.
Next Obligation. intros a q. eexists. split; reflexivity. Qed.
Next Obligation. intros [|a l]; eexists; [reflexivity|split; reflexivity]. Qed.
Next Obligation. intros i q _. cbn. destruct (q !! Z.to_nat i); eauto. Qed.
Next Obligation. reflexivity. Qed.
Next Obligation. intros i q _. cbn. destruct (q !! Z.to_nat i); eauto. Qed.
End list_fifo.

Lemma normal_queue_refines_list_witness :
  queue_rel (mkNormalQueue ["a"; "b"] 3 1) ["a"; "b"] /\
  SpecQueue.receive 3 "c" ["a"; "b"] = ["a"; "b"; "c"] /\
  SpecQueue.receive 2 "c" ["a"; "b"] = ["a"; "b"] /\
  exists n', Queue_Delete id "b" (mkNormalQueue ["a"; "b"] 3 1) = (None, n') /\ queue_rel n' ["a"].
Proof.
  split; [reflexivity|]. split; [reflexivity|]. split; [reflexivity|].
  exact (proj1 (proj2 (proj2 (normal_queue_refines_list id (mkNormalQueue ["a"; "b"] 3 1) ["a"; "b"] eq_refl))) "b").
Defined.
