(* ===== verification/Scheduler.v ===== *)
(** * Package scheduler (scheduler/scheduler.go)

    A handler goroutine per job, the goroutine of the queue and one worker
    goroutine share the job objects, the status history and the channel to the
    database.  The code between two blocking points of a goroutine is one
    definition ([handle_head], [handle_tail], [worker_run]) over the state it
    can touch; [step] interleaves them.  [handleImpl] composes the same
    definitions for one handler that has the queue and the worker for itself.

    A send on the channel to the database, which has no buffer, blocks until
    the goroutine of the database receives.  A blocked sender is only delayed:
    meanwhile no other goroutine touches what the segment works on (its job and
    the history entry of that job).  A segment is therefore one step here, its
    sends included, under the assumption that the database goroutine comes back
    to its receive. *)

From stdpp Require Import base gmap strings list fin_maps.
From Stdlib Require Import ZArith Lia.
From S2P Require Import Prelude GoString Core Job Queue.

Abbreviation statusHistory := (gmap string (list Status)) (only parsing).

Section scheduler.
Context {W J : Type} `{HJ : HasJobData J} `{IJ : !IJob W J} `{HD : IDBChan W J}.

(** What a goroutine sees while it runs: the world, its job, the history. *)
Definition Local : Type := (W * J) * statusHistory.
Definition l_world (s : Local) : W := s.1.1.
Definition l_job (s : Local) : J := s.1.2.
Definition l_hist (s : Local) : statusHistory := s.2.

Definition on_job {A} (c : M (W * J) A) : M Local A :=
  fun s => let '(r, wj) := c s.1 in (r, (wj, s.2)).

Definition s_jd : M Local JobData := gets (fun s => jd (l_job s)).
Definition s_upd (f : JobData -> JobData) : M Local unit := on_job (upd_jd f).
Definition s_IsFinished : M Local bool := let! s := get in lift (IsFinished (l_job s)).

(** [n.statusHistory[jid] = append(n.statusHistory[jid], st)] under the lock. *)
Definition hist_append (jid : string) (st : Status) : M Local unit :=
  modify (fun s => (s.1, <[jid := default [] (s.2 !! jid) ++ [st]]> s.2)).

(** [j.JobContext().DBChan <- j.Clone()] *)
Definition send_clone : M Local unit :=
  modify (fun s => ((db_send (Clone (l_job s)) (l_world s), l_job s), l_hist s)).

(** The loop body of [handleImpl] up to the send on the queue channel: [Some]
    continues there with the job ID read at the start, [None] returns. *)
Definition handle_head : M Local (option string) :=
  let! d := s_jd in
  let jid := ID d in
  s_upd (set_UseJobInfoUpdate false) ;;!
  let! d := s_jd in
  hist_append jid (JobStatus d) ;;!
  if negb (bool_decide (JobStatus d = READY)) then ret None
  else
    on_job PreProcess ;;!
    let! fin := s_IsFinished in
    (if fin then s_upd (set_UseJobInfoUpdate true) else ret tt) ;;!
    send_clone ;;!
    let! fin := s_IsFinished in
    if fin then
      let! d := s_jd in
      hist_append jid (JobStatus d) ;;! ret None
    else ret (Some jid).

(** The loop body from the return of [wg.Wait]; [true] is one more loop. *)
Definition handle_tail (jid : string) : M Local bool :=
  s_upd (set_UseJobInfoUpdate true) ;;!
  let! fin := s_IsFinished in
  if fin then
    send_clone ;;!
    let! d := s_jd in
    hist_append jid (JobStatus d) ;;!
    send_clone ;;!
    ret false
  else
    on_job PostProcess ;;!
    let! fin := s_IsFinished in
    if fin then
      let! d := s_jd in
      hist_append jid (JobStatus d) ;;!
      send_clone ;;!
      ret false
    else ret true.

(** The deferred function of [handleImpl] after a panic. *)
Definition handle_recover : M Local unit :=
  s_upd (set_JobStatus FAILED) ;;!
  let! d := s_jd in
  hist_append (ID d) FAILED ;;!
  send_clone.

(** The work on one dequeued job in [Start]: the body of the anonymous
    function, with its deferred recovery. *)
Definition worker_run : M Local unit :=
  let! d := s_jd in
  let jid := ID d in
  recovering
    (hist_append jid RUNNING ;;!
     s_upd (set_JobStatus RUNNING) ;;!
     send_clone ;;!
     on_job Process)
    (fun _ => s_upd (set_JobStatus FAILED) ;;! send_clone).

(** A segment of the handler under the deferred recovery: a panic ends it. *)
Definition guarded {A} (stop : A) (c : M Local A) : M Local A :=
  recovering c (fun _ => handle_recover ;;! ret stop).

(** The deferred function of [HandleJob]: the history entry goes away. *)
Definition handler_exit : M Local unit :=
  let! d := s_jd in
  modify (fun s => (s.1, delete (ID d) s.2)).

(** [handleImpl] of a handler that is alone: between the send and the return of
    [wg.Wait] the worker runs the job.  The fuel counts turns of the loop. *)
Fixpoint handle_loop (fuel : nat) : M Local bool :=
  match fuel with
  | O => ret false
  | S f =>
      let! r := handle_head in
      match r with
      | None => ret true
      | Some jid =>
          worker_run ;;!
          let! again := handle_tail jid in
          if again then handle_loop f else ret true
      end
  end.

(** [true]: the handler returned within the fuel. *)
Definition handleImpl (fuel : nat) : M Local bool := guarded true (handle_loop fuel).
Definition HandleJob (fuel : nat) : M Local bool :=
  let! r := handleImpl fuel in handler_exit ;;! ret r.
End scheduler.

Arguments Local : clear implicits.

(** ** The concurrent system *)

Inductive pc :=
| HHead                 (* at the top of the loop *)
| HSend (jid : string)  (* at the send on the queue channel *)
| HWait (jid : string)  (* in wg.Wait *)
| HTail (jid : string)  (* wg.Wait returned *)
| HDone.
#[global] Instance pc_eq_dec : EqDecision pc.
Proof. solve_decision. Defined.

Record Sys (W J Q : Type) := mkSys {
  world : W;
  history : statusHistory;
  job_of : gmap nat J;
  pc_of : gmap nat pc;
  queue : NormalQueue Q;
  queue_on : bool;
  worker : option nat
}.
Arguments mkSys {W J Q}.
Arguments world {W J Q}.
Arguments history {W J Q}.
Arguments job_of {W J Q}.
Arguments pc_of {W J Q}.
Arguments queue {W J Q}.
Arguments queue_on {W J Q}.
Arguments worker {W J Q}.

Inductive label := LSpawn (h : nat) | LHead (h : nat) | LEnqueue (h : nat) | LDrop (h : nat)
  | LDequeue (h : nat) | LRun (h : nat) | LTail (h : nat) | LTearDown.

Section system.
Context {W J Q : Type} `{HJ : HasJobData J} `{IJ : !IJob W J} `{HD : IDBChan W J} `{HF : IFifo Q nat}.
Implicit Types s : Sys W J Q.

(** The state after goroutine code left [loc] and handler [h] is at [p]. *)
Definition set_local s (h : nat) (l : Local W J) (p : pc) : Sys W J Q :=
  mkSys (l_world l) (l_hist l) (<[h := l_job l]> (job_of s)) (<[h := p]> (pc_of s)) (queue s) (queue_on s) (worker s).
Definition set_worker s (w : option nat) : Sys W J Q :=
  mkSys (world s) (history s) (job_of s) (pc_of s) (queue s) (queue_on s) w.
Definition set_queue s (q : NormalQueue Q) : Sys W J Q :=
  mkSys (world s) (history s) (job_of s) (pc_of s) q (queue_on s) (worker s).
Definition set_pc s (h : nat) (p : pc) : Sys W J Q :=
  mkSys (world s) (history s) (job_of s) (<[h := p]> (pc_of s)) (queue s) (queue_on s) (worker s).

(** The initial state: [Setup] and [Start]. *)
Definition Scheduler_Setup (w : W) (QueueRefillThreshold QueueMaxSize : Z) : Sys W J Q :=
  mkSys w ∅ ∅ ∅ (Queue_Setup QueueRefillThreshold QueueMaxSize) true None.

(** A handler segment, then the exit of the goroutine when it is over. *)
Definition head_seg : M (Local W J) pc :=
  let! r := guarded None handle_head in
  match r with
  | Some jid => ret (HSend jid)
  | None => handler_exit ;;! ret HDone
  end.

Definition tail_seg (jid : string) : M (Local W J) pc :=
  let! again := guarded false (handle_tail jid) in
  if again then ret HHead else handler_exit ;;! ret HDone.

(** One step of one goroutine.  [HandleJob] may be called at any time with a
    new job; the queue goroutine takes a job from any handler that offers one,
    until [TearDown]. *)
Inductive step : Sys W J Q -> label -> Sys W J Q -> Prop :=
| step_spawn s h j :
    pc_of s !! h = None -> job_of s !! h = None ->
    step s (LSpawn h) (mkSys (world s) (history s) (<[h := j]> (job_of s)) (<[h := HHead]> (pc_of s))
                         (queue s) (queue_on s) (worker s))
| step_head s h j p l :
    pc_of s !! h = Some HHead -> job_of s !! h = Some j ->
    head_seg ((world s, j), history s) = (Ret p, l) ->
    step s (LHead h) (set_local s h l p)
| step_enqueue s h jid :
    pc_of s !! h = Some (HSend jid) -> queue_on s = true ->
    GetLen (fifo (queue s)) < maxSize (queue s) ->
    step s (LEnqueue h) (set_pc (set_queue s (Queue_receive h (queue s))) h (HWait jid))
| step_drop s h jid :
    pc_of s !! h = Some (HSend jid) -> queue_on s = true ->
    maxSize (queue s) <= GetLen (fifo (queue s)) ->
    step s (LDrop h) (set_pc (set_queue s (Queue_receive h (queue s))) h (HWait jid))
| step_dequeue s h q :
    worker s = None -> Queue_Dequeue (queue s) = (inl h, q) ->
    step s (LDequeue h) (set_worker (set_queue s q) (Some h))
| step_run s h j jid l :
    worker s = Some h -> job_of s !! h = Some j -> pc_of s !! h = Some (HWait jid) ->
    worker_run ((world s, j), history s) = (Ret tt, l) ->
    step s (LRun h) (set_worker (set_local s h l (HTail jid)) None)
| step_tail s h j jid p l :
    pc_of s !! h = Some (HTail jid) -> job_of s !! h = Some j ->
    tail_seg jid ((world s, j), history s) = (Ret p, l) ->
    step s (LTail h) (set_local s h l p)
| step_teardown s :
    step s LTearDown (mkSys (world s) (history s) (job_of s) (pc_of s) (queue s) false (worker s)).

(** Finite executions, with the labels in order. *)
Inductive steps : Sys W J Q -> list label -> Sys W J Q -> Prop :=
| steps_refl s : steps s [] s
| steps_snoc s1 tr s2 l s3 : steps s1 tr s2 -> step s2 l s3 -> steps s1 (tr ++ [l]) s3.
End system.

(** ** Segments always return *)

Section totality.
Context {W J : Type} `{HJ : HasJobData J} `{IJ : !IJob W J} `{HD : IDBChan W J}.
Implicit Types l : Local W J.

Lemma guarded_total {A} (stop : A) (c : M (Local W J) A) l : exists a l', guarded stop c l = (Ret a, l').
Proof. unfold guarded, recovering. destruct (c l) as [[a|m] l']; eexists _, _; reflexivity. Qed.

Lemma head_seg_total l : exists p l', head_seg l = (Ret p, l').
Proof.
  unfold head_seg, bind at 1. destruct (guarded_total None handle_head l) as ([jid|] & l' & ->);
    eexists _, _; reflexivity.
Qed.

Lemma tail_seg_total jid l : exists p l', tail_seg jid l = (Ret p, l').
Proof.
  unfold tail_seg, bind at 1. destruct (guarded_total false (handle_tail jid) l) as ([] & l' & ->);
    eexists _, _; reflexivity.
Qed.

Lemma worker_run_total l : exists l', worker_run l = (Ret tt, l').
Proof.
  unfold worker_run. unfold bind at 1. cbn. unfold recovering.
  match goal with |- context [match ?c with _ => _ end] => destruct c as [[[]|m] l'] end; eexists; reflexivity.
Qed.
End totality.

(** ** The invariant *)

Section invariant.
Context {W J Q : Type} `{HJ : HasJobData J} `{IJ : !IJob W J} `{HD : IDBChan W J}
  `{HF : IFifo Q nat} `{HS : !FifoSpec Q nat}.
Implicit Types s : Sys W J Q.

(** The handlers whose job is in the worker or in the queue, in that order. *)
Definition waiting s : list nat := option_list (worker s) ++ items (fifo (queue s)).

Record Inv (cap : Z) s : Prop := {
  inv_max : maxSize (queue s) = cap;
  inv_cap : Z.of_nat (length (items (fifo (queue s)))) <= Z.max 0 cap;
  inv_nodup : NoDup (waiting s);
  inv_wait : forall h, h ∈ waiting s -> exists jid, pc_of s !! h = Some (HWait jid);
  inv_dom : forall h, is_Some (pc_of s !! h) <-> is_Some (job_of s !! h)
}.

Lemma Inv_setup w r cap : Inv cap (Scheduler_Setup w r cap).
Proof.
  constructor; cbn; unfold waiting; cbn; rewrite ?items_new; cbn; [done|lia|constructor|set_solver|].
  intros h. by rewrite !lookup_empty.
Qed.

Lemma maxSize_receive a (n : NormalQueue Q) : maxSize (Queue_receive a n) = maxSize n.
Proof. unfold Queue_receive. by destruct (_ <=? _). Qed.

Lemma items_receive_space a (n : NormalQueue Q) :
  GetLen (fifo n) < maxSize n -> items (fifo (Queue_receive a n)) = items (fifo n) ++ [a].
Proof.
  intros H. rewrite receive_refines. unfold SpecQueue.receive. rewrite items_len in H.
  by rewrite (proj2 (Z.leb_gt _ _)).
Qed.

Lemma items_receive_full a (n : NormalQueue Q) :
  maxSize n <= GetLen (fifo n) -> Queue_receive a n = n.
Proof. intros H. unfold Queue_receive. by rewrite (proj2 (Z.leb_le _ _)). Qed.

Lemma dequeue_items (n n' : NormalQueue Q) h :
  Queue_Dequeue n = (inl h, n') -> items (fifo n) = h :: items (fifo n') /\ maxSize n' = maxSize n.
Proof.
  intros E. pose proof (dequeue_refines n) as H. destruct (items (fifo n)) as [|a l].
  - destruct H as [e He]. congruence.
  - destruct H as (n'' & E' & Hi & Hm). rewrite E' in E. injection E as -> ->. by rewrite Hi.
Qed.

(** A handler that is not at [wg.Wait] can move without touching the queue. *)
Lemma Inv_set_local cap s h l p :
  Inv cap s -> h ∉ waiting s -> Inv cap (set_local s h l p).
Proof.
  intros [Hm Hc Hn Hw Hd] Hh. constructor; [done|done|exact Hn| |]; cbn.
  - intros h' Hin. change (h' ∈ waiting s) in Hin. rewrite lookup_insert_ne by (intros ->; done). auto.
  - intros h'. destruct (decide (h = h')) as [->|Hne]; [by rewrite !lookup_insert_eq|].
    by rewrite !lookup_insert_ne.
Qed.

Lemma not_waiting cap s h p : Inv cap s -> pc_of s !! h = Some p -> (forall jid, p <> HWait jid) -> h ∉ waiting s.
Proof. intros HI Hp Hne Hin. destruct (inv_wait cap s HI h Hin) as [jid Hj]. rewrite Hp in Hj. naive_solver. Qed.

Lemma Inv_set_pc cap s h jid :
  Inv cap s -> is_Some (pc_of s !! h) -> Inv cap (set_pc s h (HWait jid)).
Proof.
  intros [Hm Hc Hn Hw Hd] Hh. constructor; [done|done|exact Hn| |]; cbn.
  - intros h' Hin. destruct (decide (h = h')) as [->|Hne]; [rewrite lookup_insert_eq; eauto|].
    rewrite lookup_insert_ne by done. exact (Hw h' Hin).
  - intros h'. rewrite <- Hd. destruct (decide (h = h')) as [->|Hne]; [|by rewrite lookup_insert_ne].
    rewrite lookup_insert_eq. split; [done|eauto].
Qed.

(** The worker gives its job back. *)
Lemma Inv_set_worker_None cap s : Inv cap s -> Inv cap (set_worker s None).
Proof.
  intros [Hm Hc Hn Hw Hd]. unfold waiting in *. constructor; [done|done| | |done]; unfold waiting; cbn.
  - by apply NoDup_app in Hn as (_ & _ & Hn).
  - intros h Hin. apply Hw. by apply elem_of_app; right.
Qed.

Lemma Inv_dequeue cap s h q :
  Inv cap s -> worker s = None -> Queue_Dequeue (queue s) = (inl h, q) ->
  Inv cap (set_worker (set_queue s q) (Some h)) /\ waiting (set_worker (set_queue s q) (Some h)) = waiting s.
Proof.
  intros [Hm Hc Hn Hw Hd] Hwk Hq. apply dequeue_items in Hq as [Hq Hmq].
  assert (waiting (set_worker (set_queue s q) (Some h)) = waiting s) as E.
  { unfold waiting. cbn. by rewrite Hwk, Hq. }
  split; [|exact E]. constructor; [by rewrite <- Hm| |by rewrite E| |done].
  - cbn. rewrite Hq in Hc. cbn in Hc. lia.
  - rewrite E. exact Hw.
Qed.

Lemma Inv_enqueue cap s h jid :
  Inv cap s -> pc_of s !! h = Some (HSend jid) -> GetLen (fifo (queue s)) < maxSize (queue s) ->
  Inv cap (set_pc (set_queue s (Queue_receive h (queue s))) h (HWait jid)) /\
  waiting (set_pc (set_queue s (Queue_receive h (queue s))) h (HWait jid)) = waiting s ++ [h].
Proof.
  intros HI Hp Hlen. pose proof (not_waiting cap s h _ HI Hp ltac:(done)) as Hni.
  assert (waiting (set_pc (set_queue s (Queue_receive h (queue s))) h (HWait jid)) = waiting s ++ [h]) as E.
  { unfold waiting. cbn. by rewrite items_receive_space, app_assoc. }
  split; [|exact E]. destruct HI as [Hm Hc Hn Hw Hd]. constructor.
  - cbn. by rewrite maxSize_receive.
  - cbn. rewrite items_receive_space, length_app by done. rewrite items_len in Hlen. cbn. lia.
  - rewrite E. apply NoDup_app. split; [done|]. split; [|apply NoDup_singleton].
    intros x Hx Hx'. apply list_elem_of_singleton in Hx'. by subst.
  - rewrite E. intros h' Hin. cbn. destruct (decide (h = h')) as [->|Hne]; [rewrite lookup_insert_eq; eauto|].
    rewrite lookup_insert_ne by done. apply Hw. apply elem_of_app in Hin as [Hin|Hin]; [done|].
    apply list_elem_of_singleton in Hin. by subst.
  - intros h'. cbn. rewrite <- Hd. destruct (decide (h = h')) as [->|Hne]; [|by rewrite lookup_insert_ne].
    rewrite lookup_insert_eq, Hp. split; eauto.
Qed.

Lemma set_queue_id s : set_queue s (queue s) = s.
Proof. by destruct s. Qed.

Lemma Inv_step cap s lb s' : Inv cap s -> step s lb s' -> Inv cap s'.
Proof.
  intros HI Hst. destruct Hst as [s h j Hp Hj|s h j p l Hp Hj _|s h jid Hp _ Hlen|s h jid Hp _ Hlen
    |s h q Hwk Hq|s h j jid l Hwk Hj Hp _|s h j jid p l Hp Hj _|s].
  - apply (Inv_set_local cap s h ((world s, j), history s) HHead); [done|].
    intros Hin. destruct (inv_wait cap s HI h Hin) as [jid Hjid]. congruence.
  - apply Inv_set_local; [done|]. by eapply not_waiting.
  - by apply Inv_enqueue.
  - rewrite items_receive_full, set_queue_id by done. apply Inv_set_pc; eauto.
  - by eapply Inv_dequeue.
  - change (Inv cap (set_local (set_worker s None) h l (HTail jid))).
    apply Inv_set_local; [by apply Inv_set_worker_None|].
    pose proof (inv_nodup cap s HI) as Hn. unfold waiting in *. rewrite Hwk in Hn. cbn in *.
    by inversion Hn.
  - apply Inv_set_local; [done|]. by eapply not_waiting.
  - destruct HI as [Hm Hc Hn Hw Hd]. by constructor.
Qed.

Lemma Inv_steps cap s tr s' : Inv cap s -> steps s tr s' -> Inv cap s'.
Proof. intros HI Hst. induction Hst as [|s1 tr s2 lb s3 _ IH Hs]; [done|]. exact (Inv_step cap _ _ _ (IH HI) Hs). Qed.
End invariant.

(** ** Order, loss and progress *)

Definition enqueued (tr : list label) : list nat :=
  omap (fun l => match l with LEnqueue h => Some h | _ => None end) tr.
Definition ran (tr : list label) : list nat :=
  omap (fun l => match l with LRun h => Some h | _ => None end) tr.

Section order.
Context {W J Q : Type} `{HJ : HasJobData J} `{IJ : !IJob W J} `{HD : IDBChan W J}
  `{HF : IFifo Q nat} `{HS : !FifoSpec Q nat}.
Implicit Types s : Sys W J Q.

(** The effect of a step on the waiting jobs. *)
Lemma waiting_step cap s lb s' :
  Inv cap s -> step s lb s' ->
  waiting s ++ enqueued [lb] = ran [lb] ++ waiting s'.
Proof.
  intros HI Hst. destruct Hst as [s h j Hp Hj|s h j p l Hp Hj _|s h jid Hp _ Hlen|s h jid Hp _ Hlen
    |s h q Hwk Hq|s h j jid l Hwk Hj Hp _|s h j jid p l Hp Hj _|s]; cbn; rewrite ?app_nil_r; try done.
  - symmetry. by apply (proj2 (Inv_enqueue cap s h jid HI Hp Hlen)).
  - by rewrite items_receive_full, set_queue_id.
  - symmetry. by apply (proj2 (Inv_dequeue cap s h q HI Hwk Hq)).
  - unfold waiting. by rewrite Hwk.
Qed.

Lemma waiting_steps cap s tr s' :
  Inv cap s -> steps s tr s' -> waiting s ++ enqueued tr = ran tr ++ waiting s'.
Proof.
  intros HI Hst. induction Hst as [|s1 tr s2 lb s3 Hs IH Hl]; [by rewrite app_nil_r|].
  unfold enqueued, ran in *. rewrite !omap_app, app_assoc, IH, <- !app_assoc by done. f_equal.
  eapply waiting_step; [|done]. by eapply Inv_steps.
Qed.

(** A job that is neither in the queue nor in the worker while its handler
    waits stays so. *)
Definition lost s (h : nat) : Prop := (exists jid, pc_of s !! h = Some (HWait jid)) /\ h ∉ waiting s.

Lemma lost_step cap s lb s' h : Inv cap s -> lost s h -> step s lb s' -> lost s' h.
Proof.
  intros HI [[jid0 Hpc] Hni] Hst. assert (exists jid, pc_of s' !! h = Some (HWait jid)) as Hpc'.
  { destruct Hst as [s h' j Hp Hj|s h' j p l Hp Hj _|s h' jid Hp _ Hlen|s h' jid Hp _ Hlen
      |s h' q Hwk Hq|s h' j jid l Hwk Hj Hp _|s h' j jid p l Hp Hj _|s]; cbn;
      try (destruct (decide (h' = h)) as [->|Hne]; [|rewrite lookup_insert_ne by done; eauto]); try congruence; eauto.
    destruct Hni. unfold waiting. rewrite Hwk. by left. }
  split; [done|]. pose proof (waiting_step cap s lb s' HI Hst) as E. intros Hin.
  assert (h ∈ waiting s ++ enqueued [lb]) as Hin' by (rewrite E; apply elem_of_app; by right).
  apply elem_of_app in Hin' as [Hin'|Hin']; [done|].
  destruct Hst as [| |s h' jid Hp _ Hlen| | | | |]; cbn in Hin'; try by apply elem_of_nil in Hin'.
  apply list_elem_of_singleton in Hin'. subst. congruence.
Qed.

Lemma lost_steps cap s tr s' h : Inv cap s -> lost s h -> steps s tr s' -> lost s' h.
Proof.
  intros HI Hl Hst. induction Hst as [|s1 tr s2 lb s3 Hs IH Hlb]; [done|].
  eapply lost_step; [by eapply Inv_steps|by apply IH|done].
Qed.

Lemma steps_app s1 tr1 s2 tr2 s3 : steps s1 tr1 s2 -> steps s2 tr2 s3 -> steps s1 (tr1 ++ tr2) s3.
Proof.
  intros H1 H2. induction H2 as [|s2 tr s2' lb s3 _ IH Hl]; [by rewrite app_nil_r|].
  rewrite app_assoc. econstructor; eauto.
Qed.

Lemma steps_one s lb s' : step s lb s' -> steps s [lb] s'.
Proof. intros H. change [lb] with ([] ++ [lb]). econstructor; [constructor|done]. Qed.

(** The worker can always finish the job it has. *)
Lemma worker_can_run cap s h :
  Inv cap s -> worker s = Some h ->
  exists s' jid, step s (LRun h) s' /\ worker s' = None /\ queue s' = queue s /\
    pc_of s !! h = Some (HWait jid) /\ pc_of s' = <[h := HTail jid]> (pc_of s).
Proof.
  intros HI Hw. destruct (inv_wait cap s HI h) as [jid Hpc]; [unfold waiting; rewrite Hw; by left|].
  destruct (proj1 (inv_dom cap s HI h)) as [j Hj]; [eauto|].
  destruct (worker_run_total ((world s, j), history s)) as [l Hl].
  eexists _, jid. split; [by eapply step_run|]. auto.
Qed.

(** ... and can always take the next one. *)
Lemma worker_can_dequeue s h l :
  worker s = None -> items (fifo (queue s)) = h :: l ->
  exists s', step s (LDequeue h) s' /\ worker s' = Some h /\ items (fifo (queue s')) = l /\ pc_of s' = pc_of s.
Proof.
  intros Hw Hi. pose proof (dequeue_refines (queue s)) as H. rewrite Hi in H. destruct H as (q & Hq & Hl & _).
  eexists. split; [by eapply step_dequeue|]. auto.
Qed.

Definition worker_label (l : label) : Prop :=
  match l with LDequeue _ | LRun _ => True | _ => False end.

Lemma queued_runs cap s h k jid :
  Inv cap s -> worker s = None -> items (fifo (queue s)) !! k = Some h -> pc_of s !! h = Some (HWait jid) ->
  exists tr s', steps s tr s' /\ Forall worker_label tr /\ length tr = (2 * S k)%nat /\
    pc_of s' !! h = Some (HTail jid).
Proof.
  revert s. induction k as [|k IH]; intros s HI Hw Hk Hpc;
    destruct (items (fifo (queue s))) as [|a l] eqn:Hi; try done; cbn in Hk.
  - injection Hk as ->. destruct (worker_can_dequeue s h l Hw Hi) as (s1 & Hs1 & Hw1 & _ & Hp1).
    pose proof (Inv_step _ _ _ _ HI Hs1) as HI1.
    destruct (worker_can_run cap s1 h HI1 Hw1) as (s2 & jid' & Hs2 & _ & _ & Hp & Hp2).
    exists [LDequeue h; LRun h], s2. split; [by eapply (steps_app _ [_] _ [_]); apply steps_one|].
    split; [repeat constructor|]. split; [done|]. rewrite Hp2, lookup_insert_eq. congruence.
  - destruct (worker_can_dequeue s a l Hw Hi) as (s1 & Hs1 & Hw1 & Hi1 & Hp1).
    pose proof (Inv_step _ _ _ _ HI Hs1) as HI1.
    destruct (worker_can_run cap s1 a HI1 Hw1) as (s2 & jid' & Hs2 & Hw2 & Hq2 & Hp & Hp2).
    destruct (IH s2) as (tr & s' & Hst & Hl & Hlen & Hp').
    + by eapply Inv_step.
    + done.
    + by rewrite Hq2, Hi1.
    + assert (a <> h). { intros ->. pose proof (inv_nodup _ _ HI1) as Hn. unfold waiting in Hn.
        rewrite Hw1, Hi1 in Hn. cbn in Hn. inversion Hn as [|? ? Hx _]; subst. apply Hx.
        by eapply list_elem_of_lookup_2. }
      rewrite Hp2, lookup_insert_ne by done. congruence.
    + exists ([LDequeue a] ++ [LRun a] ++ tr), s'.
      split; [eapply steps_app; [by apply steps_one|]; eapply steps_app; [by apply steps_one|done]|].
      split; [repeat constructor; done|]. split; [cbn; lia|done].
Qed.
End order.

Section claims.
Context {W J Q : Type} `{HJ : HasJobData J} `{IJ : !IJob W J} `{HD : IDBChan W J}
  `{HF : IFifo Q nat} `{HS : !FifoSpec Q nat}.

(** C2: in every execution of the scheduler, with any number of handlers
    interleaved in any way and any behaviour of the jobs: the queue never holds
    more than the configured maximum, no job is in the queue or the worker
    twice, each job there has its handler waiting for it, and the jobs the
    worker has run, the one it runs and the queued ones are together the
    enqueued jobs in the order they were enqueued. *)
Theorem scheduler_fifo_bounded (w : W) threshold cap tr (s : Sys W J Q) :
  steps (Scheduler_Setup w threshold cap) tr s ->
  Z.of_nat (length (items (fifo (queue s)))) <= Z.max 0 cap /\
  NoDup (waiting s) /\
  (forall h, h ∈ waiting s -> exists jid, pc_of s !! h = Some (HWait jid)) /\
  enqueued tr = ran tr ++ waiting s.
Proof.
  intros Hst. pose proof (Inv_setup (Q := Q) (J := J) w threshold cap) as H0.
  pose proof (Inv_steps cap _ tr s H0 Hst) as HI. pose proof (waiting_steps cap _ tr s H0 Hst) as Ho.
  destruct HI as [_ Hc Hn Hw _]. split; [done|]. split; [done|]. split; [done|].
  rewrite <- Ho. unfold waiting. cbn. by rewrite items_new.
Qed.

(** C14: a job dropped because the queue is full is lost: in every continuation
    its handler stays blocked in [wg.Wait] and the job is neither queued nor run,
    so that it is never reported as finished. *)
Theorem dropped_job_never_finishes (w : W) threshold cap tr (s s' s'' : Sys W J Q) h tr' :
  steps (Scheduler_Setup w threshold cap) tr s -> step s (LDrop h) s' -> steps s' tr' s'' ->
  (exists jid, pc_of s'' !! h = Some (HWait jid)) /\ h ∉ waiting s''.
Proof.
  intros H1 H2 H3. pose proof (Inv_steps cap _ tr s (Inv_setup w threshold cap) H1) as HI.
  eapply (lost_steps cap); [by eapply Inv_step| |done]. inversion H2; subst.
  split; [exists jid; cbn; by rewrite lookup_insert_eq|].
  rewrite items_receive_full, set_queue_id by done. change (h ∉ waiting s). by eapply not_waiting.
Qed.

(** C13: a queued job is run.  In every reachable state in which the worker is
    free, the worker alone can bring the job at position [k] of the queue
    through [Process] in [2 (k + 1)] of its steps, and release its handler. *)
Theorem queued_job_is_run (w : W) threshold cap tr (s : Sys W J Q) h k :
  steps (Scheduler_Setup w threshold cap) tr s -> worker s = None ->
  items (fifo (queue s)) !! k = Some h ->
  exists tr' s' jid, steps s tr' s' /\ Forall worker_label tr' /\ length tr' = (2 * S k)%nat /\
    pc_of s' !! h = Some (HTail jid).
Proof.
  intros H1 Hw Hk. pose proof (Inv_steps cap _ tr s (Inv_setup w threshold cap) H1) as HI.
  destruct (inv_wait cap s HI h) as [jid Hpc].
  { unfold waiting. apply elem_of_app. right. by eapply list_elem_of_lookup_2. }
  destruct (queued_runs cap s h k jid HI Hw Hk Hpc) as (tr' & s' & ?). eauto.
Qed.
End claims.

(** ** What is written to the database *)

Section reporting.
Context {W J : Type} `{HJ : HasJobData J} `{IJ : !IJob W J} `{HD : IDBChan W J}.
Implicit Types l : Local W J.

Definition sent l : list J := db_sent (l_world l).

Ltac unfold_seg :=
  unfold handle_head, handle_tail, handle_recover, worker_run, handler_exit, guarded, recovering,
    s_IsFinished, s_jd, s_upd, on_job, upd_jd, hist_append, send_clone, bind, get, gets, modify, lift, ret,
    l_world, l_job, l_hist, sent in *; cbn in *.

Lemma handler_exit_spec l :
  exists l', handler_exit l = (Ret tt, l') /\ l_job l' = l_job l /\ l_world l' = l_world l.
Proof. unfold_seg. eauto. Qed.

Lemma last_sent j (w : W) : last (db_sent (db_send j w)) = Some j.
Proof. by rewrite db_sent_send, last_snoc. Qed.

Lemma handle_recover_spec l :
  exists l', handle_recover l = (Ret tt, l') /\ last (sent l') = Some (Clone (l_job l')) /\
    JobStatus (jd (l_job l')) = FAILED.
Proof.
  unfold_seg. eexists. split; [reflexivity|]. cbn. rewrite last_sent. split; [done|].
  rewrite jd_with_jd. by destruct (jd l.1.2).
Qed.

(** A handler returns after its last message with the job finished, or after
    the recovery of a panic with the job failed. *)
Definition final l : Prop :=
  IsFinished (l_job l) = Ret true \/ JobStatus (jd (l_job l)) = FAILED.

Lemma handle_tail_final jid l l' :
  guarded false (handle_tail jid) l = (Ret false, l') ->
  last (sent l') = Some (Clone (l_job l')) /\ final l'.
Proof.
  unfold guarded, recovering. destruct (handle_tail jid l) as [[b|m] l1] eqn:E.
  - intros [= -> <-]. unfold handle_tail in E. unfold_seg.
    destruct (IsFinished _) as [[]|m] eqn:F1; cbn in E; [| |done].
    + injection E as <-. cbn. rewrite last_sent. split; [done|]. left. exact F1.
    + destruct (PostProcess _) as [[[]|m] [w1 j1]]; cbn in E; [|done].
      destruct (IsFinished j1) as [[]|m] eqn:F2; cbn in E; [|done|done].
      injection E as <-. cbn. rewrite last_sent. split; [done|]. by left.
  - destruct (handle_recover_spec l1) as (l2 & H2 & H3 & H4). unfold bind. rewrite H2. cbn. intros [= <-].
    split; [done|by right].
Qed.

Lemma handle_head_final l l' :
  guarded None handle_head l = (Ret None, l') ->
  (JobStatus (jd (l_job l)) <> READY /\ sent l' = sent l) \/
  (last (sent l') = Some (Clone (l_job l')) /\ final l').
Proof.
  unfold guarded, recovering. destruct (handle_head l) as [[b|m] l1] eqn:E.
  - intros [= -> <-]. unfold_seg. rewrite jd_with_jd in E.
    case_bool_decide as Hr; cbn in E.
    + destruct (PreProcess _) as [[[]|m] [w1 j1]]; cbn in E; [|done].
      destruct (IsFinished j1) as [[]|m] eqn:F1; cbn in E; [| |done].
      * destruct (IsFinished (with_jd _ j1)) as [[]|m] eqn:F2; cbn in E; [|done|done].
        injection E as <-. right. cbn. rewrite last_sent. split; [done|]. by left.
      * rewrite F1 in E. done.
    + injection E as <-. left. split; [|done]. intros Hs. apply Hr. by destruct (jd l.1.2).
  - destruct (handle_recover_spec l1) as (l2 & H2 & H3 & H4). unfold bind. rewrite H2. cbn. intros [= <-].
    right. split; [done|by right].
Qed.

(** C5: a handler that ends has reported the final state of its job.  Whatever
    the job's methods do, panics included, when the code after [wg.Wait] ends the
    handler, the last job sent to the database is a copy of the job as it is then,
    and the job is finished or FAILED; when the code before the queue ends it, the
    same holds, or the job did not arrive READY and nothing at all was sent. *)
Theorem handler_end_reported l l' :
  (forall jid, tail_seg jid l = (Ret HDone, l') ->
     last (sent l') = Some (Clone (l_job l')) /\ final l') /\
  (head_seg l = (Ret HDone, l') ->
     (JobStatus (jd (l_job l)) <> READY /\ sent l' = sent l) \/
     (last (sent l') = Some (Clone (l_job l')) /\ final l')).
Proof.
  unfold tail_seg, head_seg, bind at 1 3. split.
  - intros jid. destruct (guarded_total false (handle_tail jid) l) as ([] & l1 & E); rewrite E; [done|].
    destruct (handler_exit_spec l1) as (l2 & H2 & Hj & Hw). unfold bind. rewrite H2. cbn. intros [= <-].
    unfold sent, final. rewrite Hj, Hw. by apply (handle_tail_final jid l).
  - destruct (guarded_total None handle_head l) as ([jid|] & l1 & E); rewrite E; [done|].
    destruct (handler_exit_spec l1) as (l2 & H2 & Hj & Hw). unfold bind. rewrite H2. cbn. intros [= <-].
    unfold sent, final. rewrite Hj, Hw. by apply handle_head_final.
Qed.

(** What a job type promises about its statuses. *)
Class NeverReady := {
  process_not_ready : forall w j w' j', JobStatus (jd j) = RUNNING ->
    Process (w, j) = (Ret tt, (w', j')) -> JobStatus (jd j') <> READY;
  postprocess_not_ready : forall w j w' j', JobStatus (jd j) <> READY ->
    PostProcess (w, j) = (Ret tt, (w', j')) -> JobStatus (jd j') <> READY
}.

Lemma JobStatus_set_status st d : JobStatus (set_JobStatus st d) = st.
Proof. by destruct d. Qed.

Lemma JobStatus_set_update b d : JobStatus (set_UseJobInfoUpdate b d) = JobStatus d.
Proof. by destruct d. Qed.

Lemma worker_run_not_ready `{!NeverReady} l l' :
  worker_run l = (Ret tt, l') -> JobStatus (jd (l_job l')) <> READY.
Proof.
  unfold_seg. destruct (Process _) as [[[]|m] [w1 j1]] eqn:E; cbn; intros [= <-]; cbn.
  - eapply process_not_ready; [|exact E]. by rewrite jd_with_jd, JobStatus_set_status.
  - by rewrite jd_with_jd, JobStatus_set_status.
Qed.

Lemma handle_tail_again `{!NeverReady} jid l l' :
  JobStatus (jd (l_job l)) <> READY -> handle_tail jid l = (Ret true, l') -> JobStatus (jd (l_job l')) <> READY.
Proof.
  intros Hl. unfold_seg. destruct (IsFinished _) as [[]|m]; cbn; [done| |done].
  destruct (PostProcess _) as [[[]|m] [w1 j1]] eqn:E; cbn; [|done].
  destruct (IsFinished j1) as [[]|m]; cbn; [done| |done]. intros [= <-]. cbn.
  eapply postprocess_not_ready; [|exact E]. by rewrite jd_with_jd, JobStatus_set_update.
Qed.

Lemma handle_head_not_ready l :
  JobStatus (jd (l_job l)) <> READY -> exists l', handle_head l = (Ret None, l') /\ sent l' = sent l.
Proof.
  intros Hl. unfold_seg. rewrite jd_with_jd, JobStatus_set_update. rewrite bool_decide_eq_false_2 by done.
  cbn. eauto.
Qed.

(** What a turn that is followed by another leaves to it. *)
Lemma handle_loop_turn n l r l1 l2 l3 jid again :
  handle_head l = (Ret (Some jid), l1) -> worker_run l1 = (Ret tt, l2) -> handle_tail jid l2 = (Ret again, l3) ->
  (if again : bool then handle_loop n l3 else (Ret true, l3)) = r -> handle_loop (S n) l = r.
Proof. intros E1 E2 E3 <-. cbn [handle_loop]. unfold bind. rewrite E1, E2, E3. by destruct again. Qed.

(** A turn of the loop that is followed by another has found its job READY. *)
Lemma handle_loop_ready n l :
  match handle_loop (S n) l with
  | (Ret false, _) => exists l1, handle_loop n l = (Ret false, l1) /\ JobStatus (jd (l_job l1)) = READY
  | _ => True
  end.
Proof.
  revert l. induction n as [|n IH]; intros l.
  - destruct (decide (JobStatus (jd (l_job l)) = READY)) as [HR|HR].
    + destruct (handle_loop 1 l) as [[[]|] ?]; [done| |done]. by exists l.
    + destruct (handle_head_not_ready l HR) as (l1 & E & _). cbn. unfold bind. by rewrite E.
  - destruct (handle_head l) as [[[jid|]|m] l1] eqn:E1.
    2-3: cbn; unfold bind; by rewrite E1.
    destruct (worker_run l1) as [[[]|m] l2] eqn:E2; [|cbn; unfold bind; by rewrite E1, E2].
    destruct (handle_tail jid l2) as [[again|m] l3] eqn:E3; [|cbn; unfold bind; by rewrite E1, E2, E3].
    rewrite (handle_loop_turn (S n) l _ _ _ _ _ _ E1 E2 E3 eq_refl), (handle_loop_turn n l _ _ _ _ _ _ E1 E2 E3 eq_refl).
    destruct again; [apply IH|done].
Qed.

(** C12: What keeps the loop of [handleImpl] going, and that it ends for a job
    that does not come back to READY.  For every job type, job and world, panics included:
    the handler returns within [n + 1] turns, or [n] turns have ended with the
    job READY again.  So for a job type whose [Process] and [PostProcess] never
    put the job back to READY it returns within two turns. *)
Theorem handle_impl_terminates l :
  (forall n, (exists l', handleImpl (S n) l = (Ret true, l')) \/
             (exists l1, handleImpl n l = (Ret false, l1) /\ JobStatus (jd (l_job l1)) = READY)) /\
  (NeverReady -> exists l', handleImpl 2 l = (Ret true, l')).
Proof.
  assert (forall n r, handle_loop n l = r -> match r with
            | (Ret false, l1) => handleImpl n l = (Ret false, l1)
            | _ => exists l', handleImpl n l = (Ret true, l')
            end) as Hg.
  { intros n [[[]|m] l1] E; unfold handleImpl, guarded, recovering; rewrite E; [by eexists|done|].
    destruct (handle_recover_spec l1) as (l2 & H2 & _). unfold bind. rewrite H2. by eexists. }
  split.
  - intros n. pose proof (handle_loop_ready n l) as H. pose proof (Hg (S n) _ eq_refl) as H1.
    destruct (handle_loop (S n) l) as [[[]|m] l']; [by left| |by left]. right.
    destruct H as (l1 & E & HR). exists l1. by rewrite (Hg n _ E).
  - intros HN. pose proof (Hg 2%nat _ eq_refl) as H. destruct (handle_loop 2 l) as [[[]|m] l'] eqn:E; [done| |done].
    exfalso. cbn [handle_loop] in E. unfold bind in E at 1.
    destruct (handle_head l) as [[[jid|]|m] l1]; [|done|done]. unfold bind in E at 1.
    destruct (worker_run l1) as [[[]|m] l2] eqn:Ew; [|done]. unfold bind in E at 1.
    destruct (handle_tail jid l2) as [[[]|m] l3] eqn:Et; [|done|done].
    apply worker_run_not_ready in Ew. apply handle_tail_again in Et; [|done].
    destruct (handle_head_not_ready l3 Et) as (l4 & H4 & _). unfold bind in E. by rewrite H4 in E.
Qed.
End reporting.

(** ** Normal and rejected jobs *)

(** What the other components promise to the scheduler's jobs: they do not put
    a job back to READY, and do not write to the database channel themselves. *)
Class SendNotReady (W : Type) `{IQPUManager W} :=
  send_not_ready : forall w d r w' d', JobStatus d <> READY ->
    QPU_Send (w, d) = (Ret r, (w', d')) -> JobStatus d' <> READY.

Class QuietServices (W J : Type) `{GoClock W} `{ITranspiler W} `{IQPUManager W} `{IDBChan W J} := {
  quiet_now : forall w, db_sent (Now w).2 = db_sent w;
  quiet_transpile : forall w d r w' d', Transpile (w, d) = (r, (w', d')) -> db_sent w' = db_sent w;
  quiet_send : forall w d r w' d', QPU_Send (w, d) = (r, (w', d')) -> db_sent w' = db_sent w
}.

Section normal.
Context {W : Type} `{HC : GoClock W} `{HT : ITranspiler W} `{HQ : IQPUManager W} `{HD : IDBChan W NormalJob}.

#[global] Instance NormalJob_never_ready `{!SendNotReady W} : NeverReady (W := W) (J := NormalJob).
Proof.
  constructor.
  - intros w j w' j' Hj. cbn. unfold NormalJob_Process, zoom, bind, upd_jd, modify, ret. cbn.
    destruct (QPU_Send (w, nj_jobData j)) as [[[e|]|m] [w1 d1]] eqn:E; intros [= <- <-]; cbn.
    + done.
    + eapply send_not_ready; [|exact E]. cbn in Hj. by rewrite Hj.
  - intros w j w' j' Hj. cbn. by intros [= <- <-].
Qed.

Definition statuses (l : list NormalJob) : list Status := (fun j => JobStatus (jd j)) <$> l.

Lemma statuses_send j (w : W) : statuses (db_sent (db_send j w)) = statuses (db_sent w) ++ [JobStatus (jd j)].
Proof. rewrite db_sent_send. unfold statuses. by rewrite fmap_app. Qed.

Lemma Clone_status (j : NormalJob) : JobStatus (jd (Clone (W := W) j)) = JobStatus (jd j).
Proof. by rewrite jd_Clone. Qed.

Definition finished_status (st : Status) : bool :=
  bool_decide (st = SUCCEEDED) || bool_decide (st = FAILED).

Lemma finished_status_spec st : finished_status st = true <-> st = SUCCEEDED \/ st = FAILED.
Proof. unfold finished_status. rewrite orb_true_iff, !bool_decide_eq_true. done. Qed.

(** The statuses a normal job may be reported with, in order. *)
Inductive reported : Status -> list Status -> Prop :=
| reported_pre st : finished_status st = true -> reported st [st]
| reported_run st0 st : finished_status st0 = false -> finished_status st = true ->
    reported st [st0; RUNNING; st; st]
| reported_panic st0 : finished_status st0 = false -> reported FAILED [st0; RUNNING; FAILED; FAILED; FAILED]
| reported_open st0 st : finished_status st0 = false -> finished_status st = false ->
    reported st [st0; RUNNING].

Context `{HQt : !QuietServices W NormalJob}.
Implicit Types l : Local W NormalJob.

Ltac unfold_seg :=
  unfold handle_head, handle_tail, handle_recover, worker_run, recovering,
    s_IsFinished, s_jd, s_upd, on_job, upd_jd, hist_append, send_clone, bind, get, gets, modify, lift, ret,
    l_world, l_job, l_hist, sent in *; cbn in *.

#[local] Arguments NormalJob_PreProcess : simpl never.
#[local] Arguments NormalJob_Process : simpl never.
#[local] Arguments finished_status : simpl never.

Lemma NormalJob_IsFinished_status j : NormalJob_IsFinished j = Ret (finished_status (JobStatus (jd j))).
Proof. reflexivity. Qed.

(** Pre-processing sends nothing; with an error it leaves the job FAILED. *)
Lemma normal_preprocess w (j : NormalJob) r w' j' :
  NormalJob_PreProcess (w, j) = (r, (w', j')) -> db_sent w' = db_sent w.
Proof.
  unfold NormalJob_PreProcess, NormalJob_preProcessImpl, get_jd, zoom, SetFailureWithError. unfold_seg.
  destruct (JobData_NeedTranspiling _) as [[]|m]; cbn; [|by intros [= <- <- <-]..].
  destruct (Transpile (w, nj_jobData j)) as [[[e|]|m] [w1 d1]] eqn:E; cbn.
  - pose proof (quiet_now w1) as Hn. destruct (Now w1) as [t w2]. intros [= <- <- <-].
    cbn in Hn. rewrite Hn. by eapply quiet_transpile.
  - intros [= <- <- <-]. by eapply quiet_transpile.
  - intros [= <- <- <-]. by eapply quiet_transpile.
Qed.

(** Up to the queue. *)
Lemma normal_head l o l' :
  JobStatus (jd (l_job l)) = READY -> handle_head l = (o, l') ->
  match o with
  | Panic _ => sent l' = sent l
  | Ret r => let st := JobStatus (jd (l_job l')) in
      statuses (sent l') = statuses (sent l) ++ [st] /\
      match r with None => finished_status st = true | Some _ => finished_status st = false end
  end.
Proof.
  intros Hl. unfold_seg. rewrite Hl, bool_decide_eq_true_2 by done. cbn.
  destruct (NormalJob_PreProcess _) as [[[]|m] [w1 j1]] eqn:E; apply normal_preprocess in E; cbn;
    [|by intros [= <- <-]].
  destruct (finished_status (JobStatus (nj_jobData j1))) eqn:F.
  - unfold finished_status in F. rewrite F. cbn. rewrite F. cbn. intros [= <- <-]. cbn.
    by rewrite statuses_send, E.
  - unfold finished_status in F. rewrite F. cbn. rewrite F. cbn. intros [= <- <-]. cbn.
    by rewrite statuses_send, E.
Qed.

Lemma normal_worker l l' :
  worker_run l = (Ret tt, l') ->
  let st := JobStatus (jd (l_job l')) in
  statuses (sent l') = statuses (sent l) ++ [RUNNING] \/
  (statuses (sent l') = statuses (sent l) ++ [RUNNING; FAILED] /\ st = FAILED).
Proof.
  unfold_seg. unfold NormalJob_Process, zoom. unfold_seg.
  destruct (QPU_Send _) as [[[e|]|m] [w1 d1]] eqn:E; apply quiet_send in E; cbn in *; intros [= <-]; cbn;
    rewrite ?statuses_send, E, statuses_send; cbn.
  - by left.
  - by left.
  - right. by rewrite <- app_assoc.
Qed.

Lemma normal_tail jid l o l' :
  handle_tail jid l = (o, l') ->
  let st := JobStatus (jd (l_job l)) in
  JobStatus (jd (l_job l')) = st /\ o = Ret (negb (finished_status st)) /\
  statuses (sent l') = statuses (sent l) ++ (if finished_status st then [st; st] else []).
Proof.
  unfold_seg. change (bool_decide (JobStatus (nj_jobData l.1.2) = SUCCEEDED)
    || bool_decide (JobStatus (nj_jobData l.1.2) = FAILED)) with (finished_status (JobStatus (nj_jobData l.1.2))).
  destruct (finished_status _) eqn:F; cbn.
  - intros [= <- <-]. cbn. rewrite !statuses_send, <- app_assoc. auto.
  - unfold finished_status in F. rewrite F. intros [= <- <-]. cbn. by rewrite app_nil_r.
Qed.

Lemma normal_recover l :
  exists l', handle_recover l = (Ret tt, l') /\ JobStatus (jd (l_job l')) = FAILED /\
    statuses (sent l') = statuses (sent l) ++ [FAILED].
Proof. unfold_seg. eexists. split; [reflexivity|]. cbn. by rewrite statuses_send. Qed.

Lemma handle_head_stops l :
  JobStatus (jd (l_job l)) <> READY ->
  exists l', handle_head l = (Ret None, l') /\ JobStatus (jd (l_job l')) = JobStatus (jd (l_job l)) /\ sent l' = sent l.
Proof.
  intros Hl. unfold_seg. rewrite bool_decide_eq_false_2 by done. cbn. eexists. split; [reflexivity|]. done.
Qed.

(** C3: the life of a normal job.  A job that arrives READY is handled to the
    end, and the statuses it is reported with to the database are exactly one of:
    the final status alone, when pre-processing fails, panics or finishes the job;
    the status after pre-processing, RUNNING and twice the final status; the same
    with FAILED three times, when the QPU call panics; or the status after
    pre-processing and RUNNING, when the QPU call leaves the job unfinished.  The
    last status reported in the first three cases is the job's final status. *)
Theorem normal_job_lifecycle `{!SendNotReady W} l :
  JobStatus (jd (l_job l)) = READY ->
  exists l' sts, handleImpl 2 l = (Ret true, l') /\
    statuses (sent l') = statuses (sent l) ++ sts /\ reported (JobStatus (jd (l_job l'))) sts.
Proof.
  intros Hl. unfold handleImpl, guarded, recovering. cbn [handle_loop]. unfold bind at 1.
  destruct (handle_head l) as [o l1] eqn:Eh. apply normal_head in Eh; [|done]. destruct o as [[jid|]|m].
  2: { destruct Eh as [E1 E2]. eexists _, _. split; [reflexivity|]. split; [exact E1|by constructor]. }
  2: { destruct (normal_recover l1) as (l2 & H2 & Hst & Hs). unfold bind. rewrite H2. eexists _, _.
       split; [reflexivity|]. split; [by rewrite Hs, Eh|]. rewrite Hst. by constructor. }
  destruct Eh as [Es1 Hst1]. unfold bind at 1. destruct (worker_run_total l1) as [l2 Ew]. rewrite Ew.
  pose proof (worker_run_not_ready l1 l2 Ew) as Hnr. apply normal_worker in Ew. cbn zeta in Ew. unfold bind at 1.
  destruct (handle_tail jid l2) as [o l3] eqn:Et. apply normal_tail in Et as (Hst3 & -> & Es3).
  destruct (finished_status (JobStatus (jd (l_job l2)))) eqn:F; cbn [negb].
  - destruct Ew as [Es2|[Es2 HF]]; (eexists _, _; split; [reflexivity|]); rewrite Es3, Hst3, Es2, Es1, <- !app_assoc.
    + split; [reflexivity|]. by constructor.
    + rewrite HF. split; [reflexivity|]. by constructor.
  - destruct Ew as [Es2|[Es2 HF]]; [|by rewrite HF in F]. rewrite app_nil_r in Es3.
    cbn [handle_loop]. unfold bind. destruct (handle_head_stops l3) as (l4 & -> & Hst4 & Es4); [by rewrite Hst3|].
    eexists _, [_; RUNNING]. split; [reflexivity|]. rewrite Es4, Es3, Es2, Es1, <- !app_assoc, Hst4, Hst3.
    split; [reflexivity|]. by constructor.
Qed.
End normal.

Section rejected.
Context {W : Type} `{HD : IDBChan W UnknownJob}.

(** A job the manager rejected is never reported.  The poller hands such a
    job to the scheduler as an [UnknownJob] with status FAILED; the handler
    returns in its first turn and nothing is sent to the database. *)
Theorem rejected_job_unreported (w : W) (j : UnknownJob) hist :
  JobStatus (jd j) = FAILED ->
  exists l', HandleJob 1 ((w, j), hist) = (Ret true, l') /\ db_sent (l_world l') = db_sent w.
Proof.
  intros Hj. destruct (handle_head_not_ready ((w, j), hist)) as (l' & H & Hs).
  { cbn. cbn in Hj. by rewrite Hj. }
  unfold HandleJob, handleImpl, guarded, recovering. cbn [handle_loop]. unfold bind at 1 2. rewrite H. cbn.
  eexists. split; [reflexivity|]. exact Hs.
Qed.
End rejected.

(** ** Instances *)

Module SchedExample.
(** A world with the database channel and a QPU that always succeeds. *)
Record World := mkWorld { chan : list NormalJob }.

#[global] Instance World_clock : GoClock World := fun w => (0, w).
#[global] Instance World_transpiler : ITranspiler World :=
  {| IsAcceptableTranspilerLib _ _ := true; Transpile := ret None |}.
#[global] Instance World_qpu : IQPUManager World :=
  {| QPU_Send := modify (fun wd => (wd.1, set_JobStatus SUCCEEDED wd.2)) ;;! ret None;
     QPU_GetDeviceInfo _ := None |}.
#[global] Program Instance World_db : IDBChan World NormalJob :=
  {| db_send j w := mkWorld (chan w ++ [j]); db_sent := chan |}.
Next Obligation. reflexivity. Qed.

Definition job (id : string) : NormalJob :=
  mkNormalJob (set_ID id (set_JobStatus READY (set_Transpiler (Some (mkTranspilerConfig None None false)) (NewJobData 0)))).

Definition start : World := mkWorld [].
Definition init (cap : Z) : Sys World NormalJob (list nat) := Scheduler_Setup start 1 cap.

(** Handler 0 brings its job to the queue. *)
Lemma offered (cap : Z) :
  exists s, steps (init cap) [LSpawn 0; LHead 0] s /\ pc_of s !! 0%nat = Some (HSend "a") /\
    queue s = mkNormalQueue [] cap 1 /\ queue_on s = true /\ worker s = None.
Proof.
  eexists. split.
  - change [LSpawn 0; LHead 0] with ([] ++ [LSpawn 0] ++ [LHead 0]). rewrite app_assoc.
    econstructor; [econstructor; [constructor|]|].
    + apply (step_spawn _ 0 (job "a")); reflexivity.
    + eapply step_head; reflexivity.
  - repeat split.
Qed.

(** ... where it is enqueued when there is room, and dropped otherwise. *)
Lemma queued :
  exists s, steps (init 5) [LSpawn 0; LHead 0; LEnqueue 0] s /\
    items (fifo (queue s)) = [0%nat] /\ worker s = None.
Proof.
  destruct (offered 5) as (s & Hs & Hp & Hq & Hon & Hw). eexists. split.
  - change [LSpawn 0; LHead 0; LEnqueue 0] with ([LSpawn 0; LHead 0] ++ [LEnqueue 0]).
    econstructor; [exact Hs|]. apply (step_enqueue s 0 "a"); [exact Hp|exact Hon|]. rewrite Hq. reflexivity.
  - cbn. rewrite Hq. auto.
Qed.
End SchedExample.

Lemma scheduler_fifo_bounded_witness :
  exists s, steps (SchedExample.init 5) [LSpawn 0; LHead 0; LEnqueue 0] s /\
    [0%nat] = [] ++ waiting s /\ NoDup (waiting s).
Proof.
  destruct SchedExample.queued as (s & Hs & _ & _). exists s. split; [exact Hs|].
  destruct (scheduler_fifo_bounded SchedExample.start 1 5 _ s Hs) as (_ & Hn & _ & Ho). split; [exact Ho|exact Hn].
Defined.

Lemma dropped_job_never_finishes_witness :
  exists s s', steps (SchedExample.init 0) [LSpawn 0; LHead 0] s /\ step s (LDrop 0) s' /\
    (exists jid, pc_of s' !! 0%nat = Some (HWait jid)) /\ 0%nat ∉ waiting s'.
Proof.
  destruct (SchedExample.offered 0) as (s & Hs & Hp & Hq & Hon & Hw).
  assert (step s (LDrop 0) (set_pc (set_queue s (Queue_receive 0%nat (queue s))) 0 (HWait "a"))) as Hd.
  { apply (step_drop s 0 "a"); [exact Hp|exact Hon|]. rewrite Hq. cbn. lia. }
  eexists s, _. split; [exact Hs|]. split; [exact Hd|].
  apply (dropped_job_never_finishes SchedExample.start 1 0 _ s _ _ 0 [] Hs Hd). constructor.
Defined.

Lemma queued_job_is_run_witness :
  exists s tr s' jid, steps (SchedExample.init 5) [LSpawn 0; LHead 0; LEnqueue 0] s /\ steps s tr s' /\
    length tr = 2%nat /\ pc_of s' !! 0%nat = Some (HTail jid).
Proof.
  destruct SchedExample.queued as (s & Hs & Hi & Hw).
  destruct (queued_job_is_run SchedExample.start 1 5 _ s 0 0 Hs Hw) as (tr & s' & jid & H1 & _ & H2 & H3);
    [by rewrite Hi|]. exists s, tr, s', jid. auto.
Defined.

Module SchedLaws.
Import SchedExample.

#[global] Instance World_not_ready : SendNotReady World.
Proof. intros w d r w' d' _. cbn. intros [= <- <- <-]. by destruct d. Qed.

#[global] Instance World_quiet : QuietServices World NormalJob.
Proof. constructor; [done| |]; cbn; by intros ? ? ? ? ? [= <- <- <-]. Qed.

Definition fresh : Local World NormalJob := ((start, job "a"), ∅).
Definition done : Local World NormalJob :=
  ((start, with_jd (set_JobStatus SUCCEEDED (jd (job "a"))) (job "a")), ∅).
End SchedLaws.

Lemma handler_end_reported_witness :
  exists l', tail_seg "a" SchedLaws.done = (Ret HDone, l') /\
    last (sent l') = Some (Clone (W := SchedExample.World) (l_job l')).
Proof.
  destruct (tail_seg "a" SchedLaws.done) as [o l'] eqn:E.
  assert (o = Ret HDone) as Ho.
  { change o with ((o, l').1). rewrite <- E. vm_compute. reflexivity. }
  subst o. exists l'. split; [reflexivity|]. exact (proj1 (proj1 (handler_end_reported SchedLaws.done l') "a" E)).
Defined.

Lemma handle_impl_terminates_witness :
  exists l', handleImpl 2 SchedLaws.fresh = (Ret true, l').
Proof. exact (proj2 (handle_impl_terminates SchedLaws.fresh) (NormalJob_never_ready (W := SchedExample.World))). Defined.

Lemma normal_job_lifecycle_witness :
  exists l' sts, handleImpl 2 SchedLaws.fresh = (Ret true, l') /\
    statuses (sent l') = [] ++ sts /\ reported (JobStatus (jd (l_job l'))) sts.
Proof.
  destruct (normal_job_lifecycle SchedLaws.fresh) as (l' & sts & H1 & H2 & H3); [vm_compute; reflexivity|].
  exists l', sts. split; [exact H1|]. split; [|exact H3]. rewrite H2. vm_compute. reflexivity.
Defined.

Module RejectedExample.
#[global] Program Instance chan : IDBChan (list UnknownJob) UnknownJob :=
  {| db_send j w := w ++ [j]; db_sent w := w |}.
Next Obligation. reflexivity. Qed.
Definition job : UnknownJob := mkUnknownJob (SetFailureWithErrorToJobData 1 "jobID is empty" (NewJobData 0)).
End RejectedExample.

Lemma rejected_job_unreported_witness :
  exists l', HandleJob 1 (([], RejectedExample.job), ∅) = (Ret true, l') /\ db_sent (l_world l') = [].
Proof.
  destruct (rejected_job_unreported ([] : list UnknownJob) RejectedExample.job ∅) as (l' & H1 & H2);
    [vm_compute; reflexivity|]. exists l'. split; [exact H1|exact H2].
Defined.
