(* ===== verification/Alone.v ===== *)
(** * One handler alone (scheduler/scheduler.go)

    [handleImpl] composes the segments of a handler with the work of the worker
    as if nothing else ran; [step] interleaves the same segments with the queue.
    This file relates the two: as long as no other job is handed over, the
    executions of the concurrent system that bring the handler to its end are
    those of [HandleJob], with the same world, job and history. *)

From stdpp Require Import base gmap strings list fin_maps.
From Stdlib Require Import ZArith Lia.
From S2P Require Import Prelude GoString Core Job Queue Scheduler.

(** Steps of the handlers that exist, of the queue and of the worker. *)
Definition no_arrival (lb : label) : Prop :=
  match lb with LSpawn _ | LTearDown => False | _ => True end.

Section alone.
Context {W J Q : Type} `{HJ : HasJobData J} `{IJ : !IJob W J} `{HD : IDBChan W J}
  `{HF : IFifo Q nat} `{HS : !FifoSpec Q nat}.
Implicit Types (s : Sys W J Q) (l : Local W J) (p : pc).

(** What is left of [handleImpl] at a point of the handler. *)
Definition rest (fuel : nat) p : M (Local W J) bool :=
  let after jid := let! again := handle_tail jid in if again then handle_loop fuel else ret true in
  match p with
  | HHead => handle_loop fuel
  | HSend jid | HWait jid => worker_run ;;! after jid
  | HTail jid => after jid
  | HDone => ret true
  end.

Definition rest_of (fuel : nat) p : M (Local W J) bool :=
  let! r := guarded true (rest fuel p) in handler_exit ;;! ret r.

(** The states the deferred functions leave: at the end, and after a panic. *)
Definition leave l : Local W J := (handler_exit l).2.
Definition failed l : Local W J := (handle_recover l).2.

Lemma guarded_bind {A B} (stop : B) (c : M (Local W J) A) (k : A -> M (Local W J) B) l :
  guarded stop (bind c k) l =
  match c l with (Ret a, l1) => guarded stop (k a) l1 | (Panic _, l1) => (Ret stop, failed l1) end.
Proof. unfold guarded, recovering, bind. by destruct (c l) as [[a|m] l1]. Qed.

Lemma rest_of_eq fuel p l :
  rest_of fuel p l =
  match guarded true (rest fuel p) l with (Ret r, l1) => (Ret r, leave l1) | (Panic m, l1) => (Panic m, l1) end.
Proof. unfold rest_of, bind at 1. by destruct (guarded true _ l) as [[r|m] l1]. Qed.

Lemma head_seg_eq l :
  head_seg l =
  match handle_head l with
  | (Ret (Some jid), l1) => (Ret (HSend jid), l1)
  | (Ret None, l1) => (Ret HDone, leave l1)
  | (Panic _, l1) => (Ret HDone, leave (failed l1))
  end.
Proof. unfold head_seg, bind at 1, guarded, recovering. by destruct (handle_head l) as [[[jid|]|m] l1]. Qed.

Lemma tail_seg_eq jid l :
  tail_seg jid l =
  match handle_tail jid l with
  | (Ret true, l1) => (Ret HHead, l1)
  | (Ret false, l1) => (Ret HDone, leave l1)
  | (Panic _, l1) => (Ret HDone, leave (failed l1))
  end.
Proof. unfold tail_seg, bind at 1, guarded, recovering. by destruct (handle_tail jid l) as [[[]|m] l1]. Qed.

(** Each segment leads to what is left after it. *)
Definition leads (fuel : nat) p l l' : Prop :=
  match p with HDone => l = l' | _ => rest_of fuel p l = (Ret true, l') end.

Lemma rest_head fuel l p l1 l' :
  head_seg l = (Ret p, l1) -> leads (S fuel) HHead l l' <-> leads fuel p l1 l'.
Proof.
  unfold leads. rewrite head_seg_eq, rest_of_eq.
  change (rest (S fuel) HHead) with
    (bind handle_head (fun r => match r with None => ret true | Some jid => rest fuel (HSend jid) end)).
  rewrite guarded_bind. destruct (handle_head l) as [[[jid|]|m] l2]; intros [= <- <-].
  - by rewrite rest_of_eq.
  - split; [by intros [= <-]|by intros <-].
  - split; [by intros [= <-]|by intros <-].
Qed.

Lemma rest_run fuel jid l l1 l' :
  worker_run l = (Ret tt, l1) -> leads fuel (HWait jid) l l' <-> leads fuel (HTail jid) l1 l'.
Proof. intros E. unfold leads. rewrite !rest_of_eq. cbn [rest]. by rewrite (guarded_bind _ worker_run), E. Qed.

Lemma rest_tail fuel jid l p l1 l' :
  tail_seg jid l = (Ret p, l1) -> leads fuel (HTail jid) l l' <-> leads fuel p l1 l'.
Proof.
  unfold leads. rewrite tail_seg_eq, rest_of_eq. cbn [rest]. rewrite guarded_bind.
  destruct (handle_tail jid l) as [[[]|m] l2]; intros [= <- <-].
  - by rewrite rest_of_eq.
  - split; [by intros [= <-]|by intros <-].
  - split; [by intros [= <-]|by intros <-].
Qed.
(** The system while [h] is its only handler. *)
Record alone (h : nat) p l s : Prop := {
  alone_world : world s = l_world l;
  alone_history : history s = l_hist l;
  alone_job : job_of s = {[h := l_job l]};
  alone_pc : pc_of s = {[h := p]};
  alone_on : queue_on s = true;
  alone_cap : 1 <= maxSize (queue s);
  alone_waiting : waiting s = match p with HWait _ => [h] | _ => [] end
}.

(** The moves of the handler, of the queue and of the worker. *)
Inductive move : pc -> Local W J -> pc -> Local W J -> Prop :=
| move_head l p l1 : head_seg l = (Ret p, l1) -> move HHead l p l1
| move_send jid l : move (HSend jid) l (HWait jid) l
| move_dequeue jid l : move (HWait jid) l (HWait jid) l
| move_run jid l l1 : worker_run l = (Ret tt, l1) -> move (HWait jid) l (HTail jid) l1
| move_tail jid l p l1 : tail_seg jid l = (Ret p, l1) -> move (HTail jid) l p l1.

Lemma move_leads p l p1 l1 fuel l' : move p l p1 l1 -> leads fuel p1 l1 l' -> exists fuel', leads fuel' p l l'.
Proof.
  intros Hm Hl. destruct Hm as [l p l1 H|jid l|jid l|jid l l1 H|jid l p l1 H].
  - exists (S fuel). by eapply rest_head.
  - by exists fuel.
  - by exists fuel.
  - exists fuel. by eapply rest_run.
  - exists fuel. by eapply rest_tail.
Qed.

Lemma alone_local h p l s : alone h p l s -> ((world s, l_job l), history s) = l.
Proof. intros []. destruct l as [[w j] hist]. cbn in *. congruence. Qed.

Lemma alone_set h p l s l1 p1 :
  alone h p l s -> (forall jid, p <> HWait jid) -> (forall jid, p1 <> HWait jid) -> alone h p1 l1 (set_local s h l1 p1).
Proof.
  intros [Hw Hh Hj Hp Ho Hc Hq] H H1. constructor; cbn; try done.
  - by rewrite Hj, insert_singleton_eq.
  - by rewrite Hp, insert_singleton_eq.
  - change (waiting s = match p1 with HWait _ => [h] | _ => [] end). rewrite Hq.
    destruct p, p1; try done; exfalso; by eapply H + eapply H1.
Qed.
Lemma head_seg_pc l p l1 : head_seg l = (Ret p, l1) -> forall jid, p <> HWait jid.
Proof. rewrite head_seg_eq. destruct (handle_head l) as [[[jid|]|m] l2]; by intros [= <- <-]. Qed.

Lemma tail_seg_pc jid l p l1 : tail_seg jid l = (Ret p, l1) -> forall jid', p <> HWait jid'.
Proof. rewrite tail_seg_eq. destruct (handle_tail jid l) as [[[]|m] l2]; by intros [= <- <-]. Qed.

Lemma alone_at h p l s h' p' : alone h p l s -> pc_of s !! h' = Some p' -> h' = h /\ p' = p.
Proof. intros Ha. rewrite (alone_pc _ _ _ _ Ha). intros [-> ->]%lookup_singleton_Some. done. Qed.

Lemma alone_job_at h p l s h' j : alone h p l s -> job_of s !! h' = Some j -> j = l_job l.
Proof. intros Ha. rewrite (alone_job _ _ _ _ Ha). intros [-> ->]%lookup_singleton_Some. done. Qed.

Lemma alone_space h p l s : alone h p l s -> (forall jid, p <> HWait jid) -> GetLen (fifo (queue s)) = 0.
Proof.
  intros Ha Hp. pose proof (alone_waiting _ _ _ _ Ha) as Hq. unfold waiting in Hq. rewrite items_len.
  destruct p; try (apply app_eq_nil in Hq as [_ ->]; done). by destruct (Hp jid).
Qed.

Lemma alone_enqueue h jid l s :
  alone h (HSend jid) l s ->
  alone h (HWait jid) l (set_pc (set_queue s (Queue_receive h (queue s))) h (HWait jid)).
Proof.
  intros Ha. pose proof (alone_space _ _ _ _ Ha ltac:(done)) as Hl. destruct Ha as [Hw Hh Hj Hp Ho Hc Hq].
  constructor; cbn; try done.
  - by rewrite Hp, insert_singleton_eq.
  - by rewrite maxSize_receive.
  - unfold waiting in *. cbn. rewrite items_receive_space by lia. by rewrite app_assoc, Hq.
Qed.

Lemma alone_dequeue h p l s h' q :
  alone h p l s -> worker s = None -> Queue_Dequeue (queue s) = (inl h', q) ->
  alone h p l (set_worker (set_queue s q) (Some h')).
Proof.
  intros [Hw Hh Hj Hp Ho Hc Hq] Hn Hd. apply dequeue_items in Hd as [Hi Hm]. constructor; cbn; try done.
  - by rewrite Hm.
  - rewrite <- Hq. unfold waiting. cbn. by rewrite Hn, Hi.
Qed.

Lemma alone_run h jid l l1 s :
  alone h (HWait jid) l s -> worker s = Some h -> alone h (HTail jid) l1 (set_worker (set_local s h l1 (HTail jid)) None).
Proof.
  intros [Hw Hh Hj Hp Ho Hc Hq] Hn. constructor; cbn; try done.
  - by rewrite Hj, insert_singleton_eq.
  - by rewrite Hp, insert_singleton_eq.
  - unfold waiting in *. cbn. rewrite Hn in Hq. cbn in Hq. by injection Hq as ->.
Qed.

(** Every step of the system is a move of its only handler. *)
Lemma alone_step h p l s lb s' :
  alone h p l s -> step s lb s' -> no_arrival lb -> exists p1 l1, move p l p1 l1 /\ alone h p1 l1 s'.
Proof.
  intros Ha Hst Hlb. pose proof (alone_local _ _ _ _ Ha) as Hl.
  destruct Hst as [s h' j Hp Hj|s h' j p1 l1 Hp Hj H|s h' jid Hp _ Hlen|s h' jid Hp _ Hlen
    |s h' q Hwk Hq|s h' j jid l1 Hwk Hj Hp H|s h' j jid p1 l1 Hp Hj H|s]; try done.
  - destruct (alone_at _ _ _ _ _ _ Ha Hp) as [-> <-]. rewrite (alone_job_at _ _ _ _ _ _ Ha Hj), Hl in H.
    exists p1, l1. split; [by constructor|]. eapply alone_set; [done|done|by eapply head_seg_pc].
  - destruct (alone_at _ _ _ _ _ _ Ha Hp) as [-> <-]. eexists _, l. split; [constructor|by apply alone_enqueue].
  - destruct (alone_at _ _ _ _ _ _ Ha Hp) as [-> <-]. pose proof (alone_cap _ _ _ _ Ha).
    rewrite (alone_space _ _ _ _ Ha) in Hlen by done. lia.
  - pose proof (alone_waiting _ _ _ _ Ha) as Hw. unfold waiting in Hw. rewrite Hwk in Hw. cbn in Hw.
    destruct (dequeue_items _ _ _ Hq) as [Hi _]. rewrite Hi in Hw. destruct p; try done.
    eexists _, l. split; [constructor|by apply alone_dequeue].
  - destruct (alone_at _ _ _ _ _ _ Ha Hp) as [-> <-]. rewrite (alone_job_at _ _ _ _ _ _ Ha Hj), Hl in H.
    eexists _, l1. split; [by constructor|by eapply alone_run].
  - destruct (alone_at _ _ _ _ _ _ Ha Hp) as [-> <-]. rewrite (alone_job_at _ _ _ _ _ _ Ha Hj), Hl in H.
    exists p1, l1. split; [by constructor|]. eapply alone_set; [done|done|by eapply tail_seg_pc].
Qed.

(** So what an execution still has to do is what the composition has to do. *)
Lemma alone_steps h l s tr s' :
  alone h HHead l s -> steps s tr s' -> Forall no_arrival tr ->
  exists p1 l1, alone h p1 l1 s' /\ forall fuel l', leads fuel p1 l1 l' -> exists fuel', leads fuel' HHead l l'.
Proof.
  intros Ha Hst. induction Hst as [|s1 tr s2 lb s3 Hs IH Hl]; intros Htr; [by eauto 6|].
  apply Forall_app in Htr as [Htr Hlb]. destruct (IH Ha Htr) as (p1 & l1 & Ha1 & H1).
  destruct (alone_step _ _ _ _ _ _ Ha1 Hl) as (p2 & l2 & Hm & Ha2); [by inversion Hlb|].
  exists p2, l2. split; [done|]. intros fuel l' Hl'. destruct (move_leads _ _ _ _ _ _ Hm Hl') as [f Hf]. by eapply H1.
Qed.
(** An execution without arrivals that brings the handler to [p'] and [l']. *)
Definition goes (h : nat) s p' l' : Prop :=
  exists tr s', steps s tr s' /\ Forall no_arrival tr /\ alone h p' l' s'.

Lemma goes_step h s lb s1 p' l' : step s lb s1 -> no_arrival lb -> goes h s1 p' l' -> goes h s p' l'.
Proof.
  intros Hs Hlb (tr & s' & Hst & Htr & Ha). exists (lb :: tr), s'.
  split; [by apply (steps_app s [lb] s1); [apply steps_one|]|]. split; [by constructor|done].
Qed.

Lemma goes_run h jid l l1 s p' l' :
  alone h (HWait jid) l s -> worker_run l = (Ret tt, l1) ->
  (forall s1, alone h (HTail jid) l1 s1 -> goes h s1 p' l') -> goes h s p' l'.
Proof.
  intros Ha Hr Hk.
  assert (forall s0, alone h (HWait jid) l s0 -> worker s0 = Some h -> goes h s0 p' l') as Hrun.
  { intros s0 Ha0 Hw. eapply (goes_step _ _ (LRun h)); [|done|by eapply Hk, alone_run].
    eapply (step_run _ _ (l_job l)); [done|by rewrite (alone_job _ _ _ _ Ha0), lookup_singleton_eq
      |by rewrite (alone_pc _ _ _ _ Ha0), lookup_singleton_eq|by rewrite (alone_local _ _ _ _ Ha0)]. }
  pose proof (alone_waiting _ _ _ _ Ha) as Hq. unfold waiting in Hq. destruct (worker s) as [h'|] eqn:Hw; cbn in Hq.
  - injection Hq as -> _. by apply Hrun.
  - pose proof (dequeue_refines (queue s)) as Hd. rewrite Hq in Hd. destruct Hd as (q & Hd & _).
    eapply (goes_step _ _ (LDequeue h)); [by eapply step_dequeue|done|]. apply Hrun; [by apply alone_dequeue|done].
Qed.

(** The composition gives an execution: a turn of the loop ... *)
Lemma goes_turn h fuel l' :
  (forall l s, alone h HHead l s -> leads fuel HHead l l' -> goes h s HDone l') ->
  forall l s, alone h HHead l s -> leads (S fuel) HHead l l' -> goes h s HDone l'.
Proof.
  intros IH l s Ha Hl. destruct (head_seg_total l) as (p & l1 & Hh). apply (rest_head _ _ _ _ _ Hh) in Hl.
  eapply (goes_step _ _ (LHead h) (set_local s h l1 p)); [|done|].
  { eapply (step_head _ _ (l_job l)); [by rewrite (alone_pc _ _ _ _ Ha), lookup_singleton_eq
      |by rewrite (alone_job _ _ _ _ Ha), lookup_singleton_eq|by rewrite (alone_local _ _ _ _ Ha)]. }
  pose proof (alone_set _ _ _ _ l1 p Ha ltac:(done) (head_seg_pc _ _ _ Hh)) as Ha1.
  set (s1 := set_local s h l1 p) in *. clearbody s1.
  assert (Hcase : p = HDone \/ exists jid, p = HSend jid).
  { rewrite head_seg_eq in Hh. destruct (handle_head l) as [[[jid|]|m] l2]; injection Hh as <- <-; eauto. }
  destruct Hcase as [->|[jid ->]]; [cbn in Hl; subst; by exists [], s1; split; [constructor|]|].
  eapply (goes_step _ _ (LEnqueue h)); [|done|].
  { eapply step_enqueue; [by rewrite (alone_pc _ _ _ _ Ha1), lookup_singleton_eq|by apply Ha1|].
    rewrite (alone_space _ _ _ _ Ha1) by done. pose proof (alone_cap _ _ _ _ Ha1). lia. }
  apply alone_enqueue in Ha1. change (leads fuel (HWait jid) l1 l') in Hl.
  destruct (worker_run_total l1) as [l2 Hr]. apply (rest_run _ _ _ _ _ Hr) in Hl.
  eapply goes_run; [done|done|]. intros s2 Ha2.
  destruct (tail_seg_total jid l2) as (p & l3 & Ht). apply (rest_tail _ _ _ _ _ _ Ht) in Hl.
  eapply (goes_step _ _ (LTail h)); [|done|].
  { eapply (step_tail _ _ (l_job l2)); [by rewrite (alone_pc _ _ _ _ Ha2), lookup_singleton_eq
      |by rewrite (alone_job _ _ _ _ Ha2), lookup_singleton_eq|by rewrite (alone_local _ _ _ _ Ha2)]. }
  pose proof (alone_set _ _ _ _ l3 p Ha2 ltac:(done) (tail_seg_pc _ _ _ _ Ht)) as Ha3.
  rewrite tail_seg_eq in Ht. destruct (handle_tail jid l2) as [[[]|m] l4]; injection Ht as <- <-; [by eapply IH| |];
    cbn in Hl; subst; (eexists [], _; split; [constructor|done]).
Qed.

(** ... and the whole loop. *)
Lemma leads_goes h fuel l l' s : alone h HHead l s -> leads fuel HHead l l' -> goes h s HDone l'.
Proof.
  revert l s. induction fuel as [|fuel IH]; [by intros l s _ [=]|]. by apply goes_turn.
Qed.

(** C15: A job that has the scheduler for itself.  After a job has been handed
    to a scheduler that has just started, the executions of the concurrent
    system that bring its handler to the end without a further job are exactly
    the runs of [HandleJob]: same final job, same history, same effects on
    database and services.  What is proved of the composition of handler and
    worker therefore holds of the goroutines. *)
Theorem handler_alone_equivalent (w : W) threshold cap h s0 j l' :
  1 <= cap -> step (Scheduler_Setup w threshold cap) (LSpawn h) s0 -> job_of s0 !! h = Some j ->
  (exists fuel, HandleJob fuel ((w, j), ∅) = (Ret true, l')) <->
  (exists tr s, steps s0 tr s /\ Forall no_arrival tr /\ pc_of s !! h = Some HDone /\
     world s = l_world l' /\ job_of s !! h = Some (l_job l') /\ history s = l_hist l').
Proof.
  intros Hcap Hsp Hj.
  assert (alone h HHead ((w, j), ∅) s0) as Ha.
  { inversion Hsp; subst. cbn in Hj. rewrite insert_empty in Hj. apply lookup_singleton_Some in Hj as [_ ->].
    constructor; try done. unfold waiting. cbn. by rewrite items_new. }
  split.
  - intros [fuel Hf]. destruct (leads_goes _ fuel _ l' _ Ha Hf) as (tr & s & Hst & Htr & [Hw Hh Hjo Hp _ _ _]).
    exists tr, s. rewrite Hp, Hjo, !lookup_singleton_eq. done.
  - intros (tr & s & Hst & Htr & Hp & Hw & Hjo & Hh). destruct (alone_steps _ _ _ _ _ Ha Hst Htr) as (p1 & l1 & Ha1 & H1).
    destruct (alone_at _ _ _ _ _ _ Ha1 Hp) as [_ <-]. apply (H1 0%nat l'). cbn.
    rewrite <- (alone_local _ _ _ _ Ha1), Hw, <- (alone_job_at _ _ _ _ _ _ Ha1 Hjo), Hh. by destruct l' as [[w' j'] hist].
Qed.
End alone.

(** ** Instance *)

Module AloneExample.
Import SchedExample SchedLaws.

Definition first : Sys World NormalJob (list nat) :=
  mkSys start ∅ {[0%nat := job "a"]} {[0%nat := HHead]} (Queue_Setup 1 5) true None.
Definition final : Local World NormalJob := (HandleJob 2 fresh).2.

Lemma handed_over : step (init 5) (LSpawn 0) first.
Proof. exact (step_spawn (init 5) 0 (job "a") eq_refl eq_refl). Qed.
End AloneExample.

Lemma handler_alone_equivalent_witness :
  exists tr s, steps AloneExample.first tr s /\ Forall no_arrival tr /\
    (fun j => JobStatus (jd j)) <$> (job_of s !! 0%nat) = Some SUCCEEDED.
Proof.
  destruct (proj1 (handler_alone_equivalent SchedExample.start 1 5 0 AloneExample.first (SchedExample.job "a")
    AloneExample.final ltac:(lia) AloneExample.handed_over eq_refl)) as (tr & s & Hst & Htr & _ & _ & Hj & _).
  - exists 2%nat. vm_compute. reflexivity.
  - exists tr, s. split; [exact Hst|]. split; [exact Htr|]. rewrite Hj. vm_compute. reflexivity.
Defined.
