(* ===== verification/Poller.v ===== *)
(** * Package poller: the poller task (poller/poller.go)

    The poller asks the cloud for jobs while the queue and the device can take
    them, hands them to the scheduler, and slows down after failures.  The
    scheduler and the poll client are interfaces over the world [W]. *)

From stdpp Require Import base gmap strings list fin_maps.
From Stdlib Require Import ZArith Lia Ascii.
From S2P Require Import Prelude GoString Core Job Setting.

(** ** time.ParseDuration

    An optional sign, then numbers with an optional fraction and a unit; values
    in nanoseconds, every overflow an error.  The fraction goes through [float64]; that product is a
    parameter. *)
Class FractionScale := fraction_value : Z -> Z -> nat -> Z.

(** The leading digits; [None] is an overflow of [1<<63]. *)
Fixpoint leadingInt (s : string) (x : Z) : option (Z * string) :=
  match s with
  | String c s' =>
      if is_digit c then
        if 2 ^ 63 / 10 <? x then None
        else let x := x * 10 + digit_value c in
             if 2 ^ 63 <? x then None else leadingInt s' x
      else Some (x, s)
  | EmptyString => Some (x, s)
  end.

(** The fraction digits that fit, how many they are, and the rest. *)
Fixpoint leadingFraction (s : string) (x : Z) (digits : nat) (overflow : bool) : Z * nat * string :=
  match s with
  | String c s' =>
      if is_digit c then
        if overflow then leadingFraction s' x digits true
        else if (2 ^ 63 - 1) / 10 <? x then leadingFraction s' x digits true
        else let y := x * 10 + digit_value c in
             if 2 ^ 63 <? y then leadingFraction s' x digits true
             else leadingFraction s' y (S digits) false
      else (x, digits, s)
  | EmptyString => (x, digits, s)
  end.

Fixpoint span_unit (s : string) : string * string :=
  match s with
  | String c s' =>
      if Ascii.eqb c "."%char || is_digit c then ("", s)
      else let '(u, r) := span_unit s' in (String c u, r)
  | EmptyString => ("", "")
  end.

Definition unitMap (u : string) : option Z :=
  if String.eqb u "ns" then Some 1
  else if String.eqb u "us" || String.eqb u (byte_string [194; 181]%N +:+ "s")
          || String.eqb u (byte_string [206; 188]%N +:+ "s") then Some (10 ^ 3)
  else if String.eqb u "ms" then Some (10 ^ 6)
  else if String.eqb u "s" then Some (10 ^ 9)
  else if String.eqb u "m" then Some (60 * 10 ^ 9)
  else if String.eqb u "h" then Some (3600 * 10 ^ 9)
  else None.

Section duration.
Context {FS : FractionScale}.

(** One turn of the loop: the value of the leading number with its unit. *)
Definition duration_item (s : string) : option (Z * string) :=
  match s with
  | EmptyString => None
  | String c _ =>
      if negb (Ascii.eqb c "."%char || is_digit c) then None
      else
        match leadingInt s 0 with
        | None => None
        | Some (v, s1) =>
            let pre := negb (len s =? len s1) in
            let '(f, digits, s2, post) :=
              match s1 with
              | String c1 s1' =>
                  if Ascii.eqb c1 "."%char then
                    let '(f, digits, s2) := leadingFraction s1' 0 0 false in
                    (f, digits, s2, negb (len s1' =? len s2))
                  else (0, O, s1, false)
              | EmptyString => (0, O, s1, false)
              end in
            if negb pre && negb post then None
            else
              let '(u, s3) := span_unit s2 in
              if bool_decide (u = "") then None
              else
                match unitMap u with
                | None => None
                | Some unit =>
                    if 2 ^ 63 / unit <? v then None
                    else
                      let v := v * unit in
                      let v := if 0 <? f then v + fraction_value f unit digits else v in
                      if (0 <? f) && (2 ^ 63 <? v) then None else Some (v, s3)
                end
        end
  end.

(** The loop; every turn consumes at least one byte. *)
Fixpoint duration_loop (fuel : nat) (s : string) (d : Z) : option Z :=
  match s with
  | EmptyString => Some d
  | String _ _ =>
      match fuel with
      | O => None
      | S f =>
          match duration_item s with
          | None => None
          | Some (v, s') => let d := d + v in if 2 ^ 63 <? d then None else duration_loop f s' d
          end
      end
  end.

(** [time.ParseDuration]; [None] stands for (0, error). *)
Definition ParseDuration (s : string) : option Z :=
  let '(neg, s) :=
    match s with
    | String c s' => if Ascii.eqb c "-"%char then (true, s') else if Ascii.eqb c "+"%char then (false, s') else (false, s)
    | EmptyString => (false, s)
    end in
  if String.eqb s "0" then Some 0
  else if String.eqb s "" then None
  else
    match duration_loop (String.length s) s 0 with
    | None => None
    | Some d => if neg then Some (- d) else if 2 ^ 63 - 1 <? d then None else Some d
    end.
End duration.

(** ** The poller *)

Inductive state := POLLING | SUB_IDLE | IDLE.
#[global] Instance state_eq_dec : EqDecision state.
Proof. solve_decision. Defined.

Definition state_String (s : state) : string :=
  match s with POLLING => "POLLING" | SUB_IDLE => "SUB_IDLE" | IDLE => "IDLE" end.

Definition Second : Z := 10 ^ 9.

Record PollerConf := mkPollerConf {
  Device : string; Edge : string; Count : Z; NormalPeriod : Z; IdlePeriod : Z; MaxRetry : Z;
  Region : string; Endpoint : string; AccessKey : string; SecretKey : string; SessionToken : string;
  APIKey : string; EnableTestMode : bool
}.

Record Poller := mkPoller {
  conf : PollerConf;
  currentPeriod : Z;
  noJobsCount : Z;
  pstate : state
}.

(** The generic [setField]: the value must have exactly the field's type. *)
Definition setField {T} (assert : Dyn -> option T) (key : string) (pp : gmap string Dyn) (defaultVal : T) : outcome T :=
  match pp !! key with
  | Some v =>
      if negb (IsZero v) then
        match assert v with
        | Some t => Ret t
        | None => Panic "interface conversion"
        end
      else Ret defaultVal
  | None => Ret defaultVal
  end.

Definition dyn_string (v : Dyn) : option string := match v with DString s => Some s | _ => None end.
Definition dyn_int (v : Dyn) : option Z := match v with DInt z => Some z | _ => None end.
Definition dyn_bool (v : Dyn) : option bool := match v with DBool b => Some b | _ => None end.

(** A duration that does not parse is logged and the field becomes 0. *)
Definition setDurationField {FS : FractionScale} (key : string) (pp : gmap string Dyn) (defaultVal : Z) : outcome Z :=
  match pp !! key with
  | Some v =>
      if negb (IsZero v) then
        match dyn_string v with
        | Some s => Ret (default 0 (ParseDuration s))
        | None => Panic "interface conversion"
        end
      else Ret defaultVal
  | None => Ret defaultVal
  end.

(** [params] is nil, a map, or something else. *)
Definition SetParams {FS : FractionScale} {FV : FormatV} (params : option Dyn) (c : PollerConf) : outcome (PollerConf * option error) :=
  match params with
  | None => Ret (c, None)
  | Some (DMap l) =>
      let pp := list_to_map l in
      let? device := setField dyn_string "device" pp "dummy_device" in
      let? edge := setField dyn_string "edge" pp "dummy_edge" in
      let? count := setField dyn_int "count" pp 10 in
      let? max_retry := setField dyn_int "max_retry" pp 3 in
      let? region := setField dyn_string "region" pp "ap-northeast-1" in
      let? endpoint := setField dyn_string "endpoint" pp "localhost:8080" in
      let? access_key := setField dyn_string "access_key" pp "hogehoge" in
      let? secret_key := setField dyn_string "secret_key" pp "fugafuga" in
      let? api_key := setField dyn_string "api_key" pp "DefaultAPIKey" in
      let? session_token := setField dyn_string "session_token" pp "" in
      let? enable_test_mode := setField dyn_bool "enable_test_mode" pp false in
      let? normal_period := setDurationField "normal_period" pp (10 * Second) in
      let? idle_period := setDurationField "idle_period" pp (10 * Second) in
      Ret (mkPollerConf device edge count normal_period idle_period max_retry region endpoint access_key
             secret_key session_token api_key enable_test_mode, None)
  | Some v => Ret (c, Some ("failed to set params for poller/params: " +:+ format_v v))
  end.

Definition RequirePeriodUpdate (p : Poller) : bool * Z := (true, currentPeriod p).

(** [Setup]; the poll client it makes is part of the world. *)
Definition Poller_Setup (newClient : PollerConf -> option error) (c : PollerConf) (p : Poller)
    : option error * Poller :=
  match newClient c with
  | Some e => (Some e, p)
  | None => (None, mkPoller c (NormalPeriod c) 0 POLLING)
  end.

Class IScheduler (W J : Type) := {
  Sched_HandleJob : J -> W -> W;
  Sched_GetCurrentQueueSize : W -> Z;
  Sched_IsOverRefillThreshold : W -> bool
}.

Class IPollClient (W J : Type) := request : W -> (list J + error) * W.

Section task.
Context {W J : Type} `{HSch : IScheduler W J} `{HPc : IPollClient W J} `{HQ : IQPUManager W}.

Definition passPollingCondition (w : W) : outcome (option error) :=
  if Sched_IsOverRefillThreshold w then
    Ret (Some ("queue size is over refill-threshold. current queue size:"
               +:+ FormatInt (Sched_GetCurrentQueueSize w)))
  else
    match QPU_GetDeviceInfo w with
    | None => Panic nil_pointer
    | Some di =>
        if bool_decide (DI_Status di = Available) then Ret None
        else Ret (Some ("device is not available. current status:" +:+ DeviceStatus_String (DI_Status di)))
    end.

Definition getJobs : M W (Z + error) :=
  let! w := get in
  let! cond := lift (passPollingCondition w) in
  match cond with
  | Some e => ret (inr e)
  | None =>
      let '(r, w') := request w in
      put w' ;;!
      match r with
      | inr e => ret (inr e)
      | inl jobs =>
          mfor (fun job => modify (Sched_HandleJob job)) jobs ;;!
          ret (inl (Z.of_nat (length jobs)))
      end
  end.

(** The switch of [Task]: [got] is false on an error or when there were no
    jobs. *)
Definition transition (got : bool) (p : Poller) : Poller :=
  if negb got then
    match pstate p with
    | POLLING => mkPoller (conf p) (currentPeriod p) 1 SUB_IDLE
    | SUB_IDLE =>
        let n := i64 (noJobsCount p + 1) in
        if n <? MaxRetry (conf p) then mkPoller (conf p) (currentPeriod p) n SUB_IDLE
        else mkPoller (conf p) (IdlePeriod (conf p)) 0 IDLE
    | IDLE => p
    end
  else
    match pstate p with
    | POLLING => p
    | SUB_IDLE => mkPoller (conf p) (currentPeriod p) 0 POLLING
    | IDLE => mkPoller (conf p) (NormalPeriod (conf p)) 0 POLLING
    end.

Definition Task : M (W * Poller) unit :=
  let! jobsNum := (fun s : W * Poller => let '(r, w) := getJobs s.1 in (r, (w, s.2))) in
  let got := match jobsNum with inl n => negb (n =? 0) | inr _ => false end in
  modify (fun s => (s.1, transition got s.2)).
End task.

(** ** The state machine *)

(** The polls without jobs since the last one with jobs, in a history that
    ends with the latest poll. *)
Definition failures (l : list bool) : nat :=
  foldl (fun n got => if (got : bool) then O else S n) O l.

(** The poller after [k] such polls. *)
Definition after_failures (c : PollerConf) (k : nat) : Poller :=
  if (k =? 0)%nat then mkPoller c (NormalPeriod c) 0 POLLING
  else if Z.of_nat k <? Z.max 2 (MaxRetry c) then mkPoller c (NormalPeriod c) (Z.of_nat k) SUB_IDLE
  else mkPoller c (IdlePeriod c) 0 IDLE.

Lemma transition_got c k : transition true (after_failures c k) = after_failures c 0.
Proof.
  unfold after_failures. destruct (k =? 0)%nat; [done|]. by destruct (_ <? _).
Qed.

Lemma transition_failed c k :
  in_i64 (MaxRetry c) -> transition false (after_failures c k) = after_failures c (S k).
Proof.
  intros Hm. unfold after_failures. cbn [Nat.eqb]. destruct (Nat.eqb_spec k 0) as [->|Hk].
  - rewrite (proj2 (Z.ltb_lt _ _)) by lia. done.
  - destruct (Z.ltb_spec (Z.of_nat k) (Z.max 2 (MaxRetry c))) as [H|H].
    + unfold transition. cbn [negb pstate noJobsCount conf currentPeriod].
      unfold in_i64 in Hm. rewrite i64_small by (unfold in_i64; lia).
      replace (Z.of_nat (S k)) with (Z.of_nat k + 1) by lia.
      destruct (Z.ltb_spec (Z.of_nat k + 1) (MaxRetry c)).
      * by rewrite (proj2 (Z.ltb_lt _ _)) by lia.
      * by rewrite (proj2 (Z.ltb_ge _ _)) by lia.
    + rewrite (proj2 (Z.ltb_ge (Z.of_nat (S k)) _)) by lia. done.
Qed.

Lemma transitions_spec c l k :
  in_i64 (MaxRetry c) ->
  foldl (fun p got => transition got p) (after_failures c k) l =
  after_failures c (foldl (fun n got => if (got : bool) then O else S n) k l).
Proof.
  intros Hm. revert k. induction l as [|[] l IH]; intros k; cbn [foldl]; [done| |].
  - by rewrite transition_got, IH.
  - by rewrite transition_failed, IH.
Qed.

(** C36: the poller slows down after failures and recovers at once.  From the
    state [Setup] leaves, after any history of polls the poller is determined by
    the number [k] of polls without jobs since the last one with jobs: it polls
    when [k = 0], retries at the normal period with the count [k] while [k] is
    below the larger of 2 and the retry limit, and is idle at the idle period
    from then on. *)
Theorem poller_state_by_failures c newClient p0 p l :
  in_i64 (MaxRetry c) -> Poller_Setup newClient c p0 = (None, p) ->
  foldl (fun p got => transition got p) p l = after_failures c (failures l).
Proof.
  intros Hm Hs. unfold Poller_Setup in Hs. destruct (newClient c); [done|]. injection Hs as <-.
  exact (transitions_spec c l 0 Hm).
Qed.

Section handing_over.
Context {W J : Type} `{HSch : IScheduler W J} `{HPc : IPollClient W J} `{HQ : IQPUManager W}.

Lemma passPollingCondition_None (w : W) :
  passPollingCondition w = Ret None <->
  Sched_IsOverRefillThreshold w = false /\
  exists di, QPU_GetDeviceInfo w = Some di /\ DI_Status di = Available.
Proof.
  unfold passPollingCondition. destruct (Sched_IsOverRefillThreshold w).
  { split; [done|]. by intros [? _]. }
  destruct (QPU_GetDeviceInfo w) as [di|]; [|split; [done|]; by intros (_ & di & ? & _)].
  case_bool_decide as Hs; [split; eauto|]. split; [done|]. by intros (_ & di' & [= <-] & ?).
Qed.

Lemma mfor_modify (f : J -> W -> W) l w :
  mfor (fun j => modify (f j)) l w = (Ret tt, foldl (fun w j => f j w) w l).
Proof. revert w. induction l as [|j l IH]; intros w; [done|]. cbn. unfold bind, modify at 1. apply IH. Qed.

(** The poller asks for jobs only when they can be taken, and hands on all
    it gets.  If the queue is below its threshold and the device is available,
    one request is made and every job of its answer is handed to the scheduler,
    in order; in all other cases nothing is requested, the world is unchanged
    and the poll counts as one without jobs. *)
Theorem poll_hands_over_all (w : W) (p : Poller) :
  (Sched_IsOverRefillThreshold w = false /\
   (exists di, QPU_GetDeviceInfo w = Some di /\ DI_Status di = Available) /\
   match request w with
   | (inr e, w1) => Task (w, p) = (Ret tt, (w1, transition false p))
   | (inl jobs, w1) =>
       Task (w, p) = (Ret tt, (foldl (fun w j => Sched_HandleJob j w) w1 jobs,
                               transition (negb (Z.of_nat (length jobs) =? 0)) p))
   end) \/
  ((Sched_IsOverRefillThreshold w = true \/
    exists di, QPU_GetDeviceInfo w = Some di /\ DI_Status di <> Available) /\
   Task (w, p) = (Ret tt, (w, transition false p))) \/
  (Sched_IsOverRefillThreshold w = false /\ QPU_GetDeviceInfo w = None /\
   Task (w, p) = (Panic nil_pointer, (w, p))).
Proof.
  unfold Task, getJobs, bind, get, put, lift, ret. cbn [fst snd].
  destruct (passPollingCondition w) as [[e|]|m] eqn:E.
  - right; left. split; [|done]. unfold passPollingCondition in E.
    destruct (Sched_IsOverRefillThreshold w); [by left|right].
    destruct (QPU_GetDeviceInfo w) as [di|]; [|done]. exists di. split; [done|]. by case_bool_decide.
  - left. apply passPollingCondition_None in E as [H1 H2]. split; [done|]. split; [done|].
    destruct (request w) as [[jobs|e] w1]; [|done]. rewrite mfor_modify. done.
  - right; right. unfold passPollingCondition in E. destruct (Sched_IsOverRefillThreshold w); [done|].
    destruct (QPU_GetDeviceInfo w) as [di|]; [by case_bool_decide|]. by injection E as <-.
Qed.
End handing_over.

(** ** Parameters *)

Lemma setField_int64 key pp d z :
  pp !! key = Some (DInt64 z) -> z <> 0 -> setField dyn_int key pp d = Panic "interface conversion".
Proof. intros H Hz. unfold setField. rewrite H. cbn. by rewrite (proj2 (Z.eqb_neq _ _)). Qed.

(** An integer of dynamic type int64, as the settings decoder produces, is
    not accepted for "count" or "max_retry": whatever the other parameters are,
    [SetParams] panics. *)
Theorem set_params_rejects_int64 {FS : FractionScale} {FV : FormatV} l c key z :
  key = "count" \/ key = "max_retry" ->
  (list_to_map l : gmap string Dyn) !! key = Some (DInt64 z) -> z <> 0 ->
  exists m, SetParams (Some (DMap l)) c = Panic m.
Proof.
  intros Hk Hl Hz. cbn. generalize dependent (list_to_map l : gmap string Dyn). intros pp Hl.
  destruct (setField dyn_string "device" pp "dummy_device") as [dv|m]; cbn; [|eauto].
  destruct (setField dyn_string "edge" pp "dummy_edge") as [ed|m]; cbn; [|eauto].
  destruct Hk as [->| ->].
  - rewrite (setField_int64 "count" pp 10 z) by done. cbn. eauto.
  - destruct (setField dyn_int "count" pp 10) as [ct|m]; cbn; [|eauto].
    rewrite (setField_int64 "max_retry" pp 3 z) by done. cbn. eauto.
Qed.

(** ** Instances *)

Module PollerExample.
Definition c : PollerConf :=
  mkPollerConf "d" "e" 10 (10 * Second) (60 * Second) 3 "" "" "" "" "" "" false.
Definition blank : Poller := mkPoller c 0 0 IDLE.
#[local] Instance fractions : FractionScale := fun f unit digits => f * unit / 10 ^ Z.of_nat digits.
#[local] Instance format : FormatV := fun _ => "".
End PollerExample.

Lemma poller_state_by_failures_witness :
  pstate (after_failures PollerExample.c 3) = IDLE /\
  foldl (fun p got => transition got p) (after_failures PollerExample.c 0) [false; true; false; false]
    = after_failures PollerExample.c 2.
Proof.
  split; [reflexivity|].
  apply (poller_state_by_failures PollerExample.c (fun _ => None) PollerExample.blank _
           [false; true; false; false]); [unfold in_i64; cbn; lia|reflexivity].
Defined.

Lemma set_params_rejects_int64_witness :
  exists m, @SetParams PollerExample.fractions PollerExample.format (Some (DMap [("count", DInt64 5)])) PollerExample.c = Panic m.
Proof.
  apply (@set_params_rejects_int64 PollerExample.fractions PollerExample.format [("count", DInt64 5)] PollerExample.c "count" 5);
    [by left|vm_compute; reflexivity|lia].
Defined.
