(* ===== verification/Run.v ===== *)
(** * Run groups (core/run.go)

    The periodic tasks and servers of the engine, as the settings file names
    them: each gets its implementation, its parameters and its place in the
    run group.  Implementations are shared objects: [I] are references to them,
    their state is part of the world.  Reading and decoding the file are
    arguments; the run group of the third-party package is the list of its
    actors. *)

From stdpp Require Import base gmap strings list fin_maps.
From Stdlib Require Import ZArith Lia.
From S2P Require Import Prelude GoString Core Setting Job Poller.

Definition PERIODIC_TASKS : string := "periodic_tasks".
Definition INTERNAL_JOB_SERVERS : string := "internal_job_servers".
Definition API_SERVERS : string := "api_servers".

(** ** Implementations *)

Class RunnerImpl (W I : Type) := {
  impl_SetParams : I -> option Dyn -> M W (option error);
  impl_Setup : I -> M W (option error)
}.

Class PeriodicTaskImpl (W I : Type) := {
  task_RequirePeriodUpdate : I -> W -> bool * Z;
  task_Task : I -> M W unit;
  task_Cleanup : I -> M W unit
}.

Class InternalJobServerImpl (W I J : Type) := {
  server_Start : I -> M W (option error);
  server_Cleanup : I -> M W unit;
  server_Handle : I -> J -> M W (option error)
}.

Class APIServerImpl (W I : Type) := {
  api_Serve : I -> M W (option error);
  api_Shutdown : I -> M W unit
}.

(** [DefaultTaskImpl]: does nothing. *)
Definition DefaultTaskImpl_Setup {W} : M W (option error) := ret None.
Definition DefaultTaskImpl_SetParams {W} (p : option Dyn) : M W (option error) := ret None.
Definition DefaultTaskImpl_RequirePeriodUpdate : bool * Z := (false, 0).
Definition DefaultTaskImpl_Task {W} : M W unit := ret tt.
Definition DefaultTaskImpl_Cleanup {W} : M W unit := ret tt.

(** ** Runners *)

(** The embedded implementation is an interface; [None] is nil. *)
Record PeriodicTask (I : Type) := mkPeriodicTask { Period : Z; PT_Params : option Dyn; PT_Impl : option I }.
Record InternalJobServer (I : Type) := mkInternalJobServer { IS_Params : option Dyn; IS_Impl : option I }.
Record APIServer (I : Type) := mkAPIServer { AS_Params : option Dyn; AS_Impl : option I }.
Arguments mkPeriodicTask {I}. Arguments Period {I}. Arguments PT_Params {I}. Arguments PT_Impl {I}.
Arguments mkInternalJobServer {I}. Arguments IS_Params {I}. Arguments IS_Impl {I}.
Arguments mkAPIServer {I}. Arguments AS_Params {I}. Arguments AS_Impl {I}.

(** The type parameter [R Runner] of the generic functions; [newRunner] builds
    a runner around its implementation. *)
Class Runner (R : Type -> Type) := {
  GetParams : forall {I}, R I -> option Dyn;
  runner_impl : forall {I}, R I -> option I;
  set_impl : forall {I}, option I -> R I -> R I;
  newRunner : forall {I}, I -> R I
}.
#[global] Instance PeriodicTask_runner : Runner PeriodicTask :=
  {| GetParams I t := PT_Params t; runner_impl I t := PT_Impl t;
     set_impl I i t := mkPeriodicTask (Period t) (PT_Params t) i;
     newRunner I i := mkPeriodicTask 0 None (Some i) |}.
#[global] Instance InternalJobServer_runner : Runner InternalJobServer :=
  {| GetParams I s := IS_Params s; runner_impl I s := IS_Impl s;
     set_impl I i s := mkInternalJobServer (IS_Params s) i;
     newRunner I i := mkInternalJobServer None (Some i) |}.
#[global] Instance APIServer_runner : Runner APIServer :=
  {| GetParams I s := AS_Params s; runner_impl I s := AS_Impl s;
     set_impl I i s := mkAPIServer (AS_Params s) i;
     newRunner I i := mkAPIServer None (Some i) |}.

(** The parameters an implementation starts with, and the constructors that are
    given an implementation; a nil one has no method to call. *)
Class EmptyParams (I : Type) := impl_GetEmptyParams : I -> option Dyn.

Definition NewInternalJobServer {I} {E : EmptyParams I} (impl : option I) : outcome (InternalJobServer I) :=
  match impl with
  | None => Panic nil_pointer
  | Some i => Ret (mkInternalJobServer (impl_GetEmptyParams i) impl)
  end.
Definition NewAPIServer {I} {E : EmptyParams I} (impl : option I) : outcome (APIServer I) :=
  match impl with
  | None => Panic nil_pointer
  | Some i => Ret (mkAPIServer (impl_GetEmptyParams i) impl)
  end.

(** [SetImpl]: the type assertion [impl.(InternalJobServerImpl)] on a value of
    any type. *)
Definition InternalJobServer_SetImpl {I X} (assert : X -> option I) (format_any : X -> string)
    (impl : X) : M (InternalJobServer I) (option error) :=
  match assert impl with
  | None => ret (Some ("Failed to cast to InternalJobServerImpl. Impl:" +:+ format_any impl))
  | Some ijs => (let! s := get in put (mkInternalJobServer (IS_Params s) (Some ijs))) ;;! ret None
  end.

(** A refused implementation leaves the server as it was; an accepted one
    replaces the old one and keeps the parameters. *)
Lemma set_impl_exact {I X} (assert : X -> option I) (format_any : X -> string) (impl : X) (s : InternalJobServer I) :
  match assert impl with
  | Some i => InternalJobServer_SetImpl assert format_any impl s = (Ret None, set_impl (Some i) s)
  | None => exists e, InternalJobServer_SetImpl assert format_any impl s = (Ret (Some e), s)
  end.
Proof. unfold InternalJobServer_SetImpl. destruct (assert impl); [done|]. by eexists. Qed.

Record ImplMaps (I : Type) := mkImplMaps {
  PeriodicTaskImplMap : gmap string I;
  InternalJobServerImplMap : gmap string I;
  APIServerImplMap : gmap string I
}.
Arguments mkImplMaps {I}. Arguments PeriodicTaskImplMap {I}.
Arguments InternalJobServerImplMap {I}. Arguments APIServerImplMap {I}.

Record RunGroupMaps (I : Type) := mkRunGroupMaps {
  PeriodicTasks : gmap string (PeriodicTask I);
  InternalJobServers : gmap string (InternalJobServer I);
  APIServers : gmap string (APIServer I)
}.
Arguments mkRunGroupMaps {I}. Arguments PeriodicTasks {I}.
Arguments InternalJobServers {I}. Arguments APIServers {I}.

Section settings.
Context {I : Type} {MR : MapRange} {FV : FormatV}.
(** The verb [%v] on a map of implementations. *)
Context (format_impls : gmap string I -> string).

Fixpoint parse_runners {R} `{Runner R} (names : list string) (implMap : gmap string I) (runnerMap : gmap string (R I))
    : gmap string (R I) + error :=
  match names with
  | [] => inl runnerMap
  | runnerName :: names' =>
      match implMap !! runnerName with
      | None => inr ("failed to find " +:+ runnerName +:+ " implementation from RunnerMap " +:+ format_impls implMap)
      | Some impl => parse_runners names' implMap (<[runnerName := newRunner impl]> runnerMap)
      end
  end.

Definition parseRunnerSettings {R} `{Runner R} (settings : gmap string Dyn) (implMap : gmap string I)
    : gmap string (R I) + error :=
  parse_runners (range settings).*1 implMap ∅.

(** The loop of [parseRunGroupSettings]; a group that is not a table panics. *)
Fixpoint parse_groups (l : list (string * Dyn)) (im : ImplMaps I) (rgm : RunGroupMaps I)
    : outcome (RunGroupMaps I + error) :=
  match l with
  | [] => Ret (inl rgm)
  | (group, value) :: l' =>
      let known := bool_decide (group = PERIODIC_TASKS) || bool_decide (group = INTERNAL_JOB_SERVERS)
                   || bool_decide (group = API_SERVERS) in
      if negb known then Ret (inr ("Unknown run group type. Group:" +:+ group +:+ ", Value:" +:+ format_v value))
      else
        match as_map (Some value) with
        | None => Panic "interface conversion"
        | Some settings =>
            if bool_decide (group = PERIODIC_TASKS) then
              match parseRunnerSettings settings (PeriodicTaskImplMap im) with
              | inr e => Ret (inr e)
              | inl ptm => parse_groups l' im (mkRunGroupMaps ptm (InternalJobServers rgm) (APIServers rgm))
              end
            else if bool_decide (group = INTERNAL_JOB_SERVERS) then
              match parseRunnerSettings settings (InternalJobServerImplMap im) with
              | inr e => Ret (inr e)
              | inl ijs => parse_groups l' im (mkRunGroupMaps (PeriodicTasks rgm) ijs (APIServers rgm))
              end
            else
              match parseRunnerSettings settings (APIServerImplMap im) with
              | inr e => Ret (inr e)
              | inl asm => parse_groups l' im (mkRunGroupMaps (PeriodicTasks rgm) (InternalJobServers rgm) asm)
              end
        end
  end.

Definition parseRunGroupSettings (settings : gmap string Dyn) (im : ImplMaps I) : outcome (RunGroupMaps I + error) :=
  parse_groups (range settings) im (mkRunGroupMaps ∅ ∅ ∅).
End settings.

(** ** The run context *)

(** The members of the run group, as [AddPeriodicTask], [AddInternalJobServer]
    and [AddAPIServer] add them. *)
Inductive actor (I : Type) :=
| PeriodicActor (t : PeriodicTask I) (taskName : string)
| InternalActor (s : InternalJobServer I) (serverName : string)
| APIActor (s : APIServer I) (serverName : string).
Arguments PeriodicActor {I}. Arguments InternalActor {I}. Arguments APIActor {I}.

Record RunContext (I : Type) := mkRunContext {
  Group : list (actor I);
  settingsPath : string;
  RC_RunGroupMaps : RunGroupMaps I
}.
Arguments mkRunContext {I}. Arguments Group {I}. Arguments settingsPath {I}. Arguments RC_RunGroupMaps {I}.

Definition NewRunContext {I} : RunContext I := mkRunContext [] "" (mkRunGroupMaps ∅ ∅ ∅).

Section context.
Context {W I : Type} `{HR : RunnerImpl W I} {MR : MapRange} {FV : FormatV} (format_impls : gmap string I -> string).

(** The methods of a nil implementation panic. *)
Definition call_impl {A} (i : option I) (f : I -> M W A) : M W A :=
  match i with Some i => f i | None => gopanic nil_pointer end.

(** A loop that ends at the first error. *)
Fixpoint each {A S} (body : A -> M S (option error)) (l : list A) : M S (option error) :=
  match l with
  | [] => ret None
  | x :: l' =>
      let! err := body x in
      match err with Some e => ret (Some e) | None => each body l' end
  end.

Definition setParametersToImpl {R} `{Runner R} (runners : gmap string (R I)) : M W (option error) :=
  each (fun nr => call_impl (runner_impl nr.2) (fun i => impl_SetParams i (GetParams nr.2))) (range runners).

(** On the world and the group: set-up, then [addFunc]. *)
Definition setupImplAndAddToRunContext {R} `{Runner R} (runners : gmap string (R I)) (addFunc : R I -> string -> actor I)
    : M (W * list (actor I)) (option error) :=
  each (fun nr s =>
          match call_impl (runner_impl nr.2) impl_Setup s.1 with
          | (Ret None, w) => (Ret None, (w, s.2 ++ [addFunc nr.2 nr.1]))
          | (r, w) => (r, (w, s.2))
          end) (range runners).

(** The decoder on the context: the entries of the file replace those of the
    same name, without their implementations. *)
Record DecodedGroups := mkDecodedGroups {
  dec_tasks : gmap string (Z * option Dyn);
  dec_servers : gmap string (option Dyn);
  dec_apis : gmap string (option Dyn)
}.

Definition decode_into (d : DecodedGroups) (m : RunGroupMaps I) : RunGroupMaps I :=
  mkRunGroupMaps
    (((fun p => mkPeriodicTask p.1 p.2 None) <$> dec_tasks d) ∪ PeriodicTasks m)
    (((fun p => mkInternalJobServer p None) <$> dec_servers d) ∪ InternalJobServers m)
    (((fun p => mkAPIServer p None) <$> dec_apis d) ∪ APIServers m).

(** Steps 3 and 5: the implementations by name, as they were before decoding. *)
Definition recover_impls {R} `{Runner R} (before after : gmap string (R I)) : gmap string (R I) :=
  map_imap (fun (name : string) (r : R I) =>
              Some (set_impl (match before !! name with Some b => runner_impl b | None => None end) r)) after.

Definition NewRunContextWithSettingPath (path : string) (file : string + error)
    (decode_settings : string -> gmap string Dyn + error) (decode_groups : string -> DecodedGroups + error)
    (im : ImplMaps I) : M W (RunContext I + error) :=
  match file with
  | inr e => ret (inr e)
  | inl tomlString =>
      match decode_settings tomlString with
      | inr e => ret (inr e)
      | inl entries =>
          let! r := lift (parseRunGroupSettings format_impls entries im) in
          match r with
          | inr e => ret (inr e)
          | inl before =>
              match decode_groups tomlString with
              | inr e => ret (inr e)
              | inl d =>
                  let after := decode_into d before in
                  let pts := recover_impls (PeriodicTasks before) (PeriodicTasks after) in
                  let ijs := recover_impls (InternalJobServers before) (InternalJobServers after) in
                  let asm := recover_impls (APIServers before) (APIServers after) in
                  let! err := setParametersToImpl pts in
                  match err with Some e => ret (inr e) | None =>
                  let! err := setParametersToImpl ijs in
                  match err with Some e => ret (inr e) | None =>
                  let! err := setParametersToImpl asm in
                  match err with Some e => ret (inr e) | None =>
                  fun w =>
                    match (let! err := setupImplAndAddToRunContext pts PeriodicActor in
                           match err with Some e => ret (Some e) | None =>
                           let! err := setupImplAndAddToRunContext ijs InternalActor in
                           match err with Some e => ret (Some e) | None =>
                           setupImplAndAddToRunContext asm APIActor end end) (w, []) with
                    | (Ret None, (w', group)) => (Ret (inl (mkRunContext group path (mkRunGroupMaps pts ijs asm))), w')
                    | (Ret (Some e), (w', _)) => (Ret (inr e), w')
                    | (Panic m, (w', _)) => (Panic m, w')
                    end
                  end end end
              end
          end
      end
  end.
End context.

(** ** The actors *)

(** The state of a periodic task's actor: the period of its ticker and the one
    it remembers. *)
Record TaskLoop := mkTaskLoop { ticker : Z; lastPeriod : Z }.

(** What wakes the loop of a periodic task. *)
Inductive wakeup := Tick | CtxDone.

Definition non_positive (what : string) : string := "non-positive interval for " +:+ what.

Section actors.
Context {W I : Type} `{HP : PeriodicTaskImpl W I}.

Definition on_impl {A} (c : M W A) : M (W * TaskLoop) A :=
  fun s => let '(r, w) := c s.1 in (r, (w, s.2)).

(** A tick: the task runs, and the ticker is reset when the task asks for
    another period than the last one. *)
Definition task_tick (i : I) : M (W * TaskLoop) unit :=
  on_impl (task_Task i) ;;!
  let! s := get in
  let '(ok, newPeriod) := task_RequirePeriodUpdate i s.1 in
  if ok && negb (newPeriod =? lastPeriod s.2) then
    if newPeriod <=? 0 then gopanic (non_positive "Ticker.Reset")
    else put (s.1, mkTaskLoop newPeriod newPeriod)
  else ret tt.

(** The loop on a history of wake-ups; [true]: it has returned. *)
Fixpoint task_loop (i : I) (l : list wakeup) : M (W * TaskLoop) bool :=
  match l with
  | [] => ret false
  | CtxDone :: _ => on_impl (task_Cleanup i) ;;! ret true
  | Tick :: l' => task_tick i ;;! task_loop i l'
  end.

(** The execute function [AddPeriodicTask] adds: the task runs once before the
    first tick. *)
Definition AddPeriodicTask_execute (t : PeriodicTask I) (l : list wakeup) : M W (bool * TaskLoop) :=
  if Period t <=? 0 then gopanic (non_positive "NewTicker")
  else
    match PT_Impl t with
    | None => gopanic nil_pointer
    | Some i =>
        fun w => match (on_impl (task_Task i) ;;! task_loop i l) (w, mkTaskLoop (Period t) (Period t)) with
                 | (Ret b, (w', tl)) => (Ret (b, tl), w')
                 | (Panic m, (w', _)) => (Panic m, w')
                 end
    end.
End actors.

(** ** The version log (log/version.go) *)

Definition VersionLogTaskName : string := "version_log".

(** The version of the engine is a global that no task changes; the world is
    the debug log. *)
Section version_log.
Context (Version : string).

Definition VersionLogTaskImpl_Task : M (list string) unit :=
  let! log := get in put (log ++ ["Edge version:" +:+ Version]).

#[local] Instance VersionLogTaskImpl : PeriodicTaskImpl (list string) unit :=
  {| task_RequirePeriodUpdate _ _ := DefaultTaskImpl_RequirePeriodUpdate;
     task_Task _ := VersionLogTaskImpl_Task;
     task_Cleanup _ := DefaultTaskImpl_Cleanup |}.

Lemma version_log_loop n log tl :
  task_loop tt (repeat Tick n) (log, tl) =
  (Ret false, (log ++ repeat ("Edge version:" +:+ Version) n, tl)).
Proof.
  revert log. induction n as [|n IH]; intros log; cbn [repeat]; [by rewrite app_nil_r|].
  change (task_loop tt (repeat Tick n) (log ++ ["Edge version:" +:+ Version], tl) =
          (Ret false, (log ++ ("Edge version:" +:+ Version) :: repeat ("Edge version:" +:+ Version) n, tl))).
  by rewrite IH, <- app_assoc.
Qed.

(** The version is logged once at the start and once for each tick, and the
    ticker keeps the period of the settings. *)
Lemma version_logged_each_tick period params n log :
  0 < period ->
  AddPeriodicTask_execute (mkPeriodicTask period params (Some tt)) (repeat Tick n) log =
  (Ret (false, mkTaskLoop period period), log ++ repeat ("Edge version:" +:+ Version) (S n)).
Proof.
  intros Hp. unfold AddPeriodicTask_execute. cbn [Period PT_Impl]. rewrite (proj2 (Z.leb_gt _ _)) by done.
  change (on_impl (task_Task tt) ;;! task_loop tt (repeat Tick n)) with
    (fun s : list string * TaskLoop =>
       task_loop tt (repeat Tick n) (s.1 ++ ["Edge version:" +:+ Version], s.2)).
  cbn [fst snd]. rewrite version_log_loop, <- app_assoc. done.
Qed.
End version_log.

Section servers.
Context {W I J : Type} `{HI : InternalJobServerImpl W I J} `{HA : APIServerImpl W I}.

(** The execute function of an internal job server, up to the end of its
    context. *)
Definition AddInternalJobServer_execute (s : InternalJobServer I) : M W (option error) :=
  match IS_Impl s with
  | None => gopanic nil_pointer
  | Some i =>
      let! err := server_Start i in
      match err with
      | Some e => ret (Some e)
      | None => server_Cleanup i ;;! ret None
      end
  end.

Definition AddAPIServer_execute (s : APIServer I) : M W (option error) :=
  match AS_Impl s with
  | None => gopanic nil_pointer
  | Some i => api_Serve i
  end.
Definition AddAPIServer_interrupt (s : APIServer I) : M W unit :=
  match AS_Impl s with
  | None => gopanic nil_pointer
  | Some i => api_Shutdown i
  end.
End servers.

(** ** The poller as a periodic task *)

Section poller_task.
Context {W J : Type} `{HSch : IScheduler W J} `{HPc : IPollClient W J} `{HQ : IQPUManager W}
  {FS : FractionScale} {FV : FormatV} (newClient : PollerConf -> option error).

(** One poller, which is part of the world. *)
Definition poller_SetParams (params : option Dyn) : M (W * Poller) (option error) :=
  let! s := get in
  let! r := lift (SetParams params (conf s.2)) in
  put (s.1, mkPoller r.1 (currentPeriod s.2) (noJobsCount s.2) (pstate s.2)) ;;! ret r.2.
Definition poller_Setup : M (W * Poller) (option error) :=
  let! s := get in
  let '(err, p) := Poller_Setup newClient (conf s.2) s.2 in
  put (s.1, p) ;;! ret err.

#[global] Instance Poller_runner : RunnerImpl (W * Poller) unit :=
  {| impl_SetParams _ := poller_SetParams; impl_Setup _ := poller_Setup |}.
#[global] Instance Poller_task : PeriodicTaskImpl (W * Poller) unit :=
  {| task_RequirePeriodUpdate _ s := RequirePeriodUpdate s.2; task_Task _ := Task; task_Cleanup _ := ret tt |}.
End poller_task.

(** ** What is in the run group *)

#[local] Arguments as_map : simpl never.

Section group_facts.
Context {W I : Type} `{HR : RunnerImpl W I} {MR : MapRange} {FV : FormatV} (format_impls : gmap string I -> string).

(** The runners of a map are those of registered implementations. *)
Definition registered {R} `{Runner R} (implMap : gmap string I) (m : gmap string (R I)) : Prop :=
  forall n r, m !! n = Some r -> exists i, implMap !! n = Some i /\ runner_impl r = Some i.

Class RunnerLaws (R : Type -> Type) `{Runner R} := {
  impl_new : forall {I} (i : I), runner_impl (newRunner i) = Some i;
  impl_set : forall {I} (o : option I) (r : R I), runner_impl (set_impl o r) = o
}.
#[global] Instance PeriodicTask_laws : RunnerLaws PeriodicTask.
Proof. by constructor. Qed.
#[global] Instance InternalJobServer_laws : RunnerLaws InternalJobServer.
Proof. by constructor. Qed.
#[global] Instance APIServer_laws : RunnerLaws APIServer.
Proof. by constructor. Qed.

Lemma parse_runners_registered {R} `{RunnerLaws R} names implMap (acc m : gmap string (R I)) :
  registered implMap acc -> parse_runners format_impls names implMap acc = inl m -> registered implMap m.
Proof.
  revert acc. induction names as [|n names IH]; intros acc Hacc; cbn; [by intros [= <-]|].
  destruct (implMap !! n) as [i|] eqn:E; [|done]. apply IH. intros n' r. rewrite lookup_insert_Some.
  intros [[<- <-]|[_ Hr]]; [|by apply Hacc]. exists i. split; [done|apply impl_new].
Qed.

Lemma registered_empty {R} `{Runner R} implMap : registered (R := R) implMap ∅.
Proof. intros n r. by rewrite lookup_empty. Qed.

Definition groups_registered (im : ImplMaps I) (m : RunGroupMaps I) : Prop :=
  registered (PeriodicTaskImplMap im) (PeriodicTasks m) /\
  registered (InternalJobServerImplMap im) (InternalJobServers m) /\
  registered (APIServerImplMap im) (APIServers m).

Lemma parse_groups_registered l im acc m :
  groups_registered im acc -> parse_groups format_impls l im acc = Ret (inl m) -> groups_registered im m.
Proof.
  revert acc. induction l as [|[group value] l IH]; intros acc Hacc; cbn; [by intros [= <-]|].
  destruct (negb _); [done|]. destruct (as_map (Some value)) as [settings|]; [|done].
  destruct Hacc as (H1 & H2 & H3). case_bool_decide; [|case_bool_decide].
  - destruct (parseRunnerSettings format_impls settings (PeriodicTaskImplMap im)) as [m'|e] eqn:E; [|done]. apply IH.
    split_and!; [|done..]. eapply parse_runners_registered; [|exact E]. apply registered_empty.
  - destruct (parseRunnerSettings format_impls settings (InternalJobServerImplMap im)) as [m'|e] eqn:E; [|done]. apply IH.
    split_and!; [done| |done]. eapply parse_runners_registered; [|exact E]. apply registered_empty.
  - destruct (parseRunnerSettings format_impls settings (APIServerImplMap im)) as [m'|e] eqn:E; [|done]. apply IH.
    split_and!; [done|done|]. eapply parse_runners_registered; [|exact E]. apply registered_empty.
Qed.

(** A completed set-up has added every runner, in the order of the loop, and
    every runner has an implementation. *)
Lemma setup_adds {R} `{Runner R} (runners : gmap string (R I)) add w g w' g' :
  setupImplAndAddToRunContext runners add (w, g) = (Ret None, (w', g')) ->
  g' = g ++ map (fun nr => add nr.2 nr.1) (range runners) /\
  (forall n r, runners !! n = Some r -> is_Some (runner_impl r)).
Proof.
  unfold setupImplAndAddToRunContext. intros Hrun.
  assert (g' = g ++ map (fun nr => add nr.2 nr.1) (range runners) /\
          Forall (fun nr => is_Some (runner_impl nr.2)) (range runners)) as [-> Hall].
  { revert w g Hrun. induction (range runners) as [|[n r] l IH]; intros w g; cbn.
    { intros [= <- <-]. by rewrite app_nil_r. }
    unfold bind. cbn. destruct (runner_impl r) as [i|] eqn:Ei; cbn; [|done].
    destruct (impl_Setup i w) as [[[e|]|m] w1]; cbn; [done| |done].
    intros Hrun. apply IH in Hrun as [-> Hall]. rewrite <- app_assoc. split; [done|]. constructor; [by exists i|done]. }
  split; [done|]. intros n r Hr. rewrite Forall_forall in Hall. apply (Hall (n, r)). by apply elem_of_range.
Qed.

Lemma recover_registered {R} `{RunnerLaws R} implMap (before after : gmap string (R I)) :
  registered implMap before ->
  (forall n r, recover_impls before after !! n = Some r -> is_Some (runner_impl r)) ->
  registered implMap (recover_impls before after).
Proof.
  intros Hb Hs n r Hr. destruct (Hs n r Hr) as [i Hi]. exists i. split; [|done]. revert Hr. unfold recover_impls.
  rewrite map_lookup_imap. destruct (after !! n) as [a|]; cbn; [|done]. intros [= <-]. rewrite impl_set in Hi.
  destruct (before !! n) as [b|] eqn:E; [|done]. apply Hb in E as (i' & Hi' & E). congruence.
Qed.

(** The group of a context that was made without error. *)
Lemma run_context_group path text decode_settings decode_groups im w rc w' :
  NewRunContextWithSettingPath format_impls path (inl text) decode_settings decode_groups im w = (Ret (inl rc), w') ->
  let maps := RC_RunGroupMaps rc in
  Group rc = map (fun nt => PeriodicActor nt.2 nt.1) (range (PeriodicTasks maps)) ++
             map (fun ns => InternalActor ns.2 ns.1) (range (InternalJobServers maps)) ++
             map (fun ns => APIActor ns.2 ns.1) (range (APIServers maps)) /\
  groups_registered im maps /\
  exists before d, decode_groups text = inl d /\
    PeriodicTasks maps = recover_impls (PeriodicTasks before) (PeriodicTasks (decode_into d before)).
Proof.
  unfold NewRunContextWithSettingPath. destruct (decode_settings text) as [entries|e]; [|done].
  unfold bind at 1, lift. destruct (parseRunGroupSettings format_impls entries im) as [[before|e]|m] eqn:Ep; [|done..].
  apply parse_groups_registered in Ep as (R1 & R2 & R3); [|split_and!; apply registered_empty].
  destruct (decode_groups text) as [d|e] eqn:Hd; [|done].
  cbn zeta. set (pts := recover_impls (PeriodicTasks before) _). set (ijs := recover_impls (InternalJobServers before) _).
  set (asm := recover_impls (APIServers before) _). unfold bind, ret.
  destruct (setParametersToImpl pts w) as [[[e|]|m] w1]; [done| |done].
  destruct (setParametersToImpl ijs w1) as [[[e|]|m] w2]; [done| |done].
  destruct (setParametersToImpl asm w2) as [[[e|]|m] w3]; [done| |done].
  destruct (setupImplAndAddToRunContext pts PeriodicActor (w3, [])) as [[[e|]|m] [w4 g1]] eqn:E1; [done| |done].
  destruct (setupImplAndAddToRunContext ijs InternalActor (w4, g1)) as [[[e|]|m] [w5 g2]] eqn:E2; [done| |done].
  destruct (setupImplAndAddToRunContext asm APIActor (w5, g2)) as [[[e|]|m] [w6 g3]] eqn:E3; [done| |done].
  intros [= <- <-]. cbn. apply setup_adds in E1 as [-> I1]. apply setup_adds in E2 as [-> I2]. apply setup_adds in E3 as [-> I3].
  split; [by rewrite app_assoc|]. split; [split_and!; by apply recover_registered|by exists before, d].
Qed.

(** A run context that was made without error runs what the file names.  Its
    group has one actor for each periodic task, internal job server and API
    server of its maps, tasks first and API servers last; every task has the
    period and the parameters the file gives it, and every runner has the
    implementation registered under its name. *)
Theorem run_context_actors path text decode_settings decode_groups im w rc w' d :
  decode_groups text = inl d ->
  NewRunContextWithSettingPath format_impls path (inl text) decode_settings decode_groups im w = (Ret (inl rc), w') ->
  let maps := RC_RunGroupMaps rc in
  Group rc = map (fun nt => PeriodicActor nt.2 nt.1) (range (PeriodicTasks maps)) ++
             map (fun ns => InternalActor ns.2 ns.1) (range (InternalJobServers maps)) ++
             map (fun ns => APIActor ns.2 ns.1) (range (APIServers maps)) /\
  groups_registered im maps /\
  (forall n p params, dec_tasks d !! n = Some (p, params) ->
     exists t, PeriodicTasks maps !! n = Some t /\ Period t = p /\ PT_Params t = params).
Proof.
  intros Hd Hrun maps. destruct (run_context_group _ _ _ _ _ _ _ _ Hrun) as (Hg & Hr & before & d' & Hd' & Hp).
  split; [exact Hg|]. split; [exact Hr|]. intros n p params Hn. fold maps in Hp.
  rewrite Hp. unfold recover_impls. rewrite map_lookup_imap. cbn. replace d' with d by congruence.
  erewrite lookup_union_Some_l by (rewrite lookup_fmap, Hn; reflexivity). cbn. eauto.
Qed.
End group_facts.

(** ** The period of the poller's ticker *)

Section ticking.
Context {W J : Type} `{HSch : IScheduler W J} `{HPc : IPollClient W J} `{HQ : IQPUManager W}.

(** A poll moves the state machine, or the device has no information. *)
Lemma Task_moves (w : W) p r w' p' :
  Task (w, p) = (r, (w', p')) ->
  match r with
  | Ret _ => exists got, p' = transition got p
  | Panic m => m = nil_pointer /\ QPU_GetDeviceInfo w = None
  end.
Proof.
  unfold Task, getJobs, passPollingCondition, bind, get, put, lift, ret. cbn [fst snd].
  destruct (Sched_IsOverRefillThreshold w); [intros [= <- <- <-]; by eexists|].
  destruct (QPU_GetDeviceInfo w) as [di|] eqn:E; [|by intros [= <- <- <-]].
  case_bool_decide; [|intros [= <- <- <-]; by eexists].
  destruct (request w) as [[jobs|e] w1]; [|intros [= <- <- <-]; by eexists].
  rewrite mfor_modify. intros [= <- <- <-]. by eexists.
Qed.

Definition step_failures (k : nat) (l : list bool) : nat := foldl (fun n got => if (got : bool) then O else S n) k l.

Lemma transition_after c k got :
  in_i64 (MaxRetry c) -> transition got (after_failures c k) = after_failures c (step_failures k [got]).
Proof. intros Hm. destruct got; [apply transition_got|by apply transition_failed]. Qed.

Lemma period_positive c k : 0 < NormalPeriod c -> 0 < IdlePeriod c -> 0 < currentPeriod (after_failures c k).
Proof. unfold after_failures. intros. destruct (k =? 0)%nat; [done|]. by destruct (_ <? _). Qed.

Lemma poller_ticks c n k tl w r w' p' tl' :
  in_i64 (MaxRetry c) -> 0 < NormalPeriod c -> 0 < IdlePeriod c -> ticker tl = lastPeriod tl ->
  task_loop tt (repeat Tick n) ((w, after_failures c k), tl) = (r, ((w', p'), tl')) ->
  match r with
  | Ret b => b = false /\ ticker tl' = lastPeriod tl' /\
      exists l, length l = n /\ p' = after_failures c (step_failures k l) /\
        (if n is O then tl' = tl else ticker tl' = currentPeriod p')
  | Panic m => m = nil_pointer
  end.
Proof.
  intros Hm HN HI. revert k tl w. induction n as [|n IH]; intros k tl w Htl; cbn [repeat task_loop].
  { intros [= <- <- <- <-]. split; [done|]. split; [done|]. by exists []. }
  unfold bind at 1, task_tick. unfold bind at 1, on_impl. cbn [fst snd task_Task Poller_task].
  destruct (Task (w, after_failures c k)) as [[[]|m] [w1 p1]] eqn:E; apply Task_moves in E; [|intros [= <- <- <- <-]; tauto].
  destruct E as [got ->]. rewrite transition_after by done. set (k1 := step_failures k [got]).
  pose proof (period_positive c k1 HN HI) as Hpos. unfold bind, get. cbn [fst snd task_RequirePeriodUpdate Poller_task RequirePeriodUpdate andb].
  destruct (Z.eqb_spec (currentPeriod (after_failures c k1)) (lastPeriod tl)) as [He|He]; cbn [negb].
  - intros Hrun. apply IH in Hrun; [|done]. destruct r as [b|m]; [|done]. destruct Hrun as (Hb & Ht & l & Hl & Hp & Htk).
    split; [done|]. split; [done|]. exists (got :: l). split; [cbn; congruence|]. split; [done|].
    destruct n; [|done]. subst tl'. destruct l; [|done]. rewrite Hp. cbn. rewrite Htl. fold k1. done.
  - rewrite (proj2 (Z.leb_gt _ _)) by lia. cbn [put]. intros Hrun. apply IH in Hrun; [|done].
    destruct r as [b|m]; [|done]. destruct Hrun as (Hb & Ht & l & Hl & Hp & Htk).
    split; [done|]. split; [done|]. exists (got :: l). split; [cbn; congruence|]. split; [done|].
    destruct n; [|done]. subst tl'. destruct l; [|done]. by rewrite Hp.
Qed.

(** The ticker follows the poller.  With positive periods, the periodic task
    that runs the poller never resets its ticker to a bad period; after any
    number of ticks the poller is in the state its polls determine, and from
    the first tick on the ticker runs at the poller's current period: the
    normal one while it polls or retries, the idle one when it is idle. *)
Theorem ticker_follows_poller c newClient p0 p t n w r w' p' :
  in_i64 (MaxRetry c) -> 0 < NormalPeriod c -> 0 < IdlePeriod c ->
  Poller_Setup newClient c p0 = (None, p) -> 0 < Period t -> PT_Impl t = Some tt ->
  AddPeriodicTask_execute t (repeat Tick n) (w, p) = (r, (w', p')) ->
  match r with
  | Ret (returned, tl) =>
      returned = false /\
      exists l, length l = S n /\ p' = after_failures c (failures l) /\
        (ticker tl = if n is O then Period t else currentPeriod p')
  | Panic m => m = nil_pointer
  end.
Proof.
  intros Hm HN HI Hs Hp Hi. unfold Poller_Setup in Hs. destruct (newClient c); [done|]. injection Hs as <-.
  unfold AddPeriodicTask_execute. rewrite (proj2 (Z.leb_gt _ _)), Hi by lia. unfold bind at 1, on_impl. cbn [fst snd task_Task Poller_task].
  change (mkPoller c (NormalPeriod c) 0 POLLING) with (after_failures c 0).
  destruct (Task (w, after_failures c 0)) as [[[]|m] [w1 p1]] eqn:E; apply Task_moves in E; [|intros [= <- <- <-]; tauto].
  destruct E as [got ->]. rewrite transition_after by done.
  destruct (task_loop tt (repeat Tick n) _) as [[b|m] [[w2 p2] tl]] eqn:El; apply poller_ticks in El; try done; intros [= <- <- <-]; [|done].
  destruct El as (-> & Ht & l & Hl & Hp2 & Htk). split; [done|]. exists (got :: l). split; [cbn; congruence|]. split; [done|].
  destruct n; [by rewrite Htk|done].
Qed.

(** A normal period that does not parse stops the poller's task.  [SetParams]
    only logs the parse error and stores the period 0; when the retry limit is
    above 2 and the device answers, the first tick resets the ticker to 0, which
    panics. *)
Theorem bad_period_panics {FS : FractionScale} {FV : FormatV} l c0 c newClient p0 p s t w :
  SetParams (Some (DMap l)) c0 = Ret (c, None) ->
  (list_to_map l : gmap string Dyn) !! "normal_period" = Some (DString s) -> s <> "" -> ParseDuration s = None ->
  in_i64 (MaxRetry c) -> 2 < MaxRetry c -> Poller_Setup newClient c p0 = (None, p) ->
  0 < Period t -> PT_Impl t = Some tt -> (forall w, QPU_GetDeviceInfo w <> None) ->
  exists s', AddPeriodicTask_execute t [Tick] (w, p) = (Panic (non_positive "Ticker.Reset"), s').
Proof.
  intros Hset Hl Hs Hparse Hm HM Hsetup Hp Hi Hd.
  assert (NormalPeriod c = 0) as HN.
  { revert Hset. cbn [SetParams]. cbn zeta. generalize dependent (list_to_map l : gmap string Dyn). intros pp Hl.
    unfold setDurationField at 1. rewrite Hl. cbn [IsZero]. rewrite bool_decide_eq_false_2 by done. cbn [negb dyn_string]. rewrite Hparse.
    repeat match goal with |- context [obind ?o _] => destruct o; cbn [obind]; [|done] end. by intros [= <-]. }
  unfold Poller_Setup in Hsetup. destruct (newClient c); [done|]. injection Hsetup as <-.
  unfold AddPeriodicTask_execute. rewrite (proj2 (Z.leb_gt _ _)), Hi by lia. unfold bind at 1, on_impl. cbn [fst snd task_Task Poller_task].
  change (mkPoller c (NormalPeriod c) 0 POLLING) with (after_failures c 0).
  destruct (Task (w, after_failures c 0)) as [[[]|m] [w1 p1]] eqn:E; apply Task_moves in E; [|by destruct E as [_ E%Hd]].
  destruct E as [g1 ->]. rewrite transition_after by done. cbn [task_loop]. unfold bind at 1, task_tick. unfold bind at 1, on_impl.
  cbn [fst snd task_Task Poller_task].
  destruct (Task (w1, _)) as [[[]|m] [w2 p2]] eqn:E; apply Task_moves in E; [|by destruct E as [_ E%Hd]].
  destruct E as [g2 ->]. rewrite transition_after by done. unfold bind, get. cbn [fst snd task_RequirePeriodUpdate Poller_task RequirePeriodUpdate andb].
  assert (currentPeriod (after_failures c (step_failures (step_failures 0 [g1]) [g2])) = 0) as ->.
  { unfold after_failures. destruct g1, g2; cbn [step_failures foldl Nat.eqb currentPeriod]; try done;
      rewrite (proj2 (Z.ltb_lt _ _)) by lia; done. }
  cbn [lastPeriod]. rewrite (proj2 (Z.eqb_neq 0 (Period t))) by lia. cbn. by eexists.
Qed.
End ticking.

(** ** Witnesses *)

Module RunExample.
#[local] Existing Instance canonical_range.

(** A cloud without jobs and an available device. *)
Definition device : DeviceInfo := mkDeviceInfo "" "" "" Available 4 100 "{}" "".
#[local] Instance scheduler : IScheduler unit unit :=
  {| Sched_HandleJob _ w := w; Sched_GetCurrentQueueSize _ := 0; Sched_IsOverRefillThreshold _ := false |}.
#[local] Instance client : IPollClient unit unit := fun w => (inl [], w).
#[local] Instance qpu : IQPUManager unit := {| QPU_Send := ret None; QPU_GetDeviceInfo _ := Some device |}.
#[local] Instance fractions : FractionScale := fun f unit digits => f * unit / 10 ^ Z.of_nat digits.
#[local] Instance format : FormatV := fun _ => "".

Definition new_client (c : PollerConf) : option error := None.
#[local] Instance runner : RunnerImpl (unit * Poller) unit := Poller_runner new_client.

Definition conf : PollerConf := PollerExample.c.
Definition poller : Poller := (Poller_Setup new_client conf PollerExample.blank).2.
Definition task : PeriodicTask unit := mkPeriodicTask Second None (Some tt).

Lemma ticker_follows_poller_witness :
  exists tl p', AddPeriodicTask_execute task (repeat Tick 3) (tt, poller) = (Ret (false, tl), (tt, p')) /\
    ticker tl = currentPeriod p' /\ currentPeriod p' = 60 * Second.
Proof.
  destruct (AddPeriodicTask_execute task (repeat Tick 3) (tt, poller)) as [[[b tl]|m] [[] p']] eqn:E; [|vm_compute in E; discriminate E].
  destruct (ticker_follows_poller conf new_client PollerExample.blank poller task 3 tt (Ret (b, tl)) tt p') as (-> & l & _ & _ & Ht);
    [unfold in_i64; cbn; lia|reflexivity|reflexivity|reflexivity|reflexivity|reflexivity|exact E|].
  exists tl, p'. split; [done|]. split; [exact Ht|]. vm_compute in E. injection E as <- <-. reflexivity.
Defined.

Definition bad_params : list (string * Dyn) := [("normal_period", DString "10 seconds")].
Definition bad_conf : PollerConf :=
  match SetParams (Some (DMap bad_params)) conf with Ret (c, _) => c | Panic _ => conf end.

Lemma bad_period_panics_witness :
  exists s, AddPeriodicTask_execute task [Tick] (tt, (Poller_Setup new_client bad_conf PollerExample.blank).2)
            = (Panic (non_positive "Ticker.Reset"), s).
Proof.
  apply (bad_period_panics bad_params conf bad_conf new_client PollerExample.blank _ "10 seconds");
    first [vm_compute; reflexivity | done | unfold in_i64; vm_compute; intuition congruence].
Defined.

Definition impls : ImplMaps unit := mkImplMaps {["poller" := tt]} ∅ ∅.
Definition entries : gmap string Dyn := {[PERIODIC_TASKS := DMap [("poller", DMap [])]]}.
Definition groups : DecodedGroups := mkDecodedGroups {["poller" := (5 * Second, None)]} ∅ ∅.

Lemma run_context_actors_witness :
  exists rc w', NewRunContextWithSettingPath (fun _ => "") "setting.toml" (inl "") (fun _ => inl entries) (fun _ => inl groups) impls
                  (tt, PollerExample.blank) = (Ret (inl rc), w') /\
    groups_registered impls (RC_RunGroupMaps rc) /\
    Group rc = [PeriodicActor (mkPeriodicTask (5 * Second) None (Some tt)) "poller"].
Proof.
  destruct (NewRunContextWithSettingPath (fun _ => "") "setting.toml" (inl "") (fun _ => inl entries) (fun _ => inl groups) impls
              (tt, PollerExample.blank)) as [[[rc|e]|m] w'] eqn:E; [|vm_compute in E; discriminate E..].
  destruct (run_context_actors (fun _ => "") "setting.toml" "" (fun _ => inl entries) (fun _ => inl groups) impls
              (tt, PollerExample.blank) rc w' groups) as (Hg & Hr & _); [reflexivity|exact E|].
  exists rc, w'. split; [done|]. split; [exact Hr|]. vm_compute in E. injection E as <- <-. reflexivity.
Defined.
End RunExample.
