(* ===== verification/Converter.v ===== *)
(** * Package oas: conversion between cloud jobs and job data (oas/converter.go)

    [JobsJobDef] keeps the fields of the generated API type that the engine
    reads or writes.  A value of the generated [OptNil] types is unset, null or
    set.  Number formatting through [float64] is a parameter ([GoFloat]). *)

From stdpp Require Import base gmap strings list fin_maps sorting.
From Stdlib Require Import ZArith Lia Ascii.
From S2P Require Import Prelude GoString Json Core.

Inductive OptNil (A : Type) := OUnset | ONull | OSet (a : A).
Arguments OUnset {A}.
Arguments ONull {A}.
Arguments OSet {A}.

Definition IsNull {A} (o : OptNil A) : bool := match o with ONull => true | _ => false end.
Definition OGet {A} (o : OptNil A) : option A := match o with OSet a => Some a | _ => None end.

(** Floating-point values are kept as opaque numbers.  [float_json] is the
    encoder's form of a [float64], [norm_number] what becomes of a number literal
    that is decoded to [float64] and encoded again (nothing if it is out of
    range), [f64_of_f32] the widening, [seconds] is [Duration.Seconds]. *)
Class GoFloat := {
  float_json : Z -> string;
  norm_number : string -> option string;
  f64_of_f32 : Z -> Z;
  seconds : Z -> Z
}.

Definition SAMPLING_JOB : string := "sampling".
Definition ESTIMATION_JOB : string := "estimation_job".
Definition MULTIPROG_MANUAL_JOB : string := "multi_manual".
Definition SSE_JOB : string := "sse".
Definition notSetMessage : string := "not set in cloud job".

(** The generated types, as far as they are used. *)
Record JobsSamplingResult := mkSampling {
  S_Counts : gmap string string;
  S_DividedCounts : OptNil (gmap string string)
}.
Record JobsEstimationResult := mkEstimationResult { E_ExpValue : option Z; E_Stds : option Z }.
Record JobsJobResult := mkJobResult {
  R_Sampling : OptNil JobsSamplingResult;
  R_Estimation : OptNil JobsEstimationResult
}.
(** A map that is null is [None]. *)
Record JobsTranspileResult := mkTranspileResult {
  T_TranspiledProgram : string;
  T_Stats : option (gmap string string);
  T_VirtualPhysicalMapping : option (gmap string string)
}.
Record JobsOperatorItem := mkOperatorItem { Pauli : string; Coeff : option Z }.
Record JobsJobInfo := mkJobInfo {
  Program : list string;
  CombinedProgram : OptNil string;
  Operator : OptNil (list JobsOperatorItem);
  JI_Result : OptNil JobsJobResult;
  TranspileResult : OptNil JobsTranspileResult;
  JI_Message : OptNil string
}.
(** A raw JSON value of a map may be nil. *)
Record JobsJobDef := mkJobDef {
  C_JobID : string;
  C_Shots : Z;
  C_JobType : string;
  C_JobInfo : JobsJobInfo;
  C_TranspilerInfo : OptNil (gmap string (option string));
  C_MitigationInfo : OptNil (gmap string string);
  C_Status : string;
  C_ExecutionTime : OptNil Z;
  C_SubmittedAt : OptNil Z
}.

Definition convertFromCloudStatus (st : string) : Status :=
  if String.eqb st "submitted" then SUBMITTED
  else if String.eqb st "ready" then READY
  else if String.eqb st "running" then RUNNING
  else if String.eqb st "succeeded" then SUCCEEDED
  else if String.eqb st "failed" then FAILED
  else FAILED.

Definition convertToAPIStatus (s : Status) : string :=
  match s with
  | SUBMITTED => "submitted"
  | READY => "ready"
  | RUNNING => "running"
  | SUCCEEDED => "succeeded"
  | FAILED => "failed"
  | CANCELLED => "failed"
  end.

Definition transpiler_lib_key : string := "transpiler_lib".

Definition useTranspiler (ti : OptNil (gmap string (option string))) : bool :=
  if IsNull ti then true
  else
    match OGet ti with
    | None => true
    | Some t =>
        match t !! transpiler_lib_key with
        | None => true
        | Some tl => negb (bool_decide (tl = None) || bool_decide (tl = Some "null"))
        end
    end.

Definition useDefaultTranspiler (ti : OptNil (gmap string (option string))) : bool :=
  match OGet ti with
  | None => true
  | Some t => match t !! transpiler_lib_key with None => true | Some _ => false end
  end.

(** The decoder matches field names without regard to case: ASCII letters, the
    long s and the Kelvin sign. *)
Definition fold_name (s : string) : string :=
  string_map lower_ascii
    (ReplaceAll (ReplaceAll s (byte_string [197; 191]%N) "s") (byte_string [226; 132; 170]%N) "k").

Section convert.
Context {MR : MapRange} {GF : GoFloat}.

(** A value decoded into [interface{}] and encoded again: numbers go through
    [float64], the last of several members with one name wins, members are
    sorted. *)
Fixpoint normalize (j : json) : option json :=
  match j with
  | JNum lit => JNum <$> norm_number lit
  | JArr l =>
      JArr <$> foldr (fun x acc => x' ← normalize x; acc' ← acc; Some (x' :: acc')) (Some []) l
  | JObj ms =>
      l ← foldr (fun kv acc => v ← normalize kv.2; acc' ← acc; Some ((kv.1, v) :: acc')) (Some []) ms;
      Some (json_of_map id (list_to_map (reverse l) : gmap string json))
  | _ => Some j
  end.

(** [json.Unmarshal] into a [TranspilerConfig]: the members of the object are
    assigned in order. *)
Definition assign_member (acc : TranspilerConfig * option error) (kv : string * json)
    : TranspilerConfig * option error :=
  let '(c, err) := acc in
  if String.eqb (fold_name kv.1) "transpiler_lib" then
    match kv.2 with
    | JNull => (mkTranspilerConfig None (TranspilerOptions c) (UseDefault c), err)
    | JStr s => (mkTranspilerConfig (Some s) (TranspilerOptions c) (UseDefault c), err)
    | _ => (c, first_error err (Some (type_error "string")))
    end
  else if String.eqb (fold_name kv.1) "transpiler_options" then
    (mkTranspilerConfig (TranspilerLib c) (Some (Print kv.2)) (UseDefault c), err)
  else (c, err).

Definition empty_config : TranspilerConfig := mkTranspilerConfig None None false.

Definition unmarshalConfig (ms : list (string * json)) : TranspilerConfig * option error :=
  foldl assign_member (empty_config, None) ms.

(** The loop over the raw members: the first that does not decode ends it. *)
Definition decode_raw (v : option string) : option json := Parse (default "" v) ≫= normalize.

Definition ConvertToTranspilerInfo (ti : gmap string (option string)) : TranspilerConfig :=
  match foldr (fun kv acc => v ← decode_raw kv.2; acc' ← acc; Some ((kv.1, v) :: acc')) (Some []) (range ti) with
  | None => empty_config
  | Some tempMap =>
      match unmarshalConfig (sort_members tempMap) with
      | (_, Some _) => empty_config
      | (s, None) => s
      end
  end.

Definition convertToTranspilerInfoFromONTI (onti : OptNil (gmap string (option string))) : TranspilerConfig :=
  match OGet onti with
  | None => empty_config
  | Some ti => ConvertToTranspilerInfo ti
  end.

Definition ConvertToMitigationInfo (mi : OptNil (gmap string string)) : string :=
  if IsNull mi then "{}"
  else
    match OGet mi with
    | None => "{}"
    | Some m => Print (json_of_map JStr m)
    end.

Definition operator_json (o : JobsOperatorItem) : json :=
  JObj (("pauli", JStr (Pauli o)) ::
        match Coeff o with Some c => [("coeff", JNum (float_json c))] | None => [] end).

(** The program of a job that is not multi_manual is the first of the list. *)
Definition ConvertFromCloudJob (now : Z) (j : JobsJobDef) : outcome JobData :=
  let jd := NewJobData now in
  let jd := set_ID (C_JobID j) jd in
  let jd := set_Shots (C_Shots j) jd in
  let jd :=
    if useTranspiler (C_TranspilerInfo j) then
      if useDefaultTranspiler (C_TranspilerInfo j) then
        set_NeedsUpdateTranspilerInfo true (set_Transpiler (Some DEFAULT_TRANSPILER_CONFIG) jd)
      else set_Transpiler (Some (convertToTranspilerInfoFromONTI (C_TranspilerInfo j))) jd
    else set_Transpiler (Some empty_config) jd in
  let jd := set_MitigationInfoStr (ConvertToMitigationInfo (C_MitigationInfo j)) jd in
  let jd := set_JobStatus (convertFromCloudStatus (C_Status j)) jd in
  let jd := set_Created (default 0 (OGet (C_SubmittedAt j))) jd in
  let jinfo := C_JobInfo j in
  let jd :=
    if String.eqb (C_JobType j) "sampling" then set_JobType SAMPLING_JOB jd
    else if String.eqb (C_JobType j) "estimation" then set_JobType ESTIMATION_JOB jd
    else if String.eqb (C_JobType j) "multi_manual" then
      set_QASM (Print (JArr (JStr <$> Program jinfo))) (set_JobType MULTIPROG_MANUAL_JOB jd)
    else if String.eqb (C_JobType j) "sse" then set_JobType SSE_JOB jd
    else set_JobType "normal" jd in
  let? jd :=
    if negb (String.eqb (JobType jd) MULTIPROG_MANUAL_JOB) then
      match Program jinfo with
      | [] => Panic "index out of range"
      | p :: _ => Ret (set_QASM p jd)
      end
    else Ret jd in
  let jd :=
    match OGet (Operator jinfo) with
    | Some items => set_Info (Print (JArr (operator_json <$> items))) jd
    | None => jd
    end in
  let rs := set_Message (default notSetMessage (OGet (JI_Message jinfo))) NewResult in
  Ret (upd_Result (fun _ => rs) jd).
End convert.

(** ** Raw messages

    [json.Unmarshal] into [map[string]json.RawMessage] keeps the text of each
    value as it stands. *)
Fixpoint raw_members (fuel : nat) (s : string) : option (list (string * string)) :=
  match fuel with
  | O => None
  | S f =>
      match expect quote_c (skip_ws s) with
      | None => None
      | Some r0 =>
          match scan_string (String.length r0) r0 with
          | None => None
          | Some (k, r) =>
              match expect ":"%char (skip_ws r) with
              | None => None
              | Some r1 =>
                  let r1 := skip_ws r1 in
                  match parse_value (2 * String.length r1 + 2) max_depth r1 with
                  | None => None
                  | Some (_, r2) =>
                      let raw := String.substring 0 (String.length r1 - String.length r2) r1 in
                      match expect ","%char (skip_ws r2) with
                      | None => Some [(k, raw)]
                      | Some r' => (fun l => (k, raw) :: l) <$> raw_members f r'
                      end
                  end
              end
          end
      end
  end.

(** [None] is an error; null gives the empty map. *)
Definition unmarshalRawMap (s : string) : option (gmap string string) :=
  match Parse s with
  | Some JNull => Some ∅
  | Some (JObj []) => Some ∅
  | Some (JObj _) =>
      match expect "{"%char (skip_ws s) with
      | None => None
      | Some r => (fun l => list_to_map (reverse l)) <$> raw_members (S (String.length r)) r
      end
  | _ => None
  end.

Section to_cloud.
Context {MR : MapRange} {GF : GoFloat}.

Definition convertToAPICounts (counts : gmap string Z) : gmap string string :=
  foldl (fun res kv => <[kv.1 := FormatUint kv.2]> res) ∅ (range counts).

(** [json.Marshal] of the generated map: [encodeFields] writes, in iteration
    order, each name and then the raw value as it stands (no value made by
    [convertToAPICounts] is empty); the names come out escaped as [quote] does. *)
Definition encode_counts (c : gmap string string) : string :=
  "{" +:+ Join ((fun kv => quote kv.1 +:+ ":" +:+ kv.2) <$> range c) "," +:+ "}".

Definition convertToAPIDividedCounts (d : gmap Z (gmap string Z)) : gmap string string :=
  foldl (fun res kv => <[FormatUint kv.1 := encode_counts (convertToAPICounts kv.2)]> res) ∅ (range d).

(** [json.Marshal] of a configuration ([None] is an error: options that are not
    JSON), its members as [interface{}] values. *)
Definition config_members (tc : TranspilerConfig) : option (list (string * json)) :=
  opts ← match TranspilerOptions tc with None => Some JNull | Some o => Parse o end;
  Some [("transpiler_lib", match TranspilerLib tc with None => JNull | Some l => JStr l end);
        ("transpiler_options", opts)].

Definition convertToAPITranspilerInfo (tc : option TranspilerConfig) : gmap string (option string) :=
  match tc with
  | None => ∅
  | Some tc =>
      match config_members tc with
      | None => ∅
      | Some ms =>
          match foldr (fun kv acc => v ← normalize kv.2; acc' ← acc; Some ((kv.1, v) :: acc')) (Some []) ms with
          | None => ∅
          | Some l => list_to_map (prod_map id (fun v => Some (Print v)) <$> l)
          end
      end
  end.

Definition raw_map_of (raw : option string) : gmap string string :=
  match raw with
  | None | Some "" => ∅
  | Some r => default ∅ (unmarshalRawMap r)
  end.

(** The result part and the combined program; the job's QASM is replaced by
    the original programs when a multi_manual job is over. *)
Definition cloud_result (j : JobData) : string * JobsJobResult * string * JobData :=
  if bool_decide (JobType j = SAMPLING_JOB) || bool_decide (JobType j = MULTIPROG_MANUAL_JOB)
     || bool_decide (JobType j = SSE_JOB) then
    let counts := convertToAPICounts (Counts (JobResult j)) in
    if bool_decide (JobType j = MULTIPROG_MANUAL_JOB) then
      let divided := convertToAPIDividedCounts (DividedResult (JobResult j)) in
      let jjr := mkJobResult (OSet (mkSampling counts (OSet divided))) ONull in
      if bool_decide (JobStatus j = SUCCEEDED) || bool_decide (JobStatus j = FAILED) then
        match Unmarshal (decode_map decode_string "map[string]string") ∅ (QASM j) with
        | (_, Some _) => ("sampling", jjr, "", j)
        | (qasmMap, None) =>
            ("sampling", jjr, default "" (qasmMap !! "combined_qasm"),
             set_QASM (default "" (qasmMap !! "original_qasms")) j)
        end
      else ("sampling", jjr, "", j)
    else ("sampling", mkJobResult (OSet (mkSampling counts OUnset)) ONull, "", j)
  else if bool_decide (JobType j = ESTIMATION_JOB) then
    let jer := match Result_Estimation (JobResult j) with
               | None => mkEstimationResult None None
               | Some e => mkEstimationResult (Some (f64_of_f32 (Exp_value e))) (Some (f64_of_f32 (Stds e)))
               end in
    ("estimation", mkJobResult OUnset (OSet jer), "", j)
  else ("sampling", mkJobResult OUnset OUnset, "", j).

Definition cloud_transpile_result (j : JobData) : OptNil JobsTranspileResult :=
  match Result_TranspilerInfo (JobResult j) with
  | None => ONull
  | Some ti =>
      OSet (mkTranspileResult (TranspiledQASM j) (Some (raw_map_of (StatsRaw ti)))
              (Some (raw_map_of (VirtualPhysicalMappingRaw ti))))
  end.

(** The job data comes back because the conversion may change its QASM. *)
Definition ConvertToCloudJob (j : JobData) : JobsJobDef * JobData :=
  let st := convertToAPIStatus (JobStatus j) in
  let '(jobType, jjr, combinedProgram, j) := cloud_result j in
  let ji := mkJobInfo [QASM j] (OSet combinedProgram) OUnset (OSet jjr) (cloud_transpile_result j)
              (OSet (Message (JobResult j))) in
  let ext := if ExecutionTime (JobResult j) =? 0 then ONull else OSet (seconds (ExecutionTime (JobResult j))) in
  (mkJobDef (ID j) (Shots j) jobType ji (OSet (convertToAPITranspilerInfo (Transpiler j))) OUnset st ext OUnset, j).
End to_cloud.

(** ** Lemmas *)

Lemma fst_prod_map {K A K' B} (g : K -> K') (f : A -> B) (l : list (K * A)) : (prod_map g f <$> l).*1 = g <$> l.*1.
Proof. induction l as [|[k a] l IH]; cbn; [done|]. f_equal. exact IH. Qed.

(** A map filled by a loop over distinct keys. *)
Lemma foldl_insert_list {K A K' B} `{Countable K'} (g : K -> K') (f : A -> B) (l : list (K * A)) (acc : gmap K' B) :
  NoDup (g <$> l.*1) ->
  foldl (fun res kv => <[g kv.1 := f kv.2]> res) acc l = list_to_map (prod_map g f <$> l) ∪ acc.
Proof.
  revert acc. induction l as [|[k v] l IH]; intros acc Hnd; cbn; [by rewrite map_empty_union|].
  cbn in Hnd. inversion Hnd as [|? ? Hk Hnd']; subst. rewrite IH by done.
  rewrite <- insert_union_r, insert_union_l; [done|].
  apply (not_elem_of_list_to_map_1 (M := gmap K')). intros Hin. apply Hk.
  by rewrite fst_prod_map in Hin.
Qed.

Lemma foldl_insert_range {MR : MapRange} {A B K'} `{Countable K, Countable K'} (g : K -> K') (f : A -> B)
    (m : gmap K A) (k' : K') (b : B) :
  (forall k1 k2 a1 a2, m !! k1 = Some a1 -> m !! k2 = Some a2 -> g k1 = g k2 -> k1 = k2) ->
  foldl (fun res kv => <[g kv.1 := f kv.2]> res) (∅ : gmap K' B) (range m) !! k' = Some b <->
  exists k a, m !! k = Some a /\ k' = g k /\ b = f a.
Proof.
  intros Hg. assert (NoDup (g <$> (range m).*1)) as Hnd.
  { apply NoDup_fmap_2_strong; [|apply NoDup_fst_range]. intros k1 k2 H1 H2 E.
    apply list_elem_of_fmap in H1 as ([x1 a1] & -> & H1), H2 as ([x2 a2] & -> & H2).
    apply elem_of_range in H1, H2. by eapply Hg. }
  rewrite foldl_insert_list by done. rewrite map_union_empty, <- elem_of_list_to_map.
  2: { by rewrite fst_prod_map. }
  rewrite list_elem_of_fmap. split.
  - intros ([k a] & E & Hin). apply elem_of_range in Hin. injection E as -> ->. eauto.
  - intros (k & a & Hk & -> & ->). exists (k, a). by rewrite elem_of_range.
Qed.

Lemma convertToAPICounts_lookup {MR : MapRange} counts k t :
  convertToAPICounts counts !! k = Some t <-> exists v, counts !! k = Some v /\ t = FormatUint v.
Proof.
  unfold convertToAPICounts. rewrite (foldl_insert_range (fun k => k) FormatUint) by auto. split.
  - intros (k' & v & Hk & -> & ->). eauto.
  - intros (v & Hk & ->). eauto.
Qed.

(** [json.Unmarshal] into [core.Counts]. *)
Definition decode_counts : string -> decoded (gmap string Z) :=
  Unmarshal (decode_map (decode_uint 32 "uint32") "map[string]uint32") ∅.

(** Counts whose bit strings are ASCII and whose numbers are [uint32]. *)
Definition plain_counts (m : gmap string Z) : Prop := map_Forall (fun k v => ascii_str k /\ in_u32 v) m.

(** The text of the converted counts decodes to the counts. *)
Lemma decode_encode_counts {MR : MapRange} m : plain_counts m ->
  decode_counts (encode_counts (convertToAPICounts m)) = (m, None).
Proof.
  intros Hm. set (c := convertToAPICounts m).
  assert (forall k t, (k, t) ∈ range c -> exists v, m !! k = Some v /\ t = FormatUint v) as Hc.
  { intros k t Hin. by apply elem_of_range, convertToAPICounts_lookup in Hin. }
  assert (encode_counts c = Print (JObj (prod_map id JNum <$> range c))) as ->.
  { unfold encode_counts. cbn [Print]. do 3 f_equal. generalize (range c) as l.
    intros l. induction l as [|[k t] l IH]; [done|]. cbn. f_equal. exact IH. }
  unfold decode_counts, Unmarshal. rewrite Parse_Print.
  - rewrite (decode_members _ JNum (fun t => match ParseUint t 32 with inl v => v | inr _ => 0 end)).
    + f_equal. rewrite list_to_map_range. apply map_eq. intros k. rewrite lookup_fmap. apply option_eq. intros v.
      rewrite fmap_Some. unfold c. setoid_rewrite convertToAPICounts_lookup. split.
      * intros (t & (v' & Hv & ->) & ->). by rewrite ParseUint_FormatUint by apply (Hm _ _ Hv).
      * intros Hv. exists (FormatUint v). rewrite ParseUint_FormatUint by apply (Hm _ _ Hv). eauto.
    + apply NoDup_fst_range.
    + apply Forall_forall. intros [k t] Hin. cbn [snd]. destruct (Hc _ _ Hin) as (v & Hv & ->).
      destruct (Hm _ _ Hv) as [_ Hv32]. rewrite ParseUint_FormatUint by exact Hv32.
      exact (decode_json_u32 v Hv32).
  - apply wf_members, Forall_forall. intros [k t] Hin. destruct (Hc _ _ Hin) as (v & Hv & ->).
    destruct (Hm _ _ Hv) as [Hk Hv32]. split; [exact Hk|]. apply num_ok_FormatUint, Hv32.
  - transitivity 1%nat; [|unfold max_depth; lia]. apply jdepth_members, Forall_forall. intros kv _. cbn. lia.
Qed.

Lemma convertToAPIDividedCounts_lookup {MR : MapRange} divided k t :
  map_Forall (fun c _ => 0 <= c) divided ->
  convertToAPIDividedCounts divided !! k = Some t <->
  exists c m, divided !! c = Some m /\ k = FormatUint c /\ t = encode_counts (convertToAPICounts m).
Proof.
  intros Hd. unfold convertToAPIDividedCounts.
  rewrite (foldl_insert_range FormatUint (fun m => encode_counts (convertToAPICounts m))); [done|].
  intros k1 k2 a1 a2 H1 H2. apply FormatUint_inj; [exact (Hd _ _ H1)|exact (Hd _ _ H2)].
Qed.

(** C38: counts are published without loss.  Every count of a job appears in the
    converted counts under its bit string as a decimal numeral that parses back
    to it, and there is nothing else.  A circuit [c] has the divided counts [m]
    exactly when the published divided counts have, under a name that parses
    back to [c], a text that [json.Unmarshal] decodes to [m] without an error;
    that name is the numeral of [c], and every published entry is of this
    form.  The numbers are [uint32]s and the bit strings of the divided counts
    are ASCII. *)
Theorem api_counts_lossless {MR : MapRange} (counts : gmap string Z) (divided : gmap Z (gmap string Z)) :
  map_Forall (fun _ v => in_u32 v) counts -> map_Forall (fun c m => in_u32 c /\ plain_counts m) divided ->
  (forall k v, counts !! k = Some v <->
     exists t, convertToAPICounts counts !! k = Some t /\ ParseUint t 32 = inl v) /\
  (forall c m, divided !! c = Some m ->
     exists t, convertToAPIDividedCounts divided !! FormatUint c = Some t /\ decode_counts t = (m, None)) /\
  (forall k t, convertToAPIDividedCounts divided !! k = Some t ->
     exists c m, ParseUint k 32 = inl c /\ k = FormatUint c /\
                 divided !! c = Some m /\ decode_counts t = (m, None)).
Proof.
  intros Hc Hd. split_and!.
  - intros k v. split.
    + intros Hk. exists (FormatUint v). split; [apply convertToAPICounts_lookup; eauto|].
      apply ParseUint_FormatUint. exact (Hc _ _ Hk).
    + intros (t & Ht & Hp). apply convertToAPICounts_lookup in Ht as (v' & Hv & ->).
      rewrite ParseUint_FormatUint in Hp; [by injection Hp as <-|exact (Hc _ _ Hv)].
  - intros c m Hm. exists (encode_counts (convertToAPICounts m)). split.
    + apply convertToAPIDividedCounts_lookup; [|eauto]. intros c' m' Hm'. apply (Hd _ _ Hm').
    + apply decode_encode_counts, (Hd _ _ Hm).
  - intros k t Ht. apply convertToAPIDividedCounts_lookup in Ht as (c & m & Hm & -> & ->).
    2: { intros c' m' Hm'. apply (Hd _ _ Hm'). }
    exists c, m. rewrite ParseUint_FormatUint by apply (Hd _ _ Hm).
    split_and!; [done..|]. apply decode_encode_counts, (Hd _ _ Hm).
Qed.

(** Job statuses keep their meaning on the way to the cloud and back, except
    that a cancelled job comes out, and an unknown cloud status comes in, as
    FAILED. *)
Theorem cloud_status_roundtrip :
  (forall s, convertFromCloudStatus (convertToAPIStatus s) = if decide (s = CANCELLED) then FAILED else s) /\
  (forall st, convertFromCloudStatus st <> FAILED -> convertToAPIStatus (convertFromCloudStatus st) = st).
Proof.
  split; [by intros []|]. intros st. unfold convertFromCloudStatus.
  repeat (case_match; [intros _; symmetry; by apply String.eqb_eq|]).
  by intros [].
Qed.

Section from_cloud.
Context {MR : MapRange} {GF : GoFloat}.

(** The three cases of the transpiler information of a cloud job. *)
Definition lib_of (ti : OptNil (gmap string (option string))) : option (option string) :=
  match ti with OSet t => t !! transpiler_lib_key | _ => None end.

(** The members of a transpiler information: each one's text decoded. *)
Lemma decode_members_spec (l : list (string * option string)) :
  match foldr (fun kv acc => v ← decode_raw kv.2; acc' ← acc; Some ((kv.1, v) :: acc')) (Some []) l with
  | Some ms => Forall2 (fun kv kv' => kv.1 = kv'.1 /\ decode_raw kv.2 = Some kv'.2) l ms
  | None => Exists (fun kv => decode_raw kv.2 = None) l
  end.
Proof.
  induction l as [|[k r] l IH]; cbn; [constructor|]. destruct (decode_raw r) as [v|] eqn:Er; cbn.
  - destruct (foldr _ _ l) as [ms|]; cbn; [by constructor|by apply Exists_cons_tl].
  - by apply Exists_cons_hd.
Qed.

(** No other name is taken for one of the two members of a configuration. *)
Definition plain_name (k : string) : Prop :=
  (fold_name k = "transpiler_lib" -> k = "transpiler_lib") /\
  (fold_name k = "transpiler_options" -> k = "transpiler_options").

Definition lib_value (c : option string) (j : option json) : option string :=
  match j with Some JNull => None | Some (JStr s) => Some s | _ => c end.
Definition lib_error (j : option json) : option error :=
  match j with None | Some JNull | Some (JStr _) => None | Some _ => Some (type_error "string") end.
Definition options_value (c : option string) (j : option json) : option string :=
  match j with Some v => Some (Print v) | None => c end.

(** Assigning members with distinct names: the two members are looked up. *)
Lemma assign_members l : forall c err, NoDup l.*1 -> Forall plain_name l.*1 ->
  foldl assign_member (c, err) l =
    (mkTranspilerConfig (lib_value (TranspilerLib c) ((list_to_map l : gmap string json) !! "transpiler_lib"))
       (options_value (TranspilerOptions c) ((list_to_map l : gmap string json) !! "transpiler_options"))
       (UseDefault c),
     first_error err (lib_error ((list_to_map l : gmap string json) !! "transpiler_lib"))).
Proof.
  induction l as [|[k v] l IH]; intros c err; [by destruct c, err|].
  cbn [fmap list_fmap fst list_to_map foldr foldl].
  intros [Hk Hnd]%NoDup_cons [[Hlib Hopt] Hpl]%Forall_cons.
  apply (not_elem_of_list_to_map_1 (M := gmap string)) in Hk.
  unfold assign_member at 2. cbn [fst snd].
  destruct (String.eqb_spec (fold_name k) "transpiler_lib") as [E|E].
  { rewrite (Hlib E) in *. rewrite lookup_insert_eq, lookup_insert_ne by done.
    destruct v; rewrite IH by done; rewrite Hk; cbn; by destruct err. }
  rewrite (lookup_insert_ne _ k "transpiler_lib") by (intros ->; by apply E).
  destruct (String.eqb_spec (fold_name k) "transpiler_options") as [E'|E'].
  - rewrite (Hopt E') in *. rewrite lookup_insert_eq, IH, Hk by done. done.
  - rewrite lookup_insert_ne by (intros ->; by apply E'). by apply IH.
Qed.

(** The configuration read from the members [t]: the empty one if a text does
    not decode or the library is neither a string nor null; otherwise the
    library and the options are those of the two members. *)
Definition config_of (t : gmap string (option string)) (c : TranspilerConfig) : Prop :=
  ((exists k r, t !! k = Some r /\ decode_raw r = None) -> c = empty_config) /\
  ((forall k r, t !! k = Some r -> decode_raw r <> None /\ plain_name k) ->
   c = match t !! "transpiler_lib" ≫= decode_raw with
       | None | Some JNull => mkTranspilerConfig None (Print <$> (t !! "transpiler_options" ≫= decode_raw)) false
       | Some (JStr l) => mkTranspilerConfig (Some l) (Print <$> (t !! "transpiler_options" ≫= decode_raw)) false
       | Some _ => empty_config
       end).

Lemma ConvertToTranspilerInfo_config t : config_of t (ConvertToTranspilerInfo t).
Proof.
  unfold config_of, ConvertToTranspilerInfo. pose proof (decode_members_spec (range t)) as H.
  destruct (foldr _ _ _) as [ms|].
  2: { apply Exists_exists in H as ([k r] & Hin & Hr). apply elem_of_range in Hin. split; [done|].
       intros Hall. by destruct (Hall _ _ Hin). }
  assert (forall k, (list_to_map ms : gmap string json) !! k = t !! k ≫= decode_raw) as Hms.
  { intros k. rewrite <- (list_to_map_range t) at 1. clear -H.
    induction H as [|[k1 r] [k2 v] l ms [E Hr] H IH]; cbn in *; [done|]. subst k2.
    destruct (decide (k = k1)) as [->|Hk]; [by rewrite !lookup_insert_eq|].
    by rewrite !lookup_insert_ne. }
  assert (ms.*1 = (range t).*1) as E.
  { clear -H. induction H as [|[k1 r] [k2 v] l ms [E Hr] H IH]; cbn in *; [done|]. by f_equal. }
  assert (sort_members ms ≡ₚ ms) as Hp by apply merge_sort_Permutation.
  assert (NoDup (sort_members ms).*1) as Hnd by (rewrite Hp, E; apply NoDup_fst_range).
  split.
  - intros (k & r & Hk & Hr). exfalso. apply elem_of_range in Hk.
    apply list_elem_of_lookup_1 in Hk as [n Hn].
    destruct (Forall2_lookup_l _ _ _ _ _ H Hn) as (kv & _ & _ & Hv). cbn in Hv. congruence.
  - intros Hall. unfold unmarshalConfig. rewrite assign_members; [|done|].
    + rewrite (list_to_map_proper (M := gmap string) _ ms) by done. rewrite !Hms. cbn.
      destruct (t !! "transpiler_lib" ≫= decode_raw) as [[]|]; cbn;
        destruct (t !! "transpiler_options" ≫= decode_raw); done.
    + rewrite Hp, E. apply Forall_forall. intros k Hin. apply list_elem_of_fmap in Hin as ([k' r] & -> & Hin).
      apply elem_of_range in Hin. apply (Hall _ _ Hin).
Qed.

(** What the words of the cloud mean. *)
Inductive status_read : string -> Status -> Prop :=
| read_submitted : status_read "submitted" SUBMITTED
| read_ready : status_read "ready" READY
| read_running : status_read "running" RUNNING
| read_succeeded : status_read "succeeded" SUCCEEDED
| read_failed : status_read "failed" FAILED
| read_unknown st : st ∉ ["submitted"; "ready"; "running"; "succeeded"; "failed"] -> status_read st FAILED.

Inductive type_read : string -> string -> Prop :=
| read_sampling : type_read "sampling" "sampling"
| read_estimation : type_read "estimation" "estimation_job"
| read_multi_manual : type_read "multi_manual" "multi_manual"
| read_sse : type_read "sse" "sse"
| read_normal ty : ty ∉ ["sampling"; "estimation"; "multi_manual"; "sse"] -> type_read ty "normal".

Lemma convertFromCloudStatus_read st : status_read st (convertFromCloudStatus st).
Proof.
  unfold convertFromCloudStatus.
  destruct (String.eqb_spec st "submitted") as [->|]; [constructor|].
  destruct (String.eqb_spec st "ready") as [->|]; [constructor|].
  destruct (String.eqb_spec st "running") as [->|]; [constructor|].
  destruct (String.eqb_spec st "succeeded") as [->|]; [constructor|].
  destruct (String.eqb_spec st "failed") as [->|]; [constructor|].
  apply read_unknown. set_solver.
Qed.

(** The three cases of the transpiler configuration, and its write-back mark. *)
Definition transpiler_read (ti : OptNil (gmap string (option string))) (d : JobData) : Prop :=
  match lib_of ti with
  | None => Transpiler d = Some DEFAULT_TRANSPILER_CONFIG /\ NeedsUpdateTranspilerInfo d = true
  | Some None | Some (Some "null") => Transpiler d = Some empty_config /\ NeedsUpdateTranspilerInfo d = false
  | Some (Some _) =>
      NeedsUpdateTranspilerInfo d = false /\
      exists t c, ti = OSet t /\ Transpiler d = Some c /\ config_of t c
  end.

(** The fields the rest of the conversion leaves as they are. *)
Definition same_transpiler (d1 d2 : JobData) : Prop :=
  Transpiler d1 = Transpiler d2 /\ NeedsUpdateTranspilerInfo d1 = NeedsUpdateTranspilerInfo d2.

Lemma transpiler_read_same ti d1 d2 : same_transpiler d1 d2 -> transpiler_read ti d1 -> transpiler_read ti d2.
Proof. intros [E1 E2]. unfold transpiler_read. by rewrite E1, E2. Qed.

Lemma transpiler_choice ti (jd : JobData) : NeedsUpdateTranspilerInfo jd = false ->
  transpiler_read ti
    (if useTranspiler ti then
       if useDefaultTranspiler ti then
         set_NeedsUpdateTranspilerInfo true (set_Transpiler (Some DEFAULT_TRANSPILER_CONFIG) jd)
       else set_Transpiler (Some (convertToTranspilerInfoFromONTI ti)) jd
     else set_Transpiler (Some empty_config) jd).
Proof.
  intros Hn. unfold transpiler_read, useTranspiler, useDefaultTranspiler, lib_of.
  destruct ti as [| |t]; cbn; [done|done|].
  destruct (t !! transpiler_lib_key) as [[s|]|]; cbn; [|done|done].
  destruct (decide (s = "null")) as [->|Hs]; [by rewrite bool_decide_eq_true_2|].
  rewrite bool_decide_eq_false_2 by congruence. cbn.
  assert (NeedsUpdateTranspilerInfo jd = false /\ exists t' c, OSet t = OSet t' /\
            Some (ConvertToTranspilerInfo t) = Some c /\ config_of t' c) as Hok.
  { split; [done|]. exists t, (ConvertToTranspilerInfo t).
    split_and!; [done..|]. apply ConvertToTranspilerInfo_config. }
  by repeat case_match; simplify_eq.
Qed.

(** Reads the fields of a converted job off. *)
Local Ltac fields_read Hst Hread :=
  split_and!; [try done; intros _; by do 2 eexists|done|done|done|exact Hst|first [assumption|constructor]|by apply Hread|done|done].

(** C37: the job data of a cloud job.  The conversion panics exactly when a job
    that is not multi_manual has no program.  Otherwise the ID and the shots
    are those of the cloud job; the status and the type are the ones the cloud's
    words stand for, an unknown status counting as FAILED and an unknown type
    as normal; the program is the first one, or, of a multi_manual job, the JSON
    text of all.  The transpiler configuration is the default one, marked to be
    written back, when the job names no library; the empty one when the library
    is null; and else the job's own, with the library and the options of the two
    members of its transpiler information, or the empty one if that does not
    decode.  The result is a new one with the message of the job. *)
Theorem convert_from_cloud_job now j :
  match ConvertFromCloudJob now j with
  | Panic _ => C_JobType j <> "multi_manual" /\ Program (C_JobInfo j) = []
  | Ret d =>
      (C_JobType j <> "multi_manual" -> exists p ps, Program (C_JobInfo j) = p :: ps /\ QASM d = p) /\
      (C_JobType j = "multi_manual" -> QASM d = Print (JArr (JStr <$> Program (C_JobInfo j)))) /\
      ID d = C_JobID j /\ Shots d = C_Shots j /\
      status_read (C_Status j) (JobStatus d) /\ type_read (C_JobType j) (JobType d) /\
      transpiler_read (C_TranspilerInfo j) d /\
      Created d = default 0 (OGet (C_SubmittedAt j)) /\
      JobResult d = set_Message (default notSetMessage (OGet (JI_Message (C_JobInfo j)))) NewResult
  end.
Proof.
  unfold ConvertFromCloudJob.
  set (d0 := set_Shots (C_Shots j) (set_ID (C_JobID j) (NewJobData now))).
  pose proof (transpiler_choice (C_TranspilerInfo j) d0 eq_refl) as Htr.
  set (d1 := if useTranspiler (C_TranspilerInfo j) then _ else _) in *.
  assert (ID d1 = C_JobID j /\ Shots d1 = C_Shots j) as [Hid Hsh].
  { subst d1. by destruct (useTranspiler _); [destruct (useDefaultTranspiler _)|]. }
  pose proof (convertFromCloudStatus_read (C_Status j)) as Hst.
  clearbody d1. clear d0.
  assert (forall d, same_transpiler d1 d -> transpiler_read (C_TranspilerInfo j) d) as Hread
    by (intros d Hd; by eapply transpiler_read_same).
  clear Htr. destruct d1. cbn in Hid, Hsh. subst.
  destruct (String.eqb_spec (C_JobType j) "sampling") as [E1|E1]; cbn.
  { destruct (Program (C_JobInfo j)) as [|p ps]; cbn; [by rewrite E1|].
    destruct (OGet (Operator (C_JobInfo j))); cbn; rewrite E1;
      fields_read Hst Hread. }
  destruct (String.eqb_spec (C_JobType j) "estimation") as [E2|E2]; cbn.
  { destruct (Program (C_JobInfo j)) as [|p ps]; cbn; [by rewrite E2|].
    destruct (OGet (Operator (C_JobInfo j))); cbn; rewrite E2;
      fields_read Hst Hread. }
  destruct (String.eqb_spec (C_JobType j) "multi_manual") as [E3|E3]; cbn.
  { destruct (OGet (Operator (C_JobInfo j))); cbn; rewrite E3;
      fields_read Hst Hread. }
  assert (type_read (C_JobType j) (if String.eqb (C_JobType j) "sse" then "sse" else "normal")) as Hty.
  { destruct (String.eqb_spec (C_JobType j) "sse") as [->|E4]; [constructor|]. apply read_normal. set_solver. }
  destruct (String.eqb (C_JobType j) "sse"); cbn;
    (destruct (Program (C_JobInfo j)) as [|p ps]; cbn; [done|];
     destruct (OGet (Operator (C_JobInfo j))); cbn;
     fields_read Hst Hread).
Qed.

(** A job with a program, or of type multi_manual, is converted. *)
Lemma ConvertFromCloudJob_total now j : C_JobType j = "multi_manual" \/ Program (C_JobInfo j) <> [] ->
  exists d, ConvertFromCloudJob now j = Ret d /\ Transpiler d <> None.
Proof.
  intros Hp. unfold ConvertFromCloudJob. set (d1 := if useTranspiler (C_TranspilerInfo j) then _ else _).
  assert (Transpiler d1 <> None) as Ht.
  { subst d1. by destruct (useTranspiler _); [destruct (useDefaultTranspiler _)|]. }
  clearbody d1. destruct d1. cbn in Ht.
  destruct (String.eqb_spec (C_JobType j) "sampling") as [E1|E1], (String.eqb_spec (C_JobType j) "estimation") as [E2|E2],
    (String.eqb_spec (C_JobType j) "multi_manual") as [E3|E3], (String.eqb_spec (C_JobType j) "sse") as [E4|E4];
    cbn; destruct (Program (C_JobInfo j)) as [|p ps]; cbn; try (exfalso; destruct Hp; congruence);
    destruct (OGet (Operator (C_JobInfo j))); cbn; eauto.
Qed.
End from_cloud.

(** ** Instances *)

(** Two circuits of a multi-programming job. *)
Definition two_circuits : gmap Z (gmap string Z) :=
  {[ 0 := {[ "01" := 12; "10" := 4294967295 ]}; 11 := {[ "1" := 7 ]} ]}.

Lemma api_counts_lossless_witness :
  @convertToAPIDividedCounts canonical_range two_circuits !! "11" =
    Some ("{" +:+ quote "1" +:+ ":7}") /\
  (exists t, @convertToAPICounts canonical_range {[ "01" := 12; "10" := 4294967295 ]} !! "10" = Some t /\
             ParseUint t 32 = inl 4294967295) /\
  (exists t, @convertToAPIDividedCounts canonical_range two_circuits !! "0" = Some t /\
             decode_counts t = ({[ "01" := 12; "10" := 4294967295 ]}, None)).
Proof.
  split; [vm_compute; reflexivity|].
  destruct (@api_counts_lossless canonical_range {[ "01" := 12; "10" := 4294967295 ]} two_circuits)
    as (Hplain & Hdiv & _).
  { apply (bool_decide_eq_true_1 _). vm_compute. reflexivity. }
  { apply (bool_decide_eq_true_1 _). vm_compute. reflexivity. }
  split.
  - apply Hplain. vm_compute. reflexivity.
  - apply (Hdiv 0). vm_compute. reflexivity.
Defined.

Lemma cloud_status_roundtrip_witness :
  convertFromCloudStatus "ready" <> FAILED /\ convertToAPIStatus (convertFromCloudStatus "ready") = "ready".
Proof.
  split; [done|]. apply (proj2 cloud_status_roundtrip "ready"). done.
Defined.
