(* ===== verification/Cloud.v ===== *)
(** * Packages db and poller: the cloud side (db/service.go, poller/awspollclient.go)

    [ServiceDB] turns every job received on the database channel into requests
    to the provider API; the poll client turns the API's answer into jobs.  The
    API client is generated code over the network: a class over the world. *)

From stdpp Require Import base gmap strings list fin_maps.
From Stdlib Require Import ZArith Lia.
From S2P Require Import Prelude GoString Json Core Job Converter Scheduler.

(** ** Requests *)

Record JobsUpdateJobInfoRequest := mkUpdateJobInfo {
  OverwriteStatus : string;
  U_ExecutionTime : OptNil Z;
  U_CombinedProgram : OptNil string;
  U_TranspileResult : OptNil JobsTranspileResult;
  U_Result : OptNil JobsJobResult;
  U_Message : OptNil string
}.

Inductive api_request :=
| PatchJob (jid : string) (status : string)
| PatchJobInfo (jid : string) (req : JobsUpdateJobInfoRequest)
| UpdateJobTranspilerInfo (jid : string) (ti : gmap string (option string)).

(** The client: a call is logged and answers with an error or not. *)
Class IProviderAPI (W : Type) := {
  api_call : api_request -> W -> option error * W;
  api_log : W -> list api_request;
  api_log_call : forall r w, api_log (api_call r w).2 = api_log w ++ [r]
}.

Definition call {W} `{IProviderAPI W} (r : api_request) : M (W * JobData) (option error) :=
  fun s => let '(e, w) := api_call r s.1 in (Ret e, (w, s.2)).

Section service_db.
Context {W : Type} `{HA : IProviderAPI W} {MR : MapRange} {GF : GoFloat}.

Definition ServiceDB_Insert (j : JobData) : option error := None.
Definition ServiceDB_Get (jobID : string) : option error := Some ("not found " +:+ jobID).
Definition ServiceDB_Delete (jobID : string) : option error := None.

Definition putTranspilerInfo (cJob : JobsJobDef) : M (W * JobData) (option error) :=
  match OGet (C_TranspilerInfo cJob) with
  | None => ret None
  | Some ti => call (UpdateJobTranspilerInfo (C_JobID cJob) ti)
  end.

(** The update of the status only. *)
Definition updateStatusOnly (jid : string) (cJob : JobsJobDef) : M (W * JobData) (option error) :=
  if String.eqb (C_Status cJob) "running" then call (PatchJob jid "running") else ret None.

(** The transpile result of the request: the one of the converted job. *)
Definition update_transpile_result (d : JobData) (cJob : JobsJobDef) : outcome (OptNil JobsTranspileResult) :=
  let? need := JobData_NeedTranspiling d in
  if need then
    match OGet (TranspileResult (C_JobInfo cJob)) with
    | Some tr => Ret (OSet (mkTranspileResult (TranspiledQASM d) (T_Stats tr) (T_VirtualPhysicalMapping tr)))
    | None => Ret (OSet (mkTranspileResult (TranspiledQASM d) None None))
    end
  else Ret ONull.

Definition ServiceDB_Update : M (W * JobData) (option error) :=
  let! s := get in
  let jid := ID s.2 in
  let '(cJob, d) := ConvertToCloudJob s.2 in
  modify (fun s => (s.1, d)) ;;!
  if negb (UseJobInfoUpdate d) then updateStatusOnly jid cJob
  else
    let res := if String.eqb (C_Status cJob) "failed" then OUnset else JI_Result (C_JobInfo cJob) in
    let! tr := lift (update_transpile_result d cJob) in
    let req := mkUpdateJobInfo (C_Status cJob) (C_ExecutionTime cJob) (CombinedProgram (C_JobInfo cJob)) tr res
                 (OSet (default "" (OGet (JI_Message (C_JobInfo cJob))))) in
    match Result_TranspilerInfo (JobResult d) with
    | None => gopanic nil_pointer
    | Some _ =>
        let! patchErr := call (PatchJobInfo jid req) in
        match patchErr with
        | Some e => ret (Some e)
        | None => if NeedsUpdateTranspilerInfo d then putTranspilerInfo cJob else ret None
        end
    end.

(** The goroutine of [Setup]: errors are dropped; a nil job (the closed channel)
    is dereferenced. *)
Fixpoint ServiceDB_loop (msgs : list (option JobData)) : M W unit :=
  match msgs with
  | [] => ret tt
  | None :: _ => gopanic nil_pointer
  | Some d :: msgs' =>
      (fun w => match ServiceDB_Update (w, d) with
                | (Ret _, (w', _)) => (Ret tt, w')
                | (Panic m, (w', _)) => (Panic m, w')
                end) ;;!
      ServiceDB_loop msgs'
  end.
End service_db.

(** ** The poll client *)

Section poll_client.
Context {W J : Type} `{ITranspiler W} `{IQPUManager W} {MR : MapRange} {GF : GoFloat}.
(** The job manager, [UnknownJob.New], the clock and whether [NewJobContext]
    fails. *)
Context (jm : JobManager J) (mkUnknown : JobData -> J) (now : Z) (noContext : bool).

(** The job type of a definition; [None] is the default branch. *)
Definition poll_job_type (t : string) : option string :=
  if String.eqb t "sampling" then Some SAMPLING_JOB
  else if String.eqb t "estimation" then Some ESTIMATION_JOB
  else if String.eqb t "sse" then Some SSE_JOB
  else if String.eqb t "multi_manual" then Some MULTIPROG_MANUAL_JOB
  else None.

(** The job made from job data: a rejected one becomes an [UnknownJob]. *)
Definition poll_new_job (w : W) (d : JobData) : outcome J :=
  let? r := NewJobFromJobDataWithValidation w jm d in
  match r with
  | (inl j, _) => Ret j
  | (inr e, d') => Ret (mkUnknown (SetFailureWithErrorToJobData now e d'))
  end.

(** The loop of [toJobSlice] with the jobs so far.  [break] in the default
    branch leaves only the switch, so the loop goes on with an emptied list. *)
Fixpoint toJobSlice_loop (w : W) (jobDefs : list JobsJobDef) (jobs : list J) : outcome (list J) :=
  match jobDefs with
  | [] => Ret jobs
  | cJob :: jobDefs' =>
      let? d := ConvertFromCloudJob now cJob in
      if noContext then Ret []
      else
        match poll_job_type (C_JobType cJob) with
        | Some t =>
            let? j := poll_new_job w (set_JobType t d) in
            toJobSlice_loop w jobDefs' (jobs ++ [j])
        | None =>
            let? j := poll_new_job w d in
            toJobSlice_loop w jobDefs' [j]
        end
  end.

(** The named result [err] is shadowed in the loop: it stays nil. *)
Definition toJobSlice (w : W) (jobDefs : list JobsJobDef) : outcome (list J * option error) :=
  let? jobs := toJobSlice_loop w jobDefs [] in Ret (jobs, None).

(** The answer of [GetJobs]. *)
Inductive GetJobsRes := GetJobsOK (l : list JobsJobDef) | GetJobsOther (ty : string).

Definition poll_request (w : W) (res0 : GetJobsRes + error) : outcome (list J * option error) :=
  match res0 with
  | inr e => Ret ([], Some ("failed to get jobs/reason:" +:+ e))
  | inl (GetJobsOK l) => toJobSlice w l
  | inl (GetJobsOther ty) => Ret ([], Some ("unexpected response type " +:+ ty))
  end.
End poll_client.

(** ** What reaches the cloud *)

Section service_facts.
Context {W : Type} `{HA : IProviderAPI W} {MR : MapRange} {GF : GoFloat}.

Lemma cloud_result_fields d t r c d' :
  cloud_result d = (t, r, c, d') ->
  JobStatus d' = JobStatus d /\ ID d' = ID d /\ UseJobInfoUpdate d' = UseJobInfoUpdate d /\
  Transpiler d' = Transpiler d /\ JobResult d' = JobResult d /\
  NeedsUpdateTranspilerInfo d' = NeedsUpdateTranspilerInfo d.
Proof.
  unfold cloud_result. intros H. repeat case_match; simplify_eq/=; try done; by destruct d.
Qed.

Lemma ConvertToCloudJob_fields d cJob d' :
  ConvertToCloudJob d = (cJob, d') ->
  C_Status cJob = convertToAPIStatus (JobStatus d) /\ C_JobID cJob = ID d /\ ID d' = ID d /\
  UseJobInfoUpdate d' = UseJobInfoUpdate d /\ Transpiler d' = Transpiler d /\ JobResult d' = JobResult d /\
  NeedsUpdateTranspilerInfo d' = NeedsUpdateTranspilerInfo d /\
  (exists ti, C_TranspilerInfo cJob = OSet ti) /\ OGet (JI_Message (C_JobInfo cJob)) = Some (Message (JobResult d)).
Proof.
  unfold ConvertToCloudJob. destruct (cloud_result d) as [[[t r] c] d1] eqn:E.
  apply cloud_result_fields in E as (H1 & H2 & H3 & H4 & H5 & H6). intros [= <- <-]. cbn.
  rewrite H2, H3, H4, H5, H6. repeat split; eauto.
Qed.

(** The result the cloud gets for the job data [d], type by type. *)
Definition published_result (d : JobData) (r : JobsJobResult) : Prop :=
  let res := JobResult d in
  (JobType d = "sampling" \/ JobType d = "sse" ->
     r = mkJobResult (OSet (mkSampling (convertToAPICounts (Counts res)) OUnset)) ONull) /\
  (JobType d = "multi_manual" ->
     r = mkJobResult (OSet (mkSampling (convertToAPICounts (Counts res))
                              (OSet (convertToAPIDividedCounts (DividedResult res))))) ONull) /\
  (JobType d = "estimation_job" ->
     exists e, r = mkJobResult OUnset (OSet e) /\
       E_ExpValue e = (fun x => f64_of_f32 (Exp_value x)) <$> Result_Estimation res /\
       E_Stds e = (fun x => f64_of_f32 (Stds x)) <$> Result_Estimation res).

(** The combined program: that of the JSON object a finished multi_manual job
    keeps as its program, and an empty one otherwise. *)
Definition published_combined (d : JobData) (p : string) : Prop :=
  (JobType d <> "multi_manual" -> p = "") /\
  (forall m, JobType d = "multi_manual" -> JobStatus d = SUCCEEDED \/ JobStatus d = FAILED ->
     Unmarshal (decode_map decode_string "map[string]string") ∅ (QASM d) = (m, None) ->
     p = default "" (m !! "combined_qasm")).

(** The transpiled program with the maps of the transpiler information [info],
    or null if the job is not to be transpiled. *)
Definition published_transpiled (d : JobData) (c : TranspilerConfig) (info : TranspilerInfo)
    (tr : OptNil JobsTranspileResult) : Prop :=
  match TranspilerLib c with
  | None => tr = ONull
  | Some _ => tr = OSet (mkTranspileResult (TranspiledQASM d) (Some (raw_map_of (StatsRaw info)))
                           (Some (raw_map_of (VirtualPhysicalMappingRaw info))))
  end.

Lemma cloud_result_published d t r c d' : cloud_result d = (t, r, c, d') ->
  published_result d r /\ published_combined d c /\ TranspiledQASM d' = TranspiledQASM d.
Proof.
  unfold cloud_result, published_result, published_combined. intros H. cbn zeta.
  destruct (decide (JobType d = "sampling")) as [E1|N1].
  { rewrite E1 in *. cbn in H. injection H as <- <- <- <-.
    split_and!; try done; by intros [?|?]. }
  destruct (decide (JobType d = "multi_manual")) as [E2|N2].
  { rewrite E2 in *. cbn in H.
    destruct (bool_decide (JobStatus d = SUCCEEDED) || bool_decide (JobStatus d = FAILED)) eqn:Eb.
    - destruct (Unmarshal _ _ _) as [m [e|]] eqn:Em; injection H as <- <- <- <-;
        (split_and!; [naive_solver..|by destruct d]).
    - injection H as <- <- <- <-. split_and!; [naive_solver|done|naive_solver|done| |done].
      intros m _ Hs. exfalso. apply orb_false_iff in Eb as [Eb1 Eb2].
      apply bool_decide_eq_false in Eb1, Eb2. by destruct Hs. }
  destruct (decide (JobType d = "sse")) as [E3|N3].
  { rewrite E3 in *. cbn in H. injection H as <- <- <- <-. naive_solver. }
  rewrite !bool_decide_eq_false_2 in H by done. cbn [orb] in H.
  case_bool_decide as E4; simplify_eq/=.
  - split_and!; [naive_solver|naive_solver| |done|naive_solver|done]. intros _.
    destruct (Result_Estimation (JobResult d')); eexists; done.
  - naive_solver.
Qed.

(** The request [PatchJobInfo] of a full update. *)
Definition full_update (d : JobData) (c : TranspilerConfig) (info : TranspilerInfo)
    (req : JobsUpdateJobInfoRequest) : Prop :=
  OverwriteStatus req = convertToAPIStatus (JobStatus d) /\
  U_Message req = OSet (Message (JobResult d)) /\
  (JobStatus d = FAILED \/ JobStatus d = CANCELLED -> U_Result req = OUnset) /\
  (JobStatus d <> FAILED -> JobStatus d <> CANCELLED ->
     exists r, U_Result req = OSet r /\ published_result d r) /\
  (exists p, U_CombinedProgram req = OSet p /\ published_combined d p) /\
  published_transpiled d c info (U_TranspileResult req) /\
  U_ExecutionTime req = (if ExecutionTime (JobResult d) =? 0 then ONull
                         else OSet (seconds (ExecutionTime (JobResult d)))).

(** The text of a number survives the detour through [float64]. *)
Lemma default_transpiler_info : norm_number "1" = Some "1" ->
  convertToAPITranspilerInfo (Some DEFAULT_TRANSPILER_CONFIG) =
    {[ "transpiler_lib" := Some (quote "qiskit");
       "transpiler_options" := Some ("{" +:+ quote "optimization_level" +:+ ":1}") ]}.
Proof.
  intros Hn. unfold convertToAPITranspilerInfo.
  assert (config_members DEFAULT_TRANSPILER_CONFIG =
    Some [("transpiler_lib", JStr "qiskit"); ("transpiler_options", JObj [("optimization_level", JNum "1")])]) as ->
    by (vm_compute; reflexivity).
  cbn. rewrite Hn. cbn [fmap option_fmap option_map mbind option_bind].
  assert (json_of_map id (list_to_map (reverse [("optimization_level", JNum "1")]) : gmap string json)
          = JObj [("optimization_level", JNum "1")]) as ->.
  { change (list_to_map (reverse [("optimization_level", JNum "1")]) : gmap string json)
      with ({[ "optimization_level" := JNum "1" ]} : gmap string json).
    unfold json_of_map. destruct (sort_members_fmap id (range {[ "optimization_level" := JNum "1" ]})) as (l & Hl & ->).
    rewrite range_perm, map_to_list_singleton in Hl. apply Permutation_singleton_r in Hl as ->. reflexivity. }
  reflexivity.
Qed.

Lemma ServiceDB_Update_full w d c info :
  UseJobInfoUpdate d = true -> Transpiler d = Some c -> Result_TranspilerInfo (JobResult d) = Some info ->
  exists req d', full_update d c info req /\
    ServiceDB_Update (w, d) =
      (let '(e, w1) := api_call (PatchJobInfo (ID d) req) w in
       match e with
       | Some e => (Ret (Some e), (w1, d'))
       | None =>
           if NeedsUpdateTranspilerInfo d then
             let '(e', w2) := api_call (UpdateJobTranspilerInfo (ID d) (convertToAPITranspilerInfo (Some c))) w1 in
             (Ret e', (w2, d'))
           else (Ret None, (w1, d'))
       end).
Proof.
  intros Hu Hc Hi. unfold ServiceDB_Update, bind, get, modify. cbn [fst snd].
  unfold ConvertToCloudJob. destruct (cloud_result d) as [[[t r] p] d'] eqn:E.
  destruct (cloud_result_published _ _ _ _ _ E) as (Hr & Hp & Hq).
  apply cloud_result_fields in E as (H1 & H2 & H3 & H4 & H5 & H6).
  rewrite H3, Hu, H5, Hi. cbn [negb].
  assert (exists tr, update_transpile_result d' (mkJobDef (ID d') (Shots d') t
            (mkJobInfo [QASM d'] (OSet p) OUnset (OSet r) (cloud_transpile_result d') (OSet (Message (JobResult d))))
            (OSet (convertToAPITranspilerInfo (Transpiler d'))) OUnset (convertToAPIStatus (JobStatus d))
            (if ExecutionTime (JobResult d) =? 0 then ONull else OSet (seconds (ExecutionTime (JobResult d)))) OUnset)
            = Ret tr /\ published_transpiled d c info tr) as (tr & Etr & Htr).
  { unfold update_transpile_result, JobData_NeedTranspiling, cloud_transpile_result, published_transpiled.
    rewrite H4, Hc, H5, Hi. cbn. destruct (TranspilerLib c); cbn; rewrite ?Hq; eauto. }
  unfold lift. rewrite Etr. unfold call, ret, putTranspilerInfo. cbn -[convertToAPITranspilerInfo]. rewrite H6, H4, Hc, H2.
  match goal with |- context [api_call (PatchJobInfo _ ?rq) w] => exists rq, d' end. split.
  2: { destruct (api_call _ w) as [[e|] w1]; [reflexivity|].
       destruct (NeedsUpdateTranspilerInfo d); [|reflexivity]. unfold call. cbn -[convertToAPITranspilerInfo]. by destruct (api_call (UpdateJobTranspilerInfo _ _) w1). }
  split_and!; cbn; [done|done| | |by eauto|exact Htr|done].
  - intros [-> | ->]; done.
  - intros Hf Hca. exists r. split; [|done]. by destruct (JobStatus d).
Qed.

(** C31: the requests made for a job received on the database channel.  While
    the job is not marked for a full update, the only request is the status
    change of a RUNNING job, and nothing is sent for any other status, FAILED
    included.  A job marked for a full update, with transpiler configuration and
    information, is sent with its status, its message, its execution time, its
    combined and its transpiled program and its result (the one of its job type,
    and none when it failed).  If that request succeeds and the configuration of
    the job was defaulted, one more request follows with that configuration, and
    none otherwise; the error returned is that of the last request. *)
Theorem service_db_requests (w : W) d :
  let '(r, (w', _)) := ServiceDB_Update (w, d) in
  (UseJobInfoUpdate d = false ->
     exists e, r = Ret e /\
     api_log w' = api_log w ++ (if decide (JobStatus d = RUNNING) then [PatchJob (ID d) "running"] else [])) /\
  (forall c info, UseJobInfoUpdate d = true -> Transpiler d = Some c ->
     Result_TranspilerInfo (JobResult d) = Some info ->
     exists req e w1, full_update d c info req /\ api_call (PatchJobInfo (ID d) req) w = (e, w1) /\
       let config := convertToAPITranspilerInfo (Some c) in
       let more := if bool_decide (e = None) && NeedsUpdateTranspilerInfo d
                   then [UpdateJobTranspilerInfo (ID d) config] else [] in
       api_log w' = api_log w ++ PatchJobInfo (ID d) req :: more /\
       r = Ret (if bool_decide (more = []) then e else (api_call (UpdateJobTranspilerInfo (ID d) config) w1).1) /\
       (c = DEFAULT_TRANSPILER_CONFIG -> norm_number "1" = Some "1" ->
          config = {[ "transpiler_lib" := Some (quote "qiskit");
                      "transpiler_options" := Some ("{" +:+ quote "optimization_level" +:+ ":1}") ]})).
Proof.
  destruct (ServiceDB_Update (w, d)) as [r [w' d2]] eqn:EX. split.
  - intros Hu. unfold ServiceDB_Update, bind, get, modify in EX. cbn [fst snd] in EX.
    destruct (ConvertToCloudJob d) as [cJob d'] eqn:E.
    apply ConvertToCloudJob_fields in E as (H1 & _ & _ & H3 & _). rewrite H3, Hu in EX. cbn [negb] in EX.
    unfold updateStatusOnly, call, ret in EX. rewrite H1 in EX.
    destruct (String.eqb_spec (convertToAPIStatus (JobStatus d)) "running") as [Er|Er].
    + pose proof (api_log_call (PatchJob (ID d) "running") w) as Hl. cbn [fst snd] in EX.
      destruct (api_call _ w) as [e w1]. cbn in Hl. injection EX as <- <- _.
      exists e. split; [done|]. rewrite Hl. rewrite decide_True; [done|]. by destruct (JobStatus d).
    + injection EX as <- <- _. exists None. split; [done|]. rewrite decide_False; [by rewrite app_nil_r|].
      intros Hr. by rewrite Hr in Er.
  - intros c info Hu Hc Hi. destruct (ServiceDB_Update_full w d c info Hu Hc Hi) as (req & d3 & Hreq & E).
    rewrite E in EX. clear E. pose proof (api_log_call (PatchJobInfo (ID d) req) w) as Hl.
    destruct (api_call (PatchJobInfo (ID d) req) w) as [e w1] eqn:Ec. cbn in Hl.
    exists req, e, w1. split; [done|]. split; [done|]. cbn zeta.
    pose proof (api_log_call (UpdateJobTranspilerInfo (ID d) (convertToAPITranspilerInfo (Some c))) w1) as Hl2.
    assert (c = DEFAULT_TRANSPILER_CONFIG -> norm_number "1" = Some "1" ->
      convertToAPITranspilerInfo (Some c) = {[ "transpiler_lib" := Some (quote "qiskit");
         "transpiler_options" := Some ("{" +:+ quote "optimization_level" +:+ ":1}") ]}) as Hdef
      by (intros ->; apply default_transpiler_info).
    destruct e as [e|]; [by simplify_eq/=|].
    destruct (NeedsUpdateTranspilerInfo d); cbn -[convertToAPITranspilerInfo]; [|by simplify_eq/=].
    destruct (api_call (UpdateJobTranspilerInfo _ _) w1) as [e2 w2]. cbn -[convertToAPITranspilerInfo] in *.
    simplify_eq/=. split; [by rewrite Hl2, Hl, <- app_assoc|done].
Qed.
End service_facts.

(** ** A panic before the queue is not reported *)

Section panic_unreported.
Context {W J WA : Type} `{HJ : HasJobData J} `{IJ : !IJob W J} `{HD : IDBChan W J} `{HA : IProviderAPI WA}
  {MR : MapRange} {GF : GoFloat}.

Lemma ServiceDB_Update_silent (wa : WA) d :
  UseJobInfoUpdate d = false -> JobStatus d <> RUNNING ->
  exists d', ServiceDB_Update (wa, d) = (Ret None, (wa, d')).
Proof.
  intros Hu Hs. unfold ServiceDB_Update, bind, get, modify. cbn [fst snd].
  destruct (ConvertToCloudJob d) as [cJob d'] eqn:E.
  apply ConvertToCloudJob_fields in E as (H1 & _ & _ & H3 & _). rewrite H3, Hu. cbn [negb].
  unfold updateStatusOnly, ret. rewrite H1. destruct (String.eqb_spec (convertToAPIStatus (JobStatus d)) "running").
  - by destruct (JobStatus d).
  - eauto.
Qed.

(** The cloud never learns of a job whose pre-processing panics.  The
    handler recovers, marks the job FAILED and sends it to the database, but
    without the mark for a full update, so that the service database makes no
    request for it; the job stays as it was in the cloud. *)
Theorem preprocess_panic_unreported (w : W) (j : J) hist m w1 j1 :
  JobStatus (jd j) = READY ->
  PreProcess (w, with_jd (set_UseJobInfoUpdate false (jd j)) j) = (Panic m, (w1, j1)) ->
  UseJobInfoUpdate (jd j1) = false -> db_sent w1 = db_sent w ->
  exists l' d, HandleJob 1 ((w, j), hist) = (Ret true, l') /\
    (jd <$> db_sent (l_world l')) = (jd <$> db_sent w) ++ [d] /\ JobStatus d = FAILED /\
    forall wa : WA, exists d', ServiceDB_Update (wa, d) = (Ret None, (wa, d')).
Proof.
  intros Hr Hp Hu Hs. set (d := set_JobStatus FAILED (jd j1)).
  assert (JobStatus d = FAILED /\ UseJobInfoUpdate d = false) as [Hd1 Hd2] by (subst d; by destruct (jd j1)).
  unfold HandleJob, handleImpl, guarded, recovering. cbn [handle_loop].
  unfold handle_head, handle_recover, s_IsFinished, s_jd, s_upd, on_job, upd_jd, hist_append, send_clone,
    handler_exit, bind, get, gets, modify, lift, ret, l_world, l_job, l_hist. cbn.
  rewrite jd_with_jd, JobStatus_set_update, Hr, bool_decide_eq_true_2 by done. cbn. rewrite Hp. cbn.
  eexists _, d. split; [reflexivity|]. cbn. rewrite db_sent_send, fmap_app, Hs. cbn.
  rewrite jd_Clone, jd_with_jd. split; [done|]. split; [done|]. intros wa.
  apply (ServiceDB_Update_silent wa d Hd2). by rewrite Hd1.
Qed.
End panic_unreported.

(** ** Polled batches *)

Section poll_facts.
Context {W J : Type} `{HT : ITranspiler W} `{HQ : IQPUManager W} {MR : MapRange} {GF : GoFloat}.
Context (jm : JobManager J) (mkUnknown : JobData -> J) (now : Z).

(** The job of one definition of a known type. *)
Definition poll_one (w : W) (def : JobsJobDef) : outcome J :=
  match poll_job_type (C_JobType def) with
  | Some t => let? d := ConvertFromCloudJob now def in poll_new_job jm mkUnknown now w (set_JobType t d)
  | None => let? d := ConvertFromCloudJob now def in poll_new_job jm mkUnknown now w d
  end.

Lemma toJobSlice_loop_known w defs jobs acc :
  Forall (fun def => poll_job_type (C_JobType def) <> None) defs ->
  Forall2 (fun def j => poll_one w def = Ret j) defs jobs ->
  toJobSlice_loop jm mkUnknown now false w defs acc = Ret (acc ++ jobs).
Proof.
  intros Hk Hj. revert acc. induction Hj as [|def j defs jobs Hd Hj IH]; intros acc; cbn; [by rewrite app_nil_r|].
  inversion Hk as [|? ? Hkd Hk']; subst. unfold poll_one in Hd.
  destruct (poll_job_type (C_JobType def)) as [t|] eqn:Et; [|done].
  destruct (ConvertFromCloudJob now def) as [d|m]; [|done]. cbn [obind] in *. rewrite Hd. cbn [obind].
  rewrite IH by done. by rewrite <- app_assoc.
Qed.

(** A polled batch is converted completely.  When every definition has a
    known job type and none makes the conversion panic, the poll client returns
    one job per definition, in order, and no error; a definition that fails
    validation is returned as a failed [UnknownJob]. *)
Theorem poll_batch_complete w defs jobs :
  Forall (fun def => poll_job_type (C_JobType def) <> None) defs ->
  Forall2 (fun def j => poll_one w def = Ret j) defs jobs ->
  poll_request jm mkUnknown now false w (inl (GetJobsOK defs)) = Ret (jobs, None) /\ length jobs = length defs.
Proof.
  intros Hk Hj. split; [|symmetry; by eapply Forall2_length]. unfold poll_request, toJobSlice.
  by rewrite (toJobSlice_loop_known w defs jobs []).
Qed.

Lemma toJobSlice_loop_acc w defs acc def post :
  poll_job_type (C_JobType def) = None ->
  (exists jobs, Forall2 (fun def j => poll_one w def = Ret j) defs jobs) ->
  toJobSlice_loop jm mkUnknown now false w (defs ++ def :: post) acc =
  toJobSlice_loop jm mkUnknown now false w (def :: post) [].
Proof.
  intros Hu [jobs Hj]. revert acc. induction Hj as [|d0 j0 defs jobs Hd Hj IH]; intros acc; cbn.
  - destruct (ConvertFromCloudJob now def) as [d|m]; [|done]. cbn. by rewrite Hu.
  - unfold poll_one in Hd. destruct (poll_job_type (C_JobType d0)) as [t|];
      (destruct (ConvertFromCloudJob now d0) as [d|m]; [|done]; cbn [obind] in *; rewrite Hd; cbn [obind]; apply IH).
Qed.

(** A job of an unknown type makes the poll client forget the jobs before
    it.  The answer to a batch with such a job is the answer to the part of the
    batch that starts there, again without an error: the earlier jobs of the
    batch, which the cloud has already handed out, are lost. *)
Theorem poll_unknown_type_drops w pre def post :
  poll_job_type (C_JobType def) = None ->
  (exists jobs, Forall2 (fun def j => poll_one w def = Ret j) pre jobs) ->
  poll_request jm mkUnknown now false w (inl (GetJobsOK (pre ++ def :: post))) =
  poll_request jm mkUnknown now false w (inl (GetJobsOK (def :: post))).
Proof. intros Hu Hp. unfold poll_request, toJobSlice. by rewrite toJobSlice_loop_acc. Qed.

(** A batch of known types is converted completely, or a conversion panics. *)
Lemma toJobSlice_loop_cases w defs acc : Forall (fun def => poll_job_type (C_JobType def) <> None) defs ->
  match toJobSlice_loop jm mkUnknown now false w defs acc with
  | Ret js => exists jobs, js = acc ++ jobs /\ Forall2 (fun def j => poll_one w def = Ret j) defs jobs
  | Panic m => Exists (fun def => poll_one w def = Panic m) defs
  end.
Proof.
  intros Hk. revert acc. induction Hk as [|def defs Hd Hk IH]; intros acc; cbn [toJobSlice_loop].
  - exists []. by rewrite app_nil_r.
  - assert (forall m, poll_one w def = Panic m -> Exists (fun def => poll_one w def = Panic m) (def :: defs)) as Hpanic
      by (intros m Hm; by left).
    unfold poll_one in Hpanic at 1. destruct (poll_job_type (C_JobType def)) as [t|] eqn:Et; [|done].
    destruct (ConvertFromCloudJob now def) as [d|m] eqn:Ec; cbn [obind] in *; [|by apply Hpanic].
    destruct (poll_new_job jm mkUnknown now w (set_JobType t d)) as [j|m] eqn:Ej; cbn [obind]; [|by apply Hpanic].
    specialize (IH (acc ++ [j])). destruct (toJobSlice_loop _ _ _ _ _ defs _) as [js|m]; [|by right].
    destruct IH as (jobs & -> & Hjobs). exists (j :: jobs). rewrite <- app_assoc. split; [done|].
    constructor; [|done]. unfold poll_one. by rewrite Et, Ec.
Qed.

(** The only panic of a known type is a missing program. *)
Lemma poll_one_panic w def m : poll_job_type (C_JobType def) <> None -> poll_one w def = Panic m ->
  C_JobType def <> "multi_manual" /\ Program (C_JobInfo def) = [].
Proof.
  intros Hk Hp. destruct (decide (C_JobType def = "multi_manual" \/ Program (C_JobInfo def) <> [])) as [Hok|Hno].
  2: { split; [naive_solver|]. destruct (decide (Program (C_JobInfo def) = [])); naive_solver. }
  exfalso. destruct (ConvertFromCloudJob_total now def Hok) as (d & Hd & Ht). unfold poll_one in Hp. rewrite Hd in Hp.
  destruct (poll_job_type (C_JobType def)) as [t|] eqn:Et; [|done]. cbn [obind] in Hp.
  assert (t <> NORMAL_JOB /\ t <> "") as [Hn He].
  { unfold poll_job_type in Et. repeat case_match; simplify_eq; done. }
  unfold poll_new_job, NewJobFromJobDataWithValidation, validateJobParam, validateTranspilerLib in Hp.
  destruct d; cbn in Ht, Hp. rewrite (bool_decide_eq_false_2 (t = "")) in Hp by done. cbn in Hp.
  rewrite (bool_decide_eq_false_2 (t = NORMAL_JOB)) in Hp by done. cbn in Hp.
  repeat case_match; simplify_eq/=; try done; repeat case_match; simplify_eq/=; done.
Qed.
End poll_facts.

(** ** Instances *)

Module CloudExample.
#[local] Instance order : MapRange := canonical_range.
#[local] Instance floats : GoFloat :=
  {| float_json := FormatInt; norm_number lit := Some lit; f64_of_f32 z := z; seconds z := z / 10 ^ 9 |}.

(** An API that accepts everything. *)
#[global] Program Instance api : IProviderAPI (list api_request) :=
  {| api_call r w := (None, w ++ [r]); api_log w := w |}.
Next Obligation. reflexivity. Qed.

(** A job without transpiler configuration: pre-processing dereferences nil. *)
Definition no_config : NormalJob := mkNormalJob (set_ID "a" (set_JobStatus READY (NewJobData 0))).

Definition manager : JobManager NormalJob := mkJobManager [mkJobProto "*sampling.SamplingJob" SAMPLING_JOB NormalJob_New].
Definition def (id ty : string) : JobsJobDef :=
  mkJobDef id 100 ty (mkJobInfo ["OPENQASM 3;"] OUnset OUnset OUnset OUnset OUnset) OUnset OUnset "ready" OUnset OUnset.
Definition request (defs : list JobsJobDef) : outcome (list NormalJob * option error) :=
  poll_request manager NormalJob_New 0 false SchedExample.start (inl (GetJobsOK defs)).
Definition one (id ty : string) : outcome NormalJob :=
  poll_one manager NormalJob_New 0 SchedExample.start (def id ty).
Definition job_of (o : outcome NormalJob) : NormalJob :=
  match o with Ret j => j | Panic _ => no_config end.
End CloudExample.

Lemma preprocess_panic_unreported_witness :
  exists l' d, HandleJob 1 ((SchedExample.start, CloudExample.no_config), ∅) = (Ret true, l') /\
    (jd <$> db_sent (l_world l')) = [] ++ [d] /\ JobStatus d = FAILED /\
    forall wa : list api_request, exists d',
      @ServiceDB_Update _ _ canonical_range CloudExample.floats (wa, d) = (Ret None, (wa, d')).
Proof.
  destruct (@preprocess_panic_unreported SchedExample.World NormalJob (list api_request) _ _ _ _
    canonical_range CloudExample.floats SchedExample.start CloudExample.no_config ∅ nil_pointer SchedExample.start
    (with_jd (set_UseJobInfoUpdate false (jd CloudExample.no_config)) CloudExample.no_config))
    as (l' & d & H1 & H2 & H3 & H4); [vm_compute; reflexivity|vm_compute; reflexivity|vm_compute; reflexivity|reflexivity|].
  exists l', d. split; [exact H1|]. split; [exact H2|]. split; [exact H3|exact H4].
Defined.

Lemma poll_batch_complete_witness :
  CloudExample.request [CloudExample.def "a" "sampling"; CloudExample.def "b" "sse"] =
    Ret ([CloudExample.job_of (CloudExample.one "a" "sampling"); CloudExample.job_of (CloudExample.one "b" "sse")], None).
Proof.
  unfold CloudExample.request. apply poll_batch_complete; [repeat constructor; done|].
  constructor; [vm_compute; reflexivity|]. constructor; [vm_compute; reflexivity|constructor].
Defined.

Lemma poll_unknown_type_drops_witness :
  CloudExample.request ([CloudExample.def "a" "sampling"] ++ CloudExample.def "b" "future" :: []) =
  CloudExample.request (CloudExample.def "b" "future" :: []).
Proof.
  unfold CloudExample.request. apply poll_unknown_type_drops; [reflexivity|].
  exists [CloudExample.job_of (CloudExample.one "a" "sampling")]. constructor; [|constructor]. vm_compute. reflexivity.
Defined.

(** A finished sampling job whose configuration was defaulted: two requests, the
    second with the default configuration. *)
Definition defaulted_job : JobData :=
  set_NeedsUpdateTranspilerInfo true (set_Transpiler (Some DEFAULT_TRANSPILER_CONFIG)
    (set_JobType SAMPLING_JOB (set_JobStatus SUCCEEDED (set_UseJobInfoUpdate true
      (upd_Result (set_Counts {[ "01" := 12 ]}) (jd (SchedExample.job "a"))))))).

Lemma service_db_requests_witness :
  exists req info w',
    (@ServiceDB_Update _ _ canonical_range CloudExample.floats ([], defaulted_job)).2.1 = w' /\
    api_log w' = [PatchJobInfo "a" req;
                  UpdateJobTranspilerInfo "a"
                    {[ "transpiler_lib" := Some (quote "qiskit");
                       "transpiler_options" := Some ("{" +:+ quote "optimization_level" +:+ ":1}") ]}] /\
    @full_update canonical_range CloudExample.floats defaulted_job DEFAULT_TRANSPILER_CONFIG info req /\
    OverwriteStatus req = "succeeded" /\
    U_Result req = OSet (mkJobResult (OSet (mkSampling {[ "01" := "12" ]} OUnset)) ONull).
Proof.
  pose proof (@service_db_requests (list api_request) _ canonical_range CloudExample.floats [] defaulted_job) as H.
  destruct (ServiceDB_Update _) as [r [w' d']].
  destruct (proj2 H DEFAULT_TRANSPILER_CONFIG (mkTranspilerInfo None (Some ∅) None None)) as
    (req & e & w1 & Hreq & Hcall & Hlog & _ & Hdef); [reflexivity|reflexivity|vm_compute; reflexivity|].
  exists req, (mkTranspilerInfo None (Some ∅) None None), w'.
  cbn in Hcall. injection Hcall as <- <-. rewrite (Hdef eq_refl eq_refl) in Hlog.
  destruct Hreq as (H1 & H2 & H3 & H4 & H5).
  split; [reflexivity|]. split; [exact Hlog|].
  split; [exact (conj H1 (conj H2 (conj H3 (conj H4 H5))))|]. split; [exact H1|].
  destruct H4 as (res & -> & Hres & _); [done|done|]. rewrite (Hres (or_introl eq_refl)).
  do 4 f_equal.
Defined.
