(* ===== verification/Mitigation.v ===== *)
(** * Package mitig: readout error mitigation (mitig/mitig.go)

    The mitigator is a gRPC service: [IMitigator] gives the connection and the
    call; the device topology sent along is made of the device information.  The settings are the global ones. *)

From stdpp Require Import base gmap strings list fin_maps.
From Stdlib Require Import ZArith Lia Ascii.
From S2P Require Import Prelude GoString Json Core Common Setting Job Converter.

Record MitigationInfo := mkMitigationInfo {
  NeedToBeMitigated : bool;
  Mitigated : bool;
  PropertyRaw : option string
}.

(** The property [ro_error_mitigation] of a JSON object of strings; [None] when
    the text does not decode or has no such property. *)
Definition ro_error_mitigation (raw : string) : option string :=
  match Unmarshal (decode_map decode_string "map[string]string") ∅ raw with
  | (_, Some _) => None
  | (props, None) => props !! "ro_error_mitigation"
  end.

(** The test of mitig.go and sampling/job.go: the raw JSON string. *)
Definition quoted_pseudo_inverse : string := dq +:+ "pseudo_inverse" +:+ dq.
Definition wants_pseudo_inverse (raw : string) : bool :=
  match ro_error_mitigation raw with
  | Some v => bool_decide (TrimSpace v = quoted_pseudo_inverse)
  | None => false
  end.

Definition NewMitigationInfoFromJobData (jd : JobData) : MitigationInfo :=
  let inputBytes := MitigationInfoStr jd in
  if (0 <? len inputBytes) && Valid inputBytes
  then mkMitigationInfo (wants_pseudo_inverse inputBytes) false (Some inputBytes)
  else mkMitigationInfo false false None.

Section qubits.
Context {MR : MapRange}.

Fixpoint num_qubits_loop (l : list (string * Z)) (candidateNum : Z) : Z + error :=
  match l with
  | [] => inl candidateNum
  | (k, _) :: l' =>
      if candidateNum =? 0 then num_qubits_loop l' (len k)
      else if negb (candidateNum =? len k) then inr "different length of keys in counts"
      else num_qubits_loop l' candidateNum
  end.

Definition getNumOfQubits (counts : gmap string Z) : Z + error :=
  if (size counts =? 0)%nat then inr "counts is empty" else num_qubits_loop (range counts) 0.

Definition getLowerBits (binStr : string) (n : Z) : outcome string :=
  let length := len binStr in
  if length <=? n then Ret binStr else slice binStr (length - n) length.

(** The address of the mitigator from the settings. *)
Definition mitigator_setting (g : option Setting) : MitigatorSetting :=
  match GetComponentSetting g "mitigator" with
  | None => NewMitigatorSetting
  | Some s =>
      match as_map (Some s) with
      | None => NewMitigatorSetting
      | Some mapped =>
          match as_string (mapped !! "host"), as_string (mapped !! "port") with
          | Some h, Some p => mkMitigatorSetting h p
          | _, _ => NewMitigatorSetting
          end
      end
  end.

(** [lbcts[getLowerBits(k, numOfQubits)] = uint32(v)] for every entry. *)
Fixpoint lower_counts (l : list (string * Z)) (n : Z) (acc : gmap string Z) : outcome (gmap string Z) :=
  match l with
  | [] => Ret acc
  | (k, v) :: l' =>
      let? b := getLowerBits k n in
      lower_counts l' n (<[b := u32 v]> acc)
  end.
End qubits.

(** ** The device topology *)

(** A number literal as a [float64] (nothing when it is out of range), and the
    conversion to [float32]; values are opaque, 0 is zero. *)
Class DeviceFloat := { parse_f64 : string -> option Z; f32_of_f64 : Z -> Z }.

Record Position := mkPosition { Pos_X : Z; Pos_Y : Z }.
Record MeasError := mkMeasError { ProbMeas1Prep0 : Z; ProbMeas0Prep1 : Z; ReadoutAssignmentError : Z }.
Record QubitLife := mkQubitLife { QL_T1 : Z; QL_T2 : Z }.
Record GateDur := mkGateDur { GD_RZ : Z; GD_SX : Z; GD_X : Z }.
Record Qubit := mkQubit {
  Q_ID : Z;
  PhysicalID : Z;
  Q_Position : Position;
  Fidelity : Z;
  Q_MeasError : MeasError;
  Q_QubitLife : QubitLife;
  Q_GateDur : GateDur
}.
Record DeviceInfoSpec := mkDeviceInfoSpec { DeviceID : string; Qubits : list Qubit }.

(** The messages of the service. *)
Record TopologyQubit := mkTopologyQubit {
  TQ_Id : Z; TQ_GateError : Z; TQ_T1 : Z; TQ_T2 : Z; TQ_P0M1 : Z; TQ_P1M0 : Z
}.
Record DeviceTopology := mkDeviceTopology { DT_Name : string; DT_Qubits : list TopologyQubit }.

(** Decoding a value into a variable that holds [cur]: null leaves it alone, and
    so does a value of another type, whose error is kept. *)
Definition jdecoder (A : Type) : Type := A -> json -> decoded A.

Definition j_string : jdecoder string := fun cur j =>
  match j with
  | JNull => (cur, None)
  | JStr s => (s, None)
  | _ => (cur, Some (type_error "string"))
  end.
Definition j_int : jdecoder Z := fun cur j =>
  match j with
  | JNull => (cur, None)
  | _ => match decode_int j with (n, None) => (n, None) | (_, e) => (cur, e) end
  end.
Definition j_float {DF : DeviceFloat} : jdecoder Z := fun cur j =>
  match j with
  | JNull => (cur, None)
  | JNum lit => match parse_f64 lit with Some f => (f, None) | None => (cur, Some (type_error "float64")) end
  | _ => (cur, Some (type_error "float64"))
  end.
Definition j_struct {A} (ty : string) (assign : string -> jdecoder A) : jdecoder A := fun cur j =>
  match j with
  | JNull => (cur, None)
  | JObj ms =>
      foldl (fun acc kv => let '(v, e) := assign (fold_name kv.1) acc.1 kv.2 in (v, first_error acc.2 e)) (cur, None) ms
  | _ => (cur, Some (type_error ty))
  end.
Definition j_list {A} (ty : string) (zero : A) (dec : jdecoder A) : jdecoder (list A) := fun cur j =>
  match j with
  | JNull => ([], None)
  | JArr l => foldr (fun x acc => let '(v, e) := dec zero x in (v :: acc.1, first_error e acc.2)) ([], None) l
  | _ => (cur, Some (type_error ty))
  end.
Definition j_map {A B} (f : B -> A) (d : decoded B) : decoded A := (f d.1, d.2).

Section topology.
Context {DF : DeviceFloat}.

Definition into_position : jdecoder Position := j_struct "core.Position" (fun name p j =>
  if String.eqb name "x" then j_map (fun v => mkPosition v (Pos_Y p)) (j_float (Pos_X p) j)
  else if String.eqb name "y" then j_map (fun v => mkPosition (Pos_X p) v) (j_float (Pos_Y p) j)
  else (p, None)).
Definition into_meas_error : jdecoder MeasError := j_struct "core.MeasError" (fun name m j =>
  if String.eqb name "prob_meas1_prep0" then
    j_map (fun v => mkMeasError v (ProbMeas0Prep1 m) (ReadoutAssignmentError m)) (j_float (ProbMeas1Prep0 m) j)
  else if String.eqb name "prob_meas0_prep1" then
    j_map (fun v => mkMeasError (ProbMeas1Prep0 m) v (ReadoutAssignmentError m)) (j_float (ProbMeas0Prep1 m) j)
  else if String.eqb name "readout_assignment_error" then
    j_map (fun v => mkMeasError (ProbMeas1Prep0 m) (ProbMeas0Prep1 m) v) (j_float (ReadoutAssignmentError m) j)
  else (m, None)).
Definition into_qubit_life : jdecoder QubitLife := j_struct "core.QubitLife" (fun name l j =>
  if String.eqb name "t1" then j_map (fun v => mkQubitLife v (QL_T2 l)) (j_float (QL_T1 l) j)
  else if String.eqb name "t2" then j_map (fun v => mkQubitLife (QL_T1 l) v) (j_float (QL_T2 l) j)
  else (l, None)).
Definition into_gate_dur : jdecoder GateDur := j_struct "core.GateDur" (fun name g j =>
  if String.eqb name "rz" then j_map (fun v => mkGateDur v (GD_SX g) (GD_X g)) (j_float (GD_RZ g) j)
  else if String.eqb name "sx" then j_map (fun v => mkGateDur (GD_RZ g) v (GD_X g)) (j_float (GD_SX g) j)
  else if String.eqb name "x" then j_map (fun v => mkGateDur (GD_RZ g) (GD_SX g) v) (j_float (GD_X g) j)
  else (g, None)).

Definition zero_qubit : Qubit :=
  mkQubit 0 0 (mkPosition 0 0) 0 (mkMeasError 0 0 0) (mkQubitLife 0 0) (mkGateDur 0 0 0).
Definition into_qubit : jdecoder Qubit := j_struct "core.Qubit" (fun name q j =>
  let '(mkQubit i ph po f m l g) := q in
  if String.eqb name "id" then j_map (fun v => mkQubit v ph po f m l g) (j_int i j)
  else if String.eqb name "physical_id" then j_map (fun v => mkQubit i v po f m l g) (j_int ph j)
  else if String.eqb name "position" then j_map (fun v => mkQubit i ph v f m l g) (into_position po j)
  else if String.eqb name "fidelity" then j_map (fun v => mkQubit i ph po v m l g) (j_float f j)
  else if String.eqb name "meas_error" then j_map (fun v => mkQubit i ph po f v l g) (into_meas_error m j)
  else if String.eqb name "qubit_lifetime" then j_map (fun v => mkQubit i ph po f m v g) (into_qubit_life l j)
  else if String.eqb name "gate_duration" then j_map (fun v => mkQubit i ph po f m l v) (into_gate_dur g j)
  else (q, None)).

Definition into_spec : jdecoder DeviceInfoSpec := j_struct "core.DeviceInfoSpec" (fun name s j =>
  if String.eqb name "device_id" then j_map (fun v => mkDeviceInfoSpec v (Qubits s)) (j_string (DeviceID s) j)
  else if String.eqb name "qubits" then
    j_map (fun v => mkDeviceInfoSpec (DeviceID s) v) (j_list "[]core.Qubit" zero_qubit into_qubit (Qubits s) j)
  else (s, None)).

Definition topology_qubit (q : Qubit) : TopologyQubit :=
  mkTopologyQubit (i32 (Q_ID q)) (f32_of_f64 (Fidelity q)) (f32_of_f64 (QL_T1 (Q_QubitLife q)))
    (f32_of_f64 (QL_T2 (Q_QubitLife q))) (f32_of_f64 (ProbMeas1Prep0 (Q_MeasError q)))
    (f32_of_f64 (ProbMeas0Prep1 (Q_MeasError q))).

(** The device information of the QPU manager; without one the code panics. *)
Definition deviceTopology (info : option DeviceInfo) : outcome (DeviceTopology + error) :=
  match info with
  | None => Panic nil_pointer
  | Some di =>
      match Unmarshal (into_spec (mkDeviceInfoSpec "" [])) (mkDeviceInfoSpec "" []) (DeviceInfoSpecJson di) with
      | (_, Some e) => Ret (inr e)
      | (dis, None) => Ret (inl (mkDeviceTopology (DeviceID dis) (topology_qubit <$> Qubits dis)))
      end
  end.
End topology.

(** ** The service *)

Class IMitigator (W : Type) := {
  mit_dial : string -> W -> option error * W;
  mit_request : DeviceTopology -> gmap string Z -> string -> W -> (gmap string Z + error) * W
}.

Section mitigation.
Context {W : Type} `{HM : IMitigator W} `{HQ : IQPUManager W} {MR : MapRange} {GS : GlobalSetting} {DF : DeviceFloat}.

Definition to_int32 (counts : gmap string Z) : gmap string Z :=
  foldl (fun cts kv => <[kv.1 := i32 kv.2]> cts) ∅ (range counts).

Definition fail_job : M (W * JobData) unit := modify (fun s => (s.1, set_JobStatus FAILED s.2)).

Definition PseudoInverseMitigation : M (W * JobData) unit :=
  let! s := get in
  let jd := s.2 in
  match getNumOfQubits (Counts (JobResult jd)) with
  | inr _ => fail_job
  | inl numOfQubits =>
      let ms := mitigator_setting globalSetting in
      match ValidAddress (MS_Host ms) (MS_Port ms) with
      | inr _ => fail_job
      | inl target =>
          let '(err, w) := mit_dial target s.1 in
          put (w, jd) ;;!
          match err with
          | Some _ => ret tt
          | None =>
              let cts := to_int32 (Counts (JobResult jd)) in
              let! topology := lift (deviceTopology (QPU_GetDeviceInfo w)) in
              match topology with
              | inr _ => fail_job
              | inl dt =>
                  let prg := if bool_decide (TranspiledQASM jd = "") then QASM jd else TranspiledQASM jd in
                  let '(res, w) := mit_request dt cts prg w in
                  put (w, jd) ;;!
                  match res with
                  | inr _ => fail_job
                  | inl counts =>
                      let! lbcts := lift (lower_counts (range counts) numOfQubits ∅) in
                      modify (fun s => (s.1, set_JobStatus SUCCEEDED (upd_Result (set_Counts lbcts) s.2)))
                  end
              end
          end
      end
  end.
End mitigation.

#[global] Arguments PseudoInverseMitigation : simpl never.

(** A device with one qubit: the identifiers and the two readout errors reach the
    message, members the message does not have are dropped. *)
Module TopologyExample.
#[local] Instance floats : DeviceFloat :=
  {| parse_f64 s := if String.eqb s "0.25" then Some 25 else if String.eqb s "0.5" then Some 50 else None; f32_of_f64 z := z |}.
Definition key (k v : string) : string := dq +:+ k +:+ dq +:+ ":" +:+ v.
Definition spec : string :=
  "{" +:+ key "device_id" (dq +:+ "d" +:+ dq) +:+ "," +:+ key "qubits" ("[{" +:+ key "id" "3" +:+ "," +:+
    key "Fidelity" "0.5" +:+ "," +:+ key "meas_error" ("{" +:+ key "prob_meas1_prep0" "0.25" +:+ "}") +:+ "}]") +:+ "}".

Example topology_read :
  deviceTopology (Some (mkDeviceInfo "" "" "" Available 1 1 spec ""))
    = Ret (inl (mkDeviceTopology "d" [mkTopologyQubit 3 50 0 0 25 0])).
Proof. vm_compute. reflexivity. Qed.
End TopologyExample.
