(* ===== verification/SamplingJob.v ===== *)
(** * Package sampling: sampling jobs (sampling/job.go) *)

From stdpp Require Import base gmap strings list fin_maps.
From Stdlib Require Import ZArith Lia.
From S2P Require Import Prelude GoString Json Core Job Setting Converter Mitigation Scheduler.

(** [mitigationInfo] is a pointer, nil until pre-processing succeeds. *)
Record SamplingJob := mkSamplingJob {
  sj_jobData : JobData;
  sj_mitigationInfo : option MitigationInfo
}.

#[global] Program Instance SamplingJob_data : HasJobData SamplingJob :=
  {| jd := sj_jobData; with_jd d j := mkSamplingJob d (sj_mitigationInfo j) |}.
Next Obligation. reflexivity. Qed.
Next Obligation. by intros []. Qed.
Next Obligation. reflexivity. Qed.

#[local] Arguments Valid : simpl never.
#[local] Arguments wants_pseudo_inverse : simpl never.

Section sampling.
Context {W : Type} `{HC : GoClock W} `{HT : ITranspiler W} `{HQ : IQPUManager W} `{HM : IMitigator W}
  {MR : MapRange} {GS : GlobalSetting} {DF : DeviceFloat}.

Definition SamplingJob_New (d : JobData) : SamplingJob := mkSamplingJob d None.

Definition SamplingJob_preProcessImpl : M (W * SamplingJob) (option error) :=
  let! d := get_jd in
  let! need := lift (JobData_NeedTranspiling d) in
  if need then zoom Transpile else ret None.

Definition SamplingJob_PreProcess : M (W * SamplingJob) unit :=
  let! err := SamplingJob_preProcessImpl in
  match err with
  | Some e => SetFailureWithError e ;;! ret tt
  | None =>
      modify (fun s => (s.1, mkSamplingJob (jd s.2) (Some (NewMitigationInfoFromJobData (jd s.2)))))
  end.

Definition SamplingJob_Process : M (W * SamplingJob) unit :=
  let! err := zoom QPU_Send in
  match err with
  | Some e => upd_jd (set_JobStatus FAILED)
  | None => ret tt
  end.

(** The test of [PostProcess] on the raw properties. *)
Definition sampling_should_mitigate (raw : option string) : bool :=
  match raw with
  | Some r => if Valid r then wants_pseudo_inverse r else false
  | None => false
  end.

Definition SamplingJob_PostProcess : M (W * SamplingJob) unit :=
  let! s := get in
  match sj_mitigationInfo s.2 with
  | None => gopanic nil_pointer
  | Some m =>
      put (s.1, mkSamplingJob (jd s.2) (Some (mkMitigationInfo (NeedToBeMitigated m) true (PropertyRaw m)))) ;;!
      if sampling_should_mitigate (PropertyRaw m) then zoom PseudoInverseMitigation else ret tt
  end.

Definition SamplingJob_IsFinished (j : SamplingJob) : outcome bool :=
  if bool_decide (JobStatus (jd j) = FAILED) then Ret true
  else
    match sj_mitigationInfo j with
    | None => Panic nil_pointer
    | Some m =>
        if NeedToBeMitigated m then Ret (Mitigated m)
        else Ret (bool_decide (JobStatus (jd j) = SUCCEEDED))
    end.

(** The copy has no mitigation information. *)
Definition SamplingJob_Clone (j : SamplingJob) : SamplingJob := mkSamplingJob (JobData_Clone (sj_jobData j)) None.

#[global] Program Instance SamplingJob_job : IJob W SamplingJob :=
  {| PreProcess := SamplingJob_PreProcess; Process := SamplingJob_Process; PostProcess := SamplingJob_PostProcess;
     IsFinished := SamplingJob_IsFinished; Clone := SamplingJob_Clone |}.
Next Obligation. intros [[] m]. reflexivity. Qed.

(** ** Properties *)

(** Mitigation leaves the job with a status of its own or as it was. *)
Lemma PseudoInverseMitigation_status w d r w' d' :
  PseudoInverseMitigation (w, d) = (r, (w', d')) ->
  JobStatus d' = JobStatus d \/ JobStatus d' = FAILED \/ JobStatus d' = SUCCEEDED.
Proof.
  unfold PseudoInverseMitigation, bind, get, put, fail_job, modify, ret, lift. cbn. intros H.
  repeat (case_match; simplify_eq/=; auto); destruct d; cbn in *; auto.
Qed.

#[global] Instance SamplingJob_never_ready `{HD : IDBChan W SamplingJob} `{!SendNotReady W} :
  NeverReady (W := W) (J := SamplingJob).
Proof.
  constructor.
  - intros w j w' j' Hj. cbn. unfold SamplingJob_Process, zoom, bind, upd_jd, modify, ret. cbn.
    destruct (QPU_Send (w, sj_jobData j)) as [[[e|]|m] [w1 d1]] eqn:E; intros [= <- <-]; cbn.
    + by destruct d1.
    + eapply send_not_ready; [|exact E]. cbn in Hj. by rewrite Hj.
  - intros w j w' j' Hj. cbn. unfold SamplingJob_PostProcess, bind, get, put, zoom, ret. cbn.
    destruct (sj_mitigationInfo j) as [m|]; [|done]. cbn.
    destruct (sampling_should_mitigate _); [|by intros [= <- <-]]. cbn.
    destruct (PseudoInverseMitigation _) as [[[]|msg] [w1 d1]] eqn:E; [|done]. intros [= <- <-]. cbn.
    apply PseudoInverseMitigation_status in E as [E|[E|E]]; by rewrite E.
Qed.

(** A sampling job is mitigated exactly when it asks for it.  After a
    pre-processing without error, the job counts as unfinished after a
    successful execution exactly when its mitigation information asks for
    pseudo-inverse mitigation, post-processing then calls the mitigator and
    otherwise leaves the job data alone, and after post-processing the job is
    finished if it needed mitigation. *)
Theorem sampling_mitigation_as_requested (w : W) (j : SamplingJob) :
  let asks := (0 <? len (MitigationInfoStr (jd j))) && Valid (MitigationInfoStr (jd j))
              && wants_pseudo_inverse (MitigationInfoStr (jd j)) in
  let j1 := mkSamplingJob (jd j) (Some (NewMitigationInfoFromJobData (jd j))) in
  (JobStatus (jd j) = SUCCEEDED -> IsFinished (W := W) j1 = Ret (negb asks)) /\
  (let '(r, (w', j')) := SamplingJob_PostProcess (w, j1) in
   (if asks then exists d', PseudoInverseMitigation (w, jd j) = (r, (w', d')) /\ jd j' = d'
    else r = Ret tt /\ w' = w /\ jd j' = jd j) /\
   (asks = true -> IsFinished (W := W) j' = Ret true)).
Proof.
  cbn zeta. change (@jd SamplingJob SamplingJob_data) with sj_jobData. unfold NewMitigationInfoFromJobData.
  destruct ((0 <? len (MitigationInfoStr (sj_jobData j))) && Valid (MitigationInfoStr (sj_jobData j))) eqn:E.
  - apply andb_true_iff in E as [_ Hv]. cbn [andb].
    unfold SamplingJob_PostProcess, bind, get, put. cbn. unfold SamplingJob_IsFinished. cbn. rewrite Hv.
    destruct (wants_pseudo_inverse _); cbn.
    + unfold zoom. cbn. destruct (PseudoInverseMitigation (w, sj_jobData j)) as [r [w' d']].
      split; [by intros ->|]. split; [eauto|]. intros _. cbn. by case_bool_decide.
    + split; [by intros ->|]. done.
  - cbn [andb]. unfold SamplingJob_PostProcess, bind, get, put. cbn. unfold SamplingJob_IsFinished. cbn.
    split; [by intros ->|]. done.
Qed.
End sampling.

Module SamplingExample.
(** A mitigator that answers with the counts it is given. *)
#[global] Instance mitigator : IMitigator SchedExample.World :=
  {| mit_dial _ w := (None, w); mit_request _ c _ w := (inl c, w) |}.
#[global] Instance settings : GlobalSetting := None.
#[global] Instance floats : DeviceFloat := {| parse_f64 _ := Some 0; f32_of_f64 z := z |}.

Definition info : string :=
  "{" +:+ dq +:+ "ro_error_mitigation" +:+ dq +:+ ":" +:+ quote quoted_pseudo_inverse +:+ "}".
Definition job : SamplingJob :=
  mkSamplingJob (set_MitigationInfoStr info (set_JobStatus SUCCEEDED (upd_Result (set_Counts {[ "01" := 3 ]}) (NewJobData 0)))) None.
End SamplingExample.

Lemma sampling_mitigation_as_requested_witness :
  wants_pseudo_inverse SamplingExample.info = true /\
  IsFinished (W := SchedExample.World) (IJob := @SamplingJob_job _ _ _ _ _ canonical_range _ _)
    (mkSamplingJob (jd SamplingExample.job) (Some (NewMitigationInfoFromJobData (jd SamplingExample.job)))) = Ret false.
Proof.
  split; [vm_compute; reflexivity|].
  pose proof (proj1 (@sampling_mitigation_as_requested SchedExample.World _ _ _ _ canonical_range _ _ SchedExample.start
           SamplingExample.job) eq_refl) as H. rewrite H. vm_compute. reflexivity.
Defined.
