(* ===== verification/EstimationJob.v ===== *)
(** * Package estimation: expectation value jobs (estimation/job.go)

    The estimator is a gRPC service ([IEstimator]): it turns a program and
    operators into the programs to measure, and the counts into an expectation
    value.  Float parsing and formatting are a parameter. *)

From stdpp Require Import base gmap strings list fin_maps sorting.
From Stdlib Require Import ZArith Lia Ascii.
From S2P Require Import Prelude GoString Json Core Job Setting Converter Mitigation Scheduler SamplingJob.

Record EstimationSetting := mkEstimationSetting { ES_Host : string; ES_Port : string; BasisGates : list string }.

Definition DEFAULT_ESTIMATOR_HOST : string := "localhost".
Definition DEFAULT_ESTIMATOR_PORT : string := "5012".
Definition DEFAULT_BASIS_GATES : list string := ["sx"; "rz"; "cx"].
Definition NewEstimationSetting : EstimationSetting :=
  mkEstimationSetting DEFAULT_ESTIMATOR_HOST DEFAULT_ESTIMATOR_PORT DEFAULT_BASIS_GATES.

Record EstimationJob := mkEstimationJob {
  ej_setting : EstimationSetting;
  ej_jobData : JobData;
  preprocessedQASMs : list string;
  origOperators : string;
  groupedOperators : string;
  countsList : list (gmap string Z);
  useTranspilerFlag : bool;
  usedQASM : string;
  ej_finished : bool
}.

Definition set_ej_jobData (d : JobData) (j : EstimationJob) : EstimationJob :=
  mkEstimationJob (ej_setting j) d (preprocessedQASMs j) (origOperators j) (groupedOperators j) (countsList j)
    (useTranspilerFlag j) (usedQASM j) (ej_finished j).
Definition set_preprocessed (q : list string) (g : string) (j : EstimationJob) : EstimationJob :=
  mkEstimationJob (ej_setting j) (ej_jobData j) q (origOperators j) g (countsList j)
    (useTranspilerFlag j) (usedQASM j) (ej_finished j).
Definition set_origOperators (o : string) (j : EstimationJob) : EstimationJob :=
  mkEstimationJob (ej_setting j) (ej_jobData j) (preprocessedQASMs j) o (groupedOperators j) (countsList j)
    (useTranspilerFlag j) (usedQASM j) (ej_finished j).
Definition add_counts (c : gmap string Z) (j : EstimationJob) : EstimationJob :=
  mkEstimationJob (ej_setting j) (ej_jobData j) (preprocessedQASMs j) (origOperators j) (groupedOperators j)
    (countsList j ++ [c]) (useTranspilerFlag j) (usedQASM j) (ej_finished j).
Definition set_useTranspiler (b : bool) (j : EstimationJob) : EstimationJob :=
  mkEstimationJob (ej_setting j) (ej_jobData j) (preprocessedQASMs j) (origOperators j) (groupedOperators j)
    (countsList j) b (usedQASM j) (ej_finished j).
Definition set_usedQASM (q : string) (j : EstimationJob) : EstimationJob :=
  mkEstimationJob (ej_setting j) (ej_jobData j) (preprocessedQASMs j) (origOperators j) (groupedOperators j)
    (countsList j) (useTranspilerFlag j) q (ej_finished j).
Definition set_finished (b : bool) (j : EstimationJob) : EstimationJob :=
  mkEstimationJob (ej_setting j) (ej_jobData j) (preprocessedQASMs j) (origOperators j) (groupedOperators j)
    (countsList j) (useTranspilerFlag j) (usedQASM j) b.

#[global] Program Instance EstimationJob_data : HasJobData EstimationJob :=
  {| jd := ej_jobData; with_jd := set_ej_jobData |}.
Next Obligation. reflexivity. Qed.
Next Obligation. by intros []. Qed.
Next Obligation. reflexivity. Qed.

(** [EstimationJob.New]: each setting has its own default. *)
Definition EstimationJob_New {GS : GlobalSetting} (d : JobData) : EstimationJob :=
  let setting :=
    match GetComponentSetting globalSetting "estimation" with
    | None => NewEstimationSetting
    | Some s =>
        match as_map (Some s) with
        | None => NewEstimationSetting
        | Some mapped =>
            mkEstimationSetting (default DEFAULT_ESTIMATOR_HOST (as_string (mapped !! "host")))
              (default DEFAULT_ESTIMATOR_PORT (as_string (mapped !! "port")))
              (default DEFAULT_BASIS_GATES (as_strings (mapped !! "basis_gates")))
        end
    end in
  mkEstimationJob setting d [] "" "" [] false "" false.

(** ** Operators *)

(** The form [%g] of a number literal read as [float64]; nothing if it is out
    of range. *)
Class FormatG := format_g : string -> option string.

Section operators.
Context {FG : FormatG}.

(** One operator: the Pauli string and the coefficient in its [%g] form. *)
Definition assign_operator (acc : decoded (string * string)) (kv : string * json) : decoded (string * string) :=
  let '((pauli, coeff), err) := acc in
  if String.eqb (fold_name kv.1) "pauli" then
    match kv.2 with
    | JStr s => ((s, coeff), err)
    | JNull => acc
    | _ => ((pauli, coeff), first_error err (Some (type_error "string")))
    end
  else if String.eqb (fold_name kv.1) "coeff" then
    match kv.2 with
    | JNum lit =>
        match format_g lit with
        | Some g => ((pauli, g), err)
        | None => ((pauli, coeff), first_error err (Some (type_error "float64")))
        end
    | JNull => acc
    | _ => ((pauli, coeff), first_error err (Some (type_error "float64")))
    end
  else acc.

Definition decode_operator (j : json) : decoded (string * string) :=
  match j with
  | JObj ms => foldl assign_operator (("", "0"), None) ms
  | JNull => (("", "0"), None)
  | _ => (("", "0"), Some (type_error "estimation.operator"))
  end.

Definition serializeOperators (jinfo : string) : string + error :=
  match Unmarshal (decode_list decode_operator "[]estimation.operator") [] jinfo with
  | (_, Some e) => inr e
  | (operators, None) =>
      inl ("[" +:+ Join ((fun op => "[" +:+ dq +:+ op.1 +:+ dq +:+ ", " +:+ op.2 +:+ "]") <$> operators) ", " +:+ "]")
  end.
End operators.

(** ** The job *)

(** The estimator.  [est_connect] fails only for a bad address; the nil
    connection is then dereferenced. *)
Class IEstimator (W : Type) := {
  est_connect : string -> bool;
  est_pre : string -> string -> list string -> list Z -> W -> ((list string * string) + error) * W;
  est_post : list (gmap string Z) -> string -> W -> ((Z * Z) + error) * W
}.

Section estimation.
Context {W : Type} `{HC : GoClock W} `{HT : ITranspiler W} `{HQ : IQPUManager W} `{HM : IMitigator W}
  `{HE : IEstimator W} `{HDM : IDBManager W} {MR : MapRange} {GS : GlobalSetting} {DF : DeviceFloat} {FG : FormatG}.

Definition upd_job (f : EstimationJob -> EstimationJob) : M (W * EstimationJob) unit :=
  modify (fun s => (s.1, f s.2)).
Definition get_job : M (W * EstimationJob) EstimationJob := gets snd.

(** The physical qubits in the order of the virtual ones. *)
Definition sorted_keys (m : gmap Z Z) : list Z := merge_sort Z.le (range m).*1.
Definition mapping_list (m : gmap Z Z) : list Z := (fun k => default 0 (m !! k)) <$> sorted_keys m.

(** The named results on every return path. *)
Definition estimationPreProcess : M (W * EstimationJob) (list string * string * option error) :=
  let! j := get_job in
  let address := ES_Host (ej_setting j) +:+ ":" +:+ ES_Port (ej_setting j) in
  if negb (est_connect address) then gopanic nil_pointer
  else
    let! need := lift (JobData_NeedTranspiling (jd j)) in
    let! mapping :=
      if need then
        match Result_TranspilerInfo (JobResult (jd j)) with
        | None => gopanic nil_pointer
        | Some ti => ret (VirtualPhysicalMappingRaw_ToMap (VirtualPhysicalMappingRaw ti))
        end
      else ret (inl ∅) in
    match mapping with
    | inr e => ret ([], "", Some e)
    | inl m =>
        match Result_TranspilerInfo (JobResult (jd j)) with
        | None => gopanic nil_pointer
        | Some _ =>
            let! res := on_world (est_pre (usedQASM j) (origOperators j) (BasisGates (ej_setting j)) (mapping_list m)) in
            match res with
            | inr e => upd_jd (set_JobStatus FAILED) ;;! ret ([], "", Some e)
            | inl (qasms, grouped) => ret (qasms, grouped, None)
            end
        end
    end.

Definition EstimationJob_preProcessImpl : M (W * EstimationJob) (option error) :=
  let! d := get_jd in
  let! err := on_world (db_Insert d) in
  match err with
  | Some e => ret (Some e)
  | None =>
      let! need := lift (JobData_NeedTranspiling d) in
      let! err :=
        if need then
          upd_job (set_useTranspiler true) ;;!
          let! err := zoom Transpile in
          match err with
          | Some e => ret (Some e)
          | None => let! d := get_jd in upd_job (set_usedQASM (TranspiledQASM d)) ;;! ret None
          end
        else upd_job (set_usedQASM (QASM d)) ;;! ret None in
      match err with
      | Some e => ret (Some e)
      | None =>
          let! d := get_jd in
          match serializeOperators (Info d) with
          | inr e => ret (Some e)
          | inl sj =>
              upd_job (set_origOperators sj) ;;!
              let! r := estimationPreProcess in
              let '(qasmCodes, grouped, err) := r in
              upd_job (set_preprocessed qasmCodes grouped) ;;!
              ret err
          end
      end
  end.

Definition EstimationJob_PreProcess : M (W * EstimationJob) unit :=
  let! err := EstimationJob_preProcessImpl in
  match err with
  | Some e => SetFailureWithError e ;;! upd_job (set_finished true)
  | None => ret tt
  end.

(** The loop of [Process] over the programs still to run. *)
Fixpoint process_loop (qasms : list string) : M (W * EstimationJob) unit :=
  match qasms with
  | [] => ret tt
  | q :: qasms' =>
      let! j := get_job in
      upd_jd (if useTranspilerFlag j then set_TranspiledQASM q else set_QASM q) ;;!
      let! err := zoom QPU_Send in
      match err with
      | Some _ => upd_jd (set_JobStatus FAILED) ;;! upd_job (set_finished true)
      | None =>
          let! d := get_jd in
          if bool_decide (JobStatus d = FAILED) then upd_job (set_finished true)
          else upd_job (add_counts (Counts (JobResult d))) ;;! process_loop qasms'
      end
  end.

Definition EstimationJob_Process : M (W * EstimationJob) unit :=
  let! j := get_job in process_loop (preprocessedQASMs j).

(** The test of [PostProcess]: without the quotes and without trimming. *)
Definition estimation_should_mitigate (raw : option string) : bool :=
  match raw with
  | Some r => if Valid r then bool_decide (ro_error_mitigation r = Some "pseudo_inverse") else false
  | None => false
  end.

(** The counts sent to the estimator, mitigated on a copy of the job data. *)
Fixpoint post_counts (mitigate : bool) (l : list (gmap string Z)) : M (W * EstimationJob) (list (gmap string Z)) :=
  match l with
  | [] => ret []
  | c :: l' =>
      let! c' :=
        if mitigate then
          fun s => let temp := upd_Result (set_Counts c) (JobData_Clone (jd s.2)) in
                   match PseudoInverseMitigation (s.1, temp) with
                   | (Ret _, (w, temp)) => (Ret (Counts (JobResult temp)), (w, s.2))
                   | (Panic m, (w, _)) => (Panic m, (w, s.2))
                   end
        else ret c in
      let! rest := post_counts mitigate l' in
      ret (c' :: rest)
  end.

Definition EstimationPostProcess (counts : list (gmap string Z)) : M (W * EstimationJob) ((Z * Z) + error) :=
  let! j := get_job in
  if negb (est_connect (ES_Host (ej_setting j) +:+ ":" +:+ ES_Port (ej_setting j))) then gopanic nil_pointer
  else on_world (est_post counts (groupedOperators j)).

Definition EstimationJob_PostProcess : M (W * EstimationJob) unit :=
  upd_job (set_finished true) ;;!
  let! j := get_job in
  let m := NewMitigationInfoFromJobData (jd j) in
  let! counts := post_counts (estimation_should_mitigate (PropertyRaw m)) (countsList j) in
  let! r := EstimationPostProcess counts in
  match r with
  | inr e => SetFailureWithError e ;;! ret tt
  | inl (exp_value, stds) =>
      upd_jd (fun d => set_JobStatus SUCCEEDED (upd_Result (set_Result_Estimation (Some (mkEstimation exp_value stds))) d))
  end.

Definition EstimationJob_IsFinished (j : EstimationJob) : outcome bool := Ret (ej_finished j).

(** Only the data and the context are copied. *)
Definition EstimationJob_Clone (j : EstimationJob) : EstimationJob :=
  mkEstimationJob (mkEstimationSetting "" "" []) (JobData_Clone (ej_jobData j)) [] "" "" [] false "" false.

#[global] Program Instance EstimationJob_job : IJob W EstimationJob :=
  {| PreProcess := EstimationJob_PreProcess; Process := EstimationJob_Process;
     PostProcess := EstimationJob_PostProcess; IsFinished := EstimationJob_IsFinished; Clone := EstimationJob_Clone |}.
Next Obligation. intros [? [] ? ? ? ? ? ? ?]. reflexivity. Qed.
End estimation.

(** ** Properties *)

#[local] Arguments Valid : simpl never.

(** The raw properties of a job come back from the text the converter makes. *)
Lemma mitigation_info_roundtrip {MR : MapRange} (m : gmap string string) :
  map_Forall (fun k v => ascii_str k /\ ascii_str v) m ->
  Unmarshal (decode_map decode_string "map[string]string") ∅ (ConvertToMitigationInfo (OSet m)) = (m, None) /\
  Valid (ConvertToMitigationInfo (OSet m)) = true.
Proof.
  intros Hm. unfold ConvertToMitigationInfo. cbn [IsNull OGet].
  assert (Unmarshal (decode_map decode_string "map[string]string") ∅ (Print (json_of_map JStr m)) = (m, None)) as E.
  { apply Unmarshal_Marshal_map; [done| |done]. intros k a Hk. split; [|]; apply (Hm k a Hk). }
  split; [exact E|]. unfold Valid. unfold Unmarshal in E. destruct (Parse _); [done|]. discriminate.
Qed.

Lemma ConvertToMitigationInfo_nonempty {MR : MapRange} m : (0 <? len (ConvertToMitigationInfo (OSet m))) = true.
Proof. reflexivity. Qed.

(** Estimation jobs are never mitigated.  The properties of a cloud job are
    JSON texts; for every such job the test of the estimation job fails, also for
    the job that asks for pseudo-inverse mitigation, for which the test of the
    sampling job succeeds. *)
Theorem estimation_ignores_mitigation {MR : MapRange} (m : gmap string string) (d : JobData) :
  map_Forall (fun k v => ascii_str k /\ ascii_str v /\ Valid v = true) m ->
  MitigationInfoStr d = ConvertToMitigationInfo (OSet m) ->
  estimation_should_mitigate (PropertyRaw (NewMitigationInfoFromJobData d)) = false /\
  (m !! "ro_error_mitigation" = Some quoted_pseudo_inverse ->
   sampling_should_mitigate (PropertyRaw (NewMitigationInfoFromJobData d)) = true).
Proof.
  intros Hm Hd. destruct (mitigation_info_roundtrip m) as [Hu Hv].
  { intros k v Hk. destruct (Hm k v Hk) as (? & ? & _). done. }
  unfold NewMitigationInfoFromJobData. rewrite Hd, Hv, ConvertToMitigationInfo_nonempty. cbn [andb PropertyRaw].
  unfold estimation_should_mitigate, sampling_should_mitigate, wants_pseudo_inverse, ro_error_mitigation.
  rewrite Hv, Hu. split.
  - apply bool_decide_eq_false_2. intros E. destruct (Hm _ _ E) as (_ & _ & Hj). vm_compute in Hj. discriminate.
  - intros ->. vm_compute. reflexivity.
Qed.

Section estimation_facts.
Context {W : Type} `{HC : GoClock W} `{HT : ITranspiler W} `{HQ : IQPUManager W} `{HM : IMitigator W}
  `{HE : IEstimator W} `{HDM : IDBManager W} {MR : MapRange} {GS : GlobalSetting} {DF : DeviceFloat} {FG : FormatG}.

Lemma process_loop_spec (qasms : list string) (w : W) (j : EstimationJob) w' j' :
  process_loop qasms (w, j) = (Ret tt, (w', j')) ->
  exists cs, countsList j' = countsList j ++ cs /\
  ((ej_finished j' = ej_finished j /\ length cs = length qasms) \/
   (ej_finished j' = true /\ JobStatus (jd j') = FAILED /\ (length cs < length qasms)%nat)).
Proof.
  revert w j. induction qasms as [|q qasms IH]; intros w j.
  - intros [= <- <-]. exists []. rewrite app_nil_r. auto.
  - cbn [process_loop]. unfold bind, get_job, gets, upd_jd, modify, zoom. cbn.
    destruct (QPU_Send _) as [[[e|]|m] [w1 d1]]; cbn; [|..|done].
    + intros [= <- <-]. exists []. cbn. rewrite app_nil_r. split; [done|]. right.
      split; [done|]. split; [by destruct d1|lia].
    + case_bool_decide as Hs; unfold upd_job, modify; cbn.
      * intros [= <- <-]. exists []. cbn. rewrite app_nil_r. split; [done|]. right.
        split; [done|]. split; [done|lia].
      * intros H. apply IH in H as (cs & Hc & Hr). cbn in Hc, Hr. rewrite <- app_assoc in Hc.
        exists (Counts (JobResult d1) :: cs). split; [exact Hc|]. cbn.
        destruct Hr as [[H1 H2]|(H1 & H2 & H3)]; [left|right]; repeat split; auto; lia.
Qed.

(** Running an estimation job collects one result per program.  When
    [Process] returns, either every prepared program has been executed and its
    counts appended in order, and the job is not marked finished by it, or the
    job is finished and FAILED and the counts are those of a proper prefix of the
    programs. *)
Theorem estimation_process_counts (w : W) (j : EstimationJob) w' j' :
  EstimationJob_Process (w, j) = (Ret tt, (w', j')) ->
  exists cs, countsList j' = countsList j ++ cs /\
  ((ej_finished j' = ej_finished j /\ length cs = length (preprocessedQASMs j)) \/
   (ej_finished j' = true /\ JobStatus (jd j') = FAILED /\ (length cs < length (preprocessedQASMs j))%nat)).
Proof. apply process_loop_spec. Qed.

Lemma process_loop_not_ready `{!SendNotReady W} (qasms : list string) (w : W) (j : EstimationJob) w' j' :
  JobStatus (jd j) <> READY -> process_loop qasms (w, j) = (Ret tt, (w', j')) -> JobStatus (jd j') <> READY.
Proof.
  revert w j. induction qasms as [|q qasms IH]; intros w j Hj; [by intros [= <- <-]|].
  cbn [process_loop]. unfold bind, get_job, gets, upd_jd, modify, zoom, upd_job. cbn.
  destruct (QPU_Send _) as [[[e|]|m] [w1 d1]] eqn:E; cbn; [|..|done].
  - intros [= <- <-]. by destruct d1.
  - apply send_not_ready in E; [|cbn in Hj; destruct (useTranspilerFlag j); by destruct (ej_jobData j)].
    case_bool_decide; cbn; [by intros [= <- <-]|]. apply IH. exact E.
Qed.

Lemma post_counts_keeps mitigate l (w : W) (j : EstimationJob) r w' j' :
  post_counts mitigate l (w, j) = (r, (w', j')) -> j' = j.
Proof.
  revert w r w' j'. induction l as [|c l IH]; intros w r w' j'; cbn; [by intros [= _ _ <-]|]. unfold bind.
  destruct mitigate; cbn.
  - destruct (PseudoInverseMitigation _) as [[[]|m] [w1 d1]]; [|by intros [= _ _ <-]].
    destruct (post_counts true l (w1, j)) as [[rest|m] [w2 j2]] eqn:E; apply IH in E as ->; by intros [= _ _ <-].
  - destruct (post_counts false l (w, j)) as [[rest|m] [w2 j2]] eqn:E; apply IH in E as ->; by intros [= _ _ <-].
Qed.

#[global] Instance EstimationJob_never_ready `{HD : IDBChan W EstimationJob} `{!SendNotReady W} :
  NeverReady (W := W) (J := EstimationJob).
Proof.
  constructor.
  - intros w j w' j' Hj H. cbn in H. unfold EstimationJob_Process, bind, get_job, gets in H. cbn in H.
    eapply process_loop_not_ready; [|exact H]. by rewrite Hj.
  - intros w j w' j' Hj. cbn. unfold EstimationJob_PostProcess, bind, upd_job, get_job, gets, modify. cbn.
    destruct (post_counts _ _ _) as [[counts|m] [w1 j1]] eqn:E; [|done]. apply post_counts_keeps in E as ->.
    unfold EstimationPostProcess, bind, get_job, gets, on_world, gopanic. cbn.
    destruct (est_connect _); cbn; [|done]. destruct (est_post _ _ w1) as [[[ev st]|e] w2]; cbn.
    + unfold upd_jd, modify. cbn. intros [= <- <-]. cbn. by destruct (ej_jobData j).
    + unfold SetFailureWithError, bind, modify, ret. cbn. destruct (Now w2) as [t w3]. intros [= <- <-]. cbn.
      by destruct (ej_jobData j).
Qed.
End estimation_facts.

Lemma estimation_ignores_mitigation_witness :
  estimation_should_mitigate (PropertyRaw (NewMitigationInfoFromJobData (jd SamplingExample.job))) = false /\
  sampling_should_mitigate (PropertyRaw (NewMitigationInfoFromJobData (jd SamplingExample.job))) = true.
Proof.
  destruct (@estimation_ignores_mitigation canonical_range {[ "ro_error_mitigation" := quoted_pseudo_inverse ]}
              (jd SamplingExample.job)) as [H1 H2].
  - intros k v Hk. apply lookup_singleton_Some in Hk as [<- <-]. vm_compute. auto.
  - vm_compute. reflexivity.
  - split; [exact H1|]. apply H2. vm_compute. reflexivity.
Defined.

Module EstimationExample.
#[global] Instance estimator : IEstimator SchedExample.World :=
  {| est_connect _ := true; est_pre q _ _ _ w := (inl ([q; q], "g"), w); est_post _ _ w := (inl (1, 0), w) |}.
#[global] Instance dbm : IDBManager SchedExample.World := fun _ w => (None, w).
#[global] Instance order : MapRange := canonical_range.
#[global] Instance fg : FormatG := fun lit => Some lit.
Definition job : EstimationJob := set_preprocessed ["q1"; "q2"] "g" (EstimationJob_New (NewJobData 0)).
End EstimationExample.

Lemma estimation_process_counts_witness :
  exists w' j' cs, EstimationJob_Process (SchedExample.start, EstimationExample.job) = (Ret tt, (w', j')) /\
    countsList j' = [] ++ cs /\
    ((ej_finished j' = false /\ length cs = 2%nat) \/
     (ej_finished j' = true /\ JobStatus (jd j') = FAILED /\ (length cs < 2)%nat)).
Proof.
  destruct (EstimationJob_Process (SchedExample.start, EstimationExample.job)) as [r [w' j']] eqn:E.
  assert (r = Ret tt) as ->. { change r with ((r, (w', j')).1). rewrite <- E. vm_compute. reflexivity. }
  destruct (estimation_process_counts _ _ _ _ E) as (cs & H1 & H2). exists w', j', cs.
  split; [reflexivity|]. split; [exact H1|exact H2].
Defined.
