(* ===== verification/Tranqu.v ===== *)
(** * Transpiler client (transpiler/tranqu.go)

    [Tranqu] sends a job's program to the transpiler service and stores the
    transpiled program, the qubit mapping in both directions and the
    statistics in the job.  The service is a class; a stored gRPC connection
    is the flag [client]. *)

From stdpp Require Import base gmap strings list fin_maps.
From Stdlib Require Import ZArith Lia Ascii.
From S2P Require Import Prelude GoString Json Core Common Setting Job Converter.

Record TranquSetting := mkTranquSetting { TS_Host : string; TS_Port : string }.
Definition NewTranquSetting : TranquSetting := mkTranquSetting "localhost" "50052".

Record Tranqu := mkTranqu {
  t_setting : TranquSetting;
  t_address : string;
  t_client : bool
}.

Definition Tranqu_IsAcceptableTranspilerLib (lib : string) : bool := String.eqb lib "qiskit".

(** [dial] is the error of [GRPCConnection].  An invalid address is logged and
    the empty one used. *)
Definition Tranqu_Setup {GS : GlobalSetting} (dial : string -> option error) (t : Tranqu)
    : outcome (option error * Tranqu) :=
  match GetComponentSetting globalSetting "tranqu" with
  | None => Ret (Some "tranqu setting is not found", t)
  | Some s =>
      let? setting :=
        match as_map (Some s) with
        | None => Ret NewTranquSetting
        | Some mapped =>
            let? h := must_string mapped "host" in
            let? p := must_string mapped "port" in
            Ret (mkTranquSetting h p)
        end in
      let address := match ValidAddress (TS_Host setting) (TS_Port setting) with inl a => a | inr _ => "" end in
      match dial address with
      | Some e => Ret (Some e, mkTranqu setting address (t_client t))
      | None => Ret (None, mkTranqu setting address true)
      end
  end.

Definition Tranqu_GetHealth : option error := None.

(** ** JSON of the service *)

(** The text starts with the line separator U+2028 or U+2029. *)
Definition is_separator (s : string) : bool :=
  String.eqb (take_str 3 s) (encode_rune 8232) || String.eqb (take_str 3 s) (encode_rune 8233).

(** [json.Marshal] of a [json.RawMessage]: the text without the space between
    its tokens, with the characters that are special in HTML escaped. *)
Fixpoint compact (in_string escaped : bool) (s : string) : string :=
  match s with
  | EmptyString => ""
  | String c s' =>
      if Ascii.eqb c "<"%char || Ascii.eqb c ">"%char || Ascii.eqb c "&"%char then
        quote_byte c +:+ compact in_string false s'
      else if is_separator s then
        match s' with
        | String _ (String c3 s'') =>
            String backslash_c (if byte c3 =? 168 then "u2028" else "u2029") +:+ compact in_string false s''
        | _ => ""
        end
      else if in_string then
        String c (if escaped then compact true false s'
                  else if Ascii.eqb c backslash_c then compact true true s'
                  else if Ascii.eqb c quote_c then compact false false s'
                  else compact true false s')
      else if is_ws c then compact false false s'
      else String c (compact (Ascii.eqb c quote_c) false s')
  end.

Definition MarshalRaw (r : option string) : string + error :=
  match r with
  | None => inl "null"
  | Some t => if Valid t then inl (compact false false t) else inr syntax_error
  end.

(** [VirtualPhyicalMapping]; [None] is a nil map. *)
Record VirtualPhyicalMapping := mkVPM {
  QubitMapping : option (gmap string Z);
  BitMapping : option (gmap string Z)
}.

(** A member decoded into a [map[string]int] field that holds [cur]. *)
Definition decode_int_map (cur : option (gmap string Z)) (j : json) : decoded (option (gmap string Z)) :=
  match j with
  | JNull => (None, None)
  | JObj _ =>
      let '(m, e) := decode_map_from decode_int "map[string]int" (default ∅ cur) j in (Some m, e)
  | _ => (cur, Some (type_error "map[string]int"))
  end.

Definition assign_mapping (acc : decoded VirtualPhyicalMapping) (kv : string * json) : decoded VirtualPhyicalMapping :=
  let '(m, err) := acc in
  if String.eqb (fold_name kv.1) "qubit_mapping" then
    let '(q, e) := decode_int_map (QubitMapping m) kv.2 in (mkVPM q (BitMapping m), first_error err e)
  else if String.eqb (fold_name kv.1) "bit_mapping" then
    let '(b, e) := decode_int_map (BitMapping m) kv.2 in (mkVPM (QubitMapping m) b, first_error err e)
  else acc.

Definition decode_mapping (j : json) : decoded VirtualPhyicalMapping :=
  match j with
  | JNull => (mkVPM None None, None)
  | JObj l => foldl assign_mapping (mkVPM None None, None) l
  | _ => (mkVPM None None, Some (type_error "transpiler.VirtualPhyicalMapping"))
  end.

Definition unmarshalMapping (s : string) : decoded VirtualPhyicalMapping :=
  Unmarshal decode_mapping (mkVPM None None) s.

Section mapping.
Context {MR : MapRange}.

Definition json_int (n : Z) : json := JNum (FormatInt n).

Definition toVirtualPhysicalMappingFromString (s : string) : string + error :=
  match unmarshalMapping s with
  | (_, Some e) => inr e
  | (m, None) =>
      inl (match QubitMapping m with
           | None => "null"
           | Some q => Print (json_of_map json_int q)
           end)
  end.

Fixpoint pvm_loop (l : list (string * Z)) (pvm : gmap Z Z) : gmap Z Z + error :=
  match l with
  | [] => inl pvm
  | (k, v) :: l' =>
      match ParseUint k 32 with
      | inr e => inr e
      | inl num => pvm_loop l' (<[u32 v := u32 num]> pvm)
      end
  end.

Definition toPhysicalVirtualMappingFromString (s : string) : gmap Z Z + error :=
  match unmarshalMapping s with
  | (_, Some e) => inr e
  | (m, None) => pvm_loop (range (default ∅ (QubitMapping m))) ∅
  end.
End mapping.

(** ** Transpilation *)

Record TranspileRequest := mkTranspileRequest {
  RequestId : string;
  ReqProgram : string;
  ProgramLib : string;
  ReqTranspilerLib : string;
  ReqTranspilerOptions : string;
  ReqDevice : string;
  DeviceLib : string
}.

Record TranspileResponse := mkTranspileResponse {
  TR_Status : Z;
  TR_TranspiledProgram : string;
  TR_Stats : string;
  TR_VirtualPhysicalMapping : string
}.

Class ITranquService (W : Type) := rpc_Transpile : TranspileRequest -> W -> (TranspileResponse + error) * W.

Section transpile.
Context {W : Type} `{HQ : IQPUManager W} `{HS : ITranquService W} {MR : MapRange}.

(** [j.JobData().Result.TranspilerInfo.f = v]: a nil pointer panics. *)
Definition upd_TranspilerInfo (f : TranspilerInfo -> TranspilerInfo) : M (W * JobData) unit :=
  let! s := get in
  match Result_TranspilerInfo (JobResult s.2) with
  | None => gopanic nil_pointer
  | Some ti => put (s.1, upd_Result (set_Result_TranspilerInfo (Some (f ti))) s.2)
  end.

(** The request for a job; a job without transpiler or library, and a device
    without information, panic. *)
Definition transpile_request (w : W) (d : JobData) : outcome (TranspileRequest + error) :=
  match Transpiler d with
  | None => Panic nil_pointer
  | Some tc =>
      match TranspilerLib tc with
      | None => Panic nil_pointer
      | Some lib =>
          match MarshalRaw (TranspilerOptions tc) with
          | inr e => Ret (inr e)
          | inl options =>
              match QPU_GetDeviceInfo w with
              | None => Panic nil_pointer
              | Some di =>
                  Ret (inl (mkTranspileRequest (ID d) (QASM d) "openqasm3" lib options (DeviceInfoSpecJson di) "oqtopus"))
              end
          end
      end
  end.

(** What is stored of a response with another status than 1. *)
Definition store_transpiled (res : TranspileResponse) : M (W * JobData) (option error) :=
  modify (fun s => (s.1, set_TranspiledQASM (TR_TranspiledProgram res) s.2)) ;;!
  match toVirtualPhysicalMappingFromString (TR_VirtualPhysicalMapping res) with
  | inr e => ret (Some e)
  | inl vpm =>
      upd_TranspilerInfo (set_VirtualPhysicalMappingRaw (Some vpm)) ;;!
      match toPhysicalVirtualMappingFromString (TR_VirtualPhysicalMapping res) with
      | inr e => ret (Some e)
      | inl pvm =>
          upd_TranspilerInfo (set_PhysicalVirtualMapping (Some pvm)) ;;!
          upd_TranspilerInfo (set_StatsRaw (Some (TR_Stats res))) ;;!
          ret None
      end
  end.

Definition Tranqu_Transpile (t : Tranqu) : M (W * JobData) (option error) :=
  let! s := get in
  let! r := lift (transpile_request s.1 s.2) in
  match r with
  | inr e => ret (Some e)
  | inl req =>
      if negb (t_client t) then gopanic nil_pointer
      else
        let '(r, w) := rpc_Transpile req s.1 in
        put (w, s.2) ;;!
        match r with
        | inr e => ret (Some e)
        | inl res =>
            if TR_Status res =? 1 then ret (Some "transpile failed")
            else store_transpiled res
        end
  end.

(** The client as the jobs' transpiler. *)
Definition Tranqu_transpiler (t : Tranqu) : ITranspiler W :=
  {| IsAcceptableTranspilerLib := fun _ => Tranqu_IsAcceptableTranspilerLib; Transpile := Tranqu_Transpile t |}.
End transpile.

(** ** Properties *)

Example compact_text :
  compact false false ("{ " +:+ dq +:+ "a <b" +:+ dq +:+ " : [1, 2] }")
  = "{" +:+ dq +:+ "a " +:+ String backslash_c "u003cb" +:+ dq +:+ ":[1,2]}".
Proof. reflexivity. Qed.

Lemma json_of_map_ext {MR : MapRange} {A} (f g : A -> json) (m : gmap string A) :
  (forall k a, m !! k = Some a -> f a = g a) -> json_of_map f m = json_of_map g m.
Proof.
  intros H. unfold json_of_map. do 2 f_equal. apply Forall_fmap_ext_1, Forall_forall. intros [k a] Hin.
  apply elem_of_range in Hin. unfold prod_map. cbn. by rewrite (H k a).
Qed.

Lemma json_int_u32 n : 0 <= n -> json_int n = json_u32 n.
Proof. intros Hn. unfold json_int, json_u32, FormatInt. rewrite (proj2 (Z.ltb_ge _ _)) by lia. done. Qed.

(** The inverse mapping of entries with decimal keys and distinct values. *)
Lemma pvm_loop_spec (l : list (string * Z)) acc :
  Forall (fun kv => exists n, kv.1 = FormatUint n /\ in_u32 n /\ in_u32 kv.2) l -> NoDup l.*2 ->
  exists pvm, pvm_loop l acc = inl pvm /\
    forall p, pvm !! p = match (list_to_map ((fun kv => (kv.2, kv.1)) <$> l) : gmap Z string) !! p with
                         | Some k => match ParseUint k 32 with inl n => Some n | inr _ => None end
                         | None => acc !! p
                         end.
Proof.
  intros H. revert acc. induction H as [|[k v] l (n & Hk & Hn & Hv) Hl IH]; intros acc; cbn in *.
  { intros _. exists acc. split; [done|]. intros p. by rewrite lookup_empty. }
  intros [Hni Hnd]%NoDup_cons. subst k. unfold in_u32 in *. rewrite ParseUint_FormatUint by lia. rewrite !u32_small by done.
  destruct (IH (<[v := n]> acc) Hnd) as (pvm & -> & Hp). exists pvm. split; [done|]. intros p. rewrite Hp.
  destruct (decide (v = p)) as [<-|Hne].
  - rewrite (not_elem_of_list_to_map_1 (M := gmap Z)) by by rewrite <- list_fmap_compose.
    rewrite !lookup_insert_eq, ParseUint_FormatUint by lia. done.
  - by rewrite !lookup_insert_ne by done.
Qed.

Definition injective_map (m : gmap Z Z) : Prop := forall k1 k2 v, m !! k1 = Some v -> m !! k2 = Some v -> k1 = k2.

(** The inverse of an injective mapping of qubit numbers. *)
Lemma pvm_of_mapping {MR1 MR2 : MapRange} (m : gmap Z Z) :
  u32_map m -> injective_map m ->
  exists pvm, pvm_loop (@range MR2 _ _ _ _ (@string_keys MR1 _ m)) ∅ = inl pvm /\
    forall p v, pvm !! p = Some v <-> m !! v = Some p.
Proof.
  intros Hm Hinj. set (l := range (string_keys m)).
  assert (forall s a, (s, a) ∈ l -> exists k, s = FormatUint k /\ in_u32 k /\ in_u32 a /\ m !! k = Some a) as Hl.
  { intros s a Hin. apply elem_of_range in Hin. by apply string_keys_entry in Hin. }
  assert (NoDup l.*2) as Hnd.
  { apply NoDup_fmap_2_strong; [|apply NoDup_range]. intros [s1 a1] [s2 a2] H1 H2 Heq. cbn in Heq. subst a2.
    destruct (Hl _ _ H1) as (k1 & -> & _ & _ & E1), (Hl _ _ H2) as (k2 & -> & _ & _ & E2).
    by rewrite (Hinj _ _ _ E1 E2). }
  destruct (pvm_loop_spec l ∅) as (pvm & -> & Hp); [|exact Hnd|].
  { apply Forall_forall. intros [s a] Hin. destruct (Hl _ _ Hin) as (k & ? & ? & ? & _). eauto. }
  exists pvm. split; [done|]. intros p v. rewrite Hp, lookup_empty.
  assert (forall s, (list_to_map ((fun kv => (kv.2, kv.1)) <$> l) : gmap Z string) !! p = Some s <-> (s, p) ∈ l) as Hlm.
  { intros s. rewrite <- (elem_of_list_to_map (M := gmap Z)) by by rewrite <- list_fmap_compose.
    rewrite list_elem_of_fmap. split; [by intros ([] & [= -> ->] & ?)|]. intros ?. by exists (s, p). }
  destruct (list_to_map _ !! p) as [s|] eqn:E.
  - destruct (Hl s p) as (k & -> & Hk & _ & Hmk); [by apply Hlm|]. unfold in_u32 in Hk. rewrite ParseUint_FormatUint by lia.
    split; [by intros [= <-]|]. intros Hv. by rewrite (Hinj _ _ _ Hmk Hv).
  - split; [done|]. intros Hv. exfalso. assert ((FormatUint v, p) ∈ l) as Hin.
    { apply elem_of_range. destruct (Hm _ _ Hv) as [[? ?] _]. by rewrite string_keys_at. }
    by apply Hlm in Hin.
Qed.

#[local] Arguments Print : simpl never.

Section transpile_facts.
Context {W : Type} `{HQ : IQPUManager W} `{HS : ITranquService W} {MR : MapRange}.

(** A successful transpilation stores what the service answered.  When the
    response maps virtual to physical qubits by an injective map [m] of
    uint32, the job keeps its status and program and gets the transpiled
    program and the statistics; the stored raw mapping is read back as [m], and
    the stored physical-to-virtual mapping is its inverse. *)
Theorem transpile_stores t w d req res w' ti m bits :
  transpile_request w d = Ret (inl req) -> t_client t = true ->
  rpc_Transpile req w = (inl res, w') -> TR_Status res <> 1 ->
  Result_TranspilerInfo (JobResult d) = Some ti ->
  unmarshalMapping (TR_VirtualPhysicalMapping res) = (mkVPM (Some (string_keys m)) bits, None) ->
  u32_map m -> injective_map m ->
  exists d' ti' pvm,
    Tranqu_Transpile t (w, d) = (Ret None, (w', d')) /\
    JobStatus d' = JobStatus d /\ QASM d' = QASM d /\ TranspiledQASM d' = TR_TranspiledProgram res /\
    Result_TranspilerInfo (JobResult d') = Some ti' /\ StatsRaw ti' = Some (TR_Stats res) /\
    VirtualPhysicalMappingRaw_ToMap (VirtualPhysicalMappingRaw ti') = inl m /\
    PhysicalVirtualMapping ti' = Some pvm /\ (forall p v, pvm !! p = Some v <-> m !! v = Some p).
Proof.
  intros Hreq Hc Hrpc Hst Hti Hum Hm Hinj. destruct (pvm_of_mapping (MR1 := MR) (MR2 := MR) m Hm Hinj) as (pvm & Hpvm & Hinv).
  assert (json_of_map json_int (string_keys m) = json_of_map json_u32 (string_keys m)) as Hjson.
  { apply json_of_map_ext. intros k a Hk. apply string_keys_entry in Hk as (k' & _ & _ & [? ?] & _); [|done]. by apply json_int_u32. }
  unfold Tranqu_Transpile, bind, get, lift. cbn. rewrite Hreq, Hc. cbn. rewrite Hrpc. unfold put. cbn.
  rewrite (proj2 (Z.eqb_neq _ _) Hst). unfold store_transpiled, bind, modify. cbn.
  unfold toVirtualPhysicalMappingFromString, toPhysicalVirtualMappingFromString. rewrite Hum. cbn [QubitMapping default from_option id].
  rewrite Hpvm, Hjson. unfold upd_TranspilerInfo, bind, get, put, ret, gopanic. cbn. rewrite Hti. cbn.
  eexists _, _, pvm. split; [reflexivity|]. cbn. split_and!; try done. exact (ToMap_ToRaw_id MR MR m Hm).
Qed.
End transpile_facts.

(** ** Witness *)

Module TranquExample.
#[local] Existing Instance canonical_range.

Definition device : DeviceInfo := mkDeviceInfo "" "" "" Available 4 100 "{}" "".
#[local] Instance qpu : IQPUManager unit := {| QPU_Send := ret None; QPU_GetDeviceInfo := fun _ => Some device |}.

Definition mapping : gmap Z Z := {[0 := 2; 1 := 0]}.
Definition key (s : string) : string := dq +:+ s +:+ dq +:+ ": ".
Definition response : TranspileResponse :=
  mkTranspileResponse 0 "OPENQASM 3; rz(1) $2;" "{}"
    ("{" +:+ key "bit_mapping" +:+ "{}, " +:+ key "qubit_mapping" +:+ "{" +:+ key "1" +:+ "0, " +:+ key "0" +:+ "2}}").
#[local] Instance service : ITranquService unit := fun _ w => (inl response, w).

Definition info : TranspilerInfo := mkTranspilerInfo None None None None.
Definition job : JobData :=
  set_Transpiler (Some (mkTranspilerConfig (Some "qiskit") None false))
    (upd_Result (set_Result_TranspilerInfo (Some info)) (NewJobData 0)).
Definition client : Tranqu := mkTranqu NewTranquSetting "localhost:50052" true.

Lemma transpile_stores_witness :
  exists d' ti', Tranqu_Transpile client (tt, job) = (Ret None, (tt, d')) /\
    Result_TranspilerInfo (JobResult d') = Some ti' /\
    VirtualPhysicalMappingRaw_ToMap (VirtualPhysicalMappingRaw ti') = inl mapping.
Proof.
  destruct (transpile_stores client tt job (mkTranspileRequest "" "" "openqasm3" "qiskit" "null" "{}" "oqtopus") response tt info mapping (Some ∅))
    as (d' & ti' & pvm & H & _ & _ & _ & Hti & _ & Hm & _); try reflexivity; try done.
  - intros k v. unfold mapping. rewrite lookup_insert_Some, lookup_singleton_Some. unfold in_u32. naive_solver lia.
  - intros k1 k2 v. unfold mapping. rewrite !lookup_insert_Some, !lookup_singleton_Some. naive_solver lia.
  - by exists d', ti'.
Defined.
End TranquExample.
