(* ===== verification/MultiprogJob.v ===== *)
(** * Multi-programming jobs (multiprog/manual/job.go)

    A [ManualJob] carries several programs: the circuit combiner makes one
    program of them, which is transpiled and run, and post-processing divides
    the result among the circuits.  The combiner service is a class. *)

From stdpp Require Import base gmap strings list fin_maps.
From Stdlib Require Import ZArith Lia Ascii.
From S2P Require Import Prelude GoString Json Core Common Job ResultDivider Scheduler Converter Tranqu.

Record ManualJob := mkManualJob {
  mj_jobData : JobData;
  combinedQubitsList : list Z;
  combinedQASM : string;
  originalQASMs : string;
  postProcessed : bool
}.

#[global] Program Instance ManualJob_data : HasJobData ManualJob :=
  {| jd := mj_jobData;
     with_jd d j := mkManualJob d (combinedQubitsList j) (combinedQASM j) (originalQASMs j) (postProcessed j) |}.
Next Obligation. reflexivity. Qed.
Next Obligation. by intros []. Qed.
Next Obligation. reflexivity. Qed.

(** The configuration of the combiner ([mpgmconf.MPGMConf]). *)
Record MPGMConf := mkMPGMConf {
  CircuitCombinerPort : string;
  CircuitCombinerHost : string
}.

(** Status 0 is [STATUS_SUCCESS]. *)
Record CombineResponse := mkCombineResponse {
  CombinedStatus : Z;
  CombinedQasm : string;
  CombinedQubits : list Z
}.

(** [comb_connect]: whether the client could be made; a nil connection panics
    when it is used. *)
Class ICombiner (W : Type) := {
  comb_connect : string -> bool;
  rpc_Combine : string -> Z -> W -> (CombineResponse + error) * W
}.

Definition ErrorCircuitCombineFail : error := "circuit combine failed".

Section manual.
Context {W : Type} `{HC : GoClock W} `{HT : ITranspiler W} `{HQ : IQPUManager W} `{HDM : IDBManager W}
  `{HCB : ICombiner W} {MR : MapRange}.
Context (mpgmconf : MPGMConf).

Definition ManualJob_New (d : JobData) : ManualJob := mkManualJob d [] "" "" false.
Definition ManualJob_UpdateStatus (st : Status) : M (W * ManualJob) unit := upd_jd (set_JobStatus st).

Definition ManualJob_IsFinished (j : ManualJob) : outcome bool :=
  Ret (postProcessed j || bool_decide (JobStatus (jd j) = FAILED)).

Definition rollbackQASM : M (W * ManualJob) unit :=
  let! s := get in upd_jd (set_QASM (originalQASMs s.2)).

(** The job's own validation, for every job type. *)
Definition manual_validateJobParam (w : W) (p : JobParam) : outcome (option error) :=
  if JP_Shots p <=? 0 then Ret (Some ("shots(" +:+ FormatInt (JP_Shots p) +:+ ") must be greater than 0"))
  else
    match QPU_GetDeviceInfo w with
    | None => Panic nil_pointer
    | Some di =>
        if MaxShots di <? JP_Shots p
        then Ret (Some ("shots(" +:+ FormatInt (JP_Shots p) +:+ ") is over the limit("
                        +:+ FormatInt (MaxShots di) +:+ ")"))
        else
          match JP_Transpiler p with
          | None => Panic nil_pointer
          | Some c =>
              match TranspilerLib c with
              | None => Ret None
              | Some lib =>
                  if IsAcceptableTranspilerLib w lib then Ret None
                  else Ret (Some ("transpiler lib " +:+ lib +:+ " is not acceptable"))
              end
          end
    end.

Definition combiner_address : string :=
  let port := if bool_decide (CircuitCombinerPort mpgmconf = "") then "5002" else CircuitCombinerPort mpgmconf in
  let host := if bool_decide (CircuitCombinerHost mpgmconf = "") then "localhost" else CircuitCombinerHost mpgmconf in
  host +:+ ":" +:+ port.

(** The text sent to the combiner: no newlines, quotes escaped. *)
Definition combiner_text (qasm : string) : string := ReplaceAll (ReplaceAll qasm newline "") dq escaped_dq.

Definition sendJobdata : M (W * ManualJob) ((string * list Z) + error) :=
  if negb (comb_connect combiner_address) then gopanic nil_pointer
  else
    let! s := get in
    let device_info := QPU_GetDeviceInfo s.1 in
    let! now := on_world Now in
    let! outputJobData := lift (CloneJobData now (jd s.2)) in
    match device_info with
    | None => gopanic nil_pointer
    | Some di =>
        let! res := on_world (rpc_Combine (combiner_text (QASM outputJobData)) (i32 (MaxQubits di))) in
        match res with
        | inr e => ret (inr e)
        | inl r =>
            if negb (CombinedStatus r =? 0) then ret (inr ErrorCircuitCombineFail)
            else ret (inl (CombinedQasm r, CombinedQubits r))
        end
    end.

Definition set_combined (qubits : list Z) (qasm : string) (j : ManualJob) : ManualJob :=
  mkManualJob (set_QASM qasm (mj_jobData j)) qubits qasm (originalQASMs j) (postProcessed j).

(** The combined program is transpiled whether or not the job asks for it. *)
Definition ManualJob_preProcessImpl : M (W * ManualJob) (option error) :=
  let! d := get_jd in
  let! err := on_world (db_Insert d) in
  match err with
  | Some e => ret (Some e)
  | None =>
      let! r := sendJobdata in
      match r with
      | inr e => upd_jd (upd_Result (set_Message e)) ;;! ret (Some e)
      | inl (combined_qasm, combined_qubits_list) =>
          modify (fun s => (s.1, set_combined combined_qubits_list combined_qasm s.2)) ;;!
          zoom Transpile
      end
  end.

Definition ManualJob_PreProcess : M (W * ManualJob) unit :=
  let! s := get in
  let d := jd s.2 in
  let p := mkJobParam (ID d) (QASM d) (Shots d) (Transpiler d) (JobType d) in
  let! err := lift (manual_validateJobParam s.1 p) in
  match err with
  | Some e => SetFailureWithError e ;;! ret tt
  | None =>
      modify (fun s => (s.1, mkManualJob (jd s.2) (combinedQubitsList s.2) (combinedQASM s.2) (QASM (jd s.2)) (postProcessed s.2))) ;;!
      let! err := ManualJob_preProcessImpl in
      match err with
      | Some e => rollbackQASM ;;! SetFailureWithError e ;;! upd_jd (set_UseJobInfoUpdate true)
      | None => ret tt
      end
  end.

Definition ManualJob_Process : M (W * ManualJob) unit :=
  let! err := zoom QPU_Send in
  match err with
  | Some _ => upd_jd (set_JobStatus FAILED) ;;! rollbackQASM
  | None => ret tt
  end.

(** The programs as stored in the job when it is over. *)
Definition qasm_json (combined original : string) : string :=
  Print (json_of_map JStr (<["combined_qasm" := combined]> (<["original_qasms" := original]> ∅))).

Definition setQASMJson : M (W * ManualJob) (option error) :=
  let! s := get in
  match (Unmarshal (decode_list decode_string "[]string") [] (originalQASMs s.2)).2 with
  | Some e => rollbackQASM ;;! ret (Some e)
  | None => upd_jd (set_QASM (qasm_json (combinedQASM s.2) (originalQASMs s.2))) ;;! ret None
  end.

(** [DivideResult] on the job's data. *)
Definition divide_job : M (W * ManualJob) (option error) :=
  fun s => match DivideResult (combinedQubitsList s.2) (jd s.2) with
           | (r, d) => (r, (s.1, with_jd d s.2))
           end.

Definition set_postProcessed (j : ManualJob) : ManualJob :=
  mkManualJob (mj_jobData j) (combinedQubitsList j) (combinedQASM j) (originalQASMs j) true.

Definition ManualJob_PostProcess : M (W * ManualJob) unit :=
  modify (fun s => (s.1, set_postProcessed s.2)) ;;!
  let! err := setQASMJson in
  match err with
  | Some _ => SetFailureWithError "Post-process failed" ;;! rollbackQASM
  | None =>
      let! err := divide_job in
      match err with
      | Some _ => SetFailureWithError "Post-process failed" ;;! ret tt
      | None =>
          upd_jd (set_JobStatus SUCCEEDED) ;;!
          let! now := on_world Now in
          upd_jd (set_Ended now)
      end
  end.

(** The copy has not been post-processed. *)
Definition ManualJob_Clone (j : ManualJob) : ManualJob :=
  mkManualJob (JobData_Clone (mj_jobData j)) (combinedQubitsList j) (combinedQASM j) (originalQASMs j) false.

#[global] Program Instance ManualJob_job : IJob W ManualJob :=
  {| PreProcess := ManualJob_PreProcess; Process := ManualJob_Process; PostProcess := ManualJob_PostProcess;
     IsFinished := ManualJob_IsFinished; Clone := ManualJob_Clone |}.
Next Obligation. intros [[] ? ? ? ?]. reflexivity. Qed.
End manual.

(** ** Properties *)

#[local] Arguments Print : simpl never.
#[local] Arguments qasm_json : simpl never.
#[local] Arguments DivideResult : simpl never.
#[local] Arguments manual_validateJobParam : simpl never.
#[local] Arguments CloneJobData : simpl never.
#[local] Arguments ManualJob_PreProcess : simpl never.
#[local] Arguments ManualJob_Process : simpl never.
#[local] Arguments ManualJob_PostProcess : simpl never.

(** Unfolding of the jobs' code down to the calls of other components. *)
Ltac unfold_manual :=
  unfold zoom, get_jd, upd_jd, on_world, SetFailureWithError, rollbackQASM, bind, get, gets, modify, lift, ret, gopanic in *;
  cbn in *.

Section manual_facts.
Context {W : Type} `{HC : GoClock W} `{HT : ITranspiler W} `{HQ : IQPUManager W} `{HDM : IDBManager W}
  `{HCB : ICombiner W} {MR : MapRange}.
Context (mpgmconf : MPGMConf).

(** What the combiner made of the job data [d]. *)
Definition combined (d : JobData) (res : CombineResponse) : Prop :=
  comb_connect (combiner_address mpgmconf) = true /\
  exists w0 di w1 w2, QPU_GetDeviceInfo w0 = Some di /\
    rpc_Combine (combiner_text (QASM d)) (i32 (MaxQubits di)) w1 = (inl res, w2) /\ CombinedStatus res = 0.

(** The transpiler made [d'] of [d] with the combined program. *)
Definition transpiled (res : CombineResponse) (d d' : JobData) : Prop :=
  exists w1 w2, Transpile (w1, set_QASM (CombinedQasm res) d) = (Ret None, (w2, d')).

(** The job keeps the combiner's answer and the programs it came with. *)
Definition carried (res : CombineResponse) (o : string) (j : ManualJob) : Prop :=
  combinedQASM j = CombinedQasm res /\ combinedQubitsList j = CombinedQubits res /\
  originalQASMs j = o /\ postProcessed j = false.

Lemma clone_QASM now d o : CloneJobData now d = Ret o -> QASM o = QASM d.
Proof.
  unfold CloneJobData. destruct (cloneTranspilerInfo _) as [ti|]; cbn; [|done].
  destruct (String.eqb _ _); [|by intros [= <-]]. by destruct (cloneEstimation _); cbn; [intros [= <-]|].
Qed.

Lemma preprocess_impl_fields w j r w' j' :
  ManualJob_preProcessImpl mpgmconf (w, j) = (Ret r, (w', j')) ->
  originalQASMs j' = originalQASMs j /\ postProcessed j' = postProcessed j /\
  (r = None -> exists res, combined (jd j) res /\ transpiled res (jd j) (jd j') /\
                 combinedQASM j' = CombinedQasm res /\ combinedQubitsList j' = CombinedQubits res).
Proof.
  unfold ManualJob_preProcessImpl, sendJobdata. unfold_manual.
  destruct (db_Insert _ w) as [[e|] w1]; cbn; [by intros [= <- <- <-]|].
  destruct (comb_connect _) eqn:Econn; cbn; [|done]. destruct (Now w1) as [t w2] eqn:Enow; cbn.
  destruct (CloneJobData _ _) as [o|] eqn:Eo; cbn; [|done]. apply clone_QASM in Eo.
  destruct (QPU_GetDeviceInfo w1) as [di|] eqn:Edi; cbn; [|done].
  destruct (rpc_Combine _ _ w2) as [[res|e] w3] eqn:Erpc; cbn; [|by intros [= <- <- <-]].
  destruct (CombinedStatus res =? 0) eqn:Est; cbn; [|by intros [= <- <- <-]].
  destruct (Transpile _) as [[e|m] [w4 d4]] eqn:Et; intros [= <- <- <-]. split; [done|]. split; [done|]. intros ->.
  exists res. cbn. split_and!; [|by exists w3, w4|done|done]. split; [done|].
  exists w1, di, w2, w3. rewrite <- Eo. split_and!; [done|done|by apply Z.eqb_eq].
Qed.

Lemma preprocess_fields w j w' j' :
  ManualJob_PreProcess mpgmconf (w, j) = (Ret tt, (w', j')) -> postProcessed j = false ->
  postProcessed j' = false /\
  (JobStatus (jd j') = FAILED \/
   exists res, combined (jd j) res /\ transpiled res (jd j) (jd j') /\ carried res (QASM (jd j)) j').
Proof.
  unfold ManualJob_PreProcess. unfold bind at 1. cbn. unfold bind at 1, lift.
  destruct (manual_validateJobParam _ _) as [[e|]|]; [| |done].
  - unfold_manual. destruct (Now w) as [t w1]. intros [= <- <-] Hp. cbn. split; [done|]. by left.
  - unfold bind at 1, modify. cbn. unfold bind at 1.
    destruct (ManualJob_preProcessImpl mpgmconf _) as [[[e|]|m] [w1 j1]] eqn:E; [| |done];
      apply preprocess_impl_fields in E as (E1 & E2 & E3); cbn in *.
    + unfold_manual. destruct (Now w1) as [t w2]. intros [= <- <-] Hp. cbn. split; [congruence|]. by left.
    + unfold ret. intros [= <- <-] Hp. split; [congruence|right]. destruct E3 as (res & H1 & H2 & H3 & H4); [done|].
      exists res. unfold carried. split_and!; try done; congruence.
Qed.

(** Processing keeps what the job carries, and runs it. *)
Lemma process_fields w j r w' j' res o :
  ManualJob_Process (w, j) = (r, (w', j')) -> carried res o j ->
  carried res o j' /\
  (r = Ret tt -> JobStatus (jd j') = FAILED \/ QPU_Send (w, jd j) = (Ret None, (w', jd j'))).
Proof.
  unfold ManualJob_Process, carried. unfold_manual.
  destruct (QPU_Send _) as [[[e|]|m] [w1 d1]]; cbn; intros [= <- <- <-] H; cbn; (split; [done|]);
    [by left|by right|done].
Qed.

(** Dividing the result changes nothing but the result. *)
Lemma divide_keeps l d r d' : DivideResult l d = (r, d') -> QASM d' = QASM d /\ JobStatus d' = JobStatus d.
Proof.
  unfold DivideResult. unfold_manual. intros H. repeat (case_match; simplify_eq/=; auto).
Qed.

(** Post-processing succeeds only with the programs stored in the job and its
    result divided. *)
Definition divided (res : CombineResponse) (o : string) (d d' : JobData) : Prop :=
  DivideResult (CombinedQubits res) (set_QASM (qasm_json (CombinedQasm res) o) d) = (Ret None, d').

Lemma postprocess_fields w j w' j' :
  ManualJob_PostProcess (w, j) = (Ret tt, (w', j')) ->
  postProcessed j' = true /\
  (JobStatus (jd j') = FAILED \/
   JobStatus (jd j') = SUCCEEDED /\ forall res o, carried res o j ->
     QASM (jd j') = qasm_json (CombinedQasm res) o /\
     exists d', divided res o (jd j) d' /\ JobResult (jd j') = JobResult d').
Proof.
  unfold ManualJob_PostProcess, setQASMJson, divide_job. unfold_manual.
  destruct (Unmarshal _ _ _).2 as [e|] eqn:EU; cbn.
  - destruct (Now w) as [t w1]. intros [= <- <-]. cbn. split; [done|]. by left.
  - destruct (DivideResult _ _) as [[[e|]|m] d] eqn:ED; cbn; [| |done].
    + destruct (Now w) as [t w1]. intros [= <- <-]. cbn. split; [done|]. by left.
    + destruct (Now w) as [t w1]. intros [= <- <-]. cbn. split; [done|]. right.
      split; [done|]. intros res o (Hc & Hq & Ho & _). pose proof (divide_keeps _ _ _ _ ED) as (EQ & _).
      unfold divided. destruct j; cbn in *; subst. split; [by rewrite EQ; destruct mj_jobData0|]. by exists d.
Qed.

(** *** The handler of a multi-programming job *)

Context `{HD : IDBChan W ManualJob}.
#[local] Instance manual_job : IJob W ManualJob := ManualJob_job mpgmconf.

#[local] Instance ManualJob_never_ready `{!SendNotReady W} : NeverReady (W := W) (J := ManualJob).
Proof.
  constructor.
  - intros w j w' j' Hj. cbn. unfold ManualJob_Process. unfold_manual.
    destruct (QPU_Send _) as [[[e|]|m] [w1 d1]] eqn:E; cbn; intros [= <- <-]; cbn; [done|].
    eapply send_not_ready; [|exact E]. by rewrite Hj.
  - intros w j w' j' _. cbn. intros (_ & [H|[H _]])%postprocess_fields; cbn in H; by rewrite H.
Qed.

Lemma manual_head l r l' (d := set_UseJobInfoUpdate false (jd (l_job l))) :
  postProcessed (l_job l) = false -> JobStatus (jd (l_job l)) = READY -> handle_head l = (Ret r, l') ->
  match r with
  | Some _ => exists res, combined d res /\ transpiled res d (jd (l_job l')) /\ carried res (QASM d) (l_job l')
  | None => JobStatus (jd (l_job l')) = FAILED
  end.
Proof.
  subst d. unfold handle_head, s_IsFinished, s_jd, s_upd, on_job, upd_jd, hist_append, send_clone, bind, get, gets, modify, lift, ret, l_world, l_job in *.
  cbn. intros Hp HR H. rewrite bool_decide_eq_true_2 in H by by destruct (mj_jobData l.1.2). cbn in H.
  destruct (ManualJob_PreProcess mpgmconf _) as [[[]|m] [w1 j1]] eqn:E; cbn in H; [|done].
  apply preprocess_fields in E as [E1 E2]; [|done]. cbn in E1, E2. unfold ManualJob_IsFinished in H. cbn in H.
  rewrite E1 in H. cbn in H. case_bool_decide as HF; cbn in H; rewrite E1 in H; cbn in H.
  - rewrite bool_decide_eq_true_2 in H by by destruct (mj_jobData j1). cbn in H. injection H as <- <-. by destruct (mj_jobData j1).
  - rewrite bool_decide_eq_false_2 in H by done. cbn in H. injection H as <- <-. cbn in *.
    destruct E2 as [E2|E2]; [congruence|exact E2].
Qed.

Lemma manual_worker l r l' res o : worker_run l = (r, l') -> carried res o (l_job l) ->
  carried res o (l_job l') /\
  (JobStatus (jd (l_job l')) = FAILED \/
   exists w1 w2, QPU_Send (w1, set_JobStatus RUNNING (jd (l_job l))) = (Ret None, (w2, jd (l_job l')))).
Proof.
  unfold worker_run, recovering, s_jd, s_upd, on_job, upd_jd, hist_append, send_clone, bind, get, gets, modify, ret, l_world, l_job in *. cbn.
  destruct (ManualJob_Process _) as [x [w1 j1]] eqn:E. intros H Hc.
  eapply process_fields in E as [E1 E2]; [|exact Hc]. cbn in *.
  destruct x as [[]|m]; injection H as <- <-; cbn.
  - split; [exact E1|]. destruct E2 as [E2|E2]; [done|by left|right]. eauto.
  - split; [exact E1|by left].
Qed.

Lemma manual_tail jid l b l' res o :
  handle_tail jid l = (Ret b, l') -> carried res o (l_job l) ->
  b = false /\
  (JobStatus (jd (l_job l')) = SUCCEEDED ->
   JobStatus (jd (l_job l)) <> FAILED /\ QASM (jd (l_job l')) = qasm_json (CombinedQasm res) o /\
   exists d', divided res o (set_UseJobInfoUpdate true (jd (l_job l))) d' /\ JobResult (jd (l_job l')) = JobResult d').
Proof.
  unfold handle_tail, s_IsFinished, s_jd, s_upd, on_job, upd_jd, hist_append, send_clone, bind, get, gets, modify, lift, ret, l_world, l_job in *. cbn.
  unfold ManualJob_IsFinished. cbn. intros H Hc. pose proof Hc as (_ & _ & _ & Hp). rewrite Hp in H. cbn in H.
  case_bool_decide as HF; cbn in H.
  - injection H as <- <-. split; [done|]. cbn in *. destruct (mj_jobData l.1.2); cbn in *; congruence.
  - destruct (ManualJob_PostProcess _) as [[[]|m] [w1 j1]] eqn:E; cbn in H; [|done].
    apply postprocess_fields in E as (E1 & E2). cbn in *. rewrite E1 in H. cbn in H. injection H as <- <-. cbn in *.
    split; [done|]. intros HS. split; [by destruct (mj_jobData l.1.2)|].
    destruct E2 as [E2|[_ E2]]; [congruence|]. apply E2. destruct Hc as (? & ? & ? & _). by split_and!.
Qed.

Lemma recover_failed l r l' : handle_recover l = (r, l') -> JobStatus (jd (l_job l')) = FAILED.
Proof. destruct (handle_recover_spec l) as (l1 & -> & _ & H). by intros [= <- <-]. Qed.

(** The data of a job on its way from submission to success: the combiner's
    answer [res], the data [d1] the transpiler and [d2] the QPU left behind, and
    the data [d3] with the divided result. *)
Definition succeeded_run (d : JobData) (res : CombineResponse) (d1 d2 d3 : JobData) : Prop :=
  combined d res /\ transpiled res d d1 /\
  (exists w1 w2, QPU_Send (w1, set_JobStatus RUNNING d1) = (Ret None, (w2, d2))) /\
  divided res (QASM d) (set_UseJobInfoUpdate true d2) d3.

Lemma manual_handled fuel l b l' :
  JobStatus (jd (l_job l)) = READY -> postProcessed (l_job l) = false ->
  handleImpl (S fuel) l = (Ret b, l') -> JobStatus (jd (l_job l')) = SUCCEEDED ->
  exists res d1 d2 d3, succeeded_run (set_UseJobInfoUpdate false (jd (l_job l))) res d1 d2 d3 /\
    QASM (jd (l_job l')) = qasm_json (CombinedQasm res) (QASM (jd (l_job l))) /\
    JobResult (jd (l_job l')) = JobResult d3.
Proof.
  intros HR Hp. unfold handleImpl, guarded, recovering. cbn [handle_loop].
  destruct (bind handle_head _ l) as [[b1|m] l1] eqn:E.
  2: { unfold bind. destruct (handle_recover l1) as [[[]|m2] l2] eqn:E2; apply recover_failed in E2; [|done].
       intros [= <- <-] H. congruence. }
  intros [= <- <-] HS. unfold bind at 1 in E. destruct (handle_head l) as [[r|m] l2] eqn:E1; [|done].
  apply manual_head in E1; [|done..].
  destruct r as [jid|]; [|by injection E as <- <-; congruence]. destruct E1 as (res & Hcomb & Htr & Hc).
  unfold bind at 1 in E. destruct (worker_run l2) as [[[]|m] l3] eqn:E2; [|done].
  destruct (manual_worker _ _ _ _ _ E2 Hc) as [Hc' Hsend].
  unfold bind at 1 in E. destruct (handle_tail jid l3) as [[again|m] l4] eqn:E3; [|done].
  destruct (manual_tail _ _ _ _ _ _ E3 Hc') as [-> Hend]. injection E as <- <-.
  destruct (Hend HS) as (Hnf & Hqasm & d3 & Hdiv & Hres). destruct Hsend as [|Hsend]; [done|].
  assert (QASM (set_UseJobInfoUpdate false (jd (l_job l))) = QASM (jd (l_job l))) as EQ by by destruct (jd (l_job l)).
  exists res, (jd (l_job l2)), (jd (l_job l3)), d3. rewrite <- EQ. split_and!; [|exact Hqasm|exact Hres]. by split_and!.
Qed.

(** *** What the cloud is told *)

Lemma qasm_json_read combined original :
  ascii_str combined -> ascii_str original ->
  Unmarshal (decode_map decode_string "map[string]string") ∅ (qasm_json combined original)
  = (<["combined_qasm" := combined]> (<["original_qasms" := original]> ∅), None).
Proof.
  intros Hc Ho. apply Unmarshal_Marshal_map; [done| |done]. intros k a.
  rewrite !lookup_insert_Some, lookup_empty. intros [[<- <-]|[_ [[<- <-]|[_ [=]]]]]; done.
Qed.

Context {GF : GoFloat}.

(** C20: a multi-programming job is reported with its own programs and what
    became of them.  When the handler of a READY job ends with the job
    SUCCEEDED, the combiner was asked for the submitted programs and the
    device's qubits and answered without an error, the transpiler was given the
    combiner's program, the QPU the transpiled job, and the QPU's result was
    divided along the combiner's qubits; and the job the service database makes
    of it for the cloud has, as its program, the text the job was submitted
    with, as its combined program the combiner's answer, the status succeeded,
    and the counts and the divided counts that dividing the result gave.
    Programs are taken to be ASCII. *)
Theorem manual_programs_reported fuel l l' b :
  JobStatus (jd (l_job l)) = READY -> postProcessed (l_job l) = false ->
  handleImpl (S fuel) l = (Ret b, l') ->
  JobStatus (jd (l_job l')) = SUCCEEDED -> JobType (jd (l_job l')) = MULTIPROG_MANUAL_JOB ->
  ascii_str (QASM (jd (l_job l))) ->
  let c := (ConvertToCloudJob (jd (ManualJob_Clone (l_job l')))).1 in
  exists res d1 d2 d3, succeeded_run (set_UseJobInfoUpdate false (jd (l_job l))) res d1 d2 d3 /\
    (ascii_str (CombinedQasm res) ->
     Program (C_JobInfo c) = [QASM (jd (l_job l))] /\
     CombinedProgram (C_JobInfo c) = OSet (CombinedQasm res)) /\
    C_Status c = "succeeded" /\
    JI_Result (C_JobInfo c) =
      OSet (mkJobResult (OSet (mkSampling (convertToAPICounts (Counts (JobResult d3)))
                                 (OSet (convertToAPIDividedCounts (DividedResult (JobResult d3)))))) ONull).
Proof.
  intros HR Hp Hrun HS HTy Ha. destruct (manual_handled _ _ _ _ HR Hp Hrun HS) as (res & d1 & d2 & d3 & Hok & HQASM & Hres).
  cbn zeta. exists res, d1, d2, d3. split; [exact Hok|].
  replace (jd (ManualJob_Clone (l_job l'))) with (jd (l_job l')) by by destruct (l_job l') as [[] ? ? ? ?].
  unfold ConvertToCloudJob, cloud_result. rewrite HTy, HS, HQASM, Hres. cbn. split_and!.
  - intros Hc. rewrite qasm_json_read by done. done.
  - by destruct (Unmarshal _ _ _) as [m [e|]].
  - by destruct (Unmarshal _ _ _) as [m [e|]].
Qed.
End manual_facts.

(** *** Jobs without a transpiler *)

Section no_transpiler.
Context {W : Type} `{HC : GoClock W} `{HQ : IQPUManager W} `{HS : ITranquService W} `{HDM : IDBManager W}
  `{HCB : ICombiner W} {MR : MapRange}.
Context (mpgmconf : MPGMConf) (t : Tranqu).
#[local] Instance tranqu : ITranspiler W := Tranqu_transpiler t.
#[local] Arguments Transpile : simpl never.

Lemma tranqu_without_lib d tc :
  Transpiler d = Some tc -> TranspilerLib tc = None -> forall w, Transpile (w, d) = (Panic nil_pointer, (w, d)).
Proof. intros H1 H2 w. unfold Transpile, tranqu, Tranqu_transpiler, Tranqu_Transpile, transpile_request. unfold_manual. by rewrite H1, H2. Qed.

(** A multi-programming job that asks for no transpiler never gets through
    pre-processing, although its own validation accepts it: a return means that
    the job has FAILED, and when it is valid and the combiner succeeds, the
    combined program is given to the transpiler client all the same, which panics
    on the missing library. *)
Theorem manual_needs_transpiler w j tc :
  Transpiler (jd j) = Some tc -> TranspilerLib tc = None ->
  (forall w' j', ManualJob_PreProcess mpgmconf (w, j) = (Ret tt, (w', j')) -> JobStatus (jd j') = FAILED) /\
  (forall w1 o di res w2,
     manual_validateJobParam w (mkJobParam (ID (jd j)) (QASM (jd j)) (Shots (jd j)) (Transpiler (jd j)) (JobType (jd j))) = Ret None ->
     db_Insert (jd j) w = (None, w1) -> comb_connect (combiner_address mpgmconf) = true ->
     CloneJobData (Now w1).1 (jd j) = Ret o -> QPU_GetDeviceInfo w1 = Some di ->
     rpc_Combine (combiner_text (QASM o)) (i32 (MaxQubits di)) (Now w1).2 = (inl res, w2) -> CombinedStatus res = 0 ->
     exists s, ManualJob_PreProcess mpgmconf (w, j) = (Panic nil_pointer, s)).
Proof.
  intros Htc Hlib. split.
  - intros w' j'. unfold ManualJob_PreProcess, ManualJob_preProcessImpl, sendJobdata. unfold_manual.
    destruct (manual_validateJobParam _ _) as [[e|]|]; [| |done].
    { cbn. destruct (Now w) as [z w1]. by intros [= <- <-]. }
    cbn. destruct (db_Insert _ w) as [[e|] w1]; cbn; [destruct (Now w1) as [z w2]; by intros [= <- <-]|].
    destruct (negb _); cbn; [done|]. destruct (Now w1) as [z w2]; cbn. destruct (CloneJobData _ _) as [o|]; cbn; [|done].
    destruct (QPU_GetDeviceInfo w1); cbn; [|done].
    destruct (rpc_Combine _ _ w2) as [[res|e] w3]; cbn; [|destruct (Now w3) as [z2 w4]; by intros [= <- <-]].
    destruct (negb (CombinedStatus res =? 0)); cbn; [destruct (Now w3) as [z2 w4]; by intros [= <- <-]|].
    rewrite (tranqu_without_lib _ tc); [done| |done]. by destruct (mj_jobData j).
  - intros w1 o di res w2 Hv Hdb Hconn Hclone Hdi Hrpc Hst.
    unfold ManualJob_PreProcess, ManualJob_preProcessImpl, sendJobdata. unfold_manual. rewrite Hv. cbn.
    rewrite Hdb. cbn. rewrite Hconn. cbn. destruct (Now w1) as [z w1'] eqn:En; cbn in *. rewrite Hclone. cbn. rewrite Hdi. cbn. rewrite Hrpc. cbn.
    rewrite Hst. cbn. rewrite (tranqu_without_lib _ tc); [by eexists| |done]. by destruct (mj_jobData j).
Qed.
End no_transpiler.

(** ** Witnesses *)

Module ManualExample.
#[local] Existing Instance canonical_range.

(** A world in which every service answers; it records what is sent to the
    database. *)
Record World := mkWorld { reported : list ManualJob }.

Definition device : DeviceInfo := mkDeviceInfo "" "" "" Available 4 100 "{}" "".
Definition counts : gmap string Z := {["01" := 10; "11" := 5]}.
Definition answer : CombineResponse := mkCombineResponse 0 "OPENQASM 3; qubit[2] q;" [1; 1].

#[local] Instance clock : GoClock World := fun w => (0, w).
#[local] Instance transpiler : ITranspiler World :=
  {| IsAcceptableTranspilerLib := fun _ _ => true;
     Transpile := modify (fun s => (s.1, set_TranspiledQASM "OPENQASM 3;" s.2)) ;;! ret None |}.
#[local] Instance qpu : IQPUManager World :=
  {| QPU_Send := modify (fun s => (s.1, set_JobStatus SUCCEEDED (upd_Result (set_Counts counts) s.2))) ;;! ret None;
     QPU_GetDeviceInfo := fun _ => Some device |}.
#[local] Instance db : IDBManager World := fun _ w => (None, w).
#[local] Instance combiner : ICombiner World :=
  {| comb_connect := fun _ => true; rpc_Combine := fun _ _ w => (inl answer, w) |}.
#[local] Program Instance dbchan : IDBChan World ManualJob :=
  {| db_send j w := mkWorld (reported w ++ [j]); db_sent := reported |}.
Next Obligation. reflexivity. Qed.
#[local] Instance float : GoFloat := {| float_json _ := "0"; f64_of_f32 z := z; seconds z := z; norm_number s := Some s |}.

Definition conf : MPGMConf := mkMPGMConf "" "".
#[local] Instance job_type : IJob World ManualJob := ManualJob_job conf.

Definition programs : string := "[" +:+ dq +:+ "qubit q;" +:+ dq +:+ "," +:+ dq +:+ "qubit r;" +:+ dq +:+ "]".
Definition data (lib : option string) : JobData :=
  mkJobData "id" READY 10 (Some (mkTranspilerConfig lib None false)) programs ""
    (upd_Result (set_Result_TranspilerInfo (Some (mkTranspilerInfo None None None None))) (NewJobData 0)).(JobResult)
    MULTIPROG_MANUAL_JOB 0 0 "" "" false false.
Definition start (lib : option string) : Local World ManualJob := ((mkWorld [], ManualJob_New (data lib)), ∅).
Definition ended : Local World ManualJob := (handleImpl 1 (start (Some "qiskit"))).2.

Lemma manual_programs_reported_witness :
  let c := (ConvertToCloudJob (jd (ManualJob_Clone (l_job ended)))).1 in
  Program (C_JobInfo c) = [programs] /\ CombinedProgram (C_JobInfo c) = OSet (CombinedQasm answer).
Proof.
  destruct (manual_programs_reported conf 0 (start (Some "qiskit")) ended true) as
    (res & d1 & d2 & d3 & ((_ & w0 & di & w1 & w2 & _ & Hres & _) & _) & H & _);
    [reflexivity|reflexivity|vm_compute; reflexivity|vm_compute; reflexivity|vm_compute; reflexivity
    |vm_compute; reflexivity|].
  cbn in Hres. injection Hres as <- _. destruct H as [H1 H2]; [vm_compute; reflexivity|].
  split; [exact H1|exact H2].
Defined.

#[local] Instance service : ITranquService World := fun _ w => (inr "unused", w).
Definition client : Tranqu := mkTranqu NewTranquSetting "localhost:50052" true.

Lemma manual_needs_transpiler_witness :
  exists s, ManualJob_PreProcess (HT := tranqu client) conf (mkWorld [], ManualJob_New (data None)) = (Panic nil_pointer, s).
Proof.
  destruct (manual_needs_transpiler conf client (mkWorld []) (ManualJob_New (data None)) (mkTranspilerConfig None None false)) as [_ H];
    [reflexivity|reflexivity|].
  destruct (CloneJobData 0 (data None)) as [o|] eqn:E; [|vm_compute in E; discriminate E].
  eapply (H (mkWorld []) o device answer (mkWorld [])); first [exact E|reflexivity].
Defined.
End ManualExample.
