(* ===== verification/Device.v ===== *)
(** * Device setting (qpu/device.go)

    The device setting with its statement filters.  Reading the file is an
    argument of [LoadDeviceSetting], and so is the toml decoder, which fills
    the members the file has.  A nil pointer of the source is [None]. *)

From stdpp Require Import base gmap strings list.
From Stdlib Require Import ZArith Lia.
From S2P Require Import Prelude.

Record QASMStatementType := mkQASMStatementType { StatementName : string }.
Record QASMGateType := mkQASMGateType { GateTypeName : string }.
Definition QASMStatementType_String (q : QASMStatementType) : string := StatementName q.
Definition QASMGateType_String (q : QASMGateType) : string := GateTypeName q.

Record QASMFilter := mkQASMFilter {
  Enabled : bool;
  FilterStatements : list QASMStatementType;
  FilterGates : list QASMGateType
}.

Record QASMSupport := mkQASMSupport {
  AllowList : option QASMFilter;
  DenyList : option QASMFilter
}.

Record DeviceSetting := mkDeviceSetting {
  DS_DeviceName : string;
  DS_DeviceType : string;
  DS_ProviderName : string;
  DS_MaxShots : Z;
  DS_QASMSupport : option QASMSupport;
  MachineHost : string;
  MachinePort : string;
  PollingPeriod : Z;
  DS_UseCred : bool
}.

Definition empty_filter : QASMFilter := mkQASMFilter false [] [].
Definition NewQasmSupport : QASMSupport := mkQASMSupport (Some empty_filter) (Some empty_filter).
Definition NewQasmSupportWithAllowList (q : option QASMFilter) : QASMSupport :=
  mkQASMSupport q (Some empty_filter).
Definition NewQasmSupportWithDenyList (q : option QASMFilter) : QASMSupport :=
  mkQASMSupport (Some empty_filter) q.

Definition NewDeviceSetting : DeviceSetting :=
  mkDeviceSetting "" "" "" 0 (Some NewQasmSupport) "localhost" "50051" 60 false.

(** An unreadable file gives the defaults, an undecodable one an error beside
    an empty setting. *)
Definition LoadDeviceSetting (blob : string + error) (decode : string -> DeviceSetting -> DeviceSetting + error)
    : DeviceSetting * option error :=
  let ds := NewDeviceSetting in
  match blob with
  | inr _ => (ds, None)
  | inl text =>
      match decode text ds with
      | inr e => (mkDeviceSetting "" "" "" 0 None "" "" 0 false, Some e)
      | inl ds => (ds, None)
      end
  end.
