(* ===== verification/Circuit.v ===== *)
(** * Circuits (qpu/ir.go and qpu/circuit.go)

    [CircuitIR] listens to a walk over the parse tree of an OpenQASM program
    and collects declarations, gate calls and measurements, numbering qubits
    and bits; [circuitValidate] checks a program against the device.  The
    generated parser and the walker of its runtime are classes: the parser
    gives a tree or panics, the walker visits a node before and after its
    children. *)

From stdpp Require Import base gmap strings list fin_maps.
From Stdlib Require Import ZArith Lia.
From S2P Require Import Prelude GoString Core Common Job Device.

(** ** The parse tree as the listener sees it *)

(** The rules the listener has methods for, with the texts the methods read.
    [None] is a nil node, whose [GetText] panics. *)
Inductive rule :=
| RProgram
| RVersion (specifier : option string)
| RQuantumDeclarationStatement (identifier : option string)
| RClassicalDeclarationStatement (identifier : option string)
| RDesignator (expression : option string)
| RGateCallStatement (identifier : option string)
| RGateOperandList
| RExpressionList (text : string)
| RIndexedIdentifier (identifier : string) (index : option string)
| RAssignmentStatement
| RMeasureExpression
| ROther (name : string).

Inductive tree := Node (r : rule) (children : list tree).
Definition node_rule (t : tree) : rule := match t with Node r _ => r end.
Definition node_children (t : tree) : list tree := match t with Node _ ts => ts end.

(** [antlr.TreesGetNodeText] of a context: the name of its rule. *)
Definition rule_name (r : rule) : string :=
  match r with
  | RProgram => "program"
  | RVersion _ => "version"
  | RQuantumDeclarationStatement _ => "quantumDeclarationStatement"
  | RClassicalDeclarationStatement _ => "classicalDeclarationStatement"
  | RDesignator _ => "designator"
  | RGateCallStatement _ => "gateCallStatement"
  | RGateOperandList => "gateOperandList"
  | RExpressionList _ => "expressionList"
  | RIndexedIdentifier _ _ => "indexedIdentifier"
  | RAssignmentStatement => "assignmentStatement"
  | RMeasureExpression => "measureExpression"
  | ROther name => name
  end.

(** [pc.AllStatement()]: the statements among the children of the program, and
    the name of what a statement consists of, its first child; the text of a nil
    child panics. *)
Definition is_statement (t : tree) : bool := String.eqb (rule_name (node_rule t)) "statement".
Definition AllStatement (pc : tree) : list tree := List.filter is_statement (node_children pc).
Definition statement_name (statement : tree) : outcome string :=
  match node_children statement with
  | [] => Panic nil_pointer
  | child :: _ => Ret (rule_name (node_rule child))
  end.

Inductive event := Enter (r : rule) | Exit (r : rule).

(** [antlr.ParseTreeWalkerDefault.Walk]: enter a node, walk its children in
    order, exit the node. *)
Class ParseTreeWalker := {
  walk : tree -> list event;
  walk_node : forall r ts, walk (Node r ts) = Enter r :: concat (map walk ts) ++ [Exit r]
}.

Fixpoint default_walk (t : tree) : list event :=
  match t with Node r ts => Enter r :: concat (map default_walk ts) ++ [Exit r] end.
Definition default_walker : ParseTreeWalker := {| walk := default_walk; walk_node := fun r ts => eq_refl |}.

(** ** The intermediate representation *)

Record QCbitIdentifier := mkQCbit { QC_Name : string; QC_Index : Z }.
#[global] Instance QCbitIdentifier_eq_dec : EqDecision QCbitIdentifier.
Proof. solve_decision. Defined.
#[global] Instance QCbitIdentifier_countable : Countable QCbitIdentifier.
Proof.
  refine (inj_countable' (fun q => (QC_Name q, QC_Index q)) (fun p => mkQCbit p.1 p.2) _). by intros [].
Defined.

Record MeasureExpressionIR := mkMeasure { M_QCbitIdentifier : QCbitIdentifier }.

Inductive StatementIR :=
| QuantumDeclarationStatementIR (Identifier : string) (Designator : Z)
| ClassicalDeclarationStatementIR (Identifier : string) (Designator : Z)
| GateCallStatementIR (GateName : string) (Operands : list QCbitIdentifier) (ExpList : string)
| AssignmentStatementIR (Left : QCbitIdentifier) (Right : MeasureExpressionIR).

Definition StatementIR_String (s : StatementIR) : string :=
  match s with
  | QuantumDeclarationStatementIR _ _ => "QuantumDecalrationStatementIR"
  | ClassicalDeclarationStatementIR _ _ => "ClassicalDecalrationStatementIR"
  | GateCallStatementIR _ _ _ => "GateCallStatementIR"
  | AssignmentStatementIR _ _ => "AssignmentStatementIR"
  end.

Record ProgramIR := mkProgramIR {
  Version : string;
  Statements : list StatementIR;
  QubitCount : Z;
  QubitAbsNum : gmap QCbitIdentifier Z;
  BitCount : Z;
  BitAbsNum : gmap QCbitIdentifier Z
}.

Record CircuitIR := mkCircuitIR {
  IR_ProgramIR : option ProgramIR;
  tmpStatementIR : option StatementIR;
  tmpDegsinator : Z;
  tmpQCbitIdentifiers : list QCbitIdentifier;
  tmpMeasureExpressionIR : MeasureExpressionIR;
  tmpExpressionList : string
}.

Definition zero_identifier : QCbitIdentifier := mkQCbit "" 0.
Definition empty_circuit_ir : CircuitIR := mkCircuitIR None None 0 [] (mkMeasure zero_identifier) "".

Definition set_program (p : ProgramIR) (c : CircuitIR) : CircuitIR :=
  mkCircuitIR (Some p) (tmpStatementIR c) (tmpDegsinator c) (tmpQCbitIdentifiers c)
    (tmpMeasureExpressionIR c) (tmpExpressionList c).
Definition set_tmpStatementIR (s : StatementIR) (c : CircuitIR) : CircuitIR :=
  mkCircuitIR (IR_ProgramIR c) (Some s) (tmpDegsinator c) (tmpQCbitIdentifiers c)
    (tmpMeasureExpressionIR c) (tmpExpressionList c).
Definition set_tmpDegsinator (d : Z) (c : CircuitIR) : CircuitIR :=
  mkCircuitIR (IR_ProgramIR c) (tmpStatementIR c) d (tmpQCbitIdentifiers c)
    (tmpMeasureExpressionIR c) (tmpExpressionList c).
Definition set_tmpQCbitIdentifiers (l : list QCbitIdentifier) (c : CircuitIR) : CircuitIR :=
  mkCircuitIR (IR_ProgramIR c) (tmpStatementIR c) (tmpDegsinator c) l
    (tmpMeasureExpressionIR c) (tmpExpressionList c).
Definition set_tmpMeasureExpressionIR (m : MeasureExpressionIR) (c : CircuitIR) : CircuitIR :=
  mkCircuitIR (IR_ProgramIR c) (tmpStatementIR c) (tmpDegsinator c) (tmpQCbitIdentifiers c)
    m (tmpExpressionList c).
Definition set_tmpExpressionList (s : string) (c : CircuitIR) : CircuitIR :=
  mkCircuitIR (IR_ProgramIR c) (tmpStatementIR c) (tmpDegsinator c) (tmpQCbitIdentifiers c)
    (tmpMeasureExpressionIR c) s.

(** ** The listener methods *)

Definition get_text (node : option string) : M CircuitIR string :=
  match node with Some t => ret t | None => gopanic nil_pointer end.

(** [c.ProgramIR], dereferenced. *)
Definition program : M CircuitIR ProgramIR :=
  let! c := get in
  match IR_ProgramIR c with Some p => ret p | None => gopanic nil_pointer end.

(** [panic(err)] unless the text is an [int]. *)
Definition atoi (s : string) : M CircuitIR Z :=
  match Atoi s with inl n => ret n | inr e => gopanic e end.

Definition bad_assertion {A} : M CircuitIR A := gopanic "interface conversion".

Definition append_statement (s : StatementIR) : M CircuitIR unit :=
  let! p := program in
  modify (set_program (mkProgramIR (Version p) (Statements p ++ [s]) (QubitCount p) (QubitAbsNum p)
                         (BitCount p) (BitAbsNum p))).

Definition EnterProgram : M CircuitIR unit :=
  modify (set_program (mkProgramIR "" [] 0 ∅ 0 ∅)).

Definition EnterVersion (specifier : option string) : M CircuitIR unit :=
  let! v := get_text specifier in
  let! p := program in
  modify (set_program (mkProgramIR v (Statements p) (QubitCount p) (QubitAbsNum p) (BitCount p) (BitAbsNum p))).

Definition EnterQuantumDeclarationStatement (identifier : option string) : M CircuitIR unit :=
  let! name := get_text identifier in
  modify (set_tmpStatementIR (QuantumDeclarationStatementIR name 0)).

(** The loop over the bits of a register: [n] turns from index [i], with the
    counter and the numbers given so far. *)
Fixpoint number_bits (name : string) (n : nat) (i : Z) (r : Z * gmap QCbitIdentifier Z)
    : Z * gmap QCbitIdentifier Z :=
  match n with
  | O => r
  | S n' => number_bits name n' (i + 1) (i64 (r.1 + 1), <[mkQCbit name i := r.1]> r.2)
  end.

Definition ExitQuantumDeclarationStatement : M CircuitIR unit :=
  let! c := get in
  match tmpStatementIR c with
  | Some (QuantumDeclarationStatementIR name _) =>
      let d := tmpDegsinator c in
      let s := QuantumDeclarationStatementIR name d in
      modify (set_tmpStatementIR s) ;;!
      (if 0 <? d then
         let! p := program in
         let r := number_bits name (Z.to_nat d) 0 (QubitCount p, QubitAbsNum p) in
         modify (set_program (mkProgramIR (Version p) (Statements p) r.1 r.2 (BitCount p) (BitAbsNum p)))
       else ret tt) ;;!
      append_statement s
  | _ => bad_assertion
  end.

Definition EnterDesignator (expression : option string) : M CircuitIR unit :=
  let! e := get_text expression in
  let! des := atoi e in
  modify (set_tmpDegsinator des).

Definition EnterClassicalDeclarationStatement (identifier : option string) : M CircuitIR unit :=
  let! name := get_text identifier in
  modify (set_tmpStatementIR (ClassicalDeclarationStatementIR name 0)).

Definition ExitClassicalDeclarationStatement : M CircuitIR unit :=
  let! c := get in
  match tmpStatementIR c with
  | Some (ClassicalDeclarationStatementIR name _) =>
      let d := tmpDegsinator c in
      let s := ClassicalDeclarationStatementIR name d in
      modify (set_tmpStatementIR s) ;;!
      (if 0 <? d then
         let! p := program in
         let r := number_bits name (Z.to_nat d) 0 (BitCount p, BitAbsNum p) in
         modify (set_program (mkProgramIR (Version p) (Statements p) (QubitCount p) (QubitAbsNum p) r.1 r.2))
       else ret tt) ;;!
      append_statement s
  | _ => bad_assertion
  end.

Definition EnterGateCallStatement (identifier : option string) : M CircuitIR unit :=
  let! name := get_text identifier in
  modify (set_tmpStatementIR (GateCallStatementIR name [] "")).

Definition ExitGateCallStatement : M CircuitIR unit :=
  let! c := get in
  match tmpStatementIR c with
  | Some (GateCallStatementIR name _ _) =>
      let s := GateCallStatementIR name (tmpQCbitIdentifiers c) (tmpExpressionList c) in
      modify (set_tmpStatementIR s) ;;!
      append_statement s
  | _ => bad_assertion
  end.

Definition EnterGateOperandList : M CircuitIR unit := modify (set_tmpQCbitIdentifiers []).
Definition EnterExpressionList : M CircuitIR unit := modify (set_tmpExpressionList "").
Definition ExitExpressionList (text : string) : M CircuitIR unit := modify (set_tmpExpressionList text).

Definition EnterIndexedIdentifier (identifier : string) (index : option string) : M CircuitIR unit :=
  let! e := get_text index in
  let! ind := atoi e in
  modify (fun c => set_tmpQCbitIdentifiers (tmpQCbitIdentifiers c ++ [mkQCbit identifier ind]) c).

Definition EnterAssignmentStatement : M CircuitIR unit :=
  modify (set_tmpStatementIR (AssignmentStatementIR zero_identifier (mkMeasure zero_identifier))) ;;!
  modify (set_tmpQCbitIdentifiers []).

Definition identifier_at (i : nat) : M CircuitIR QCbitIdentifier :=
  let! c := get in
  match tmpQCbitIdentifiers c !! i with
  | Some q => ret q
  | None => gopanic "index out of range"
  end.

Definition ExitMeasureExpression : M CircuitIR unit :=
  let! q := identifier_at 1 in modify (set_tmpMeasureExpressionIR (mkMeasure q)).

Definition ExitAssignmentStatement : M CircuitIR unit :=
  let! c := get in
  match tmpStatementIR c with
  | Some (AssignmentStatementIR _ _) =>
      let! q := identifier_at 0 in
      let s := AssignmentStatementIR q (tmpMeasureExpressionIR c) in
      modify (set_tmpStatementIR s) ;;!
      append_statement s
  | _ => bad_assertion
  end.

(** The methods by rule; the base listener does nothing for the others. *)
Definition enter_rule (r : rule) : M CircuitIR unit :=
  match r with
  | RProgram => EnterProgram
  | RVersion v => EnterVersion v
  | RQuantumDeclarationStatement n => EnterQuantumDeclarationStatement n
  | RClassicalDeclarationStatement n => EnterClassicalDeclarationStatement n
  | RDesignator e => EnterDesignator e
  | RGateCallStatement n => EnterGateCallStatement n
  | RGateOperandList => EnterGateOperandList
  | RExpressionList _ => EnterExpressionList
  | RIndexedIdentifier n i => EnterIndexedIdentifier n i
  | RAssignmentStatement => EnterAssignmentStatement
  | RMeasureExpression | ROther _ => ret tt
  end.

Definition exit_rule (r : rule) : M CircuitIR unit :=
  match r with
  | RQuantumDeclarationStatement _ => ExitQuantumDeclarationStatement
  | RClassicalDeclarationStatement _ => ExitClassicalDeclarationStatement
  | RGateCallStatement _ => ExitGateCallStatement
  | RExpressionList t => ExitExpressionList t
  | RMeasureExpression => ExitMeasureExpression
  | RAssignmentStatement => ExitAssignmentStatement
  | _ => ret tt
  end.

Definition listen (e : event) : M CircuitIR unit :=
  match e with Enter r => enter_rule r | Exit r => exit_rule r end.

Definition NewCircuitIR {PW : ParseTreeWalker} (pc : tree) : CircuitIR * option error :=
  match mfor listen (walk pc) empty_circuit_ir with
  | (Ret _, c) => (c, None)
  | (Panic _, _) => (empty_circuit_ir, Some "failed to generate IR.")
  end.

(** ** Parsing and validation (qpu/circuit.go) *)

(** What the parser reports to its error listener. *)
Inductive report :=
| ReportSyntaxError (line column : Z) (msg : string)
| ReportAmbiguousInput
| ReportFullContext
| ReportContext.

(** The generated parser with the bail-out strategy: its reports, and a program
    or a panic ([true]: a [ParseCancellationException]); its table of rule names
    and the printed form of a tree. *)
Class QASMParser := {
  Program : string -> list report * (tree + bool);
  RuleNames : list string;
  ToStringTree : tree -> string
}.

(** What the grammar says of the root and of its statements: a statement is
    never empty (the generated parser is shown to meet this in the file
    Qasm3Circuit). *)
Definition well_shaped (pc : tree) : Prop :=
  node_rule pc = RProgram /\ Forall (fun st => node_children st <> []) (AllStatement pc).
Class ProgramShape {QP : QASMParser} : Prop :=
  program_shape : forall qasm reports pc, Program qasm = (reports, inl pc) -> well_shaped pc.

Record Circuit := mkCircuit {
  programContext : option tree;
  ruleNames : list string;
  stringTree : string
}.

(** [qasmErrorListener]: the message buffer after a report. *)
Definition SyntaxError (line column : Z) (msg : string) : string :=
  "line " +:+ FormatInt line +:+ ":" +:+ FormatInt column +:+ " " +:+ msg.
Definition ReportAmbiguity : string := "reportAmbiguity".
Definition ReportAttemptingFullContext : string := "reportAttemptingFullContext".
Definition ReportContextSensitivity : string := "reportContextSensitivity".
Definition qasmErrorListener (msgBuffer : string) (r : report) : string :=
  match r with
  | ReportSyntaxError line column msg => SyntaxError line column msg
  | ReportAmbiguousInput => ReportAmbiguity
  | ReportFullContext => ReportAttemptingFullContext
  | ReportContext => ReportContextSensitivity
  end.

Section circuit.
Context {W : Type} `{HQ : IQPUManager W} {PW : ParseTreeWalker} {QP : QASMParser} {U : UnicodeLower}.

Definition ParseQASM (qasm : string) : option Circuit * option error :=
  if bool_decide (qasm = "") then (None, Some "no input qasm")
  else
    let '(reports, parsed) := Program qasm in
    let msgBuffer := foldl qasmErrorListener "" reports in
    match parsed with
    | inl pc => (Some (mkCircuit (Some pc) RuleNames (ToStringTree pc)), None)
    | inr cancelled =>
        let userErrorMsg :=
          if bool_decide (msgBuffer <> "") then msgBuffer
          else if cancelled : bool then "canceled to parse" else "failed to parse" in
        (Some (mkCircuit None [] ""), Some userErrorMsg)
    end.

Definition not_supported (statement : string) : error := "statement:" +:+ statement +:+ " is not supported".

Fixpoint filter_loop (statements : list tree) (statementList : list string) (returnIfFiltered : bool)
    : outcome (option error) :=
  match statements with
  | [] => Ret None
  | statement :: statements' =>
      let? n := statement_name statement in
      if returnIfFiltered then
        if ContainsStatementName n statementList then Ret (Some (not_supported n))
        else filter_loop statements' statementList returnIfFiltered
      else
        if negb (ContainsStatementName n statementList) then Ret (Some (not_supported n))
        else filter_loop statements' statementList returnIfFiltered
  end.

Definition filterList (circ : Circuit) (list : list QASMStatementType) (returnIfFiltered : bool)
    : outcome (option error) :=
  match programContext circ with
  | None => Panic nil_pointer
  | Some pc => filter_loop (AllStatement pc) (map StatementName list) returnIfFiltered
  end.

Definition apply_filter (circ : Circuit) (f : option QASMFilter) (returnIfFiltered : bool) : outcome (option error) :=
  match f with
  | None => Panic nil_pointer
  | Some f => if Enabled f then filterList circ (FilterStatements f) returnIfFiltered else Ret None
  end.

Definition validateStatements (circ : Circuit) (qasmSupport : option QASMSupport) : outcome (option error) :=
  match qasmSupport with
  | None => Panic nil_pointer
  | Some qs =>
      let? err := apply_filter circ (AllowList qs) false in
      match err with
      | Some e => Ret (Some e)
      | None => apply_filter circ (DenyList qs) true
      end
  end.

Definition checkResource (circ : Circuit) (qubinNumber : Z) : outcome (option error) :=
  match programContext circ with
  | None => Panic nil_pointer
  | Some pc =>
      let '(circIR, err) := NewCircuitIR pc in
      match err with
      | Some e => Ret (Some e)
      | None =>
          match IR_ProgramIR circIR with
          | None => Panic nil_pointer
          | Some p =>
              if qubinNumber <? QubitCount p
              then Ret (Some ("Too many quibits in your circuit. We only have " +:+ FormatInt qubinNumber +:+ " qubits."))
              else Ret None
          end
      end
  end.

Definition circuitValidate (w : W) (qasm : string) (ds : DeviceSetting) : outcome (option error) :=
  if bool_decide (qasm = "") then Ret (Some "no input qasm")
  else
    match ParseQASM qasm with
    | (_, Some e) => Ret (Some e)
    | (None, None) => Panic nil_pointer
    | (Some circ, None) =>
        let? err := validateStatements circ (DS_QASMSupport ds) in
        match err with
        | Some e => Ret (Some e)
        | None =>
            match QPU_GetDeviceInfo w with
            | None => Panic nil_pointer
            | Some di =>
                if negb (bool_decide (DI_Status di = Available))
                then Ret (Some ("device is not available. status:" +:+ DeviceStatus_String (DI_Status di)))
                else checkResource circ (MaxQubits di)
            end
        end
    end.
End circuit.

(** ** The numbering of qubits and bits *)

(** The registers among the statements: [k] selects declarations. *)
Definition registers (k : StatementIR -> option (string * Z)) (sts : list StatementIR) : list (string * Z) :=
  omap k sts.
Definition qubit_register (s : StatementIR) : option (string * Z) :=
  match s with QuantumDeclarationStatementIR n d => Some (n, d) | _ => None end.
Definition bit_register (s : StatementIR) : option (string * Z) :=
  match s with ClassicalDeclarationStatementIR n d => Some (n, d) | _ => None end.

(** The bits of a list of registers, in order of declaration. *)
Definition register_bits (r : string * Z) : list QCbitIdentifier :=
  map (fun i => mkQCbit r.1 (Z.of_nat i)) (seq 0 (Z.to_nat r.2)).
Definition all_bits (rs : list (string * Z)) : list QCbitIdentifier := concat (map register_bits rs).
Definition total_bits (rs : list (string * Z)) : Z := Z.of_nat (length (all_bits rs)).

(** A counter and a numbering that the registers [rs] have produced: the
    counter is their total (wrapped), and while it does not wrap and no bit is
    declared twice, the [k]-th bit has number [k]. *)
Definition numbered (rs : list (string * Z)) (count : Z) (m : gmap QCbitIdentifier Z) : Prop :=
  count = i64 (total_bits rs) /\
  (in_i64 (total_bits rs) -> NoDup (all_bits rs) ->
   forall q a, m !! q = Some a <-> exists k, all_bits rs !! k = Some q /\ a = Z.of_nat k).

Lemma i64_add_l a b : i64 (i64 a + b) = i64 (a + b).
Proof.
  unfold wrapS. f_equal.
  replace ((a + 2 ^ (64 - 1)) mod 2 ^ 64 - 2 ^ (64 - 1) + b + 2 ^ (64 - 1))
    with ((a + 2 ^ (64 - 1)) mod 2 ^ 64 + b) by lia.
  rewrite Zplus_mod_idemp_l. f_equal. lia.
Qed.

Lemma number_bits_count name n i r : (number_bits name n i r).1 = if n is O then r.1 else i64 (r.1 + Z.of_nat n).
Proof.
  revert i r. induction n as [|n IH]; intros i r; [done|]. cbn [number_bits]. rewrite IH. destruct n as [|n]; cbn [fst]; [done|].
  rewrite i64_add_l. f_equal. lia.
Qed.

(** The numbers the loop gives, while the counter stays in range. *)
Lemma number_bits_lookup name n i r q :
  0 <= r.1 -> in_i64 (r.1 + Z.of_nat n) ->
  (number_bits name n i r).2 !! q =
    if decide (QC_Name q = name /\ i <= QC_Index q < i + Z.of_nat n) then Some (r.1 + (QC_Index q - i)) else r.2 !! q.
Proof.
  revert i r. induction n as [|n IH]; intros i r H0 Hin; cbn [number_bits].
  { rewrite decide_False by lia. done. }
  unfold in_i64 in *. rewrite IH; cbn [fst snd]; rewrite ?(i64_small (r.1 + 1)) by (unfold in_i64; lia); [|lia..].
  destruct q as [qn qi]; cbn [QC_Name QC_Index] in *.
  destruct (decide (qn = name /\ i + 1 <= qi < i + 1 + Z.of_nat n)) as [[-> H]|H].
  - rewrite decide_True by (split; [done|lia]). f_equal. lia.
  - destruct (decide (qn = name /\ qi = i)) as [[-> ->]|Hne].
    + rewrite lookup_insert_eq, decide_True by (split; [done|lia]). f_equal. lia.
    + rewrite lookup_insert_ne by (intros [= <- <-]; by apply Hne). rewrite decide_False; [done|]. intros [-> ?]. apply H. split; [done|].
      assert (qi <> i) by (intros ->; by apply Hne). lia.
Qed.

Lemma elem_of_register_bits r q :
  q ∈ register_bits r <-> QC_Name q = r.1 /\ 0 <= QC_Index q < Z.max 0 r.2.
Proof.
  unfold register_bits. rewrite list_elem_of_fmap. setoid_rewrite elem_of_seq. split.
  - intros (i & -> & H). cbn. split; [done|lia].
  - intros [Hn Hi]. exists (Z.to_nat (QC_Index q)). destruct q as [n i]; cbn in *. subst. split; [f_equal; lia|lia].
Qed.

Lemma register_bits_lookup r k q :
  register_bits r !! k = Some q <-> QC_Name q = r.1 /\ QC_Index q = Z.of_nat k /\ Z.of_nat k < r.2.
Proof.
  unfold register_bits. rewrite list_lookup_fmap_Some. setoid_rewrite lookup_seq. split.
  - intros (i & -> & [-> H]). cbn. split; [done|]. lia.
  - intros (Hn & Hi & Hk). exists k. destruct q as [n i]; cbn in *. subst. split; [done|lia].
Qed.

Lemma length_register_bits r : length (register_bits r) = Z.to_nat r.2.
Proof. unfold register_bits. by rewrite length_map, length_seq. Qed.

Lemma all_bits_snoc rs r : all_bits (rs ++ [r]) = all_bits rs ++ register_bits r.
Proof. unfold all_bits. rewrite map_app, concat_app. cbn. by rewrite app_nil_r. Qed.

Lemma total_bits_snoc rs r : total_bits (rs ++ [r]) = total_bits rs + Z.max 0 r.2.
Proof. unfold total_bits. rewrite all_bits_snoc, length_app, length_register_bits. lia. Qed.

Lemma total_bits_nonneg rs : 0 <= total_bits rs.
Proof. unfold total_bits. lia. Qed.

(** A declaration of [d] bits extends the numbering. *)
Lemma numbered_declare rs count m name d :
  0 < d -> numbered rs count m ->
  numbered (rs ++ [(name, d)]) (number_bits name (Z.to_nat d) 0 (count, m)).1 (number_bits name (Z.to_nat d) 0 (count, m)).2.
Proof.
  intros Hd [Hc Hm]. assert (total_bits rs <= total_bits rs + Z.max 0 d) by lia. pose proof (total_bits_nonneg rs) as H0.
  split.
  - rewrite number_bits_count, total_bits_snoc. cbn [fst snd]. destruct (Z.to_nat d) eqn:E; [lia|]. rewrite Hc, i64_add_l. f_equal. lia.
  - rewrite total_bits_snoc, all_bits_snoc. cbn [snd]. intros Hin Hnd q a. unfold in_i64 in Hin.
    apply NoDup_app in Hnd as (Hnd1 & Hdis & _).
    rewrite i64_small in Hc by (unfold in_i64; lia).
    rewrite number_bits_lookup by (cbn [fst]; unfold in_i64; lia). cbn [fst snd]. specialize (Hm ltac:(unfold in_i64; lia) Hnd1 q a).
    unfold total_bits in *. destruct (decide _) as [[Hn Hi]|Hno].
    + assert (q ∈ register_bits (name, d)) as Hq by (apply elem_of_register_bits; cbn; split; [done|lia]).
      split.
      * intros [= <-]. exists (length (all_bits rs) + Z.to_nat (QC_Index q))%nat. split; [|lia].
        rewrite lookup_app_r by lia. apply register_bits_lookup. cbn. split; [done|]. split; lia.
      * intros (k & Hk & ->). apply lookup_app_Some in Hk as [Hk|[Hk Hk']].
        -- exfalso. eapply Hdis; [by eapply list_elem_of_lookup_2|done].
        -- apply register_bits_lookup in Hk' as (_ & Hidx & _). f_equal. lia.
    + rewrite Hm. split; intros (k & Hk & ->); exists k; (split; [|done]).
      * by apply lookup_app_l_Some.
      * apply lookup_app_Some in Hk as [Hk|[Hk Hk']]; [done|]. exfalso. apply Hno.
        apply register_bits_lookup in Hk' as (Hn & Hidx & Hlt). cbn in *. split; [done|lia].
Qed.

Lemma numbered_skip rs count m name d : d <= 0 -> numbered rs count m -> numbered (rs ++ [(name, d)]) count m.
Proof.
  intros Hd [Hc Hm]. unfold numbered. rewrite total_bits_snoc, all_bits_snoc. cbn [snd].
  replace (register_bits (name, d)) with (@nil QCbitIdentifier); [|unfold register_bits; cbn; by replace (Z.to_nat d) with O by lia].
  rewrite app_nil_r. replace (total_bits rs + Z.max 0 d) with (total_bits rs) by lia. done.
Qed.

Lemma numbered_empty : numbered [] 0 ∅.
Proof.
  split; [done|]. intros _ _ q a. rewrite lookup_empty. split; [done|]. by intros (k & Hk & _).
Qed.

Lemma NoDup_all_bits rs : NoDup rs.*1 -> NoDup (all_bits rs).
Proof.
  unfold all_bits. induction rs as [|r rs IH]; cbn [fmap list_fmap map concat]; [constructor|].
  intros [Hr Hnd]%NoDup_cons. apply NoDup_app. split; [|split; [|by apply IH]].
  - unfold register_bits. apply NoDup_fmap_2_strong; [|apply NoDup_seq]. intros i j _ _ [=]. lia.
  - intros q Hq Hin. apply elem_of_register_bits in Hq as [Hn _]. apply Hr.
    apply list_elem_of_In, in_concat in Hin as (l & Hl & Hql). apply in_map_iff in Hl as (r' & <- & Hr').
    apply list_elem_of_In in Hql. apply elem_of_register_bits in Hql as [Hn' _].
    apply list_elem_of_fmap. exists r'. split; [congruence|by apply list_elem_of_In].
Qed.

(** A numbering of the bits of the registers [rs]: exactly their bits have a
    number, the numbers are those below the counter, and no two bits share one. *)
Definition numbering (rs : list (string * Z)) (count : Z) (m : gmap QCbitIdentifier Z) : Prop :=
  count = zsum (map (Z.max 0) rs.*2) /\
  (forall q, is_Some (m !! q) <-> exists d, (QC_Name q, d) ∈ rs /\ 0 <= QC_Index q < d) /\
  (forall a, 0 <= a < count <-> exists q, m !! q = Some a) /\
  (forall q1 q2 a, m !! q1 = Some a -> m !! q2 = Some a -> q1 = q2).

Lemma total_bits_sum rs : total_bits rs = zsum (map (Z.max 0) rs.*2).
Proof.
  induction rs as [|r rs IH] using rev_ind; [done|].
  rewrite total_bits_snoc, IH, fmap_app, map_app, zsum_app. cbn. lia.
Qed.

Lemma elem_of_all_bits rs q : q ∈ all_bits rs <-> exists d, (QC_Name q, d) ∈ rs /\ 0 <= QC_Index q < d.
Proof.
  unfold all_bits. rewrite list_elem_of_In, in_concat. split.
  - intros (l & Hl & Hq). apply in_map_iff in Hl as ([n d] & <- & Hr). apply list_elem_of_In, elem_of_register_bits in Hq as [Hn Hi].
    cbn in *. exists d. rewrite Hn. split; [by apply list_elem_of_In|lia].
  - intros (d & Hr & Hi). exists (register_bits (QC_Name q, d)). split.
    + apply in_map_iff. exists (QC_Name q, d). split; [done|by apply list_elem_of_In].
    + apply list_elem_of_In, elem_of_register_bits. cbn. split; [done|lia].
Qed.

Lemma numbered_numbering rs count m :
  numbered rs count m -> NoDup rs.*1 -> total_bits rs < 2 ^ 63 -> numbering rs count m.
Proof.
  intros [Hc Hm] Hnd Hlt. pose proof (total_bits_nonneg rs) as H0. apply NoDup_all_bits in Hnd.
  assert (in_i64 (total_bits rs)) as Hin by (unfold in_i64; lia). rewrite i64_small in Hc by done.
  specialize (Hm Hin Hnd). subst count. split; [apply total_bits_sum|]. split; [|split].
  - intros q. rewrite <- elem_of_all_bits, list_elem_of_lookup. split.
    + intros [a Ha]. apply Hm in Ha as (k & Hk & _). by exists k.
    + intros [k Hk]. exists (Z.of_nat k). apply Hm. by exists k.
  - intros a. split.
    + intros Ha. destruct (lookup_lt_is_Some_2 (all_bits rs) (Z.to_nat a)) as [q Hq]; [unfold total_bits in Ha; lia|].
      exists q. apply Hm. exists (Z.to_nat a). split; [done|lia].
    + intros [q Hq]. apply Hm in Hq as (k & Hk & ->). apply lookup_lt_Some in Hk. unfold total_bits. lia.
  - intros q1 q2 a H1 H2. apply Hm in H1 as (k1 & H1 & ->). apply Hm in H2 as (k2 & H2 & ?).
    replace k2 with k1 in H2 by lia. congruence.
Qed.

(** *** The listener keeps the numbering *)

#[local] Arguments append_statement : simpl never.

Definition program_numbered (p : ProgramIR) : Prop :=
  numbered (registers qubit_register (Statements p)) (QubitCount p) (QubitAbsNum p) /\
  numbered (registers bit_register (Statements p)) (BitCount p) (BitAbsNum p).
Definition ir_numbered (c : CircuitIR) : Prop :=
  forall p, IR_ProgramIR c = Some p -> program_numbered p.

Lemma registers_snoc k sts s :
  registers k (sts ++ [s]) = registers k sts ++ match k s with Some r => [r] | None => [] end.
Proof. unfold registers. rewrite omap_app. cbn. by destruct (k s). Qed.

Lemma append_statement_inv s c c' :
  append_statement s c = (Ret tt, c') ->
  exists p, IR_ProgramIR c = Some p /\
    IR_ProgramIR c' = Some (mkProgramIR (Version p) (Statements p ++ [s]) (QubitCount p) (QubitAbsNum p)
                              (BitCount p) (BitAbsNum p)).
Proof.
  unfold append_statement, program, bind, get. destruct (IR_ProgramIR c) as [p|]; [|done].
  intros [= <-]. by exists p.
Qed.

Lemma append_other_numbered s c c' :
  qubit_register s = None -> bit_register s = None ->
  append_statement s c = (Ret tt, c') -> ir_numbered c -> ir_numbered c'.
Proof.
  intros Hq Hb (p & Hp & Hp')%append_statement_inv Hinv q. rewrite Hp'. intros [= <-].
  destruct (Hinv p Hp) as [H1 H2]. split; cbn; rewrite registers_snoc, ?Hq, ?Hb, app_nil_r; done.
Qed.

Lemma exit_quantum_numbered c c' :
  ExitQuantumDeclarationStatement c = (Ret tt, c') -> ir_numbered c -> ir_numbered c'.
Proof.
  unfold ExitQuantumDeclarationStatement, program, bind, get, modify. destruct (tmpStatementIR c) as [[name d0| | |]|]; try done.
  cbn zeta. destruct (0 <? tmpDegsinator c) eqn:E; bool_lia.
  - cbn. destruct (IR_ProgramIR c) as [p|] eqn:Ep; [|done]. cbn.
    intros (p' & Hp & Hp')%append_statement_inv Hinv q. cbn in Hp. injection Hp as <-. rewrite Hp'. intros [= <-].
    destruct (Hinv p Ep) as [H1 H2]. split; cbn; rewrite registers_snoc; cbn [qubit_register bit_register].
    + by apply numbered_declare.
    + by rewrite app_nil_r.
  - intros (p & Hp & Hp')%append_statement_inv Hinv q. cbn in Hp. rewrite Hp'. intros [= <-].
    destruct (Hinv p Hp) as [H1 H2]. split; cbn; rewrite registers_snoc; cbn [qubit_register bit_register].
    + by apply numbered_skip.
    + by rewrite app_nil_r.
Qed.

Lemma exit_classical_numbered c c' :
  ExitClassicalDeclarationStatement c = (Ret tt, c') -> ir_numbered c -> ir_numbered c'.
Proof.
  unfold ExitClassicalDeclarationStatement, program, bind, get, modify. destruct (tmpStatementIR c) as [[|name d0| |]|]; try done.
  cbn zeta. destruct (0 <? tmpDegsinator c) eqn:E; bool_lia.
  - cbn. destruct (IR_ProgramIR c) as [p|] eqn:Ep; [|done]. cbn.
    intros (p' & Hp & Hp')%append_statement_inv Hinv q. cbn in Hp. injection Hp as <-. rewrite Hp'. intros [= <-].
    destruct (Hinv p Ep) as [H1 H2]. split; cbn; rewrite registers_snoc; cbn [qubit_register bit_register].
    + by rewrite app_nil_r.
    + by apply numbered_declare.
  - intros (p & Hp & Hp')%append_statement_inv Hinv q. cbn in Hp. rewrite Hp'. intros [= <-].
    destruct (Hinv p Hp) as [H1 H2]. split; cbn; rewrite registers_snoc; cbn [qubit_register bit_register].
    + by rewrite app_nil_r.
    + by apply numbered_skip.
Qed.

Lemma listen_numbered e c c' : listen e c = (Ret tt, c') -> ir_numbered c -> ir_numbered c'.
Proof.
  destruct e as [r|r]; destruct r; cbn [listen enter_rule exit_rule];
    try (intros [= <-]; done);
    try exact (exit_quantum_numbered _ _); try exact (exit_classical_numbered _ _).
  - intros [= <-] _ p [= <-]. split; apply numbered_empty.
  - unfold EnterVersion, get_text, program, bind, get, modify. destruct specifier; [|done]. cbn.
    destruct (IR_ProgramIR c) as [p|] eqn:Ep; [|done]. intros [= <-] Hinv q [= <-]. exact (Hinv p Ep).
  - unfold EnterQuantumDeclarationStatement, get_text, bind. destruct identifier; [|done]. by intros [= <-].
  - unfold EnterClassicalDeclarationStatement, get_text, bind. destruct identifier; [|done]. by intros [= <-].
  - unfold EnterDesignator, get_text, atoi, bind. destruct expression; [|done]. cbn. destruct (Atoi _); [|done]. by intros [= <-].
  - unfold EnterGateCallStatement, get_text, bind. destruct identifier; [|done]. by intros [= <-].
  - unfold EnterIndexedIdentifier, get_text, atoi, bind. destruct index; [|done]. cbn. destruct (Atoi _); [|done]. by intros [= <-].
  - unfold ExitGateCallStatement, bind, get, modify. destruct (tmpStatementIR c) as [[]|]; try done.
    cbn zeta. intros H Hinv. by eapply append_other_numbered in H.
  - unfold ExitAssignmentStatement, identifier_at, bind, get, modify. destruct (tmpStatementIR c) as [[]|]; try done.
    cbn. destruct (tmpQCbitIdentifiers c); [done|]. intros H Hinv. by eapply append_other_numbered in H.
  - unfold ExitMeasureExpression, identifier_at, bind, get, modify. destruct (tmpQCbitIdentifiers c !! 1%nat); [|done].
    by intros [= <-].
Qed.

Lemma mfor_listen_numbered l c c' : mfor listen l c = (Ret tt, c') -> ir_numbered c -> ir_numbered c'.
Proof.
  revert c. induction l as [|e l IH]; intros c; cbn [mfor]; [by intros [= <-]|].
  unfold bind. destruct (listen e c) as [[[]|m] c1] eqn:E; [|done]. intros H Hc. eapply IH; [done|]. by eapply listen_numbered.
Qed.

(** Once a program has been entered, the representation has one. *)
Lemma listen_keeps_program e c c' : listen e c = (Ret tt, c') -> is_Some (IR_ProgramIR c) -> is_Some (IR_ProgramIR c').
Proof.
  destruct e as [r|r]; destruct r; cbn [listen enter_rule exit_rule];
    unfold EnterProgram, EnterVersion, EnterQuantumDeclarationStatement,
      EnterClassicalDeclarationStatement, EnterDesignator, EnterGateCallStatement,
      EnterGateOperandList, EnterExpressionList, EnterIndexedIdentifier, EnterAssignmentStatement,
      ExitQuantumDeclarationStatement, ExitClassicalDeclarationStatement, ExitGateCallStatement,
      ExitExpressionList, ExitMeasureExpression, ExitAssignmentStatement,
      append_statement, identifier_at, get_text, atoi, program, ret, bind, get, modify, gopanic, bad_assertion; cbn;
    repeat (case_match; cbn in *; simplify_eq; try done); try (intros [= <-]); cbn in *; eauto.
Qed.

Lemma mfor_keeps_program l c c' : mfor listen l c = (Ret tt, c') -> is_Some (IR_ProgramIR c) -> is_Some (IR_ProgramIR c').
Proof.
  revert c. induction l as [|e l IH]; intros c; cbn [mfor]; [by intros [= <-]|].
  unfold bind. destruct (listen e c) as [[[]|m] c1] eqn:E; [|done]. intros H Hc. eapply IH; [done|]. by eapply listen_keeps_program.
Qed.

(** Whatever the parse tree, an intermediate representation that was
    generated without error numbers qubits and bits consistently with its own
    declarations: when no register name is declared twice (and the registers
    have fewer than 2^63 bits in all), the counter is the sum of the register
    sizes, exactly the declared qubits have a number, the numbers are
    0, ..., count - 1, and no number is given twice. *)
Theorem qubit_numbering {PW : ParseTreeWalker} pc c p :
  NewCircuitIR pc = (c, None) -> IR_ProgramIR c = Some p ->
  (let rs := registers qubit_register (Statements p) in
   NoDup rs.*1 -> total_bits rs < 2 ^ 63 -> numbering rs (QubitCount p) (QubitAbsNum p)) /\
  (let rs := registers bit_register (Statements p) in
   NoDup rs.*1 -> total_bits rs < 2 ^ 63 -> numbering rs (BitCount p) (BitAbsNum p)).
Proof.
  unfold NewCircuitIR. destruct (mfor listen (walk pc) empty_circuit_ir) as [[[]|m] c1] eqn:E; [|done].
  intros [= <-] Hp. apply mfor_listen_numbered in E; [|by intros q]. destruct (E p Hp) as [H1 H2].
  split; cbn zeta; intros Hnd Hlt; by apply numbered_numbering.
Qed.

(** ** What is generated for a program

    Programs of declarations, gate calls and measurement assignments, as the
    parser's trees; sizes, indices and parameters are texts. *)
Inductive qstmt :=
| SQubit (name : string) (size : option string)
| SBit (name : string) (size : option string)
| SGate (name : string) (params : option string) (operands : list (string * string))
| SMeasure (target source : string * string).

Definition size_tree (size : option string) : list tree :=
  match size with Some e => [Node (RDesignator (Some e)) [Node (ROther "expression") []]] | None => [] end.
Definition bit_tree (b : string * string) : tree := Node (RIndexedIdentifier b.1 (Some b.2)) [].
Definition operand_tree (b : string * string) : tree := Node (ROther "gateOperand") [bit_tree b].
Definition params_tree (params : option string) : list tree :=
  match params with Some t => [Node (RExpressionList t) []] | None => [] end.
Definition stmt_tree (s : qstmt) : tree :=
  Node (ROther "statement")
    [match s with
     | SQubit n size => Node (RQuantumDeclarationStatement (Some n)) [Node (ROther "qubitType") (size_tree size)]
     | SBit n size => Node (RClassicalDeclarationStatement (Some n)) [Node (ROther "scalarType") (size_tree size)]
     | SGate n params ops =>
         Node (RGateCallStatement (Some n)) (params_tree params ++ [Node RGateOperandList (map operand_tree ops)])
     | SMeasure l r => Node RAssignmentStatement [bit_tree l; Node RMeasureExpression [operand_tree r]]
     end].
Definition program_tree (version : string) (stmts : list qstmt) : tree :=
  Node RProgram (Node (RVersion (Some version)) [] :: map stmt_tree stmts).

Definition atoi_opt (s : string) : option Z := match Atoi s with inl n => Some n | inr _ => None end.
Definition resolve_bit (b : string * string) : option QCbitIdentifier :=
  i ← atoi_opt b.2; Some (mkQCbit b.1 i).

(** The statement with its numbers read.  A declaration without a size has the
    size [d] of the declaration before it, a gate call without parameters the
    parameters [e] of the call before it. *)
Definition resolve_stmt (d : Z) (e : string) (s : qstmt) : option (StatementIR * Z * string) :=
  match s with
  | SQubit n size => d' ← match size with Some t => atoi_opt t | None => Some d end;
                     Some (QuantumDeclarationStatementIR n d', d', e)
  | SBit n size => d' ← match size with Some t => atoi_opt t | None => Some d end;
                   Some (ClassicalDeclarationStatementIR n d', d', e)
  | SGate n params ops => qs ← mapM resolve_bit ops;
                          let e' := default e params in Some (GateCallStatementIR n qs e', d, e')
  | SMeasure l r => ql ← resolve_bit l; qr ← resolve_bit r;
                    Some (AssignmentStatementIR ql (mkMeasure qr), d, e)
  end.

Fixpoint resolve (d : Z) (e : string) (l : list qstmt) : option (list StatementIR) :=
  match l with
  | [] => Some []
  | s :: l' => '(s', d', e') ← resolve_stmt d e s; r ← resolve d' e' l'; Some (s' :: r)
  end.

Definition panics {A S} (o : outcome A * S) : Prop := exists m s, o = (Panic m, s).

Section exact.
Context {PW : ParseTreeWalker}.

Lemma mfor_cons {S A} (body : A -> M S unit) x l s : mfor body (x :: l) s = bind (body x) (fun _ => mfor body l) s.
Proof. reflexivity. Qed.

Lemma bind_panics {S A B} (c : M S A) (k : A -> M S B) s : panics (c s) -> panics (bind c k s).
Proof. intros (m & s' & H). unfold bind. rewrite H. by exists m, s'. Qed.

Lemma walk_bit b c :
  match resolve_bit b with
  | Some q => mfor listen (walk (bit_tree b)) c = (Ret tt, set_tmpQCbitIdentifiers (tmpQCbitIdentifiers c ++ [q]) c)
  | None => panics (mfor listen (walk (bit_tree b)) c)
  end.
Proof.
  destruct b as [n i]. unfold bit_tree, resolve_bit, atoi_opt. rewrite walk_node. cbn.
  unfold EnterIndexedIdentifier, get_text, atoi, bind. cbn. destruct (Atoi i) as [z|err]; cbn; [reflexivity|]. by eexists _, _.
Qed.

(** Walking a node: its method, its children, its exit method. *)
Lemma walk_run r ts c :
  mfor listen (walk (Node r ts)) c = bind (enter_rule r) (fun _ => bind (mfor listen (concat (map walk ts))) (fun _ => exit_rule r)) c.
Proof.
  rewrite walk_node, mfor_cons. unfold bind. cbn [listen]. destruct (enter_rule r c) as [[[]|m] c1]; [|done].
  rewrite mfor_app. unfold bind. destruct (mfor listen _ c1) as [[[]|m] c2]; [|done]. cbn. unfold bind.
  by destruct (exit_rule r c2) as [[[]|m] c3].
Qed.

(** A node without methods and with one child is its child. *)
Lemma walk_other n t c : mfor listen (walk (Node (ROther n) [t])) c = mfor listen (walk t) c.
Proof.
  rewrite walk_run. cbn [map concat]. rewrite app_nil_r. unfold bind. cbn. by destruct (mfor listen (walk t) c) as [[[]|m] c'].
Qed.

Lemma walk_operand b c : mfor listen (walk (operand_tree b)) c = mfor listen (walk (bit_tree b)) c.
Proof. apply walk_other. Qed.

Lemma walk_operands ops c :
  match mapM resolve_bit ops with
  | Some qs => mfor listen (concat (map walk (map operand_tree ops))) c
               = (Ret tt, set_tmpQCbitIdentifiers (tmpQCbitIdentifiers c ++ qs) c)
  | None => panics (mfor listen (concat (map walk (map operand_tree ops))) c)
  end.
Proof.
  revert c. induction ops as [|b ops IH]; intros c; cbn.
  { rewrite app_nil_r. by destruct c. }
  pose proof (walk_bit b c) as Hb. rewrite <- walk_operand in Hb. destruct (resolve_bit b) as [q|]; cbn.
  - specialize (IH (set_tmpQCbitIdentifiers (tmpQCbitIdentifiers c ++ [q]) c)).
    destruct (mapM resolve_bit ops) as [qs|]; cbn; rewrite mfor_app; unfold bind; rewrite Hb.
    + rewrite IH. cbn. by rewrite <- app_assoc.
    + exact IH.
  - rewrite mfor_app. by apply bind_panics.
Qed.

Lemma walk_size kind size c :
  match match size with Some t => atoi_opt t | None => Some (tmpDegsinator c) end with
  | Some d => mfor listen (walk (Node (ROther kind) (size_tree size))) c = (Ret tt, set_tmpDegsinator d c)
  | None => panics (mfor listen (walk (Node (ROther kind) (size_tree size))) c)
  end.
Proof.
  destruct size as [t|]; unfold size_tree.
  - rewrite walk_other, walk_run. unfold atoi_opt, bind. cbn [enter_rule]. unfold EnterDesignator, get_text, atoi, bind. cbn.
    destruct (Atoi t) as [z|err]; cbn; [|by eexists _, _]. rewrite walk_node. reflexivity.
  - rewrite walk_run. cbn. by destruct c.
Qed.

Lemma walk_params params c :
  mfor listen (concat (map walk (params_tree params))) c = (Ret tt, set_tmpExpressionList (default (tmpExpressionList c) params) c).
Proof.
  destruct params as [t|]; cbn; [|by destruct c]. rewrite app_nil_r, walk_run. reflexivity.
Qed.

(** One statement: its resolved form is appended, or the walk panics. *)
Lemma walk_stmt s c p :
  IR_ProgramIR c = Some p ->
  match resolve_stmt (tmpDegsinator c) (tmpExpressionList c) s with
  | Some (s', d', e') =>
      exists c' p', mfor listen (walk (stmt_tree s)) c = (Ret tt, c') /\ IR_ProgramIR c' = Some p' /\
        Version p' = Version p /\ Statements p' = Statements p ++ [s'] /\
        tmpDegsinator c' = d' /\ tmpExpressionList c' = e'
  | None => panics (mfor listen (walk (stmt_tree s)) c)
  end.
Proof.
  intros Hp. unfold stmt_tree. rewrite walk_other. destruct s as [n size|n size|n params ops|l r]; rewrite walk_run; cbn [enter_rule exit_rule].
  - cbn [resolve_stmt map concat]. rewrite app_nil_r.
    pose proof (walk_size "qubitType" size (set_tmpStatementIR (QuantumDeclarationStatementIR n 0) c)) as H. cbn in H.
    destruct (match size with Some t => atoi_opt t | None => Some (tmpDegsinator c) end) as [d|]; cbn [mbind option_bind].
    + unfold bind. cbn. rewrite H. unfold ExitQuantumDeclarationStatement, append_statement, program, bind, get, modify. cbn.
      destruct (0 <? d); cbn; rewrite Hp; cbn; (eexists _, _; split; [reflexivity|]); cbn; auto 10.
    + unfold bind at 1. cbn. by apply bind_panics.
  - cbn [resolve_stmt map concat]. rewrite app_nil_r.
    pose proof (walk_size "scalarType" size (set_tmpStatementIR (ClassicalDeclarationStatementIR n 0) c)) as H. cbn in H.
    destruct (match size with Some t => atoi_opt t | None => Some (tmpDegsinator c) end) as [d|]; cbn [mbind option_bind].
    + unfold bind. cbn. rewrite H. unfold ExitClassicalDeclarationStatement, append_statement, program, bind, get, modify. cbn.
      destruct (0 <? d); cbn; rewrite Hp; cbn; (eexists _, _; split; [reflexivity|]); cbn; auto 10.
    + unfold bind at 1. cbn. by apply bind_panics.
  - cbn [resolve_stmt]. rewrite map_app, concat_app. unfold bind at 1. cbn [EnterGateCallStatement get_text]. cbn.
    set (c1 := set_tmpStatementIR _ c).
    pose proof (walk_operands ops (set_tmpQCbitIdentifiers [] (set_tmpExpressionList (default (tmpExpressionList c) params) c1))) as H.
    destruct (mapM resolve_bit ops) as [qs|]; cbn [mbind option_bind].
    + unfold bind. rewrite mfor_app. unfold bind. rewrite walk_params, app_nil_r, walk_run. unfold bind. cbn in *. rewrite H. cbn.
      unfold ExitGateCallStatement, append_statement, program, bind, get, modify. cbn. rewrite Hp.
      eexists _, _. split; [reflexivity|]. cbn. auto 10.
    + apply bind_panics. rewrite mfor_app. unfold bind at 1. rewrite walk_params, app_nil_r, walk_run. cbn in *.
      by apply bind_panics.
  - cbn [resolve_stmt]. unfold bind at 1. cbn [EnterAssignmentStatement]. cbn. rewrite app_nil_r.
    set (c1 := set_tmpQCbitIdentifiers [] _). pose proof (walk_bit l c1) as Hl.
    destruct (resolve_bit l) as [ql|]; cbn [mbind option_bind].
    2: { apply bind_panics. rewrite mfor_app. by apply bind_panics. }
    set (c2 := set_tmpQCbitIdentifiers _ c1) in Hl.
    assert (forall k : unit -> M CircuitIR unit, bind (mfor listen (walk (bit_tree l) ++ walk (Node RMeasureExpression [operand_tree r]))) k c1 =
      bind (mfor listen (walk (operand_tree r))) (fun _ => bind ExitMeasureExpression k) c2) as Hrun.
    { intros k. unfold bind at 1. rewrite mfor_app. unfold bind at 1. rewrite Hl, walk_run. cbn [map concat enter_rule exit_rule].
      rewrite app_nil_r. unfold bind. cbn [ret]. by destruct (mfor listen (walk (operand_tree r)) c2) as [[[]|m] c3]. }
    pose proof (walk_bit r c2) as Hr. rewrite <- walk_operand in Hr. rewrite !Hrun.
    destruct (resolve_bit r) as [qr|]; cbn [mbind option_bind]; [|by apply bind_panics].
    unfold bind at 1. rewrite Hr. unfold ExitMeasureExpression, ExitAssignmentStatement, append_statement, identifier_at, program, bind, get, modify.
    cbn. rewrite Hp. eexists _, _. split; [reflexivity|]. cbn. auto 10.
Qed.
End exact.

Section validation.
Context {PW : ParseTreeWalker}.

Lemma walk_stmts l c p :
  IR_ProgramIR c = Some p ->
  match resolve (tmpDegsinator c) (tmpExpressionList c) l with
  | Some sts =>
      exists c' p', mfor listen (concat (map walk (map stmt_tree l))) c = (Ret tt, c') /\ IR_ProgramIR c' = Some p' /\
        Version p' = Version p /\ Statements p' = Statements p ++ sts
  | None => panics (mfor listen (concat (map walk (map stmt_tree l))) c)
  end.
Proof.
  revert c p. induction l as [|s l IH]; intros c p Hp; cbn [resolve map concat].
  { exists c, p. rewrite app_nil_r. auto. }
  pose proof (walk_stmt s c p Hp) as Hs. rewrite mfor_app.
  destruct (resolve_stmt (tmpDegsinator c) (tmpExpressionList c) s) as [[[s' d'] e']|]; cbn [mbind option_bind];
    [|by apply bind_panics].
  destruct Hs as (c1 & p1 & Hrun & Hp1 & Hv & Hst & Hd & He). specialize (IH c1 p1 Hp1). rewrite Hd, He in IH.
  destruct (resolve d' e' l) as [sts|]; cbn [mbind option_bind]; unfold bind; rewrite Hrun; [|done].
  destruct IH as (c2 & p2 & Hrun2 & Hp2 & Hv2 & Hst2). exists c2, p2. rewrite Hrun2, Hst2, Hst, <- app_assoc. split; [done|].
  split; [done|]. split; [congruence|done].
Qed.

Lemma new_circuit_ir_resolved version stmts :
  match resolve 0 "" stmts with
  | Some sts =>
      exists c p, NewCircuitIR (program_tree version stmts) = (c, None) /\ IR_ProgramIR c = Some p /\
        Version p = version /\ Statements p = sts /\
        QubitCount p = i64 (total_bits (registers qubit_register sts)) /\
        BitCount p = i64 (total_bits (registers bit_register sts))
  | None => NewCircuitIR (program_tree version stmts) = (empty_circuit_ir, Some "failed to generate IR.")
  end.
Proof.
  unfold NewCircuitIR, program_tree. rewrite walk_run. cbn [map concat enter_rule exit_rule].
  set (p0 := mkProgramIR version [] 0 ∅ 0 ∅).
  assert (forall k : unit -> M CircuitIR unit, bind EnterProgram (fun _ => bind (mfor listen (walk (Node (RVersion (Some version)) []) ++ concat (map walk (map stmt_tree stmts)))) k)
            empty_circuit_ir = bind (mfor listen (concat (map walk (map stmt_tree stmts)))) k (set_program p0 empty_circuit_ir)) as H.
  { intros k. unfold bind at 1. cbn [EnterProgram modify]. unfold bind at 1. rewrite mfor_app. unfold bind at 1. rewrite walk_run.
    unfold bind, modify. cbn. reflexivity. }
  rewrite H. pose proof (walk_stmts stmts (set_program p0 empty_circuit_ir) p0 eq_refl) as Hs. cbn [tmpDegsinator tmpExpressionList set_program empty_circuit_ir] in Hs.
  destruct (resolve 0 "" stmts) as [sts|].
  - destruct Hs as (c & p & Hrun & Hp & Hv & Hst). unfold bind. rewrite Hrun. cbn. exists c, p. split; [done|].
    apply mfor_listen_numbered in Hrun; [|intros q [= <-]; split; apply numbered_empty].
    destruct (Hrun p Hp) as [[Hq _] [Hb _]]. rewrite Hst in Hq, Hb. cbn in *. auto 10.
  - unfold bind. destruct Hs as (m & s & ->). done.
Qed.

(** The texts of a statement that have to be numbers. *)
Definition number_texts (s : qstmt) : list string :=
  match s with
  | SQubit _ size | SBit _ size => option_list size
  | SGate _ _ ops => ops.*2
  | SMeasure l r => [l.2; r.2]
  end.
Definition is_number (t : string) : bool := if Atoi t is inl _ then true else false.

Lemma resolve_bits_numbers ops : is_Some (mapM resolve_bit ops) <-> Forall is_number ops.*2.
Proof.
  rewrite mapM_is_Some, Forall_fmap. apply Forall_iff. intros [n t]. unfold resolve_bit, atoi_opt, is_number. cbn.
  destruct (Atoi t); cbn; [naive_solver|]. split; [by intros [? ?]|done].
Qed.

Lemma resolve_stmt_numbers d e s : is_Some (resolve_stmt d e s) <-> Forall is_number (number_texts s).
Proof.
  destruct s as [n size|n size|n params ops|[n1 t1] [n2 t2]]; cbn.
  - destruct size as [t|]; cbn; [|naive_solver]. unfold atoi_opt, is_number. rewrite Forall_singleton.
    destruct (Atoi t); cbn; [naive_solver|]. split; [by intros [? ?]|done].
  - destruct size as [t|]; cbn; [|naive_solver]. unfold atoi_opt, is_number. rewrite Forall_singleton.
    destruct (Atoi t); cbn; [naive_solver|]. split; [by intros [? ?]|done].
  - rewrite <- resolve_bits_numbers. destruct (mapM resolve_bit ops); cbn; [naive_solver|]. split; by intros [? ?].
  - rewrite Forall_cons, Forall_singleton. unfold resolve_bit, atoi_opt, is_number. cbn.
    destruct (Atoi t1), (Atoi t2); cbn; (split; [by intros [? ?] || auto|naive_solver]).
Qed.

Lemma resolve_numbers d e l : is_Some (resolve d e l) <-> Forall (fun s => Forall is_number (number_texts s)) l.
Proof.
  revert d e. induction l as [|s l IH]; intros d e; cbn [resolve]; [naive_solver|].
  rewrite Forall_cons, <- (resolve_stmt_numbers d e).
  destruct (resolve_stmt d e s) as [[[s' d'] e']|]; cbn [mbind option_bind].
  - rewrite <- (IH d' e'). destruct (resolve d' e' l); cbn; [naive_solver|]. split; [by intros [? ?]|by intros [_ [? ?]]].
  - split; [by intros [? ?]|by intros [[? ?] _]].
Qed.

(** C39: The intermediate representation of a program of declarations, gate calls
    and measurements is its statements with their numbers read, in order, and
    the qubits and bits are counted; it fails exactly when some size or index
    is not a decimal integer.  A declaration without a size (one qubit in
    OpenQASM) takes the size of the declaration before it, and a gate call
    without parameters the parameters of the call before it, since the
    listener does not reset them ([resolve]). *)
Theorem circuit_ir_exact version stmts :
  match resolve 0 "" stmts with
  | Some sts =>
      Forall (fun s => Forall is_number (number_texts s)) stmts /\
      exists c p, NewCircuitIR (program_tree version stmts) = (c, None) /\ IR_ProgramIR c = Some p /\
        Version p = version /\ Statements p = sts /\
        QubitCount p = i64 (total_bits (registers qubit_register sts)) /\
        BitCount p = i64 (total_bits (registers bit_register sts))
  | None =>
      ~ Forall (fun s => Forall is_number (number_texts s)) stmts /\
      NewCircuitIR (program_tree version stmts) = (empty_circuit_ir, Some "failed to generate IR.")
  end.
Proof.
  pose proof (new_circuit_ir_resolved version stmts) as H. pose proof (resolve_numbers 0 "" stmts) as Hn.
  destruct (resolve 0 "" stmts) as [sts|]; (split; [|exact H]).
  - apply Hn. by eexists.
  - intros Hf. apply Hn in Hf as [? ?]. done.
Qed.

Context {W : Type} `{HQ : IQPUManager W} {QP : QASMParser} {U : UnicodeLower}.

(** The representation of a tree of the right shape has a program, whose qubits
    are counted. *)
Lemma new_circuit_ir_counted pc c : node_rule pc = RProgram -> NewCircuitIR pc = (c, None) ->
  exists p, IR_ProgramIR c = Some p /\ QubitCount p = i64 (total_bits (registers qubit_register (Statements p))).
Proof.
  destruct pc as [r ts]. cbn [node_rule]. intros -> H. unfold NewCircuitIR in H. rewrite walk_node in H.
  cbn [mfor listen enter_rule] in H. unfold bind at 1 in H. unfold EnterProgram at 1, modify at 1 in H.
  set (l := _ ++ _) in H. set (c0 := set_program _ _) in H.
  destruct (mfor listen l c0) as [[[]|m] c1] eqn:E; [|done]. injection H as <-.
  destruct (mfor_keeps_program _ _ _ E) as [p Hp]; [by eexists|]. exists p. split; [done|].
  apply mfor_listen_numbered in E; [|intros q [= <-]; split; apply numbered_empty].
  by destruct (E p Hp) as [[Hc _] _].
Qed.

(** The names of the statements of a program. *)
Definition statement_names (pc : tree) : list string :=
  map (fun st => default "" (head ((fun child => rule_name (node_rule child)) <$> node_children st))) (AllStatement pc).

(** The filter is there, and when it is enabled it lets the names through. *)
Definition lets_through (f : option QASMFilter) (deny : bool) (names : list string) : Prop :=
  exists flt, f = Some flt /\
    (Enabled flt = true ->
     Forall (fun n => ContainsStatementName n (map StatementName (FilterStatements flt)) = negb deny) names).

Lemma filter_loop_spec sts l deny : Forall (fun st => node_children st <> []) sts ->
  exists r, filter_loop sts l deny = Ret r /\
    (r = None <-> Forall (fun n => ContainsStatementName n l = negb deny)
                   (map (fun st => default "" (head ((fun child => rule_name (node_rule child)) <$> node_children st))) sts)).
Proof.
  induction 1 as [|[rl [|ch ts]] sts Hst Hsts IH]; [by exists None|done|]. destruct IH as (r & Hr & IH).
  cbn [map]. setoid_rewrite Forall_cons. setoid_rewrite <- IH. unfold filter_loop; fold filter_loop. rewrite Hr.
  cbn. destruct deny, (ContainsStatementName _ l); eexists; (split; [reflexivity|]); naive_solver.
Qed.

Lemma apply_filter_spec circ pc f deny :
  programContext circ = Some pc -> well_shaped pc ->
  match apply_filter circ f deny with
  | Ret r => r = None <-> lets_through f deny (statement_names pc)
  | Panic _ => f = None
  end.
Proof.
  intros Hpc [_ Hsh]. unfold apply_filter, lets_through, filterList. destruct f as [f|]; [|done]. rewrite Hpc.
  destruct (Enabled f) eqn:Ee.
  - destruct (filter_loop_spec (AllStatement pc) (map StatementName (FilterStatements f)) deny Hsh) as (r & -> & Hr).
    rewrite Hr. split; [intros H; by exists f|]. intros (f' & [= <-] & H). by apply H.
  - split; [intros _; exists f; by rewrite Ee|done].
Qed.

(** The programs the device takes: not empty, parsed, each of their statements
    on the enabled allow list and not on the enabled deny list, the device
    available, the intermediate representation generated and no more qubits
    declared in it than the device has (their number is an [int]). *)
Definition accepted (w : W) (qasm : string) (ds : DeviceSetting) : Prop :=
  qasm <> "" /\
  exists reports pc qs di c p,
    Program qasm = (reports, inl pc) /\
    DS_QASMSupport ds = Some qs /\
    lets_through (AllowList qs) false (statement_names pc) /\
    lets_through (DenyList qs) true (statement_names pc) /\
    QPU_GetDeviceInfo w = Some di /\ DI_Status di = Available /\
    NewCircuitIR pc = (c, None) /\ IR_ProgramIR c = Some p /\
    i64 (total_bits (registers qubit_register (Statements p))) <= MaxQubits di.

(** What the code dereferences without a look. *)
Definition configured (w : W) (ds : DeviceSetting) : Prop :=
  is_Some (QPU_GetDeviceInfo w) /\
  exists qs, DS_QASMSupport ds = Some qs /\ is_Some (AllowList qs) /\ is_Some (DenyList qs).

(** C35: Which programs are accepted for a device.  A program passes the
    validation exactly when it is [accepted]: it is not empty and parses, each
    of its statements is on the allow list, if that is enabled, and none on the
    deny list, if that is enabled, the device is available, and its
    intermediate representation can be generated and declares no more qubits
    than the device has.  When the two lists and the device information are
    there, every other program gets an error: the validation does not panic.
    The parser's trees are taken to have the shape the grammar gives them. *)
Theorem circuit_validate_exact {PS : ProgramShape} w qasm ds :
  (circuitValidate w qasm ds = Ret None <-> accepted w qasm ds) /\
  (configured w ds -> exists r, circuitValidate w qasm ds = Ret r).
Proof.
  unfold circuitValidate, ParseQASM, accepted, configured. case_bool_decide as Hq.
  { split; [|by eexists]. split; [done|]. by intros [? _]. }
  destruct (Program qasm) as [reports [pc|cancelled]] eqn:Hprog.
  2: { split; [|by eexists]. split; [done|]. intros (_ & r0 & pc & ? & ? & ? & ? & [=] & _). }
  pose proof (program_shape _ _ _ Hprog) as Hsh. set (circ := mkCircuit _ _ _).
  unfold validateStatements. destruct (DS_QASMSupport ds) as [qs|] eqn:Eqs.
  2: { split; [split; [done|naive_solver]|]. by intros (_ & qs & [=] & _). }
  pose proof (apply_filter_spec circ pc (AllowList qs) false eq_refl Hsh) as H1.
  destruct (apply_filter circ (AllowList qs) false) as [r1|m]; cbn [obind].
  2: { split; [|intros (_ & qs' & [= <-] & [? Ha] & _); congruence]. split; [done|].
       intros (_ & ? & pc' & qs' & ? & ? & ? & [= <- <-] & [= <-] & (f & Hf & _) & _). congruence. }
  destruct r1 as [e|].
  { split; [|by eexists]. split; [done|].
    intros (_ & ? & pc' & qs' & ? & ? & ? & [= <- <-] & [= <-] & Hl & _). by apply H1 in Hl. }
  pose proof (apply_filter_spec circ pc (DenyList qs) true eq_refl Hsh) as H2.
  destruct (apply_filter circ (DenyList qs) true) as [r2|m]; cbn [obind].
  2: { split; [|intros (_ & qs' & [= <-] & _ & [? Hd]); congruence]. split; [done|].
       intros (_ & ? & pc' & qs' & ? & ? & ? & [= <- <-] & [= <-] & _ & (f & Hf & _) & _). congruence. }
  destruct r2 as [e|].
  { split; [|by eexists]. split; [done|].
    intros (_ & ? & pc' & qs' & ? & ? & ? & [= <- <-] & [= <-] & _ & Hl & _). by apply H2 in Hl. }
  destruct (QPU_GetDeviceInfo w) as [di|] eqn:Edi.
  2: { split; [split; [done|naive_solver]|]. by intros ([? ?] & _). }
  case_bool_decide as Hst; cbn [negb].
  2: { split; [|by eexists]. split; [done|naive_solver]. }
  unfold checkResource, circ. cbn [programContext]. destruct (NewCircuitIR pc) as [c [e|]] eqn:Ec.
  { split; [|by eexists]. split; [done|].
    intros (_ & ? & pc' & qs' & ? & ? & ? & [= <- <-] & [= <-] & _ & _ & _ & _ & Hc & _). congruence. }
  destruct (new_circuit_ir_counted pc c (proj1 Hsh) Ec) as (p & Hp & Hcount). rewrite Hp, Hcount.
  destruct (MaxQubits di <? _) eqn:E; bool_lia; (split; [|by eexists]).
  - split; [done|]. intros (_ & ? & pc' & qs' & ? & ? & p' & [= <- <-] & [= <-] & _ & _ & [= <-] & _ & Hc & Hp' & Hle).
    rewrite Ec in Hc. injection Hc as <-. rewrite Hp in Hp'. injection Hp' as <-. lia.
  - split; [|done]. intros _. split; [done|]. exists reports, pc, qs, di, c, p.
    split_and!; try done; [by apply H1|by apply H2].
Qed.
End validation.

(** ** Witnesses *)

Module CircuitExample.
#[local] Existing Instance default_walker.

Definition bell : list qstmt :=
  [SQubit "q" (Some "2"); SBit "c" (Some "2"); SGate "h" None [("q", "0")];
   SGate "cx" None [("q", "0"); ("q", "1")]; SMeasure ("c", "0") ("q", "0"); SMeasure ("c", "1") ("q", "1")].

(** The numbers the test of the repository expects of the Bell pair. *)
Definition bell_program : ProgramIR :=
  default (mkProgramIR "" [] 0 ∅ 0 ∅) (IR_ProgramIR (NewCircuitIR (program_tree "3" bell)).1).

Example bell_numbers :
  QubitCount bell_program = 2 /\ QubitAbsNum bell_program !! mkQCbit "q" 1 = Some 1 /\
  BitAbsNum bell_program !! mkQCbit "c" 1 = Some 1 /\ length (Statements bell_program) = 6%nat /\
  Statements bell_program !! 3%nat = Some (GateCallStatementIR "cx" [mkQCbit "q" 0; mkQCbit "q" 1] "").
Proof. vm_compute. auto. Qed.

(** [qubit b;] after [qubit[3] a;] counts three qubits. *)
Example inherited_size :
  option_map QubitCount (IR_ProgramIR (NewCircuitIR (program_tree "3" [SQubit "a" (Some "3"); SQubit "b" None])).1) = Some 6.
Proof. reflexivity. Qed.

Lemma qubit_numbering_witness :
  numbering [("q", 2)] (QubitCount bell_program) (QubitAbsNum bell_program) /\
  numbering [("c", 2)] (BitCount bell_program) (BitAbsNum bell_program).
Proof.
  destruct (qubit_numbering (program_tree "3" bell) (NewCircuitIR (program_tree "3" bell)).1 bell_program) as [Hq Hb];
    [vm_compute; reflexivity|vm_compute; reflexivity|]. cbn zeta in Hq, Hb.
  replace (registers qubit_register (Statements bell_program)) with [("q", 2)] in Hq by (vm_compute; reflexivity).
  replace (registers bit_register (Statements bell_program)) with [("c", 2)] in Hb by (vm_compute; reflexivity).
  split; [apply Hq|apply Hb]; first [apply NoDup_singleton|vm_compute; reflexivity].
Defined.

#[local] Instance lower : UnicodeLower := fun s => s.
#[local] Instance bell_parser : QASMParser := {|
  Program := fun _ => ([], inl (program_tree "3" bell));
  RuleNames := [];
  ToStringTree := fun _ => ""
|}.
#[local] Instance bell_shape : ProgramShape.
Proof. intros qasm reports pc [= <- <-]. split; [done|]. cbn. repeat (constructor; [done|]). constructor. Qed.

Definition two_qubits : DeviceInfo := mkDeviceInfo "" "" "" Available 2 100 "" "".
#[local] Instance device : IQPUManager unit := {| QPU_Send := ret None; QPU_GetDeviceInfo := fun _ => Some two_qubits |}.
Definition deny_gates : QASMFilter := mkQASMFilter true [mkQASMStatementType "gate_call"] [].
Definition setting (deny : QASMFilter) : DeviceSetting :=
  mkDeviceSetting "" "" "" 0 (Some (mkQASMSupport (Some empty_filter) (Some deny))) "" "" 0 false.

Definition bell_ir : list StatementIR := default [] (resolve 0 "" bell).

Lemma circuit_validate_exact_witness :
  circuitValidate tt "OPENQASM 3;" (setting empty_filter) = Ret None /\
  exists e, circuitValidate tt "OPENQASM 3;" (setting deny_gates) = Ret (Some e).
Proof.
  split.
  - apply (circuit_validate_exact tt "OPENQASM 3;" (setting empty_filter)). split; [done|].
    eexists _, _, _, _, _, _. split; [reflexivity|]. split; [reflexivity|].
    split; [by exists empty_filter|]. split; [by exists empty_filter|]. split; [reflexivity|]. split; [reflexivity|].
    split; [vm_compute; reflexivity|]. split; [reflexivity|]. vm_compute. congruence.
  - destruct (circuit_validate_exact tt "OPENQASM 3;" (setting deny_gates)) as [Hacc Hret].
    destruct Hret as [[e|] Hr]; [|by exists e|].
    { split; [by eexists|]. eexists. split; [reflexivity|]. split; by eexists. }
    exfalso. destruct (proj1 Hacc Hr) as (_ & reports & pc & qs & di & c & p & Hprog & Hqs & _ & (f & Hf & Hd) & _).
    injection Hprog as _ <-. injection Hqs as <-. injection Hf as <-. specialize (Hd eq_refl).
    apply Forall_lookup with (i := 2%nat) (x := "gateCallStatement") in Hd; [|vm_compute; reflexivity].
    vm_compute in Hd. discriminate Hd.
Defined.
End CircuitExample.
