(* ===== verification/Gateway.v ===== *)
(** * Package qpu: the QPU managers (qpu/gateway.go, qpu/qpu.go, qpu/device.go)

    [DefaultGatewayAgent] talks to the device gateway (gRPC) and publishes
    changes of the device to the provider API; [GatewayQPU] and [DummyQPU]
    implement the [QPUManager] interface the jobs use. *)

From stdpp Require Import base gmap strings list fin_maps.
From Stdlib Require Import ZArith Lia.
From S2P Require Import Prelude GoString Core Common Job Setting Scheduler Device.

(** ** External services *)

Record DeviceBody := mkDeviceBody {
  B_DeviceId : string; B_ProviderId : string; B_Type : string; B_MaxQubits : Z; B_MaxShots : Z;
  B_DeviceInfo : string; B_CalibratedAt : string
}.

(** [Result] of the response is a pointer. *)
Record CallJobResponse := mkCallJobResponse { RespStatus : Z; RespResult : option (gmap string Z * string) }.

Class IGatewayRPC (W : Type) := {
  rpc_NewClient : string -> bool;
  rpc_GetDeviceInfo : W -> (DeviceBody + error) * W;
  rpc_GetServiceStatus : W -> (Z + error) * W;
  rpc_CallJob : string -> Z -> string -> W -> (CallJobResponse + error) * W
}.

Inductive device_request :=
| PatchDeviceStatus (deviceID status : string)
| PatchDeviceInfo (deviceID spec : string) (calibratedAt : Z)
| PatchDevice (deviceID : string) (nQubits : Z).

Class IDeviceAPI (W : Type) := {
  dev_call : device_request -> W -> option error * W;
  dev_log : W -> list device_request;
  dev_log_call : forall r w, dev_log (dev_call r w).2 = dev_log w ++ [r]
}.

(** [time.Parse(time.RFC3339, t)] *)
Class RFC3339 := parse_rfc3339 : string -> Z + error.

(** ** The agent *)

Record GatewaySetting := mkGatewaySetting {
  GatewayHost : string; GatewayPort : string; APIEndpoint : string; G_APIKey : string; DeviceId : string
}.

Definition NewDefaultGatewayAgentSetting : GatewaySetting :=
  mkGatewaySetting "localhost" "50051" "https://localhost" "your_api_key" "your_device_id".

Record Agent := mkAgent {
  a_setting : GatewaySetting;
  gatewayAddress : string;
  gatewayClient : bool;
  lastDeviceInfo : option DeviceInfo
}.

Definition mapServiceStatusToDeviceStatus (ss : Z) : DeviceStatus :=
  if ss =? 0 then Available
  else if ss =? 1 then Unavailable
  else if ss =? 2 then QueuePaused
  else Unavailable.

Definition toDeviceDeviceStatusUpdateStatus (ds : DeviceStatus) : string :=
  match ds with
  | Available => "available"
  | Unavailable => "unavailable"
  | QueuePaused => "unavailable"
  end.

(** The comparisons with the last device information published. *)
Definition hasStatusChanged (old new : option DeviceInfo) : bool :=
  match old, new with
  | Some o, Some n => negb (bool_decide (DI_Status o = DI_Status n))
  | _, _ => true
  end.

Definition hasDeviceInfoChanged (old new : option DeviceInfo) : bool :=
  match old, new with
  | Some o, Some n =>
      negb (bool_decide (CalibratedAt o = CalibratedAt n)) ||
      negb (bool_decide (DeviceInfoSpecJson o = DeviceInfoSpecJson n)) ||
      negb (MaxShots o =? MaxShots n) ||
      negb (bool_decide (ProviderName o = ProviderName n)) ||
      negb (bool_decide (DeviceName o = DeviceName n)) ||
      negb (bool_decide (DeviceType o = DeviceType n))
  | _, _ => true
  end.

Definition hasDeviceChanged (old new : option DeviceInfo) : bool :=
  match old, new with
  | Some o, Some n => negb (MaxQubits o =? MaxQubits n)
  | _, _ => true
  end.

Section agent.
Context {W : Type} `{HR : IGatewayRPC W} `{HA : IDeviceAPI W} {RF : RFC3339}.

Definition Agent_Reset (a : Agent) : Agent :=
  if rpc_NewClient (gatewayAddress a) then mkAgent (a_setting a) (gatewayAddress a) true None else a.

(** [newClient] is the result of making the API client. *)
Definition Agent_Setup {GS : GlobalSetting} (newClient : string -> option error) (a : Agent)
    : outcome (option error * Agent) :=
  match GetComponentSetting globalSetting "gateway" with
  | None => Ret (Some "gateway setting is not found", a)
  | Some s =>
      let? setting :=
        match as_map (Some s) with
        | None => Ret NewDefaultGatewayAgentSetting
        | Some mapped =>
            let? h := must_string mapped "gateway_host" in
            let? p := must_string mapped "gateway_port" in
            let? e := must_string mapped "api_endpoint" in
            let? k := must_string mapped "api_key" in
            let? d := must_string mapped "device_id" in
            Ret (mkGatewaySetting h p e k d)
        end in
      let a := mkAgent setting (gatewayAddress a) (gatewayClient a) (lastDeviceInfo a) in
      match ValidAddress (GatewayHost setting) (GatewayPort setting) with
      | inr e => Ret (Some e, a)
      | inl address =>
          let a := mkAgent setting address (gatewayClient a) (lastDeviceInfo a) in
          match newClient (APIEndpoint setting) with
          | Some e => Ret (Some ("failed to create API client: " +:+ e), a)
          | None => Ret (None, Agent_Reset a)
          end
      end
  end.

Definition dev {A} (r : device_request) (k : option error -> M (W * Agent) A) : M (W * Agent) A :=
  fun s => let '(e, w) := dev_call r s.1 in k e (w, s.2).

Definition updateDeviceStatus (st : DeviceStatus) : M (W * Agent) (option error) :=
  let! s := get in
  dev (PatchDeviceStatus (DeviceId (a_setting s.2)) (toDeviceDeviceStatusUpdateStatus st)) ret.

Definition updateDeviceInfo (di : DeviceInfo) : M (W * Agent) (option error) :=
  match parse_rfc3339 (CalibratedAt di) with
  | inr e => ret (Some e)
  | inl t =>
      let! s := get in
      dev (PatchDeviceInfo (DeviceId (a_setting s.2)) (DeviceInfoSpecJson di) t) ret
  end.

Definition updateDevice (di : DeviceInfo) : M (W * Agent) (option error) :=
  let! s := get in
  dev (PatchDevice (DeviceId (a_setting s.2)) (MaxQubits di)) ret.

(** Runs an update if [changed]; true when it succeeded. *)
Definition when_changed (changed : bool) (c : M (W * Agent) (option error)) : M (W * Agent) bool :=
  if changed then let! e := c in ret (bool_decide (e = None)) else ret false.

Definition callDeviceAPIOnChange (newDI : DeviceInfo) : M (W * Agent) unit :=
  let! s := get in
  let last := lastDeviceInfo s.2 in
  let! u1 := when_changed (hasStatusChanged last (Some newDI)) (updateDeviceStatus (DI_Status newDI)) in
  let! u2 := when_changed (hasDeviceInfoChanged last (Some newDI)) (updateDeviceInfo newDI) in
  let! u3 := when_changed (hasDeviceChanged last (Some newDI)) (updateDevice newDI) in
  if u1 || u2 || u3 then
    modify (fun s => (s.1, mkAgent (a_setting s.2) (gatewayAddress s.2) (gatewayClient s.2) (Some newDI)))
  else ret tt.

Definition empty_device : DeviceInfo := mkDeviceInfo "" "" "" Available 0 0 "" "".

Definition CallDeviceInfo : M (W * Agent) (DeviceInfo * option error) :=
  let! s := get in
  if negb (gatewayClient s.2) then gopanic nil_pointer
  else
    let '(r, w) := rpc_GetDeviceInfo s.1 in
    put (w, s.2) ;;!
    match r with
    | inr e => modify (fun s => (s.1, Agent_Reset s.2)) ;;! ret (empty_device, Some e)
    | inl di =>
        let '(r, w) := rpc_GetServiceStatus w in
        put (w, s.2) ;;!
        match r with
        | inr e => modify (fun s => (s.1, Agent_Reset s.2)) ;;! ret (empty_device, Some e)
        | inl ss =>
            let cd := mkDeviceInfo (B_DeviceId di) (B_ProviderId di) (B_Type di) (mapServiceStatusToDeviceStatus ss)
                        (B_MaxQubits di) (B_MaxShots di) (B_DeviceInfo di) (B_CalibratedAt di) in
            callDeviceAPIOnChange cd ;;! ret (cd, None)
        end
    end.

Context `{HC : GoClock W}.

(** The agent's [CallJob]: on an unknown status the job data is not changed. *)
Definition CallJob (a : Agent) : M (W * JobData) (option error) :=
  let! s := get in
  let d := s.2 in
  let qasmToBeSent := if bool_decide (TranspiledQASM d = "") then QASM d else TranspiledQASM d in
  let '(startTime, w) := Now s.1 in
  if negb (gatewayClient a) then put (w, d) ;;! gopanic nil_pointer
  else
    let '(r, w) := rpc_CallJob (ID d) (u32 (Shots d)) qasmToBeSent w in
    put (w, d) ;;!
    match r with
    | inr e => ret (Some e)
    | inl resp =>
        let '(endTime, w) := Now w in
        put (w, d) ;;!
        let st := if RespStatus resp =? 0 then Some SUCCEEDED
                  else if (RespStatus resp =? 1) || (RespStatus resp =? 2) then Some FAILED else None in
        match st with
        | None => ret (Some ("unknown status " +:+ FormatInt (RespStatus resp)))
        | Some st =>
            modify (fun s => (s.1, set_JobStatus st s.2)) ;;!
            match RespResult resp with
            | None => gopanic nil_pointer
            | Some (counts, message) =>
                modify (fun s => (s.1, upd_Result (fun r => set_ExecutionTime (time_Sub endTime startTime)
                                                     (set_Message message (set_Counts counts r))) s.2)) ;;!
                ret None
            end
        end
    end.
End agent.
#[local] Arguments CallJob : simpl never.

(** ** The managers *)

(** The world of the gateway manager: the services and the manager's state. *)
Record GatewayQPU (W : Type) := mkGatewayQPU {
  q_world : W;
  q_agent : Agent;
  connected : bool;
  currentDeviceInfo : option DeviceInfo
}.
Arguments mkGatewayQPU {W}.
Arguments q_world {W}.
Arguments q_agent {W}.
Arguments connected {W}.
Arguments currentDeviceInfo {W}.

Definition unavailable_device : DeviceInfo := mkDeviceInfo "" "" "" Unavailable 0 0 "" "".

Section managers.
Context {W : Type} `{HR : IGatewayRPC W} `{HA : IDeviceAPI W} {RF : RFC3339} `{HC : GoClock W}.

#[global] Instance GatewayQPU_clock : GoClock (GatewayQPU W) :=
  fun q => let '(t, w) := Now (q_world q) in (t, mkGatewayQPU w (q_agent q) (connected q) (currentDeviceInfo q)).

Lemma Now_gateway w a b i :
  Now (mkGatewayQPU w a b i) = ((Now w).1, mkGatewayQPU (Now w).2 a b i).
Proof. unfold Now, GatewayQPU_clock. cbn. unfold Now. by destruct (HC w). Qed.

Definition with_world {A} (c : M (W * JobData) A) : M (GatewayQPU W * JobData) A :=
  fun s => let '(r, (w, d)) := c (q_world s.1, s.2) in
           (r, (mkGatewayQPU w (q_agent s.1) (connected s.1) (currentDeviceInfo s.1), d)).

Definition fail_with (err : error) : M (GatewayQPU W * JobData) (option error) :=
  modify (fun s => let '(t, q) := Now s.1 in (q, SetFailureWithErrorToJobData t err s.2)) ;;! ret (Some err).

Definition GatewayQPU_Send : M (GatewayQPU W * JobData) (option error) :=
  let! s := get in
  if negb (connected s.1) then fail_with "Gateway QPU is not connected"
  else
    let! err := with_world (CallJob (q_agent s.1)) in
    match err with
    | Some e => fail_with e
    | None => modify (fun s => let '(t, q) := Now s.1 in (q, set_Ended t s.2)) ;;! ret None
    end.

(** One turn of the device polling goroutine. *)
Definition device_poll : M (GatewayQPU W) unit :=
  fun q =>
    match CallDeviceInfo (q_world q, q_agent q) with
    | (Panic m, (w, a)) => (Panic m, mkGatewayQPU w a (connected q) (currentDeviceInfo q))
    | (Ret (_, Some _), (w, a)) => (Ret tt, mkGatewayQPU w a false (Some unavailable_device))
    | (Ret (di, None), (w, a)) => (Ret tt, mkGatewayQPU w a true (Some di))
    end.

(** [Setup]: the polling goroutine starts before the device information gets its
    first value. *)
Definition GatewayQPU_Setup {GS : GlobalSetting} (newClient : string -> option error)
    (ds : DeviceSetting * option error) (w : W) (a : Agent) : outcome (option error * GatewayQPU W) :=
  let q := mkGatewayQPU w a false None in
  match ds with
  | (_, Some e) => Ret (Some e, q)
  | (ds, None) =>
      if bool_decide (DS_DeviceName ds = "wako") || bool_decide (DS_DeviceName ds = "handai") then
        let? r := Agent_Setup newClient a in
        match r with
        | (Some e, a') => Ret (Some e, mkGatewayQPU w a' false None)
        | (None, a') => Ret (None, mkGatewayQPU w a' false (Some unavailable_device))
        end
      else Ret (Some ("unknown device name:" +:+ DS_DeviceName ds), q)
  end.

#[global] Instance GatewayQPU_manager : IQPUManager (GatewayQPU W) :=
  {| QPU_Send := GatewayQPU_Send; QPU_GetDeviceInfo := currentDeviceInfo |}.

(** ** Properties *)

Lemma CallJob_status a w d r w' d' :
  CallJob a (w, d) = (r, (w', d')) ->
  (JobStatus d' = JobStatus d /\ r <> Ret None) \/ JobStatus d' = SUCCEEDED \/ JobStatus d' = FAILED.
Proof.
  unfold CallJob, bind, get, put, ret, modify, gopanic. cbn. intros H.
  repeat (case_match; simplify_eq/=; auto); destruct d; cbn in *; auto.
Qed.

#[global] Instance GatewayQPU_never_ready : SendNotReady (GatewayQPU W).
Proof.
  intros [w a b i] d r q' d' Hd. cbn. unfold GatewayQPU_Send, fail_with, with_world, bind, get, modify, ret. cbn.
  destruct b; cbn.
  - destruct (CallJob a (w, d)) as [[[e|]|m] [w1 d1]] eqn:E; cbn; [| |done].
    + rewrite Now_gateway. intros [= _ _ <-]. by destruct d1.
    + apply CallJob_status in E. rewrite Now_gateway. intros [= _ _ <-].
      destruct E as [[_ E]|[E|E]]; [by destruct E|..]; destruct d1; cbn in *; by subst.
  - rewrite Now_gateway. intros [= _ _ <-]. by destruct d.
Qed.

(** C32: sending a job to the gateway settles it.  When the device is not
    connected nothing is sent: the job is FAILED and of the world only the clock
    is read.  Otherwise one call is made, with the transpiled program if there is
    one.  An answer with a known status and a result makes the job SUCCEEDED or
    FAILED as the status says, with the counts and the message of the answer and
    the time between the call and its answer; an answer with another status, or
    an error of the call, makes it FAILED with the error as its message, and the
    error is returned.  (A known status without a result, or a missing client,
    panics.) *)
Theorem gateway_send_settles (q : GatewayQPU W) d r q' d' :
  QPU_Send (q, d) = (Ret r, (q', d')) ->
  let called answer w2 := exists t w1, Now (q_world q) = (t, w1) /\
    rpc_CallJob (ID d) (u32 (Shots d)) (if decide (TranspiledQASM d = "") then QASM d else TranspiledQASM d) w1
      = (answer, w2) in
  match r with
  | Some e =>
      JobStatus d' = FAILED /\ Message (JobResult d') = e /\
      ((connected q = false /\ e = "Gateway QPU is not connected" /\ q' = (Now q).2) \/
       (connected q = true /\ exists w2, called (inr e) w2) \/
       (connected q = true /\ exists resp w2, called (inl resp) w2 /\ (RespStatus resp ∉ [0; 1; 2]) /\
         e = "unknown status " +:+ FormatInt (RespStatus resp)))
  | None =>
      connected q = true /\ exists resp w2 counts message,
        called (inl resp) w2 /\ RespResult resp = Some (counts, message) /\
        ((RespStatus resp = 0 /\ JobStatus d' = SUCCEEDED) \/
         ((RespStatus resp ∈ [1; 2]) /\ JobStatus d' = FAILED)) /\
        Counts (JobResult d') = counts /\ Message (JobResult d') = message /\ ID d' = ID d /\
        ExecutionTime (JobResult d') = time_Sub (Now w2).1 (Now (q_world q)).1
  end.
Proof.
  destruct q as [w a b i]. cbn [QPU_Send GatewayQPU_manager q_world connected].
  unfold GatewayQPU_Send, fail_with, with_world, bind, get, modify, ret. cbn.
  destruct b; cbn.
  2: { rewrite Now_gateway. intros [= <- <- <-]. destruct d. split; [done|]. split; [done|]. by left. }
  destruct (CallJob a (w, d)) as [[[e|]|m] [w1 d1]] eqn:E; cbn; [| |done]; rewrite Now_gateway; intros [= <- <- <-];
    unfold CallJob, bind, get, put, ret, modify, gopanic in E; cbn in E;
    destruct (Now w) as [t0 w0] eqn:Ew; (destruct (gatewayClient a); cbn in E; [|done]);
    (assert (forall A (x y : A), (if bool_decide (TranspiledQASM d = "") then x else y) =
                                 (if decide (TranspiledQASM d = "") then x else y)) as Hdec
       by (intros; by case_bool_decide; case_decide));
    rewrite Hdec in E;
    destruct (rpc_CallJob _ _ _ w0) as [[resp|e'] w2] eqn:Er; cbn in E; [| | |done].
  - destruct (Now w2) as [t1 w4]. cbn in E. destruct (RespStatus resp =? 0) eqn:E0; cbn in E.
    { by destruct (RespResult resp) as [[? ?]|]. }
    destruct (_ || _) eqn:E1; cbn in E; [by destruct (RespResult resp) as [[? ?]|]|]. injection E as <- _ <-.
    split; [by destruct d|]. split; [by destruct d as [? ? ? ? ? ? [] ? ? ? ? ? ? ?]|]. right. right. split; [done|].
    exists resp, w2. split; [by eexists _, _|]. split; [|done]. bool_lia. rewrite !elem_of_cons, elem_of_nil. lia.
  - injection E as -> _ <-. split; [by destruct d|].
    split; [by destruct d as [? ? ? ? ? ? [] ? ? ? ? ? ? ?]|]. right. left.
    split; [done|]. by eexists _, _, _.
  - destruct (Now w2) as [t1 w4] eqn:E2. cbn in E. split; [done|].
    destruct (if RespStatus resp =? 0 then _ else _) as [st|] eqn:Est; cbn in E; [|done].
    destruct (RespResult resp) as [[counts message]|] eqn:Ep; cbn in E; [|done]. injection E as _ <-.
    exists resp, w2, counts, message. split; [by eexists _, _|]. split; [done|].
    split; [|rewrite E2; by destruct d as [? ? ? ? ? ? [] ? ? ? ? ? ? ?]].
    destruct (Z.eqb_spec (RespStatus resp) 0) as [H0|H0]; [left; injection Est as <-; split; [done|by destruct d]|].
    right. destruct (_ || _) eqn:E1; [|done]. injection Est as <-. split; [|by destruct d].
    bool_lia. rewrite !elem_of_cons, elem_of_nil. lia.
Qed.
End managers.

(** ** Publishing the device *)

Section publishing.
Context {W : Type} `{HA : IDeviceAPI W} {RF : RFC3339}.
Implicit Types a : Agent.

(** The requests an agent owes for new device information. *)
Definition owed (a : Agent) (di : DeviceInfo) : list device_request :=
  (if hasStatusChanged (lastDeviceInfo a) (Some di)
   then [PatchDeviceStatus (DeviceId (a_setting a)) (toDeviceDeviceStatusUpdateStatus (DI_Status di))] else []) ++
  (if hasDeviceInfoChanged (lastDeviceInfo a) (Some di) then
     match parse_rfc3339 (CalibratedAt di) with
     | inl t => [PatchDeviceInfo (DeviceId (a_setting a)) (DeviceInfoSpecJson di) t]
     | inr _ => []
     end
   else []) ++
  (if hasDeviceChanged (lastDeviceInfo a) (Some di)
   then [PatchDevice (DeviceId (a_setting a)) (MaxQubits di)] else []).

Lemma when_changed_log changed (c : M (W * Agent) (option error)) w a req :
  c (w, a) = (Ret (dev_call req w).1, ((dev_call req w).2, a)) ->
  exists u w', when_changed changed c (w, a) = (Ret u, (w', a)) /\
    dev_log w' = dev_log w ++ (if changed then [req] else []) /\
    (changed = false -> w' = w /\ u = false).
Proof.
  intros Hc. unfold when_changed, bind. destruct changed.
  - rewrite Hc. eexists _, _. split; [reflexivity|]. by rewrite dev_log_call.
  - exists false, w. by rewrite app_nil_r.
Qed.

Lemma updateDeviceStatus_call (w : W) a st :
  let req := PatchDeviceStatus (DeviceId (a_setting a)) (toDeviceDeviceStatusUpdateStatus st) in
  updateDeviceStatus st (w, a) = (Ret (dev_call req w).1, ((dev_call req w).2, a)).
Proof. unfold updateDeviceStatus, bind, get, dev. cbn. by destruct (dev_call _ w). Qed.

Lemma updateDevice_call (w : W) a di :
  let req := PatchDevice (DeviceId (a_setting a)) (MaxQubits di) in
  updateDevice di (w, a) = (Ret (dev_call req w).1, ((dev_call req w).2, a)).
Proof. unfold updateDevice, bind, get, dev. cbn. by destruct (dev_call _ w). Qed.

Lemma updateDeviceInfo_log changed (w : W) a di :
  exists u w', when_changed changed (updateDeviceInfo di) (w, a) = (Ret u, (w', a)) /\
    dev_log w' = dev_log w ++
      (if changed then match parse_rfc3339 (CalibratedAt di) with
                       | inl t => [PatchDeviceInfo (DeviceId (a_setting a)) (DeviceInfoSpecJson di) t]
                       | inr _ => [] end else []) /\
    (changed = false -> w' = w /\ u = false).
Proof.
  unfold updateDeviceInfo. destruct (parse_rfc3339 (CalibratedAt di)) as [t|e].
  - apply when_changed_log. unfold bind, get, dev. cbn. by destruct (dev_call _ w).
  - unfold when_changed, bind, ret. destruct changed; eexists _, w; (split; [reflexivity|]); by rewrite app_nil_r.
Qed.

(** The device is published when it changes and only then.  For new device
    information the agent makes exactly the requests that the comparison with the
    last published information calls for (status, information, qubits, in this
    order), changes nothing else of itself, and afterwards remembers either the
    new information or what it remembered before; information equal to the
    remembered one causes no request at all. *)
Theorem device_published_on_change (w : W) a di :
  exists w' a', callDeviceAPIOnChange di (w, a) = (Ret tt, (w', a')) /\
    dev_log w' = dev_log w ++ owed a di /\
    a_setting a' = a_setting a /\ gatewayAddress a' = gatewayAddress a /\ gatewayClient a' = gatewayClient a /\
    (lastDeviceInfo a' = Some di \/ lastDeviceInfo a' = lastDeviceInfo a) /\
    (lastDeviceInfo a = Some di -> owed a di = [] /\ a' = a).
Proof.
  unfold callDeviceAPIOnChange, bind at 1, get. cbn beta iota.
  destruct (when_changed_log (hasStatusChanged (lastDeviceInfo a) (Some di)) _ w a _
              (updateDeviceStatus_call w a (DI_Status di))) as (u1 & w1 & H1 & L1 & F1).
  unfold bind at 1. cbn [snd]. rewrite H1.
  destruct (updateDeviceInfo_log (hasDeviceInfoChanged (lastDeviceInfo a) (Some di)) w1 a di)
    as (u2 & w2 & H2 & L2 & F2). unfold bind at 1. rewrite H2.
  destruct (when_changed_log (hasDeviceChanged (lastDeviceInfo a) (Some di)) _ w2 a _
              (updateDevice_call w2 a di)) as (u3 & w3 & H3 & L3 & F3).
  unfold bind at 1. rewrite H3.
  assert (dev_log w3 = dev_log w ++ owed a di) as HL by (unfold owed; by rewrite L3, L2, L1, <- !app_assoc).
  assert (lastDeviceInfo a = Some di ->
          owed a di = [] /\ u1 = false /\ u2 = false /\ u3 = false) as Hsame.
  { intros E. unfold owed. rewrite E in *. unfold hasStatusChanged, hasDeviceInfoChanged, hasDeviceChanged in *.
    rewrite !bool_decide_eq_true_2 in * by done. rewrite !Z.eqb_refl in *. cbn in *.
    split; [done|]. destruct (F1 eq_refl), (F2 eq_refl), (F3 eq_refl). auto. }
  unfold modify, ret. destruct (u1 || u2 || u3) eqn:Eu.
  - eexists _, _. split; [reflexivity|]. split; [exact HL|]. cbn. do 4 (split; [by auto|]).
    intros E. destruct (Hsame E) as (? & -> & -> & ->). done.
  - exists w3, a. split; [reflexivity|]. split; [exact HL|]. do 4 (split; [by auto|]).
    intros E. by destruct (Hsame E).
Qed.

(** A failed publication is not repeated once another one succeeded.  If
    the status of the device changed and its update is refused, but the update of
    the qubit count succeeds, the new information is remembered as published:
    polling the same information again makes no request, and the cloud keeps the
    old status. *)
Theorem failed_publication_not_retried (w : W) a di e w1 w2 :
  hasStatusChanged (lastDeviceInfo a) (Some di) = true ->
  hasDeviceInfoChanged (lastDeviceInfo a) (Some di) = false ->
  hasDeviceChanged (lastDeviceInfo a) (Some di) = true ->
  dev_call (PatchDeviceStatus (DeviceId (a_setting a)) (toDeviceDeviceStatusUpdateStatus (DI_Status di))) w
    = (Some e, w1) ->
  dev_call (PatchDevice (DeviceId (a_setting a)) (MaxQubits di)) w1 = (None, w2) ->
  exists a', callDeviceAPIOnChange di (w, a) = (Ret tt, (w2, a')) /\
    callDeviceAPIOnChange di (w2, a') = (Ret tt, (w2, a')).
Proof.
  intros H1 H2 H3 E1 E2. exists (mkAgent (a_setting a) (gatewayAddress a) (gatewayClient a) (Some di)). split.
  - unfold callDeviceAPIOnChange, bind at 1, get. cbn beta iota. cbn [snd]. rewrite H1, H2, H3.
    unfold when_changed, updateDeviceStatus, updateDevice, dev, bind, get, ret, modify. cbn.
    rewrite E1. cbn. rewrite E2. cbn. done.
  - unfold callDeviceAPIOnChange, hasStatusChanged, hasDeviceInfoChanged, hasDeviceChanged, bind at 1, get. cbn.
    rewrite !bool_decide_eq_true_2 by done. rewrite !Z.eqb_refl. done.
Qed.
End publishing.

(** ** The dummy QPU *)

Section dummy.
Context {W J : Type} `{HC : GoClock W} `{HD : IDBChan W J} {MR : MapRange} (jm : JobManager J).
(** [randGenerator.Intn(100)] *)
Context (intn100 : W -> Z * W).

Definition successOrFailure (w : W) : string * W :=
  let '(n, w) := intn100 w in
  (if n <? 90 then "dummy success result" else "dummy failure result", w).

(** The result is sent to the database on a copy; the job itself is only read. *)
Definition DummyQPU_Send : M (W * JobData) (option error) :=
  let! s := get in
  let '(now, w) := Now s.1 in
  let! out := lift (CloneJobData now s.2) in
  let '(msg, w) := successOrFailure w in
  let out := upd_Result (set_Message msg) out in
  match (NewJobFromJobData jm out).1 with
  | inr e => put (w, s.2) ;;! ret (Some e)
  | inl job => put (db_send job w, s.2) ;;! ret None
  end.

(** The state of the dummy QPU; waiting has no effect on it. *)
Record DummyQPU := mkDummyQPU {
  dummy_deviceSetting : DeviceSetting;
  dummy_EnableDummyQPUTimeInsertion : bool;
  dummy_DummyQPUTime : Z
}.
Definition DummyQPU_Setup (c : Conf) : option error * DummyQPU :=
  (None, mkDummyQPU NewDeviceSetting (EnableDummyQPUTimeInsertion c) (DummyQPUTime c)).

(** Both managers accept every program: the call of [circuitValidate] is
    commented out. *)
Definition DummyQPU_Validate (qasm : string) : option error := None.
Definition GatewayQPU_Validate (qasm : string) : option error := None.

Definition DummyQPU_GetDeviceInfo : DeviceInfo :=
  mkDeviceInfo "DummyQPU" "DummyProvider" "DummyQPU" Available 10000 10000 "" "".

(** The dummy QPU does not settle the job.  When [Send] returns without an
    error, the job it was given is exactly as before, in particular still
    RUNNING; what was sent to the database is a copy of it. *)
Theorem dummy_send_leaves_job w d w' d' :
  DummyQPU_Send (w, d) = (Ret None, (w', d')) ->
  d' = d /\ exists job w1, w' = db_send job w1.
Proof.
  unfold DummyQPU_Send, bind, get, lift, put, ret. cbn. destruct (Now w) as [t w1].
  destruct (CloneJobData t d) as [out|m]; [|done]. destruct (successOrFailure w1) as [msg w2].
  destruct (NewJobFromJobData jm _) as [[job|e] d2]; [|done]. cbn. intros [= <- <-]. eauto.
Qed.
End dummy.

(** ** Instances *)

Module GatewayExample.
(** A device API that refuses status changes, and a gateway that always
    answers with one count. *)
Record World := mkWorld { log : list device_request }.
Definition answer (r : device_request) : option error :=
  match r with PatchDeviceStatus _ _ => Some "refused" | _ => None end.
#[global] Program Instance dev_api : IDeviceAPI World :=
  {| dev_call r w := (answer r, mkWorld (log w ++ [r])); dev_log := log |}.
Next Obligation. reflexivity. Qed.
#[global] Instance rpc : IGatewayRPC World :=
  {| rpc_NewClient _ := true;
     rpc_GetDeviceInfo w := (inr "down", w);
     rpc_GetServiceStatus w := (inl 0, w);
     rpc_CallJob _ _ _ w := (inl (mkCallJobResponse 0 (Some ({[ "0" := 5 ]}, "ok"))), w) |}.
#[global] Instance clock : GoClock World := fun w => (0, w).
#[global] Instance rfc : RFC3339 := fun _ => inl 0.

Definition device (st : DeviceStatus) (n : Z) : DeviceInfo := mkDeviceInfo "d" "p" "t" st n 1000 "{}" "".
Definition agent : Agent := mkAgent NewDefaultGatewayAgentSetting "localhost:50051" true (Some (device Available 4)).
Definition manager : GatewayQPU World := mkGatewayQPU (mkWorld []) agent true (Some (device Available 4)).
End GatewayExample.

Lemma gateway_send_settles_witness :
  exists q' d', QPU_Send (GatewayExample.manager, set_JobStatus RUNNING (NewJobData 0)) = (Ret None, (q', d')) /\
    (JobStatus d' = SUCCEEDED \/ JobStatus d' = FAILED).
Proof.
  destruct (QPU_Send (GatewayExample.manager, set_JobStatus RUNNING (NewJobData 0))) as [r [q' d']] eqn:E.
  assert (r = Ret None) as -> by (change r with ((r, (q', d')).1); rewrite <- E; vm_compute; reflexivity).
  exists q', d'. split; [reflexivity|].
  destruct (gateway_send_settles _ _ _ _ _ E) as (_ & resp & w2 & counts & message & _ & _ & Hst & _).
  destruct Hst as [[_ H]|[_ H]]; rewrite H; auto.
Defined.

Lemma failed_publication_not_retried_witness :
  exists a', callDeviceAPIOnChange (GatewayExample.device Unavailable 5)
               (GatewayExample.mkWorld [], GatewayExample.agent)
             = (Ret tt, (GatewayExample.mkWorld [PatchDeviceStatus "your_device_id" "unavailable";
                                                 PatchDevice "your_device_id" 5], a')) /\
    lastDeviceInfo a' = Some (GatewayExample.device Unavailable 5).
Proof.
  destruct (failed_publication_not_retried (GatewayExample.mkWorld []) GatewayExample.agent
    (GatewayExample.device Unavailable 5) "refused" (GatewayExample.mkWorld [PatchDeviceStatus "your_device_id" "unavailable"])
    (GatewayExample.mkWorld [PatchDeviceStatus "your_device_id" "unavailable"; PatchDevice "your_device_id" 5]))
    as (a' & H & _); [vm_compute; reflexivity..|].
  exists a'. split; [exact H|].
  assert ((callDeviceAPIOnChange (GatewayExample.device Unavailable 5)
             (GatewayExample.mkWorld [], GatewayExample.agent)).2.2 = a') as <- by (by rewrite H).
  vm_compute. reflexivity.
Defined.

Lemma dummy_send_leaves_job_witness :
  exists w', DummyQPU_Send (W := SchedExample.World) (MR := canonical_range) (mkJobManager [mkJobProto "*core.NormalJob" NORMAL_JOB NormalJob_New])
               (fun w => (0, w)) (SchedExample.start, jd (SchedExample.job "a")) = (Ret None, (w', jd (SchedExample.job "a"))) /\
    exists job w1, w' = db_send job w1.
Proof.
  eexists. split; [vm_compute; reflexivity|].
  refine (proj2 (dummy_send_leaves_job (W := SchedExample.World) (MR := canonical_range)
    (mkJobManager [mkJobProto "*core.NormalJob" NORMAL_JOB NormalJob_New]) (fun w => (0, w)) SchedExample.start
    (jd (SchedExample.job "a")) _ _ _)). vm_compute. reflexivity.
Defined.
