(* ===== verification/SseData.v ===== *)
(** * Server-side execution: data and calls to the outside (package sse)

    The configuration (sse/conf/sseconf.go), the result file a user program
    leaves (sse/sserun.go) with its decoding, and the calls the package makes:
    [sseE A] is a call that is answered by an [A]; [SseIO] answers calls.  The
    Docker engine, the operating system and the provider API are known to the
    program through these answers only. *)

From stdpp Require Import base gmap strings list fin_maps.
From Stdlib Require Import ZArith Lia Ascii.
From S2P Require Import Prelude GoString Json Core Job Converter.

(** ** Configuration *)

Record SSEConf := mkSSEConf {
  ContainerImage : string;
  ContainerPathIn : string;
  ContainerPathOut : string;
  ContainerMemory : Z;
  ContainerCPUSet : string;
  ContainerDiskQuota : Z;
  HostPath : string;
  HostPathIn : string;
  HostPathOut : string;
  SSELambdaEndpoint : string;
  SSEResultFileName : string;
  SSELogFileName : string;
  SSETimeout : Z;
  MaxFileSize : Z;
  UserProgramName : string;
  GatewayRouterListenHost : string;
  GatewayRouterListenPort : Z;
  GatewayRouterLookupHost : string
}.

(** The values the flags have when nothing sets them. *)
Definition default_SSEConf : SSEConf :=
  mkSSEConf "sse/python3.11.6:latest" "/sse/in" "/sse/out" 1073741824 "0" 314572800 "/home/example/sse/" "/in" "/out"
    "http://localhost" "result.json" "ssecontainer.log" 300 10485760 "userprogram.py" "0.0.0.0" 5001 "sse.gateway.router".

(** ** Decoding of structs

    [json.Unmarshal] into a struct assigns the members of the object in the
    order of the text; a member that does not fit leaves its field and its error
    is reported at the end.  A [json.RawMessage] keeps the text of its value, so
    that decoders work on texts. *)

(** The members of an object with the text of their values. *)
Definition raw_object (s : string) : option (list (string * string)) :=
  match Parse s with
  | Some (JObj []) => Some []
  | Some (JObj _) =>
      match expect "{"%char (skip_ws s) with
      | None => None
      | Some r => raw_members (S (String.length r)) r
      end
  | _ => None
  end.

(** A text into a variable that holds [cur]. *)
Definition decoder (A : Type) : Type := A -> string -> decoded A.

Definition into_string : decoder string := fun cur t =>
  match Parse t with
  | Some JNull => (cur, None)
  | Some (JStr s) => (s, None)
  | _ => (cur, Some (type_error "string"))
  end.

Definition into_string_ptr : decoder (option string) := fun cur t =>
  match Parse t with
  | Some JNull => (None, None)
  | Some (JStr s) => (Some s, None)
  | _ => (cur, Some (type_error "string"))
  end.

Definition into_int : decoder Z := fun cur t =>
  match Parse t with
  | Some JNull => (cur, None)
  | Some j => match decode_int j with (n, None) => (n, None) | (_, e) => (cur, e) end
  | None => (cur, Some syntax_error)
  end.

Definition into_uint : decoder Z := fun cur t =>
  match Parse t with
  | Some JNull => (cur, None)
  | Some j => match decode_uint 64 "uint" j with (n, None) => (n, None) | (_, e) => (cur, e) end
  | None => (cur, Some syntax_error)
  end.

Definition into_strings : decoder (list string) := fun cur t =>
  match Parse t with
  | Some (JArr l) => decode_list decode_string "[]string" (JArr l)
  | Some JNull => ([], None)
  | _ => (cur, Some (type_error "[]string"))
  end.

(** A nil map holds no entries. *)
Definition into_counts : decoder (gmap string Z) := fun cur t =>
  match Parse t with
  | Some (JObj l) => decode_map_from (decode_uint 32 "uint32") "map[string]uint32" cur (JObj l)
  | Some JNull => (∅, None)
  | _ => (cur, Some (type_error "map[string]uint32"))
  end.

Definition into_raw : decoder (option string) := fun _ t => (Some t, None).

(** [assign name] is the assignment for the member whose folded name is [name]. *)
Definition into_struct {A} (ty : string) (assign : string -> decoder A) : decoder A := fun cur t =>
  match Parse t with
  | Some JNull => (cur, None)
  | Some (JObj _) =>
      match raw_object t with
      | None => (cur, Some syntax_error)
      | Some ms =>
          foldl (fun acc kv => let '(v, e) := assign (fold_name kv.1) acc.1 kv.2 in (v, first_error acc.2 e))
            (cur, None) ms
      end
  | _ => (cur, Some (type_error ty))
  end.

(** A pointer: null makes it nil, an object allocates when it is nil. *)
Definition into_ptr {A} (zero : A) (dec : decoder A) : decoder (option A) := fun cur t =>
  match Parse t with
  | Some JNull => (None, None)
  | _ => let '(v, e) := dec (default zero cur) t in (Some v, e)
  end.

(** [json.Unmarshal]: a text that is no JSON leaves the target alone. *)
Definition unmarshal_into {A} (dec : decoder A) (zero : A) (s : string) : decoded A :=
  if Valid s then dec zero s else (zero, Some syntax_error).

(** ** The files of a job *)

Definition assign_config (name : string) : decoder TranspilerConfig := fun c t =>
  if String.eqb name "transpiler_lib" then
    let '(v, e) := into_string_ptr (TranspilerLib c) t in (mkTranspilerConfig v (TranspilerOptions c) (UseDefault c), e)
  else if String.eqb name "transpiler_options" then
    let '(v, e) := into_raw (TranspilerOptions c) t in (mkTranspilerConfig (TranspilerLib c) v (UseDefault c), e)
  else (c, None).
Definition into_config : decoder TranspilerConfig := into_struct "core.TranspilerConfig" assign_config.

Record ResultFileContentsTranspileResult := mkRFCTranspileResult {
  TranspiledProgram : string;
  RFC_StatsRaw : option string;
  RFC_VirtualPhysicalMappingRaw : option string
}.

Record ResultFileContentsResultSampling := mkRFCSampling { RFC_Counts : gmap string Z }.
Record ResultFileContentsResult := mkRFCResult { Sampling : ResultFileContentsResultSampling }.

Record ResultFileContentsJobInfo := mkRFCJobInfo {
  RFC_Program : list string;
  TranspileResult : ResultFileContentsTranspileResult;
  RFC_Result : ResultFileContentsResult;
  RFC_JI_Message : string
}.

Record ResultFileContents := mkResultFileContents {
  RFC_ID : string;
  RFC_JobInfo : ResultFileContentsJobInfo;
  RFC_Status : string;
  RFC_Message : string;
  RFC_Shots : Z;
  RFC_TranspilerInfo : TranspilerConfig
}.

Definition empty_contents : ResultFileContents :=
  mkResultFileContents "" (mkRFCJobInfo [] (mkRFCTranspileResult "" None None) (mkRFCResult (mkRFCSampling ∅)) "")
    "" "" 0 empty_config.

Definition into_transpile_result : decoder ResultFileContentsTranspileResult :=
  into_struct "sse.ResultFileContentsTranspileResult" (fun name r t =>
    if String.eqb name "transpiled_program" then
      let '(v, e) := into_string (TranspiledProgram r) t in
      (mkRFCTranspileResult v (RFC_StatsRaw r) (RFC_VirtualPhysicalMappingRaw r), e)
    else if String.eqb name "stats" then
      let '(v, e) := into_raw (RFC_StatsRaw r) t in
      (mkRFCTranspileResult (TranspiledProgram r) v (RFC_VirtualPhysicalMappingRaw r), e)
    else if String.eqb name "virtual_physical_mapping" then
      let '(v, e) := into_raw (RFC_VirtualPhysicalMappingRaw r) t in
      (mkRFCTranspileResult (TranspiledProgram r) (RFC_StatsRaw r) v, e)
    else (r, None)).

Definition into_sampling : decoder ResultFileContentsResultSampling :=
  into_struct "sse.ResultFileContentsResultSampling" (fun name r t =>
    if String.eqb name "counts" then let '(v, e) := into_counts (RFC_Counts r) t in (mkRFCSampling v, e)
    else (r, None)).

Definition into_result : decoder ResultFileContentsResult :=
  into_struct "sse.ResultFileContentsResult" (fun name r t =>
    if String.eqb name "sampling" then let '(v, e) := into_sampling (Sampling r) t in (mkRFCResult v, e)
    else (r, None)).

Definition into_job_info : decoder ResultFileContentsJobInfo :=
  into_struct "sse.ResultFileContentsJobInfo" (fun name r t =>
    if String.eqb name "program" then
      let '(v, e) := into_strings (RFC_Program r) t in (mkRFCJobInfo v (TranspileResult r) (RFC_Result r) (RFC_JI_Message r), e)
    else if String.eqb name "transpile_result" then
      let '(v, e) := into_transpile_result (TranspileResult r) t in
      (mkRFCJobInfo (RFC_Program r) v (RFC_Result r) (RFC_JI_Message r), e)
    else if String.eqb name "result" then
      let '(v, e) := into_result (RFC_Result r) t in
      (mkRFCJobInfo (RFC_Program r) (TranspileResult r) v (RFC_JI_Message r), e)
    else if String.eqb name "message" then
      let '(v, e) := into_string (RFC_JI_Message r) t in
      (mkRFCJobInfo (RFC_Program r) (TranspileResult r) (RFC_Result r) v, e)
    else (r, None)).

Definition into_contents : decoder ResultFileContents :=
  into_struct "sse.ResultFileContents" (fun name r t =>
    if String.eqb name "job_id" then
      let '(v, e) := into_string (RFC_ID r) t in
      (mkResultFileContents v (RFC_JobInfo r) (RFC_Status r) (RFC_Message r) (RFC_Shots r) (RFC_TranspilerInfo r), e)
    else if String.eqb name "job_info" then
      let '(v, e) := into_job_info (RFC_JobInfo r) t in
      (mkResultFileContents (RFC_ID r) v (RFC_Status r) (RFC_Message r) (RFC_Shots r) (RFC_TranspilerInfo r), e)
    else if String.eqb name "status" then
      let '(v, e) := into_string (RFC_Status r) t in
      (mkResultFileContents (RFC_ID r) (RFC_JobInfo r) v (RFC_Message r) (RFC_Shots r) (RFC_TranspilerInfo r), e)
    else if String.eqb name "message" then
      let '(v, e) := into_string (RFC_Message r) t in
      (mkResultFileContents (RFC_ID r) (RFC_JobInfo r) (RFC_Status r) v (RFC_Shots r) (RFC_TranspilerInfo r), e)
    else if String.eqb name "shots" then
      let '(v, e) := into_int (RFC_Shots r) t in
      (mkResultFileContents (RFC_ID r) (RFC_JobInfo r) (RFC_Status r) (RFC_Message r) v (RFC_TranspilerInfo r), e)
    else if String.eqb name "transpiler_info" then
      let '(v, e) := into_config (RFC_TranspilerInfo r) t in
      (mkResultFileContents (RFC_ID r) (RFC_JobInfo r) (RFC_Status r) (RFC_Message r) (RFC_Shots r) v, e)
    else (r, None)).

Definition unmarshalContents (text : string) : decoded ResultFileContents :=
  unmarshal_into into_contents empty_contents text.

(** ** Calls *)

(** What a reader still has to give: a text, then the end or an error. *)
Record Stream := mkStream { st_text : string; st_err : option error }.

(** [io.ReadAll], and the reading side of [io.Copy]: the whole rest. *)
Definition ReadAll (s : Stream) : (string * option error) * Stream :=
  ((st_text s, st_err s), mkStream "" (st_err s)).

Record ContainerConfig := mkContainerConfig {
  Image : string; Tty : bool; Env : list string; AttachStdout : bool; AttachStderr : bool
}.
Record HostConfig := mkHostConfig {
  ExtraHosts : list string; Memory : Z; CpusetCpus : string; Binds : list string
}.
Record ExecConfig := mkExecConfig {
  Privileged : bool; User : string; EC_AttachStdout : bool; EC_AttachStderr : bool;
  Cmd : list string; Detach : bool; EC_Tty : bool
}.

(** A file given to a container, and an entry of an archive read from one. *)
Record TarFile := mkTarFile { TF_Name : string; TF_Mode : Z; TF_Content : string }.
Record TarEntry := mkTarEntry { TE_Name : string; TE_IsDir : bool; TE_Content : Stream }.

(** The client of the provider API, and its answers: [T] is the name of an
    unexpected response type. *)
Record SseApiClient := mkSseApiClient { endpoint : string; apiKey : string }.
Inductive SsesrcResponse := GetSsesrcOK (body : Stream) | SsesrcOther (T : string).
Inductive SselogResponse := JobsUploadSselogResponse (message : string) | SselogOther (T : string).
Record MultipartFile := mkMultipartFile { MF_Name : string; MF_File : string; MF_Size : Z; MF_ContentType : string }.

Inductive sseE : Type -> Type :=
(* the Docker engine *)
| NewClientWithOpts : sseE (option error)
| VolumeCreate (driver : string) (opts : list (string * string)) (name : string) : sseE (string + error)
| VolumeRemove (name : string) (force : bool) : sseE (option error)
| ContainerCreate (config : ContainerConfig) (host : HostConfig) (name : string) : sseE (string + error)
| ContainerStart (id : string) : sseE (option error)
| ContainerInspect (id : string) : sseE ((string * string) + error)
| ContainerStop (name : string) (timeout : Z) : sseE (option error)
| ContainerRemove (name : string) (removeVolumes force : bool) : sseE (option error)
| ContainerExecCreate (id : string) (config : ExecConfig) : sseE (string + error)
| ContainerExecAttach (execID : string) : sseE (option error)
| ExecWait (execID : string) (seconds : Z) : sseE (option (option error))
| ContainerExecInspect (execID : string) : sseE (Z + error)
| CopyToContainer (id path : string) (archive : TarFile) : sseE (option error)
| CopyFromContainer (id path : string) : sseE ((list TarEntry * option error) + error)
| ContainerLogs (id : string) : sseE (Stream + error)
(* the file system *)
| ReadFile (path : string) : sseE (string + error)
| WriteFile (path content : string) (perm : Z) : sseE (option error)
| CreateFile (path : string) : sseE (option error)
| AppendFile (path text : string) : sseE (option error)
| OpenFile (path : string) : sseE (Stream + error)
| StatSize (path : string) : sseE (Z + error)
| MkdirAll (path : string) (perm : Z) : sseE (option error)
| RemoveAll (path : string) : sseE (option error)
(* the provider API *)
| NewApiClient (endpoint apiKey : string) : sseE (option error)
| GetSsesrc (client : SseApiClient) (jobID : string) : sseE (SsesrcResponse + error)
| PatchSselog (client : SseApiClient) (jobID : string) (file : MultipartFile) : sseE (SselogResponse + error).

(** [io] answers a call.  [tar_header] is the error of a header that cannot be
    encoded; [MarshalJobData] is [json.Marshal] of a job (its times are values of
    a third-party package); [Errorf] is [fmt.Errorf] of a text, which is the
    text itself when it holds no percent sign. *)
Class SseIO (W : Type) := {
  io : forall {A}, sseE A -> W -> A * W;
  tar_header : string -> Z -> Z -> option error;
  MarshalJobData : JobData -> string + error;
  Errorf : string -> string
}.

(** A call with its answer. *)
Inductive event : Type :=
| Ev (A : Type) (e : sseE A) (answer : A).
Arguments Ev {A} e answer.

(** The calls made so far. *)
Class SseTrace (W : Type) `{SseIO W} := {
  trace : W -> list event;
  trace_io : forall A (e : sseE A) w, trace (io e w).2 = trace w ++ [Ev e (io e w).1]
}.

Section call.
Context {W J : Type} `{HIO : SseIO W}.
Definition call {A} (e : sseE A) : M (W * J) A := on_world (io e).
End call.

(** ** Runs and their traces

    [runs c s Q]: from [s] the code [c] returns (it does not panic) and the
    calls it makes, its result and the state it leaves satisfy [Q]. *)

Section runs.
Context {W J : Type} `{HIO : SseIO W} `{HTr : !SseTrace W}.
Implicit Types s : W * J.

Definition runs {A} (c : M (W * J) A) (s : W * J) (Q : A -> W * J -> list event -> Prop) : Prop :=
  match c s with
  | (Ret a, s') => exists tr, trace s'.1 = trace s.1 ++ tr /\ Q a s' tr
  | (Panic _, _) => False
  end.

Lemma runs_ret {A} (a : A) s Q : Q a s [] -> runs (ret a) s Q.
Proof. intros HQ. exists []. by rewrite app_nil_r. Qed.

Lemma runs_bind {A B} (c : M (W * J) A) (k : A -> M (W * J) B) s Q :
  runs c s (fun a s1 tr1 => runs (k a) s1 (fun b s2 tr2 => Q b s2 (tr1 ++ tr2))) -> runs (bind c k) s Q.
Proof.
  unfold runs, bind. destruct (c s) as [[a|m] s1]; [|done]. intros (tr1 & E1 & H).
  destruct (k a s1) as [[b|m] s2]; [|done]. destruct H as (tr2 & E2 & HQ).
  exists (tr1 ++ tr2). by rewrite E2, E1, app_assoc.
Qed.

Lemma runs_mono {A} (c : M (W * J) A) s (Q Q' : A -> W * J -> list event -> Prop) :
  runs c s Q -> (forall a s' tr, Q a s' tr -> Q' a s' tr) -> runs c s Q'.
Proof. unfold runs. destruct (c s) as [[a|m] s']; [|done]. intros (tr & E & HQ) H. eauto. Qed.

(** Two facts of one run. *)
Lemma runs_and {A} (c : M (W * J) A) s (Q1 Q2 : A -> W * J -> list event -> Prop) :
  runs c s Q1 -> runs c s Q2 -> runs c s (fun a s' tr => Q1 a s' tr /\ Q2 a s' tr).
Proof.
  unfold runs. destruct (c s) as [[a|m] s']; [|done]. intros (tr & E & H1) (tr' & E' & H2).
  rewrite E in E'. apply app_inv_head in E' as <-. eauto.
Qed.

(** What is known of a run whose end is known. *)
Lemma runs_elim {A} (c : M (W * J) A) s Q a s' :
  runs c s Q -> c s = (Ret a, s') -> exists tr, trace s'.1 = trace s.1 ++ tr /\ Q a s' tr.
Proof. unfold runs. by intros H E; rewrite E in H. Qed.

(** The trace of a run is what was added to the calls. *)
Lemma runs_traced {A} (c : M (W * J) A) s (Q : A -> W * J -> list event -> Prop) :
  runs c s Q -> runs c s (fun a s' tr => trace s'.1 = trace s.1 ++ tr /\ Q a s' tr).
Proof. unfold runs. destruct (c s) as [[a|m] s']; [|done]. intros (tr & E & H). eauto. Qed.

Lemma runs_call {A} (e : sseE A) s Q :
  (forall a w', io e s.1 = (a, w') -> Q a (w', s.2) [Ev e a]) -> runs (call e) s Q.
Proof.
  intros H. unfold runs, call, on_world. destruct (io e s.1) as [a w'] eqn:E. exists [Ev e a].
  split; [|by apply H]. cbn. pose proof (trace_io _ e s.1) as Ht. by rewrite E in Ht.
Qed.

Lemma runs_get {A} (k : W * J -> M (W * J) A) s Q : runs (k s) s Q -> runs (bind get k) s Q.
Proof. done. Qed.

Lemma runs_modify f s Q : trace (f s).1 = trace s.1 -> Q tt (f s) [] -> runs (modify f) s Q.
Proof. intros E HQ. exists []. by rewrite app_nil_r. Qed.

(** Code all of whose calls satisfy [P]. *)
Definition only {A} (P : event -> Prop) (c : M (W * J) A) : Prop :=
  forall s, runs c s (fun _ _ tr => Forall P tr).

Lemma only_ret {A} P (a : A) : only P (ret a).
Proof. intros s. apply runs_ret. constructor. Qed.

Lemma only_bind {A B} P (c : M (W * J) A) (k : A -> M (W * J) B) :
  only P c -> (forall a, only P (k a)) -> only P (bind c k).
Proof.
  intros Hc Hk s. apply runs_bind. eapply runs_mono; [apply Hc|]. cbn. intros a s1 tr1 H1.
  eapply runs_mono; [apply Hk|]. cbn. intros b s2 tr2 H2. by apply Forall_app.
Qed.

Lemma only_call {A} (P : event -> Prop) (e : sseE A) : (forall a, P (Ev e a)) -> only P (call e).
Proof. intros H s. apply runs_call. intros a w' _. by constructor. Qed.

Lemma only_modify P f : (forall s, trace (f s).1 = trace s.1) -> only P (modify f).
Proof. intros H s. by apply runs_modify. Qed.

(** Code that leaves the job alone. *)
Definition keeps {A} (c : M (W * J) A) : Prop := forall s, runs c s (fun _ s' _ => s'.2 = s.2).

Lemma keeps_ret {A} (a : A) : keeps (ret a).
Proof. intros s. by apply runs_ret. Qed.

Lemma keeps_bind {A B} (c : M (W * J) A) (k : A -> M (W * J) B) :
  keeps c -> (forall a, keeps (k a)) -> keeps (bind c k).
Proof.
  intros Hc Hk s. apply runs_bind. eapply runs_mono; [apply Hc|]. cbn. intros a s1 tr1 H1.
  eapply runs_mono; [apply Hk|]. cbn. congruence.
Qed.

Lemma keeps_call {A} (e : sseE A) : keeps (call e).
Proof. intros s. by apply runs_call. Qed.

(** A step that leaves the job alone, then the rest. *)
Lemma runs_keeping {A B} (m : M (W * J) A) (k : A -> M (W * J) B) s (Q : B -> J -> list event -> Prop) :
  keeps m -> (forall a s', s'.2 = s.2 -> runs (k a) s' (fun r s'' tr => Q r s''.2 tr)) ->
  (forall r j tr1 tr2, Q r j tr2 -> Q r j (tr1 ++ tr2)) ->
  runs (bind m k) s (fun r s' tr => Q r s'.2 tr).
Proof.
  intros Hm Hk HQ. apply runs_bind. eapply runs_mono; [apply Hm|]. cbn. intros a s' tr E.
  eapply runs_mono; [by apply Hk|]. cbn. intros r s'' tr'. by apply HQ.
Qed.

(** A step whose calls [P] does not let matter, then the rest. *)
Lemma runs_after {A B} P (m : M (W * J) A) (k : A -> M (W * J) B) s (Q : B -> list event -> Prop) :
  only P m -> (forall a s', runs (k a) s' (fun r _ tr => Q r tr)) ->
  (forall r tr1 tr2, Forall P tr1 -> Q r tr2 -> Q r (tr1 ++ tr2)) ->
  runs (bind m k) s (fun r _ tr => Q r tr).
Proof.
  intros Hm Hk HQ. apply runs_bind. eapply runs_mono; [apply Hm|]. cbn. intros a s' tr Htr.
  eapply runs_mono; [apply Hk|]. cbn. intros r s'' tr'. by apply HQ.
Qed.
End runs.

(** Walks through code that makes calls, branch by branch; the goals that
    remain are the conditions on the calls. *)
Ltac only_walk :=
  repeat first
    [ apply only_ret
    | apply only_bind; [|intros ?]
    | apply only_call; intros ?
    | apply only_modify; [by intros []]
    | progress cbn beta zeta
    | match goal with |- only _ (match ?x with _ => _ end) => destruct x end ].

Ltac keeps_walk :=
  repeat first
    [ apply keeps_ret
    | apply keeps_bind; [|intros ?]
    | apply keeps_call
    | progress cbn beta zeta
    | match goal with |- keeps (match ?x with _ => _ end) => destruct x end ].

(** The same for [runs], with the states and answers of the branch. *)
Ltac runs_walk :=
  repeat first
    [ apply runs_ret
    | apply runs_bind
    | apply runs_call; intros ? ? _; cbn beta
    | progress cbn beta zeta
    | match goal with |- runs (match ?x with _ => _ end) _ _ => destruct x eqn:? end ].

#[global] Arguments runs : simpl never.
