(* ===== verification/SseRun.v ===== *)
(** * Server-side execution of a user program (sse/sserun.go, sse/apiclient/apiclient.go)

    [RunSSE] runs the program of a job in a container: a volume and a container
    are made, the program is copied in and executed, result and log are copied
    out, and everything is removed.  The functions are those of the source; log
    output is left out. *)

From stdpp Require Import base gmap strings list fin_maps.
From Stdlib Require Import ZArith Lia Ascii.
From S2P Require Import Prelude GoString Json Core Setting Job Converter GoPath SseData.

(** ** The client of the provider API *)

Definition getParamsFromSetting {GS : GlobalSetting} : string * string * option error :=
  match globalSetting with
  | None => ("", "", Some "failed to get setting: group setting is nil.")
  | Some setting =>
      match as_map (RunGroupSetting setting !! "periodic_tasks") with
      | None => ("", "", Some "failed to get setting: periodic_tasks is nil.")
      | Some periodic_task =>
          match as_map (periodic_task !! "poller") with
          | None => ("", "", Some "failed to get setting: periodic_tasks.poller is nil.")
          | Some poller =>
              match as_map (poller !! "params") with
              | None => ("", "", Some "failed to get setting: periodic_tasks.poller.params is nil.")
              | Some params =>
                  match as_string (params !! "api_key") with
                  | None => ("", "", Some "failed to get setting: periodic_tasks.poller.params.api_key is nil.")
                  | Some apiKey =>
                      match as_string (params !! "endpoint") with
                      | None => (apiKey, "", Some "failed to get setting: periodic_tasks.poller.params.endpoint is nil.")
                      | Some endpoint => (apiKey, endpoint, None)
                      end
                  end
              end
          end
      end
  end.

Section api.
Context {W J : Type} `{HIO : SseIO W} {GS : GlobalSetting}.

Definition NewSseApiClient : M (W * J) (SseApiClient + error) :=
  match getParamsFromSetting with
  | (_, _, Some e) => ret (inr e)
  | (apiKey, endpoint, None) =>
      let! err := call (NewApiClient endpoint apiKey) in
      match err with
      | Some e => ret (inr e)
      | None => ret (inl (mkSseApiClient endpoint apiKey))
      end
  end.

Definition api_GetSsesrc (c : SseApiClient) (jobId : string) : M (W * J) (string + error) :=
  let! res := call (GetSsesrc c jobId) in
  match res with
  | inr e => ret (inr (Errorf ("failed to get the source file of SSE: " +:+ e)))
  | inl (GetSsesrcOK body) =>
      match (ReadAll body).1 with
      | (_, Some e) => ret (inr (Errorf ("failed to read response body. Reason: " +:+ e)))
      | (b, None) => ret (inl b)
      end
  | inl (SsesrcOther T) => ret (inr (Errorf ("unexpected response type " +:+ T)))
  end.

Definition api_PatchSselog (c : SseApiClient) (jobId body fileName contentType : string) : M (W * J) (string + error) :=
  let! res := call (PatchSselog c jobId (mkMultipartFile fileName body (len body) contentType)) in
  match res with
  | inr e => ret (inr (Errorf ("failed to upload the log file of SSE: " +:+ e)))
  | inl (JobsUploadSselogResponse m) => ret (inl m)
  | inl (SselogOther T) => ret (inr (Errorf ("unexpected response type " +:+ T)))
  end.
End api.

(** ** The container *)

Record ContainerDefinition := mkContainerDefinition {
  containerName : string;
  config : ContainerConfig;
  CD_ID : string;
  volume : string;
  gatewayRouterHost : string
}.

Definition SetID (value : string) (c : ContainerDefinition) : ContainerDefinition :=
  mkContainerDefinition (containerName c) (config c) value (volume c) (gatewayRouterHost c).

(** The error keeps the message only; the cause goes to the log.  No message of
    the package holds a percent sign. *)
Definition makeErrMsg (errMsg : string) (err : option error) : error := errMsg.

Section container.
Context {W : Type} `{HIO : SseIO W} {MR : MapRange} {GS : GlobalSetting}.
Abbreviation RunM := (M (W * JobData)).

(** The client is made with the definition; every use comes after. *)
Definition ContainerDefinition_Setup (name : string) (envVars : list string) (image host : string)
    : RunM (ContainerDefinition * option error) :=
  let c := mkContainerDefinition name (mkContainerConfig image true envVars true true) "" "" "" in
  let! err := call NewClientWithOpts in
  match err with
  | Some e => ret (c, Some (makeErrMsg "Failed to init container" (Some e)))
  | None => ret (mkContainerDefinition name (config c) "" "" host, None)
  end.

Definition convertJson (outputJob : JobData) : string * option error :=
  match MarshalJobData outputJob with
  | inr e => ("", Some (makeErrMsg "failed to marshal json" (Some e)))
  | inl t => (t, None)
  end.

Definition createVolume (conDef : ContainerDefinition) (diskQuota : Z) : RunM (ContainerDefinition * option error) :=
  let driverOpts := [("type", "tmpfs"); ("device", "tmpfs "); ("o", "size=" +:+ FormatInt diskQuota)] in
  let! r := call (VolumeCreate "local" driverOpts ("sse-" +:+ containerName conDef)) in
  match r with
  | inr e => ret (conDef, Some (makeErrMsg "failed to create volume" (Some e)))
  | inl v =>
      ret (mkContainerDefinition (containerName conDef) (config conDef) (CD_ID conDef) v (gatewayRouterHost conDef), None)
  end.

Definition delVolume (conDef : ContainerDefinition) : RunM (option error) :=
  let! err := call (VolumeRemove (volume conDef) true) in
  match err with
  | Some e => ret (Some (makeErrMsg "failed to delete volume" (Some e)))
  | None => ret None
  end.

Definition startContainer (conDef : ContainerDefinition) (sseconf : SSEConf) : RunM (string * option error) :=
  let msg := "failed to start container" in
  let mountPoint := volume conDef +:+ ":/sse" in
  let hostConfig := mkHostConfig [gatewayRouterHost conDef +:+ ":host-gateway"] (ContainerMemory sseconf)
                      (ContainerCPUSet sseconf) [mountPoint] in
  let! r := call (ContainerCreate (config conDef) hostConfig (containerName conDef)) in
  match r with
  | inr e => ret ("", Some (makeErrMsg msg (Some e)))
  | inl id =>
      let! err := call (ContainerStart id) in
      match err with
      | Some e => ret ("", Some (makeErrMsg msg (Some e)))
      | None => ret (id, None)
      end
  end.

Definition copyUserProgramIntoContainer (conDef : ContainerDefinition) (sseconf : SSEConf) (inPath : string)
    : RunM (option error) :=
  let! r := call (ReadFile (filepath_Join [inPath; UserProgramName sseconf])) in
  match r with
  | inr e => ret (Some e)
  | inl content =>
      match tar_header (UserProgramName sseconf) 511 (len content) with
      | Some e => ret (Some e)
      | None =>
          let! err := call (CopyToContainer (CD_ID conDef) (ContainerPathIn sseconf)
                              (mkTarFile (UserProgramName sseconf) 511 content)) in
          match err with
          | Some e => ret (Some (makeErrMsg "failed to copy user program into container" (Some e)))
          | None => ret None
          end
      end
  end.

(** [ExecWait]: the goroutine that reads the output has ended, with its error,
    or the timer was first ([None]). *)
Definition execCommandInContainer (conDef : ContainerDefinition) (sseconf : SSEConf) (user : string)
    (privileged : bool) (cmd : string) : RunM (option error * string) :=
  let msg := "failed to exec command in container" in
  let msgTimeout := "The SSE execution has timed out after " +:+ FormatInt (SSETimeout sseconf) +:+ " seconds." in
  let msgExitCode := "exit code is not 0" in
  let execConfig := mkExecConfig privileged user true true ["sh"; "-c"; cmd] false false in
  let! r := call (ContainerExecCreate (CD_ID conDef) execConfig) in
  match r with
  | inr e => ret (Some (makeErrMsg msg (Some e)), "")
  | inl execID =>
      let! err := call (ContainerExecAttach execID) in
      match err with
      | Some e => ret (Some (makeErrMsg msg (Some e)), "")
      | None =>
          let! w := call (ExecWait execID (SSETimeout sseconf)) in
          match w with
          | None => ret (Some (makeErrMsg msgTimeout None), msgTimeout)
          | Some (Some e) => ret (Some (makeErrMsg msg (Some e)), "")
          | Some None =>
              let! r := call (ContainerExecInspect execID) in
              match r with
              | inr e => ret (Some (makeErrMsg msg (Some e)), "")
              | inl exitCode =>
                  if negb (exitCode =? 0) then ret (Some (makeErrMsg msgExitCode None), msgExitCode)
                  else ret (None, "")
              end
          end
      end
  end.

(** [header.FileInfo().Name()] *)
Definition entry_name (t : TarEntry) : string :=
  if TE_IsDir t then path_Base (Clean (TE_Name t)) else path_Base (TE_Name t).

Fixpoint extract_loop (msg outPath : string) (l : list TarEntry) (end_err : option error) : RunM (option error) :=
  match l with
  | [] =>
      match end_err with
      | None => ret None
      | Some e => ret (Some (makeErrMsg msg (Some e)))
      end
  | t :: l' =>
      let path := filepath_Join [outPath; entry_name t] in
      let! err := call (CreateFile path) in
      match err with
      | Some e => ret (Some (makeErrMsg msg (Some e)))
      | None =>
          let '(text, rerr) := (ReadAll (TE_Content t)).1 in
          let! werr := call (AppendFile path text) in
          match first_error werr rerr with
          | Some e => ret (Some (makeErrMsg msg (Some e)))
          | None => extract_loop msg outPath l' end_err
          end
      end
  end.

Definition copyResultFromContainer (conDef : ContainerDefinition) (sseconf : SSEConf) (outPath : string)
    : RunM (option error) :=
  let msg := "failed to copy result from container" in
  let! r := call (CopyFromContainer (CD_ID conDef) (filepath_Join [ContainerPathOut sseconf; SSEResultFileName sseconf])) in
  match r with
  | inr e => ret (Some (makeErrMsg msg (Some e)))
  | inl (entries, end_err) => extract_loop msg outPath entries end_err
  end.

(** The log for the engine is read from the reader that is copied afterwards. *)
Definition saveContainerLog (conDef : ContainerDefinition) (sseconf : SSEConf) (outPath : string)
    (printToEngineLog : bool) : RunM (option error) :=
  let msg := "failed to get container log" in
  let! r := call (ContainerLogs (CD_ID conDef)) in
  match r with
  | inr e => ret (Some (makeErrMsg msg (Some e)))
  | inl readlog =>
      let readlog := if printToEngineLog then (ReadAll readlog).2 else readlog in
      let path := filepath_Join [outPath; SSELogFileName sseconf] in
      let! err := call (CreateFile path) in
      match err with
      | Some e => ret (Some (makeErrMsg msg (Some e)))
      | None =>
          let '(text, rerr) := (ReadAll readlog).1 in
          let! werr := call (AppendFile path text) in
          match first_error werr rerr with
          | Some e => ret (Some (makeErrMsg msg (Some e)))
          | None => ret None
          end
      end
  end.

Definition stopContainer (conDef : ContainerDefinition) : RunM (option error) :=
  let msg := "failed to stop container" in
  let! r := call (ContainerInspect (CD_ID conDef)) in
  match r with
  | inr e => ret (Some (makeErrMsg msg (Some e)))
  | inl _ =>
      let! err := call (ContainerStop (containerName conDef) 0) in
      match err with
      | Some e => ret (Some (makeErrMsg msg (Some e)))
      | None => ret None
      end
  end.

Definition removeContainer (conDef : ContainerDefinition) : RunM (option error) :=
  let msgStopErr := "failed to remove container" in
  let msgRemoveVolErr := "failed to remove volume" in
  let! r := call (ContainerInspect (CD_ID conDef)) in
  match r with
  | inr e => ret (Some (makeErrMsg msgStopErr (Some e)))
  | inl (_, status) =>
      if negb (String.eqb status "exited")
      then ret (Some (makeErrMsg msgStopErr (Some "container status is not exited")))
      else
        let! err := call (ContainerRemove (containerName conDef) true true) in
        match err with
        | Some e => ret (Some (makeErrMsg msgStopErr (Some e)))
        | None =>
            let! err := delVolume conDef in
            match err with
            | Some e => ret (Some (makeErrMsg msgRemoveVolErr (Some e)))
            | None => ret None
            end
        end
  end.

Definition delDirectory (path jobID : string) : RunM (option error) :=
  let! err := call (RemoveAll (filepath_Join [path; jobID])) in
  match err with
  | Some e => ret (Some (makeErrMsg "failed to delete tmp directory" (Some e)))
  | None => ret None
  end.

Definition checkFileSize (filePath : string) (maxFileSize : Z) : RunM (option error) :=
  let msg := "The file size is larger than MaxFileSize:" +:+ FormatInt maxFileSize in
  let! r := call (StatSize filePath) in
  match r with
  | inr e => ret (Some e)
  | inl size => if maxFileSize <? size then ret (Some (makeErrMsg msg None)) else ret None
  end.

Definition s3Upload (jobId filePath fileName : string) (maxFileSize : Z) (apiClient : SseApiClient) : RunM (option error) :=
  let msg := "failed to upload file to S3" in
  let path := filepath_Join [filePath; fileName] in
  let! r := call (OpenFile path) in
  match r with
  | inr e => ret (Some (makeErrMsg msg (Some e)))
  | inl file =>
      let! err := checkFileSize path maxFileSize in
      match err with
      | Some e => ret (Some (makeErrMsg msg (Some e)))
      | None =>
          match (ReadAll file).1 with
          | (_, Some e) => ret (Some (makeErrMsg msg (Some e)))
          | (body, None) =>
              let! res := api_PatchSselog apiClient jobId body fileName "application/octet-stream" in
              match res with
              | inr e => ret (Some (makeErrMsg msg (Some e)))
              | inl _ => ret None
              end
          end
      end
  end.

Definition result_of (contents : ResultFileContents) (vpmMap : gmap Z Z) : Result :=
  let tr := TranspileResult (RFC_JobInfo contents) in
  mkResult (RFC_Counts (Sampling (RFC_Result (RFC_JobInfo contents)))) ∅
    (Some (mkTranspilerInfo (RFC_StatsRaw tr) None (RFC_VirtualPhysicalMappingRaw tr) (Some vpmMap)))
    None (RFC_JI_Message (RFC_JobInfo contents)) 0.

Definition set_data (f : JobData -> JobData) : RunM unit := modify (fun s => (s.1, f s.2)).

(** The result is stored before the status is looked at. *)
Definition setResultToOutputJob (outPath fileName : string) : RunM (option error) :=
  let msg := "Unable to get the result" in
  let! r := call (ReadFile (filepath_Join [outPath; fileName])) in
  match r with
  | inr e => ret (Some (makeErrMsg msg (Some e)))
  | inl bytes =>
      match unmarshalContents bytes with
      | (_, Some e) => ret (Some e)
      | (contents, None) =>
          let tr := TranspileResult (RFC_JobInfo contents) in
          match VirtualPhysicalMappingRaw_ToMap (RFC_VirtualPhysicalMappingRaw tr) with
          | inr e => ret (Some e)
          | inl vpmMap =>
              set_data (set_JobResult (result_of contents vpmMap)) ;;!
              set_data (set_TranspiledQASM (TranspiledProgram tr)) ;;!
              set_data (set_Transpiler (Some (RFC_TranspilerInfo contents))) ;;!
              match ToStatus (RFC_Status contents) with
              | (_, Some e) => ret (Some (makeErrMsg msg (Some e)))
              | (status, None) => set_data (set_JobStatus status) ;;! ret None
              end
          end
      end
  end.

Definition errBeforeContainerMake (jobID hostPath : string) (err : error) : RunM error :=
  delDirectory hostPath jobID ;;! ret err.

(** Every step is attempted, whatever the ones before it answer. *)
Definition errAfterContainerMake (jobID : string) (conDef : ContainerDefinition) (hostPath : string) : RunM unit :=
  call (ContainerInspect (CD_ID conDef)) ;;!
  call (ContainerStop (containerName conDef) 0) ;;!
  call (ContainerRemove (containerName conDef) true true) ;;!
  delVolume conDef ;;!
  delDirectory hostPath jobID ;;!
  ret tt.

(** [errAfterContainerMake(...); return err] *)
Definition abandon (sseconf : SSEConf) (jobID : string) (conDef : ContainerDefinition) (err : error) : RunM (option error) :=
  errAfterContainerMake jobID conDef (HostPath sseconf) ;;! ret (Some err).

(** The end of a run in which log and result have been taken over. *)
Definition finish (sseconf : SSEConf) (jobID : string) (conDef : ContainerDefinition)
    (execErr copyErr : option error) (errMsgToReturn : string) : RunM (option error) :=
  let! err := stopContainer conDef in
  match err with
  | Some e => ret (Some e)
  | None =>
      let! err := removeContainer conDef in
      match err with
      | Some e => ret (Some e)
      | None =>
          let! err := delDirectory (HostPath sseconf) jobID in
          match err with
          | Some e => ret (Some e)
          | None =>
              if bool_decide (execErr = None) && bool_decide (copyErr = None) then ret None
              else ret (Some errMsgToReturn)
          end
      end
  end.

Definition user_command (sseconf : SSEConf) : string :=
  "uv run --project /app python " +:+ ContainerPathIn sseconf +:+ "/" +:+ UserProgramName sseconf
  +:+ " 1> /proc/1/fd/1 2> /proc/1/fd/2".

(** Execution of the program and what comes after it. *)
Definition run_program (sseconf : SSEConf) (jobID : string) (conDef : ContainerDefinition) (outPath : string)
    : RunM (option error) :=
  let! x := execCommandInContainer conDef sseconf "appuser" false (user_command sseconf) in
  let '(execErr, errMsgToReturn) := x in
  let! copyErr := copyResultFromContainer conDef sseconf outPath in
  let! err := saveContainerLog conDef sseconf outPath (bool_decide (execErr <> None)) in
  match err with
  | Some e => abandon sseconf jobID conDef e
  | None =>
      let! c := NewSseApiClient in
      match c with
      | inr e => abandon sseconf jobID conDef e
      | inl client =>
          let! err := s3Upload jobID outPath (SSELogFileName sseconf) (MaxFileSize sseconf) client in
          match err with
          | Some e => abandon sseconf jobID conDef e
          | None =>
              let! err := setResultToOutputJob outPath (SSEResultFileName sseconf) in
              match err with
              | Some e => abandon sseconf jobID conDef e
              | None => finish sseconf jobID conDef execErr copyErr errMsgToReturn
              end
          end
      end
  end.

Definition env_vars (sseconf : SSEConf) (outputJobJson : string) : list string :=
  ["JOB_DATA_JSON=" +:+ outputJobJson;
   "IN_PATH=" +:+ ContainerPathIn sseconf;
   "OUT_PATH=" +:+ ContainerPathOut sseconf;
   "GRPC_SSE_GATEWAY_ROUTER_HOST=" +:+ GatewayRouterLookupHost sseconf;
   "GRPC_SSE_GATEWAY_ROUTER_PORT=" +:+ FormatInt (GatewayRouterListenPort sseconf)].

Definition init_command (sseconf : SSEConf) : string :=
  "sh -c " +:+ dq +:+ "/root/init.sh " +:+ FormatInt (GatewayRouterListenPort sseconf) +:+ dq.

(** The job keeps its ID throughout. *)
Definition RunSSE (sseconf : SSEConf) : RunM (option error) :=
  let! s := get in
  let jd := s.2 in
  let jobID := ID jd in
  let inPath := filepath_Join [HostPath sseconf; jobID; HostPathIn sseconf] in
  let outPath := filepath_Join [HostPath sseconf; jobID; HostPathOut sseconf] in
  match convertJson jd with
  | (_, Some e) => let! e := errBeforeContainerMake jobID (HostPath sseconf) e in ret (Some e)
  | (outputJobJson, None) =>
      let! x := ContainerDefinition_Setup jobID (env_vars sseconf outputJobJson) (ContainerImage sseconf)
                  (GatewayRouterLookupHost sseconf) in
      match x with
      | (_, Some e) => let! e := errBeforeContainerMake jobID (HostPath sseconf) e in ret (Some e)
      | (conDef, None) =>
          let! x := createVolume conDef (ContainerDiskQuota sseconf) in
          match x with
          | (conDef, Some e) => abandon sseconf jobID conDef e
          | (conDef, None) =>
              let! x := startContainer conDef sseconf in
              match x with
              | (_, Some e) => abandon sseconf jobID conDef e
              | (containerID, None) =>
                  let conDef := SetID containerID conDef in
                  let! x := execCommandInContainer conDef sseconf "root" true (init_command sseconf) in
                  match x with
                  | (Some e, _) => abandon sseconf jobID conDef e
                  | (None, _) =>
                      let! err := copyUserProgramIntoContainer conDef sseconf inPath in
                      match err with
                      | Some e => abandon sseconf jobID conDef e
                      | None => run_program sseconf jobID conDef outPath
                      end
                  end
              end
          end
      end
  end.
End container.

(** ** What a run leaves behind *)

(** The volumes and the containers made and not removed by the calls so far. *)
Definition account (st : gset string * gset string) (ev : event) : gset string * gset string :=
  match ev with
  | Ev e a =>
      match e in sseE T return T -> gset string * gset string with
      | VolumeCreate _ _ _ => fun r => match r with inl v => ({[v]} ∪ st.1, st.2) | inr _ => st end
      | VolumeRemove v _ => fun r => match r with None => (st.1 ∖ {[v]}, st.2) | Some _ => st end
      | ContainerCreate _ _ name => fun r => match r with inl _ => (st.1, {[name]} ∪ st.2) | inr _ => st end
      | ContainerRemove name _ _ => fun r => match r with None => (st.1, st.2 ∖ {[name]}) | Some _ => st end
      | _ => fun _ => st
      end a
  end.
Definition outstanding (tr : list event) : gset string * gset string := foldl account (∅, ∅) tr.

(** The removal of a volume, a container or a directory that was refused. *)
Definition removal_refused (ev : event) : bool :=
  match ev with
  | Ev e a =>
      match e in sseE T return T -> bool with
      | VolumeRemove _ _ => fun r => match r with Some _ => true | None => false end
      | ContainerRemove _ _ _ => fun r => match r with Some _ => true | None => false end
      | RemoveAll _ => fun r => match r with Some _ => true | None => false end
      | _ => fun _ => false
      end a
  end.

(** A container that cannot be inspected or stopped, or is not stopped. *)
Definition stop_failed (ev : event) : bool :=
  match ev with
  | Ev e a =>
      match e in sseE T return T -> bool with
      | ContainerInspect _ => fun r => match r with inr _ => true | inl (_, st) => negb (String.eqb st "exited") end
      | ContainerStop _ _ => fun r => match r with Some _ => true | None => false end
      | _ => fun _ => false
      end a
  end.

Definition quiet (ev : event) : Prop := forall st, account st ev = st.

Lemma account_quiet st tr : Forall quiet tr -> foldl account st tr = st.
Proof. induction 1 as [|ev tr He _ IH]; [done|]. cbn. by rewrite He. Qed.

#[local] Arguments filepath_Join : simpl never.
#[local] Arguments NewSseApiClient : simpl never.

Ltac find_event := repeat (first [by left|right]).

Section run_facts.
Context {W : Type} `{HIO : SseIO W} `{HTr : !SseTrace W} {MR : MapRange} {GS : GlobalSetting}.
Context (sseconf : SSEConf).
Implicit Types c : ContainerDefinition.

Lemma only_extract P msg outPath l end_err :
  (forall t a, t ∈ l -> P (Ev (CreateFile (filepath_Join [outPath; entry_name t])) a)) ->
  (forall t text a, t ∈ l -> P (Ev (AppendFile (filepath_Join [outPath; entry_name t]) text) a)) ->
  only P (extract_loop msg outPath l end_err).
Proof.
  intros H1 H2. induction l as [|t l IH]; cbn [extract_loop]; only_walk.
  - apply H1. by left.
  - apply H2. by left.
  - apply IH; intros; [apply H1|apply H2]; by right.
Qed.

(** The middle of a run neither makes nor removes anything. *)
Lemma quiet_exec c user priv cmd : only quiet (execCommandInContainer c sseconf user priv cmd).
Proof. unfold execCommandInContainer. only_walk; done. Qed.

Lemma quiet_copy_in c inPath : only quiet (copyUserProgramIntoContainer c sseconf inPath).
Proof. unfold copyUserProgramIntoContainer. only_walk; done. Qed.

Lemma quiet_copy_out c outPath : only quiet (copyResultFromContainer c sseconf outPath).
Proof. unfold copyResultFromContainer. only_walk; try done. by apply only_extract. Qed.

Lemma quiet_save_log c outPath b : only quiet (saveContainerLog c sseconf outPath b).
Proof. unfold saveContainerLog. only_walk; done. Qed.

Lemma quiet_client : only quiet (NewSseApiClient (W := W) (J := JobData)).
Proof. unfold NewSseApiClient. only_walk; done. Qed.

Lemma quiet_upload jobId p f n cl : only quiet (s3Upload jobId p f n cl).
Proof. unfold s3Upload, checkFileSize, api_PatchSselog. only_walk; done. Qed.

Lemma quiet_set_result p f : only quiet (setResultToOutputJob p f).
Proof. unfold setResultToOutputJob, set_data. only_walk; done. Qed.

(** Nothing of what was there ([st]) and was made is left, and the last call has
    removed the directory. *)
Definition closed (dir : string) (st : gset string * gset string) (tr : list event) : Prop :=
  foldl account st tr = (∅, ∅) /\ last tr = Some (Ev (RemoveAll dir) None).

Definition settled (dir : string) (st : gset string * gset string) (r : option error) (tr : list event) : Prop :=
  (closed dir st tr \/ Exists (fun ev => removal_refused ev = true) tr \/
   exists ev, last tr = Some ev /\ stop_failed ev = true) /\
  (r = None -> closed dir st tr).

Lemma settled_app dir st r tr1 tr2 :
  settled dir (foldl account st tr1) r tr2 -> settled dir st r (tr1 ++ tr2).
Proof.
  assert (closed dir (foldl account st tr1) tr2 -> closed dir st (tr1 ++ tr2)) as Hc.
  { intros [H1 H2]. split; [by rewrite foldl_app|]. apply last_app_Some. by left. }
  intros [[H|[H|(ev & H & Hs)]] Hr]; (split; [|by auto]); auto.
  - right. left. apply Exists_app. by right.
  - right. right. exists ev. split; [by apply last_app_Some; left|done].
Qed.

Lemma settled_closed dir st r tr :
  foldl account st tr = (∅, ∅) -> last tr = Some (Ev (RemoveAll dir) None) -> settled dir st r tr.
Proof. intros H1 H2. by split; [left|]. Qed.

Lemma settled_stuck dir st e tr ev : last tr = Some ev -> stop_failed ev = true -> settled dir st (Some e) tr.
Proof. intros H1 H2. split; [|done]. right. right. eauto. Qed.

Lemma settled_refused dir st e tr ev : ev ∈ tr -> removal_refused ev = true -> settled dir st (Some e) tr.
Proof. intros H1 H2. split; [|done]. right. left. apply Exists_exists. eauto. Qed.

Lemma settled_quiet dir st r tr1 tr2 : Forall quiet tr1 -> settled dir st r tr2 -> settled dir st r (tr1 ++ tr2).
Proof. intros H1 H2. apply settled_app. by rewrite account_quiet. Qed.

(** A step that is quiet, then the rest of the run. *)
Lemma settled_step {A} (m : M (W * JobData) A) (k : A -> M (W * JobData) (option error)) dir st s :
  only quiet m -> (forall a s', runs (k a) s' (fun r _ tr => settled dir st r tr)) ->
  runs (bind m k) s (fun r _ tr => settled dir st r tr).
Proof. intros Hm Hk. eapply runs_after; [exact Hm|exact Hk|]. intros r tr1 tr2. apply settled_quiet. Qed.

(** At most the volume and the container of the definition are there. *)
Definition owned (c : ContainerDefinition) (st : gset string * gset string) : Prop :=
  st.1 ⊆ {[volume c]} /\ st.2 ⊆ {[containerName c]}.

Lemma owned_removed c st : owned c st -> (st.1 ∖ {[volume c]}, st.2 ∖ {[containerName c]}) = (∅, ∅).
Proof. intros [H1 H2]. by f_equal; apply subseteq_empty_difference_L. Qed.

(** The calls of the clean-up after an error. *)
Lemma runs_errAfter jobID c hostPath s :
  runs (errAfterContainerMake jobID c hostPath) s (fun _ s' tr => s'.2 = s.2 /\ exists a1 a2 a3 a4 a5,
    tr = [Ev (ContainerInspect (CD_ID c)) a1; Ev (ContainerStop (containerName c) 0) a2;
          Ev (ContainerRemove (containerName c) true true) a3; Ev (VolumeRemove (volume c) true) a4;
          Ev (RemoveAll (filepath_Join [hostPath; jobID])) a5]).
Proof. unfold errAfterContainerMake, delVolume, delDirectory. runs_walk; split; try done; eexists _, _, _, _, _; reflexivity. Qed.

Lemma settled_abandon jobID c err st s :
  owned c st ->
  runs (abandon sseconf jobID c err) s (fun r _ tr => settled (filepath_Join [HostPath sseconf; jobID]) st r tr).
Proof.
  intros Ho. apply runs_bind. eapply runs_mono; [apply runs_errAfter|]. cbn beta.
  intros _ s' ? (_ & a1 & a2 & a3 & a4 & a5 & ->). apply runs_ret. rewrite app_nil_r. split; [|done].
  destruct a3 as [e|]; [right; left; do 2 (apply Exists_cons; right); by left|].
  destruct a4 as [e|]; [right; left; do 3 (apply Exists_cons; right); by left|].
  destruct a5 as [e|]; [right; left; do 4 (apply Exists_cons; right); by left|].
  left. split; [cbn; by apply owned_removed|done].
Qed.

Lemma settled_finish jobID c execErr copyErr m st s :
  owned c st ->
  runs (finish sseconf jobID c execErr copyErr m) s (fun r _ tr => settled (filepath_Join [HostPath sseconf; jobID]) st r tr).
Proof.
  intros Ho. unfold finish, stopContainer, removeContainer, delVolume, delDirectory. runs_walk; cbn [app].
  all: first [ eapply settled_stuck; [reflexivity|done]
             | eapply settled_stuck; [reflexivity|assumption]
             | eapply (settled_refused _ _ _ _ (Ev (ContainerRemove _ _ _) (Some _))); [solve [find_event]|done]
             | eapply (settled_refused _ _ _ _ (Ev (VolumeRemove _ _) (Some _))); [solve [find_event]|done]
             | eapply (settled_refused _ _ _ _ (Ev (RemoveAll _) (Some _))); [solve [find_event]|done]
             | apply settled_closed; [cbn; by apply owned_removed|done] ].
Qed.

Lemma settled_program jobID c outPath st s :
  owned c st ->
  runs (run_program sseconf jobID c outPath) s (fun r _ tr => settled (filepath_Join [HostPath sseconf; jobID]) st r tr).
Proof.
  intros Ho. unfold run_program. apply settled_step; [apply quiet_exec|intros [execErr m] s1].
  apply settled_step; [apply quiet_copy_out|intros copyErr s2].
  apply settled_step; [apply quiet_save_log|intros [e|] s3]; [by apply settled_abandon|].
  apply settled_step; [apply quiet_client|intros [cl|e] s4]; [|by apply settled_abandon].
  apply settled_step; [apply quiet_upload|intros [e|] s5]; [by apply settled_abandon|].
  apply settled_step; [apply quiet_set_result|intros [e|] s6]; [by apply settled_abandon|].
  by apply settled_finish.
Qed.

Lemma settled_before jobID e s :
  runs (let! e := errBeforeContainerMake jobID (HostPath sseconf) e in ret (Some e)) s (fun r _ tr =>
    settled (filepath_Join [HostPath sseconf; jobID]) (∅, ∅) r tr).
Proof.
  unfold errBeforeContainerMake, delDirectory. runs_walk;
    first [ eapply (settled_refused _ _ _ _ (Ev (RemoveAll _) (Some _))); [solve [find_event]|done]
          | by apply settled_closed ].
Qed.

Lemma volume_made c quota s :
  runs (createVolume c quota) s (fun x _ tr => owned x.1 (foldl account (∅, ∅) tr)).
Proof.
  unfold createVolume. runs_walk; split; cbn; rewrite ?union_empty_r_L; first [apply empty_subseteq|reflexivity].
Qed.

Lemma container_made c st s :
  owned c st -> runs (startContainer c sseconf) s (fun _ _ tr => owned c (foldl account st tr)).
Proof.
  intros [H1 H2]. unfold startContainer. runs_walk; split; cbn; rewrite ?union_subseteq; auto.
Qed.

(** C21: A run of a user program cleans up.  Whatever Docker, the file system
    and the provider API answer, [RunSSE] returns without a panic; afterwards
    every volume and every container it made has been removed and its last call
    has removed the job's directory, unless the removal of a volume, a container
    or the directory was refused, or the last call of the run is a failed
    inspection or stop of the container, or an inspection that finds it not
    exited, on the way out.  A run that returns no error has no exception. *)
Theorem run_sse_cleans_up s :
  runs (RunSSE sseconf) s (fun r _ tr =>
    settled (filepath_Join [HostPath sseconf; ID s.2]) (∅, ∅) r tr).
Proof.
  unfold RunSSE. apply runs_get. cbn zeta. destruct (convertJson s.2) as [text [e|]]; [apply settled_before|].
  apply settled_step; [unfold ContainerDefinition_Setup; by only_walk|intros [c [e|]] s1]; [apply settled_before|].
  apply runs_bind. eapply runs_mono; [apply volume_made|]. cbn beta. intros [c1 [e|]] s2 tr Hc;
    (eapply runs_mono; [|intros r s3 tr'; apply settled_app]); [apply settled_abandon, Hc|].
  apply runs_bind. eapply runs_mono; [eapply container_made, Hc|]. cbn beta. intros [id [e|]] s3 tr' Hc';
    (eapply runs_mono; [|intros r s4 tr''; apply settled_app]); [by apply settled_abandon|].
  apply settled_step; [apply quiet_exec|intros [[e|] m] s4]; [by apply settled_abandon|].
  apply settled_step; [apply quiet_copy_in|intros [e|] s5]; [by apply settled_abandon|].
  by apply settled_program.
Qed.
(** *** The files of a run *)

(** The path whose entry a call changes. *)
Definition changed_path (ev : event) : option string :=
  match ev with
  | Ev e _ =>
      match e with
      | WriteFile p _ _ | CreateFile p | AppendFile p _ | MkdirAll p _ | RemoveAll p => Some p
      | _ => None
      end
  end.
Definition confined (dir : string) (ev : event) : Prop := forall p, changed_path ev = Some p -> under dir p.

Lemma confined_path {A} dir (e : sseE A) a p : changed_path (Ev e a) = Some p -> under dir p -> confined dir (Ev e a).
Proof. intros E H q Hq. congruence. Qed.

Lemma confined_none dir ev : changed_path ev = None -> confined dir ev.
Proof. intros E q Hq. congruence. Qed.

#[local] Ltac confined := only_walk; first [by apply confined_none | eapply confined_path; [reflexivity|]; eauto using under_refl].

Lemma confined_exec dir c user priv cmd : only (confined dir) (execCommandInContainer c sseconf user priv cmd).
Proof. unfold execCommandInContainer. confined. Qed.

Lemma confined_copy_in dir c inPath : only (confined dir) (copyUserProgramIntoContainer c sseconf inPath).
Proof. unfold copyUserProgramIntoContainer. confined. Qed.

Lemma confined_client dir : only (confined dir) (NewSseApiClient (W := W) (J := JobData)).
Proof. unfold NewSseApiClient. confined. Qed.

Lemma confined_upload dir jobId p f n cl : only (confined dir) (s3Upload jobId p f n cl).
Proof. unfold s3Upload, checkFileSize, api_PatchSselog. confined. Qed.

Lemma confined_set_result dir p f : only (confined dir) (setResultToOutputJob p f).
Proof. unfold setResultToOutputJob, set_data. confined. Qed.

Lemma confined_save_log dir c outPath b :
  under dir (filepath_Join [outPath; SSELogFileName sseconf]) -> only (confined dir) (saveContainerLog c sseconf outPath b).
Proof. intros H. unfold saveContainerLog. confined. Qed.

Lemma confined_copy_out dir c outPath :
  (forall t, under dir (filepath_Join [outPath; entry_name t])) -> only (confined dir) (copyResultFromContainer c sseconf outPath).
Proof.
  intros H. unfold copyResultFromContainer. only_walk; [by apply confined_none|].
  apply only_extract; intros; (eapply confined_path; [reflexivity|apply H]).
Qed.

Lemma confined_abandon jobID c e :
  only (confined (filepath_Join [HostPath sseconf; jobID])) (abandon sseconf jobID c e).
Proof. unfold abandon, errAfterContainerMake, delVolume, delDirectory. confined. Qed.

Lemma confined_finish jobID c x y m :
  only (confined (filepath_Join [HostPath sseconf; jobID])) (finish sseconf jobID c x y m).
Proof. unfold finish, stopContainer, removeContainer, delVolume, delDirectory. confined. Qed.

Lemma confined_before jobID e :
  only (confined (filepath_Join [HostPath sseconf; jobID])) (let! e := errBeforeContainerMake jobID (HostPath sseconf) e in ret (Some e)).
Proof. unfold errBeforeContainerMake, delDirectory. confined. Qed.

(** What the configuration and a job ID have to be like for the paths below
    the job's directory to be what they look like. *)
Record path_conf (jobID : string) : Prop := {
  pc_host : HostPath sseconf <> "";
  pc_id : normal_name jobID;
  pc_out : no_way_up (HostPathOut sseconf);
  pc_out_name : List.filter is_name (split_slash (HostPathOut sseconf)) <> [];
  pc_log : no_way_up (SSELogFileName sseconf);
  pc_program : no_way_up (UserProgramName sseconf)
}.

Lemma out_elems jobID :
  path_conf jobID ->
  let dir := filepath_Join [HostPath sseconf; jobID] in
  let outPath := filepath_Join [HostPath sseconf; jobID; HostPathOut sseconf] in
  outPath <> "" /\ rooted outPath = rooted dir /\
  path_elems outPath = path_elems dir ++ List.filter is_name (split_slash (HostPathOut sseconf)).
Proof.
  intros [Hh Hid%normal_no_way_up Ho _ _ _]. split; [by apply filepath_Join_nonempty|].
  destruct (path_elems_Join (HostPath sseconf) [jobID] Hh) as [E1 R1]; [by repeat constructor|].
  destruct (path_elems_Join (HostPath sseconf) [jobID; HostPathOut sseconf] Hh) as [E2 R2]; [by repeat constructor|].
  split; [congruence|]. rewrite E1, E2. cbn. by rewrite !app_nil_r, app_assoc.
Qed.

Lemma under_entry jobID t :
  path_conf jobID ->
  under (filepath_Join [HostPath sseconf; jobID])
    (filepath_Join [filepath_Join [HostPath sseconf; jobID; HostPathOut sseconf]; entry_name t]).
Proof.
  intros Hp. destruct (out_elems jobID Hp) as (Hne & Hr & He). destruct Hp as [_ _ Ho Hon _ _].
  assert (no_way_up (entry_name t) \/ entry_name t = "..") as [H| ->].
  { unfold entry_name. destruct (TE_IsDir t); apply path_Base_up. }
  - apply under_child; [done| |done]. split; [done|]. eexists. split; [exact He|]. by apply filter_is_name.
  - eapply under_parent; [done| |exact Hr|exact He|]; [done|]. by apply filter_is_name.
Qed.

Lemma confined_RunSSE s :
  path_conf (ID s.2) ->
  runs (RunSSE sseconf) s (fun _ _ tr => Forall (confined (filepath_Join [HostPath sseconf; ID s.2])) tr).
Proof.
  intros Hp. unfold RunSSE. apply runs_get. cbn zeta. generalize dependent (ID s.2). intros jobID Hp.
  apply (fun H : only _ _ => H s). destruct (convertJson s.2) as [text [e|] ]; [apply confined_before|].
  apply only_bind; [unfold ContainerDefinition_Setup; confined|intros [c [e|] ] ]; [apply confined_before|].
  apply only_bind; [unfold createVolume; confined|intros [c1 [e|] ] ]; [apply confined_abandon|].
  apply only_bind; [unfold startContainer; confined|intros [id [e|] ] ]; [apply confined_abandon|].
  apply only_bind; [apply confined_exec|intros [[e|] m] ]; [apply confined_abandon|].
  apply only_bind; [apply confined_copy_in|intros [e|] ]; [apply confined_abandon|].
  unfold run_program. apply only_bind; [apply confined_exec|intros [execErr m'] ].
  apply only_bind; [apply confined_copy_out; intros t; by apply under_entry|intros copyErr].
  apply only_bind; [apply confined_save_log|intros [e|] ]; [|apply confined_abandon|].
  { destruct (out_elems jobID Hp) as (Hne & Hr & He). destruct Hp. apply under_child; [done| |done].
    split; [done|]. eexists. split; [exact He|]. by apply filter_is_name. }
  apply only_bind; [apply confined_client|intros [cl|e] ]; [|apply confined_abandon].
  apply only_bind; [apply confined_upload|intros [e|] ]; [apply confined_abandon|].
  apply only_bind; [apply confined_set_result|intros [e|] ]; [apply confined_abandon|apply confined_finish].
Qed.

(** *** Log and result *)

(** What is saved as the log of a program.  When the log is saved, the
    text written to the log file is the container's log if the program ended
    without an error, and the empty text if it did not: the log of a failed
    program, which the engine has read for its own log, does not reach the user. *)
Theorem saved_log_exact c outPath failed s :
  let path := filepath_Join [outPath; SSELogFileName sseconf] in
  runs (saveContainerLog c sseconf outPath failed) s (fun r s' tr =>
    s'.2 = s.2 /\
    (r = None -> exists log, tr = [Ev (ContainerLogs (CD_ID c)) (inl (mkStream log None)); Ev (CreateFile path) None;
                                  Ev (AppendFile path (if failed then "" else log)) None])).
Proof.
  cbn zeta. unfold saveContainerLog. runs_walk; cbn [app]; (split; [done|]); try done. intros _.
  match goal with H : first_error ?a _ = None |- _ => destruct a; [done|]; revert H end.
  match goal with st : Stream |- _ => destruct st as [text err] end. destruct failed; cbn; intros ->; eauto.
Qed.

(** The files the code reads. *)
Definition reads (ev : event) : option string :=
  match ev with Ev e _ => match e with ReadFile p => Some p | _ => None end end.
Definition read_answer (ev : event) : option (string + error) :=
  match ev with
  | Ev e a => match e in sseE T return T -> option (string + error) with ReadFile _ => Some | _ => fun _ => None end a
  end.
Definition reads_nothing (ev : event) : Prop := reads ev = None.

Definition missing_result (path : string) (r : option error) (tr : list event) : Prop :=
  (exists e, Ev (ReadFile path) (inr e) ∈ tr) -> r = Some "Unable to get the result".

Lemma missing_result_app path r tr1 tr2 :
  Forall reads_nothing tr1 -> missing_result path r tr2 -> missing_result path r (tr1 ++ tr2).
Proof.
  intros H1 H2 [e He]. apply elem_of_app in He as [He|He]; [|by apply H2; exists e].
  rewrite Forall_forall in H1. by specialize (H1 _ He).
Qed.

Lemma reads_nothing_missing {m : M (W * JobData) (option error)} path s :
  only reads_nothing m -> runs m s (fun r _ tr => missing_result path r tr).
Proof.
  intros Hm. eapply runs_mono; [apply Hm|]. cbn. intros r s' tr Htr [e He].
  rewrite Forall_forall in Htr. by specialize (Htr _ He).
Qed.

Lemma no_read_abandon jobID c e : only reads_nothing (abandon sseconf jobID c e).
Proof. unfold abandon, errAfterContainerMake, delVolume, delDirectory. by only_walk. Qed.

Lemma abandon_result jobID c e s :
  runs (abandon sseconf jobID c e) s (fun r _ tr => r = Some e /\ Forall reads_nothing tr).
Proof.
  apply runs_bind. eapply runs_mono; [apply runs_errAfter|]. cbn beta.
  intros _ s' ? (_ & a1 & a2 & a3 & a4 & a5 & ->). apply runs_ret. split; [done|]. by repeat constructor.
Qed.

Lemma no_read_finish jobID c x y m : only reads_nothing (finish sseconf jobID c x y m).
Proof. unfold finish, stopContainer, removeContainer, delVolume, delDirectory. by only_walk. Qed.

Lemma no_read_exec c user priv cmd : only reads_nothing (execCommandInContainer c sseconf user priv cmd).
Proof. unfold execCommandInContainer. by only_walk. Qed.

Lemma no_read_copy_out c outPath : only reads_nothing (copyResultFromContainer c sseconf outPath).
Proof. unfold copyResultFromContainer. only_walk; [done|]. by apply only_extract. Qed.

(** What [setResultToOutputJob] does with the file it reads. *)
Lemma set_result_spec outPath fileName s :
  runs (setResultToOutputJob outPath fileName) s (fun r s' tr =>
    exists a, tr = [Ev (ReadFile (filepath_Join [outPath; fileName])) a] /\
    ((exists e, a = inr e) -> r = Some "Unable to get the result") /\
    (r = None -> exists text contents vpmMap status,
       a = inl text /\ unmarshalContents text = (contents, None) /\
       VirtualPhysicalMappingRaw_ToMap (RFC_VirtualPhysicalMappingRaw (TranspileResult (RFC_JobInfo contents))) = inl vpmMap /\
       ToStatus (RFC_Status contents) = (status, None) /\
       s'.2 = set_JobStatus status (set_Transpiler (Some (RFC_TranspilerInfo contents))
                (set_TranspiledQASM (TranspiledProgram (TranspileResult (RFC_JobInfo contents)))
                   (set_JobResult (result_of contents vpmMap) s.2)))) /\
    ID s'.2 = ID s.2 /\ JobType s'.2 = JobType s.2).
Proof.
  unfold setResultToOutputJob, set_data. runs_walk; try (apply runs_modify; [done|]); runs_walk;
    repeat (apply runs_modify; [done|]; runs_walk); cbn [app];
    (eexists; split; [reflexivity|]; split_and!; [intros [? [=]]; done|try done|done|done]).
  intros _. eexists _, _, _, _. split_and!; done.
Qed.

(** A program that leaves no result is reported as such, whatever went
    wrong.  When the result file cannot be read, the error of the run is the
    message about the result: that the program timed out, or its exit code, is
    not reported (the source keeps it for the return at the end, which is not
    reached). *)
Theorem missing_result_hides_reason jobID c outPath s :
  runs (run_program sseconf jobID c outPath) s (fun r _ tr =>
    (exists e, Ev (ReadFile (filepath_Join [outPath; SSEResultFileName sseconf])) (inr e) ∈ tr) ->
    r = Some "Unable to get the result").
Proof.
  unfold run_program.
  eapply (runs_after reads_nothing); [apply no_read_exec|intros [x m] s1|by eapply missing_result_app].
  eapply (runs_after reads_nothing); [apply no_read_copy_out|intros y s2|by eapply missing_result_app].
  eapply (runs_after reads_nothing); [unfold saveContainerLog; by only_walk|intros [e|] s3|by eapply missing_result_app];
    [apply reads_nothing_missing, no_read_abandon|].
  eapply (runs_after reads_nothing); [unfold NewSseApiClient; by only_walk|intros [cl|e] s4|by eapply missing_result_app];
    [|apply reads_nothing_missing, no_read_abandon].
  eapply (runs_after reads_nothing); [unfold s3Upload, checkFileSize, api_PatchSselog; by only_walk|intros [e|] s5|by eapply missing_result_app];
    [apply reads_nothing_missing, no_read_abandon|].
  apply runs_bind. eapply runs_mono; [apply set_result_spec|]. cbn beta. intros r s6 ? (a & -> & Hm & _).
  destruct r as [e|].
  - eapply runs_mono; [apply abandon_result|]. cbn. intros r s7 tr [-> Htr] [e' [He|He]%elem_of_cons].
    + apply Hm. apply (f_equal read_answer) in He. injection He as <-. eauto.
    + rewrite Forall_forall in Htr. by specialize (Htr _ He).
  - eapply runs_mono; [apply no_read_finish|]. cbn. intros r s7 tr Htr [e' [He|He]%elem_of_cons].
    + apply (f_equal read_answer) in He. injection He as <-. by discriminate Hm; eauto.
    + rewrite Forall_forall in Htr. by specialize (Htr _ He).
Qed.

(** *** The result of a successful run *)

(** The job [d'] that taking over the result file makes of [d]. *)
Definition taken (outPath : string) (d d' : JobData) (tr : list event) : Prop :=
  exists text contents vpmMap status,
    Ev (ReadFile (filepath_Join [outPath; SSEResultFileName sseconf])) (inl text) ∈ tr /\
    unmarshalContents text = (contents, None) /\
    VirtualPhysicalMappingRaw_ToMap (RFC_VirtualPhysicalMappingRaw (TranspileResult (RFC_JobInfo contents))) = inl vpmMap /\
    ToStatus (RFC_Status contents) = (status, None) /\
    d' = set_JobStatus status (set_Transpiler (Some (RFC_TranspilerInfo contents))
           (set_TranspiledQASM (TranspiledProgram (TranspileResult (RFC_JobInfo contents)))
              (set_JobResult (result_of contents vpmMap) d))).

Definition outcome_of (outPath : string) (d : JobData) (r : option error) (d' : JobData) (tr : list event) : Prop :=
  (r = None -> taken outPath d d' tr) /\ ID d' = ID d.

Lemma taken_app outPath d d' tr1 tr2 : taken outPath d d' tr2 -> taken outPath d d' (tr1 ++ tr2).
Proof. intros (text & c & v & st & H & Hr). exists text, c, v, st. split; [|done]. apply elem_of_app. by right. Qed.

Lemma taken_app_l outPath d d' tr1 tr2 : taken outPath d d' tr1 -> taken outPath d d' (tr1 ++ tr2).
Proof. intros (text & c & v & st & H & Hr). exists text, c, v, st. split; [|done]. apply elem_of_app. by left. Qed.

Lemma outcome_app outPath d r d' tr1 tr2 : outcome_of outPath d r d' tr2 -> outcome_of outPath d r d' (tr1 ++ tr2).
Proof. intros [H1 H2]. split; [|done]. intros Hr. by apply taken_app, H1. Qed.

Lemma keeps_extract msg outPath l end_err : keeps (extract_loop msg outPath l end_err : M (W * JobData) _).
Proof. induction l as [|t l IH]; cbn [extract_loop]; keeps_walk; done. Qed.

Lemma keeps_finish jobID c x y m : keeps (finish sseconf jobID c x y m).
Proof. unfold finish, stopContainer, removeContainer, delVolume, delDirectory. keeps_walk. Qed.

Lemma outcome_abandon outPath jobID c e s d :
  ID s.2 = ID d -> runs (abandon sseconf jobID c e) s (fun r s' tr => outcome_of outPath d r s'.2 tr).
Proof.
  intros Hd. apply runs_bind. eapply runs_mono; [apply runs_errAfter|]. cbn beta.
  intros _ s' tr (E & _). apply runs_ret. split; [done|]. by rewrite E.
Qed.

Lemma outcome_program jobID c outPath s :
  runs (run_program sseconf jobID c outPath) s (fun r s' tr => outcome_of outPath s.2 r s'.2 tr).
Proof.
  unfold run_program.
  apply (runs_keeping _ _ _ (outcome_of _ _)); [unfold execCommandInContainer; keeps_walk|intros [x m] s1 E1|by eapply outcome_app].
  apply (runs_keeping _ _ _ (outcome_of _ _)); [unfold copyResultFromContainer; keeps_walk; apply keeps_extract|intros y s2 E2|by eapply outcome_app].
  apply (runs_keeping _ _ _ (outcome_of _ _)); [unfold saveContainerLog; keeps_walk|intros [e|] s3 E3|by eapply outcome_app];
    [apply outcome_abandon; congruence|].
  apply (runs_keeping _ _ _ (outcome_of _ _)); [unfold NewSseApiClient; keeps_walk|intros [cl|e] s4 E4|by eapply outcome_app];
    [|apply outcome_abandon; congruence].
  apply (runs_keeping _ _ _ (outcome_of _ _)); [unfold s3Upload, checkFileSize, api_PatchSselog; keeps_walk|intros [e|] s5 E5|by eapply outcome_app];
    [apply outcome_abandon; congruence|].
  apply runs_bind. eapply runs_mono; [apply set_result_spec|]. cbn beta. intros r s6 ? (a & -> & _ & Hok & HID & _).
  assert (s5.2 = s.2) as E by congruence. rewrite E in *. destruct r as [e|].
  { eapply runs_mono; [apply (outcome_abandon outPath); exact HID|]. cbn beta. intros r s7 tr. apply outcome_app. }
  eapply runs_mono; [apply keeps_finish|]. cbn. intros r s7 tr ->. split; [|done]. intros _.
  destruct Hok as (text & cts & v & st & -> & H1 & H2 & H3 & H4); [done|].
  exists text, cts, v, st. split; [by left|]. auto.
Qed.

(** A run without error has stored the result file in the job. *)
Lemma outcome_RunSSE s :
  runs (RunSSE sseconf) s (fun r s' tr =>
    outcome_of (filepath_Join [HostPath sseconf; ID s.2; HostPathOut sseconf]) s.2 r s'.2 tr).
Proof.
  unfold RunSSE. apply runs_get. cbn zeta.
  set (outPath := filepath_Join [HostPath sseconf; ID s.2; HostPathOut sseconf]).
  assert (forall e s', s'.2 = s.2 -> runs (let! e := errBeforeContainerMake (ID s.2) (HostPath sseconf) e in ret (Some e)) s'
            (fun r s'' tr => outcome_of outPath s.2 r s''.2 tr)) as Hb.
  { intros e s' E. unfold errBeforeContainerMake, delDirectory. runs_walk; split; cbn; congruence. }
  destruct (convertJson s.2) as [text [e|]]; [by apply Hb|].
  apply (runs_keeping _ _ _ (outcome_of _ _)); [unfold ContainerDefinition_Setup; keeps_walk|intros [c [e|]] s1 E1|by eapply outcome_app];
    [by apply Hb|].
  apply (runs_keeping _ _ _ (outcome_of _ _)); [unfold createVolume; keeps_walk|intros [c1 [e|]] s2 E2|by eapply outcome_app];
    [apply outcome_abandon; congruence|].
  apply (runs_keeping _ _ _ (outcome_of _ _)); [unfold startContainer; keeps_walk|intros [id [e|]] s3 E3|by eapply outcome_app];
    [apply outcome_abandon; congruence|].
  apply (runs_keeping _ _ _ (outcome_of _ _)); [unfold execCommandInContainer; keeps_walk|intros [[e|] m] s4 E4|by eapply outcome_app];
    [apply outcome_abandon; congruence|].
  apply (runs_keeping _ _ _ (outcome_of _ _)); [unfold copyUserProgramIntoContainer; keeps_walk|intros [e|] s5 E5|by eapply outcome_app];
    [apply outcome_abandon; congruence|].
  replace s.2 with s5.2 by congruence. apply outcome_program.
Qed.
(** *** The delivery of the program *)

(** A call that leaves the file [path] as it is: it changes neither the file
    nor a directory above it. *)
Definition leaves (path : string) (ev : event) : Prop :=
  forall p, changed_path ev = Some p -> ~ under p path.

(** The calls so far have written [content] to [path], and left it there. *)
Definition written (path content : string) (tr : list event) : Prop :=
  exists tr1 perm tr2, tr = tr1 ++ Ev (WriteFile path content perm) None :: tr2 /\ Forall (leaves path) tr2.

Lemma written_app path content tr1 tr2 :
  written path content tr1 -> Forall (leaves path) tr2 -> written path content (tr1 ++ tr2).
Proof.
  intros (l1 & perm & l2 & -> & Hl) H. exists l1, perm, (l2 ++ tr2). rewrite <- app_assoc. split; [done|].
  by apply Forall_app.
Qed.

(** The program as it is copied into a container, and the copies and the
    executions of the user's program among the calls. *)
Definition program_file (program : string) : TarFile := mkTarFile (UserProgramName sseconf) 511 program.

Definition copied (ev : event) : option (string * string * TarFile) :=
  match ev with Ev e _ => match e with CopyToContainer id p f => Some (id, p, f) | _ => None end end.
Definition user_exec (ev : event) : option (string * ExecConfig) :=
  match ev with
  | Ev e _ =>
      match e with
      | ContainerExecCreate id cfg => if String.eqb (User cfg) "appuser" then Some (id, cfg) else None
      | _ => None
      end
  end.

(** Only the program is copied into the container, and what the user's account
    executes there is the program that was copied in before. *)
Definition delivered (program : string) (tr : list event) : Prop :=
  (forall n ev id p f, tr !! n = Some ev -> copied ev = Some (id, p, f) ->
     p = ContainerPathIn sseconf /\ f = program_file program) /\
  (forall n ev id cfg, tr !! n = Some ev -> user_exec ev = Some (id, cfg) ->
     Cmd cfg = ["sh"; "-c"; user_command sseconf] /\
     exists m, (m < n)%nat /\
       tr !! m = Some (Ev (CopyToContainer id (ContainerPathIn sseconf) (program_file program)) None)).

(** The program has been executed and ended with exit code zero. *)
Definition executed (tr : list event) : Prop :=
  exists id execID,
    Ev (ContainerExecCreate id (mkExecConfig false "appuser" true true ["sh"; "-c"; user_command sseconf] false false))
      (inl execID) ∈ tr /\
    Ev (ContainerExecAttach execID) None ∈ tr /\ Ev (ContainerExecInspect execID) (inl 0) ∈ tr.

(** A call that neither copies nor executes, and one that leaves [path] too. *)
Definition still (ev : event) : Prop := copied ev = None /\ user_exec ev = None.
Definition plain (path : string) (ev : event) : Prop := still ev /\ leaves path ev.

Lemma delivered_still program tr : Forall still tr -> delivered program tr.
Proof.
  intros H. rewrite Forall_forall in H.
  split; [intros n ev id p f Hn Hev|intros n ev id cfg Hn Hev];
    destruct (H ev (list_elem_of_lookup_2 _ _ _ Hn)); congruence.
Qed.

Lemma delivered_app program tr1 tr2 : Forall still tr1 -> delivered program tr2 -> delivered program (tr1 ++ tr2).
Proof.
  intros H [H1 H2]. destruct (delivered_still program tr1 H) as [H3 H4]. split.
  - intros n ev id p f [Hn|[_ Hn]]%lookup_app_Some; [by eapply H3|by eapply H1].
  - intros n ev id cfg [Hn|[Hle Hn]]%lookup_app_Some Hev.
    + destruct (H4 _ _ _ _ Hn Hev) as (Hc & m & Hm & Hl). split; [done|]. exists m. split; [done|]. by apply lookup_app_l_Some.
    + destruct (H2 _ _ _ _ Hn Hev) as (Hc & m & Hm & Hl). split; [done|]. exists (length tr1 + m)%nat. split; [lia|].
      rewrite lookup_app_r by lia. by replace (length tr1 + m - length tr1)%nat with m by lia.
Qed.

(** Calls after the program has been copied into the container of [c]. *)
Definition runs_it c (ev : event) : Prop :=
  copied ev = None /\ forall id cfg, user_exec ev = Some (id, cfg) ->
    id = CD_ID c /\ Cmd cfg = ["sh"; "-c"; user_command sseconf].

Lemma still_runs_it c ev : still ev -> runs_it c ev.
Proof. intros [H1 H2]. split; [done|congruence]. Qed.

Lemma delivered_copy c program tr :
  Forall (runs_it c) tr ->
  delivered program (Ev (CopyToContainer (CD_ID c) (ContainerPathIn sseconf) (program_file program)) None :: tr).
Proof.
  intros H. rewrite Forall_forall in H. split.
  - intros [|n] ev id p f; cbn; [by intros [= <-] [= <- <- <-]|].
    intros Hn Hev. destruct (H ev) as [H1 _]; [by eapply list_elem_of_lookup_2|congruence].
  - intros [|n] ev id cfg; cbn; [by intros [= <-]|].
    intros Hn Hev. destruct (H ev) as [_ H1]; [by eapply list_elem_of_lookup_2|].
    destruct (H1 _ _ Hev) as [-> Hc]. split; [done|]. exists 0%nat. split; [lia|done].
Qed.

Lemma only_mono {A} (P P' : event -> Prop) (c : M (W * JobData) A) : (forall ev, P ev -> P' ev) -> only P c -> only P' c.
Proof. intros HP H s. eapply runs_mono; [apply H|]. cbn. intros a s' tr Htr. by eapply Forall_impl. Qed.

#[local] Ltac still := only_walk; first [done | by split].

Lemma still_abandon jobID c e : only still (abandon sseconf jobID c e).
Proof. unfold abandon, errAfterContainerMake, delVolume, delDirectory. still. Qed.

Lemma still_before jobID e :
  only still (let! e := errBeforeContainerMake jobID (HostPath sseconf) e in ret (Some e)).
Proof. unfold errBeforeContainerMake, delDirectory. still. Qed.

Lemma still_finish jobID c x y m : only still (finish sseconf jobID c x y m).
Proof. unfold finish, stopContainer, removeContainer, delVolume, delDirectory. still. Qed.

(** What happens before the program is read changes no file. *)
#[local] Ltac plain := only_walk; (split; [done|by intros p]).

Lemma plain_setup path name env image host : only (plain path) (ContainerDefinition_Setup name env image host).
Proof. unfold ContainerDefinition_Setup. plain. Qed.
Lemma plain_volume path c quota : only (plain path) (createVolume c quota).
Proof. unfold createVolume. plain. Qed.
Lemma plain_start path c : only (plain path) (startContainer c sseconf).
Proof. unfold startContainer. plain. Qed.
Lemma plain_init path c cmd : only (plain path) (execCommandInContainer c sseconf "root" true cmd).
Proof. unfold execCommandInContainer. plain. Qed.

Lemma run_program_runs_it jobID c outPath : only (runs_it c) (run_program sseconf jobID c outPath).
Proof.
  unfold run_program. apply only_bind; [unfold execCommandInContainer; only_walk; (split; [done|intros id cfg; cbn; by intros [= <- <-]])|intros [x m]].
  apply (only_mono still); [apply still_runs_it|].
  apply only_bind; [unfold copyResultFromContainer; only_walk; [done|by apply only_extract]|intros y].
  apply only_bind; [unfold saveContainerLog; still|intros [e|]]; [apply still_abandon|].
  apply only_bind; [unfold NewSseApiClient; still|intros [cl|e]]; [|apply still_abandon].
  apply only_bind; [unfold s3Upload, checkFileSize, api_PatchSselog; still|intros [e|]]; [apply still_abandon|].
  apply only_bind; [unfold setResultToOutputJob, set_data; still|intros [e|]]; [apply still_abandon|apply still_finish].
Qed.

(** A run returns no error only if the program has ended well. *)
Definition ends_well (r : option error) (tr : list event) : Prop := r = None -> executed tr.

Lemma executed_app tr1 tr2 : executed tr1 -> executed (tr1 ++ tr2).
Proof.
  intros (id & x & H1 & H2 & H3). exists id, x. split_and!; apply elem_of_app; by left.
Qed.

Lemma ends_well_app r tr1 tr2 : ends_well r tr2 -> ends_well r (tr1 ++ tr2).
Proof.
  intros H Hr. destruct (H Hr) as (id & x & H1 & H2 & H3). exists id, x. split_and!; apply elem_of_app; by right.
Qed.

Lemma abandon_ends_well jobID c e s : runs (abandon sseconf jobID c e) s (fun r _ tr => ends_well r tr).
Proof. eapply runs_mono; [apply abandon_result|]. cbn. by intros r s' tr [-> _]. Qed.

Lemma exec_ends_well c s :
  runs (execCommandInContainer c sseconf "appuser" false (user_command sseconf)) s (fun x _ tr => ends_well x.1 tr).
Proof.
  unfold execCommandInContainer. runs_walk; cbn [app]; intros Hr; try done.
  match goal with H : negb (?z =? 0) = false |- _ => apply negb_false_iff, Z.eqb_eq in H as -> end.
  eexists _, _. split_and!; find_event.
Qed.

Lemma finish_exec jobID c x y m s : runs (finish sseconf jobID c x y m) s (fun r _ _ => r = None -> x = None).
Proof.
  unfold finish, stopContainer, removeContainer, delVolume, delDirectory. runs_walk; intros Hr; try done.
  match goal with H : bool_decide _ && _ = true |- _ => apply andb_true_iff in H as [H _]; by apply bool_decide_eq_true in H end.
Qed.

(** A step, then a rest that ends well only on its own. *)
Lemma ends_well_after {A} (m : M (W * JobData) A) (k : A -> M (W * JobData) (option error)) s :
  keeps m -> (forall a s', runs (k a) s' (fun r _ tr => ends_well r tr)) ->
  runs (bind m k) s (fun r _ tr => ends_well r tr).
Proof.
  intros Hm Hk. apply runs_bind. eapply runs_mono; [apply Hm|]. cbn beta. intros a s1 tr _.
  eapply runs_mono; [apply Hk|]. cbn beta. intros r s2 tr2. apply ends_well_app.
Qed.

(** The end of a run that has executed the program with the outcome [x]. *)
Lemma finish_after jobID c outPath (x : option error) y m s :
  runs (let! err := saveContainerLog c sseconf outPath (bool_decide (x <> None)) in
        match err with
        | Some e => abandon sseconf jobID c e
        | None =>
            let! cl := NewSseApiClient in
            match cl with
            | inr e => abandon sseconf jobID c e
            | inl client =>
                let! err := s3Upload jobID outPath (SSELogFileName sseconf) (MaxFileSize sseconf) client in
                match err with
                | Some e => abandon sseconf jobID c e
                | None =>
                    let! err := setResultToOutputJob outPath (SSEResultFileName sseconf) in
                    match err with
                    | Some e => abandon sseconf jobID c e
                    | None => finish sseconf jobID c x y m
                    end
                end
            end
        end) s (fun r _ _ => r = None -> x = None).
Proof.
  assert (forall e s', runs (abandon sseconf jobID c e) s' (fun r _ _ => r = None -> x = None)) as Ha.
  { intros e s'. eapply runs_mono; [apply abandon_result|]. cbn. by intros r s1 tr [-> _]. }
  apply (runs_after (fun _ => True) _ _ _ (fun r _ => r = None -> x = None)); [unfold saveContainerLog; by only_walk| |done].
  intros [e|] s1; [apply Ha|].
  apply (runs_after (fun _ => True) _ _ _ (fun r _ => r = None -> x = None)); [unfold NewSseApiClient; by only_walk| |done].
  intros [cl|e] s2; [|apply Ha].
  apply (runs_after (fun _ => True) _ _ _ (fun r _ => r = None -> x = None)); [unfold s3Upload, checkFileSize, api_PatchSselog; by only_walk| |done].
  intros [e|] s3; [apply Ha|].
  apply (runs_after (fun _ => True) _ _ _ (fun r _ => r = None -> x = None)); [unfold setResultToOutputJob, set_data; by only_walk| |done].
  intros [e|] s4; [apply Ha|apply finish_exec].
Qed.

Lemma program_ends_well jobID c outPath s :
  runs (run_program sseconf jobID c outPath) s (fun r _ tr => ends_well r tr).
Proof.
  unfold run_program. apply runs_bind. eapply runs_mono; [apply exec_ends_well|]. cbn beta. intros [x m] s1 tr1 Hx. cbn in Hx.
  apply (runs_after (fun _ => True) _ _ _ (fun r tr => ends_well r (tr1 ++ tr)));
    [unfold copyResultFromContainer; only_walk; [done|by apply only_extract]| |].
  2: { intros r tr2 tr3 _ H Hr. destruct (H Hr) as (id & execID & H1 & H2 & H3). exists id, execID.
       rewrite !elem_of_app in *. naive_solver. }
  intros y s2. eapply runs_mono; [apply finish_after|]. cbn beta. intros r s3 tr3 Hf Hr.
  apply executed_app, Hx. by apply Hf.
Qed.

Lemma ends_well_RunSSE s : runs (RunSSE sseconf) s (fun r _ tr => ends_well r tr).
Proof.
  unfold RunSSE. apply runs_get. cbn zeta.
  assert (forall e s', runs (let! e := errBeforeContainerMake (ID s.2) (HostPath sseconf) e in ret (Some e)) s'
            (fun r _ tr => ends_well r tr)) as Hb.
  { intros e s'. unfold errBeforeContainerMake, delDirectory. by runs_walk. }
  destruct (convertJson s.2) as [text [e|]]; [apply Hb|].
  apply ends_well_after; [unfold ContainerDefinition_Setup; keeps_walk|intros [c [e|]] s1]; [apply Hb|].
  apply ends_well_after; [unfold createVolume; keeps_walk|intros [c1 [e|]] s2]; [apply abandon_ends_well|].
  apply ends_well_after; [unfold startContainer; keeps_walk|intros [id [e|]] s3]; [apply abandon_ends_well|].
  apply ends_well_after; [unfold execCommandInContainer; keeps_walk|intros [[e|] m] s4]; [apply abandon_ends_well|].
  apply ends_well_after; [unfold copyUserProgramIntoContainer; keeps_walk|intros [e|] s5]; [apply abandon_ends_well|].
  apply program_ends_well.
Qed.

(** A file system: a file reads as it was last written, if no other call has
    touched it or a directory above it since. *)
Class FileSystem : Prop := {
  read_written : forall path content (w : W) text,
    written path content (trace w) -> (io (ReadFile path) w).1 = inl text -> text = content
}.

(** The directory RunSSE reads the program from. *)
Definition in_path (jobID : string) : string := filepath_Join [HostPath sseconf; jobID; HostPathIn sseconf].
Definition program_path (jobID : string) : string := filepath_Join [in_path jobID; UserProgramName sseconf].

Section delivery.
Context `{HFS : FileSystem}.
Context (path program : string).

(** A step that leaves the program where it is, then the rest of the run. *)
Lemma delivered_step {A} (m : M (W * JobData) A) (k : A -> M (W * JobData) (option error)) s :
  only (plain path) m -> written path program (trace s.1) ->
  (forall a s', written path program (trace s'.1) -> runs (k a) s' (fun _ _ tr => delivered program tr)) ->
  runs (bind m k) s (fun _ _ tr => delivered program tr).
Proof.
  intros Hm Hw Hk. apply runs_bind. eapply runs_mono; [apply runs_traced, Hm|]. cbn beta. intros a s1 tr [E Hp].
  eapply runs_mono; [apply Hk|].
  - rewrite E. apply written_app; [done|]. eapply Forall_impl; [exact Hp|]. by intros ev [_ ?].
  - cbn beta. intros r s2 tr2 H. apply delivered_app; [|done]. eapply Forall_impl; [exact Hp|]. by intros ev [? _].
Qed.

Lemma delivered_only (m : M (W * JobData) (option error)) s :
  only still m -> runs m s (fun _ _ tr => delivered program tr).
Proof. intros H. eapply runs_mono; [apply H|]. cbn beta. intros r s' tr. apply delivered_still. Qed.

Lemma delivered_rest jobID c inPath outPath s :
  filepath_Join [inPath; UserProgramName sseconf] = path -> written path program (trace s.1) ->
  runs (let! err := copyUserProgramIntoContainer c sseconf inPath in
        match err with
        | Some e => abandon sseconf jobID c e
        | None => run_program sseconf jobID c outPath
        end) s (fun _ _ tr => delivered program tr).
Proof.
  intros Hpath Hw. unfold copyUserProgramIntoContainer. rewrite Hpath.
  apply runs_bind, runs_bind. apply runs_call. intros a w1 Hr. pose proof (read_written path program s.1) as Hread.
  rewrite Hr in Hread. cbn in Hread.
  assert (forall e s' tr, Forall still tr ->
    runs (abandon sseconf jobID c e) s' (fun _ _ tr' => delivered program (tr ++ tr'))) as Ha.
  { intros e s' tr Htr. eapply runs_mono; [apply still_abandon|]. cbn beta. intros r s2 tr' H.
    apply delivered_still. by apply Forall_app. }
  destruct a as [content|e]; [|apply runs_ret; apply (Ha _ _ [_]); by repeat constructor].
  rewrite (Hread content Hw eq_refl). destruct (tar_header _ _ _) as [e|]; [apply runs_ret; apply (Ha _ _ [_]); by repeat constructor|].
  apply runs_bind, runs_call. intros [e|] w2 _; apply runs_ret; cbn [app].
  - eapply runs_mono; [apply still_abandon|]. cbn beta. intros r s2 tr' H. split.
    + intros [|[|n]] ev id p f; cbn; [by intros [= <-]|by intros [= <-] [= <- <- <-]|]. intros Hn Hev.
      rewrite Forall_forall in H. destruct (H ev (list_elem_of_lookup_2 _ _ _ Hn)). congruence.
    + intros [|[|n]] ev id cfg; cbn; [by intros [= <-]|by intros [= <-]|]. intros Hn Hev.
      rewrite Forall_forall in H. destruct (H ev (list_elem_of_lookup_2 _ _ _ Hn)). congruence.
  - eapply runs_mono; [apply run_program_runs_it|]. cbn beta. intros r s2 tr' H.
    apply (delivered_app program [_]); [by repeat constructor|]. by apply delivered_copy.
Qed.

Lemma delivered_RunSSE s :
  program_path (ID s.2) = path -> written path program (trace s.1) ->
  runs (RunSSE sseconf) s (fun _ _ tr => delivered program tr).
Proof.
  intros Hpath Hw. unfold RunSSE. apply runs_get. cbn zeta.
  destruct (convertJson s.2) as [text [e|]]; [apply delivered_only, still_before|].
  apply delivered_step; [apply plain_setup|done|]. intros [c [e|]] s1 H1; [apply delivered_only, still_before|].
  apply delivered_step; [apply plain_volume|done|]. intros [c1 [e|]] s2 H2; [apply delivered_only, still_abandon|].
  apply delivered_step; [apply plain_start|done|]. intros [id [e|]] s3 H3; [apply delivered_only, still_abandon|].
  apply delivered_step; [apply plain_init|done|]. intros [[e|] m] s4 H4; [apply delivered_only, still_abandon|].
  by apply delivered_rest.
Qed.
End delivery.

(** *** The types of a result file *)

(** A count of the job, which is a [uint32]. *)
Definition counts_typed (m : gmap string Z) : Prop := map_Forall (fun _ v => in_u32 v) m.

Lemma into_struct_keeps {A} (P : A -> Prop) ty (assign : string -> decoder A) cur t :
  (forall name a t, P a -> P (assign name a t).1) -> P cur -> P (into_struct ty assign cur t).1.
Proof.
  intros Ha Hc. unfold into_struct. destruct (Parse t) as [[]|]; try done. destruct (raw_object t) as [ms|]; [|done].
  cut (forall acc : A * option error, P acc.1 -> P (foldl (fun acc kv =>
    let '(v, e) := assign (fold_name kv.1) acc.1 kv.2 in (v, first_error acc.2 e)) acc ms).1); [intros H; by apply H|].
  induction ms as [|[k u] ms IH]; intros acc Hacc; [done|]. cbn [foldl]. apply IH.
  specialize (Ha (fold_name (k, u).1) acc.1 (k, u).2 Hacc). by destruct (assign _ _ _).
Qed.

Lemma decode_uint32_range j : in_u32 (decode_uint 32 "uint32" j).1.
Proof.
  unfold in_u32, decode_uint. destruct j; try (cbn; lia). destruct (ParseUint _ 64) as [n|e] eqn:E; [|cbn; lia].
  apply ParseUint_range in E; [|lia]. case_match eqn:Hlt; [|cbn; lia]. apply Z.ltb_lt in Hlt. cbn [fst]. lia.
Qed.

Lemma into_counts_typed cur t : counts_typed cur -> counts_typed (into_counts cur t).1.
Proof.
  intros Hc. unfold into_counts. destruct (Parse t) as [[| | | | |l]|]; try done. cbn [decode_map_from].
  cut (forall acc : gmap string Z * option error, counts_typed acc.1 -> counts_typed (foldl (fun acc kv =>
    let '(v, e) := decode_uint 32 "uint32" kv.2 in (<[kv.1 := v]> acc.1, first_error acc.2 e)) acc l).1);
    [intros H; by apply H|].
  induction l as [|[k j] l IH]; intros acc Hacc; [done|]. cbn [foldl]. apply IH.
  pose proof (decode_uint32_range (k, j).2) as Hr. destruct (decode_uint 32 "uint32" _) as [v e]. cbn in *.
  by apply map_Forall_insert_2.
Qed.

Lemma contents_typed text : counts_typed (RFC_Counts (Sampling (RFC_Result (RFC_JobInfo (unmarshalContents text).1)))).
Proof.
  unfold unmarshalContents, unmarshal_into. destruct (Valid text); [|done].
  apply (into_struct_keeps (fun f => counts_typed (RFC_Counts (Sampling (RFC_Result (RFC_JobInfo f)))))); [|done].
  intros name f t Hf. repeat (case_match; cbn [fst RFC_JobInfo]; try done).
  match goal with H : into_job_info ?a ?b = (?v, _) |- _ => replace v with (into_job_info a b).1 by (by rewrite H); clear H end.
  apply (into_struct_keeps (fun i => counts_typed (RFC_Counts (Sampling (RFC_Result i))))); [|done].
  intros name1 info t1 Hi. repeat (case_match; cbn [fst RFC_Result]; try done).
  match goal with H : into_result ?a ?b = (?v, _) |- _ => replace v with (into_result a b).1 by (by rewrite H); clear H end.
  apply (into_struct_keeps (fun r => counts_typed (RFC_Counts (Sampling r)))); [|done].
  intros name2 res t2 Hres. repeat (case_match; cbn [fst Sampling]; try done).
  match goal with H : into_sampling ?a ?b = (?v, _) |- _ => replace v with (into_sampling a b).1 by (by rewrite H); clear H end.
  apply (into_struct_keeps (fun x => counts_typed (RFC_Counts x))); [|done].
  intros name3 smp t3 Hx. repeat (case_match; cbn [fst RFC_Counts]; try done).
  match goal with H : into_counts ?a ?b = (?v, _) |- _ => replace v with (into_counts a b).1 by (by rewrite H); clear H end.
  by apply into_counts_typed.
Qed.

(** The text of a member of the object [t], by its folded name. *)
Definition member_of (t name u : string) : Prop :=
  exists ms k, raw_object t = Some ms /\ (k, u) ∈ ms /\ fold_name k = name.

Lemma raw_object_object t ms : raw_object t = Some ms -> exists l, Parse t = Some (JObj l).
Proof. unfold raw_object. destruct (Parse t) as [[]|]; try done. eauto. Qed.

(** A struct decoded without an error has decoded each of its members so. *)
Lemma struct_member {A} ty (assign : string -> decoder A) cur t v name u :
  into_struct ty assign cur t = (v, None) -> member_of t name u -> exists cur', (assign name cur' u).2 = None.
Proof.
  intros H (ms & k & Hms & Hin & <-). unfold into_struct in H. destruct (raw_object_object _ _ Hms) as [l El].
  rewrite El, Hms in H. revert H. generalize (@None error) at 1 as e0. revert cur.
  induction ms as [|[k1 u1] ms IH] in Hin |- *; [by apply elem_of_nil in Hin|]. intros cur e0. cbn [foldl fst snd].
  destruct (assign (fold_name k1) cur u1) as [v1 e1] eqn:E1. intros H.
  apply elem_of_cons in Hin as [[= <- <-]|Hin]; [|by eapply IH].
  exists cur. rewrite E1. destruct e1 as [e|]; [|done]. exfalso.
  assert (exists e', first_error e0 (Some e) = Some e') as [e' Ee] by (destruct e0; cbn; eauto).
  rewrite Ee in H. revert H. generalize v1. clear. induction ms as [|[k u] ms IH]; intros v1; cbn [foldl fst snd]; [done|].
  destruct (assign _ v1 u) as [v2 e2]. cbn. apply IH.
Qed.

(** A number that is a [uint32] as it stands, or null. *)
Definition count_fits (j : json) : Prop :=
  j = JNull \/ exists lit n, j = JNum lit /\ ParseUint lit 64 = inl n /\ 0 <= n < 2 ^ 32.

Lemma decode_uint32_fits j : (decode_uint 32 "uint32" j).2 = None -> count_fits j.
Proof.
  unfold decode_uint, count_fits. destruct j as [| |lit| | |]; try done; [by left|].
  destruct (ParseUint lit 64) as [n|e] eqn:E; [|done]. destruct (n <? 2 ^ 32) eqn:Hlt; [|done]. intros _. right.
  exists lit, n. apply Z.ltb_lt in Hlt. pose proof (ParseUint_range _ 64 _ ltac:(lia) E). split_and!; [done|done|lia|lia].
Qed.

Lemma into_counts_fits cur t l : (into_counts cur t).2 = None -> Parse t = Some (JObj l) -> Forall (fun kv => count_fits kv.2) l.
Proof.
  intros H E. unfold into_counts in H. rewrite E in H. cbn [decode_map_from] in H. revert H.
  assert (forall (acc : gmap string Z * option error), (foldl (fun acc kv =>
    let '(v, e) := decode_uint 32 "uint32" kv.2 in (<[kv.1 := v]> acc.1, first_error acc.2 e)) acc l).2 = None ->
    acc.2 = None /\ Forall (fun kv => count_fits kv.2) l) as Hall; [|intros H; by apply (Hall (cur, None))].
  clear E. induction l as [|[k j] l IH]; intros acc; [done|]. cbn [foldl snd fst].
  destruct (decode_uint 32 "uint32" j) as [v e] eqn:Ej. intros [H1 H2]%IH. cbn in H1.
  destruct acc.2, e; try done. split; [done|]. constructor; [|done]. apply decode_uint32_fits. cbn. by rewrite Ej.
Qed.

(** Every count of the file, however often its object occurs, fits. *)
Definition file_counts_fit (text : string) : Prop :=
  forall t1 t2 t3 t4 l, member_of text "job_info" t1 -> member_of t1 "result" t2 -> member_of t2 "sampling" t3 ->
    member_of t3 "counts" t4 -> Parse t4 = Some (JObj l) -> Forall (fun kv => count_fits kv.2) l.

Lemma contents_counts_fit text contents : unmarshalContents text = (contents, None) -> file_counts_fit text.
Proof.
  intros H t1 t2 t3 t4 l H1 H2 H3 H4 Hl. unfold unmarshalContents, unmarshal_into in H.
  destruct (Valid text); [|done].
  eapply struct_member in H as [c1 H]; [|exact H1]. cbn in H.
  destruct (into_job_info _ t1) as [v1 e1] eqn:E1. cbn in H. subst e1.
  eapply struct_member in E1 as [c2 H]; [|exact H2]. cbn in H.
  destruct (into_result _ t2) as [v2 e2] eqn:E2. cbn in H. subst e2.
  eapply struct_member in E2 as [c3 H]; [|exact H3]. cbn in H.
  destruct (into_sampling _ t3) as [v3 e3] eqn:E3. cbn in H. subst e3.
  eapply struct_member in E3 as [c4 H]; [|exact H4]. cbn in H.
  destruct (into_counts _ t4) as [v4 e4] eqn:E4. cbn in H. subst e4.
  eapply into_counts_fits; [|exact Hl]. by rewrite E4.
Qed.

(** C29: whatever the user's program leaves, a run that returns no error has
    taken over a well typed result file.  A file was read at the result path
    and decoded without an error; its status is the word of a status the engine
    knows, and the job has that status; every number among its counts is a
    [uint32] as it stands, none wraps around, and the job's counts are those of
    the file; its qubit mapping decodes, and the job has the mapping and the
    configuration of the file. *)
Theorem sse_result_typed s :
  runs (RunSSE sseconf) s (fun r s' tr => r = None ->
    exists text contents vpmMap,
      let path := filepath_Join [filepath_Join [HostPath sseconf; ID s.2; HostPathOut sseconf]; SSEResultFileName sseconf] in
      let transpiled := TranspileResult (RFC_JobInfo contents) in
      Ev (ReadFile path) (inl text) ∈ tr /\ unmarshalContents text = (contents, None) /\
      RFC_Status contents = Status_String (JobStatus s'.2) /\
      file_counts_fit text /\ counts_typed (Counts (JobResult s'.2)) /\
      Counts (JobResult s'.2) = RFC_Counts (Sampling (RFC_Result (RFC_JobInfo contents))) /\
      VirtualPhysicalMappingRaw_ToMap (RFC_VirtualPhysicalMappingRaw transpiled) = inl vpmMap /\
      Result_TranspilerInfo (JobResult s'.2) =
        Some (mkTranspilerInfo (RFC_StatsRaw transpiled) None (RFC_VirtualPhysicalMappingRaw transpiled) (Some vpmMap)) /\
      Transpiler s'.2 = Some (RFC_TranspilerInfo contents)).
Proof.
  eapply runs_mono; [apply outcome_RunSSE|]. cbn beta. intros r s' tr [H _] Hr.
  destruct (H Hr) as (text & cts & v & st & Hin & Hc & Hv & Hst & ->). pose proof (contents_typed text) as Ht. rewrite Hc in Ht.
  exists text, cts, v. cbn zeta. split; [exact Hin|]. split; [exact Hc|].
  split; [by apply ToStatus_sound in Hst|]. split; [by eapply contents_counts_fit|]. by split_and!.
Qed.
End run_facts.
