(* ===== verification/SseJob.v ===== *)
(** * Server-side execution jobs (sse/job.go)

    Pre-processing downloads the user program and writes it below the job's
    directory on the host; processing runs it ([RunSSE]). *)

From stdpp Require Import base gmap strings list fin_maps.
From Stdlib Require Import ZArith Lia Ascii.
From S2P Require Import Prelude GoString Json Core Setting Job Scheduler Converter GoPath Base64 SseData SseRun.

Record SSEJob := mkSSEJob { sj_jobData : JobData; UserProgramData : string }.

#[global] Program Instance SSEJob_data : HasJobData SSEJob :=
  {| jd := sj_jobData; with_jd d j := mkSSEJob d (UserProgramData j) |}.
Next Obligation. reflexivity. Qed.
Next Obligation. by intros []. Qed.
Next Obligation. reflexivity. Qed.

Section sse_job.
Context {W : Type} `{HIO : SseIO W} `{HC : GoClock W} `{HDM : IDBManager W} {MR : MapRange} {GS : GlobalSetting}.
Context (sseconf : SSEConf).
Abbreviation JobM := (M (W * SSEJob)).

Definition SSEJob_New (d : JobData) : SSEJob := mkSSEJob d "".

Definition downloadUserProgram (jobID : string) (apiClient : SseApiClient) : JobM (string + error) :=
  let! body := api_GetSsesrc apiClient jobID in
  match body with
  | inr e => ret (inr e)
  | inl b => ret (inl b)
  end.

Definition makeUserProgramFile (userprogramData inputDirPath userProgramName : string) : JobM (option error) :=
  match DecodeString userprogramData with
  | inr e => ret (Some ("failed to decode user program. Reason:" +:+ e))
  | inl decoded =>
      let! err := call (WriteFile (filepath_Join [inputDirPath; userProgramName]) decoded 384) in
      match err with
      | Some e => ret (Some ("failed to write user program to file. Reason:" +:+ e))
      | None => ret None
      end
  end.

Definition makeTmpDir (jobID baseDir : string) : JobM (string * string * option error) :=
  let dirPath := filepath_Join [baseDir; jobID] in
  let inputDirPath := filepath_Join [dirPath; "in"] in
  let! err := call (MkdirAll inputDirPath 448) in
  match err with
  | Some e => ret (dirPath, inputDirPath, Some ("failed to make temp directory for input. Reason:" +:+ e))
  | None =>
      let outputDirPath := filepath_Join [dirPath; "out"] in
      let! err := call (MkdirAll outputDirPath 448) in
      match err with
      | Some e => ret (dirPath, inputDirPath, Some ("failed to make temp directory for output. Reason:" +:+ e))
      | None => ret (dirPath, inputDirPath, None)
      end
  end.

Definition deleteTmpDir (dirPath : string) : JobM (option error) := call (RemoveAll dirPath).

Definition SSEJob_preProcessImpl : JobM (option error) :=
  let! d := get_jd in
  let! err := on_world (db_Insert d) in
  match err with
  | Some e => ret (Some e)
  | None =>
      let! c := NewSseApiClient in
      match c with
      | inr e => ret (Some e)
      | inl apiClient =>
          let! r := downloadUserProgram (ID d) apiClient in
          match r with
          | inr e => ret (Some e)
          | inl userprogramData =>
              modify (fun s => (s.1, mkSSEJob (sj_jobData s.2) userprogramData)) ;;!
              let! x := makeTmpDir (ID d) (HostPath sseconf) in
              match x with
              | (_, _, Some e) => ret (Some e)
              | (dirPath, inputDirPath, None) =>
                  let! err := makeUserProgramFile userprogramData inputDirPath (UserProgramName sseconf) in
                  match err with
                  | Some e => deleteTmpDir dirPath ;;! ret (Some e)
                  | None => ret None
                  end
              end
          end
      end
  end.

Definition SSEJob_PreProcess : JobM unit :=
  let! err := SSEJob_preProcessImpl in
  match err with
  | Some e => SetFailureWithError e ;;! ret tt
  | None => ret tt
  end.

Definition SSEJob_Process : JobM unit :=
  let! startTime := on_world Now in
  let! err := zoom (RunSSE sseconf) in
  match err with
  | Some e => SetFailureWithError e ;;! ret tt
  | None =>
      let! now := on_world Now in
      upd_jd (upd_Result (set_ExecutionTime (time_Sub now startTime))) ;;!
      let! now := on_world Now in
      upd_jd (set_Ended now)
  end.

Definition SSEJob_PostProcess : JobM unit := ret tt.

Definition SSEJob_IsFinished (j : SSEJob) : outcome bool :=
  Ret (bool_decide (JobStatus (jd j) = SUCCEEDED) || bool_decide (JobStatus (jd j) = FAILED)).

Definition SSEJob_JobType : string := SSE_JOB.
Definition SSEJob_UpdateJobData (d : JobData) (j : SSEJob) : SSEJob := mkSSEJob d (UserProgramData j).

(** The copy does not carry the program. *)
Definition SSEJob_Clone (j : SSEJob) : SSEJob := mkSSEJob (JobData_Clone (sj_jobData j)) "".

#[global] Program Instance SSEJob_job : IJob W SSEJob :=
  {| PreProcess := SSEJob_PreProcess; Process := SSEJob_Process; PostProcess := SSEJob_PostProcess;
     IsFinished := SSEJob_IsFinished; Clone := SSEJob_Clone |}.
Next Obligation. intros [[] ?]. reflexivity. Qed.
End sse_job.

(** ** Properties *)

#[local] Arguments RunSSE : simpl never.
#[local] Arguments SSEJob_PreProcess : simpl never.
#[local] Arguments SSEJob_Process : simpl never.

(** The clock, the database manager and the database channel make none of the
    calls of the package. *)
Class SseElsewhere (W : Type) `{SseIO W} `{!SseTrace W} `{GoClock W} `{IDBManager W} := {
  trace_Now : forall w, trace (Now w).2 = trace w;
  trace_Insert : forall d w, trace (db_Insert d w).2 = trace w
}.

Section sse_facts.
Context {W : Type} `{HIO : SseIO W} `{HTr : !SseTrace W} `{HC : GoClock W} `{HDM : IDBManager W}
  `{HE : !SseElsewhere W} {MR : MapRange} {GS : GlobalSetting}.
Context (sseconf : SSEConf).

Lemma runs_zoom {A} (c : M (W * JobData) A) (s : W * SSEJob) Q :
  runs c (s.1, jd s.2) (fun a s' tr => Q a (s'.1, with_jd s'.2 s.2) tr) -> runs (zoom c) s Q.
Proof. unfold runs, zoom. destruct (c _) as [[a|m] [w' d]]; done. Qed.

Lemma runs_Now (s : W * SSEJob) Q :
  (forall t w', trace w' = trace s.1 -> Q t (w', s.2) []) -> runs (on_world Now) s Q.
Proof.
  intros H. unfold runs, on_world. pose proof (trace_Now s.1) as E. destruct (Now s.1) as [t w']. cbn in *.
  exists []. rewrite app_nil_r. auto.
Qed.

Lemma runs_Insert d (s : W * SSEJob) Q :
  (forall e w', trace w' = trace s.1 -> Q e (w', s.2) []) -> runs (on_world (db_Insert d)) s Q.
Proof.
  intros H. unfold runs, on_world. pose proof (trace_Insert d s.1) as E. destruct (db_Insert d s.1) as [t w']. cbn in *.
  exists []. rewrite app_nil_r. auto.
Qed.

Lemma runs_upd f (s : W * SSEJob) Q : Q tt (s.1, with_jd (f (jd s.2)) s.2) [] -> runs (upd_jd f) s Q.
Proof. intros H. by apply runs_modify. Qed.

Lemma runs_fail e (s : W * SSEJob) Q :
  (forall t w', trace w' = trace s.1 -> Q tt (w', with_jd (SetFailureWithErrorToJobData t e (jd s.2)) s.2) []) ->
  runs (SetFailureWithError e ;;! ret tt) s Q.
Proof.
  intros H. unfold runs, SetFailureWithError, bind, modify, ret. pose proof (trace_Now s.1) as E.
  destruct (Now s.1) as [t w']. cbn in *. exists []. rewrite app_nil_r. auto.
Qed.

(** *** Files *)

Definition job_dir (jobID : string) : string := filepath_Join [HostPath sseconf; jobID].

Lemma runs_get_jd {A} (k : JobData -> M (W * SSEJob) A) s Q : runs (k (jd s.2)) s Q -> runs (bind get_jd k) s Q.
Proof. done. Qed.

(** The directory for the input, and the paths pre-processing changes. *)
Definition input_dir (jobID : string) : string := filepath_Join [job_dir jobID; "in"].

Lemma job_paths jobID :
  path_conf sseconf jobID ->
  under (job_dir jobID) (input_dir jobID) /\ under (job_dir jobID) (filepath_Join [job_dir jobID; "out"]) /\
  under (job_dir jobID) (filepath_Join [input_dir jobID; UserProgramName sseconf]).
Proof.
  intros Hp. assert (job_dir jobID <> "") as Hne by (apply filepath_Join_nonempty, Hp).
  assert (under (job_dir jobID) (input_dir jobID)) as Hin by (apply under_child; [done|apply under_refl|by repeat constructor]).
  split; [done|]. split; [apply under_child; [done|apply under_refl|by repeat constructor]|].
  apply under_child; [by apply filepath_Join_nonempty|done|apply Hp].
Qed.

#[local] Ltac confine :=
  first [by apply confined_none | eapply confined_path; [reflexivity|]; first [assumption|apply under_refl]].

(** What pre-processing does: the job's data stays, only the job's directory is
    changed, and success means that the program has been written. *)
Lemma preprocess_spec (s : W * SSEJob) :
  let jobID := ID (jd s.2) in
  runs (SSEJob_preProcessImpl sseconf) s (fun r s' tr =>
    sj_jobData s'.2 = sj_jobData s.2 /\
    (path_conf sseconf jobID -> Forall (confined (job_dir jobID)) tr) /\
    (r = None -> exists cl content,
       Ev (GetSsesrc cl jobID) (inl (GetSsesrcOK (mkStream (UserProgramData s'.2) None))) ∈ tr /\
       DecodeString (UserProgramData s'.2) = inl content /\
       last tr = Some (Ev (WriteFile (filepath_Join [input_dir jobID; UserProgramName sseconf]) content 384) None))).
Proof.
  unfold SSEJob_preProcessImpl, NewSseApiClient, downloadUserProgram, api_GetSsesrc, makeTmpDir, makeUserProgramFile, deleteTmpDir.
  cbn zeta. apply runs_get_jd. apply runs_bind, runs_Insert. intros [e|] w1 _; runs_walk; try (apply runs_modify; [done|]; runs_walk); cbn [app]; fold (job_dir (ID (jd s.2))); fold (input_dir (ID (jd s.2))).
  all: (split; [done|]); split;
    [intros (H1 & H2 & H3)%job_paths; repeat (constructor; [confine|]); constructor|try done].
  intros _. match goal with st : Stream |- _ => destruct st as [text err]; cbn in *; simplify_eq end.
  eexists _, _. split; [find_event|]. split; [eassumption|reflexivity].
Qed.

(** What a pre-processing that did not fail leaves: the program of the job, as
    it was downloaded, at [path]. *)
Definition downloaded (jobID path : string) (program : string) (tr : list event) : Prop :=
  exists cl data, Ev (GetSsesrc cl jobID) (inl (GetSsesrcOK (mkStream data None))) ∈ tr /\
    DecodeString data = inl program /\ last tr = Some (Ev (WriteFile path program 384) None).

Lemma preprocess_runs (s : W * SSEJob) :
  runs (SSEJob_PreProcess sseconf) s (fun _ s' tr =>
    (path_conf sseconf (ID (jd s.2)) -> Forall (confined (job_dir (ID (jd s.2)))) tr) /\
    (JobStatus (jd s'.2) = FAILED \/ jd s'.2 = jd s.2 /\ exists program,
       downloaded (ID (jd s.2)) (filepath_Join [input_dir (ID (jd s.2)); UserProgramName sseconf]) program tr) /\
    ID (jd s'.2) = ID (jd s.2)).
Proof.
  apply runs_bind. eapply runs_mono; [apply preprocess_spec|]. cbn beta zeta. intros [e|] s1 tr (E & Hc & Hok).
  - apply runs_fail. intros t w' _. rewrite app_nil_r. split; [done|]. cbn. rewrite E. by split; [left|].
  - apply runs_ret. rewrite app_nil_r. split; [done|]. cbn. rewrite E. split; [right|done]. split; [done|].
    destruct Hok as (cl & program & H1 & H2 & H3); [done|]. exists program, cl, (UserProgramData s1.2). by split_and!.
Qed.

(** C23: The files of a job stay in its directory.  For a job ID that is a plain
    name and a configuration without ways up, pre-processing and processing
    return, and every file or directory they create, write or remove on the host
    is the job's directory or below it, whatever the archive read from the
    container names. *)
Theorem sse_files_confined (s : W * SSEJob) :
  path_conf sseconf (ID (jd s.2)) ->
  let dir := filepath_Join [HostPath sseconf; ID (jd s.2)] in
  runs (SSEJob_PreProcess sseconf) s (fun _ _ tr => Forall (confined dir) tr) /\
  runs (SSEJob_Process sseconf) s (fun _ _ tr => Forall (confined dir) tr).
Proof.
  intros Hp dir. split.
  - eapply runs_mono; [apply preprocess_runs|]. cbn beta. intros _ s' tr [H _]. by apply H.
  - apply runs_bind, runs_Now. intros t w1 _. apply runs_bind, runs_zoom.
    eapply runs_mono; [by apply confined_RunSSE|]. cbn beta. intros [e|] s1 tr Htr.
    + apply runs_fail. intros t' w' _. by rewrite app_nil_r.
    + apply runs_bind, runs_Now. intros t2 w2 _. apply runs_bind, runs_upd.
      apply runs_bind, runs_Now. intros t3 w3 _. apply runs_upd. by rewrite !app_nil_r.
Qed.

(** The path written to is fixed in the source, the path read from is
    configured. *)
Lemma program_path_written jobID :
  path_conf sseconf jobID -> no_way_up (HostPathIn sseconf) ->
  List.filter is_name (split_slash (HostPathIn sseconf)) = ["in"] ->
  program_path sseconf jobID = filepath_Join [input_dir jobID; UserProgramName sseconf].
Proof.
  intros [Hh Hid%normal_no_way_up _ _ _ _] Hin Hn. unfold program_path, in_path. do 2 f_equal.
  destruct (path_elems_Join (HostPath sseconf) [jobID] Hh) as [E1 R1]; [by repeat constructor|].
  apply filepath_Join_ext; [done|by apply filepath_Join_nonempty|by symmetry|by repeat constructor|by repeat constructor|].
  unfold job_dir. rewrite E1. cbn. rewrite Hn, !app_nil_r. by rewrite app_assoc.
Qed.

(** *** The handler of a job *)

Context `{HD : IDBChan W SSEJob} {GF : GoFloat}.
Context (trace_send : forall j w, trace (db_send j w) = trace w).
#[local] Instance sse_job : IJob W SSEJob := SSEJob_job sseconf.

Definition result_path (jobID : string) : string :=
  filepath_Join [filepath_Join [HostPath sseconf; jobID; HostPathOut sseconf]; SSEResultFileName sseconf].

(** The job [d] carries what a result file that was read says. *)
Definition from_file (path : string) (tr : list event) (d : JobData) : Prop :=
  exists text contents,
    Ev (ReadFile path) (inl text) ∈ tr /\ unmarshalContents text = (contents, None) /\
    ToStatus (RFC_Status contents) = (JobStatus d, None) /\
    Counts (JobResult d) = RFC_Counts (Sampling (RFC_Result (RFC_JobInfo contents))) /\
    Message (JobResult d) = RFC_JI_Message (RFC_JobInfo contents) /\
    TranspiledQASM d = TranspiledProgram (TranspileResult (RFC_JobInfo contents)) /\
    Transpiler d = Some (RFC_TranspilerInfo contents).

Lemma process_runs (s : W * SSEJob) :
  runs (SSEJob_Process sseconf) s (fun _ s' tr =>
    ID (jd s'.2) = ID (jd s.2) /\
    (JobStatus (jd s'.2) = FAILED \/ from_file (result_path (ID (jd s.2))) tr (jd s'.2))).
Proof.
  apply runs_bind, runs_Now. intros t w1 _. apply runs_bind, runs_zoom.
  eapply runs_mono; [apply outcome_RunSSE|]. cbn beta. intros [e|] s1 tr [Hok HID].
  - apply runs_fail. intros t' w' _. cbn in *. by split; [|left].
  - apply runs_bind, runs_Now. intros t2 w2 _. apply runs_bind, runs_upd.
    apply runs_bind, runs_Now. intros t3 w3 _. apply runs_upd. rewrite !app_nil_r. cbn in *. split; [done|right].
    destruct Hok as (text & cts & v & st & H1 & H2 & H3 & H4 & ->); [done|]. by exists text, cts.
Qed.

Lemma from_file_mono path tr1 tr2 d b :
  from_file path tr1 d -> (forall ev, ev ∈ tr1 -> ev ∈ tr2) -> from_file path tr2 (set_UseJobInfoUpdate b d).
Proof. intros (text & cts & H & Hr) Hin. exists text, cts. split; [by apply Hin|done]. Qed.

Ltac unfold_seg :=
  unfold handle_head, handle_tail, handle_recover, worker_run, recovering, guarded,
    s_IsFinished, s_jd, s_upd, on_job, upd_jd, hist_append, send_clone, bind, get, gets, modify, lift, ret,
    l_world, l_job, l_hist, SSEJob_PostProcess, SSEJob_IsFinished in *; cbn in *.

Implicit Types l : Local W SSEJob.

Lemma sse_head l r l' :
  handle_head l = (Ret r, l') -> JobStatus (jd (l_job l)) <> SUCCEEDED ->
  ID (jd (l_job l')) = ID (jd (l_job l)) /\ JobStatus (jd (l_job l')) <> SUCCEEDED.
Proof.
  intros H Hl. unfold_seg. case_bool_decide as HR; cbn in H; [|by injection H as <- <-].
  pose proof (preprocess_runs (l.1.1, with_jd (set_UseJobInfoUpdate false (jd l.1.2)) l.1.2)) as HP. unfold runs in HP. cbn in HP.
  destruct (SSEJob_PreProcess sseconf _) as [[[]|m] [w1 j1]]; [|done]. destruct HP as (tr & _ & _ & Hst & HID). cbn in *.
  assert (JobStatus (sj_jobData j1) <> SUCCEEDED) as Hn by (destruct Hst as [Hst|[-> _]]; [by rewrite Hst|done]).
  destruct (bool_decide (JobStatus (sj_jobData j1) = SUCCEEDED) || _) eqn:F; cbn in H; rewrite ?F in H; cbn in H; by injection H as <- <-.
Qed.

Lemma sse_worker l l' :
  worker_run l = (Ret tt, l') ->
  ID (jd (l_job l')) = ID (jd (l_job l)) /\
  (JobStatus (jd (l_job l')) = FAILED \/ from_file (result_path (ID (jd (l_job l)))) (trace (l_world l')) (jd (l_job l'))).
Proof.
  unfold_seg. match goal with |- context [SSEJob_Process sseconf ?x] => pose proof (process_runs x) as HP end. unfold runs in HP. cbn in HP.
  destruct (SSEJob_Process sseconf _) as [[[]|m] [w1 j1]]; [|done]. destruct HP as (tr & E & HID & Hst). cbn in *.
  intros [= <-]. cbn. split; [done|]. destruct Hst as [Hst|(text & cts & Hin & Hr)]; [by left|right].
  exists text, cts. split; [|done]. rewrite E. apply elem_of_app. by right.
Qed.

Lemma sse_tail jid l again l' :
  handle_tail jid l = (Ret again, l') ->
  ID (jd (l_job l')) = ID (jd (l_job l)) /\ JobStatus (jd (l_job l')) = JobStatus (jd (l_job l)) /\
  (again = true -> JobStatus (jd (l_job l')) <> SUCCEEDED) /\
  forall path, from_file path (trace (l_world l)) (jd (l_job l)) -> from_file path (trace (l_world l')) (jd (l_job l')).
Proof.
  unfold_seg. destruct (bool_decide (JobStatus (sj_jobData l.1.2) = SUCCEEDED) || _) eqn:F; cbn; rewrite ?F; cbn.
  - intros [= <- <-]. split_and!; [done|done|done|]. intros path H. eapply from_file_mono; [exact H|].
    intros ev. cbn. by rewrite !trace_send.
  - intros [= <- <-]. cbn. split_and!; [done|done| |].
    + intros _ HS. rewrite HS in F. done.
    + intros path H. by eapply from_file_mono.
Qed.

Lemma sse_loop fuel l b l' :
  handle_loop fuel l = (Ret b, l') -> JobStatus (jd (l_job l)) <> SUCCEEDED -> JobStatus (jd (l_job l')) = SUCCEEDED ->
  from_file (result_path (ID (jd (l_job l)))) (trace (l_world l')) (jd (l_job l')).
Proof.
  revert l. induction fuel as [|fuel IH]; intros l; cbn [handle_loop]; [unfold ret; intros [= <- <-]; done|].
  unfold bind at 1. destruct (handle_head l) as [[r|m] l1] eqn:E1; [|done]. intros H Hl HS.
  apply (sse_head _ _ _ E1) in Hl as [HID1 Hl1].
  destruct r as [jid|]; [|by injection H as <- <-]. unfold bind at 1 in H.
  destruct (worker_run l1) as [[[]|m] l2] eqn:E2; [|done]. apply sse_worker in E2 as [HID2 Hw].
  unfold bind at 1 in H. destruct (handle_tail jid l2) as [[again|m] l3] eqn:E3; [|done].
  apply sse_tail in E3 as (HID3 & Hst3 & Hagain & Hff).
  destruct again.
  - rewrite <- HID1, <- HID2, <- HID3. apply (IH l3 H); [by apply Hagain|done].
  - injection H as <- <-. rewrite HID1 in Hw. destruct Hw as [Hw|Hw]; [congruence|]. by apply Hff.
Qed.

(** *** From the upload to the container *)

(** A head that goes on to the queue has written the job's program. *)
Lemma sse_head_wrote l jid l' :
  handle_head l = (Ret (Some jid), l') ->
  ID (jd (l_job l')) = ID (jd (l_job l)) /\
  exists program tr, trace (l_world l') = trace (l_world l) ++ tr /\
    downloaded (ID (jd (l_job l)))
      (filepath_Join [input_dir (ID (jd (l_job l))); UserProgramName sseconf]) program tr.
Proof.
  intros H. unfold_seg. case_bool_decide as HR; cbn in H; [|done].
  pose proof (preprocess_runs (l.1.1, with_jd (set_UseJobInfoUpdate false (jd l.1.2)) l.1.2)) as HP. unfold runs in HP. cbn in HP.
  destruct (SSEJob_PreProcess sseconf _) as [[[]|m] [w1 j1]]; [|done]. destruct HP as (tr & Htr & _ & Hst & HID). cbn in *.
  destruct (bool_decide (JobStatus (sj_jobData j1) = SUCCEEDED) || bool_decide (JobStatus (sj_jobData j1) = FAILED)) eqn:F;
    cbn in H; rewrite ?F in H; cbn in H; [done|]. injection H as _ <-. cbn. split; [done|].
  apply orb_false_iff in F as [_ F]. apply bool_decide_eq_false in F. destruct Hst as [Hst|[_ [program Hd]]]; [done|].
  exists program, tr. rewrite trace_send. split; [exact Htr|exact Hd].
Qed.

Lemma process_delivers `{HFS : !FileSystem} program (s : W * SSEJob) :
  written (program_path sseconf (ID (jd s.2))) program (trace s.1) ->
  runs (SSEJob_Process sseconf) s (fun _ s' tr =>
    delivered sseconf program tr /\ (JobStatus (jd s'.2) = FAILED \/ executed sseconf tr)).
Proof.
  intros Hw. apply runs_bind, runs_Now. intros t w1 Ew. apply runs_bind, runs_zoom.
  eapply runs_mono; [apply runs_and; [by eapply (delivered_RunSSE sseconf); [reflexivity|cbn; rewrite Ew]|apply ends_well_RunSSE]|].
  cbn beta. intros [e|] s1 tr [Hd He].
  - apply runs_fail. intros t' w' _. rewrite app_nil_r. by split; [|left].
  - apply runs_bind, runs_Now. intros t2 w2 _. apply runs_bind, runs_upd.
    apply runs_bind, runs_Now. intros t3 w3 _. apply runs_upd. rewrite !app_nil_r. split; [done|right]. by apply He.
Qed.

Lemma sse_worker_delivers `{HFS : !FileSystem} program l r l' :
  written (program_path sseconf (ID (jd (l_job l)))) program (trace (l_world l)) -> worker_run l = (r, l') ->
  exists tr, trace (l_world l') = trace (l_world l) ++ tr /\ delivered sseconf program tr /\
    (JobStatus (jd (l_job l')) = FAILED \/ executed sseconf tr).
Proof.
  intros Hw. unfold_seg.
  match goal with |- context [SSEJob_Process sseconf ?x] => pose proof (process_delivers program x) as HP end.
  cbn in HP. rewrite trace_send in HP. specialize (HP Hw). unfold runs in HP. cbn in HP.
  destruct (SSEJob_Process sseconf _) as [[[]|m] [w1 j1]]; [|done]. destruct HP as (tr & E & Hd & Hst). cbn in *.
  rewrite trace_send in E. intros [= <- <-]. cbn. by exists tr.
Qed.

(** C24: The program that is executed is the program that was uploaded.  When
    the handler of a job gets past pre-processing, the text downloaded for the
    job decodes to a program (to the uploaded one, if the text is its base64
    encoding).  When a worker then runs the job, and what happened to the world
    in between has left the program's file alone, then nothing but this program
    is copied into the container, under the configured name and directory; every
    command the user's account executes in a container is the one that runs that
    file, and comes after a successful copy into that container; and the
    command has been executed and ended with exit code zero unless the job is
    FAILED.  A file that is left alone reads as it was written ([FileSystem]).
    The directory written to is fixed in the source, the one read from is
    configured: the configured one has to name [in]. *)
Theorem sse_program_delivered `{HFS : !FileSystem} l jid l1 :
  let jobID := ID (jd (l_job l)) in
  path_conf sseconf jobID -> no_way_up (HostPathIn sseconf) ->
  List.filter is_name (split_slash (HostPathIn sseconf)) = ["in"] ->
  handle_head l = (Ret (Some jid), l1) ->
  exists cl data program new,
    trace (l_world l1) = trace (l_world l) ++ new /\
    Ev (GetSsesrc cl jobID) (inl (GetSsesrcOK (mkStream data None))) ∈ new /\
    DecodeString data = inl program /\
    (forall uploaded, data = EncodeToString uploaded -> program = uploaded) /\
    forall l2 between r l3,
      l_job l2 = l_job l1 -> trace (l_world l2) = trace (l_world l1) ++ between ->
      Forall (leaves (program_path sseconf jobID)) between ->
      worker_run l2 = (r, l3) ->
      exists tr, trace (l_world l3) = trace (l_world l2) ++ tr /\ delivered sseconf program tr /\
        (JobStatus (jd (l_job l3)) = FAILED \/ executed sseconf tr).
Proof.
  intros jobID Hp Hin Hn H. destruct (sse_head_wrote l jid l1 H) as (HID & program & new & E & cl & data & H1 & H2 & H3).
  exists cl, data, program, new. split_and!; [done|done|done| |].
  - intros uploaded ->. rewrite DecodeString_Encode in H2. by injection H2.
  - intros l2 between r l3 Ejob Etr Hb Hrun. eapply sse_worker_delivers; [|exact Hrun]. rewrite Ejob, HID, Etr.
    apply written_app; [|done]. apply last_Some in H3 as [new' ->].
    exists (trace (l_world l) ++ new'), 384, []. rewrite E, app_assoc. split; [|constructor].
    by rewrite program_path_written.
Qed.

(** C22: A server-side job that succeeds is reported with the result of its
    program.  When the handler of a READY job ends with the job SUCCEEDED, a
    result file was read at the job's result path and decoded, its status is
    succeeded, and the job the service database makes for the cloud has the
    counts, the message and the transpiled program of that file. *)
Theorem sse_result_reported fuel l b l' :
  JobStatus (jd (l_job l)) = READY -> handleImpl fuel l = (Ret b, l') ->
  JobStatus (jd (l_job l')) = SUCCEEDED -> JobType (jd (l_job l')) = SSE_JOB ->
  exists text contents,
    Ev (ReadFile (result_path (ID (jd (l_job l))))) (inl text) ∈ trace (l_world l') /\
    unmarshalContents text = (contents, None) /\ RFC_Status contents = "succeeded" /\
    let info := RFC_JobInfo contents in
    let c := (ConvertToCloudJob (jd (SSEJob_Clone (l_job l')))).1 in
    C_Status c = "succeeded" /\
    JI_Result (C_JobInfo c) =
      OSet (mkJobResult (OSet (mkSampling (convertToAPICounts (RFC_Counts (Sampling (RFC_Result info)))) OUnset)) ONull) /\
    JI_Message (C_JobInfo c) = OSet (RFC_JI_Message info) /\
    C_TranspilerInfo c = OSet (convertToAPITranspilerInfo (Some (RFC_TranspilerInfo contents))).
Proof.
  intros HR Hrun HS HT. unfold handleImpl, guarded, recovering in Hrun.
  destruct (handle_loop fuel l) as [[b1|m] l1] eqn:E.
  2: { destruct (handle_recover_spec l1) as (l2 & H2 & _ & HF). unfold bind in Hrun. rewrite H2 in Hrun.
       injection Hrun as <- <-. congruence. }
  injection Hrun as -> ->. apply sse_loop in E; [|by rewrite HR|done].
  destruct E as (text & cts & Hin & Hdec & Hst & HC1 & HM & _ & HTr1). exists text, cts.
  split; [done|]. split; [done|]. split; [rewrite HS in Hst; by apply (ToStatus_sound _ SUCCEEDED)|].
  replace (jd (SSEJob_Clone (l_job l'))) with (jd (l_job l')) by by destruct (l_job l') as [[] ?].
  unfold ConvertToCloudJob, cloud_result. rewrite HT, HS. 
  change (bool_decide (SSE_JOB = SAMPLING_JOB) || bool_decide (SSE_JOB = MULTIPROG_MANUAL_JOB) || bool_decide (SSE_JOB = SSE_JOB)) with true.
  change (bool_decide (SSE_JOB = MULTIPROG_MANUAL_JOB)) with false. cbn in *. by rewrite HC1, HM, HTr1.
Qed.
End sse_facts.


(** ** A program that reports ready *)

(** Answers with which every step of a job succeeds: [source] is the uploaded
    program, [result] the text of every file read. *)
Definition good_answer (source result : string) {A} (e : sseE A) : A :=
  match e in sseE T return T with
  | VolumeCreate _ _ name => inl name
  | ContainerCreate _ _ name => inl name
  | ContainerInspect id => inl (id, "exited")
  | ContainerExecCreate _ _ => inl "exec"
  | ExecWait _ _ => Some None
  | ContainerExecInspect _ => inl 0
  | CopyFromContainer _ _ => inl ([], None)
  | ContainerLogs _ => inl (mkStream "" None)
  | ReadFile _ => inl result
  | OpenFile _ => inl (mkStream "" None)
  | StatSize _ => inl 0
  | GetSsesrc _ _ => inl (GetSsesrcOK (mkStream source None))
  | PatchSselog _ _ _ => inl (JobsUploadSselogResponse "")
  | NewClientWithOpts | VolumeRemove _ _ | ContainerStart _ | ContainerStop _ _ | ContainerRemove _ _ _
  | ContainerExecAttach _ | CopyToContainer _ _ _ | WriteFile _ _ _ | CreateFile _ | AppendFile _ _
  | MkdirAll _ _ | RemoveAll _ | NewApiClient _ _ => None
  end.

Section ready_loop.
Context {W : Type} `{HIO : SseIO W} `{HTr : !SseTrace W} `{HC : GoClock W} `{HDM : IDBManager W}
  `{HE : !SseElsewhere W} {MR : MapRange} {GS : GlobalSetting} `{HD : IDBChan W SSEJob}.
Context (sseconf : SSEConf) (source result program : string) (contents : ResultFileContents) (vpmMap : gmap Z Z).

(** Everything the job needs is answered, and the result says ready. *)
Record reports_ready : Prop := {
  rr_answers : forall A (e : sseE A) w, (io e w).1 = good_answer source result e;
  rr_insert : forall d w, (db_Insert d w).1 = None;
  rr_marshal : forall d, exists text, MarshalJobData d = inl text;
  rr_tar : forall n m z, tar_header n m z = None;
  rr_setting : exists key url, getParamsFromSetting = (key, url, None);
  rr_size : 0 <= MaxFileSize sseconf;
  rr_source : DecodeString source = inl program;
  rr_result : unmarshalContents result = (contents, None);
  rr_mapping : VirtualPhysicalMappingRaw_ToMap (RFC_VirtualPhysicalMappingRaw (TranspileResult (RFC_JobInfo contents))) = inl vpmMap;
  rr_ready : RFC_Status contents = "ready"
}.
Context (HR : reports_ready).

Lemma runs_good {J A} (e : sseE A) (s : W * J) Q :
  (forall w', Q (good_answer source result e) (w', s.2) [Ev e (good_answer source result e)]) -> runs (call e) s Q.
Proof.
  intros H. apply runs_call. intros a w' E. pose proof (rr_answers HR A e s.1) as Ha. rewrite E in Ha. cbn in Ha. subst a. apply H.
Qed.

#[local] Ltac good_walk :=
  repeat first
    [ apply runs_ret | apply runs_bind
    | apply runs_good; intros ?; cbn [good_answer]
    | progress cbn beta zeta iota ].

Lemma ready_exec {Q} c user priv cmd (s : W * JobData) :
  (forall w' tr, Q (None, "") (w', s.2) tr) -> runs (execCommandInContainer c sseconf user priv cmd) s Q.
Proof. intros HQ. unfold execCommandInContainer. good_walk. change (negb (0 =? 0)) with false. cbv iota. good_walk. cbn [snd]. apply HQ. Qed.

Lemma ready_result outPath fileName (s : W * JobData) :
  runs (setResultToOutputJob outPath fileName) s (fun r s' _ => r = None /\ JobStatus s'.2 = READY).
Proof.
  unfold setResultToOutputJob, set_data. good_walk. rewrite (rr_result HR). cbv iota. rewrite (rr_mapping HR), (rr_ready HR). cbv iota.
  repeat (apply runs_bind, runs_modify; [done|]). apply runs_ret. by split.
Qed.

Lemma ready_client {J Q} (s : W * J) :
  (forall w' tr cl, Q (inl cl) (w', s.2) tr) -> runs NewSseApiClient s Q.
Proof. intros HQ. unfold NewSseApiClient. destruct (rr_setting HR) as (k & u & ->). good_walk. cbn [snd]. apply HQ. Qed.

Lemma ready_setup {Q} name env image host (s : W * JobData) :
  (forall c w' tr, Q (c, None) (w', s.2) tr) -> runs (ContainerDefinition_Setup name env image host) s Q.
Proof. intros HQ. unfold ContainerDefinition_Setup. good_walk. apply HQ. Qed.

Lemma ready_volume {Q} c quota (s : W * JobData) :
  (forall c w' tr, Q (c, None) (w', s.2) tr) -> runs (createVolume c quota) s Q.
Proof. intros HQ. unfold createVolume. good_walk. apply HQ. Qed.

Lemma ready_start {Q} c (s : W * JobData) :
  (forall id w' tr, Q (id, None) (w', s.2) tr) -> runs (startContainer c sseconf) s Q.
Proof. intros HQ. unfold startContainer. good_walk. apply HQ. Qed.

Lemma ready_copy_in {Q} c inPath (s : W * JobData) :
  (forall w' tr, Q None (w', s.2) tr) -> runs (copyUserProgramIntoContainer c sseconf inPath) s Q.
Proof. intros HQ. unfold copyUserProgramIntoContainer. good_walk. rewrite (rr_tar HR). good_walk. apply HQ. Qed.

Lemma ready_copy_out {Q} c outPath (s : W * JobData) :
  (forall w' tr, Q None (w', s.2) tr) -> runs (copyResultFromContainer c sseconf outPath) s Q.
Proof. intros HQ. unfold copyResultFromContainer. good_walk. cbn [extract_loop]. good_walk. apply HQ. Qed.

Lemma ready_log {Q} c outPath b (s : W * JobData) :
  (forall w' tr, Q None (w', s.2) tr) -> runs (saveContainerLog c sseconf outPath b) s Q.
Proof. intros HQ. unfold saveContainerLog. good_walk. destruct b; cbn; good_walk; apply HQ. Qed.

Lemma ready_upload {Q} jobID p f cl (s : W * JobData) :
  (forall w' tr, Q None (w', s.2) tr) -> runs (s3Upload jobID p f (MaxFileSize sseconf) cl) s Q.
Proof.
  intros HQ. unfold s3Upload, checkFileSize, api_PatchSselog. good_walk.
  rewrite (proj2 (Z.ltb_ge _ _) (rr_size HR)). good_walk. cbn. good_walk. apply HQ.
Qed.

Lemma ready_finish {Q} jobID c (s : W * JobData) :
  (forall w' tr, Q None (w', s.2) tr) -> runs (finish sseconf jobID c None None "") s Q.
Proof.
  intros HQ. unfold finish, stopContainer, removeContainer, delVolume, delDirectory. good_walk.
  change (negb (String.eqb "exited" "exited")) with false. good_walk. cbn. good_walk. apply HQ.
Qed.

Lemma ready_run (s : W * JobData) :
  runs (RunSSE sseconf) s (fun r s' _ => r = None /\ JobStatus s'.2 = READY).
Proof.
  unfold RunSSE. apply runs_get. cbn zeta. unfold convertJson. destruct (rr_marshal HR s.2) as [text ->].
  apply runs_bind, ready_setup. intros c w1 tr1. apply runs_bind, ready_volume. intros c2 w2 tr2.
  apply runs_bind, ready_start. intros id w3 tr3. cbn zeta. apply runs_bind, ready_exec. intros w4 tr4.
  apply runs_bind, ready_copy_in. intros w5 tr5. unfold run_program. apply runs_bind, ready_exec. intros w6 tr6.
  apply runs_bind, ready_copy_out. intros w7 tr7. apply runs_bind, ready_log. intros w8 tr8.
  apply runs_bind, ready_client. intros w9 tr9 cl. apply runs_bind, ready_upload. intros w10 tr10.
  apply runs_bind. eapply runs_mono; [apply ready_result|]. intros r s' tr' [-> Hst].
  apply ready_finish. by intros w11 tr11.
Qed.

Lemma ready_process (s : W * SSEJob) :
  runs (SSEJob_Process sseconf) s (fun _ s' _ => JobStatus (jd s'.2) = READY).
Proof.
  apply runs_bind, runs_Now. intros t w1 _. apply runs_bind, runs_zoom.
  eapply runs_mono; [apply ready_run|]. cbn beta. intros r s1 tr [-> Hst].
  apply runs_bind, runs_Now. intros t2 w2 _. apply runs_bind, runs_upd.
  apply runs_bind, runs_Now. intros t3 w3 _. apply runs_upd. done.
Qed.

Lemma ready_preprocess (s : W * SSEJob) :
  runs (SSEJob_PreProcess sseconf) s (fun _ s' _ => JobStatus (jd s'.2) = JobStatus (jd s.2)).
Proof.
  unfold SSEJob_PreProcess, SSEJob_preProcessImpl. apply runs_bind, runs_get_jd, runs_bind.
  unfold runs at 1, on_world. pose proof (rr_insert HR (jd s.2) s.1) as Hi. pose proof (trace_Insert (jd s.2) s.1) as Ht.
  destruct (db_Insert _ s.1) as [o w0]. cbn in Hi, Ht. subst o. exists []. split; [by rewrite app_nil_r|].
  apply runs_bind, ready_client. intros w1 tr1 cl. unfold downloadUserProgram, api_GetSsesrc. good_walk.
  cbn. good_walk. apply runs_modify; [done|]. unfold makeTmpDir, makeUserProgramFile. good_walk.
  rewrite (rr_source HR). good_walk. done.
Qed.

#[local] Instance ready_job : IJob W SSEJob := SSEJob_job sseconf.

#[local] Ltac ready_bools :=
  change (bool_decide (READY = READY)) with true; change (bool_decide (READY = SUCCEEDED)) with false;
  change (bool_decide (READY = FAILED)) with false; cbn.

(** A whole turn of the handler leads to the next. *)
Lemma ready_turn (l : Local W SSEJob) fuel :
  JobStatus (jd (l_job l)) = READY ->
  exists l', JobStatus (jd (l_job l')) = READY /\ handle_loop (S fuel) l = handle_loop fuel l'.
Proof.
  intros Hl. cbn [handle_loop].
  unfold handle_head, handle_tail, worker_run, recovering, s_IsFinished, s_jd, s_upd, on_job, upd_jd, hist_append, send_clone,
    SSEJob_PostProcess, SSEJob_IsFinished, l_world, l_job, l_hist, bind, get, gets, modify, lift, ret in *. cbn in *.
  rewrite Hl. ready_bools.
  match goal with |- context [SSEJob_PreProcess sseconf ?x] => pose proof (ready_preprocess x) as H1 end. unfold runs in H1.
  destruct (SSEJob_PreProcess sseconf _) as [[[]|m] [w1 j1]]; [|done]. destruct H1 as (_ & _ & H1). cbn in H1. rewrite Hl in H1.
  cbn. rewrite H1. ready_bools. rewrite H1. ready_bools.
  match goal with |- context [SSEJob_Process sseconf ?x] => pose proof (ready_process x) as H2 end. unfold runs in H2.
  destruct (SSEJob_Process sseconf _) as [[[]|m] [w2 j2]]; [|done]. destruct H2 as (_ & _ & H2). cbn in H2.
  cbn. rewrite H2. ready_bools. rewrite ?H2. ready_bools. eexists. split; [|reflexivity]. done.
Qed.

(** A program that reports ready is run for ever.  When every call is
    answered well and the result file the program leaves says [ready], the
    handler of the job never returns: for every number of turns the loop is still
    running (the job is downloaded and executed again each time). *)
Theorem sse_ready_loops (l : Local W SSEJob) fuel :
  JobStatus (jd (l_job l)) = READY -> exists l', handleImpl fuel l = (Ret false, l').
Proof.
  intros Hl. unfold handleImpl, guarded, recovering.
  assert (exists l', handle_loop fuel l = (Ret false, l')) as (l' & ->); [|eauto].
  revert l Hl. induction fuel as [|fuel IH]; intros l Hl; [by eexists|].
  destruct (ready_turn l fuel Hl) as (l1 & H1 & ->). by apply IH.
Qed.
End ready_loop.

(** ** Witnesses *)

Module SseExample.
#[local] Existing Instance canonical_range.

(** A world that records the calls and answers each of them well. *)
Record World := mkWorld { calls : list event; reported : list SSEJob }.

Definition text_member (k v : string) : string := dq +:+ k +:+ dq +:+ ":" +:+ dq +:+ v +:+ dq.
Definition result_text (status : string) : string :=
  "{" +:+ text_member "status" status +:+ "," +:+ dq +:+ "job_info" +:+ dq +:+ ":{" +:+ text_member "message" "fine" +:+ "}}".
Definition program : string := "print(1)".
Definition source : string := EncodeToString program.

Section answers.
Context (result : string).
#[local] Instance World_io : SseIO World :=
  {| io A e w := (good_answer source result e, mkWorld (calls w ++ [Ev e (good_answer source result e)]) (reported w));
     tar_header _ _ _ := None; MarshalJobData _ := inl "{}"; Errorf s := s |}.
#[local] Program Instance World_trace : SseTrace World := {| trace := calls |}.
Next Obligation. reflexivity. Qed.
#[local] Instance World_clock : GoClock World := fun w => (7, w).
#[local] Instance World_manager : IDBManager World := fun _ w => (None, w).
#[local] Instance World_elsewhere : SseElsewhere World.
Proof. by constructor. Qed.
End answers.

#[local] Program Instance World_chan : IDBChan World SSEJob :=
  {| db_send j w := mkWorld (calls w) (reported w ++ [j]); db_sent := reported |}.
Next Obligation. reflexivity. Qed.
#[local] Instance float : GoFloat := {| float_json _ := "0"; f64_of_f32 z := z; seconds z := z; norm_number s := Some s |}.
#[local] Instance setting : GlobalSetting :=
  Some (mkSetting ∅ {["periodic_tasks" := DMap [("poller", DMap [("params",
    DMap [("api_key", DString "key"); ("endpoint", DString "http://localhost")])])]]}).

Definition data : JobData := set_JobType SSE_JOB (set_ID "job1" (set_JobStatus READY (NewJobData 0))).
Definition start : Local World SSEJob := ((mkWorld [] [], SSEJob_New data), ∅).
Definition container : ContainerDefinition :=
  mkContainerDefinition "job1" (mkContainerConfig "image" true [] true true) "job1" "sse-job1" "host".

Lemma plain_paths : path_conf default_SSEConf "job1".
Proof. constructor; try done; repeat constructor; done. Qed.

#[local] Existing Instance World_clock.
#[local] Existing Instance World_manager.

Section succeeded.
#[local] Instance ok_io : SseIO World := World_io (result_text "succeeded").
#[local] Instance ok_trace : SseTrace World := World_trace (result_text "succeeded").
#[local] Instance ok_elsewhere : SseElsewhere World := World_elsewhere (result_text "succeeded").
#[local] Instance ok_job : IJob World SSEJob := SSEJob_job default_SSEConf.

Definition ended : Local World SSEJob := (handleImpl 1 start).2.

Lemma run_sse_cleans_up_witness :
  runs (RunSSE default_SSEConf) (mkWorld [] [], data) (fun r _ tr =>
    settled (filepath_Join [HostPath default_SSEConf; "job1"]) (∅, ∅) r tr).
Proof. exact (run_sse_cleans_up default_SSEConf (mkWorld [] [], data)). Defined.

Lemma sse_files_confined_witness :
  runs (SSEJob_Process default_SSEConf) (mkWorld [] [], SSEJob_New data) (fun _ _ tr =>
    Forall (confined "/home/example/sse/job1") tr).
Proof. exact (proj2 (sse_files_confined default_SSEConf (mkWorld [] [], SSEJob_New data) plain_paths)). Defined.

Lemma saved_log_exact_witness :
  runs (saveContainerLog container default_SSEConf "/out" true) (mkWorld [] [], data) (fun r _ tr =>
    r = None -> exists log, tr = [Ev (ContainerLogs "job1") (inl (mkStream log None)); Ev (CreateFile "/out/ssecontainer.log") None;
                                  Ev (AppendFile "/out/ssecontainer.log" "") None]).
Proof.
  eapply runs_mono; [exact (saved_log_exact default_SSEConf container "/out" true (mkWorld [] [], data))|].
  intros r s' tr H. exact (proj2 H).
Defined.

Lemma missing_result_hides_reason_witness :
  runs (run_program default_SSEConf "job1" container "/out") (mkWorld [] [], data) (fun r _ tr =>
    (exists e, Ev (ReadFile "/out/result.json") (inr e) ∈ tr) -> r = Some "Unable to get the result").
Proof. exact (missing_result_hides_reason default_SSEConf "job1" container "/out" (mkWorld [] [], data)). Defined.

Lemma sse_result_typed_witness :
  exists text contents vpmMap,
    Ev (ReadFile (filepath_Join [filepath_Join [HostPath default_SSEConf; ID data; HostPathOut default_SSEConf];
                    SSEResultFileName default_SSEConf])) (inl text) ∈
      trace (RunSSE default_SSEConf (mkWorld [] [], data)).2.1 /\
    unmarshalContents text = (contents, None) /\ RFC_Status contents = "succeeded" /\ file_counts_fit text /\
    VirtualPhysicalMappingRaw_ToMap (RFC_VirtualPhysicalMappingRaw (TranspileResult (RFC_JobInfo contents))) = inl vpmMap.
Proof.
  destruct (runs_elim _ _ _ None (RunSSE default_SSEConf (mkWorld [] [], data)).2
    (sse_result_typed default_SSEConf (mkWorld [] [], data))) as (tr & Etr & H); [vm_compute; reflexivity|].
  assert (JobStatus (RunSSE default_SSEConf (mkWorld [] [], data)).2.2 = SUCCEEDED) as Est by (vm_compute; reflexivity).
  destruct (H eq_refl) as (text & contents & vpmMap & Hin & Hdec & Hst & Hfit & _ & _ & Hmap & _).
  rewrite Est in Hst. exists text, contents, vpmMap. rewrite Etr.
  exact (conj Hin (conj Hdec (conj Hst (conj Hfit Hmap)))).
Defined.

Lemma chan_elsewhere (j : SSEJob) (w : World) : trace (db_send j w) = trace w.
Proof. reflexivity. Qed.

Lemma sse_result_reported_witness :
  let c := (ConvertToCloudJob (jd (SSEJob_Clone (l_job ended)))).1 in
  C_Status c = "succeeded" /\ JI_Message (C_JobInfo c) = OSet "fine".
Proof.
  destruct (sse_result_reported default_SSEConf chan_elsewhere 1 start true ended)
    as (text & contents & Hin & Hdec & _ & H1 & _ & H2 & _);
    [reflexivity|vm_compute; reflexivity|vm_compute; reflexivity|vm_compute; reflexivity|].
  split; [exact H1|]. vm_compute. reflexivity.
Defined.
End succeeded.

(** A world whose files read as they were written. *)
Section stored.
Definition stored_in (path : string) (tr : list event) : option string :=
  foldl (fun cur ev =>
    match ev with
    | Ev e a =>
        match e in sseE T return T -> option string with
        | WriteFile p c _ => fun r => match r with None => if String.eqb p path then Some c else cur | Some _ => cur end
        | _ => fun _ => cur
        end a
    end) None tr.

Definition fs_answer {A} (e : sseE A) (tr : list event) : A :=
  match e in sseE T return T -> T with
  | ReadFile p => fun _ => inl (default (result_text "succeeded") (stored_in p tr))
  | _ => fun a => a
  end (good_answer source (result_text "succeeded") e).

#[local] Instance fs_io : SseIO World :=
  {| io A e w := (fs_answer e (calls w), mkWorld (calls w ++ [Ev e (fs_answer e (calls w))]) (SseExample.reported w));
     tar_header _ _ _ := None; MarshalJobData _ := inl "{}"; Errorf s := s |}.
#[local] Program Instance fs_trace : SseTrace World := {| trace := calls |}.
Next Obligation. reflexivity. Qed.
#[local] Instance fs_elsewhere : SseElsewhere World.
Proof. by constructor. Qed.
#[local] Instance fs_job : IJob World SSEJob := SSEJob_job default_SSEConf.

#[local] Instance fs_files : FileSystem.
Proof.
  constructor. intros path content w text (tr1 & perm & tr2 & E & Hl). cbn. unfold trace, fs_trace in E. rewrite E.
  assert (stored_in path (tr1 ++ Ev (WriteFile path content perm) None :: tr2) = Some content) as ->; [|by intros [=]].
  unfold stored_in. rewrite foldl_app. cbn [foldl]. rewrite String.eqb_refl. clear E.
  induction Hl as [|[A e a] tr2 He Hl IH]; [done|]. cbn [foldl]. destruct e; try exact IH.
  destruct a as [err|]; [exact IH|]. destruct (String.eqb_spec path0 path) as [->|]; [|exact IH].
  exfalso. apply (He path); [done|apply under_refl].
Qed.

Lemma fs_chan (j : SSEJob) (w : World) : trace (db_send j w) = trace w.
Proof. reflexivity. Qed.

Definition headed : Local World SSEJob := (handle_head start).2.
Definition worked : Local World SSEJob := (worker_run headed).2.

(** The text an answer of the provider API holds. *)
Definition source_of (ev : event) : option string :=
  match ev with
  | Ev e a =>
      match e in sseE T return T -> option string with
      | GetSsesrc _ _ => fun r => match r with inl (GetSsesrcOK b) => Some (st_text b) | _ => None end
      | _ => fun _ => None
      end a
  end.

Lemma sse_program_delivered_witness :
  exists tr, trace (l_world worked) = trace (l_world headed) ++ tr /\ delivered default_SSEConf program tr /\
    executed default_SSEConf tr.
Proof.
  destruct (sse_program_delivered default_SSEConf fs_chan start "job1" headed)
    as (cl & text & prog & new & Enew & Hin & _ & Hup & Hrun);
    [exact plain_paths|repeat constructor; done|reflexivity|vm_compute; reflexivity|].
  assert (text = EncodeToString program) as Etext.
  { assert (Forall (fun o => o = None \/ o = Some source) (source_of <$> trace (l_world headed))) as Hall
      by (vm_compute; repeat (constructor; [first [by left|by right]|]); constructor).
    rewrite Enew, fmap_app in Hall. apply Forall_app in Hall as [_ Hall]. rewrite Forall_forall in Hall.
    destruct (Hall _ (list_elem_of_fmap_2 source_of _ _ Hin)) as [H|H]; cbn in H; [done|]. by injection H as ->. }
  destruct (Hrun headed [] (Ret tt) worked) as (tr & Etr & Hd & He);
    [reflexivity|by rewrite app_nil_r|constructor|vm_compute; reflexivity|].
  exists tr. rewrite (Hup program Etext) in Hd. split; [exact Etr|]. split; [exact Hd|].
  destruct He as [He|He]; [|exact He]. vm_compute in He. discriminate He.
Defined.
End stored.

Section ready.
#[local] Instance rd_io : SseIO World := World_io (result_text "ready").
#[local] Instance rd_trace : SseTrace World := World_trace (result_text "ready").
#[local] Instance rd_elsewhere : SseElsewhere World := World_elsewhere (result_text "ready").

Definition ready_contents : ResultFileContents := (unmarshalContents (result_text "ready")).1.

Lemma always_ready : reports_ready default_SSEConf source (result_text "ready") program ready_contents ∅.
Proof.
  constructor; try done; first [by eexists|by eexists _, _|apply DecodeString_Encode|vm_compute; reflexivity].
Qed.

Lemma sse_ready_loops_witness :
  exists l', handleImpl (IJ := SSEJob_job default_SSEConf) 3 start = (Ret false, l').
Proof. exact (sse_ready_loops default_SSEConf source (result_text "ready") program ready_contents ∅ always_ready start 3 eq_refl). Defined.
End ready.
End SseExample.
