(* ===== verification/SseRouter.v ===== *)
(** * The gateway of user programs (sse/router/sse_gateway_router.go)

    A user program in its container asks the router to transpile and execute a
    circuit.  [TranspileAndExec] is the handler of such a request: it decodes the
    text of the request, checks it against the device, and calls transpiler and
    QPU manager.  The handler runs outside the scheduler; nothing recovers a
    panic in it. *)

From stdpp Require Import base gmap strings list fin_maps.
From Stdlib Require Import ZArith Lia Ascii.
From S2P Require Import Prelude GoString Json Core Job Converter Tranqu SseData.

Record UserReqData := mkUserReqData {
  UR_ID : string;
  UR_Qasm : string;
  UR_Shots : Z;
  UR_Transpiler : option TranspilerConfig
}.

Definition empty_request : UserReqData := mkUserReqData "" "" 0 None.

Definition assign_request (name : string) : decoder UserReqData := fun r t =>
  if String.eqb name "id" then
    let '(v, e) := into_string (UR_ID r) t in (mkUserReqData v (UR_Qasm r) (UR_Shots r) (UR_Transpiler r), e)
  else if String.eqb name "qasm" then
    let '(v, e) := into_string (UR_Qasm r) t in (mkUserReqData (UR_ID r) v (UR_Shots r) (UR_Transpiler r), e)
  else if String.eqb name "shots" then
    let '(v, e) := into_uint (UR_Shots r) t in (mkUserReqData (UR_ID r) (UR_Qasm r) v (UR_Transpiler r), e)
  else if String.eqb name "transpiler_info" then
    let '(v, e) := into_ptr empty_config into_config (UR_Transpiler r) t in
    (mkUserReqData (UR_ID r) (UR_Qasm r) (UR_Shots r) v, e)
  else (r, None).
Definition into_request : decoder UserReqData := into_struct "router.UserReqData" assign_request.

(** The response to the program; a [Result] in it is its JSON text. *)
Record TranspileAndExecResponse := mkResponse {
  TE_Status : string;
  TE_Message : string;
  TE_TranspilerInfo : string;
  TE_TranspiledQasm : string;
  TE_Result : string
}.

(** The check of a program by the QPU manager. *)
Class IQPUValidate (W : Type) := QPU_Validate : W -> string -> option error.

(** How an empty map of counts is encoded: a map that was never made is null. *)
Class EmptyCounts := empty_counts : json.

(** [core.NewJobContext()]: an error while the system is not set up. *)
Class JobContexts (W : Type) := NewJobContext : W -> option error.

Definition validateShots (shots : Z) (deviceInfo : option DeviceInfo) : option error :=
  match deviceInfo with
  | None => Some "DeviceInfo is nil"
  | Some di =>
      if shots <? 1 then Some ("The number of shots " +:+ FormatInt shots +:+ " is less than 1")
      else if MaxShots di <? shots then
        Some ("The number of shots " +:+ FormatInt shots +:+ " is over the limit " +:+ FormatInt (MaxShots di))
      else None
  end.

(** The conversion of the shots wraps around. *)
Definition toJobData (now : Z) (body : string) : outcome (JobData + error) :=
  if String.eqb body "" then Ret (inr "Invalid request. Reason: body is empty")
  else
    match unmarshal_into (into_ptr empty_request into_request) None body with
    | (_, Some e) => Ret (inr e)
    | (None, None) => Panic nil_pointer
    | (Some userReq, None) =>
        let newJob := NewJobData now in
        let newJob := set_ID (UR_ID userReq) newJob in
        let newJob := set_QASM (UR_Qasm userReq) newJob in
        let newJob := set_Shots (i64 (UR_Shots userReq)) newJob in
        let newJob := set_Transpiler (UR_Transpiler userReq) newJob in
        Ret (inl newJob)
    end.

Section default_transpiler.
Context {MR : MapRange} {GF : GoFloat}.

(** [json.Unmarshal] into [map[string]interface{}]: a number out of the range
    of [float64] is an error. *)
Definition router_useDefaultTranspiler (jobDataJson : string) : outcome bool :=
  if String.eqb jobDataJson "" then Ret true
  else
    match Parse jobDataJson with
    | Some JNull => Ret false
    | Some (JObj l) =>
        match normalize (JObj l), raw_object jobDataJson with
        | Some _, Some ms =>
            match (list_to_map (reverse ms) : gmap string string) !! "transpiler_info" with
            | None => Ret false
            | Some t =>
                match Parse t with
                | Some JNull => Ret true
                | Some (JObj l) => Ret (bool_decide (l = []))
                | _ => Panic "interface conversion"
                end
            end
        | _, _ => Ret true
        end
    | _ => Ret true
    end.

(** [jd.Transpiler == nil || useDefaultTranspiler(JobDataJson)] *)
Definition needs_default (JobDataJson : string) (t : option TranspilerConfig) : outcome bool :=
  match t with None => Ret true | Some _ => router_useDefaultTranspiler JobDataJson end.
End default_transpiler.

(** [json.Marshal(jd.Transpiler)]. *)
Definition MarshalConfig (c : TranspilerConfig) : string + error :=
  match MarshalRaw (TranspilerOptions c) with
  | inr e => inr e
  | inl opts =>
      inl ("{" +:+ quote "transpiler_lib" +:+ ":" +:+ match TranspilerLib c with None => "null" | Some l => quote l end
           +:+ "," +:+ quote "transpiler_options" +:+ ":" +:+ opts +:+ "}")
  end.

Section router.
Context {W J : Type} `{HJ : HasJobData J} `{HC : GoClock W} `{HT : ITranspiler W} `{HQ : IQPUManager W}
  `{HV : IQPUValidate W} `{HX : JobContexts W} {MR : MapRange} {GF : GoFloat} {EC : EmptyCounts}.
Context (jm : JobManager J).

Definition toJob (body : string) (w : W) : outcome (J + error) * W :=
  let '(now, w) := Now w in
  match toJobData now body with
  | Panic m => (Panic m, w)
  | Ret (inr e) => (Ret (inr e), w)
  | Ret (inl d) =>
      match NewJobContext w with
      | Some e => (Ret (inr e), w)
      | None => (Ret ((NewJobFromJobData jm (set_JobType SSE_JOB d)).1), w)
      end
  end.

(** The text of the raw messages, or the empty object. *)
Definition raw_or_empty (r : option string) : string :=
  match r with None | Some "" => "{}" | Some t => t end.

(** The marshalling of strings, counts and zero numbers has no error. *)
Definition result_json (r : Result) (ti : TranspilerInfo) : string :=
  Print (JObj
    [("counts", if bool_decide (Counts r = ∅) then empty_counts else json_of_map json_u32 (Counts r));
     ("divided_result", JNull);
     ("transpiler_info", JObj [("stats", JStr (raw_or_empty (StatsRaw ti)));
                               ("virtual_physical_mapping", JStr (raw_or_empty (VirtualPhysicalMappingRaw ti)))]);
     ("estimation", JObj [("exp_value", JNum "0"); ("stds", JNum "0")]);
     ("message", JStr (Message r));
     ("execution_time", JNum "0")]).

Definition failed_response (msg : string) : TranspileAndExecResponse := mkResponse (Status_String FAILED) msg "" "" "".
Definition set_message (msg : string) (res : TranspileAndExecResponse) : TranspileAndExecResponse :=
  mkResponse (TE_Status res) msg (TE_TranspilerInfo res) (TE_TranspiledQasm res) (TE_Result res).

(** The end of the request: the answer is made from the job. *)
Definition respond (res : TranspileAndExecResponse) : M (W * JobData) TranspileAndExecResponse :=
  let! s := get in
  match Result_TranspilerInfo (JobResult s.2) with
  | None => gopanic nil_pointer
  | Some ti =>
      ret (mkResponse (Status_String (JobStatus s.2)) (Message (JobResult s.2)) (TE_TranspilerInfo res)
             (TE_TranspiledQasm res) (result_json (JobResult s.2) ti))
  end.

(** The QPU section. *)
Definition execute (res : TranspileAndExecResponse) : M (W * JobData) TranspileAndExecResponse :=
  let! s := get in
  let res := mkResponse (TE_Status res) (TE_Message res) (TE_TranspilerInfo res) (TranspiledQASM s.2) (TE_Result res) in
  let! err := QPU_Send in
  match err with
  | Some _ => ret (set_message "Failed to execute qpu" res)
  | None =>
      let! s := get in
      if bool_decide (JobStatus s.2 = FAILED) then ret (set_message "Failed to execute qpu" res)
      else respond res
  end.

(** The transpile section, and what follows. *)
Definition transpile_and_execute (JobDataJson : string) : M (W * JobData) TranspileAndExecResponse :=
  let! s := get in
  let! dflt := lift (needs_default JobDataJson (Transpiler s.2)) in
  let c := if dflt then DEFAULT_TRANSPILER_CONFIG else default DEFAULT_TRANSPILER_CONFIG (Transpiler s.2) in
  modify (fun s => (s.1, if dflt then set_Transpiler (Some c) s.2 else s.2)) ;;!
  let info := match MarshalConfig c with inl t => t | inr _ => "" end in
  let res := mkResponse (Status_String FAILED) "" info "" "" in
  if TranspilerConfig_NeedTranspiling c then
    let! err := Transpile in
    match err with
    | Some e => ret (set_message ("Failed to transpile: " +:+ e) res)
    | None =>
        let! s := get in
        if bool_decide (JobStatus s.2 = FAILED) then ret (set_message "Failed to transpile" res)
        else execute res
    end
  else execute res.

(** A part of the handler that has the job's data for itself. *)
Definition with_data {A} (d : JobData) (c : M (W * JobData) A) : M W A :=
  fun w => let '(r, (w', _)) := c (w, d) in (r, w').

Definition TranspileAndExec (JobDataJson : string) : M W TranspileAndExecResponse :=
  if String.eqb JobDataJson "" then
    ret (failed_response "Invalid request. The request data for transpiling is empty.")
  else
    let! j := toJob JobDataJson in
    match j with
    | inr _ => ret (failed_response "Invalid request data for transpiling.")
    | inl j =>
        let! w := get in
        match validateShots (Shots (jd j)) (QPU_GetDeviceInfo w) with
        | Some e => ret (failed_response ("Invalid shots: " +:+ e))
        | None =>
            match QPU_Validate w (QASM (jd j)) with
            | Some e => ret (failed_response ("Invalid QASM: " +:+ e))
            | None => with_data (jd j) (transpile_and_execute JobDataJson)
            end
        end
    end.
End router.

(** *** The server *)

(** [net.JoinHostPort]: a host with a colon is put in brackets. *)
Definition JoinHostPort (host port : string) : string :=
  if negb (string_forallb (fun c => negb (Ascii.eqb c ":"%char)) host) then "[" +:+ host +:+ "]:" +:+ port
  else host +:+ ":" +:+ port.

(** [server] tells that requests are served. *)
Record SSEGRPCServer := mkSSEGRPCServer { server : bool }.

(** [listen] is [net.Listen]; serving goes on in a goroutine. *)
Definition SSEGRPCServer_Setup (sconf : SSEConf) (listen : string -> option error) (m : SSEGRPCServer)
    : option error * SSEGRPCServer :=
  let url := JoinHostPort (GatewayRouterListenHost sconf) (FormatInt (GatewayRouterListenPort sconf)) in
  match listen url with
  | Some e => (Some e, m)
  | None => (None, mkSSEGRPCServer true)
  end.

Definition SSEGRPCServer_TearDown (m : SSEGRPCServer) : SSEGRPCServer := m.

(** ** Properties *)

(** *** Shots *)

Lemma decode_uint_range bits ty j n : 0 <= bits -> decode_uint bits ty j = (n, None) -> 0 <= n < 2 ^ bits.
Proof.
  intros Hb. assert (0 < 2 ^ bits) by (apply Z.pow_pos_nonneg; lia). unfold decode_uint.
  destruct j; try (intros [= <-]; lia); try done. destruct (ParseUint _ 64) as [m|e] eqn:E; [|done].
  apply ParseUint_range in E; [|lia]. case_match eqn:Hlt; [|done]. intros [= <-]. apply Z.ltb_lt in Hlt. lia.
Qed.

(** A struct decoded without error: every member was, and what holds of the
    target and is kept by the assignments holds in the end. *)
Lemma into_struct_fold {A} (P : A -> Prop) (assign : string -> decoder A) (ms : list (string * string)) v0 e0 v :
  (forall name a t a', P a -> assign name a t = (a', None) -> P a') -> P v0 ->
  foldl (fun acc kv => let '(x, e) := assign (fold_name kv.1) acc.1 kv.2 in (x, first_error acc.2 e)) (v0, e0) ms = (v, None) ->
  e0 = None /\ P v /\ Forall (fun kv => exists a a', assign (fold_name kv.1) a kv.2 = (a', None)) ms.
Proof.
  intros HP. revert v0 e0. induction ms as [|[k t] ms IH]; intros v0 e0 H0; cbn [foldl].
  - intros [= <- ->]. auto.
  - destruct (assign (fold_name k) v0 t) as [x e] eqn:E. cbn [fst snd]. rewrite E. intros H.
    assert (first_error e0 e = None -> P x) as Hx.
    { intros He. destruct e0; [done|]. cbn in He. subst e. by eapply HP. }
    destruct (decide (first_error e0 e = None)) as [He|He].
    + destruct (IH x _ (Hx He) H) as (_ & H1 & H2). destruct e0; [done|]. cbn in He. subst e.
      split; [done|]. split; [done|]. constructor; [by eexists _, _|done].
    + exfalso. clear -H He. revert x H He. generalize (first_error e0 e) as e'. intros e' x H He. revert x e' H He.
      induction ms as [|[k t] ms IH]; intros x e' H He; cbn [foldl] in H; [congruence|].
      destruct (assign (fold_name (k, t).1) (x, e').1 (k, t).2) as [y ey]. apply (IH _ _ H). destruct e'; [done|congruence].
Qed.

Definition shots_in_range (r : UserReqData) : Prop := 0 <= UR_Shots r < 2 ^ 64.

Lemma assign_request_shots name a t a' :
  shots_in_range a -> assign_request name a t = (a', None) -> shots_in_range a'.
Proof.
  intros Ha. unfold assign_request. repeat case_match; intros [=]; subst; try done.
  match goal with H : into_uint _ _ = (?z, None) |- _ => unfold into_uint in H end.
  repeat case_match; simplify_eq; try done. by eapply decode_uint_range.
Qed.

(** What a request that decodes is like. *)
Lemma request_decoded body req :
  unmarshal_into (into_ptr empty_request into_request) None body = (Some req, None) ->
  shots_in_range req /\ exists l ms, Parse body = Some (JObj l) /\ raw_object body = Some ms /\
    Forall (fun kv => exists a a', assign_request (fold_name kv.1) a kv.2 = (a', None)) ms.
Proof.
  unfold unmarshal_into, into_ptr. destruct (Valid body); [|done].
  destruct (Parse body) as [j|] eqn:EP; [|unfold into_request, into_struct; rewrite EP; done].
  destruct j as [| | | | |l]; try done; unfold into_request, into_struct; rewrite EP; try done.
  destruct (raw_object body) as [ms|] eqn:ER; [|done].
  destruct (foldl _ _ ms) as [v e] eqn:E. intros [= <- ->].
  destruct (into_struct_fold shots_in_range assign_request ms empty_request None v) as (_ & H1 & H2);
    [apply assign_request_shots|done|exact E|]. split; [done|]. eauto.
Qed.

(** The member with the transpiler is null or an object. *)
Lemma transpiler_member a t a' :
  assign_request "transpiler_info" a t = (a', None) -> Parse t = Some JNull \/ exists l, Parse t = Some (JObj l).
Proof.
  unfold assign_request. cbn. unfold into_ptr, into_config, into_struct.
  destruct (Parse t) as [[]|]; try (by eauto); cbn; done.
Qed.

(** C34: The number of shots of a request is checked exactly.  The shots of a
    decoded request are an unsigned 64-bit number, which becomes an [int] with
    wrap-around; the check accepts it when it is at least 1 and at most the
    device's limit, and nothing else, and with a limit below 2^32 the number the
    gateway is sent (an unsigned 32-bit number) is the requested one. *)
Theorem request_shots_exact now body req d di :
  unmarshal_into (into_ptr empty_request into_request) None body = (Some req, None) ->
  toJobData now body = Ret (inl d) -> in_i64 (MaxShots di) ->
  (validateShots (Shots d) (Some di) = None <-> 1 <= UR_Shots req <= MaxShots di) /\
  (validateShots (Shots d) (Some di) = None -> MaxShots di < 2 ^ 32 -> u32 (Shots d) = UR_Shots req).
Proof.
  intros Hreq Hd Hmax. pose proof (proj1 (request_decoded body req Hreq)) as Hr.
  assert (Shots d = i64 (UR_Shots req)) as Hs.
  { unfold toJobData in Hd. destruct (String.eqb body ""); [done|]. rewrite Hreq in Hd. by injection Hd as <-. }
  unfold shots_in_range, in_i64 in *. rewrite Hs.
  assert (i64 (UR_Shots req) = if UR_Shots req <? 2 ^ 63 then UR_Shots req else UR_Shots req - 2 ^ 64) as Hw.
  { destruct (Z.ltb_spec (UR_Shots req) (2 ^ 63)); [apply i64_small; unfold in_i64; lia|].
    unfold wrapS. change (64 - 1) with 63. rewrite (Z.mod_eq _ (2 ^ 64)) by lia.
    replace ((UR_Shots req + 2 ^ 63) / 2 ^ 64) with 1; [lia|]. apply Z.div_unique with (r := UR_Shots req - 2 ^ 63); lia. }
  rewrite Hw. unfold validateShots. destruct (Z.ltb_spec (UR_Shots req) (2 ^ 63)).
  - destruct (Z.ltb_spec (UR_Shots req) 1); [split; [split; [done|lia]|done]|].
    destruct (Z.ltb_spec (MaxShots di) (UR_Shots req)); [split; [split; [done|lia]|done]|].
    split; [split; [lia|done]|]. intros _ Hm. apply u32_small. unfold in_u32. lia.
  - destruct (Z.ltb_spec (UR_Shots req - 2 ^ 64) 1); [|lia]. split; [split; [done|lia]|done].
Qed.

#[local] Arguments DEFAULT_TRANSPILER_CONFIG : simpl never.
#[local] Arguments result_json : simpl never.
#[local] Arguments transpile_and_execute : simpl never.
#[local] Arguments execute : simpl never.

(** *** Panics *)

Definition has_info (d : JobData) : Prop := Result_TranspilerInfo (JobResult d) <> None.

(** Transpiler and QPU manager return, and leave the transpiler information of
    the result in place; the transpiler is called with a library only. *)
Class SteadyServices (W : Type) `{ITranspiler W} `{IQPUManager W} := {
  steady_transpile : forall w d c, Transpiler d = Some c -> TranspilerLib c <> None -> has_info d ->
    exists r w' d', Transpile (w, d) = (Ret r, (w', d')) /\ has_info d';
  steady_send : forall w d, has_info d -> exists r w' d', QPU_Send (w, d) = (Ret r, (w', d')) /\ has_info d'
}.

Section panics.
Context {W J : Type} `{HJ : HasJobData J} `{HC : GoClock W} `{HT : ITranspiler W} `{HQ : IQPUManager W}
  `{HV : IQPUValidate W} `{HX : JobContexts W} {MR : MapRange} {GF : GoFloat} {EC : EmptyCounts}.
Context (jm : JobManager J) (new_data : forall p d, p ∈ acceptableJobs jm -> jd (proto_New p d) = d).
Context `{HS : !SteadyServices W}.

Lemma execute_returns res w d : has_info d -> exists r s, execute res (w, d) = (Ret r, s).
Proof.
  intros Hd. destruct (steady_send w d Hd) as (r & w' & d' & E & Hd').
  unfold execute, respond, bind, get. cbn. rewrite E. destruct r; [by eexists _, _|]. cbn.
  case_bool_decide; [by eexists _, _|]. cbn. unfold has_info in Hd'.
  destruct (Result_TranspilerInfo (JobResult d')) as [ti|]; [eexists _, _; reflexivity|done].
Qed.

Lemma transpile_returns body w d :
  has_info d -> (Transpiler d <> None -> exists b, router_useDefaultTranspiler body = Ret b) ->
  exists r s, transpile_and_execute body (w, d) = (Ret r, s).
Proof.
  intros Hd Hu. unfold transpile_and_execute, bind, lift, get, modify. cbn.
  assert (exists dflt, needs_default body (Transpiler d) = Ret dflt /\ (dflt = false -> Transpiler d <> None)) as (dflt & E & Hn).
  { unfold needs_default. destruct (Transpiler d); [|by exists true]. destruct Hu as [b Hb]; [done|]. by exists b. }
  rewrite E. cbn.
  set (c := if dflt then _ else _). set (d1 := if dflt then _ else _).
  assert (Transpiler d1 = Some c) as Hc.
  { unfold c, d1. destruct dflt; [by destruct d|]. destruct (Transpiler d) eqn:ET; [done|]. exfalso. by apply (Hn eq_refl). }
  assert (has_info d1) as Hd1 by (unfold d1; by destruct dflt; destruct d).
  unfold TranspilerConfig_NeedTranspiling. case_bool_decide as Hlib; [|by apply execute_returns].
  destruct (steady_transpile w d1 c Hc Hlib Hd1) as (r & w' & d' & Et & Hd'). rewrite Et.
  destruct r; [by eexists _, _|]. cbn. case_bool_decide; [by eexists _, _|]. by apply execute_returns.
Qed.

Lemma fold_name_transpiler : fold_name "transpiler_info" = "transpiler_info".
Proof. reflexivity. Qed.

Lemma use_default_returns body req :
  unmarshal_into (into_ptr empty_request into_request) None body = (Some req, None) ->
  exists b, router_useDefaultTranspiler body = Ret b.
Proof.
  intros Hreq. destruct (request_decoded body req Hreq) as (_ & l & ms & EP & ER & Hall).
  unfold router_useDefaultTranspiler. destruct (String.eqb body ""); [eauto|]. rewrite EP, ER.
  destruct (normalize _); [|eauto]. destruct (list_to_map _ !! _) as [t|] eqn:El; [|eauto].
  apply elem_of_list_to_map_2 in El. rewrite elem_of_reverse in El. rewrite Forall_forall in Hall.
  destruct (Hall _ El) as (a & a' & Ha). cbn in Ha. rewrite fold_name_transpiler in Ha.
  destruct (transpiler_member _ _ _ Ha) as [-> |[l' ->]]; eauto.
Qed.

(** A request makes the router panic exactly when its text is null.  With
    services that return, [TranspileAndExec] answers every other text; null
    decodes to a nil request, which is dereferenced, and a panic in this handler
    ends the engine. *)
Theorem router_panics_iff body w :
  (exists m w', TranspileAndExec jm body w = (Panic m, w')) <-> Parse body = Some JNull.
Proof.
  unfold TranspileAndExec. destruct (String.eqb_spec body "") as [->|Hne].
  { split; [intros (m & w' & [=])|done]. }
  unfold bind at 1, toJob. destruct (Now w) as [now w0] eqn:En. unfold toJobData.
  rewrite (proj2 (String.eqb_neq _ _) Hne).
  destruct (unmarshal_into (into_ptr empty_request into_request) None body) as [o e] eqn:Eu.
  assert (Parse body = Some JNull <-> o = None /\ e = None) as Hnull.
  { revert Eu. unfold unmarshal_into, Valid, into_ptr. destruct (Parse body) as [j|] eqn:EP; [|intros [= <- <-]; naive_solver].
    destruct j; try (destruct (into_request _ body); intros [= <- <-]; naive_solver). intros [= <- <-]. naive_solver. }
  rewrite Hnull. destruct e as [e|].
  { split; [|by intros [_ [=]]]. intros (m & w' & H). by destruct o. }
  destruct o as [req|]; [|split; [done|eauto]].
  split; [|by intros [[=] _]]. intros (m & w' & H). exfalso. revert H.
  destruct (NewJobContext w0); [done|]. unfold NewJobFromJobData.
  destruct (find _ _) as [p|] eqn:EF; [|done]. apply List.find_some, proj1, list_elem_of_In in EF. cbn. rewrite new_data by done.
  destruct (validateShots _ _); [done|]. destruct (QPU_Validate _ _); [done|]. unfold with_data.
  match goal with |- context [transpile_and_execute body (w0, ?d)] => destruct (transpile_returns body w0 d) as (r & [w1 d1] & ->) end;
    [done|intros _; by eapply use_default_returns|done].
Qed.
End panics.

(** *** What reaches the QPU *)

Section checked.
Context {W J : Type} `{HJ : HasJobData J} `{HC : GoClock W} `{HT : ITranspiler W} `{HQ : IQPUManager W}
  `{HV : IQPUValidate W} `{HX : JobContexts W} {MR : MapRange} {GF : GoFloat} {EC : EmptyCounts}.
Context (jm : JobManager J) (new_data : forall p d, p ∈ acceptableJobs jm -> jd (proto_New p d) = d).

(** The job the router makes of a request, with the transpiler it chooses. *)
Definition request_job (req : UserReqData) (d : JobData) (c : TranspilerConfig) : Prop :=
  ID d = UR_ID req /\ QASM d = UR_Qasm req /\ Shots d = i64 (UR_Shots req) /\ Transpiler d = Some c /\
  (UR_Transpiler req = Some c \/ c = DEFAULT_TRANSPILER_CONFIG).

(** The last call of a request that is answered otherwise than failed. *)
Definition executed (res : TranspileAndExecResponse) (w1 : W) (d1 : JobData) (w' : W) : Prop :=
  exists d2, QPU_Send (w1, d1) = (Ret None, (w', d2)) /\ JobStatus d2 <> FAILED /\
    TE_Status res = Status_String (JobStatus d2) /\ TE_TranspiledQasm res = TranspiledQASM d1 /\
    TE_Message res = Message (JobResult d2).

Lemma execute_executed res0 w1 d1 res w' d' :
  TE_Status res0 = "failed" -> execute res0 (w1, d1) = (Ret res, (w', d')) -> TE_Status res <> "failed" ->
  executed res w1 d1 w'.
Proof.
  intros H0. unfold execute, respond, bind, get, ret, gopanic. cbn.
  destruct (QPU_Send (w1, d1)) as [[[e|]|m] [w2 d2]] eqn:E; cbn; [intros [= <- _ _]; done| |done].
  case_bool_decide as HF; [intros [= <- _ _]; done|]. cbn.
  destruct (Result_TranspilerInfo (JobResult d2)); [|done]. intros [= <- <- <-] _. by exists d2.
Qed.

Lemma transpiled_executed body w0 d res w' d' :
  transpile_and_execute body (w0, d) = (Ret res, (w', d')) -> TE_Status res <> "failed" ->
  exists c, (Transpiler d = Some c \/ c = DEFAULT_TRANSPILER_CONFIG) /\
    let d0 := set_Transpiler (Some c) d in
    ((TranspilerLib c = None /\ executed res w0 d0 w') \/
     (TranspilerLib c <> None /\ exists w1 d1, Transpile (w0, d0) = (Ret None, (w1, d1)) /\ JobStatus d1 <> FAILED /\
        executed res w1 d1 w')).
Proof.
  unfold transpile_and_execute, bind, lift, get, modify. cbn.
  destruct (needs_default body (Transpiler d)) as [dflt|m] eqn:ED; [|done].
  assert (dflt = false -> Transpiler d <> None) as Hn.
  { intros ->. unfold needs_default in ED. by destruct (Transpiler d). }
  cbn. set (c := if dflt then _ else _).
  assert ((Transpiler d = Some c \/ c = DEFAULT_TRANSPILER_CONFIG) /\
          (if dflt then set_Transpiler (Some c) d else d) = set_Transpiler (Some c) d) as [Hc ->].
  { unfold c. destruct dflt; [by split; [right|]|]. destruct d as [? ? ? tc]. cbn in *. destruct tc; [by split; [left|]|].
    exfalso. by apply Hn. }
  intros H Hst. exists c. split; [done|]. cbn zeta. revert H. unfold TranspilerConfig_NeedTranspiling.
  case_bool_decide as Hlib; [|intros H; left; split; [destruct (TranspilerLib c); [by destruct Hlib|done]|]; by eapply execute_executed; [|exact H|done]].
  destruct (Transpile _) as [[[e|]|m] [w1 d1]] eqn:ET; [intros [= <- _ _]; done| |done].
  cbn. case_bool_decide as HF; [intros [= <- _ _]; done|]. intros H. right. split; [done|].
  exists w1, d1. split; [done|]. split; [done|]. by eapply execute_executed; [|exact H|done].
Qed.

(** C33: Only checked requests reach the QPU.  When a request is answered with a
    status other than failed, its text decoded to a request whose shots and
    program the device accepted, the program was transpiled without an error if
    the chosen transpiler (the request's, or the default) has a library, and the
    QPU was called with that job as the last step; status, message and transpiled
    program of the answer are those of the job. *)
Theorem router_executes_checked body w res w' :
  TranspileAndExec jm body w = (Ret res, w') -> TE_Status res <> "failed" ->
  exists req w0 d c,
    unmarshal_into (into_ptr empty_request into_request) None body = (Some req, None) /\
    request_job req d c /\ w0 = (Now w).2 /\
    validateShots (Shots d) (QPU_GetDeviceInfo w0) = None /\ QPU_Validate w0 (QASM d) = None /\
    ((TranspilerLib c = None /\ executed res w0 d w') \/
     (TranspilerLib c <> None /\ exists w1 d1, Transpile (w0, d) = (Ret None, (w1, d1)) /\ JobStatus d1 <> FAILED /\
        executed res w1 d1 w')).
Proof.
  unfold TranspileAndExec. destruct (String.eqb_spec body "") as [->|Hne]; [by intros [= <- _]|].
  unfold bind at 1, toJob. destruct (Now w) as [now w0] eqn:En. unfold toJobData. cbn [snd].
  rewrite (proj2 (String.eqb_neq _ _) Hne).
  destruct (unmarshal_into (into_ptr empty_request into_request) None body) as [[req|] [e|]]; try by intros [= <- _].
  destruct (NewJobContext w0); [by intros [= <- _]|]. unfold NewJobFromJobData. destruct (find _ _) as [p|] eqn:EF; [|by intros [= <- _]].
  apply List.find_some, proj1, list_elem_of_In in EF. cbn. rewrite new_data by done. destruct (validateShots _ _) eqn:Hv; [by intros [= <- _]|].
  destruct (QPU_Validate _ _) eqn:Hq; [by intros [= <- _]|]. unfold with_data.
  destruct (transpile_and_execute body _) as [[r|m] [w1 d1]] eqn:ET; intros [= <- <-] Hst.
  apply transpiled_executed in ET as (c & Hc & Hex); [|done]. cbn zeta in Hex.
  eexists req, w0, _, c. split; [done|]. split; [|by split_and!; [..|exact Hex]]. by split_and!.
Qed.
End checked.

(** ** Witnesses *)

Module RouterExample.
#[local] Existing Instance canonical_range.

Definition device : DeviceInfo := mkDeviceInfo "" "" "" Available 4 1000 "{}" "".
#[local] Instance clock : GoClock unit := fun w => (0, w).
#[local] Instance transpiler : ITranspiler unit :=
  {| IsAcceptableTranspilerLib _ _ := true;
     Transpile := modify (fun s => (s.1, set_TranspiledQASM "OPENQASM 3;" s.2)) ;;! ret None |}.
#[local] Instance qpu : IQPUManager unit :=
  {| QPU_Send := modify (fun s => (s.1, set_JobStatus SUCCEEDED s.2)) ;;! ret None; QPU_GetDeviceInfo _ := Some device |}.
#[local] Instance validate : IQPUValidate unit := fun _ _ => None.
#[local] Instance contexts : JobContexts unit := fun _ => None.
#[local] Instance float : GoFloat := {| float_json _ := "0"; f64_of_f32 z := z; seconds z := z; norm_number s := Some s |}.
#[local] Instance counts : EmptyCounts := JObj [].
#[local] Instance steady : SteadyServices unit.
Proof.
  constructor; [intros w d c _ _ Hd|intros w d Hd]; eexists _, _, _; (split; [reflexivity|]); by destruct d.
Qed.

Definition manager : JobManager NormalJob := mkJobManager [mkJobProto "*sse.SSEJob" SSE_JOB NormalJob_New].
Lemma new_keeps (p : JobProto NormalJob) d : p ∈ acceptableJobs manager -> jd (proto_New p d) = d.
Proof. intros Hp. apply list_elem_of_singleton in Hp. by subst p. Qed.

Definition member (k v : string) : string := dq +:+ k +:+ dq +:+ ":" +:+ v.
Definition body : string :=
  "{" +:+ member "id" (dq +:+ "a" +:+ dq) +:+ "," +:+ member "qasm" (dq +:+ "OPENQASM 3;" +:+ dq) +:+ "," +:+ member "shots" "10" +:+ "}".
Definition request : UserReqData := mkUserReqData "a" "OPENQASM 3;" 10 None.

Lemma request_shots_exact_witness :
  exists d, toJobData 0 body = Ret (inl d) /\ validateShots (Shots d) (Some device) = None /\ u32 (Shots d) = 10.
Proof.
  destruct (toJobData 0 body) as [[d|e]|m] eqn:E; [|vm_compute in E; discriminate E..].
  destruct (request_shots_exact 0 body request d device) as [H1 H2];
    [vm_compute; reflexivity|exact E|split; vm_compute; congruence|].
  exists d. split; [reflexivity|]. assert (validateShots (Shots d) (Some device) = None) as Hv by (apply H1; split; vm_compute; congruence).
  split; [exact Hv|]. apply H2; [exact Hv|vm_compute; reflexivity].
Defined.
Lemma router_panics_iff_witness :
  exists m w', TranspileAndExec manager "null" tt = (Panic m, w').
Proof. apply (router_panics_iff manager new_keeps "null" tt). vm_compute. reflexivity. Defined.

Lemma router_executes_checked_witness :
  exists d c, request_job request d c /\ validateShots (Shots d) (Some device) = None.
Proof.
  destruct (TranspileAndExec manager body tt) as [[res|m] w'] eqn:E; [|vm_compute in E; discriminate E].
  destruct (router_executes_checked manager new_keeps body tt res w') as (req & w0 & d & c & H1 & H2 & -> & H3 & _);
    [exact E|vm_compute in E; injection E as <- _; discriminate|].
  exists d, c. split; [|exact H3]. replace request with req; [exact H2|]. vm_compute in H1. injection H1 as <-. reflexivity.
Defined.
End RouterExample.

