(* ===== verification/Edge.v ===== *)
(** * The command (cmd/edge/main.go) and the system components (core/syscomponent.go)

    The poller command sets up the logger, the settings and the five components
    of the container, makes the run group of the settings file, starts the
    scheduler and runs the group.  What it asks of the components, of the run
    group and of the file system are the calls [lifeE]; a world answers them and
    keeps the trace.  The package-level variables are [Globals]. *)

From stdpp Require Import base gmap strings list fin_maps.
From Stdlib Require Import ZArith Lia.
From S2P Require Import Prelude GoString GoPath Core Setting Job Queue Poller Run Converter.
From S2P Require Import SamplingJob EstimationJob Tranqu MultiprogJob Gateway SseData SseRun SseJob.

#[local] Set Warnings "-clear-no-such-hyp".

(** ** Container *)

Record DIContainerParameters := mkDIContainerParameters {
  P_DBManager : string;
  P_Transpiler : string;
  P_QPU : string;
  P_Scheduler : string
}.

Inductive component := CTranspiler | CScheduler | CDBManager | CQPUManager | CSSEGatewayRouter.
#[global] Instance component_eq_dec : EqDecision component.
Proof. solve_decision. Defined.

(** Package dig: a constructor is registered with [Provide] and called by the
    first [Invoke] that needs it; its error comes back in one of the package's. *)
Class Dig := { Provide : component -> option error; invoke_error : component -> error -> error }.

(** The Go type each constructor makes, or its error. *)
Definition Container : Type := component -> string + error.

Section container.
Context {DG : Dig}.

Definition provided (p : DIContainerParameters) : Container := fun c =>
  match c with
  | CQPUManager =>
      if String.eqb (P_QPU p) "dummy" then inl "*qpu.DummyQPU"
      else if String.eqb (P_QPU p) "gateway" then inl "*qpu.GatewayQPU"
      else inr (P_QPU p +:+ " is an unknown QPU")
  | CTranspiler =>
      if String.eqb (P_Transpiler p) "tranqu" then inl "*transpiler.Tranqu"
      else inr (P_Transpiler p +:+ " is an unknown Transpiler")
  | CScheduler => inl "*scheduler.NormalScheduler"
  | CDBManager =>
      if String.eqb (P_DBManager p) "memory" then inl "*core.MemoryDB"
      else if String.eqb (P_DBManager p) "service" then inl "*db.ServiceDB"
      else inr (P_DBManager p +:+ " is an unknown DB")
  | CSSEGatewayRouter => inl "*router.SSEGRPCServer"
  end.

Definition provideDIContainer (p : DIContainerParameters) : Container + error :=
  match Provide CQPUManager with Some e => inr e | None =>
  match Provide CTranspiler with Some e => inr e | None =>
  match Provide CScheduler with Some e => inr e | None =>
  match Provide CDBManager with Some e => inr e | None =>
  match Provide CSSEGatewayRouter with Some e => inr e | None => inl (provided p) end end end end end.

(** [Invoke] of a function that takes component [c]. *)
Definition Invoke {S} (con : Container) (c : component) (f : string -> M S (option error)) : M S (option error) :=
  match con c with
  | inr e => ret (Some (invoke_error c e))
  | inl ty => f ty
  end.
End container.

(** ** The calls *)

(** The periodic tasks of the command. *)
Inductive TaskImpl := PollerImpl | VersionLogImpl | MetricsLogImpl.
#[global] Instance TaskImpl_eq_dec : EqDecision TaskImpl.
Proof. solve_decision. Defined.

(** The members of the run group: the actors of the context and the one of
    [run.SignalHandler]. *)
Inductive member := Actor (a : actor TaskImpl) | SignalHandler.

(** How [Run] of the group ends: it returns, or a panic in the goroutine of an
    actor ends the process. *)
Inductive run_end := RunReturned (err : option error) | Crashed.

Inductive lifeE : Type -> Type :=
| OsStat (path : string) : lifeE (Z + error)
| NewRotateLogs (pattern : string) (maxAge : Z) : lifeE (option error)
| ReadSettings (path : string) : lifeE (string + error)
| SetupComponent (c : component) (ty : string) (cf : Conf) : lifeE (outcome (option error))
| StartScheduler (ty : string) : lifeE (option error)
| TearDownComponent (c : component) (ty : string) : lifeE unit
| CloseDBChan : lifeE unit
| TaskSetParams (i : TaskImpl) (p : option Dyn) : lifeE (outcome (option error))
| TaskSetup (i : TaskImpl) : lifeE (outcome (option error))
| RunGroup (l : list member) : lifeE run_end.

Class LifeIO (W : Type) := life : forall {A}, lifeE A -> W -> A * W.

Inductive life_event := LifeEv (A : Type) (e : lifeE A) (answer : A).
Arguments LifeEv {A} e answer.

(** The calls made so far. *)
Class LifeTrace (W : Type) `{LifeIO W} := {
  calls : W -> list life_event;
  calls_life : forall A (e : lifeE A) w, calls (life e w).2 = calls w ++ [LifeEv e (life e w).1]
}.

(** ** Logger *)

Inductive LogLevelKind := DebugLevel | InfoLevel | WarnLevel | ErrorLevel.
Inductive EncoderKind := ConsoleEncoder | JSONEncoder.
Record Logger := mkLogger {
  log_encoder : EncoderKind;
  log_level : LogLevelKind;
  log_file : bool;
  log_stdout : bool
}.

(** ** Jobs of the engine *)

Inductive EngineJob :=
| ESamplingJob (j : SamplingJob)
| ESSEJob (j : SSEJob)
| EManualJob (j : ManualJob)
| EEstimationJob (j : EstimationJob).

Definition engine_jobs {GS : GlobalSetting} : list (JobProto EngineJob) :=
  [mkJobProto "*sampling.SamplingJob" SAMPLING_JOB (fun d => ESamplingJob (SamplingJob_New d));
   mkJobProto "*sse.SSEJob" SSE_JOB (fun d => ESSEJob (SSEJob_New d));
   mkJobProto "*multiprog.ManualJob" MULTIPROG_MANUAL_JOB (fun d => EManualJob (ManualJob_New d));
   mkJobProto "*estimation.EstimationJob" ESTIMATION_JOB (fun d => EEstimationJob (EstimationJob_New d))].

(** ** Package variables *)

Record Globals := mkGlobals {
  g_Version : string;
  g_Setting : option Setting;
  g_SystemComponents : option Container;
  g_JobManager : option (JobManager EngineJob);
  g_CurrentInfo : option NonSecretConf;
  g_RunContext : option (list member)
}.

Definition with_setting (s : option Setting) (g : Globals) : Globals :=
  mkGlobals (g_Version g) s (g_SystemComponents g) (g_JobManager g) (g_CurrentInfo g) (g_RunContext g).

Definition NoVersion : string := "no_version_info".

Definition SetVersion (c : Conf) (versionByBuildFlag : string) : string :=
  if negb (String.eqb versionByBuildFlag "") then versionByBuildFlag
  else if negb (String.eqb (Conf_Version c) "") then Conf_Version c
  else NoVersion.

(** The settings the components find when the file has no table for them. *)
Definition struct_of (fields : list (string * string)) : Dyn := DStruct (map (fun f => (f.1, DString f.2)) fields).
Definition gateway_value (s : GatewaySetting) : Dyn :=
  struct_of [("GatewayHost", GatewayHost s); ("GatewayPort", GatewayPort s); ("APIEndpoint", APIEndpoint s);
             ("APIKey", G_APIKey s); ("DeviceId", DeviceId s)].
Definition tranqu_value (s : TranquSetting) : Dyn := struct_of [("Host", TS_Host s); ("Port", TS_Port s)].
Definition estimation_value (s : EstimationSetting) : Dyn :=
  DStruct [("Host", DString (ES_Host s)); ("Port", DString (ES_Port s)); ("BasisGates", DStrings (BasisGates s))].

Definition registerSetting : M (option Setting) unit :=
  RegisterSetting "gateway" (gateway_value NewDefaultGatewayAgentSetting) ;;!
  RegisterSetting "tranqu" (tranqu_value NewTranquSetting) ;;!
  RegisterSetting "estimation" (estimation_value NewEstimationSetting).

(** ** System components *)

Section system.
Context {W : Type} `{HL : LifeIO W} {DG : Dig}.

(** A call of the command, whose state is the world and the variables. *)
Definition lcall {A} (e : lifeE A) : M (W * Globals) A := fun s => let '(a, w) := life e s.1 in (Ret a, (w, s.2)).
Definition lcall_o {A} (e : lifeE (outcome A)) : M (W * Globals) A := let! o := lcall e in lift o.
Definition set_globals (f : Globals -> Globals) : M (W * Globals) unit := modify (fun s => (s.1, f s.2)).
Definition on_setting {A} (c : M (option Setting) A) : M (W * Globals) A :=
  fun s => let '(r, g) := c (g_Setting s.2) in (r, (s.1, with_setting g s.2)).

(** One of the five steps of [SystemComponents.Setup]. *)
Definition setup_step (con : Container) (cf : Conf) (c : component) : M (W * Globals) (option error) :=
  Invoke con c (fun ty => lcall_o (SetupComponent c ty cf)).

Definition SystemComponents_Setup (con : Container) (cf : Conf) : M (W * Globals) (option error) :=
  let! err := setup_step con cf CTranspiler in
  match err with Some e => ret (Some e) | None =>
  let! err := setup_step con cf CScheduler in
  match err with Some e => ret (Some e) | None =>
  let! err := setup_step con cf CDBManager in
  match err with Some e => ret (Some e) | None =>
  let! err := setup_step con cf CQPUManager in
  match err with Some e => ret (Some e) | None =>
  let! err := setup_step con cf CSSEGatewayRouter in
  match err with Some e => ret (Some e) | None =>
  set_globals (fun g => mkGlobals (g_Version g) (g_Setting g) (Some con) (g_JobManager g) (g_CurrentInfo g) (g_RunContext g)) ;;!
  ret None
  end end end end end.

Definition teardown_step (con : Container) (c : component) : M (W * Globals) (option error) :=
  Invoke con c (fun ty => lcall (TearDownComponent c ty) ;;! ret None).

Definition SystemComponents_TearDown (con : Container) : M (W * Globals) unit :=
  teardown_step con CTranspiler ;;!
  teardown_step con CSSEGatewayRouter ;;!
  lcall CloseDBChan.

Definition StartContainer (con : Container) : M (W * Globals) (option error) :=
  Invoke con CScheduler (fun ty => lcall (StartScheduler ty)).
End system.

(** What the components ask the container for later; an error of [Invoke] is
    dropped and the zero value returned. *)
Section queries.
Context {W J : Type} `{HSch : IScheduler W J} `{HQ : IQPUManager W}.

Definition asked {A} (con : Container) (c : component) (zero value : A) : A :=
  match con c with inl _ => value | inr _ => zero end.

Definition GetDeviceInfo (con : Container) (w : W) : option DeviceInfo := asked con CQPUManager None (QPU_GetDeviceInfo w).
Definition GetCurrentQueueSize (con : Container) (w : W) : Z := asked con CScheduler 0 (Sched_GetCurrentQueueSize w).
Definition IsQueueOverRefillThreshold (con : Container) (w : W) : bool :=
  asked con CScheduler false (Sched_IsOverRefillThreshold w).
End queries.

(** ** The command *)

(** How the command ends: it returns to the parser, or the process exits. *)
Inductive ended := Returned (err : option error) | Exited (code : Z).

Section command.
Context {W : Type} `{HL : LifeIO W} {DG : Dig} {MR : MapRange} {FV : FormatV}.
Context (format_impls : gmap string TaskImpl -> string).
(** The decoder of the settings file, for its three targets. *)
Context (decode : string -> (gmap string Dyn * gmap string Dyn) + error)
  (decode_settings : string -> gmap string Dyn + error) (decode_groups : string -> DecodedGroups + error).
Context (versionByBuildFlag : string) (params : DIContainerParameters) (cf : Conf).

#[local] Instance task_runner : RunnerImpl (W * Globals) TaskImpl :=
  {| impl_SetParams i p := lcall_o (TaskSetParams i p); impl_Setup i := lcall_o (TaskSetup i) |}.

(** The number of days is an [int], the product a [time.Duration]. *)
Definition makeRotator (dirPath : string) (rotationMaxDays : Z) : M (W * Globals) (option error) :=
  let! info := lcall (OsStat dirPath) in
  match info with
  | inr _ => ret (Some ("directory:" +:+ dirPath +:+ " is not found"))
  | inl mode =>
      if negb (Z.testbit mode 7) then ret (Some (dirPath +:+ " is not a writable directory"))
      else lcall (NewRotateLogs (filepath_Join [dirPath; "qiqbedge-%Y-%m-%d.log"]) (i64 (i64 (rotationMaxDays * 24) * 3600000000000)))
  end.

Definition zapLogger : M (W * Globals) (Logger + error) :=
  let encoder := if DevMode cf then ConsoleEncoder else JSONEncoder in
  let level :=
    if String.eqb (LogLevel cf) "debug" then DebugLevel
    else if String.eqb (LogLevel cf) "warn" then WarnLevel
    else if String.eqb (LogLevel cf) "error" then ErrorLevel
    else InfoLevel in
  let! err := if EnableFileLog cf then makeRotator (LogDir cf) (LogRotationMaxDays cf) else ret None in
  match err with
  | Some e => ret (inr e)
  | None => ret (inl (mkLogger encoder level (EnableFileLog cf) (negb (DisableStdoutLog cf))))
  end.

Definition setZap : M (W * Globals) Logger :=
  let! r := zapLogger in
  match r with
  | inr e => gopanic e
  | inl logger => ret logger
  end.

Definition setupSystemComponents : M (W * Globals) Container :=
  set_globals (fun g => mkGlobals (SetVersion cf versionByBuildFlag) (g_Setting g) (g_SystemComponents g) (g_JobManager g)
                          (g_CurrentInfo g) (g_RunContext g)) ;;!
  match provideDIContainer params with
  | inr e => gopanic e
  | inl container =>
      let! err := SystemComponents_Setup container cf in
      match err with
      | Some e => gopanic e
      | None => ret container
      end
  end.

(** The manager keeps the jobs with the settings of this moment, which do not
    change any more. *)
Definition startCore : M (W * Globals) (option error) :=
  set_globals (fun g =>
    let jm := match NewJobManager (engine_jobs (GS := g_Setting g)) with inl jm => Some jm | inr _ => g_JobManager g end in
    mkGlobals (g_Version g) (g_Setting g) (g_SystemComponents g) jm (g_CurrentInfo g) (g_RunContext g)) ;;!
  let! st := get in
  match g_SystemComponents st.2 with
  | None => gopanic nil_pointer
  | Some con =>
      let! err := StartContainer con in
      match err with
      | Some e => ret (Some e)
      | None =>
          set_globals (fun g => mkGlobals (g_Version g) (g_Setting g) (g_SystemComponents g) (g_JobManager g)
                                  (Some (SetInfo cf)) (g_RunContext g)) ;;!
          ret None
      end
  end.

Definition setupRunGroup (rc : RunContext TaskImpl) : M (W * Globals) (list member) :=
  let group := (Actor <$> Group rc) ++ [SignalHandler] in
  set_globals (fun g => mkGlobals (g_Version g) (g_Setting g) (g_SystemComponents g) (g_JobManager g) (g_CurrentInfo g)
                          (Some group)) ;;!
  ret group.

Definition engine_impls : ImplMaps TaskImpl :=
  mkImplMaps {["poller" := PollerImpl; "version_log" := VersionLogImpl; "metrics_log" := MetricsLogImpl]} ∅ ∅.

(** [defer d()]: runs when the function returns or panics, not when the process
    exits. *)
Definition deferring (d : M (W * Globals) unit) (c : M (W * Globals) ended) : M (W * Globals) ended :=
  fun s => match c s with
           | (Ret (Exited n), s') => (Ret (Exited n), s')
           | (r, s') => match d s' with
                        | (Ret _, s'') => (r, s'')
                        | (Panic m, s'') => (Panic m, s'')
                        end
           end.

(** [Execute] after the run context has been made.  The error of [startCore] is
    dropped. *)
Definition run_engine (rc : RunContext TaskImpl) : M (W * Globals) ended :=
  startCore ;;!
  let! group := setupRunGroup rc in
  let! r := lcall (RunGroup group) in
  match r with
  | Crashed => ret (Exited 2)
  | RunReturned (Some _) => ret (Exited 1)
  | RunReturned None => ret (Returned None)
  end.

Definition Execute : M (W * Globals) ended :=
  setZap ;;!
  on_setting (fun g => (Ret tt, ResetSetting g)) ;;!
  on_setting registerSetting ;;!
  let! file := lcall (ReadSettings (SettingPath cf)) in
  let! err := on_setting (ParseSettingFromPath decode file) in
  match err with
  | Some e => ret (Returned (Some e))
  | None =>
      let! s := setupSystemComponents in
      deferring (SystemComponents_TearDown s)
        (let! st := get in
         match GetComponentSetting (g_Setting st.2) "gateway" with
         | None => ret (Returned (Some "failed to get setting"))
         | Some _ =>
             let! file := lcall (ReadSettings (SettingPath cf)) in
             let! r := NewRunContextWithSettingPath format_impls (SettingPath cf) file decode_settings decode_groups engine_impls in
             match r with
             | inr e => ret (Returned (Some e))
             | inl rc => run_engine rc
             end
         end)
  end.
End command.

(** What the parser reports of the flags or of the command it ran, and the exit
    code of the process; [None] is no exit by [parse]. *)
Inductive flags_error := ErrHelp | FlagsError | OtherError.
Definition parse (r : option flags_error) : option Z :=
  match r with
  | None => None
  | Some ErrHelp => Some 0
  | Some _ => Some 1
  end.

(** The packages of the SSE and the multi-programming configuration read flags
    and environment when they are initialised: the exit code with the error. *)
Definition load_flags {C} (parsed : C * option flags_error) : C * Z * option error :=
  match parsed with
  | (c, None) => (c, 0, None)
  | (c, Some e) => (c, match e with ErrHelp => 0 | _ => 1 end, Some "failed to load params")
  end.
Definition sse_loadParams (parsed : SSEConf * option flags_error) : SSEConf * Z * option error := load_flags parsed.
Definition manual_loadParams (parsed : MPGMConf * option flags_error) : MPGMConf * Z * option error := load_flags parsed.

(** The configuration [init] leaves, or the code it exits with. *)
Definition sse_init (parsed : SSEConf * option flags_error) : SSEConf + Z :=
  match sse_loadParams parsed with (c, _, None) => inl c | (_, code, Some _) => inr code end.
Definition manual_init (parsed : MPGMConf * option flags_error) : MPGMConf + Z :=
  match manual_loadParams parsed with (c, _, None) => inl c | (_, code, Some _) => inr code end.

(** ** The phases of a run *)

Inductive phase :=
| PSetup (c : component)
| PTask (i : TaskImpl)
| PStart
| PRun (g : list member)
| PDown (c : component)
| PClose.

Definition phase_of (ev : life_event) : option phase :=
  let '(LifeEv e _) := ev in
  match e with
  | SetupComponent c _ _ => Some (PSetup c)
  | TaskSetup i => Some (PTask i)
  | StartScheduler _ => Some PStart
  | RunGroup g => Some (PRun g)
  | TearDownComponent c _ => Some (PDown c)
  | CloseDBChan => Some PClose
  | OsStat _ | NewRotateLogs _ _ | ReadSettings _ | TaskSetParams _ _ => None
  end.
Definition phases (tr : list life_event) : list phase := omap phase_of tr.

Section logs.
Context {W S : Type} `{HL : LifeIO W} `{HT : !LifeTrace W} (pr : S -> W).

(** [logs c s Q]: the phases [c] goes through from [s], its outcome and the
    state it leaves satisfy [Q]. *)
Definition logs {A} (c : M S A) (s : S) (Q : outcome A -> S -> list phase -> Prop) : Prop :=
  let '(r, s') := c s in exists tr, calls (pr s') = calls (pr s) ++ tr /\ Q r s' (phases tr).

Lemma logs_ret {A} (a : A) s (Q : outcome A -> S -> list phase -> Prop) : Q (Ret a) s [] -> logs (ret a) s Q.
Proof. intros H. exists []. by rewrite app_nil_r. Qed.

Lemma logs_panic {A} m s (Q : outcome A -> S -> list phase -> Prop) : Q (Panic m) s [] -> logs (gopanic m) s Q.
Proof. intros H. exists []. by rewrite app_nil_r. Qed.

Lemma logs_lift {A} (o : outcome A) s (Q : outcome A -> S -> list phase -> Prop) : Q o s [] -> logs (lift o) s Q.
Proof. intros H. exists []. by rewrite app_nil_r. Qed.

Lemma logs_mono {A} (c : M S A) s (Q Q' : outcome A -> S -> list phase -> Prop) :
  logs c s Q -> (forall r s' ph, Q r s' ph -> Q' r s' ph) -> logs c s Q'.
Proof. unfold logs. destruct (c s) as [r s']. intros (tr & E & H) HQ. exists tr. auto. Qed.

Lemma logs_eq {A} (c : M S A) s (Q : outcome A -> S -> list phase -> Prop) :
  logs c s Q -> logs c s (fun r s' ph => c s = (r, s') /\ Q r s' ph).
Proof. unfold logs. destruct (c s) as [r s']. intros (tr & E & H). by exists tr. Qed.

Lemma logs_bind {A B} (c : M S A) (k : A -> M S B) s (Q : outcome B -> S -> list phase -> Prop) :
  logs c s (fun r s1 ph => match r with
                           | Ret a => logs (k a) s1 (fun r' s' ph' => Q r' s' (ph ++ ph'))
                           | Panic m => Q (Panic m) s1 ph
                           end) -> logs (bind c k) s Q.
Proof.
  unfold logs, bind. destruct (c s) as [[a|m] s1]; intros (tr & E & H); [|by exists tr].
  destruct (k a s1) as [r s']. destruct H as (tr' & E' & H). exists (tr ++ tr'). rewrite E', E, <- app_assoc.
  split; [done|]. unfold phases in *. by rewrite omap_app.
Qed.

Lemma logs_get {A} (k : S -> M S A) s (Q : outcome A -> S -> list phase -> Prop) : logs (k s) s Q -> logs (bind get k) s Q.
Proof. done. Qed.

Lemma logs_silent {A} (c : M S A) s (Q : outcome A -> S -> list phase -> Prop) r s' :
  c s = (r, s') -> pr s' = pr s -> Q r s' [] -> logs c s Q.
Proof. intros E Hp H. unfold logs. rewrite E. exists []. by rewrite Hp, app_nil_r. Qed.
End logs.

(** The set-up in the order of the code, and the tear-down. *)
Definition ups : list phase := PSetup <$> [CTranspiler; CScheduler; CDBManager; CQPUManager; CSSEGatewayRouter].
Definition downs : list phase := [PDown CTranspiler; PDown CSSEGatewayRouter; PClose].
Definition is_task (p : phase) : Prop := exists i, p = PTask i.

(** The set-up of the members of a run group, in the order of the group. *)
Definition actor_impl (a : actor TaskImpl) : option TaskImpl :=
  match a with
  | PeriodicActor t _ => PT_Impl t
  | InternalActor s _ => IS_Impl s
  | APIActor s _ => AS_Impl s
  end.
Definition actor_task (a : actor TaskImpl) : option phase := PTask <$> actor_impl a.
Definition member_task (m : member) : option phase :=
  match m with Actor a => actor_task a | SignalHandler => None end.
Definition group_tasks (g : list member) : list phase := omap member_task g.

Section calls.
Context {W : Type} `{HL : LifeIO W} `{HT : !LifeTrace W}.
Implicit Types s : W * Globals.
#[local] Abbreviation lg := (logs (W := W) (S := W * Globals) fst).

Lemma logs_lcall {A} (e : lifeE A) s (Q : outcome A -> W * Globals -> list phase -> Prop) :
  (forall a w', life e s.1 = (a, w') -> Q (Ret a) (w', s.2) (option_list (phase_of (LifeEv e a)))) -> lg (lcall e) s Q.
Proof.
  intros H. unfold logs, lcall. pose proof (calls_life A e s.1) as Hc. destruct (life e s.1) as [a w'] eqn:E.
  exists [LifeEv e a]. split; [done|]. unfold phases. cbn [omap list_omap].
  replace (match phase_of (LifeEv e a) with Some y => [y] | None => [] end) with (option_list (phase_of (LifeEv e a)))
    by by destruct (phase_of _). by apply H.
Qed.

Lemma logs_lcall_o {A} (e : lifeE (outcome A)) s (Q : outcome A -> W * Globals -> list phase -> Prop) :
  (forall o w', Q o (w', s.2) (option_list (phase_of (LifeEv e o)))) -> lg (lcall_o e) s Q.
Proof.
  intros H. unfold lcall_o. apply logs_bind, logs_lcall. intros o w' _. apply logs_lift.
  rewrite app_nil_r. apply H.
Qed.

Lemma logs_set f s (Q : outcome unit -> W * Globals -> list phase -> Prop) :
  Q (Ret tt) (s.1, f s.2) [] -> lg (set_globals f) s Q.
Proof. intros H. by eapply logs_silent. Qed.

Lemma logs_setting {A} (c : M (option Setting) A) s (Q : outcome A -> W * Globals -> list phase -> Prop) :
  (forall r g, c (g_Setting s.2) = (r, g) -> Q r (s.1, with_setting g s.2) []) -> lg (on_setting c) s Q.
Proof.
  intros H. destruct (c (g_Setting s.2)) as [r g] eqn:E.
  apply (logs_silent _ _ _ _ r (s.1, with_setting g s.2)); [|done|by apply H].
  unfold on_setting. by rewrite E.
Qed.
(** *** Set-up and tear-down *)

Section container_facts.
Context {DG : Dig} (con : Container) (cf : Conf).

Lemma setup_step_logs c s :
  lg (setup_step con cf c) s (fun r s' ph => s'.2 = s.2 /\ (ph = [] \/ ph = [PSetup c]) /\
    (r = Ret None -> ph = [PSetup c] /\ exists ty, con c = inl ty)).
Proof.
  unfold setup_step, Invoke. destruct (con c) as [ty|e].
  - apply logs_lcall_o. intros o w'. split_and!; [done|by right|eauto].
  - apply logs_ret. naive_solver.
Qed.

(** The rest of the set-up when [todo] is left. *)
Definition sets_up (todo : list phase) (st : option Setting) (r : outcome (option error)) s (ph : list phase) : Prop :=
  match r with
  | Ret None => ph = todo /\ g_SystemComponents s.2 = Some con /\ g_Setting s.2 = st /\
      forall c, PSetup c ∈ todo -> exists ty, con c = inl ty
  | _ => exists k, ph = take k todo
  end.

Lemma setup_then c todo st (k : M (W * Globals) (option error)) s :
  g_Setting s.2 = st ->
  (forall s1, g_Setting s1.2 = st -> lg k s1 (sets_up todo st)) ->
  lg (let! err := setup_step con cf c in match err with Some e => ret (Some e) | None => k end) s
    (sets_up (PSetup c :: todo) st).
Proof.
  intros Hs Hk. apply logs_bind. eapply logs_mono; [apply setup_step_logs|].
  intros [[e|]|m] s1 ph (E & Hph & H).
  - apply logs_ret. rewrite app_nil_r. destruct Hph as [->| ->]; [by exists 0%nat|by exists 1%nat].
  - destruct (H eq_refl) as [-> Hty]. eapply logs_mono; [apply Hk; congruence|].
    intros [[e|]|m] s2 ph; cbn; [intros [n ->]; by exists (S n)| |intros [n ->]; by exists (S n)].
    intros (-> & H2 & H3 & H4). split_and!; [done..|]. intros c' [[= ->]|Hc']%elem_of_cons; auto.
  - destruct Hph as [->| ->]; [by exists 0%nat|by exists 1%nat].
Qed.

Lemma setup_logs s : lg (SystemComponents_Setup con cf) s (sets_up ups (g_Setting s.2)).
Proof.
  unfold SystemComponents_Setup. do 5 (apply setup_then; [done|]; intros ? ?).
  apply logs_bind, logs_set, logs_ret. split_and!; [done..|]. by intros c Hc%elem_of_nil.
Qed.

Lemma teardown_logs s :
  (exists ty, con CTranspiler = inl ty) -> (exists ty, con CSSEGatewayRouter = inl ty) ->
  lg (SystemComponents_TearDown con) s (fun r s' ph => r = Ret tt /\ s'.2 = s.2 /\ ph = downs).
Proof.
  intros [t Ht] [t' Ht']. unfold SystemComponents_TearDown, teardown_step, Invoke. rewrite Ht, Ht'.
  apply logs_bind, logs_bind, logs_lcall. intros [] w1 _. apply logs_ret.
  apply logs_bind, logs_bind, logs_lcall. intros [] w2 _. apply logs_ret. apply logs_lcall. by intros [] w3 _.
Qed.
End container_facts.
End calls.

(** *** The run context sets up tasks, and nothing else *)

Section tasks.
Context {W : Type} `{HL : LifeIO W} `{HT : !LifeTrace W}.

(** Code that goes through no phase, and leaves the variables alone. *)
Definition phaseless {S A} (pr : S -> W * Globals) (c : M S A) : Prop :=
  forall s, logs (fun s => (pr s).1) c s (fun _ s' ph => (pr s').2 = (pr s).2 /\ ph = []).

Lemma phaseless_ret {S A} (pr : S -> W * Globals) (a : A) : phaseless pr (ret a).
Proof. intros s. by apply logs_ret. Qed.

Lemma phaseless_each {S A} (pr : S -> W * Globals) (body : A -> M S (option error)) l :
  (forall x, phaseless pr (body x)) -> phaseless pr (each body l).
Proof.
  intros Hb. induction l as [|x l IH]; [apply phaseless_ret|]. intros s. apply logs_bind.
  eapply logs_mono; [apply Hb|]. intros [[e|]|m] s1 ph [E ->]; [by apply logs_ret| |done].
  eapply logs_mono; [apply IH|]. intros r s2 ph' [E' ->]. split; [congruence|done].
Qed.

Context {MR : MapRange} {FV : FormatV} (format_impls : gmap string TaskImpl -> string).
#[local] Existing Instance task_runner.

Lemma params_phaseless {R} `{Runner R} (m : gmap string (R TaskImpl)) :
  phaseless id (setParametersToImpl (W := W * Globals) m).
Proof.
  apply phaseless_each. intros x. unfold call_impl. destruct (runner_impl x.2) as [i|]; intros s.
  - apply logs_lcall_o. by intros o w'.
  - by apply logs_panic.
Qed.

(** The phases of an addition to the group: the set-up of what was added. *)
Definition adds (r : outcome (option error)) (s s' : (W * Globals) * list (actor TaskImpl)) (ph : list phase) : Prop :=
  s'.1.2 = s.1.2 /\ Forall is_task ph /\
  (r = Ret None -> exists new, s'.2 = s.2 ++ new /\ ph = omap actor_task new).

Lemma setup_phases {R} `{Runner R} (m : gmap string (R TaskImpl)) add s :
  (forall r n, actor_impl (add r n) = runner_impl r) ->
  logs (fun s => s.1.1) (setupImplAndAddToRunContext (W := W * Globals) m add) s (fun r s' ph => adds r s s' ph).
Proof.
  intros Hadd. unfold setupImplAndAddToRunContext. revert s. induction (range m) as [|[n r] l IH]; intros s.
  { apply logs_ret. split_and!; [done|done|]. intros _. exists []. by rewrite app_nil_r. }
  apply logs_bind. unfold logs at 1. cbn [fst snd call_impl].
  destruct (runner_impl r) as [i|] eqn:Ei; cbn [call_impl].
  2: { exists []. by rewrite app_nil_r. }
  pose proof (logs_lcall_o (TaskSetup i) s.1 (fun o s' ph => s'.2 = s.1.2 /\ ph = [PTask i]) ltac:(done)) as Ht.
  unfold logs in Ht. unfold impl_Setup, task_runner. destruct (lcall_o (TaskSetup i) s.1) as [[[e|]|p] w1];
    destruct Ht as (tr & Etr & Hg & Hph); exists tr; (split; [exact Etr|]); rewrite Hph.
  - apply logs_ret. split_and!; [done|by repeat constructor; eexists|done].
  - eapply logs_mono; [apply IH|]. intros o s2 ph (E2 & Hall & Hnew). cbn [fst snd] in *. split_and!.
    + congruence.
    + constructor; [by eexists|done].
    + intros Ho. destruct (Hnew Ho) as (new & -> & ->). exists (add r n :: new). rewrite <- app_assoc. split; [done|].
      cbn. unfold actor_task at 2. by rewrite Hadd, Ei.
  - split_and!; [done|by repeat constructor; eexists|done].
Qed.

Lemma adds_then (c : M ((W * Globals) * list (actor TaskImpl)) (option error)) k s :
  logs (fun s => s.1.1) c s (fun r s' ph => adds r s s' ph) ->
  (forall s1, logs (fun s => s.1.1) k s1 (fun r s' ph => adds r s1 s' ph)) ->
  logs (fun s => s.1.1) (let! err := c in match err with Some e => ret (Some e) | None => k end) s
    (fun r s' ph => adds r s s' ph).
Proof.
  intros Hc Hk. apply logs_bind. eapply logs_mono; [apply Hc|]. intros [[e|]|m] s1 ph (E & Hall & Hnew).
  - apply logs_ret. split_and!; [done|by rewrite app_nil_r|done].
  - eapply logs_mono; [apply Hk|]. intros r s2 ph' (E' & Hall' & Hnew'). split_and!; [congruence|by apply Forall_app|].
    intros Hr. destruct (Hnew eq_refl) as (n1 & E1 & ->), (Hnew' Hr) as (n2 & E2 & ->).
    exists (n1 ++ n2). rewrite E2, E1, <- app_assoc, omap_app. by split.
  - by split_and!.
Qed.

(** A run context that is made has set up its group, and nothing else. *)
Lemma context_phases path file ds dg im s :
  logs fst (NewRunContextWithSettingPath (W := W * Globals) format_impls path file ds dg im) s (fun r s' ph =>
    s'.2 = s.2 /\ Forall is_task ph /\ forall rc, r = Ret (inl rc) -> ph = omap actor_task (Group rc)).
Proof.
  set (Post := fun (r : outcome (RunContext TaskImpl + error)) (s' : W * Globals) (ph : list phase) =>
    s'.2 = s.2 /\ Forall is_task ph /\ forall rc, r = Ret (inl rc) -> ph = omap actor_task (Group rc)).
  assert (forall e s', s'.2 = s.2 -> logs fst (ret (inr e)) s' Post) as He by (intros e s' E; by apply logs_ret).
  assert (forall {R} `{Runner R} (m : gmap string (R TaskImpl)) k s', s'.2 = s.2 ->
    (forall s1, s1.2 = s.2 -> logs fst k s1 Post) ->
    logs fst (let! err := setParametersToImpl m in match err with Some e => ret (inr e) | None => k end) s' Post) as Hparams.
  { intros R HR m k s' E' Hk. apply logs_bind. eapply logs_mono; [apply params_phaseless|].
    intros [[e|]|p] s1 ph [E ->]; cbn [id] in E; [apply He; congruence|apply Hk; congruence|].
    split; [congruence|done]. }
  unfold NewRunContextWithSettingPath. destruct file as [text|e]; [|by apply He].
  destruct (ds text) as [entries|e]; [|by apply He].
  apply logs_bind, logs_lift. destruct (parseRunGroupSettings _ _ _) as [[before|e]|m]; [|by apply He|done].
  destruct (dg text) as [d|e]; [|by apply He]. cbn zeta. set (after := decode_into d before).
  apply Hparams; [done|]. intros s1 E1. apply Hparams; [done|]. intros s2 E2. apply Hparams; [done|]. intros s3 E3.
  subst Post. rewrite <- E3. clear.
  match goal with |- logs _ (fun w => match ?c (w, []) with _ => _ end) _ _ => set (all := c) end.
  assert (logs (fun s => s.1.1) all (s3, []) (fun r s' ph => adds r (s3, []) s' ph)) as H.
  { unfold all. apply adds_then; [by apply setup_phases|intros s5]. apply adds_then; [by apply setup_phases|intros s6].
    by apply setup_phases. }
  unfold logs in *. cbn [fst snd] in *. destruct (all (s3, [])) as [[[e|]|p] [w1 g]]; cbn [fst snd] in *;
    destruct H as (tr & Etr & Eg & Hall & Hnew); exists tr; split_and!; try done.
  intros rc [= <-]. destruct (Hnew eq_refl) as (new & En & ->). cbn in En |- *. by subst g.
Qed.
End tasks.

(** ** The course of the command *)

Section course.
Context {W : Type} `{HL : LifeIO W} `{HT : !LifeTrace W} {DG : Dig} {MR : MapRange} {FV : FormatV}.
Context (format_impls : gmap string TaskImpl -> string).
Context (decode : string -> (gmap string Dyn * gmap string Dyn) + error)
  (decode_settings : string -> gmap string Dyn + error) (decode_groups : string -> DecodedGroups + error).
Context (versionByBuildFlag : string) (params : DIContainerParameters) (cf : Conf).
Implicit Types s : W * Globals.
#[local] Abbreviation lg := (logs (W := W) (S := W * Globals) fst).

Lemma zap_logs s : lg (setZap cf) s (fun _ _ ph => ph = []).
Proof.
  unfold setZap, zapLogger. apply logs_bind, logs_bind.
  assert (lg (if EnableFileLog cf then makeRotator (LogDir cf) (LogRotationMaxDays cf) else ret None) s
            (fun r s' ph => ph = [] /\ exists e, r = Ret e)) as H.
  { destruct (EnableFileLog cf); [|apply logs_ret; eauto]. unfold makeRotator.
    apply logs_bind, logs_lcall. intros [mode|e] w1 _; [|apply logs_ret; eauto].
    destruct (negb _); [apply logs_ret; eauto|]. apply logs_lcall. eauto. }
  eapply logs_mono; [exact H|]. intros r s' ph [-> [[e|] ->]]; apply logs_ret; [by apply logs_panic|by apply logs_ret].
Qed.

(** The members of the group the command runs. *)
Definition members (rc : RunContext TaskImpl) : list member := (Actor <$> Group rc) ++ [SignalHandler].

Lemma members_tasks rc : group_tasks (members rc) = omap actor_task (Group rc).
Proof.
  unfold group_tasks, members. rewrite omap_app, app_nil_r. induction (Group rc) as [|a l IH]; [done|].
  cbn. destruct (actor_task a); by rewrite <- IH.
Qed.

(** The group ran to its end and returned no error. *)
Definition group_ended (rc : RunContext TaskImpl) : Prop :=
  exists w w', life (RunGroup (members rc)) w = (RunReturned None, w').

Lemma engine_logs rc con s :
  g_SystemComponents s.2 = Some con -> (exists ty, con CScheduler = inl ty) ->
  lg (run_engine cf rc) s (fun r s' ph => ph = [PStart; PRun (members rc)] /\
    (r = Ret (Exited 1) \/ r = Ret (Exited 2) \/ r = Ret (Returned None) /\ group_ended rc)).
Proof.
  intros Hc [ty Hty]. unfold run_engine. apply logs_bind. unfold startCore.
  apply logs_bind, logs_set, logs_get. cbn [snd g_SystemComponents]. rewrite Hc. apply logs_bind.
  unfold StartContainer, Invoke. rewrite Hty. apply logs_lcall. intros err w1 _.
  assert (forall (s1 : W * Globals), lg (let! group := setupRunGroup rc in
            let! r := lcall (RunGroup group) in
            match r with
            | Crashed => ret (Exited 2)
            | RunReturned (Some _) => ret (Exited 1)
            | RunReturned None => ret (Returned None)
            end) s1 (fun r s' ph => ph = [PRun (members rc)] /\
              (r = Ret (Exited 1) \/ r = Ret (Exited 2) \/ r = Ret (Returned None) /\ group_ended rc))) as Hrun.
  { intros s1. apply logs_bind. unfold setupRunGroup. apply logs_bind, logs_set, logs_ret.
    apply logs_bind, logs_lcall. intros [[e|]|] w2 Hw; apply logs_ret; (split; [done|]); auto.
    right. right. split; [done|]. by eexists _, _. }
  destruct err as [e|]; [apply logs_ret|apply logs_bind, logs_set, logs_ret];
    (eapply logs_mono; [apply Hrun|]; by intros r s' ph [-> Hr]).
Qed.

Lemma logs_deferring (d : M (W * Globals) unit) (c : M (W * Globals) ended) s (Q : outcome ended -> W * Globals -> list phase -> Prop) :
  lg c s (fun r s1 ph =>
    match r with
    | Ret (Exited n) => Q (Ret (Exited n)) s1 ph
    | _ => lg d s1 (fun r' s2 ph' => Q (match r' with Ret _ => r | Panic m => Panic m end) s2 (ph ++ ph'))
    end) -> lg (deferring d c) s Q.
Proof.
  unfold logs, deferring. destruct (c s) as [[[e|n]|m] s1]; intros (tr & E & H); [|by exists tr|];
    (destruct (d s1) as [[u|m'] s2]; destruct H as (tr' & E' & H); exists (tr ++ tr');
     rewrite E', E, <- app_assoc; (split; [done|]); unfold phases in *; by rewrite omap_app).
Qed.

(** The group made from the text [text] of the settings file: a periodic task
    for each one the file names, with the period and the parameters of the file,
    and each with the implementation the command registers under its name; then
    the signal handler. *)
Definition group_of_file (text : string) (g : list member) : Prop :=
  exists acts d, g = (Actor <$> acts) ++ [SignalHandler] /\ decode_groups text = inl d /\
    (forall a, a ∈ acts -> exists t n i, a = PeriodicActor t n /\
       PeriodicTaskImplMap engine_impls !! n = Some i /\ PT_Impl t = Some i) /\
    (forall n p ps, dec_tasks d !! n = Some (p, ps) ->
       exists t, PeriodicActor t n ∈ acts /\ Period t = p /\ PT_Params t = ps).

(** The text was read from the settings file. *)
Definition read_settings (path text : string) : Prop := exists w w', life (ReadSettings path) w = (inl text, w').

(** A run context of the command whose group ran to its end. *)
Definition ends_well (path : string) : Prop :=
  exists text rc (s1 s2 : W * Globals),
    NewRunContextWithSettingPath (HR := task_runner) format_impls path (inl text) decode_settings decode_groups engine_impls s1
      = (Ret (inl rc), s2) /\ group_ended rc.

(** The group of the command consists of periodic tasks. *)
Lemma engine_group path text s rc s' :
  NewRunContextWithSettingPath (HR := task_runner) format_impls path (inl text) decode_settings decode_groups engine_impls s
    = (Ret (inl rc), s') ->
  group_of_file text (members rc).
Proof.
  intros Hrc. destruct (run_context_group _ _ _ _ _ _ _ _ _ Hrc) as (Hg & (H1 & H2 & H3) & before & d & Hd & Hp).
  exists (Group rc), d. split; [done|]. split; [done|]. rewrite Hg.
  assert (InternalJobServers (RC_RunGroupMaps rc) = ∅) as ->.
  { apply map_empty. intros n. destruct (_ !! n) as [r|] eqn:E; [|done]. by destruct (H2 n r E) as (i & Hi & _). }
  assert (APIServers (RC_RunGroupMaps rc) = ∅) as ->.
  { apply map_empty. intros n. destruct (_ !! n) as [r|] eqn:E; [|done]. by destruct (H3 n r E) as (i & Hi & _). }
  split.
  - intros a [Ha|[Ha|Ha]%elem_of_app]%elem_of_app; apply list_elem_of_fmap in Ha as ([n t] & -> & Ht%elem_of_range).
    + destruct (H1 n t Ht) as (i & Hi & Hti). by exists t, n, i.
    + by rewrite lookup_empty in Ht.
    + by rewrite lookup_empty in Ht.
  - intros n p ps Hn.
    assert (exists t, PeriodicTasks (RC_RunGroupMaps rc) !! n = Some t /\ Period t = p /\ PT_Params t = ps) as (t & Ht & Et).
    { rewrite Hp. unfold recover_impls. rewrite map_lookup_imap. cbn.
      erewrite lookup_union_Some_l by (rewrite lookup_fmap, Hn; reflexivity). cbn. eauto. }
    exists t. split; [|exact Et]. apply elem_of_app. left. apply list_elem_of_fmap. exists (n, t). split; [done|].
    by apply elem_of_range.
Qed.

(** The settings file was read, the tasks of its group set up, the scheduler
    started and the group run. *)
Definition ran (ph : list phase) : Prop :=
  exists text g, read_settings (SettingPath cf) text /\ group_of_file text g /\
    ph = group_tasks g ++ [PStart; PRun g].

(** After the system components have been set up. *)
Lemma body_logs con s :
  g_SystemComponents s.2 = Some con -> (exists ty, con CScheduler = inl ty) ->
  lg (let! st := get in
      match GetComponentSetting (g_Setting st.2) "gateway" with
      | None => ret (Returned (Some "failed to get setting"))
      | Some _ =>
          let! file := lcall (ReadSettings (SettingPath cf)) in
          let! r := NewRunContextWithSettingPath (HR := task_runner) format_impls (SettingPath cf) file decode_settings decode_groups engine_impls in
          match r with
          | inr e => ret (Returned (Some e))
          | inl rc => run_engine cf rc
          end
      end) s
    (fun r s' ph =>
       match r with
       | Ret (Exited n) => (n = 1 \/ n = 2) /\ ran ph
       | Ret (Returned None) => ran ph /\ ends_well (SettingPath cf)
       | Ret (Returned (Some _)) | Panic _ => Forall is_task ph
       end).
Proof.
  intros Hc Hs. apply logs_get. destruct (GetComponentSetting _ _); [|by apply logs_ret].
  apply logs_bind, logs_lcall. intros file w1 Hread. apply logs_bind. eapply logs_mono; [apply logs_eq, context_phases|].
  intros [[rc|e]|m] s1 tasks (Hrc & E & Htasks & Hgroup).
  - destruct file as [text|e]; [|done].
    assert (forall ph, ph = tasks ++ [PStart; PRun (members rc)] -> ran ph) as Hran.
    { intros ph ->. exists text, (members rc). split; [by eexists _, _|]. split; [by eapply engine_group|].
      rewrite (Hgroup rc eq_refl). by rewrite members_tasks. }
    eapply logs_mono; [eapply engine_logs; [rewrite E; exact Hc|done]|].
    intros r s2 ph [-> [->|[->|[-> Hend]]]]; cbn; split; try by auto; try by apply Hran.
    by eexists text, rc, _, _.
  - apply logs_ret. by rewrite app_nil_r.
  - done.
Qed.

(** What [edge_lifecycle] and [edge_exits_without_teardown] share. *)
Definition course (r : outcome ended) (ph : list phase) : Prop :=
  match r with
  | Ret (Exited n) => (n = 1 \/ n = 2) /\ exists ph', ran ph' /\ ph = ups ++ ph'
  | Ret (Returned None) => exists ph', ran ph' /\ ph = ups ++ ph' ++ downs
  | Ret (Returned (Some _)) => ph = [] \/ exists tasks, Forall is_task tasks /\ ph = ups ++ tasks ++ downs
  | Panic _ => (exists k, ph = take k ups) \/ exists tasks, Forall is_task tasks /\ ph = ups ++ tasks ++ downs
  end.

Lemma course_logs s :
  lg (Execute format_impls decode decode_settings decode_groups versionByBuildFlag params cf) s (fun r _ ph =>
    course r ph /\ (r = Ret (Returned None) -> ends_well (SettingPath cf))).
Proof.
  unfold Execute. apply logs_bind. eapply logs_mono; [apply zap_logs|].
  intros [l|m] s0 ph ->; [|split; [left; by exists 0%nat|done]].
  apply logs_bind, logs_setting. intros r g [= <- <-]. apply logs_bind, logs_setting. intros r g Hg.
  injection Hg as <- <-. apply logs_bind, logs_lcall. intros file w1 _. apply logs_bind, logs_setting.
  intros [[e|]|m] g _; [apply logs_ret; split; [by left|done]| |split; [left; by exists 0%nat|done]].
  apply logs_bind. unfold setupSystemComponents. apply logs_bind, logs_set.
  destruct (provideDIContainer params) as [con|e]; [|apply logs_panic; split; [left; by exists 0%nat|done]].
  apply logs_bind. eapply logs_mono; [apply setup_logs|]. intros [[e|]|m] s2 ph; cbn [sets_up].
  - intros [k ->]. apply logs_panic. split; [left; exists k; by rewrite app_nil_r|done].
  - intros (-> & Hc & _ & Hty). apply logs_ret. apply logs_deferring.
    eapply logs_mono; [apply (body_logs con); [done|apply Hty; set_solver]|].
    intros r s3 ph Hr.
    assert (forall Q : outcome unit -> W * Globals -> list phase -> Prop, (forall s', Q (Ret tt) s' downs) ->
              lg (SystemComponents_TearDown con) s3 Q) as Hdown.
    { intros Q HQ. eapply logs_mono; [apply teardown_logs; apply Hty; set_solver|]. by intros r' s' ph' (-> & _ & ->). }
    destruct r as [[[e|]|n]|m].
    + apply Hdown. intros s'. split; [right; by exists ph|done].
    + apply Hdown. intros s'. destruct Hr as [Hr Hend]. split; [|done]. by exists ph.
    + destruct Hr as [Hn Hr]. split; [|done]. split; [done|]. by exists ph.
    + apply Hdown. intros s'. split; [right; by exists ph|done].
  - intros [k ->]. split; [left; by exists k|done].
Qed.

(** *** How a run ends *)

(** What a member can return before the group interrupts it: a periodic task
    has only seen ticks; the signal handler, whose context is never done,
    returns the signal as an error. *)
Definition returns_first `{PeriodicTaskImpl W TaskImpl} (m : member) (err : option error) : Prop :=
  match m with
  | Actor (PeriodicActor t _) => exists l w r w', Forall (eq Tick) l /\ AddPeriodicTask_execute t l w = (Ret (true, r), w')
  | Actor (InternalActor _ _) | Actor (APIActor _ _) => True
  | SignalHandler => err <> None
  end.

(** Package run: [Run] returns the error of the member that returned first. *)
Class RunGroupSpec `{PeriodicTaskImpl W TaskImpl} : Prop :=
  group_first : forall g w err w', life (RunGroup g) w = (RunReturned err, w') -> exists m, m ∈ g /\ returns_first m err.

Lemma ticks_do_not_end `{PeriodicTaskImpl W TaskImpl} i l (s s' : W * TaskLoop) :
  Forall (eq Tick) l -> task_loop i l s <> (Ret true, s').
Proof.
  intros Hl. revert s. induction Hl as [|x l <- _ IH]; intros s; [by intros [=]|].
  cbn. unfold bind. destruct (task_tick i s) as [[u|m] s1]; [apply IH|by intros [=]].
Qed.

Lemma no_good_end `{RunGroupSpec} path : ~ ends_well path.
Proof.
  intros (text & rc & s1 & s2 & Hrc & w & w' & Hrun). destruct (group_first _ _ _ _ Hrun) as (m & Hm & Hr).
  apply elem_of_app in Hm as [Hm|Hm%list_elem_of_singleton]; [|by subst].
  apply list_elem_of_fmap in Hm as (a & -> & Ha). destruct (engine_group _ _ _ _ _ Hrc) as (acts & d & Eg & _ & Hg & _).
  apply app_inv_tail in Eg. apply (list_fmap_eq_inj Actor) in Eg as <-; [|by intros ? ? [=]].
  destruct (Hg a Ha) as (t & n & i0 & -> & _). destruct Hr as (l & w1 & r & w2 & Hl & Hx).
  unfold AddPeriodicTask_execute in Hx. destruct (Period t <=? 0); [done|]. destruct (PT_Impl t) as [i|]; [|done].
  unfold bind in Hx. destruct (on_impl (task_Task i) _) as [[u|m] s3]; [|by destruct s3].
  destruct (task_loop i l s3) as [[b|m] [w3 tl]] eqn:E; [|done]. injection Hx as -> -> ->. by eapply ticks_do_not_end.
Qed.

(** C40: The command does not tear down after it has run.  Its run group has no
    member that returns without an error before it is interrupted: a periodic
    task only returns after an interrupt, and the signal handler returns the
    signal as an error.  Once the scheduler has been started the process
    therefore always ends by an exit with code 1 (or by a crash, 2), and the
    deferred tear-down of transpiler, router and database channel is skipped. *)
Theorem edge_exits_without_teardown `{RunGroupSpec} s :
  logs fst (Execute format_impls decode decode_settings decode_groups versionByBuildFlag params cf) s (fun r _ ph =>
    PStart ∈ ph -> (r = Ret (Exited 1) \/ r = Ret (Exited 2)) /\ (PClose ∉ ph) /\ (forall c, PDown c ∉ ph)).
Proof.
  eapply logs_mono; [apply course_logs|]. intros r s' ph [Hc Hend] Hin.
  assert (forall p tasks, Forall is_task tasks -> p ∈ tasks -> is_task p) as Htask by (intros p l; rewrite Forall_forall; auto).
  assert (forall tasks, Forall is_task tasks -> PStart ∉ ups ++ tasks ++ downs) as Hno.
  { intros tasks Ht [Hi|[Hi|Hi]%elem_of_app]%elem_of_app; [set_solver| |set_solver].
    by destruct (Htask _ _ Ht Hi). }
  destruct r as [[[e|]|n]|m]; cbn in Hc.
  - destruct Hc as [->|(tasks & Ht & ->)]; [by apply elem_of_nil in Hin|by destruct (Hno tasks Ht)].
  - by destruct (no_good_end (SettingPath cf) (Hend eq_refl)).
  - destruct Hc as (Hn & ph' & (text & g & _ & _ & ->) & ->). split; [destruct Hn as [->| ->]; auto|].
    assert (forall p, p ∈ ups ++ group_tasks g ++ [PStart; PRun g] -> p <> PClose /\ forall c, p <> PDown c) as Hp; [|naive_solver].
    intros p [Hi|[Hi|Hi]%elem_of_app]%elem_of_app; [set_solver| |set_solver].
    apply list_elem_of_omap in Hi as ([a|] & _ & Hi); [|done]. cbn in Hi. unfold actor_task in Hi.
    by destruct (actor_impl a); [injection Hi as <-|].
  - destruct Hc as [[k ->]|(tasks & Ht & ->)]; [|by destruct (Hno tasks Ht)].
    apply elem_of_take in Hin as (i & Hi & _). apply list_elem_of_lookup_2 in Hi. set_solver.
Qed.
End course.

(** ** Instances *)

Module EdgeExample.
#[local] Existing Instance canonical_range.

(** A world in which everything is set up and the user interrupts the run. *)
Record World := mkWorld { made : list life_event }.

Definition has_handler (g : list member) : bool :=
  existsb (fun m => match m with SignalHandler => true | _ => false end) g.

Definition answer {A} (e : lifeE A) : A :=
  match e with
  | OsStat _ => inl 493
  | NewRotateLogs _ _ => None
  | ReadSettings _ => inl "text"
  | SetupComponent _ _ _ => Ret None
  | StartScheduler _ => None
  | TearDownComponent _ _ => tt
  | CloseDBChan => tt
  | TaskSetParams _ _ => Ret None
  | TaskSetup _ => Ret None
  | RunGroup g => if has_handler g then RunReturned (Some "received signal interrupt") else Crashed
  end.

#[local] Instance World_life : LifeIO World := fun A e w => (answer e, mkWorld (made w ++ [LifeEv e (answer e)])).
#[local] Program Instance World_trace : LifeTrace World := {| calls := made |}.
Next Obligation. reflexivity. Qed.
#[local] Instance World_dig : Dig := {| Provide _ := None; invoke_error _ e := e |}.
#[local] Instance World_format : FormatV := fun _ => "".
#[local] Instance World_tasks : PeriodicTaskImpl World TaskImpl :=
  {| task_RequirePeriodUpdate _ _ := (false, 0); task_Task _ := ret tt; task_Cleanup _ := ret tt |}.
#[local] Instance World_group : RunGroupSpec (W := World).
Proof.
  intros g w err w' Hr. injection Hr as Hr _. unfold answer in Hr.
  destruct (has_handler g) eqn:E; [|done]. injection Hr as <-.
  apply existsb_exists in E as ([a|] & Hin & H); [done|]. exists SignalHandler. split; [by apply list_elem_of_In|done].
Qed.

Definition conf : Conf :=
  mkConf "" false false false "./shares/logs" "info" 7 false "./device_setting.toml" 100 10 "localhost" "50052" "" false 10
    "localhost" "key" false "./setting/setting.toml".
Definition params : DIContainerParameters := mkDIContainerParameters "service" "tranqu" "gateway" "normal".
Definition fresh : World * Globals := (mkWorld [], mkGlobals "" None None None None None).
Definition tables (_ : string) : (gmap string Dyn * gmap string Dyn) + error := inl (∅, ∅).
Definition groups (_ : string) : gmap string Dyn + error := inl {[PERIODIC_TASKS := DMap [("poller", DMap [])]]}.
Definition decoded (_ : string) : DecodedGroups + error := inl (mkDecodedGroups {["poller" := (5, None)]} ∅ ∅).
Definition run : outcome ended * (World * Globals) :=
  Execute (fun _ => "") tables groups decoded "v1" params conf fresh.

Definition poller_actor : actor TaskImpl := PeriodicActor (mkPeriodicTask 5 None (Some PollerImpl)) "poller".

Lemma run_ends :
  run.1 = Ret (Exited 1) /\
  phases (made run.2.1) = ups ++ [PTask PollerImpl; PStart; PRun [Actor poller_actor; SignalHandler]].
Proof. split; vm_compute; reflexivity. Qed.


Lemma edge_exits_without_teardown_witness :
  logs fst (Execute (fun _ => "") tables groups decoded "v1" params conf) fresh (fun r _ ph =>
    PStart ∈ ph -> (r = Ret (Exited 1) \/ r = Ret (Exited 2)) /\ (PClose ∉ ph) /\ (forall c, PDown c ∉ ph)).
Proof. exact (edge_exits_without_teardown (fun _ => "") tables groups decoded "v1" params conf fresh). Defined.
End EdgeExample.
