(* ===== verification/Metrics.v ===== *)
(** * Package log: metrics (log/metrics.go) and writable directories (common/util.go)

    The metrics task writes a line with the length of the queue to the file of
    the day.  The files are a class: what [os.OpenFile], [Write] and [Close]
    answer, and (class [LogFilesSpec]) what they do to the contents and to the
    set of open files. *)

From stdpp Require Import base gmap strings list fin_maps.
From Stdlib Require Import ZArith Lia Ascii.
From S2P Require Import Prelude GoString GoPath GoDate Core Setting Job Poller Run Edge.

(** ** Files *)

Class DirIO (W : Type) := {
  dir_Stat : string -> W -> bool + (bool * error);
  dir_CreateTemp : string -> string -> W -> (string + error) * W;
  dir_Remove : string -> W -> option error * W
}.

(** [dir_Stat] is [inl IsDir], or the error with [os.IsNotExist] of it. *)
Definition IsDirWritable {W} `{DirIO W} (dirPath : string) : M W (option error) :=
  let! w := get in
  match dir_Stat dirPath w with
  | inr (true, _) => ret (Some ("directory does not exist: " +:+ dirPath))
  | inr (false, e) => ret (Some e)
  | inl false => ret (Some (dirPath +:+ " is not a directory"))
  | inl true =>
      let! r := (fun w => let '(r, w') := dir_CreateTemp dirPath "test-write-*.tmp" w in (Ret r, w')) in
      match r with
      | inr _ => ret (Some ("write permission denied for directory: " +:+ dirPath))
      | inl fileName =>
          let! e := (fun w => let '(e, w') := dir_Remove fileName w in (Ret e, w')) in
          match e with
          | Some e => ret (Some ("failed to remove temporary file: " +:+ e))
          | None => ret None
          end
      end
  end.

Class LogFiles (W : Type) := {
  OpenAppend : string -> W -> (nat + error) * W;
  File_Write : nat -> string -> W -> (Z * option error) * W;
  File_Close : nat -> W -> option error * W
}.

Class LocalZone := zone_offset : Z -> Z.

(** The local day of a time in nanoseconds since 1970. *)
Definition local_day {LZ : LocalZone} (now : Z) : Z :=
  let sec := now / 10 ^ 9 in (sec + zone_offset sec) / 86400.

(** ** The daily logger *)

Record dailyLogger := mkDailyLogger {
  dl_fileDir : string;
  dl_currentFileName : string;
  dl_file : option nat
}.

Definition newDailyLogger (fileDir : string) : dailyLogger := mkDailyLogger fileDir "" None.

Definition metrics_name {LZ : LocalZone} (now : Z) : string :=
  "metrics-" +:+ FormatDate (local_day now) +:+ ".log".
Definition metrics_path {LZ : LocalZone} (dir : string) (now : Z) : string := filepath_Join [dir; metrics_name now].

Section logger.
Context {W : Type} `{HF : LogFiles W} {LZ : LocalZone}.

Definition lf {A} (c : W -> A * W) : M (W * dailyLogger) A := fun s => let '(a, w) := c s.1 in (Ret a, (w, s.2)).

(** [os.OpenFile] into [dl.file]; the name is remembered when it succeeds. *)
Definition open_day (fileName filePath : string) : M (W * dailyLogger) (nat + error) :=
  let! r := lf (OpenAppend filePath) in
  match r with
  | inr e => modify (fun s => (s.1, mkDailyLogger (dl_fileDir s.2) (dl_currentFileName s.2) None)) ;;! ret (inr e)
  | inl h => modify (fun s => (s.1, mkDailyLogger (dl_fileDir s.2) fileName (Some h))) ;;! ret (inl h)
  end.

(** The file to write to; the one of another day is closed. *)
Definition write_open (fileName filePath : string) : M (W * dailyLogger) (nat + error) :=
  let! s := get in
  match dl_file s.2 with
  | Some h =>
      if String.eqb (filepath_Join [dl_fileDir s.2; dl_currentFileName s.2]) filePath then ret (inl h)
      else lf (File_Close h) ;;! open_day fileName filePath
  | None => open_day fileName filePath
  end.

(** [Write] at the time [now]. *)
Definition write_at (now : Z) (p : string) : M (W * dailyLogger) (Z * option error) :=
  let! s := get in
  let! r := write_open (metrics_name now) (metrics_path (dl_fileDir s.2) now) in
  match r with
  | inr e => ret (0, Some e)
  | inl h => lf (File_Write h p)
  end.

Definition dailyLogger_Write `{GoClock W} (p : string) : M (W * dailyLogger) (Z * option error) :=
  let! now := lf Now in write_at now p.

Definition dailyLogger_Close : M (W * dailyLogger) (option error) :=
  let! s := get in
  match dl_file s.2 with
  | Some h => lf (File_Close h)
  | None => ret None
  end.
End logger.

(** ** The task *)

(** The line package slog makes of the record: its time and the queue length. *)
Class SlogLine := slog_line : Z -> Z -> string.

Record MetricsLogTaskImpl := mkMetricsLogTask {
  FileDir : string;
  m_dl : option dailyLogger;
  m_sc : option Container
}.

Section task.
Context {W J : Type} `{HF : LogFiles W} `{HDir : DirIO W} `{HC : GoClock W} `{HSch : IScheduler W J}
  {LZ : LocalZone} {SL : SlogLine} {FV : FormatV}.

Definition setupMetricsLogTask (fileDir : string) : M W (dailyLogger + error) :=
  let! err := IsDirWritable fileDir in
  match err with
  | Some e => ret (inr ("failed to write to " +:+ fileDir +:+ ": " +:+ e))
  | None => ret (inl (newDailyLogger fileDir))
  end.

(** [sc] is [core.GetSystemComponents()] at the call. *)
Definition MetricsLogTaskImpl_Setup (sc : option Container) : M (W * MetricsLogTaskImpl) (option error) :=
  fun s =>
    match setupMetricsLogTask (FileDir s.2) s.1 with
    | (Ret (inr e), w) => (Ret (Some e), (w, s.2))
    | (Ret (inl dl), w) => (Ret None, (w, mkMetricsLogTask (FileDir s.2) (Some dl) sc))
    | (Panic m, w) => (Panic m, (w, s.2))
    end.

Definition MetricsLogTaskImpl_SetParams (p : option Dyn) : M (W * MetricsLogTaskImpl) (option error) :=
  match p with
  | None => ret None
  | Some v =>
      match as_map p with
      | None => ret (Some ("failed to set params for metrics log task/params: " +:+ format_v v))
      | Some mp =>
          match as_string (mp !! "file_dir") with
          | Some fileDir => modify (fun s => (s.1, mkMetricsLogTask fileDir (m_dl s.2) (m_sc s.2))) ;;! ret None
          | None => ret None
          end
      end
  end.

(** The logger of the task is the writer of the default handler; the handler
    drops its error. *)
Definition MetricsLogTaskImpl_Task : M (W * MetricsLogTaskImpl) unit :=
  let! s := get in
  match m_sc s.2 with
  | None => gopanic nil_pointer
  | Some con =>
      let size := GetCurrentQueueSize con s.1 in
      fun s =>
        let '(now, w) := Now s.1 in
        match m_dl s.2 with
        | None => (Ret tt, (w, s.2))
        | Some dl =>
            match dailyLogger_Write (slog_line now size) (w, dl) with
            | (Ret _, (w', dl')) => (Ret tt, (w', mkMetricsLogTask (FileDir s.2) (Some dl') (m_sc s.2)))
            | (Panic m, (w', dl')) => (Panic m, (w', mkMetricsLogTask (FileDir s.2) (Some dl') (m_sc s.2)))
            end
        end
  end.

(** [Close] dereferences its receiver. *)
Definition MetricsLogTaskImpl_Cleanup : M (W * MetricsLogTaskImpl) unit :=
  fun s =>
    match m_dl s.2 with
    | None => (Panic nil_pointer, s)
    | Some dl =>
        match dailyLogger_Close (s.1, dl) with
        | (Ret _, (w', dl')) => (Ret tt, (w', mkMetricsLogTask (FileDir s.2) (Some dl') (m_sc s.2)))
        | (Panic m, (w', dl')) => (Panic m, (w', s.2))
        end
    end.
End task.

(** ** What the files hold *)

Class LogFilesSpec (W : Type) `{LogFiles W} := {
  content : W -> string -> string;
  opened : W -> gmap nat string;
  open_spec : forall p w,
    match OpenAppend p w with
    | (inl h, w') => opened w !! h = None /\ opened w' = <[h := p]> (opened w) /\ (forall q, content w' q = content w q)
    | (inr _, w') => opened w' = opened w /\ (forall q, content w' q = content w q)
    end;
  write_spec : forall h p w,
    let '((n, err), w') := File_Write h p w in
    opened w' = opened w /\
    match opened w !! h with
    | Some path => 0 <= n <= len p /\ (err = None -> n = len p) /\
        (forall q, content w' q = content w q +:+ (if String.eqb path q then String.substring 0 (Z.to_nat n) p else ""))
    | None => n = 0 /\ err <> None /\ (forall q, content w' q = content w q)
    end;
  close_spec : forall h w,
    let '(_, w') := File_Close h w in opened w' = delete h (opened w) /\ (forall q, content w' q = content w q)
}.

Section facts.
Context {W : Type} `{HF : LogFiles W} `{HS : !LogFilesSpec W} {LZ : LocalZone}.

(** The logger has at most one file open, the one it remembers. *)
Definition holds_one (w : W) (dl : dailyLogger) : Prop :=
  opened w = match dl_file dl with
             | Some h => {[h := filepath_Join [dl_fileDir dl; dl_currentFileName dl]]}
             | None => ∅
             end.

Definition same_content (w w' : W) : Prop := forall q, content w' q = content w q.

(** What is left by code that ends with the file [path] open, or with none. *)
Definition has_file (w : W) (dl : dailyLogger) (path : string) (res : outcome (nat + error) * (W * dailyLogger)) : Prop :=
  exists r w' dl', res = (Ret r, (w', dl')) /\ same_content w w' /\ holds_one w' dl' /\ dl_fileDir dl' = dl_fileDir dl /\
    match r with inl h => opened w' = {[h := path]} | inr _ => True end.

Lemma open_day_spec w dl name :
  opened w = ∅ -> has_file w dl (filepath_Join [dl_fileDir dl; name]) (open_day name (filepath_Join [dl_fileDir dl; name]) (w, dl)).
Proof.
  intros Hw. unfold open_day, bind, lf, modify, ret. cbn [fst snd].
  pose proof (open_spec (filepath_Join [dl_fileDir dl; name]) w) as H.
  destruct (OpenAppend _ w) as [[h|e] w1]; [destruct H as (_ & Ho & Hc)|destruct H as [Ho Hc]]; rewrite Hw in Ho;
    (eexists _, _, _; split; [reflexivity|]; split_and!; done).
Qed.

Lemma write_open_spec w dl name :
  holds_one w dl ->
  has_file w dl (filepath_Join [dl_fileDir dl; name]) (write_open name (filepath_Join [dl_fileDir dl; name]) (w, dl)).
Proof.
  unfold holds_one, write_open, bind at 1, get. cbn [snd]. destruct (dl_file dl) as [h|] eqn:Ef; intros Hw; [|by apply open_day_spec].
  destruct (String.eqb_spec (filepath_Join [dl_fileDir dl; dl_currentFileName dl]) (filepath_Join [dl_fileDir dl; name])) as [Ep|Ep].
  - eexists _, w, dl. split; [reflexivity|]. split_and!; [done| |done|by rewrite <- Ep]. unfold holds_one. by rewrite Ef.
  - unfold bind, lf. cbn [fst snd]. pose proof (close_spec h w) as Hc. destruct (File_Close h w) as [e w1]. destruct Hc as [Ho Hc].
    destruct (open_day_spec w1 dl name) as (r & w' & dl' & E & Hc' & H); [by rewrite Ho, Hw, delete_singleton_eq|].
    exists r, w', dl'. split; [exact E|]. split; [|exact H]. intros q. by rewrite Hc'.
Qed.

Lemma write_at_spec w dl now p :
  holds_one w dl ->
  exists n err w' dl', write_at now p (w, dl) = (Ret (n, err), (w', dl')) /\ holds_one w' dl' /\
    dl_fileDir dl' = dl_fileDir dl /\ 0 <= n <= len p /\ (err = None -> n = len p) /\
    (forall q, content w' q = content w q +:+
       (if String.eqb (metrics_path (dl_fileDir dl) now) q then String.substring 0 (Z.to_nat n) p else "")).
Proof.
  intros Hw. destruct (write_open_spec w dl (metrics_name now) Hw) as (r & w1 & dl1 & E & Hc & Ho & Hd & Hr).
  unfold write_at, bind, get, metrics_path. cbn [snd]. rewrite E. pose proof (len_nonneg p) as Hp. destruct r as [h|e].
  - unfold lf. cbn [fst snd]. pose proof (write_spec h p w1) as H. destruct (File_Write h p w1) as [[n err] w2].
    destruct H as [Ho2 H]. rewrite Hr, lookup_singleton_eq in H. destruct H as (Hn & He & Hq).
    exists n, err, w2, dl1. split_and!; [done|unfold holds_one; by rewrite Ho2|done|lia|lia|done|].
    intros q. rewrite Hq. by rewrite Hc.
  - exists 0, (Some e), w1, dl1. split_and!; [done|done|done|lia|lia|done|].
    intros q. rewrite Hc. destruct (String.eqb _ q); [|by rewrite string_app_nil_r].
    change (Z.to_nat 0) with 0%nat. by destruct p; cbn; rewrite string_app_nil_r.
Qed.
(** A sequence of writes, each at its time, and the text of it that belongs to
    the file [q]. *)
Fixpoint write_all (l : list (Z * string)) : M (W * dailyLogger) (list (Z * option error)) :=
  match l with
  | [] => ret []
  | (now, p) :: l' => let! r := write_at now p in let! rs := write_all l' in ret (r :: rs)
  end.

Fixpoint text_for (dir q : string) (l : list (Z * string)) (rs : list (Z * option error)) : string :=
  match l, rs with
  | (now, p) :: l', (n, _) :: rs' =>
      (if String.eqb (metrics_path dir now) q then String.substring 0 (Z.to_nat n) p else "") +:+ text_for dir q l' rs'
  | _, _ => ""
  end.

Definition reported (e : Z * string) (r : Z * option error) : Prop :=
  0 <= r.1 <= len e.2 /\ (r.2 = None -> r.1 = len e.2).

Lemma write_all_spec l w dl :
  holds_one w dl ->
  exists rs w' dl', write_all l (w, dl) = (Ret rs, (w', dl')) /\ holds_one w' dl' /\ Forall2 reported l rs /\
    (forall q, content w' q = content w q +:+ text_for (dl_fileDir dl) q l rs).
Proof.
  revert w dl. induction l as [|[now p] l IH]; intros w dl Hw.
  { exists [], w, dl. split_and!; [done|done|constructor|]. intros q. by rewrite string_app_nil_r. }
  destruct (write_at_spec w dl now p Hw) as (n & err & w1 & dl1 & E & Hw1 & Hd & Hn & He & Hq).
  destruct (IH w1 dl1 Hw1) as (rs & w2 & dl2 & E2 & Hw2 & Hf & Hq2).
  exists ((n, err) :: rs), w2, dl2. split_and!; [|done|by constructor|].
  - cbn [write_all]. unfold bind. by rewrite E, E2.
  - intros q. cbn [text_for]. by rewrite Hq2, Hq, Hd, string_app_assoc.
Qed.

(** *** One file per day *)

Lemma no_slash_app a b : no_slash a -> no_slash b -> no_slash (a +:+ b).
Proof.
  unfold no_slash. induction a as [|c a IH]; [done|]. rewrite string_cons_app. cbn [string_forallb].
  intros [-> Ha]%andb_true_iff Hb. by apply IH.
Qed.

Lemma digits_no_slash s : string_forallb is_digit s = true -> no_slash s.
Proof.
  unfold no_slash. induction s as [|c s IH]; [done|]. cbn [string_forallb]. intros [Hc Hs]%andb_true_iff. rewrite IH by done.
  rewrite andb_true_r. apply negb_true_iff, Ascii.eqb_neq. by intros ->.
Qed.

Lemma pad_digits_no_slash width n acc : 0 <= n -> no_slash acc -> no_slash (pad_digits width n acc).
Proof.
  revert n acc. induction width as [|width IH]; intros n acc Hn Ha; cbn [pad_digits].
  - destruct (n =? 0); [done|]. apply no_slash_app; [by apply digits_no_slash, FormatUint_digits|done].
  - apply IH; [apply Z.div_pos; lia|]. pose proof (Z.mod_pos_bound n 10 ltac:(lia)) as Hm.
    apply (no_slash_app (String (digit_char (n mod 10)) "")); [|done].
    apply digits_no_slash. cbn [string_forallb]. rewrite is_digit_char by lia. done.
Qed.

Lemma pad_no_slash width n : no_slash (pad width n).
Proof.
  unfold pad. destruct (Z.ltb_spec n 0); [apply (no_slash_app "-"); [done|]|]; apply pad_digits_no_slash; try lia; done.
Qed.

Lemma metrics_name_normal now : normal_name (metrics_name now).
Proof.
  unfold metrics_name, FormatDate. destruct (civil (local_day now)) as [[y m] d]. split_and!; [done..|].
  repeat first [apply no_slash_app|apply pad_no_slash|done].
Qed.

Lemma join_inj dir n1 n2 :
  normal_name n1 -> normal_name n2 -> filepath_Join [dir; n1] = filepath_Join [dir; n2] -> n1 = n2.
Proof.
  assert (forall n, normal_name n -> List.filter is_name (split_slash n) = [n]) as Hf.
  { intros n Hn. rewrite split_slash_no_slash by apply Hn. by apply filter_names; constructor. }
  intros H1 H2 E. destruct (String.eqb_spec dir "") as [->|Hd].
  - assert (forall n, normal_name n -> path_elems (filepath_Join [""; n]) = [n]) as Hp.
    { intros n Hn. change (filepath_Join [""; n]) with (filepath_Join [n]).
      destruct (path_elems_Join n [] ltac:(apply Hn) ltac:(constructor)) as [-> _]. cbn. rewrite app_nil_r.
      unfold path_elems. rewrite split_slash_no_slash by apply Hn. unfold clean_elems.
      rewrite (clean_push _ [n] []), filter_names by (repeat constructor; apply Hn). done. }
    apply (f_equal path_elems) in E. rewrite !Hp in E by done. by injection E.
  - destruct (path_elems_Join dir [n1] Hd) as [E1 _]; [repeat constructor; by apply normal_no_way_up|].
    destruct (path_elems_Join dir [n2] Hd) as [E2 _]; [repeat constructor; by apply normal_no_way_up|].
    rewrite E, E2 in E1. cbn in E1. rewrite !Hf, !app_nil_r in E1 by done. apply app_inv_head in E1. by injection E1.
Qed.
(** The metrics of a day are in the file of the day.  Whatever the files
    answer and whenever the writes happen, a logger that starts without an open
    file ends each write with a count of the bytes it took (all of them unless
    it reports an error); the text each file has gained is what the writes of
    its day took, in their order, and no other file changes; at most one file is
    open.  Two times (of the years 0 to 9999) share a file exactly when they are
    on the same local day. *)
Theorem daily_log_by_day dir l w :
  opened w = ∅ ->
  (exists rs w' dl', write_all l (w, newDailyLogger dir) = (Ret rs, (w', dl')) /\ Forall2 reported l rs /\
     (forall q, content w' q = content w q +:+ text_for dir q l rs) /\ (size (opened w') <= 1)%nat) /\
  (forall t1 t2, common_year (local_day t1) -> common_year (local_day t2) ->
     metrics_path dir t1 = metrics_path dir t2 <-> local_day t1 = local_day t2).
Proof.
  intros Hw. split.
  - destruct (write_all_spec l w (newDailyLogger dir) Hw) as (rs & w' & dl' & E & Ho & Hf & Hq).
    exists rs, w', dl'. split_and!; [done..|]. unfold holds_one in Ho. rewrite Ho.
    destruct (dl_file dl'); [by rewrite map_size_singleton|by rewrite map_size_empty; lia].
  - intros t1 t2 H1 H2. split; [|by intros E; unfold metrics_path, metrics_name; rewrite E]. intros E.
    apply join_inj in E; [|apply metrics_name_normal..]. unfold metrics_name in E.
    apply (string_app_inj "metrics-" "metrics-") in E as [_ E]; [|done].
    apply FormatDate_inj; [done..|]. apply string_app_inj in E as [E _]; [done|].
    unfold FormatDate, common_year in *. pose proof (civil_spec (local_day t1)) as S1. pose proof (civil_spec (local_day t2)) as S2.
    destruct (civil (local_day t1)) as [[y1 m1] d1]. destruct (civil (local_day t2)) as [[y2 m2] d2]. cbn in H1, H2.
    rewrite !string_app_length, !pad_length by (cbn; lia). done.
Qed.
End facts.

(** ** Instance *)

Module MetricsExample.
(** Files that take every write; the last handle is the number of opens. *)
Record World := mkWorld { texts : gmap string string; handles : gmap nat string; opens : nat }.

Definition fresh_handle (w : World) : nat := fresh (dom (handles w)).

#[local] Instance World_files : LogFiles World :=
  {| OpenAppend p w := (inl (fresh_handle w), mkWorld (texts w) (<[fresh_handle w := p]> (handles w)) (S (opens w)));
     File_Write h p w :=
       match handles w !! h with
       | Some path => ((len p, None), mkWorld (<[path := default "" (texts w !! path) +:+ p]> (texts w)) (handles w) (opens w))
       | None => ((0, Some "file already closed"), w)
       end;
     File_Close h w := (None, mkWorld (texts w) (delete h (handles w)) (opens w)) |}.

#[local] Program Instance World_spec : LogFilesSpec World :=
  {| content w q := default "" (texts w !! q); opened := handles |}.
Next Obligation.
  intros p w. split_and!; [|done|done]. apply not_elem_of_dom. unfold fresh_handle. apply is_fresh.
Qed.
Next Obligation.
  intros h p w. cbn. destruct (handles w !! h) as [path|] eqn:E; cbn; rewrite ?E; [|done].
  pose proof (len_nonneg p). split_and!; [done|lia|lia|done|]. intros q.
  destruct (String.eqb_spec path q) as [->|Hne].
  - rewrite lookup_insert_eq. cbn. unfold len. by rewrite Nat2Z.id, substring_full.
  - by rewrite lookup_insert_ne, string_app_nil_r.
Qed.
Next Obligation. done. Qed.

#[local] Instance utc : LocalZone := fun _ => 0.
Definition start : World := mkWorld ∅ ∅ 0.
Definition day : Z := 86400 * 10 ^ 9.
(** 1 January 1970 twice, then the next day. *)
Definition entries : list (Z * string) := [(5, "a"); (7, "b"); (day, "c")].

Lemma daily_log_by_day_witness :
  exists rs w' dl', write_all entries (start, newDailyLogger "/logs") = (Ret rs, (w', dl')) /\
    content w' "/logs/metrics-1970-01-01.log" = "ab" /\ content w' "/logs/metrics-1970-01-02.log" = "c" /\
    (size (opened w') <= 1)%nat.
Proof.
  destruct (proj1 (daily_log_by_day (HS := World_spec) "/logs" entries start eq_refl)) as (rs & w' & dl' & E & _ & Hq & Hs).
  exists rs, w', dl'. split; [exact E|]. rewrite !Hq.
  assert (rs = [(1, None); (1, None); (1, None)]) as ->.
  { apply (f_equal fst) in E. vm_compute in E. injection E as <-. reflexivity. }
  split; [vm_compute; reflexivity|]. split; [vm_compute; reflexivity|exact Hs].
Defined.
End MetricsExample.
