(* ===== verification/Jx.v ===== *)
(** * The interface of the JSON encoder and decoder of the generated client

    The codecs of the provider API (oas/gen/providerapi/oas_json_gen.go) are
    written against a third-party streaming encoder and decoder.  An [Encode]
    method is a sequence of calls on the encoder: it is modelled by that
    sequence ([encoder]).  A [Decode] method runs a decoder and fills the value
    it is called on ([decoder]): the decoder is any type with the operations of
    [JxDecoder].  [JxLaws] names what is documented of the pair: reading what
    was written gives it back.

    [object] is the body every generated [Decode] of a struct has: the loop over
    the members and the check of the required ones by bit sets.
    [required_failures_missing] proves this check equivalent to its meaning,
    and [object_reads] is the rule by which the round trips of the schemas are
    proved. *)

From stdpp Require Import base gmap strings list fin_maps.
From Stdlib Require Import ZArith Lia.
From S2P Require Import Prelude GoString.

(** ** Errors

    The generated code builds structured errors; [EOF] and the package-level
    values ([Sentinel]) are compared with. *)
#[local] Unset Elimination Schemes.
Inductive gerror :=
| EOF
| Err (msg : string)
| Wrap (err : gerror) (msg : string)
| FieldErrors (fields : list (string * gerror))
| DecodeBodyError (contentType body : string) (err : gerror)
| DecodeParamError (name in_ : string) (err : gerror)
| InvalidContentType (ct : string)
| UnexpectedStatusCode (code : Z)
| Sentinel (name : string)
| SecurityError (operation security : string) (err : gerror)
| DecodeParamsError (operation : string) (err : gerror)
| DecodeRequestError (operation : string) (err : gerror).
#[local] Set Elimination Schemes.

Definition is_EOF (e : option gerror) : bool := match e with Some EOF => true | _ => false end.
(** [errors.Is(err, target)] for a package-level [target]. *)
Fixpoint errors_Is (target : string) (e : gerror) : bool :=
  match e with
  | Sentinel name => String.eqb name target
  | Wrap e _ | DecodeBodyError _ _ e | DecodeParamError _ _ e | SecurityError _ _ e | DecodeParamsError _ e
  | DecodeRequestError _ e => errors_Is target e
  | _ => false
  end.
Definition wrap_opt (e : option gerror) (msg : string) : option gerror := (fun e => Wrap e msg) <$> e.
Definition ErrFieldRequired : gerror := Err "field required".

(** ** The encoder: the calls made on it *)

Inductive jx_call :=
| ObjStart | ObjEnd | ArrStart | ArrEnd
| FieldStart (k : string)
| CStr (s : string)
| CInt (n : Z)
| CFloat64 (f : Z)
| CNull
| CRaw (b : string).

#[global] Instance jx_call_eq_dec : EqDecision jx_call.
Proof. solve_decision. Defined.

Definition encoder (A : Type) : Type := A -> list jx_call.

Definition enc_Str : encoder string := fun s => [CStr s].
Definition enc_Int : encoder Z := fun n => [CInt n].
Definition enc_Float64 : encoder Z := fun f => [CFloat64 f].

(** A member of an object: its name and the calls that write its value. *)
Definition member : Type := string * list jx_call.
Definition write_member (m : member) : list jx_call := FieldStart m.1 :: m.2.
Definition write_members (ms : list member) : list jx_call := ms ≫= write_member.
Definition write_object (ms : list member) : list jx_call := ObjStart :: write_members ms ++ [ObjEnd].
Definition write_array (vs : list (list jx_call)) : list jx_call := ArrStart :: concat vs ++ [ArrEnd].

(** ** The decoder *)

Inductive jx_type := TInvalid | TString | TNumber | TNull | TBool | TArray | TObject.

#[global] Instance jx_type_eq_dec : EqDecision jx_type.
Proof. solve_decision. Defined.

(** Every operation returns the decoder after it.  The callbacks of [d_ObjBytes]
    and [d_Arr] change the variables they close over: the state [S]. *)
Class JxDecoder (D : Type) := {
  DecodeBytes : string -> D;
  d_Next : D -> jx_type * D;
  d_Null : D -> option gerror * D;
  d_Str : D -> string * option gerror * D;
  d_Int : D -> Z * option gerror * D;
  d_Float64 : D -> Z * option gerror * D;
  d_RawAppend : D -> string * option gerror * D;
  d_Skip : D -> option gerror * D;
  d_ObjBytes : forall S : Type, (string -> D -> S -> option gerror * D * S) -> D -> S -> option gerror * D * S;
  d_Arr : forall S : Type, (D -> S -> option gerror * D * S) -> D -> S -> option gerror * D * S
}.
Arguments d_ObjBytes {D _ S}.
Arguments d_Arr {D _ S}.

(** What a call that begins a value shows to [d_Next]; raw text is not looked
    into. *)
Definition value_type (c : jx_call) : option jx_type :=
  match c with
  | ObjStart => Some TObject
  | ArrStart => Some TArray
  | CStr _ => Some TString
  | CInt _ | CFloat64 _ => Some TNumber
  | CNull => Some TNull
  | _ => None
  end.

(** A method [func (s *A) Decode(d *jx.Decoder) error]: the receiver is the
    address of a variable, so it is not nil. *)
Definition decoder (D A : Type) : Type := D -> A -> option gerror * D * A.

Section laws.
Context {D : Type} {J : JxDecoder D}.

Section relations.
(** [At d cs]: what [d] has still to read is what the calls [cs] wrote. *)
Variable At : D -> list jx_call -> Prop.

(** Reading what [cs] wrote takes [a0] to [a1] without an error. *)
Definition reads_at {A} (dec : decoder D A) (cs : list jx_call) (a0 a1 : A) : Prop :=
  forall d r, At d (cs ++ r) -> exists d', dec d a0 = (None, d', a1) /\ At d' r.

(** Reading what [cs] wrote fails. *)
Definition fails_at {A} (dec : decoder D A) (cs : list jx_call) (a0 : A) : Prop :=
  forall d r, At d (cs ++ r) -> exists e d' a1, dec d a0 = (Some e, d', a1).

Inductive obj_run_at {S} (f : string -> decoder D S) : list member -> S -> S -> Prop :=
| obj_nil s : obj_run_at f [] s s
| obj_cons k v ms s s1 s2 :
    reads_at (f k) v s s1 -> obj_run_at f ms s1 s2 -> obj_run_at f ((k, v) :: ms) s s2.

Inductive arr_run_at {S} (f : decoder D S) : list (list jx_call) -> S -> S -> Prop :=
| arr_nil s : arr_run_at f [] s s
| arr_cons v vs s s1 s2 :
    reads_at f v s s1 -> arr_run_at f vs s1 s2 -> arr_run_at f (v :: vs) s s2.
End relations.
End laws.

(** ** Well-formed output

    [str_ok], [float_ok] and [raw_ok] say which strings (valid UTF-8), numbers
    (finite) and raw texts (one JSON value) survive being written. *)
Section wf.
Context (str_ok : string -> Prop) (float_ok : Z -> Prop) (raw_ok : string -> Prop).

Inductive json_value_of : list jx_call -> Prop :=
| jv_str s : str_ok s -> json_value_of [CStr s]
| jv_int n : in_i64 n -> json_value_of [CInt n]
| jv_float f : float_ok f -> json_value_of [CFloat64 f]
| jv_null : json_value_of [CNull]
| jv_raw b : raw_ok b -> json_value_of [CRaw b]
| jv_obj ms : Forall (fun m => str_ok m.1) ms -> json_values_of ms.*2 -> json_value_of (write_object ms)
| jv_arr vs : json_values_of vs -> json_value_of (write_array vs)
with json_values_of : list (list jx_call) -> Prop :=
| jvs_nil : json_values_of []
| jvs_cons v vs : json_value_of v -> json_values_of vs -> json_values_of (v :: vs).
End wf.

(** What is documented of encoder and decoder.  [fits] is the nesting limit. *)
Class JxLaws (D : Type) {J : JxDecoder D} := {
  Bytes : list jx_call -> string;
  str_ok : string -> Prop;
  float_ok : Z -> Prop;
  raw_ok : string -> Prop;
  str_ok_ascii : forall s, string_forallb is_ascii s = true -> str_ok s;
  raw_ok_nonempty : ~ raw_ok "";
  fits : list jx_call -> Prop;
  At : D -> list jx_call -> Prop;
  Bytes_nonempty : forall cs, json_value_of str_ok float_ok raw_ok cs -> fits cs -> Bytes cs <> "";
  at_start : forall cs, json_value_of str_ok float_ok raw_ok cs -> fits cs -> At (DecodeBytes (Bytes cs)) cs;
  at_next : forall d c v r t, json_value_of str_ok float_ok raw_ok (c :: v) -> value_type c = Some t ->
    At d ((c :: v) ++ r) -> exists d', d_Next d = (t, d') /\ At d' ((c :: v) ++ r);
  at_null : forall d r, At d (CNull :: r) -> exists d', d_Null d = (None, d') /\ At d' r;
  at_str : forall d s r, str_ok s -> At d (CStr s :: r) -> exists d', d_Str d = (s, None, d') /\ At d' r;
  at_int : forall d n r, in_i64 n -> At d (CInt n :: r) -> exists d', d_Int d = (n, None, d') /\ At d' r;
  at_float : forall d f r, float_ok f -> At d (CFloat64 f :: r) -> exists d', d_Float64 d = (f, None, d') /\ At d' r;
  at_raw : forall d b r, raw_ok b -> At d (CRaw b :: r) -> exists d', d_RawAppend d = (b, None, d') /\ At d' r;
  at_skip : forall d v r, json_value_of str_ok float_ok raw_ok v -> At d (v ++ r) ->
    exists d', d_Skip d = (None, d') /\ At d' r;
  at_eof : forall d, At d [] -> exists d', d_Skip d = (Some EOF, d');
  at_obj : forall S (f : string -> decoder D S) ms r d s s',
    Forall (fun m => str_ok m.1 /\ json_value_of str_ok float_ok raw_ok m.2) ms ->
    obj_run_at At f ms s s' -> At d (write_object ms ++ r) ->
    exists d', d_ObjBytes f d s = (None, d', s') /\ At d' r;
  at_obj_error : forall S (f : string -> decoder D S) ms k v ms' r d s s1,
    Forall (fun m => str_ok m.1 /\ json_value_of str_ok float_ok raw_ok m.2) (ms ++ (k, v) :: ms') ->
    obj_run_at At f ms s s1 -> fails_at At (f k) v s1 ->
    At d (write_object (ms ++ (k, v) :: ms') ++ r) ->
    exists e d' s', d_ObjBytes f d s = (Some e, d', s');
  at_arr : forall S (f : decoder D S) vs r d s s', Forall (json_value_of str_ok float_ok raw_ok) vs ->
    arr_run_at At f vs s s' -> At d (write_array vs ++ r) ->
    exists d', d_Arr f d s = (None, d', s') /\ At d' r;
  at_arr_error : forall S (f : decoder D S) vs v vs' r d s s1,
    Forall (json_value_of str_ok float_ok raw_ok) (vs ++ v :: vs') ->
    arr_run_at At f vs s s1 -> fails_at At f v s1 ->
    At d (write_array (vs ++ v :: vs') ++ r) ->
    exists e d' s', d_Arr f d s = (Some e, d', s')
}.

Abbreviation reads := (reads_at At).
Abbreviation fails := (fails_at At).
Abbreviation obj_run := (obj_run_at At).
Abbreviation arr_run := (arr_run_at At).
Abbreviation json_value := (json_value_of str_ok float_ok raw_ok).
Abbreviation json_values := (json_values_of str_ok float_ok raw_ok).

(** ** The check of the required members

    One bit per member in the order of the struct, eight to a byte. *)

Definition bits8 : list Z := [0; 1; 2; 3; 4; 5; 6; 7].

(** [bits.OnesCount8] and [bits.TrailingZeros8]. *)
Definition OnesCount8 (r : Z) : nat := length (filter (fun j => Z.testbit r j = true) bits8).
Definition TrailingZeros8 (r : Z) : Z :=
  match filter (fun j => Z.testbit r j = true) bits8 with j :: _ => j | [] => 8 end.

Fixpoint missed_loop (n : nat) (result : Z) : list Z :=
  match n with
  | O => []
  | S n' =>
      let bitIdx := TrailingZeros8 result in
      bitIdx :: missed_loop n' (Z.ldiff result (Z.shiftl 1 bitIdx))
  end.

(** The name of a member, or its number when the table is too short. *)
Definition field_name (names : list string) (fieldIdx : Z) : string :=
  if fieldIdx <? Z.of_nat (length names) then default "" (names !! Z.to_nat fieldIdx)
  else FormatUint fieldIdx.

Definition byte_failures (names : list string) (i : nat) (b mask : Z) : list (string * gerror) :=
  let result := Z.lxor (Z.land b mask) mask in
  (fun bitIdx => (field_name names (Z.of_nat i * 8 + bitIdx), ErrFieldRequired)) <$>
    (if result =? 0 then [] else missed_loop (OnesCount8 result) result).

Fixpoint failures_from (names : list string) (i : nat) (requiredBitSet masks : list Z) : list (string * gerror) :=
  match masks with
  | [] => []
  | mask :: masks' =>
      byte_failures names i (default 0 (head requiredBitSet)) mask
        ++ failures_from names (S i) (tail requiredBitSet) masks'
  end.

Definition required_failures (names : list string) (requiredBitSet masks : list Z) : list (string * gerror) :=
  failures_from names 0 requiredBitSet masks.

(** [requiredBitSet[i] |= 1 << j] *)
Definition set_bit (i : nat) (j : Z) (b : list Z) : list Z := alter (fun x => Z.lor x (Z.shiftl 1 j)) i b.

(** The meaning: the required members whose bit is not set, in order. *)
Definition missing_of_byte (names : list string) (i : nat) (b mask : Z) : list string :=
  (fun j => field_name names (Z.of_nat i * 8 + j)) <$>
    filter (fun j => Z.testbit mask j = true /\ Z.testbit b j = false) bits8.

Fixpoint missing_from (names : list string) (i : nat) (b masks : list Z) : list string :=
  match masks with
  | [] => []
  | mask :: masks' => missing_of_byte names i (default 0 (head b)) mask ++ missing_from names (S i) (tail b) masks'
  end.

Definition missing (names : list string) (b masks : list Z) : list string := missing_from names 0 b masks.

Lemma missed_loop_filter r : 0 <= r < 256 ->
  missed_loop (OnesCount8 r) r = filter (fun j => Z.testbit r j = true) bits8.
Proof.
  intros Hr.
  assert (forallb (fun n => bool_decide (missed_loop (OnesCount8 (Z.of_nat n)) (Z.of_nat n)
            = filter (fun j => Z.testbit (Z.of_nat n) j = true) bits8)) (seq 0 256) = true) as Hall
    by (vm_compute; reflexivity).
  rewrite forallb_forall in Hall. specialize (Hall (Z.to_nat r)).
  rewrite Z2Nat.id in Hall by lia. eapply bool_decide_eq_true_1, Hall, in_seq. lia.
Qed.

Definition in_u8 (z : Z) : Prop := 0 <= z < 256.

(** [(b & mask) ^ mask] is the part of the mask that is not set. *)
Lemma missed_bits b mask : Z.lxor (Z.land b mask) mask = Z.ldiff mask b.
Proof.
  apply Z.bits_inj'. intros n _. rewrite Z.lxor_spec, Z.land_spec, Z.ldiff_spec.
  destruct (Z.testbit b n), (Z.testbit mask n); reflexivity.
Qed.

Lemma in_u8_ldiff mask b : in_u8 mask -> in_u8 (Z.ldiff mask b).
Proof.
  intros Hm. assert (Z.land mask (Z.ones 8) = mask) as Hm'.
  { rewrite Z.land_ones by lia. apply Z.mod_small. exact Hm. }
  assert (Z.land (Z.ldiff mask b) (Z.ones 8) = Z.ldiff mask b) as <-.
  { apply Z.bits_inj'. intros n _. rewrite Z.land_spec, !Z.ldiff_spec.
    rewrite <- Hm' at 2. rewrite Z.land_spec.
    destruct (Z.testbit b n), (Z.testbit mask n), (Z.testbit (Z.ones 8) n); reflexivity. }
  rewrite Z.land_ones by lia. apply Z.mod_pos_bound. lia.
Qed.

Lemma byte_failures_missing names i b mask : in_u8 mask ->
  byte_failures names i b mask = (fun n => (n, ErrFieldRequired)) <$> missing_of_byte names i b mask.
Proof.
  intros Hm. unfold byte_failures, missing_of_byte. rewrite missed_bits, <- list_fmap_compose.
  unfold compose. f_equal.
  transitivity (filter (fun j => Z.testbit (Z.ldiff mask b) j = true) bits8).
  - case_match eqn:Hz; [|by apply missed_loop_filter, in_u8_ldiff].
    apply Z.eqb_eq in Hz. rewrite Hz. reflexivity.
  - apply list_filter_iff. intros j. rewrite Z.ldiff_spec.
    destruct (Z.testbit mask j), (Z.testbit b j); cbn; intuition discriminate.
Qed.

(** The check of the required members reports exactly the missing ones, in
    the order of the struct: the loop over the bits of [(bits & mask) ^ mask]
    that counts, finds and resets them is equivalent to its meaning. *)
Theorem required_failures_missing names b masks : Forall in_u8 masks ->
  required_failures names b masks = (fun n => (n, ErrFieldRequired)) <$> missing names b masks.
Proof.
  unfold required_failures, missing. generalize 0%nat as i. intros i H. revert i b.
  induction H as [|mask masks Hm _ IH]; intros i b; [done|].
  cbn [failures_from missing_from]. rewrite byte_failures_missing, IH, fmap_app by done. reflexivity.
Qed.

(** ** Decoding into a variable *)

Abbreviation bitset := (list Z).

Section combinators.
Context {D : Type} {J : JxDecoder D}.

(** [v, err := d.X(); s.F = T(v); if err != nil { return err }] *)
Definition assign_first {A} (op : D -> A * option gerror * D) : decoder D A :=
  fun d _ => let '(v, e, d') := op d in (e, d', v).

(** [v, err := d.X(); if err != nil { return err }; s = T(v)] *)
Definition assign {A} (op : D -> A * option gerror * D) : decoder D A :=
  fun d a => let '(v, e, d') := op d in
             match e with None => (None, d', v) | Some e => (Some e, d', a) end.

(** [s.F = zero] before the decoding. *)
Definition fresh {A} (zero : A) (dec : decoder D A) : decoder D A := fun d _ => dec d zero.

Definition wrapped {A} (msg : string) (dec : decoder D A) : decoder D A :=
  fun d a => let '(e, d', a') := dec d a in (wrap_opt e msg, d', a').

(** A case of the switch over the member names. *)
Definition decode_field {T F} (name : string) (get : T -> F) (set : F -> T -> T) (dec : decoder D F)
    : decoder D (T * bitset) :=
  fun d s => let '(e, d', v) := dec d (get s.1) in
             (wrap_opt e ("decode field " +:+ dq +:+ name +:+ dq), d', (set v s.1, s.2)).

Definition required {T} (i : nat) (j : Z) (f : decoder D (T * bitset)) : decoder D (T * bitset) :=
  fun d s => f d (s.1, set_bit i j s.2).

(** The default case: [return d.Skip()]. *)
Definition skip_field {T} : decoder D T := fun d s => let '(e, d') := d_Skip d in (e, d', s).

(** [Decode] of a struct: defaults, the loop over the members, and the check of
    the required ones. *)
Definition object {T} (name : string) (names : list string) (masks : list Z) (setDefaults : T -> T)
    (field : string -> decoder D (T * bitset)) : decoder D T :=
  fun d s =>
    match d_ObjBytes field d (setDefaults s, replicate (length masks) 0) with
    | (Some e, d', s') => (Some (Wrap e ("decode " +:+ name)), d', s'.1)
    | (None, d', s') =>
        match required_failures names s'.2 masks with
        | [] => (None, d', s'.1)
        | failures => (Some (FieldErrors failures), d', s'.1)
        end
    end.

(** A map with raw values: the member is stored under its name.  In the error
    the name stands as it is ([%q] would escape special characters). *)
Definition raw_field {T} (put : string -> string -> T -> T) (k : string) : decoder D T :=
  fun d m => let '(v, e, d') := d_RawAppend d in
             match e with
             | Some e => (Some (Wrap e ("decode field " +:+ dq +:+ k +:+ dq)), d', m)
             | None => (None, d', put k v m)
             end.

Definition raw_map_Decode (name : string) : decoder D (gmap string string) :=
  wrapped ("decode " +:+ name) (d_ObjBytes (raw_field (fun k v m => <[k := v]> m))).

(** [d.Arr] appending to a fresh slice; the slice is not nil. *)
Definition array {A} (zero : A) (dec : decoder D A) : decoder D (option (list A)) :=
  fun d _ =>
    d_Arr (fun d (l : option (list A)) =>
             let '(e, d', a) := dec d zero in
             match e with
             | Some e => (Some e, d', l)
             | None => (None, d', Some (default [] l ++ [a]))
             end) d (Some []).
End combinators.

(** [for k, elem := range m { e.FieldStart(k); if len(elem) != 0 { e.Raw(elem) } }] *)
Definition raw_elems {MR : MapRange} (m : gmap string string) : list member :=
  (fun kv => (kv.1, if String.eqb kv.2 "" then [] else [CRaw kv.2])) <$> range m.

Definition raw_map_Encode {MR : MapRange} : encoder (gmap string string) := fun m => write_object (raw_elems m).

(** ** Reading back *)

Section reading.
Context {D : Type} {J : JxDecoder D} {L : JxLaws D}.

Lemma reads_assign {A} (op : D -> A * option gerror * D) cs v a0 :
  (forall d r, At d (cs ++ r) -> exists d', op d = (v, None, d') /\ At d' r) ->
  reads (assign op) cs a0 v.
Proof. intros H d r Hd. destruct (H d r Hd) as (d' & Hop & Hd'). exists d'. unfold assign. by rewrite Hop. Qed.

Lemma reads_assign_first {A} (op : D -> A * option gerror * D) cs v a0 :
  (forall d r, At d (cs ++ r) -> exists d', op d = (v, None, d') /\ At d' r) ->
  reads (assign_first op) cs a0 v.
Proof. intros H d r Hd. destruct (H d r Hd) as (d' & Hop & Hd'). exists d'. unfold assign_first. by rewrite Hop. Qed.

Lemma reads_fresh {A} (zero : A) dec cs a0 a1 : reads dec cs zero a1 -> reads (fresh zero dec) cs a0 a1.
Proof. intros H. exact H. Qed.

Lemma reads_wrapped {A} msg (dec : decoder D A) cs a0 a1 : reads dec cs a0 a1 -> reads (wrapped msg dec) cs a0 a1.
Proof.
  intros H d r Hd. destruct (H d r Hd) as (d' & Hdec & Hd'). exists d'. unfold wrapped. by rewrite Hdec.
Qed.

Lemma reads_field {T F} name (get : T -> F) set dec cs (s : T * bitset) v :
  reads dec cs (get s.1) v -> reads (decode_field name get set dec) cs s (set v s.1, s.2).
Proof.
  intros H d r Hd. destruct (H d r Hd) as (d' & Hdec & Hd'). exists d'. unfold decode_field. by rewrite Hdec.
Qed.

Lemma reads_required {T} i j f cs (s s1 : T * bitset) :
  reads f cs (s.1, set_bit i j s.2) s1 -> reads (required i j f) cs s s1.
Proof. intros H. exact H. Qed.

Lemma reads_skip {T} cs (s : T) : json_value cs -> reads skip_field cs s s.
Proof.
  intros Hv d r Hd. destruct (at_skip d cs r Hv Hd) as (d' & Hs & Hd'). exists d'. unfold skip_field. by rewrite Hs.
Qed.

Lemma obj_run_app {S} (f : string -> decoder D S) ms1 ms2 s s1 s2 :
  obj_run f ms1 s s1 -> obj_run f ms2 s1 s2 -> obj_run f (ms1 ++ ms2) s s2.
Proof. induction 1; intros H2; cbn; [done|]. econstructor; eauto. Qed.

Lemma obj_run_one {S} (f : string -> decoder D S) k v s s1 :
  reads (f k) v s s1 -> obj_run f [(k, v)] s s1.
Proof. intros H. econstructor; [exact H|constructor]. Qed.

(** Members a struct has no field for are passed over. *)
Lemma obj_run_unknown {T} (f : string -> decoder D T) ms s :
  Forall (fun m => f m.1 = skip_field /\ json_value m.2) ms -> obj_run f ms s s.
Proof.
  induction 1 as [|[k v] ms [Hk Hv] _ IH]; [constructor|]. econstructor; [|exact IH].
  cbn in Hk. rewrite Hk. by apply reads_skip.
Qed.

Lemma object_reads {T} name names masks (setDefaults : T -> T) field ms s s1 b :
  Forall (fun m => str_ok m.1 /\ json_value m.2) ms ->
  obj_run field ms (setDefaults s, replicate (length masks) 0) (s1, b) ->
  required_failures names b masks = [] ->
  reads (object name names masks setDefaults field) (write_object ms) s s1.
Proof.
  intros Hk Hrun Hreq d r Hd. destruct (at_obj _ _ _ _ _ _ _ Hk Hrun Hd) as (d' & Hobj & Hd').
  exists d'. unfold object. rewrite Hobj. cbn. by rewrite Hreq.
Qed.

Lemma object_fails_required {T} name names masks (setDefaults : T -> T) field ms r d s s1 b :
  Forall (fun m => str_ok m.1 /\ json_value m.2) ms ->
  obj_run field ms (setDefaults s, replicate (length masks) 0) (s1, b) ->
  required_failures names b masks <> [] -> At d (write_object ms ++ r) ->
  (object name names masks setDefaults field d s).1.1 = Some (FieldErrors (required_failures names b masks)).
Proof.
  intros Hk Hrun Hreq Hd. destruct (at_obj _ _ _ _ _ _ _ Hk Hrun Hd) as (d' & Hobj & _).
  unfold object. rewrite Hobj. cbn. by destruct (required_failures names b masks).
Qed.

Lemma object_fails {T} name names masks (setDefaults : T -> T) field ms k v ms' s s1 :
  Forall (fun m => str_ok m.1 /\ json_value m.2) (ms ++ (k, v) :: ms') ->
  obj_run field ms (setDefaults s, replicate (length masks) 0) s1 ->
  fails (field k) v s1 ->
  fails (object name names masks setDefaults field) (write_object (ms ++ (k, v) :: ms')) s.
Proof.
  intros Hk Hrun Hf d r Hd.
  destruct (at_obj_error _ _ _ _ _ _ _ _ _ _ Hk Hrun Hf Hd) as (e & d' & s' & Hobj).
  unfold object. rewrite Hobj. eauto.
Qed.

Definition raw_map_ok (m : gmap string string) : Prop := map_Forall (fun k v => str_ok k /\ raw_ok v) m.

Lemma raw_elems_ok {MR : MapRange} m : raw_map_ok m -> Forall (fun x => str_ok x.1 /\ json_value x.2) (raw_elems m).
Proof.
  intros Hm. unfold raw_elems. apply Forall_fmap, Forall_forall. intros [k v] Hin. apply elem_of_range in Hin. cbn.
  destruct (Hm k v Hin) as [Hk Hv]. split; [done|].
  destruct (String.eqb_spec v "") as [->|_]; [by apply raw_ok_nonempty in Hv|by constructor].
Qed.

Lemma raw_map_reads name {MR : MapRange} (m m0 : gmap string string) :
  raw_map_ok m ->
  reads (raw_map_Decode name) (raw_map_Encode m) m0 (m ∪ m0).
Proof.
  intros Hm. apply reads_wrapped. intros d r Hd.
  refine (at_obj _ _ (raw_elems m) r d m0 (m ∪ m0) _ _ Hd).
  - by apply raw_elems_ok.
  - rewrite <- (list_to_map_range m) at 2. unfold raw_elems.
    assert (Forall (fun kv => raw_ok kv.2) (range m)) as Hall.
    { apply Forall_forall. intros [k v] Hin. apply elem_of_range in Hin. apply (Hm k v Hin). }
    assert (NoDup (range m).*1) as Hnd by apply NoDup_fst_range.
    clear Hm Hd. revert m0. induction (range m) as [|[k v] l IH]; intros m0.
    { cbn. rewrite (left_id_L ∅ (∪)). constructor. }
    inversion Hall as [|? ? Hraw Hall']; subst. cbn in Hraw. cbn in Hnd. inversion Hnd as [|? ? Hk Hnd']; subst.
    cbn. econstructor.
    + instantiate (1 := <[k := v]> m0). intros d' r' Hd'. destruct (String.eqb_spec v "") as [->|_]; [by apply raw_ok_nonempty in Hraw|].
      destruct (at_raw _ _ _ Hraw Hd') as (d'' & Hop & Hd''). exists d''. unfold raw_field. by rewrite Hop.
    + rewrite <- insert_union_l, insert_union_r; [by apply IH|].
      by apply not_elem_of_list_to_map_1.
Qed.

Lemma array_reads {A} (zero : A) dec (enc : encoder A) (norm : A -> A) (l : list A) a0 :
  (forall a, a ∈ l -> reads dec (enc a) zero (norm a)) -> Forall (fun a => json_value (enc a)) l ->
  reads (array zero dec) (write_array (enc <$> l)) a0 (Some (norm <$> l)).
Proof.
  intros H Hj d r Hd. unfold array. refine (at_arr _ _ _ _ _ _ _ _ _ Hd); [by apply Forall_fmap|]. clear Hd Hj.
  assert (forall pre, arr_run (fun d (l : option (list A)) =>
             let '(e, d', a) := dec d zero in
             match e with Some e => (Some e, d', l) | None => (None, d', Some (default [] l ++ [a])) end)
             (enc <$> l) (Some pre) (Some (pre ++ (norm <$> l)))) as Hgo; [|exact (Hgo [])].
  induction l as [|a l IH]; intros pre; cbn.
  { rewrite app_nil_r. constructor. }
  econstructor.
  - instantiate (1 := Some (pre ++ [norm a])). intros d' r' Hd'.
    destruct (H a ltac:(left) _ _ Hd') as (d'' & Hop & Hd''). exists d''. by rewrite Hop.
  - replace (pre ++ norm a :: (norm <$> l)) with ((pre ++ [norm a]) ++ (norm <$> l)) by (by rewrite <- app_assoc).
    apply IH. intros b Hb. apply H. by right.
Qed.
End reading.

(** ** Dates: functions of the generator's support library

    A time is written as one string; [time_ok] are the times its format can
    express. *)
Class DateTime (D : Type) {J : JxDecoder D} := {
  EncodeDateTime : encoder Z;
  DecodeDateTime : D -> Z * option gerror * D
}.
Class DateTimeLaws (D : Type) {J : JxDecoder D} {L : JxLaws D} {DT : DateTime D} := {
  time_ok : Z -> Prop;
  date_string : forall t, time_ok t -> exists s, str_ok s /\ EncodeDateTime t = [CStr s];
  at_date : forall d t r, time_ok t -> At d (EncodeDateTime t ++ r) ->
    exists d', DecodeDateTime d = (t, None, d') /\ At d' r
}.
