(* ===== verification/JxText.v ===== *)
(** * The encoder and decoder over JSON texts

    An instance of the interface [Jx]: the encoder writes the text of the value
    ([Json.Print]), the decoder reads it with [Json.Parse] and works through the
    values.  It shows that the laws hold of texts, and the theorems on the
    codecs are evaluated with it.  Strings are restricted to ASCII, a
    floating-point number and a time are written as integers. *)

From stdpp Require Import base gmap strings list.
From Stdlib Require Import ZArith Lia Ascii.
From S2P Require Import Prelude GoString Json Jx.

(** ** From calls to values: a stack of open arrays and objects

    The contents are in reverse; the values at top level are an open array that
    is never closed. *)
Inductive frame := OArr (l : list json) | OObj (ms : list (string * json)) | OKey (ms : list (string * json)) (k : string).

Definition push (j : json) (st : list frame) : option (list frame) :=
  match st with
  | OArr l :: st => Some (OArr (j :: l) :: st)
  | OKey ms k :: st => Some (OObj ((k, j) :: ms) :: st)
  | _ => None
  end.

Definition call_step (c : jx_call) (st : list frame) : option (list frame) :=
  match c with
  | CStr s => push (JStr s) st
  | CInt n => push (JNum (FormatInt n)) st
  | CFloat64 f => push (JNum (FormatInt f)) st
  | CNull => push JNull st
  | CRaw b => j ← Parse b; push j st
  | ArrStart => Some (OArr [] :: st)
  | ObjStart => Some (OObj [] :: st)
  | FieldStart k => match st with OObj ms :: st => Some (OKey ms k :: st) | _ => None end
  | ArrEnd => match st with OArr l :: f :: st => push (JArr (reverse l)) (f :: st) | _ => None end
  | ObjEnd => match st with OObj ms :: f :: st => push (JObj (reverse ms)) (f :: st) | _ => None end
  end.

Fixpoint run_calls (cs : list jx_call) (st : list frame) : option (list frame) :=
  match cs with
  | [] => Some st
  | c :: cs => st ← call_step c st; run_calls cs st
  end.

(** The values a sequence of calls writes. *)
Definition writes (cs : list jx_call) (js : list json) : Prop := run_calls cs [OArr []] = Some [OArr (reverse js)].

Definition text_Bytes (cs : list jx_call) : string :=
  match run_calls cs [OArr []] with Some [OArr [j]] => Print j | _ => "" end.

Definition text_str_ok (s : string) : Prop := ascii_str s.
Definition text_raw_ok (b : string) : Prop := exists j, wf_json j /\ (jdepth j <= max_depth)%nat /\ b = Print j.
Definition text_fits (cs : list jx_call) : Prop := forall j, writes cs [j] -> (jdepth j <= max_depth)%nat.

Abbreviation text_value := (json_value_of text_str_ok in_i64 text_raw_ok).
Abbreviation text_values := (json_values_of text_str_ok in_i64 text_raw_ok).

(** ** The decoder: the values that are still to be read *)

Definition text_decoder : Type := option (list json).

Definition json_type (j : json) : jx_type :=
  match j with
  | JNull => TNull | JBool _ => TBool | JNum _ => TNumber | JStr _ => TString | JArr _ => TArray | JObj _ => TObject
  end.

Definition text_DecodeBytes (text : string) : text_decoder := (fun j => [j]) <$> Parse text.

(** The first value, given to [f]. *)
Definition text_first {A} (bad : A) (f : json -> A + gerror) (d : text_decoder) : A * option gerror * text_decoder :=
  match d with
  | Some (j :: r) => match f j with inl a => (a, None, Some r) | inr e => (bad, Some e, d) end
  | Some [] => (bad, Some EOF, d)
  | None => (bad, Some (Err "unexpected byte"), d)
  end.

Definition text_number (j : json) : Z + gerror :=
  match j with
  | JNum lit => match Atoi lit with inl n => inl n | inr e => inr (Err e) end
  | _ => inr (Err "number expected")
  end.

Section loops.
Context {S : Type}.

Fixpoint text_members (f : string -> decoder text_decoder S) (ms : list (string * json)) (r : list json) (s : S)
    : option gerror * text_decoder * S :=
  match ms with
  | [] => (None, Some r, s)
  | (k, v) :: ms =>
      match f k (Some (v :: r)) s with
      | (None, _, s) => text_members f ms r s
      | (Some e, d, s) => (Some (Wrap e "callback"), d, s)
      end
  end.

Fixpoint text_elems (f : decoder text_decoder S) (l : list json) (r : list json) (s : S)
    : option gerror * text_decoder * S :=
  match l with
  | [] => (None, Some r, s)
  | v :: l =>
      match f (Some (v :: r)) s with
      | (None, _, s) => text_elems f l r s
      | (Some e, d, s) => (Some (Wrap e "callback"), d, s)
      end
  end.
End loops.

#[global] Instance text_jx : JxDecoder text_decoder := {
  DecodeBytes := text_DecodeBytes;
  d_Next := fun d => (match d with Some (j :: _) => json_type j | _ => TInvalid end, d);
  d_Null := fun d =>
    let '(_, e, d) := text_first tt (fun j => match j with JNull => inl tt | _ => inr (Err "null expected") end) d in (e, d);
  d_Str := text_first "" (fun j => match j with JStr s => inl s | _ => inr (Err "string expected") end);
  d_Int := text_first 0 text_number;
  d_Float64 := text_first 0 text_number;
  d_RawAppend := text_first "" (fun j => inl (Print j));
  d_Skip := fun d => let '(_, e, d) := text_first tt (fun _ => inl tt) d in (e, d);
  d_ObjBytes := fun S f d s =>
    match d with
    | Some (JObj ms :: r) => text_members f ms r s
    | Some [] => (Some EOF, d, s)
    | _ => (Some (Err "object expected"), d, s)
    end;
  d_Arr := fun S f d s =>
    match d with
    | Some (JArr l :: r) => text_elems f l r s
    | Some [] => (Some EOF, d, s)
    | _ => (Some (Err "array expected"), d, s)
    end
}.

Definition text_At (d : text_decoder) (cs : list jx_call) : Prop := exists js, d = Some js /\ writes cs js.

(** ** Numbers *)

Lemma Atoi_FormatInt n : in_i64 n -> Atoi (FormatInt n) = inl n.
Proof.
  intros Hn. unfold in_i64 in Hn. unfold FormatInt. destruct (Z.ltb_spec n 0).
  - destruct (FormatUint_head (- n) ltac:(lia)) as (c & r & E & _). unfold Atoi.
    change ("-" +:+ FormatUint (- n)) with (String "-"%char (FormatUint (- n))).
    cbn -[FormatUint parse_digits Z.pow Z.sub]. rewrite E, <- E. unfold FormatUint.
    rewrite parse_digits_FormatUint by lia. cbn. f_equal. lia.
  - destruct (FormatUint_head n ltac:(lia)) as (c & r & E & Hc & _). unfold Atoi. rewrite E.
    apply is_digit_spec in Hc. assert (c <> "-"%char /\ c <> "+"%char) as [H1 H2].
    { assert (byte "-"%char = 45) by reflexivity. assert (byte "+"%char = 43) by reflexivity.
      split; intros ->; lia. }
    rewrite (proj2 (Ascii.eqb_neq _ _) H1), (proj2 (Ascii.eqb_neq _ _) H2), <- E. unfold FormatUint.
    by rewrite parse_digits_FormatUint by lia.
Qed.

Lemma num_ok_FormatInt n : num_ok (FormatInt n).
Proof.
  unfold FormatInt. destruct (Z.ltb_spec n 0); [|by apply num_ok_FormatUint].
  destruct (num_ok_FormatUint (- n) ltac:(lia)) as [(c & r & E & Hc) Hscan].
  destruct (FormatUint_head (- n) ltac:(lia)) as (c' & r' & E' & Hd & _).
  rewrite E in E'. injection E' as <- <-. split; [by exists "-"%char, (FormatUint (- n)); auto|].
  intros rest Hr. specialize (Hscan rest Hr). rewrite E in *.
  change (("-" +:+ String c r) +:+ rest) with (String "-"%char (String c r +:+ rest)).
  unfold scan_number in *. rewrite string_cons_app in *.
  assert ((match String c (r +:+ rest) with String "-" r0 => ("-", r0) | _ => ("", String c (r +:+ rest)) end)
          = ("", String c (r +:+ rest))) as Hs.
  { destruct c as [[] [] [] [] [] [] [] []]; try discriminate Hd; reflexivity. }
  rewrite Hs in Hscan. destruct (span_digits (String c (r +:+ rest))) as [[|d0 d] r1]; [done|].
  destruct (Ascii.eqb d0 "0"%char && negb (String.eqb d "")); [done|].
  destruct (scan_frac r1) as [[fr r2]|]; [|done]. destruct (scan_exp r2) as [[ex r3]|]; [|done].
  injection Hscan as -> <- ->. reflexivity.
Qed.

(** ** What is at the bottom of the stack is not looked at *)

Fixpoint ext (base : list json) (st : list frame) : list frame :=
  match st with
  | [OArr a] => [OArr (a ++ base)]
  | f :: st => f :: ext base st
  | [] => []
  end.

Lemma ext_cons base f st : st <> [] -> ext base (f :: st) = f :: ext base st.
Proof. destruct f, st; done. Qed.

Lemma ext_nonempty base st : st <> [] -> ext base st <> [].
Proof. destruct st as [|[] [|]]; done. Qed.

Lemma push_ext j base st : push j (ext base st) = ext base <$> push j st.
Proof. destruct st as [|[] [|f st]]; reflexivity. Qed.

Lemma push_nonempty j st st' : push j st = Some st' -> st' <> [].
Proof. destruct st as [|[] st]; cbn; intros; simplify_eq; done. Qed.

Lemma call_step_ext c base st : st <> [] -> call_step c (ext base st) = ext base <$> call_step c st.
Proof.
  intros Hst. destruct c; cbn [call_step]; try apply push_ext.
  - by rewrite <- ext_cons.
  - destruct st as [|[] [|f st]]; try reflexivity. rewrite ext_cons, <- push_ext by done.
    by destruct f, st.
  - by rewrite <- ext_cons.
  - destruct st as [|[] [|f st]]; try reflexivity. rewrite ext_cons, <- push_ext by done.
    by destruct f, st.
  - destruct st as [|[] [|f st]]; done.
  - destruct (Parse b); [apply push_ext|done].
Qed.

Lemma call_step_nonempty c st st' : st <> [] -> call_step c st = Some st' -> st' <> [].
Proof.
  intros Hst. destruct c; cbn [call_step]; try apply push_nonempty; intros H; simplify_eq; try done.
  - destruct st as [|[] [|f st]]; try done. by apply push_nonempty in H.
  - destruct st as [|[] [|f st]]; try done. by apply push_nonempty in H.
  - by destruct st as [|[] st]; simplify_eq.
  - destruct (Parse b); [by apply push_nonempty in H|done].
Qed.

Lemma run_ext cs base st : st <> [] -> run_calls cs (ext base st) = ext base <$> run_calls cs st.
Proof.
  revert st. induction cs as [|c cs IH]; intros st Hst; [done|]. cbn. rewrite call_step_ext by done.
  destruct (call_step c st) as [st'|] eqn:Hc; [|done]. cbn. apply IH. by eapply call_step_nonempty.
Qed.

Lemma run_after cs j : run_calls cs [OArr [j]] = ext [j] <$> run_calls cs [OArr []].
Proof. by apply (run_ext cs [j] [OArr []]). Qed.

Lemma writes_cons cs j js' :
  run_calls cs [OArr [j]] = Some [OArr (reverse js')] <-> exists js, js' = j :: js /\ writes cs js.
Proof.
  rewrite run_after. unfold writes. split.
  - destruct (run_calls cs [OArr []]) as [[|[a| |] [|f st]]|]; try done.
    + intros [= E]. exists (reverse a). rewrite reverse_involutive. split; [|done].
      by rewrite <- (reverse_involutive js'), <- E, reverse_app.
    + intros [= E]. by destruct (ext_nonempty [j] (f :: st)).
  - intros (js & -> & ->). by rewrite reverse_cons.
Qed.

(** ** A value is pushed as one *)

Definition pushes (v : list jx_call) (j : json) : Prop :=
  wf_json j /\ forall r st st', push j st = Some st' -> run_calls (v ++ r) st = run_calls r st'.

Lemma pushes_call c j : wf_json j -> (forall st, call_step c st = push j st) -> pushes [c] j.
Proof. intros Hj Hc. split; [done|]. intros r st st' H. cbn. by rewrite Hc, H. Qed.

Lemma push_members ms js r l st : Forall2 (fun m kv => m.1 = kv.1 /\ pushes m.2 kv.2) ms js ->
  run_calls (write_members ms ++ r) (OObj l :: st) = run_calls r (OObj (reverse js ++ l) :: st).
Proof.
  intros H. revert l. induction H as [|[k v] [k' j] ms js [Hk [Hj Hv]] _ IH]; intros l; [done|].
  cbn in Hk, Hv. subst k'. rewrite reverse_cons, <- app_assoc. cbn. rewrite <- app_assoc, (Hv _ (OKey l k :: st) (OObj ((k, j) :: l) :: st) eq_refl).
  change (mbind write_member ms) with (write_members ms). rewrite IH. reflexivity.
Qed.

Lemma push_elems vs js r l st : Forall2 pushes vs js ->
  run_calls (concat vs ++ r) (OArr l :: st) = run_calls r (OArr (reverse js ++ l) :: st).
Proof.
  intros H. revert l. induction H as [|v j vs js [Hj Hv] _ IH]; intros l; [done|].
  rewrite reverse_cons, <- app_assoc. cbn.
  rewrite <- app_assoc, (Hv _ (OArr l :: st) (OArr (j :: l) :: st) eq_refl), IH. reflexivity.
Qed.

Lemma pushes_object ms js : Forall (fun m => ascii_str m.1) ms ->
  Forall2 (fun m kv => m.1 = kv.1 /\ pushes m.2 kv.2) ms js -> pushes (write_object ms) (JObj js).
Proof.
  intros Hk H. split.
  - cbn. clear -Hk H. induction H as [|[k v] [k' j] ms js [Ek [Hj _]] _ IH]; [done|].
    inversion Hk; subst. cbn in *. subst. split; [done|by apply IH].
  - intros r st st' Hp. unfold write_object. cbn. rewrite <- app_assoc, (push_members ms js) by done.
    destruct st as [|f st]; [done|]. cbn [app run_calls call_step]. by rewrite app_nil_r, reverse_involutive, Hp.
Qed.

Lemma pushes_array vs js : Forall2 pushes vs js -> pushes (write_array vs) (JArr js).
Proof.
  intros H. split.
  - cbn. clear -H. induction H as [|v j vs js [Hj _] _ IH]; [done|]. by split.
  - intros r st st' Hp. unfold write_array. cbn. rewrite <- app_assoc, (push_elems vs js) by done.
    destruct st as [|f st]; [done|]. cbn [app run_calls call_step]. by rewrite app_nil_r, reverse_involutive, Hp.
Qed.

Scheme json_value_mut := Induction for json_value_of Sort Prop
with json_values_mut := Induction for json_values_of Sort Prop.

(** The type of the value is seen from its first call. *)
Definition typed (v : list jx_call) (j : json) : Prop :=
  forall c v' t, v = c :: v' -> value_type c = Some t -> json_type j = t.

Lemma text_value_typed v : text_value v -> exists j, pushes v j /\ typed v j.
Proof.
  revert v. apply (json_value_mut _ _ _ (fun v _ => exists j, pushes v j /\ typed v j)
                     (fun vs _ => exists js, Forall2 pushes vs js)).
  - intros s Hs. exists (JStr s). split; [by apply pushes_call|]. intros c v' t [= <- <-] [= <-]. done.
  - intros n _. exists (JNum (FormatInt n)). split; [by apply pushes_call; [apply num_ok_FormatInt|]|].
    intros c v' t [= <- <-] [= <-]. done.
  - intros n _. exists (JNum (FormatInt n)). split; [by apply pushes_call; [apply num_ok_FormatInt|]|].
    intros c v' t [= <- <-] [= <-]. done.
  - exists JNull. split; [by apply pushes_call|]. intros c v' t [= <- <-] [= <-]. done.
  - intros b (j & Hj & Hd & ->). exists j. split; [|by intros c v' t [= <- <-]].
    apply pushes_call; [done|]. intros st. cbn. by rewrite Parse_Print.
  - intros ms Hk _ (js & Hjs). exists (JObj (zip ms.*1 js)). split.
    + apply pushes_object; [done|]. clear Hk. revert js Hjs.
      induction ms as [|[k v] ms IH]; intros js Hjs; inversion Hjs; subst; constructor; auto.
    + intros c v' t [= <- <-] [= <-]. done.
  - intros vs _ (js & Hjs). exists (JArr js). split; [by apply pushes_array|].
    intros c v' t [= <- <-] [= <-]. done.
  - by exists [].
  - intros v vs _ (j & Hj & _) _ (js & Hjs). exists (j :: js). by constructor.
Qed.

Lemma text_value_pushes v : text_value v -> exists j, pushes v j.
Proof. intros Hv. destruct (text_value_typed v Hv) as (j & Hj & _). by exists j. Qed.

(** What stands before the decoder: the value written first, then the rest. *)
Lemma text_At_pushes d v j r : pushes v j -> text_At d (v ++ r) ->
  exists js, d = Some (j :: js) /\ text_At (Some js) r.
Proof.
  intros [_ Hv] (js' & -> & Hw). unfold writes in Hw. rewrite (Hv r [OArr []] [OArr [j]] eq_refl) in Hw.
  apply writes_cons in Hw as (js & -> & Hr). exists js. split; [done|]. by exists js.
Qed.

Lemma text_At_push_back v j js r : pushes v j -> text_At (Some js) r -> text_At (Some (j :: js)) (v ++ r).
Proof.
  intros [_ Hv] (js' & [= <-] & Hr). exists (j :: js). split; [done|].
  unfold writes. rewrite (Hv r [OArr []] [OArr [j]] eq_refl). apply writes_cons. by exists js.
Qed.

(** ** The laws *)

Lemma text_op {A} (bad a : A) (f : json -> A + gerror) d v j r :
  pushes v j -> f j = inl a -> text_At d (v ++ r) ->
  exists d', text_first bad f d = (a, None, d') /\ text_At d' r.
Proof.
  intros Hj Hf Hd. destruct (text_At_pushes d v j r Hj Hd) as (js & -> & Hr).
  exists (Some js). cbn. by rewrite Hf.
Qed.

Lemma text_obj {S} (f : string -> decoder text_decoder S) ms r d s s' :
  Forall (fun m => text_str_ok m.1 /\ text_value m.2) ms ->
  obj_run_at text_At f ms s s' -> text_At d (write_object ms ++ r) ->
  exists d', d_ObjBytes f d s = (None, d', s') /\ text_At d' r.
Proof.
  intros Hms Hrun Hd.
  assert (exists js, Forall2 (fun m kv => m.1 = kv.1 /\ pushes m.2 kv.2) ms js) as (js & Hjs).
  { clear -Hms. induction Hms as [|[k v] ms [_ Hv] _ (js & IH)]; [by exists []|].
    destruct (text_value_pushes v Hv) as (j & Hj). exists ((k, j) :: js). by constructor. }
  assert (pushes (write_object ms) (JObj js)) as Hp.
  { apply pushes_object; [|done]. eapply Forall_impl; [exact Hms|]. by intros m [? _]. }
  destruct (text_At_pushes d _ _ r Hp Hd) as (rest & -> & Hr). cbn. exists (Some rest). split; [|done].
  clear Hms Hp Hd. revert js Hjs. induction Hrun as [s|k v ms s s1 s2 Hread _ IH]; intros js Hjs;
    inversion Hjs as [|? [k' j] ? js' [Hk Hj] Hjs']; subst; [done|]. cbn in Hk, Hj. subst k'.
  destruct (Hread _ r (text_At_push_back v j rest r Hj Hr)) as (d' & Hf & _). cbn. rewrite Hf. by apply IH.
Qed.

Lemma text_obj_error {S} (f : string -> decoder text_decoder S) ms k v ms' r d s s1 :
  Forall (fun m => text_str_ok m.1 /\ text_value m.2) (ms ++ (k, v) :: ms') ->
  obj_run_at text_At f ms s s1 -> fails_at text_At (f k) v s1 ->
  text_At d (write_object (ms ++ (k, v) :: ms') ++ r) ->
  exists e d' s', d_ObjBytes f d s = (Some e, d', s').
Proof.
  intros Hms Hrun Hfail Hd.
  assert (exists js, Forall2 (fun m kv => m.1 = kv.1 /\ pushes m.2 kv.2) (ms ++ (k, v) :: ms') js) as (js & Hjs).
  { clear -Hms. induction Hms as [|[k0 v0] l [_ Hv] _ (js & IH)]; [by exists []|].
    destruct (text_value_pushes v0 Hv) as (j & Hj). exists ((k0, j) :: js). by constructor. }
  assert (pushes (write_object (ms ++ (k, v) :: ms')) (JObj js)) as Hp.
  { apply pushes_object; [|done]. eapply Forall_impl; [exact Hms|]. by intros m [? _]. }
  destruct (text_At_pushes d _ _ r Hp Hd) as (rest & -> & Hr). cbn.
  clear Hms Hp Hd. revert js Hjs. induction Hrun as [s|k0 v0 ms s s0 s2 Hread _ IH]; intros js Hjs;
    inversion Hjs as [|? [k' j] ? js' [Hk Hj] Hjs']; subst; cbn in Hk, Hj; subst k'.
  - destruct (Hfail _ r (text_At_push_back v j rest r Hj Hr)) as (e & d' & a1 & Hf). cbn. rewrite Hf. eauto.
  - destruct (Hread _ r (text_At_push_back v0 j rest r Hj Hr)) as (d' & Hf & _). cbn. rewrite Hf. by apply IH.
Qed.

Lemma text_arr {S} (f : decoder text_decoder S) vs r d s s' :
  Forall text_value vs -> arr_run_at text_At f vs s s' -> text_At d (write_array vs ++ r) ->
  exists d', d_Arr f d s = (None, d', s') /\ text_At d' r.
Proof.
  intros Hvs Hrun Hd. assert (exists js, Forall2 pushes vs js) as (js & Hjs).
  { clear -Hvs. induction Hvs as [|v vs Hv _ (js & IH)]; [by exists []|].
    destruct (text_value_pushes v Hv) as (j & Hj). exists (j :: js). by constructor. }
  destruct (text_At_pushes d _ _ r (pushes_array vs js Hjs) Hd) as (rest & -> & Hr). cbn. exists (Some rest).
  split; [|done]. clear Hvs Hd. revert js Hjs. induction Hrun as [s|v vs s s1 s2 Hread _ IH]; intros js Hjs;
    inversion Hjs as [|? j ? js' Hj Hjs']; subst; [done|].
  destruct (Hread _ r (text_At_push_back v j rest r Hj Hr)) as (d' & Hf & _). cbn. rewrite Hf. by apply IH.
Qed.

Lemma text_arr_error {S} (f : decoder text_decoder S) vs v vs' r d s s1 :
  Forall text_value (vs ++ v :: vs') -> arr_run_at text_At f vs s s1 -> fails_at text_At f v s1 ->
  text_At d (write_array (vs ++ v :: vs') ++ r) ->
  exists e d' s', d_Arr f d s = (Some e, d', s').
Proof.
  intros Hvs Hrun Hfail Hd. assert (exists js, Forall2 pushes (vs ++ v :: vs') js) as (js & Hjs).
  { clear -Hvs. induction Hvs as [|v0 l Hv _ (js & IH)]; [by exists []|].
    destruct (text_value_pushes v0 Hv) as (j & Hj). exists (j :: js). by constructor. }
  destruct (text_At_pushes d _ _ r (pushes_array _ js Hjs) Hd) as (rest & -> & Hr). cbn.
  clear Hvs Hd. revert js Hjs. induction Hrun as [s|v0 vs s s0 s2 Hread _ IH]; intros js Hjs;
    inversion Hjs as [|? j ? js' Hj Hjs']; subst.
  - destruct (Hfail _ r (text_At_push_back v j rest r Hj Hr)) as (e & d' & a1 & Hf). cbn. rewrite Hf. eauto.
  - destruct (Hread _ r (text_At_push_back v0 j rest r Hj Hr)) as (d' & Hf & _). cbn. rewrite Hf. by apply IH.
Qed.

Lemma text_start cs : text_value cs -> text_fits cs -> text_At (text_DecodeBytes (text_Bytes cs)) cs.
Proof.
  intros Hv Hf. destruct (text_value_pushes cs Hv) as (j & Hj & Hrun).
  assert (writes cs [j]) as Hw.
  { unfold writes. pose proof (Hrun [] [OArr []] [OArr [j]] eq_refl) as H. by rewrite app_nil_r in H. }
  exists [j]. split; [|done]. unfold text_DecodeBytes, text_Bytes. rewrite Hw. cbn.
  by rewrite Parse_Print by auto.
Qed.

Lemma text_Bytes_nonempty cs : text_value cs -> text_fits cs -> text_Bytes cs <> "".
Proof.
  intros Hv Hf E. destruct (text_start cs Hv Hf) as (js & H & _). rewrite E in H. discriminate H.
Qed.

Lemma text_next d c v r t : text_value (c :: v) -> value_type c = Some t -> text_At d ((c :: v) ++ r) ->
  exists d', d_Next d = (t, d') /\ text_At d' ((c :: v) ++ r).
Proof.
  intros Hv Ht Hd. destruct (text_value_typed _ Hv) as (j & Hj & Htype).
  pose proof Hd as Hd'. destruct (text_At_pushes d _ j r Hj Hd) as (js & -> & _).
  eexists. split; [|exact Hd']. cbn. by rewrite (Htype c v t eq_refl Ht).
Qed.

Lemma text_skip d v r : text_value v -> text_At d (v ++ r) -> exists d', d_Skip d = (None, d') /\ text_At d' r.
Proof.
  intros Hv Hd. destruct (text_value_pushes v Hv) as (j & Hj).
  destruct (text_At_pushes d v j r Hj Hd) as (js & -> & Hr). by exists (Some js).
Qed.

Lemma pushes_raw b : text_raw_ok b -> exists j, b = Print j /\ pushes [CRaw b] j.
Proof.
  intros (j & Hj & Hd & ->). exists j. split; [done|]. apply pushes_call; [done|]. intros st. cbn. by rewrite Parse_Print.
Qed.

#[global] Instance text_laws : JxLaws text_decoder.
Proof.
  refine {| Bytes := text_Bytes; str_ok := text_str_ok; float_ok := in_i64; raw_ok := text_raw_ok;
            fits := text_fits; At := text_At |}.
  - done.
  - intros (j & Hj & Hd & E). pose proof (Parse_Print j Hj Hd) as H. by rewrite <- E in H.
  - exact text_Bytes_nonempty.
  - exact text_start.
  - exact text_next.
  - intros d r Hd. destruct (text_At_pushes d [CNull] JNull r (pushes_call CNull JNull I (fun _ => eq_refl)) Hd)
      as (js & -> & Hr). by exists (Some js).
  - intros d s r Hs Hd. by apply (text_op _ _ _ d [CStr s] (JStr s)); [apply pushes_call| |].
  - intros d n r Hn Hd. apply (text_op _ _ _ d [CInt n] (JNum (FormatInt n))); [|cbn; by rewrite Atoi_FormatInt|done].
    apply pushes_call; [apply num_ok_FormatInt|done].
  - intros d n r Hn Hd. apply (text_op _ _ _ d [CFloat64 n] (JNum (FormatInt n)));
      [|cbn; by rewrite Atoi_FormatInt|done].
    apply pushes_call; [apply num_ok_FormatInt|done].
  - intros d b r Hb Hd. destruct (pushes_raw b Hb) as (j & -> & Hj). by apply (text_op _ _ _ d [CRaw (Print j)] j).
  - exact text_skip.
  - intros d (js & -> & Hw). unfold writes in Hw. cbn in Hw. injection Hw as Hw.
    assert (js = []) as -> by (by rewrite <- (reverse_involutive js), <- Hw). by exists (Some []).
  - intros S. exact text_obj.
  - intros S. exact text_obj_error.
  - intros S. exact text_arr.
  - intros S. exact text_arr_error.
Defined.

(** ** Times *)

#[global] Instance text_dates : DateTime text_decoder := {
  EncodeDateTime := fun t => [CStr (FormatInt t)];
  DecodeDateTime := text_first 0 (fun j => match j with JStr s => text_number (JNum s) | _ => inr (Err "string expected") end)
}.

Lemma ascii_FormatInt n : ascii_str (FormatInt n).
Proof.
  unfold FormatInt. destruct (Z.ltb_spec n 0); [|by apply ascii_FormatUint].
  pose proof (ascii_FormatUint (- n) ltac:(lia)) as H'. exact H'.
Qed.

#[global] Instance text_date_laws : DateTimeLaws text_decoder.
Proof.
  refine {| time_ok := in_i64 |}.
  - intros t _. exists (FormatInt t). split; [apply ascii_FormatInt|done].
  - intros d t r Ht Hd. apply (text_op _ _ _ d [CStr (FormatInt t)] (JStr (FormatInt t))); [|cbn; by rewrite Atoi_FormatInt|done].
    apply pushes_call; [apply ascii_FormatInt|done].
Defined.
