(* ===== verification/ApiSchemas.v ===== *)
(** * The data of the provider API (oas/gen/providerapi/oas_schemas_gen.go, oas_defaults_gen.go)

    The structs of the generated client with their setters, the optional and
    nullable wrappers with their methods, and the string types with a fixed set
    of values.  Names are those of the code, a member or method prefixed with its
    type; the getters are the projections.  A map with raw JSON values is a
    [gmap] (a nil map reads like an empty one); a slice that may be nil is an
    option.  Floating-point numbers and times are opaque integers. *)

From stdpp Require Import base gmap strings list.
From Stdlib Require Import ZArith.
From S2P Require Import Prelude GoString Jx.

(** ** Optional and nullable values *)

Record Nil (A : Type) := mkNil { Nil_Value : A; Nil_Null : bool }.
Record Opt (A : Type) := mkOpt { Opt_Value : A; Opt_Set : bool }.
Record OptNil (A : Type) := mkOptNil { OptNil_Value : A; OptNil_Set : bool; OptNil_Null : bool }.
Arguments mkNil {A}.
Arguments Nil_Value {A}.
Arguments Nil_Null {A}.
Arguments mkOpt {A}.
Arguments Opt_Value {A}.
Arguments Opt_Set {A}.
Arguments mkOptNil {A}.
Arguments OptNil_Value {A}.
Arguments OptNil_Set {A}.
Arguments OptNil_Null {A}.

Section wrappers.
Context {A : Type}.
Implicit Types v d zero : A.

Definition Nil_zero zero : Nil A := mkNil zero false.
Definition Opt_zero zero : Opt A := mkOpt zero false.
Definition OptNil_zero zero : OptNil A := mkOptNil zero false false.

Definition NewNil v : Nil A := mkNil v false.
Definition Nil_SetTo v (o : Nil A) : Nil A := mkNil v false.
Definition Nil_SetToNull zero (o : Nil A) : Nil A := mkNil zero true.
(** [Get] returns the zero value and false, or the value and true. *)
Definition Nil_Get (o : Nil A) : option A := if Nil_Null o then None else Some (Nil_Value o).
Definition Nil_Or d (o : Nil A) : A := default d (Nil_Get o).

Definition NewOpt v : Opt A := mkOpt v true.
Definition Opt_Reset zero (o : Opt A) : Opt A := mkOpt zero false.
Definition Opt_SetTo v (o : Opt A) : Opt A := mkOpt v true.
Definition Opt_Get (o : Opt A) : option A := if Opt_Set o then Some (Opt_Value o) else None.
Definition Opt_Or d (o : Opt A) : A := default d (Opt_Get o).

Definition NewOptNil v : OptNil A := mkOptNil v true false.
Definition OptNil_Reset zero (o : OptNil A) : OptNil A := mkOptNil zero false false.
Definition OptNil_SetTo v (o : OptNil A) : OptNil A := mkOptNil v true false.
Definition OptNil_SetToNull zero (o : OptNil A) : OptNil A := mkOptNil zero true true.
Definition OptNil_Get (o : OptNil A) : option A :=
  if OptNil_Null o then None else if OptNil_Set o then Some (OptNil_Value o) else None.
Definition OptNil_Or d (o : OptNil A) : A := default d (OptNil_Get o).
End wrappers.

(** What the code generates for each wrapped type: the constructor and the
    methods at the zero value of the type. *)
Record NilMethods (A : Type) := mkNilMethods {
  nil_New : A -> Nil A; nil_IsNull : Nil A -> bool; nil_SetTo : A -> Nil A -> Nil A;
  nil_SetToNull : Nil A -> Nil A; nil_Get : Nil A -> option A; nil_Or : A -> Nil A -> A
}.
Record OptMethods (A : Type) := mkOptMethods {
  opt_New : A -> Opt A; opt_IsSet : Opt A -> bool; opt_Reset : Opt A -> Opt A;
  opt_SetTo : A -> Opt A -> Opt A; opt_Get : Opt A -> option A; opt_Or : A -> Opt A -> A
}.
Record OptNilMethods (A : Type) := mkOptNilMethods {
  optnil_New : A -> OptNil A; optnil_IsSet : OptNil A -> bool; optnil_Reset : OptNil A -> OptNil A;
  optnil_SetTo : A -> OptNil A -> OptNil A; optnil_IsNull : OptNil A -> bool;
  optnil_SetToNull : OptNil A -> OptNil A; optnil_Get : OptNil A -> option A; optnil_Or : A -> OptNil A -> A
}.
Definition nil_methods {A} (zero : A) : NilMethods A :=
  mkNilMethods A NewNil Nil_Null Nil_SetTo (Nil_SetToNull zero) Nil_Get Nil_Or.
Definition opt_methods {A} (zero : A) : OptMethods A :=
  mkOptMethods A NewOpt Opt_Set (Opt_Reset zero) Opt_SetTo Opt_Get Opt_Or.
Definition optnil_methods {A} (zero : A) : OptNilMethods A :=
  mkOptNilMethods A NewOptNil OptNil_Set (OptNil_Reset zero) OptNil_SetTo OptNil_Null (OptNil_SetToNull zero)
    OptNil_Get OptNil_Or.

(** The file of a multipart form, a third-party struct: the members the engine
    sets. *)
Record MultipartFile := mkMultipartFile { MF_Name : string; MF_File : string }.
Definition MultipartFile_zero : MultipartFile := mkMultipartFile "" "".

(** ** Structs *)

Record ApiKeyAuth := mkApiKeyAuth {
  ApiKeyAuth_APIKey : string
}.
Definition ApiKeyAuth_zero : ApiKeyAuth := mkApiKeyAuth "".
Arguments ApiKeyAuth_zero /.
Definition ApiKeyAuth_SetAPIKey (val : string) (s : ApiKeyAuth) : ApiKeyAuth := mkApiKeyAuth val.
Arguments ApiKeyAuth_SetAPIKey val !s /.

Record DevicesDeviceDataUpdateResponse := mkDevicesDeviceDataUpdateResponse {
  DevicesDeviceDataUpdateResponse_Message : string
}.
Definition DevicesDeviceDataUpdateResponse_zero : DevicesDeviceDataUpdateResponse :=
  mkDevicesDeviceDataUpdateResponse "".
Arguments DevicesDeviceDataUpdateResponse_zero /.
Definition DevicesDeviceDataUpdateResponse_SetMessage (val : string) (s : DevicesDeviceDataUpdateResponse)
    : DevicesDeviceDataUpdateResponse :=
  mkDevicesDeviceDataUpdateResponse val.
Arguments DevicesDeviceDataUpdateResponse_SetMessage val !s /.

Record DevicesDeviceInfoUpdate := mkDevicesDeviceInfoUpdate {
  DevicesDeviceInfoUpdate_DeviceInfo : Nil string;
  DevicesDeviceInfoUpdate_CalibratedAt : OptNil Z
}.
Definition DevicesDeviceInfoUpdate_zero : DevicesDeviceInfoUpdate :=
  mkDevicesDeviceInfoUpdate (Nil_zero "") (OptNil_zero 0).
Arguments DevicesDeviceInfoUpdate_zero /.
Definition DevicesDeviceInfoUpdate_SetDeviceInfo (val : Nil string) (s : DevicesDeviceInfoUpdate)
    : DevicesDeviceInfoUpdate :=
  mkDevicesDeviceInfoUpdate val (DevicesDeviceInfoUpdate_CalibratedAt s).
Arguments DevicesDeviceInfoUpdate_SetDeviceInfo val !s /.
Definition DevicesDeviceInfoUpdate_SetCalibratedAt (val : OptNil Z) (s : DevicesDeviceInfoUpdate)
    : DevicesDeviceInfoUpdate :=
  mkDevicesDeviceInfoUpdate (DevicesDeviceInfoUpdate_DeviceInfo s) val.
Arguments DevicesDeviceInfoUpdate_SetCalibratedAt val !s /.

Record DevicesDeviceStatusUpdate := mkDevicesDeviceStatusUpdate {
  DevicesDeviceStatusUpdate_Status : string
}.
Definition DevicesDeviceStatusUpdate_zero : DevicesDeviceStatusUpdate := mkDevicesDeviceStatusUpdate "".
Arguments DevicesDeviceStatusUpdate_zero /.
Definition DevicesDeviceStatusUpdate_SetStatus (val : string) (s : DevicesDeviceStatusUpdate)
    : DevicesDeviceStatusUpdate :=
  mkDevicesDeviceStatusUpdate val.
Arguments DevicesDeviceStatusUpdate_SetStatus val !s /.

Record DevicesUpdateDeviceRequest := mkDevicesUpdateDeviceRequest {
  DevicesUpdateDeviceRequest_NQubits : OptNil Z
}.
Definition DevicesUpdateDeviceRequest_zero : DevicesUpdateDeviceRequest :=
  mkDevicesUpdateDeviceRequest (OptNil_zero 0).
Arguments DevicesUpdateDeviceRequest_zero /.
Definition DevicesUpdateDeviceRequest_SetNQubits (val : OptNil Z) (s : DevicesUpdateDeviceRequest)
    : DevicesUpdateDeviceRequest :=
  mkDevicesUpdateDeviceRequest val.
Arguments DevicesUpdateDeviceRequest_SetNQubits val !s /.

Record DevicesUpdateDeviceResponse := mkDevicesUpdateDeviceResponse {
  DevicesUpdateDeviceResponse_Message : string
}.
Definition DevicesUpdateDeviceResponse_zero : DevicesUpdateDeviceResponse := mkDevicesUpdateDeviceResponse "".
Arguments DevicesUpdateDeviceResponse_zero /.
Definition DevicesUpdateDeviceResponse_SetMessage (val : string) (s : DevicesUpdateDeviceResponse)
    : DevicesUpdateDeviceResponse :=
  mkDevicesUpdateDeviceResponse val.
Arguments DevicesUpdateDeviceResponse_SetMessage val !s /.

Record ErrorBadRequest := mkErrorBadRequest {
  ErrorBadRequest_Message : string
}.
Definition ErrorBadRequest_zero : ErrorBadRequest := mkErrorBadRequest "".
Arguments ErrorBadRequest_zero /.
Definition ErrorBadRequest_SetMessage (val : string) (s : ErrorBadRequest) : ErrorBadRequest :=
  mkErrorBadRequest val.
Arguments ErrorBadRequest_SetMessage val !s /.

Record ErrorConflictError := mkErrorConflictError {
  ErrorConflictError_Message : string
}.
Definition ErrorConflictError_zero : ErrorConflictError := mkErrorConflictError "".
Arguments ErrorConflictError_zero /.
Definition ErrorConflictError_SetMessage (val : string) (s : ErrorConflictError) : ErrorConflictError :=
  mkErrorConflictError val.
Arguments ErrorConflictError_SetMessage val !s /.

Record ErrorInternalServerError := mkErrorInternalServerError {
  ErrorInternalServerError_Message : string
}.
Definition ErrorInternalServerError_zero : ErrorInternalServerError := mkErrorInternalServerError "".
Arguments ErrorInternalServerError_zero /.
Definition ErrorInternalServerError_SetMessage (val : string) (s : ErrorInternalServerError)
    : ErrorInternalServerError :=
  mkErrorInternalServerError val.
Arguments ErrorInternalServerError_SetMessage val !s /.

Record ErrorNotFoundError := mkErrorNotFoundError {
  ErrorNotFoundError_Message : string
}.
Definition ErrorNotFoundError_zero : ErrorNotFoundError := mkErrorNotFoundError "".
Arguments ErrorNotFoundError_zero /.
Definition ErrorNotFoundError_SetMessage (val : string) (s : ErrorNotFoundError) : ErrorNotFoundError :=
  mkErrorNotFoundError val.
Arguments ErrorNotFoundError_SetMessage val !s /.

Record GetSsesrcOK := mkGetSsesrcOK {
  GetSsesrcOK_Data : option string
}.
Definition GetSsesrcOK_zero : GetSsesrcOK := mkGetSsesrcOK None.
Arguments GetSsesrcOK_zero /.

Record JobsEstimationResult := mkJobsEstimationResult {
  JobsEstimationResult_ExpValue : Z;
  JobsEstimationResult_Stds : Z
}.
Definition JobsEstimationResult_zero : JobsEstimationResult := mkJobsEstimationResult 0 0.
Arguments JobsEstimationResult_zero /.
Definition JobsEstimationResult_SetExpValue (val : Z) (s : JobsEstimationResult) : JobsEstimationResult :=
  mkJobsEstimationResult val (JobsEstimationResult_Stds s).
Arguments JobsEstimationResult_SetExpValue val !s /.
Definition JobsEstimationResult_SetStds (val : Z) (s : JobsEstimationResult) : JobsEstimationResult :=
  mkJobsEstimationResult (JobsEstimationResult_ExpValue s) val.
Arguments JobsEstimationResult_SetStds val !s /.

Record JobsOperatorItem := mkJobsOperatorItem {
  JobsOperatorItem_Pauli : string;
  JobsOperatorItem_Coeff : Opt Z
}.
Definition JobsOperatorItem_zero : JobsOperatorItem := mkJobsOperatorItem "" (Opt_zero 0).
Arguments JobsOperatorItem_zero /.
Definition JobsOperatorItem_SetPauli (val : string) (s : JobsOperatorItem) : JobsOperatorItem :=
  mkJobsOperatorItem val (JobsOperatorItem_Coeff s).
Arguments JobsOperatorItem_SetPauli val !s /.
Definition JobsOperatorItem_SetCoeff (val : Opt Z) (s : JobsOperatorItem) : JobsOperatorItem :=
  mkJobsOperatorItem (JobsOperatorItem_Pauli s) val.
Arguments JobsOperatorItem_SetCoeff val !s /.

Record JobsSamplingResult := mkJobsSamplingResult {
  JobsSamplingResult_Counts : gmap string string;
  JobsSamplingResult_DividedCounts : OptNil (gmap string string)
}.
Definition JobsSamplingResult_zero : JobsSamplingResult := mkJobsSamplingResult ∅ (OptNil_zero ∅).
Arguments JobsSamplingResult_zero /.
Definition JobsSamplingResult_SetCounts (val : gmap string string) (s : JobsSamplingResult) : JobsSamplingResult :=
  mkJobsSamplingResult val (JobsSamplingResult_DividedCounts s).
Arguments JobsSamplingResult_SetCounts val !s /.
Definition JobsSamplingResult_SetDividedCounts (val : OptNil (gmap string string)) (s : JobsSamplingResult)
    : JobsSamplingResult :=
  mkJobsSamplingResult (JobsSamplingResult_Counts s) val.
Arguments JobsSamplingResult_SetDividedCounts val !s /.

Record JobsJobResult := mkJobsJobResult {
  JobsJobResult_Sampling : OptNil JobsSamplingResult;
  JobsJobResult_Estimation : OptNil JobsEstimationResult;
  JobsJobResult_AdditionalProps : gmap string string
}.
Definition JobsJobResult_zero : JobsJobResult :=
  mkJobsJobResult (OptNil_zero JobsSamplingResult_zero) (OptNil_zero JobsEstimationResult_zero) ∅.
Arguments JobsJobResult_zero /.
Definition JobsJobResult_SetSampling (val : OptNil JobsSamplingResult) (s : JobsJobResult) : JobsJobResult :=
  mkJobsJobResult val (JobsJobResult_Estimation s) (JobsJobResult_AdditionalProps s).
Arguments JobsJobResult_SetSampling val !s /.
Definition JobsJobResult_SetEstimation (val : OptNil JobsEstimationResult) (s : JobsJobResult) : JobsJobResult :=
  mkJobsJobResult (JobsJobResult_Sampling s) val (JobsJobResult_AdditionalProps s).
Arguments JobsJobResult_SetEstimation val !s /.
Definition JobsJobResult_SetAdditionalProps (val : gmap string string) (s : JobsJobResult) : JobsJobResult :=
  mkJobsJobResult (JobsJobResult_Sampling s) (JobsJobResult_Estimation s) val.
Arguments JobsJobResult_SetAdditionalProps val !s /.

Record JobsTranspileResult := mkJobsTranspileResult {
  JobsTranspileResult_TranspiledProgram : Nil string;
  JobsTranspileResult_Stats : Nil (gmap string string);
  JobsTranspileResult_VirtualPhysicalMapping : Nil (gmap string string)
}.
Definition JobsTranspileResult_zero : JobsTranspileResult :=
  mkJobsTranspileResult (Nil_zero "") (Nil_zero ∅) (Nil_zero ∅).
Arguments JobsTranspileResult_zero /.
Definition JobsTranspileResult_SetTranspiledProgram (val : Nil string) (s : JobsTranspileResult)
    : JobsTranspileResult :=
  mkJobsTranspileResult val (JobsTranspileResult_Stats s) (JobsTranspileResult_VirtualPhysicalMapping s).
Arguments JobsTranspileResult_SetTranspiledProgram val !s /.
Definition JobsTranspileResult_SetStats (val : Nil (gmap string string)) (s : JobsTranspileResult)
    : JobsTranspileResult :=
  mkJobsTranspileResult (JobsTranspileResult_TranspiledProgram s) val
    (JobsTranspileResult_VirtualPhysicalMapping s).
Arguments JobsTranspileResult_SetStats val !s /.
Definition JobsTranspileResult_SetVirtualPhysicalMapping (val : Nil (gmap string string)) (s : JobsTranspileResult)
    : JobsTranspileResult :=
  mkJobsTranspileResult (JobsTranspileResult_TranspiledProgram s) (JobsTranspileResult_Stats s) val.
Arguments JobsTranspileResult_SetVirtualPhysicalMapping val !s /.

Record JobsJobInfo := mkJobsJobInfo {
  JobsJobInfo_Program : option (list string);
  JobsJobInfo_CombinedProgram : OptNil string;
  JobsJobInfo_Operator : OptNil (option (list JobsOperatorItem));
  JobsJobInfo_Result : OptNil JobsJobResult;
  JobsJobInfo_TranspileResult : OptNil JobsTranspileResult;
  JobsJobInfo_Message : OptNil string
}.
Definition JobsJobInfo_zero : JobsJobInfo :=
  mkJobsJobInfo None (OptNil_zero "") (OptNil_zero None) (OptNil_zero JobsJobResult_zero) (OptNil_zero
    JobsTranspileResult_zero) (OptNil_zero "").
Arguments JobsJobInfo_zero /.
Definition JobsJobInfo_SetProgram (val : option (list string)) (s : JobsJobInfo) : JobsJobInfo :=
  mkJobsJobInfo val (JobsJobInfo_CombinedProgram s) (JobsJobInfo_Operator s) (JobsJobInfo_Result s)
    (JobsJobInfo_TranspileResult s) (JobsJobInfo_Message s).
Arguments JobsJobInfo_SetProgram val !s /.
Definition JobsJobInfo_SetCombinedProgram (val : OptNil string) (s : JobsJobInfo) : JobsJobInfo :=
  mkJobsJobInfo (JobsJobInfo_Program s) val (JobsJobInfo_Operator s) (JobsJobInfo_Result s)
    (JobsJobInfo_TranspileResult s) (JobsJobInfo_Message s).
Arguments JobsJobInfo_SetCombinedProgram val !s /.
Definition JobsJobInfo_SetOperator (val : OptNil (option (list JobsOperatorItem))) (s : JobsJobInfo)
    : JobsJobInfo :=
  mkJobsJobInfo (JobsJobInfo_Program s) (JobsJobInfo_CombinedProgram s) val (JobsJobInfo_Result s)
    (JobsJobInfo_TranspileResult s) (JobsJobInfo_Message s).
Arguments JobsJobInfo_SetOperator val !s /.
Definition JobsJobInfo_SetResult (val : OptNil JobsJobResult) (s : JobsJobInfo) : JobsJobInfo :=
  mkJobsJobInfo (JobsJobInfo_Program s) (JobsJobInfo_CombinedProgram s) (JobsJobInfo_Operator s) val
    (JobsJobInfo_TranspileResult s) (JobsJobInfo_Message s).
Arguments JobsJobInfo_SetResult val !s /.
Definition JobsJobInfo_SetTranspileResult (val : OptNil JobsTranspileResult) (s : JobsJobInfo) : JobsJobInfo :=
  mkJobsJobInfo (JobsJobInfo_Program s) (JobsJobInfo_CombinedProgram s) (JobsJobInfo_Operator s)
    (JobsJobInfo_Result s) val (JobsJobInfo_Message s).
Arguments JobsJobInfo_SetTranspileResult val !s /.
Definition JobsJobInfo_SetMessage (val : OptNil string) (s : JobsJobInfo) : JobsJobInfo :=
  mkJobsJobInfo (JobsJobInfo_Program s) (JobsJobInfo_CombinedProgram s) (JobsJobInfo_Operator s)
    (JobsJobInfo_Result s) (JobsJobInfo_TranspileResult s) val.
Arguments JobsJobInfo_SetMessage val !s /.

Record JobsJobDef := mkJobsJobDef {
  JobsJobDef_JobID : string;
  JobsJobDef_Name : OptNil string;
  JobsJobDef_Description : Opt string;
  JobsJobDef_DeviceID : string;
  JobsJobDef_Shots : Z;
  JobsJobDef_JobType : string;
  JobsJobDef_JobInfo : JobsJobInfo;
  JobsJobDef_TranspilerInfo : OptNil (gmap string string);
  JobsJobDef_SimulatorInfo : OptNil (gmap string string);
  JobsJobDef_MitigationInfo : OptNil (gmap string string);
  JobsJobDef_Status : string;
  JobsJobDef_ExecutionTime : OptNil Z;
  JobsJobDef_SubmittedAt : OptNil Z;
  JobsJobDef_ReadyAt : OptNil Z;
  JobsJobDef_RunningAt : OptNil Z;
  JobsJobDef_EndedAt : OptNil Z
}.
Definition JobsJobDef_zero : JobsJobDef :=
  mkJobsJobDef "" (OptNil_zero "") (Opt_zero "") "" 0 "" JobsJobInfo_zero (OptNil_zero ∅) (OptNil_zero ∅)
    (OptNil_zero ∅) "" (OptNil_zero 0) (OptNil_zero 0) (OptNil_zero 0) (OptNil_zero 0) (OptNil_zero 0).
Arguments JobsJobDef_zero /.
Definition JobsJobDef_SetJobID (val : string) (s : JobsJobDef) : JobsJobDef :=
  mkJobsJobDef val (JobsJobDef_Name s) (JobsJobDef_Description s) (JobsJobDef_DeviceID s) (JobsJobDef_Shots s)
    (JobsJobDef_JobType s) (JobsJobDef_JobInfo s) (JobsJobDef_TranspilerInfo s) (JobsJobDef_SimulatorInfo s)
    (JobsJobDef_MitigationInfo s) (JobsJobDef_Status s) (JobsJobDef_ExecutionTime s) (JobsJobDef_SubmittedAt s)
    (JobsJobDef_ReadyAt s) (JobsJobDef_RunningAt s) (JobsJobDef_EndedAt s).
Arguments JobsJobDef_SetJobID val !s /.
Definition JobsJobDef_SetName (val : OptNil string) (s : JobsJobDef) : JobsJobDef :=
  mkJobsJobDef (JobsJobDef_JobID s) val (JobsJobDef_Description s) (JobsJobDef_DeviceID s) (JobsJobDef_Shots s)
    (JobsJobDef_JobType s) (JobsJobDef_JobInfo s) (JobsJobDef_TranspilerInfo s) (JobsJobDef_SimulatorInfo s)
    (JobsJobDef_MitigationInfo s) (JobsJobDef_Status s) (JobsJobDef_ExecutionTime s) (JobsJobDef_SubmittedAt s)
    (JobsJobDef_ReadyAt s) (JobsJobDef_RunningAt s) (JobsJobDef_EndedAt s).
Arguments JobsJobDef_SetName val !s /.
Definition JobsJobDef_SetDescription (val : Opt string) (s : JobsJobDef) : JobsJobDef :=
  mkJobsJobDef (JobsJobDef_JobID s) (JobsJobDef_Name s) val (JobsJobDef_DeviceID s) (JobsJobDef_Shots s)
    (JobsJobDef_JobType s) (JobsJobDef_JobInfo s) (JobsJobDef_TranspilerInfo s) (JobsJobDef_SimulatorInfo s)
    (JobsJobDef_MitigationInfo s) (JobsJobDef_Status s) (JobsJobDef_ExecutionTime s) (JobsJobDef_SubmittedAt s)
    (JobsJobDef_ReadyAt s) (JobsJobDef_RunningAt s) (JobsJobDef_EndedAt s).
Arguments JobsJobDef_SetDescription val !s /.
Definition JobsJobDef_SetDeviceID (val : string) (s : JobsJobDef) : JobsJobDef :=
  mkJobsJobDef (JobsJobDef_JobID s) (JobsJobDef_Name s) (JobsJobDef_Description s) val (JobsJobDef_Shots s)
    (JobsJobDef_JobType s) (JobsJobDef_JobInfo s) (JobsJobDef_TranspilerInfo s) (JobsJobDef_SimulatorInfo s)
    (JobsJobDef_MitigationInfo s) (JobsJobDef_Status s) (JobsJobDef_ExecutionTime s) (JobsJobDef_SubmittedAt s)
    (JobsJobDef_ReadyAt s) (JobsJobDef_RunningAt s) (JobsJobDef_EndedAt s).
Arguments JobsJobDef_SetDeviceID val !s /.
Definition JobsJobDef_SetShots (val : Z) (s : JobsJobDef) : JobsJobDef :=
  mkJobsJobDef (JobsJobDef_JobID s) (JobsJobDef_Name s) (JobsJobDef_Description s) (JobsJobDef_DeviceID s) val
    (JobsJobDef_JobType s) (JobsJobDef_JobInfo s) (JobsJobDef_TranspilerInfo s) (JobsJobDef_SimulatorInfo s)
    (JobsJobDef_MitigationInfo s) (JobsJobDef_Status s) (JobsJobDef_ExecutionTime s) (JobsJobDef_SubmittedAt s)
    (JobsJobDef_ReadyAt s) (JobsJobDef_RunningAt s) (JobsJobDef_EndedAt s).
Arguments JobsJobDef_SetShots val !s /.
Definition JobsJobDef_SetJobType (val : string) (s : JobsJobDef) : JobsJobDef :=
  mkJobsJobDef (JobsJobDef_JobID s) (JobsJobDef_Name s) (JobsJobDef_Description s) (JobsJobDef_DeviceID s)
    (JobsJobDef_Shots s) val (JobsJobDef_JobInfo s) (JobsJobDef_TranspilerInfo s) (JobsJobDef_SimulatorInfo s)
    (JobsJobDef_MitigationInfo s) (JobsJobDef_Status s) (JobsJobDef_ExecutionTime s) (JobsJobDef_SubmittedAt s)
    (JobsJobDef_ReadyAt s) (JobsJobDef_RunningAt s) (JobsJobDef_EndedAt s).
Arguments JobsJobDef_SetJobType val !s /.
Definition JobsJobDef_SetJobInfo (val : JobsJobInfo) (s : JobsJobDef) : JobsJobDef :=
  mkJobsJobDef (JobsJobDef_JobID s) (JobsJobDef_Name s) (JobsJobDef_Description s) (JobsJobDef_DeviceID s)
    (JobsJobDef_Shots s) (JobsJobDef_JobType s) val (JobsJobDef_TranspilerInfo s) (JobsJobDef_SimulatorInfo s)
    (JobsJobDef_MitigationInfo s) (JobsJobDef_Status s) (JobsJobDef_ExecutionTime s) (JobsJobDef_SubmittedAt s)
    (JobsJobDef_ReadyAt s) (JobsJobDef_RunningAt s) (JobsJobDef_EndedAt s).
Arguments JobsJobDef_SetJobInfo val !s /.
Definition JobsJobDef_SetTranspilerInfo (val : OptNil (gmap string string)) (s : JobsJobDef) : JobsJobDef :=
  mkJobsJobDef (JobsJobDef_JobID s) (JobsJobDef_Name s) (JobsJobDef_Description s) (JobsJobDef_DeviceID s)
    (JobsJobDef_Shots s) (JobsJobDef_JobType s) (JobsJobDef_JobInfo s) val (JobsJobDef_SimulatorInfo s)
    (JobsJobDef_MitigationInfo s) (JobsJobDef_Status s) (JobsJobDef_ExecutionTime s) (JobsJobDef_SubmittedAt s)
    (JobsJobDef_ReadyAt s) (JobsJobDef_RunningAt s) (JobsJobDef_EndedAt s).
Arguments JobsJobDef_SetTranspilerInfo val !s /.
Definition JobsJobDef_SetSimulatorInfo (val : OptNil (gmap string string)) (s : JobsJobDef) : JobsJobDef :=
  mkJobsJobDef (JobsJobDef_JobID s) (JobsJobDef_Name s) (JobsJobDef_Description s) (JobsJobDef_DeviceID s)
    (JobsJobDef_Shots s) (JobsJobDef_JobType s) (JobsJobDef_JobInfo s) (JobsJobDef_TranspilerInfo s) val
    (JobsJobDef_MitigationInfo s) (JobsJobDef_Status s) (JobsJobDef_ExecutionTime s) (JobsJobDef_SubmittedAt s)
    (JobsJobDef_ReadyAt s) (JobsJobDef_RunningAt s) (JobsJobDef_EndedAt s).
Arguments JobsJobDef_SetSimulatorInfo val !s /.
Definition JobsJobDef_SetMitigationInfo (val : OptNil (gmap string string)) (s : JobsJobDef) : JobsJobDef :=
  mkJobsJobDef (JobsJobDef_JobID s) (JobsJobDef_Name s) (JobsJobDef_Description s) (JobsJobDef_DeviceID s)
    (JobsJobDef_Shots s) (JobsJobDef_JobType s) (JobsJobDef_JobInfo s) (JobsJobDef_TranspilerInfo s)
    (JobsJobDef_SimulatorInfo s) val (JobsJobDef_Status s) (JobsJobDef_ExecutionTime s) (JobsJobDef_SubmittedAt
    s) (JobsJobDef_ReadyAt s) (JobsJobDef_RunningAt s) (JobsJobDef_EndedAt s).
Arguments JobsJobDef_SetMitigationInfo val !s /.
Definition JobsJobDef_SetStatus (val : string) (s : JobsJobDef) : JobsJobDef :=
  mkJobsJobDef (JobsJobDef_JobID s) (JobsJobDef_Name s) (JobsJobDef_Description s) (JobsJobDef_DeviceID s)
    (JobsJobDef_Shots s) (JobsJobDef_JobType s) (JobsJobDef_JobInfo s) (JobsJobDef_TranspilerInfo s)
    (JobsJobDef_SimulatorInfo s) (JobsJobDef_MitigationInfo s) val (JobsJobDef_ExecutionTime s)
    (JobsJobDef_SubmittedAt s) (JobsJobDef_ReadyAt s) (JobsJobDef_RunningAt s) (JobsJobDef_EndedAt s).
Arguments JobsJobDef_SetStatus val !s /.
Definition JobsJobDef_SetExecutionTime (val : OptNil Z) (s : JobsJobDef) : JobsJobDef :=
  mkJobsJobDef (JobsJobDef_JobID s) (JobsJobDef_Name s) (JobsJobDef_Description s) (JobsJobDef_DeviceID s)
    (JobsJobDef_Shots s) (JobsJobDef_JobType s) (JobsJobDef_JobInfo s) (JobsJobDef_TranspilerInfo s)
    (JobsJobDef_SimulatorInfo s) (JobsJobDef_MitigationInfo s) (JobsJobDef_Status s) val (JobsJobDef_SubmittedAt
    s) (JobsJobDef_ReadyAt s) (JobsJobDef_RunningAt s) (JobsJobDef_EndedAt s).
Arguments JobsJobDef_SetExecutionTime val !s /.
Definition JobsJobDef_SetSubmittedAt (val : OptNil Z) (s : JobsJobDef) : JobsJobDef :=
  mkJobsJobDef (JobsJobDef_JobID s) (JobsJobDef_Name s) (JobsJobDef_Description s) (JobsJobDef_DeviceID s)
    (JobsJobDef_Shots s) (JobsJobDef_JobType s) (JobsJobDef_JobInfo s) (JobsJobDef_TranspilerInfo s)
    (JobsJobDef_SimulatorInfo s) (JobsJobDef_MitigationInfo s) (JobsJobDef_Status s) (JobsJobDef_ExecutionTime
    s) val (JobsJobDef_ReadyAt s) (JobsJobDef_RunningAt s) (JobsJobDef_EndedAt s).
Arguments JobsJobDef_SetSubmittedAt val !s /.
Definition JobsJobDef_SetReadyAt (val : OptNil Z) (s : JobsJobDef) : JobsJobDef :=
  mkJobsJobDef (JobsJobDef_JobID s) (JobsJobDef_Name s) (JobsJobDef_Description s) (JobsJobDef_DeviceID s)
    (JobsJobDef_Shots s) (JobsJobDef_JobType s) (JobsJobDef_JobInfo s) (JobsJobDef_TranspilerInfo s)
    (JobsJobDef_SimulatorInfo s) (JobsJobDef_MitigationInfo s) (JobsJobDef_Status s) (JobsJobDef_ExecutionTime
    s) (JobsJobDef_SubmittedAt s) val (JobsJobDef_RunningAt s) (JobsJobDef_EndedAt s).
Arguments JobsJobDef_SetReadyAt val !s /.
Definition JobsJobDef_SetRunningAt (val : OptNil Z) (s : JobsJobDef) : JobsJobDef :=
  mkJobsJobDef (JobsJobDef_JobID s) (JobsJobDef_Name s) (JobsJobDef_Description s) (JobsJobDef_DeviceID s)
    (JobsJobDef_Shots s) (JobsJobDef_JobType s) (JobsJobDef_JobInfo s) (JobsJobDef_TranspilerInfo s)
    (JobsJobDef_SimulatorInfo s) (JobsJobDef_MitigationInfo s) (JobsJobDef_Status s) (JobsJobDef_ExecutionTime
    s) (JobsJobDef_SubmittedAt s) (JobsJobDef_ReadyAt s) val (JobsJobDef_EndedAt s).
Arguments JobsJobDef_SetRunningAt val !s /.
Definition JobsJobDef_SetEndedAt (val : OptNil Z) (s : JobsJobDef) : JobsJobDef :=
  mkJobsJobDef (JobsJobDef_JobID s) (JobsJobDef_Name s) (JobsJobDef_Description s) (JobsJobDef_DeviceID s)
    (JobsJobDef_Shots s) (JobsJobDef_JobType s) (JobsJobDef_JobInfo s) (JobsJobDef_TranspilerInfo s)
    (JobsJobDef_SimulatorInfo s) (JobsJobDef_MitigationInfo s) (JobsJobDef_Status s) (JobsJobDef_ExecutionTime
    s) (JobsJobDef_SubmittedAt s) (JobsJobDef_ReadyAt s) (JobsJobDef_RunningAt s) val.
Arguments JobsJobDef_SetEndedAt val !s /.

Record JobsJobStatusUpdate := mkJobsJobStatusUpdate {
  JobsJobStatusUpdate_Status : string
}.
Definition JobsJobStatusUpdate_zero : JobsJobStatusUpdate := mkJobsJobStatusUpdate "".
Arguments JobsJobStatusUpdate_zero /.
Definition JobsJobStatusUpdate_SetStatus (val : string) (s : JobsJobStatusUpdate) : JobsJobStatusUpdate :=
  mkJobsJobStatusUpdate val.
Arguments JobsJobStatusUpdate_SetStatus val !s /.

Record JobsJobStatusUpdateResponse := mkJobsJobStatusUpdateResponse {
  JobsJobStatusUpdateResponse_Message : string
}.
Definition JobsJobStatusUpdateResponse_zero : JobsJobStatusUpdateResponse := mkJobsJobStatusUpdateResponse "".
Arguments JobsJobStatusUpdateResponse_zero /.
Definition JobsJobStatusUpdateResponse_SetMessage (val : string) (s : JobsJobStatusUpdateResponse)
    : JobsJobStatusUpdateResponse :=
  mkJobsJobStatusUpdateResponse val.
Arguments JobsJobStatusUpdateResponse_SetMessage val !s /.

Record JobsUpdateJobInfo := mkJobsUpdateJobInfo {
  JobsUpdateJobInfo_CombinedProgram : OptNil string;
  JobsUpdateJobInfo_TranspileResult : OptNil JobsTranspileResult;
  JobsUpdateJobInfo_Result : OptNil JobsJobResult;
  JobsUpdateJobInfo_Message : OptNil string
}.
Definition JobsUpdateJobInfo_zero : JobsUpdateJobInfo :=
  mkJobsUpdateJobInfo (OptNil_zero "") (OptNil_zero JobsTranspileResult_zero) (OptNil_zero JobsJobResult_zero)
    (OptNil_zero "").
Arguments JobsUpdateJobInfo_zero /.
Definition JobsUpdateJobInfo_SetCombinedProgram (val : OptNil string) (s : JobsUpdateJobInfo)
    : JobsUpdateJobInfo :=
  mkJobsUpdateJobInfo val (JobsUpdateJobInfo_TranspileResult s) (JobsUpdateJobInfo_Result s)
    (JobsUpdateJobInfo_Message s).
Arguments JobsUpdateJobInfo_SetCombinedProgram val !s /.
Definition JobsUpdateJobInfo_SetTranspileResult (val : OptNil JobsTranspileResult) (s : JobsUpdateJobInfo)
    : JobsUpdateJobInfo :=
  mkJobsUpdateJobInfo (JobsUpdateJobInfo_CombinedProgram s) val (JobsUpdateJobInfo_Result s)
    (JobsUpdateJobInfo_Message s).
Arguments JobsUpdateJobInfo_SetTranspileResult val !s /.
Definition JobsUpdateJobInfo_SetResult (val : OptNil JobsJobResult) (s : JobsUpdateJobInfo) : JobsUpdateJobInfo :=
  mkJobsUpdateJobInfo (JobsUpdateJobInfo_CombinedProgram s) (JobsUpdateJobInfo_TranspileResult s) val
    (JobsUpdateJobInfo_Message s).
Arguments JobsUpdateJobInfo_SetResult val !s /.
Definition JobsUpdateJobInfo_SetMessage (val : OptNil string) (s : JobsUpdateJobInfo) : JobsUpdateJobInfo :=
  mkJobsUpdateJobInfo (JobsUpdateJobInfo_CombinedProgram s) (JobsUpdateJobInfo_TranspileResult s)
    (JobsUpdateJobInfo_Result s) val.
Arguments JobsUpdateJobInfo_SetMessage val !s /.

Record JobsUpdateJobInfoRequest := mkJobsUpdateJobInfoRequest {
  JobsUpdateJobInfoRequest_OverwriteStatus : Opt string;
  JobsUpdateJobInfoRequest_ExecutionTime : OptNil Z;
  JobsUpdateJobInfoRequest_JobInfo : Opt JobsUpdateJobInfo
}.
Definition JobsUpdateJobInfoRequest_zero : JobsUpdateJobInfoRequest :=
  mkJobsUpdateJobInfoRequest (Opt_zero "") (OptNil_zero 0) (Opt_zero JobsUpdateJobInfo_zero).
Arguments JobsUpdateJobInfoRequest_zero /.
Definition JobsUpdateJobInfoRequest_SetOverwriteStatus (val : Opt string) (s : JobsUpdateJobInfoRequest)
    : JobsUpdateJobInfoRequest :=
  mkJobsUpdateJobInfoRequest val (JobsUpdateJobInfoRequest_ExecutionTime s) (JobsUpdateJobInfoRequest_JobInfo
    s).
Arguments JobsUpdateJobInfoRequest_SetOverwriteStatus val !s /.
Definition JobsUpdateJobInfoRequest_SetExecutionTime (val : OptNil Z) (s : JobsUpdateJobInfoRequest)
    : JobsUpdateJobInfoRequest :=
  mkJobsUpdateJobInfoRequest (JobsUpdateJobInfoRequest_OverwriteStatus s) val (JobsUpdateJobInfoRequest_JobInfo
    s).
Arguments JobsUpdateJobInfoRequest_SetExecutionTime val !s /.
Definition JobsUpdateJobInfoRequest_SetJobInfo (val : Opt JobsUpdateJobInfo) (s : JobsUpdateJobInfoRequest)
    : JobsUpdateJobInfoRequest :=
  mkJobsUpdateJobInfoRequest (JobsUpdateJobInfoRequest_OverwriteStatus s)
    (JobsUpdateJobInfoRequest_ExecutionTime s) val.
Arguments JobsUpdateJobInfoRequest_SetJobInfo val !s /.

Record JobsUpdateJobInfoResponse := mkJobsUpdateJobInfoResponse {
  JobsUpdateJobInfoResponse_Message : string
}.
Definition JobsUpdateJobInfoResponse_zero : JobsUpdateJobInfoResponse := mkJobsUpdateJobInfoResponse "".
Arguments JobsUpdateJobInfoResponse_zero /.
Definition JobsUpdateJobInfoResponse_SetMessage (val : string) (s : JobsUpdateJobInfoResponse)
    : JobsUpdateJobInfoResponse :=
  mkJobsUpdateJobInfoResponse val.
Arguments JobsUpdateJobInfoResponse_SetMessage val !s /.

Record JobsUpdateJobTranspilerInfoResponse := mkJobsUpdateJobTranspilerInfoResponse {
  JobsUpdateJobTranspilerInfoResponse_Message : string
}.
Definition JobsUpdateJobTranspilerInfoResponse_zero : JobsUpdateJobTranspilerInfoResponse :=
  mkJobsUpdateJobTranspilerInfoResponse "".
Arguments JobsUpdateJobTranspilerInfoResponse_zero /.
Definition JobsUpdateJobTranspilerInfoResponse_SetMessage (val : string) (s : JobsUpdateJobTranspilerInfoResponse)
    : JobsUpdateJobTranspilerInfoResponse :=
  mkJobsUpdateJobTranspilerInfoResponse val.
Arguments JobsUpdateJobTranspilerInfoResponse_SetMessage val !s /.

Record JobsUploadSselogRequestMultipart := mkJobsUploadSselogRequestMultipart {
  JobsUploadSselogRequestMultipart_File : MultipartFile
}.
Definition JobsUploadSselogRequestMultipart_zero : JobsUploadSselogRequestMultipart :=
  mkJobsUploadSselogRequestMultipart MultipartFile_zero.
Arguments JobsUploadSselogRequestMultipart_zero /.
Definition JobsUploadSselogRequestMultipart_SetFile (val : MultipartFile) (s : JobsUploadSselogRequestMultipart)
    : JobsUploadSselogRequestMultipart :=
  mkJobsUploadSselogRequestMultipart val.
Arguments JobsUploadSselogRequestMultipart_SetFile val !s /.

Record JobsUploadSselogResponse := mkJobsUploadSselogResponse {
  JobsUploadSselogResponse_Message : string
}.
Definition JobsUploadSselogResponse_zero : JobsUploadSselogResponse := mkJobsUploadSselogResponse "".
Arguments JobsUploadSselogResponse_zero /.
Definition JobsUploadSselogResponse_SetMessage (val : string) (s : JobsUploadSselogResponse)
    : JobsUploadSselogResponse :=
  mkJobsUploadSselogResponse val.
Arguments JobsUploadSselogResponse_SetMessage val !s /.

(** ** The generated wrapper types *)

Definition NilJobsTranspileResultStats : NilMethods (gmap string string) := nil_methods ∅.
Definition NilJobsTranspileResultVirtualPhysicalMapping : NilMethods (gmap string string) := nil_methods ∅.
Definition NilString : NilMethods string := nil_methods "".
Definition OptDevicesDeviceInfoUpdate : OptMethods DevicesDeviceInfoUpdate :=
  opt_methods DevicesDeviceInfoUpdate_zero.
Definition OptDevicesDeviceStatusUpdate : OptMethods DevicesDeviceStatusUpdate :=
  opt_methods DevicesDeviceStatusUpdate_zero.
Definition OptDevicesUpdateDeviceRequest : OptMethods DevicesUpdateDeviceRequest :=
  opt_methods DevicesUpdateDeviceRequest_zero.
Definition OptFloat64 : OptMethods Z := opt_methods 0.
Definition OptInt : OptMethods Z := opt_methods 0.
Definition OptJobsJobStatus : OptMethods string := opt_methods "".
Definition OptJobsJobStatusUpdate : OptMethods JobsJobStatusUpdate := opt_methods JobsJobStatusUpdate_zero.
Definition OptJobsUpdateJobInfo : OptMethods JobsUpdateJobInfo := opt_methods JobsUpdateJobInfo_zero.
Definition OptJobsUpdateJobInfoRequest : OptMethods JobsUpdateJobInfoRequest :=
  opt_methods JobsUpdateJobInfoRequest_zero.
Definition OptJobsUpdateJobTranspilerInfoRequest : OptMethods (gmap string string) := opt_methods ∅.
Definition OptJobsUploadSselogRequestMultipart : OptMethods JobsUploadSselogRequestMultipart :=
  opt_methods JobsUploadSselogRequestMultipart_zero.
Definition OptNilDateTime : OptNilMethods Z := optnil_methods 0.
Definition OptNilFloat64 : OptNilMethods Z := optnil_methods 0.
Definition OptNilInt : OptNilMethods Z := optnil_methods 0.
Definition OptNilJobsEstimationResult : OptNilMethods JobsEstimationResult :=
  optnil_methods JobsEstimationResult_zero.
Definition OptNilJobsJobDefMitigationInfo : OptNilMethods (gmap string string) := optnil_methods ∅.
Definition OptNilJobsJobDefSimulatorInfo : OptNilMethods (gmap string string) := optnil_methods ∅.
Definition OptNilJobsJobDefTranspilerInfo : OptNilMethods (gmap string string) := optnil_methods ∅.
Definition OptNilJobsJobResult : OptNilMethods JobsJobResult := optnil_methods JobsJobResult_zero.
Definition OptNilJobsOperatorItemArray : OptNilMethods (option (list JobsOperatorItem)) := optnil_methods None.
Definition OptNilJobsSamplingResult : OptNilMethods JobsSamplingResult :=
  optnil_methods JobsSamplingResult_zero.
Definition OptNilJobsSamplingResultDividedCounts : OptNilMethods (gmap string string) := optnil_methods ∅.
Definition OptNilJobsTranspileResult : OptNilMethods JobsTranspileResult :=
  optnil_methods JobsTranspileResult_zero.
Definition OptNilString : OptNilMethods string := optnil_methods "".
Definition OptString : OptMethods string := opt_methods "".

(** ** String types with a fixed set of values *)

Definition one_of (values : list string) (s : string) : bool := existsb (String.eqb s) values.

(** [MarshalText] and [UnmarshalText]: the values are accepted as they stand. *)
Definition enum_MarshalText (values : list string) (s : string) : string + gerror :=
  if one_of values s then inl s else inr (Err ("invalid value: " +:+ s)).
Definition enum_UnmarshalText (values : list string) (data : string) : string + gerror :=
  if one_of values data then inl data else inr (Err ("invalid value: " +:+ data)).

Definition DevicesDeviceStatusUpdateStatusAvailable : string := "available".
Definition DevicesDeviceStatusUpdateStatusUnavailable : string := "unavailable".
Definition DevicesDeviceStatusUpdateStatus_AllValues : list string :=
  [DevicesDeviceStatusUpdateStatusAvailable; DevicesDeviceStatusUpdateStatusUnavailable].
Definition DevicesDeviceStatusUpdateStatus_MarshalText : string -> string + gerror :=
  enum_MarshalText DevicesDeviceStatusUpdateStatus_AllValues.
Definition DevicesDeviceStatusUpdateStatus_UnmarshalText : string -> string + gerror :=
  enum_UnmarshalText DevicesDeviceStatusUpdateStatus_AllValues.

Definition JobsJobStatusSubmitted : string := "submitted".
Definition JobsJobStatusReady : string := "ready".
Definition JobsJobStatusRunning : string := "running".
Definition JobsJobStatusSucceeded : string := "succeeded".
Definition JobsJobStatusFailed : string := "failed".
Definition JobsJobStatusCancelled : string := "cancelled".
Definition JobsJobStatus_AllValues : list string :=
  [JobsJobStatusSubmitted; JobsJobStatusReady; JobsJobStatusRunning; JobsJobStatusSucceeded;
    JobsJobStatusFailed; JobsJobStatusCancelled].
Definition JobsJobStatus_MarshalText : string -> string + gerror := enum_MarshalText JobsJobStatus_AllValues.
Definition JobsJobStatus_UnmarshalText : string -> string + gerror :=
  enum_UnmarshalText JobsJobStatus_AllValues.

Definition JobsJobStatusUpdateStatusRunning : string := "running".
Definition JobsJobStatusUpdateStatus_AllValues : list string := [JobsJobStatusUpdateStatusRunning].
Definition JobsJobStatusUpdateStatus_MarshalText : string -> string + gerror :=
  enum_MarshalText JobsJobStatusUpdateStatus_AllValues.
Definition JobsJobStatusUpdateStatus_UnmarshalText : string -> string + gerror :=
  enum_UnmarshalText JobsJobStatusUpdateStatus_AllValues.

Definition JobsJobTypeSampling : string := "sampling".
Definition JobsJobTypeEstimation : string := "estimation".
Definition JobsJobTypeMultiManual : string := "multi_manual".
Definition JobsJobTypeSse : string := "sse".
Definition JobsJobType_AllValues : list string :=
  [JobsJobTypeSampling; JobsJobTypeEstimation; JobsJobTypeMultiManual; JobsJobTypeSse].
Definition JobsJobType_MarshalText : string -> string + gerror := enum_MarshalText JobsJobType_AllValues.
Definition JobsJobType_UnmarshalText : string -> string + gerror := enum_UnmarshalText JobsJobType_AllValues.

(** ** Defaults (oas_defaults_gen.go) *)

(** [s.F.Null = true] *)
Definition set_Null {A} (o : OptNil A) : OptNil A := mkOptNil (OptNil_Value o) (OptNil_Set o) true.

Definition DevicesDeviceDataUpdateResponse_setDefaults (s : DevicesDeviceDataUpdateResponse)
    : DevicesDeviceDataUpdateResponse :=
  DevicesDeviceDataUpdateResponse_SetMessage "Device's data updated" s.
Arguments DevicesDeviceDataUpdateResponse_setDefaults !s /.
Definition DevicesUpdateDeviceResponse_setDefaults (s : DevicesUpdateDeviceResponse)
    : DevicesUpdateDeviceResponse :=
  DevicesUpdateDeviceResponse_SetMessage "Device is successfully updated." s.
Arguments DevicesUpdateDeviceResponse_setDefaults !s /.
Definition JobsJobDef_setDefaults (s : JobsJobDef) : JobsJobDef :=
  let s := JobsJobDef_SetExecutionTime (set_Null (JobsJobDef_ExecutionTime s)) s in
  let s := JobsJobDef_SetSubmittedAt (set_Null (JobsJobDef_SubmittedAt s)) s in
  let s := JobsJobDef_SetReadyAt (set_Null (JobsJobDef_ReadyAt s)) s in
  let s := JobsJobDef_SetRunningAt (set_Null (JobsJobDef_RunningAt s)) s in
  let s := JobsJobDef_SetEndedAt (set_Null (JobsJobDef_EndedAt s)) s in
  s.
Arguments JobsJobDef_setDefaults !s /.
Definition JobsJobInfo_setDefaults (s : JobsJobInfo) : JobsJobInfo :=
  let s := JobsJobInfo_SetCombinedProgram (set_Null (JobsJobInfo_CombinedProgram s)) s in
  let s := JobsJobInfo_SetMessage (set_Null (JobsJobInfo_Message s)) s in
  s.
Arguments JobsJobInfo_setDefaults !s /.
