(* ===== verification/ApiCodec.v ===== *)
(** * Encoding and decoding of the wrapper types, and how codecs combine

    [Nil_Encode] ... [OptNil_Decode] are the bodies the generated methods of
    the nullable and optional types share (oas/gen/providerapi/oas_json_gen.go).
    [codec enc dec zero ok norm] says that what [enc] writes of a value with
    [ok] is a JSON value and that [dec], run on a zero variable, reads [norm] of
    it: an unset optional value comes back as the default.  The lemmas combine
    codecs along the structure of the generated code; the schemas instantiate
    them. *)

From stdpp Require Import base gmap strings list fin_maps.
From Stdlib Require Import ZArith Lia.
From S2P Require Import Prelude GoString Jx ApiSchemas.

(** ** Encode and Decode of the wrappers *)

Definition Nil_Encode {A} (enc : encoder A) : encoder (Nil A) :=
  fun o => if Nil_Null o then [CNull] else enc (Nil_Value o).
Definition Opt_Encode {A} (enc : encoder A) : encoder (Opt A) :=
  fun o => if Opt_Set o then enc (Opt_Value o) else [].
Definition OptNil_Encode {A} (enc : encoder A) : encoder (OptNil A) :=
  fun o => if negb (OptNil_Set o) then [] else if OptNil_Null o then [CNull] else enc (OptNil_Value o).

(** [e.ArrStart(); for _, elem := range s { elem.Encode(e) }; e.ArrEnd()] *)
Definition slice_Encode {A} (enc : encoder A) : encoder (option (list A)) :=
  fun l => write_array (enc <$> default [] l).

Section decode.
Context {D : Type} {J : JxDecoder D}.

Definition Nil_Decode {A} (zero : A) (dec : decoder D A) : decoder D (Nil A) :=
  fun d o =>
    let '(t, d) := d_Next d in
    if bool_decide (t = TNull) then
      match d_Null d with
      | (Some e, d) => (Some e, d, o)
      | (None, d) => (None, d, mkNil zero true)
      end
    else let '(e, d, v) := dec d (Nil_Value o) in (e, d, mkNil v false).

Definition Opt_Decode {A} (dec : decoder D A) : decoder D (Opt A) :=
  fun d o => let '(e, d, v) := dec d (Opt_Value o) in (e, d, mkOpt v true).

Definition OptNil_Decode {A} (zero : A) (dec : decoder D A) : decoder D (OptNil A) :=
  fun d o =>
    let '(t, d) := d_Next d in
    if bool_decide (t = TNull) then
      match d_Null d with
      | (Some e, d) => (Some e, d, o)
      | (None, d) => (None, d, mkOptNil zero true true)
      end
    else let '(e, d, v) := dec d (OptNil_Value o) in (e, d, mkOptNil v true false).
End decode.

(** A member that is written when it is set. *)
Definition opt_member {A} (name : string) (o : Opt A) (enc : encoder (Opt A)) : list member :=
  if Opt_Set o then [(name, enc o)] else [].
Definition optnil_member {A} (name : string) (o : OptNil A) (enc : encoder (OptNil A)) : list member :=
  if OptNil_Set o then [(name, enc o)] else [].

(** ** What is read back *)

Definition Nil_norm {A} (zero : A) (n : A -> A) (o : Nil A) : Nil A :=
  if Nil_Null o then mkNil zero true else mkNil (n (Nil_Value o)) false.
Definition Opt_norm {A} (zero : A) (n : A -> A) (o : Opt A) : Opt A :=
  if Opt_Set o then mkOpt (n (Opt_Value o)) true else mkOpt zero false.
(** [dflt] is the null flag of the default. *)
Definition OptNil_norm {A} (zero : A) (dflt : bool) (n : A -> A) (o : OptNil A) : OptNil A :=
  if OptNil_Set o then if OptNil_Null o then mkOptNil zero true true else mkOptNil (n (OptNil_Value o)) true false
  else mkOptNil zero false dflt.

Definition slice_norm {A} (n : A -> A) (l : option (list A)) : option (list A) := Some (n <$> default [] l).

Definition slice_ok {A} (P : A -> Prop) (l : option (list A)) : Prop := Forall P (default [] l).
Definition Nil_ok {A} (P : A -> Prop) (o : Nil A) : Prop := Nil_Null o = false -> P (Nil_Value o).
Definition Opt_ok {A} (P : A -> Prop) (o : Opt A) : Prop := Opt_Set o = true -> P (Opt_Value o).
Definition OptNil_ok {A} (P : A -> Prop) (o : OptNil A) : Prop :=
  OptNil_Set o = true -> OptNil_Null o = false -> P (OptNil_Value o).

(** ** Codecs *)

(** The calls begin a value that is not null. *)
Definition starts (cs : list jx_call) : Prop :=
  exists c cs' t, cs = c :: cs' /\ value_type c = Some t /\ t <> TNull.

Section codecs.
Context {D : Type} {J : JxDecoder D} {L : JxLaws D}.

Definition codec {A} (enc : encoder A) (dec : decoder D A) (zero : A) (ok : A -> Prop) (norm : A -> A) : Prop :=
  forall v, ok v -> reads dec (enc v) zero (norm v) /\ json_value (enc v) /\ starts (enc v).

(** Codecs of values that may be null. *)
Definition nilcodec {A} (enc : encoder A) (dec : decoder D A) (zero : A) (ok : A -> Prop) (norm : A -> A) : Prop :=
  forall v, ok v -> reads dec (enc v) zero (norm v) /\ json_value (enc v).

Lemma codec_nilcodec {A} (enc : encoder A) dec zero ok norm :
  codec enc dec zero ok norm -> nilcodec enc dec zero ok norm.
Proof. intros H v Hv. destruct (H v Hv) as (? & ? & _). done. Qed.

Lemma starts_cons c cs t : value_type c = Some t -> t <> TNull -> starts (c :: cs).
Proof. intros. exists c, cs, t. done. Qed.

Lemma codec_str zero : codec enc_Str (assign d_Str) zero str_ok id.
Proof.
  intros s Hs. split_and!; [|by constructor|by eapply starts_cons].
  apply reads_assign. intros d r. by apply at_str.
Qed.

Lemma codec_str_first zero : codec enc_Str (assign_first d_Str) zero str_ok id.
Proof.
  intros s Hs. split_and!; [|by constructor|by eapply starts_cons].
  apply reads_assign_first. intros d r. by apply at_str.
Qed.

Lemma codec_int zero : codec enc_Int (assign d_Int) zero in_i64 id.
Proof.
  intros s Hs. split_and!; [|by constructor|by eapply starts_cons].
  apply reads_assign. intros d r. by apply at_int.
Qed.

Lemma codec_int_first zero : codec enc_Int (assign_first d_Int) zero in_i64 id.
Proof.
  intros s Hs. split_and!; [|by constructor|by eapply starts_cons].
  apply reads_assign_first. intros d r. by apply at_int.
Qed.

Lemma codec_float zero : codec enc_Float64 (assign d_Float64) zero float_ok id.
Proof.
  intros s Hs. split_and!; [|by constructor|by eapply starts_cons].
  apply reads_assign. intros d r. by apply at_float.
Qed.

Lemma codec_float_first zero : codec enc_Float64 (assign_first d_Float64) zero float_ok id.
Proof.
  intros s Hs. split_and!; [|by constructor|by eapply starts_cons].
  apply reads_assign_first. intros d r. by apply at_float.
Qed.

Lemma codec_date {DT : DateTime D} {DL : DateTimeLaws D} zero :
  codec EncodeDateTime (assign DecodeDateTime) zero time_ok id.
Proof.
  intros t Ht. destruct (date_string t Ht) as (s & Hs & He). split_and!.
  - apply reads_assign. intros d r. by apply at_date.
  - rewrite He. by constructor.
  - rewrite He. by eapply starts_cons.
Qed.

Lemma codec_wrapped {A} msg (enc : encoder A) dec zero ok norm :
  codec enc dec zero ok norm -> codec enc (wrapped msg dec) zero ok norm.
Proof. intros H v Hv. destruct (H v Hv) as (? & ? & ?). split_and!; [by apply reads_wrapped|done..]. Qed.

Lemma codec_fresh {A} (enc : encoder A) dec zero ok norm :
  codec enc dec zero ok norm -> codec enc (fresh zero dec) zero ok norm.
Proof. intros H. exact H. Qed.

Lemma json_values_Forall vs : Forall json_value vs -> json_values vs.
Proof. induction 1; by constructor. Qed.

Lemma codec_raw_map {MR : MapRange} name :
  codec raw_map_Encode (raw_map_Decode name) ∅ raw_map_ok id.
Proof.
  intros m Hm. pose proof (raw_elems_ok m Hm) as Hall. split_and!.
  - pose proof (raw_map_reads name m ∅ Hm) as H. rewrite (right_id_L ∅ (∪)) in H. exact H.
  - apply jv_obj; [eapply Forall_impl; [exact Hall|]; naive_solver|].
    apply json_values_Forall, Forall_fmap. eapply Forall_impl; [exact Hall|]. naive_solver.
  - by eapply starts_cons.
Qed.

Lemma codec_array {A} (enc : encoder A) dec zero ok norm : codec enc dec zero ok norm ->
  codec (slice_Encode enc) (array zero dec) None
    (slice_ok ok) (slice_norm norm).
Proof.
  intros H l Hl. unfold slice_ok, slice_norm in *. rewrite Forall_forall in Hl. split_and!.
  - apply array_reads; [intros a Ha; by apply H, Hl|]. apply Forall_forall. intros a Ha. by apply H, Hl.
  - apply jv_arr, json_values_Forall, Forall_fmap, Forall_forall. intros a Ha. by apply H, Hl.
  - by eapply starts_cons.
Qed.

(** A value that is not null is seen not to be, and then read. *)
Lemma not_null_case {A} (dec : decoder D A) cs v0 v d r :
  reads dec cs v0 v -> json_value cs -> starts cs -> At d (cs ++ r) ->
  exists t d1 d2, d_Next d = (t, d1) /\ t <> TNull /\ dec d1 v0 = (None, d2, v) /\ At d2 r.
Proof.
  intros Hdec Hj (c & cs' & t & -> & Ht & Hn) Hd.
  destruct (at_next _ _ _ _ _ Hj Ht Hd) as (d1 & ? & Hd1). destruct (Hdec d1 r Hd1) as (d2 & ? & Hd2).
  exists t, d1, d2. done.
Qed.

Lemma Nil_reads {A} (enc : encoder A) dec zero ok norm : codec enc dec zero ok norm ->
  nilcodec (Nil_Encode enc) (Nil_Decode zero dec) (Nil_zero zero) (Nil_ok ok) (Nil_norm zero norm).
Proof.
  intros H [v []] Hok; unfold Nil_Encode, Nil_norm, Nil_ok in *; cbn in *.
  - split; [|constructor]. intros d r Hd. unfold Nil_Decode.
    destruct (at_next d CNull [] r TNull (jv_null _ _ _) eq_refl Hd) as (d1 & -> & Hd1). cbn.
    destruct (at_null _ _ Hd1) as (d2 & -> & Hd2). eauto.
  - destruct (H v (Hok eq_refl)) as (Hr & Hj & Hs). split; [|done].
    intros d r Hd. destruct (not_null_case _ _ _ _ _ _ Hr Hj Hs Hd) as (t & d1 & d2 & Hn & Ht & Hdec & Hd2).
    exists d2. unfold Nil_Decode. cbn. by rewrite Hn, bool_decide_eq_false_2, Hdec.
Qed.

Lemma Opt_reads {A} (enc : encoder A) dec zero ok norm o : codec enc dec zero ok norm ->
  Opt_Set o = true -> Opt_ok ok o ->
  reads (fresh (Opt_zero zero) (Opt_Decode dec)) (Opt_Encode enc o) (Opt_zero zero) (Opt_norm zero norm o)
  /\ json_value (Opt_Encode enc o).
Proof.
  intros H Hset Hok. unfold Opt_Encode, Opt_norm. rewrite Hset.
  destruct (H _ (Hok Hset)) as (Hr & Hj & _). split; [|done].
  intros d r Hd. destruct (Hr d r Hd) as (d' & Hdec & Hd'). exists d'.
  unfold fresh, Opt_Decode. cbn. by rewrite Hdec.
Qed.

Lemma OptNil_reads {A} (enc : encoder A) dec zero ok norm dflt o : codec enc dec zero ok norm ->
  OptNil_Set o = true -> OptNil_ok ok o -> forall o0,
  reads (fresh (OptNil_zero zero) (OptNil_Decode zero dec)) (OptNil_Encode enc o) o0 (OptNil_norm zero dflt norm o)
  /\ json_value (OptNil_Encode enc o).
Proof.
  intros H Hset Hok o0. unfold OptNil_Encode, OptNil_norm, OptNil_ok in *. rewrite Hset in *. cbn.
  destruct (OptNil_Null o).
  - split; [|constructor]. intros d r Hd. unfold fresh, OptNil_Decode.
    destruct (at_next d CNull [] r TNull (jv_null _ _ _) eq_refl Hd) as (d1 & -> & Hd1). cbn.
    destruct (at_null _ _ Hd1) as (d2 & -> & Hd2). eauto.
  - destruct (H _ (Hok eq_refl eq_refl)) as (Hr & Hj & Hs). split; [|done].
    intros d r Hd. destruct (not_null_case _ _ _ _ _ _ Hr Hj Hs Hd) as (t & d1 & d2 & Hn & Ht & Hdec & Hd2).
    exists d2. unfold fresh, OptNil_Decode. cbn. by rewrite Hn, bool_decide_eq_false_2, Hdec.
Qed.

(** ** The members of an object *)

(** Well-formed members that take the state from [s] to [s']. *)
Definition members_run {S} (f : string -> decoder D S) (ms : list member) (s s' : S) : Prop :=
  Forall (fun m => str_ok m.1 /\ json_value m.2) ms /\ obj_run f ms s s'.

Lemma members_nil {S} (f : string -> decoder D S) s : members_run f [] s s.
Proof. split; constructor. Qed.

Lemma members_eq {S} (f : string -> decoder D S) ms s s1 s2 : members_run f ms s s1 -> s1 = s2 -> members_run f ms s s2.
Proof. by intros H <-. Qed.

Lemma members_app {S} (f : string -> decoder D S) ms1 ms2 s s1 s2 :
  members_run f ms1 s s1 -> members_run f ms2 s1 s2 -> members_run f (ms1 ++ ms2) s s2.
Proof. intros [? ?] [? ?]. split; [by apply Forall_app|by eapply obj_run_app]. Qed.

Lemma members_object {T} name names masks (setDefaults : T -> T) field ms s s1 b :
  members_run field ms (setDefaults s, replicate (length masks) 0) (s1, b) ->
  required_failures names b masks = [] ->
  reads (object name names masks setDefaults field) (write_object ms) s s1
  /\ json_value (write_object ms) /\ starts (write_object ms).
Proof.
  intros [Hall Hrun] Hreq. split_and!.
  - by eapply object_reads.
  - apply jv_obj; [eapply Forall_impl; [exact Hall|]; naive_solver|].
    apply json_values_Forall, Forall_fmap. eapply Forall_impl; [exact Hall|]. naive_solver.
  - by eapply starts_cons.
Qed.

Section member.
Context {T F : Type} (get : T -> F) (set : F -> T -> T).
Implicit Types s : T.

Lemma member_required (f : string -> decoder D (T * bitset)) name i j (enc : encoder F) dec zero ok norm x s b :
  f name = required i j (decode_field name get set dec) ->
  string_forallb is_ascii name = true -> nilcodec enc dec zero ok norm -> ok x -> get s = zero ->
  members_run f [(name, enc x)] (s, b) (set (norm x) s, set_bit i j b).
Proof.
  intros Hf Hname H Hx Hz. destruct (H x Hx) as (Hr & Hj). split.
  - constructor; [|constructor]. split; [by apply str_ok_ascii|done].
  - apply obj_run_one. rewrite Hf. apply reads_required.
    apply (reads_field name get set dec _ (s, set_bit i j b)). cbn. by rewrite Hz.
Qed.
End member.

Section opt_members.
Context {T A : Type}.

Lemma member_opt (get : T -> Opt A) (set : Opt A -> T -> T) (f : string -> decoder D (T * bitset)) name
    (enc : encoder A) dec zero ok norm o s b :
  f name = decode_field name get set (fresh (Opt_zero zero) (Opt_Decode dec)) ->
  string_forallb is_ascii name = true -> codec enc dec zero ok norm -> Opt_ok ok o ->
  get s = mkOpt zero false -> set (get s) s = s ->
  members_run f (opt_member name o (Opt_Encode enc)) (s, b) (set (Opt_norm zero norm o) s, b).
Proof.
  intros Hf Hname H Ho Hget Hset. unfold opt_member. destruct (Opt_Set o) eqn:Hs.
  - destruct (Opt_reads enc dec zero ok norm o H Hs Ho) as (Hr & Hj). split.
    + constructor; [|constructor]. split; [by apply str_ok_ascii|done].
    + apply obj_run_one. rewrite Hf. exact (reads_field name get set _ _ (s, b) _ Hr).
  - unfold Opt_norm. rewrite Hs, <- Hget, Hset. apply members_nil.
Qed.

Lemma member_optnil (get : T -> OptNil A) (set : OptNil A -> T -> T) (f : string -> decoder D (T * bitset)) name
    (enc : encoder A) dec zero ok norm dflt o s b :
  f name = decode_field name get set (fresh (OptNil_zero zero) (OptNil_Decode zero dec)) ->
  string_forallb is_ascii name = true -> codec enc dec zero ok norm -> OptNil_ok ok o ->
  get s = mkOptNil zero false dflt -> set (get s) s = s ->
  members_run f (optnil_member name o (OptNil_Encode enc)) (s, b) (set (OptNil_norm zero dflt norm o) s, b).
Proof.
  intros Hf Hname H Ho Hget Hset. unfold optnil_member. destruct (OptNil_Set o) eqn:Hs.
  - destruct (OptNil_reads enc dec zero ok norm dflt o H Hs Ho (get s)) as (Hr & Hj). split.
    + constructor; [|constructor]. split; [by apply str_ok_ascii|done].
    + apply obj_run_one. rewrite Hf. exact (reads_field name get set _ _ (s, b) _ Hr).
  - unfold OptNil_norm. rewrite Hs, <- Hget, Hset. apply members_nil.
Qed.
End opt_members.
End codecs.

(** ** Automation: the codec of a struct, member by member *)

Create HintDb codec.

Ltac solve_codec :=
  first
    [ apply codec_str_first | apply codec_str | apply codec_int_first | apply codec_int
    | apply codec_float_first | apply codec_float | apply codec_date | apply codec_raw_map
    | apply codec_fresh, codec_raw_map
    | apply codec_wrapped; solve_codec
    | apply (codec_array enc_Str), codec_str_first
    | apply codec_array; solve [eauto with codec]
    | solve [eauto with codec] ].

Ltac solve_nilcodec :=
  first [ apply codec_nilcodec; solve_codec | apply Nil_reads; solve_codec ].

(** One member: its case of the switch is found by evaluation. *)
Ltac member_step :=
  first
    [ eapply member_required; [reflexivity|reflexivity|solve_nilcodec|eassumption|reflexivity]
    | eapply member_optnil; [reflexivity|reflexivity|solve_codec|eassumption|reflexivity|reflexivity]
    | eapply member_opt; [reflexivity|reflexivity|solve_codec|eassumption|reflexivity|reflexivity] ].

(** The record built so far, with its setters applied. *)
Ltac simpl_state :=
  lazymatch goal with
  | |- members_run ?f ?ms (?s, ?b) ?z =>
      let s' := eval simpl in s in change (members_run f ms (s', b) z)
  end.

Ltac members_steps :=
  simpl_state;
  lazymatch goal with
  | |- members_run _ (_ ++ _) _ _ => eapply members_app; [member_step|members_steps]
  | |- members_run _ (_ :: _) _ _ => member_step
  | |- members_run _ (optnil_member _ _ _) _ _ => member_step
  | |- members_run _ (opt_member _ _ _) _ _ => member_step
  | |- members_run _ (?encodeFields _) _ _ => unfold encodeFields; members_steps
  end.

(** The codec of a struct from the codecs of its members. *)
Ltac object_codec :=
  let v := fresh "v" in let Hv := fresh "Hv" in
  intros v Hv;
  lazymatch type of Hv with ?P v => unfold P in Hv end;
  repeat match goal with H : _ /\ _ |- _ => destruct H end;
  eapply members_object; [eapply members_eq; [members_steps|reflexivity]|reflexivity].
