(* ===== verification/ApiJson.v ===== *)
(** * The JSON codecs of the provider API (oas/gen/providerapi/oas_json_gen.go)

    For every schema the members [encodeFields] writes, [Encode], the switch of
    [Decode] over the member names ([_field]) and [Decode] itself.  [MarshalJSON]
    and [UnmarshalJSON] run them on a fresh encoder and decoder.

    [T_ok] says which values survive being written, [T_norm] what is read back:
    the value itself except that an unset member has its default.  The codec
    lemmas prove it schema by schema; the theorems at the end are about the
    texts, about missing and about unknown members. *)

From stdpp Require Import base gmap strings list fin_maps.
From Stdlib Require Import ZArith Lia.
From S2P Require Import Prelude GoString Json Jx JxText ApiSchemas ApiCodec.

Section codecs.
Context {D : Type} {J : JxDecoder D} {DT : DateTime D} {MR : MapRange}.

(** ** Encode and Decode *)

Definition DevicesDeviceDataUpdateResponse_encodeFields (s : DevicesDeviceDataUpdateResponse) : list member :=
  [("message", enc_Str (DevicesDeviceDataUpdateResponse_Message s))].
Definition DevicesDeviceDataUpdateResponse_Encode : encoder DevicesDeviceDataUpdateResponse :=
  fun s => write_object (DevicesDeviceDataUpdateResponse_encodeFields s).
Definition jsonFieldsNameOfDevicesDeviceDataUpdateResponse : list string := ["message"].
Definition DevicesDeviceDataUpdateResponse_field (k : string) : decoder D (DevicesDeviceDataUpdateResponse * bitset) :=
  if String.eqb k "message" then
    required 0 0 (decode_field "message" DevicesDeviceDataUpdateResponse_Message
      DevicesDeviceDataUpdateResponse_SetMessage (assign_first d_Str))
  else skip_field.
Definition DevicesDeviceDataUpdateResponse_Decode : decoder D DevicesDeviceDataUpdateResponse :=
  object "DevicesDeviceDataUpdateResponse" jsonFieldsNameOfDevicesDeviceDataUpdateResponse [1]
    DevicesDeviceDataUpdateResponse_setDefaults DevicesDeviceDataUpdateResponse_field.

Definition NilString_Encode : encoder (Nil string) := Nil_Encode enc_Str.
Definition NilString_Decode : decoder D (Nil string) := Nil_Decode "" (assign d_Str).

(** The format is an argument of the two methods. *)
Definition OptNilDateTime_Encode (format : encoder Z) : encoder (OptNil Z) := OptNil_Encode format.
Definition OptNilDateTime_Decode (format : D -> Z * option gerror * D) : decoder D (OptNil Z) :=
  OptNil_Decode 0 (assign format).

Definition DevicesDeviceInfoUpdate_encodeFields (s : DevicesDeviceInfoUpdate) : list member :=
  [("device_info", NilString_Encode (DevicesDeviceInfoUpdate_DeviceInfo s))]
  ++ optnil_member "calibrated_at" (DevicesDeviceInfoUpdate_CalibratedAt s) (OptNilDateTime_Encode EncodeDateTime).
Definition DevicesDeviceInfoUpdate_Encode : encoder DevicesDeviceInfoUpdate :=
  fun s => write_object (DevicesDeviceInfoUpdate_encodeFields s).
Definition jsonFieldsNameOfDevicesDeviceInfoUpdate : list string := ["device_info"; "calibrated_at"].
Definition DevicesDeviceInfoUpdate_field (k : string) : decoder D (DevicesDeviceInfoUpdate * bitset) :=
  if String.eqb k "device_info" then
    required 0 0 (decode_field "device_info" DevicesDeviceInfoUpdate_DeviceInfo
      DevicesDeviceInfoUpdate_SetDeviceInfo NilString_Decode)
  else if String.eqb k "calibrated_at" then
    decode_field "calibrated_at" DevicesDeviceInfoUpdate_CalibratedAt DevicesDeviceInfoUpdate_SetCalibratedAt
      (fresh (OptNil_zero 0) (OptNilDateTime_Decode DecodeDateTime))
  else skip_field.
Definition DevicesDeviceInfoUpdate_Decode : decoder D DevicesDeviceInfoUpdate :=
  object "DevicesDeviceInfoUpdate" jsonFieldsNameOfDevicesDeviceInfoUpdate [1] id DevicesDeviceInfoUpdate_field.

Definition DevicesDeviceStatusUpdateStatus_Encode : encoder string := enc_Str.
(** Every branch of the switch over the constants stores the text itself. *)
Definition DevicesDeviceStatusUpdateStatus_Decode : decoder D string := assign d_Str.

Definition DevicesDeviceStatusUpdate_encodeFields (s : DevicesDeviceStatusUpdate) : list member :=
  [("status", DevicesDeviceStatusUpdateStatus_Encode (DevicesDeviceStatusUpdate_Status s))].
Definition DevicesDeviceStatusUpdate_Encode : encoder DevicesDeviceStatusUpdate :=
  fun s => write_object (DevicesDeviceStatusUpdate_encodeFields s).
Definition jsonFieldsNameOfDevicesDeviceStatusUpdate : list string := ["status"].
Definition DevicesDeviceStatusUpdate_field (k : string) : decoder D (DevicesDeviceStatusUpdate * bitset) :=
  if String.eqb k "status" then
    required 0 0 (decode_field "status" DevicesDeviceStatusUpdate_Status DevicesDeviceStatusUpdate_SetStatus
      DevicesDeviceStatusUpdateStatus_Decode)
  else skip_field.
Definition DevicesDeviceStatusUpdate_Decode : decoder D DevicesDeviceStatusUpdate :=
  object "DevicesDeviceStatusUpdate" jsonFieldsNameOfDevicesDeviceStatusUpdate [1] id
    DevicesDeviceStatusUpdate_field.

Definition OptNilInt_Encode : encoder (OptNil Z) := OptNil_Encode enc_Int.
Definition OptNilInt_Decode : decoder D (OptNil Z) := OptNil_Decode 0 (assign d_Int).

Definition DevicesUpdateDeviceRequest_encodeFields (s : DevicesUpdateDeviceRequest) : list member :=
  optnil_member "n_qubits" (DevicesUpdateDeviceRequest_NQubits s) OptNilInt_Encode.
Definition DevicesUpdateDeviceRequest_Encode : encoder DevicesUpdateDeviceRequest :=
  fun s => write_object (DevicesUpdateDeviceRequest_encodeFields s).
Definition jsonFieldsNameOfDevicesUpdateDeviceRequest : list string := ["n_qubits"].
Definition DevicesUpdateDeviceRequest_field (k : string) : decoder D (DevicesUpdateDeviceRequest * bitset) :=
  if String.eqb k "n_qubits" then
    decode_field "n_qubits" DevicesUpdateDeviceRequest_NQubits DevicesUpdateDeviceRequest_SetNQubits (fresh
      (OptNil_zero 0) OptNilInt_Decode)
  else skip_field.
Definition DevicesUpdateDeviceRequest_Decode : decoder D DevicesUpdateDeviceRequest :=
  object "DevicesUpdateDeviceRequest" jsonFieldsNameOfDevicesUpdateDeviceRequest [] id
    DevicesUpdateDeviceRequest_field.

Definition DevicesUpdateDeviceResponse_encodeFields (s : DevicesUpdateDeviceResponse) : list member :=
  [("message", enc_Str (DevicesUpdateDeviceResponse_Message s))].
Definition DevicesUpdateDeviceResponse_Encode : encoder DevicesUpdateDeviceResponse :=
  fun s => write_object (DevicesUpdateDeviceResponse_encodeFields s).
Definition jsonFieldsNameOfDevicesUpdateDeviceResponse : list string := ["message"].
Definition DevicesUpdateDeviceResponse_field (k : string) : decoder D (DevicesUpdateDeviceResponse * bitset) :=
  if String.eqb k "message" then
    required 0 0 (decode_field "message" DevicesUpdateDeviceResponse_Message
      DevicesUpdateDeviceResponse_SetMessage (assign_first d_Str))
  else skip_field.
Definition DevicesUpdateDeviceResponse_Decode : decoder D DevicesUpdateDeviceResponse :=
  object "DevicesUpdateDeviceResponse" jsonFieldsNameOfDevicesUpdateDeviceResponse [1]
    DevicesUpdateDeviceResponse_setDefaults DevicesUpdateDeviceResponse_field.

Definition ErrorBadRequest_encodeFields (s : ErrorBadRequest) : list member :=
  [("message", enc_Str (ErrorBadRequest_Message s))].
Definition ErrorBadRequest_Encode : encoder ErrorBadRequest :=
  fun s => write_object (ErrorBadRequest_encodeFields s).
Definition jsonFieldsNameOfErrorBadRequest : list string := ["message"].
Definition ErrorBadRequest_field (k : string) : decoder D (ErrorBadRequest * bitset) :=
  if String.eqb k "message" then
    required 0 0 (decode_field "message" ErrorBadRequest_Message ErrorBadRequest_SetMessage (assign_first
      d_Str))
  else skip_field.
Definition ErrorBadRequest_Decode : decoder D ErrorBadRequest :=
  object "ErrorBadRequest" jsonFieldsNameOfErrorBadRequest [1] id ErrorBadRequest_field.

Definition ErrorConflictError_encodeFields (s : ErrorConflictError) : list member :=
  [("message", enc_Str (ErrorConflictError_Message s))].
Definition ErrorConflictError_Encode : encoder ErrorConflictError :=
  fun s => write_object (ErrorConflictError_encodeFields s).
Definition jsonFieldsNameOfErrorConflictError : list string := ["message"].
Definition ErrorConflictError_field (k : string) : decoder D (ErrorConflictError * bitset) :=
  if String.eqb k "message" then
    required 0 0 (decode_field "message" ErrorConflictError_Message ErrorConflictError_SetMessage (assign_first
      d_Str))
  else skip_field.
Definition ErrorConflictError_Decode : decoder D ErrorConflictError :=
  object "ErrorConflictError" jsonFieldsNameOfErrorConflictError [1] id ErrorConflictError_field.

Definition ErrorInternalServerError_encodeFields (s : ErrorInternalServerError) : list member :=
  [("message", enc_Str (ErrorInternalServerError_Message s))].
Definition ErrorInternalServerError_Encode : encoder ErrorInternalServerError :=
  fun s => write_object (ErrorInternalServerError_encodeFields s).
Definition jsonFieldsNameOfErrorInternalServerError : list string := ["message"].
Definition ErrorInternalServerError_field (k : string) : decoder D (ErrorInternalServerError * bitset) :=
  if String.eqb k "message" then
    required 0 0 (decode_field "message" ErrorInternalServerError_Message ErrorInternalServerError_SetMessage
      (assign_first d_Str))
  else skip_field.
Definition ErrorInternalServerError_Decode : decoder D ErrorInternalServerError :=
  object "ErrorInternalServerError" jsonFieldsNameOfErrorInternalServerError [1] id
    ErrorInternalServerError_field.

Definition ErrorNotFoundError_encodeFields (s : ErrorNotFoundError) : list member :=
  [("message", enc_Str (ErrorNotFoundError_Message s))].
Definition ErrorNotFoundError_Encode : encoder ErrorNotFoundError :=
  fun s => write_object (ErrorNotFoundError_encodeFields s).
Definition jsonFieldsNameOfErrorNotFoundError : list string := ["message"].
Definition ErrorNotFoundError_field (k : string) : decoder D (ErrorNotFoundError * bitset) :=
  if String.eqb k "message" then
    required 0 0 (decode_field "message" ErrorNotFoundError_Message ErrorNotFoundError_SetMessage (assign_first
      d_Str))
  else skip_field.
Definition ErrorNotFoundError_Decode : decoder D ErrorNotFoundError :=
  object "ErrorNotFoundError" jsonFieldsNameOfErrorNotFoundError [1] id ErrorNotFoundError_field.

Definition JobsEstimationResult_encodeFields (s : JobsEstimationResult) : list member :=
  [("exp_value", enc_Float64 (JobsEstimationResult_ExpValue s))]
  ++ [("stds", enc_Float64 (JobsEstimationResult_Stds s))].
Definition JobsEstimationResult_Encode : encoder JobsEstimationResult :=
  fun s => write_object (JobsEstimationResult_encodeFields s).
Definition jsonFieldsNameOfJobsEstimationResult : list string := ["exp_value"; "stds"].
Definition JobsEstimationResult_field (k : string) : decoder D (JobsEstimationResult * bitset) :=
  if String.eqb k "exp_value" then
    required 0 0 (decode_field "exp_value" JobsEstimationResult_ExpValue JobsEstimationResult_SetExpValue
      (assign_first d_Float64))
  else if String.eqb k "stds" then
    required 0 1 (decode_field "stds" JobsEstimationResult_Stds JobsEstimationResult_SetStds (assign_first
      d_Float64))
  else skip_field.
Definition JobsEstimationResult_Decode : decoder D JobsEstimationResult :=
  object "JobsEstimationResult" jsonFieldsNameOfJobsEstimationResult [3] id JobsEstimationResult_field.

Definition OptFloat64_Encode : encoder (Opt Z) := Opt_Encode enc_Float64.
Definition OptFloat64_Decode : decoder D (Opt Z) := Opt_Decode (assign d_Float64).

Definition JobsOperatorItem_encodeFields (s : JobsOperatorItem) : list member :=
  [("pauli", enc_Str (JobsOperatorItem_Pauli s))]
  ++ opt_member "coeff" (JobsOperatorItem_Coeff s) OptFloat64_Encode.
Definition JobsOperatorItem_Encode : encoder JobsOperatorItem :=
  fun s => write_object (JobsOperatorItem_encodeFields s).
Definition jsonFieldsNameOfJobsOperatorItem : list string := ["pauli"; "coeff"].
Definition JobsOperatorItem_field (k : string) : decoder D (JobsOperatorItem * bitset) :=
  if String.eqb k "pauli" then
    required 0 0 (decode_field "pauli" JobsOperatorItem_Pauli JobsOperatorItem_SetPauli (assign_first d_Str))
  else if String.eqb k "coeff" then
    decode_field "coeff" JobsOperatorItem_Coeff JobsOperatorItem_SetCoeff (fresh (Opt_zero 0) OptFloat64_Decode)
  else skip_field.
Definition JobsOperatorItem_Decode : decoder D JobsOperatorItem :=
  object "JobsOperatorItem" jsonFieldsNameOfJobsOperatorItem [1] id JobsOperatorItem_field.

Definition JobsSamplingResultCounts_Encode : encoder (gmap string string) := raw_map_Encode.
Definition JobsSamplingResultCounts_Decode : decoder D (gmap string string) := raw_map_Decode "JobsSamplingResultCounts".

Definition JobsSamplingResultDividedCounts_Encode : encoder (gmap string string) := raw_map_Encode.
Definition JobsSamplingResultDividedCounts_Decode : decoder D (gmap string string) := raw_map_Decode "JobsSamplingResultDividedCounts".

Definition OptNilJobsSamplingResultDividedCounts_Encode : encoder (OptNil (gmap string string)) := OptNil_Encode JobsSamplingResultDividedCounts_Encode.
Definition OptNilJobsSamplingResultDividedCounts_Decode : decoder D (OptNil (gmap string string)) := OptNil_Decode ∅ (fresh ∅ JobsSamplingResultDividedCounts_Decode).

Definition JobsSamplingResult_encodeFields (s : JobsSamplingResult) : list member :=
  [("counts", JobsSamplingResultCounts_Encode (JobsSamplingResult_Counts s))]
  ++ optnil_member "divided_counts" (JobsSamplingResult_DividedCounts s) OptNilJobsSamplingResultDividedCounts_Encode.
Definition JobsSamplingResult_Encode : encoder JobsSamplingResult :=
  fun s => write_object (JobsSamplingResult_encodeFields s).
Definition jsonFieldsNameOfJobsSamplingResult : list string := ["counts"; "divided_counts"].
Definition JobsSamplingResult_field (k : string) : decoder D (JobsSamplingResult * bitset) :=
  if String.eqb k "counts" then
    required 0 0 (decode_field "counts" JobsSamplingResult_Counts JobsSamplingResult_SetCounts
      JobsSamplingResultCounts_Decode)
  else if String.eqb k "divided_counts" then
    decode_field "divided_counts" JobsSamplingResult_DividedCounts JobsSamplingResult_SetDividedCounts (fresh
      (OptNil_zero ∅) OptNilJobsSamplingResultDividedCounts_Decode)
  else skip_field.
Definition JobsSamplingResult_Decode : decoder D JobsSamplingResult :=
  object "JobsSamplingResult" jsonFieldsNameOfJobsSamplingResult [1] id JobsSamplingResult_field.

Definition OptNilJobsSamplingResult_Encode : encoder (OptNil JobsSamplingResult) := OptNil_Encode JobsSamplingResult_Encode.
Definition OptNilJobsSamplingResult_Decode : decoder D (OptNil JobsSamplingResult) := OptNil_Decode JobsSamplingResult_zero JobsSamplingResult_Decode.

Definition OptNilJobsEstimationResult_Encode : encoder (OptNil JobsEstimationResult) := OptNil_Encode JobsEstimationResult_Encode.
Definition OptNilJobsEstimationResult_Decode : decoder D (OptNil JobsEstimationResult) := OptNil_Decode JobsEstimationResult_zero JobsEstimationResult_Decode.

Definition JobsJobResultAdditional_Encode : encoder (gmap string string) := raw_map_Encode.
Definition JobsJobResultAdditional_Decode : decoder D (gmap string string) := raw_map_Decode "JobsJobResultAdditional".

Definition JobsJobResult_encodeFields (s : JobsJobResult) : list member :=
  optnil_member "sampling" (JobsJobResult_Sampling s) OptNilJobsSamplingResult_Encode
  ++ optnil_member "estimation" (JobsJobResult_Estimation s) OptNilJobsEstimationResult_Encode
  ++ raw_elems (JobsJobResult_AdditionalProps s).
Definition JobsJobResult_Encode : encoder JobsJobResult := fun s => write_object (JobsJobResult_encodeFields s).
Definition jsonFieldsNameOfJobsJobResult : list string := ["sampling"; "estimation"].
Definition JobsJobResult_field (k : string) : decoder D (JobsJobResult * bitset) :=
  if String.eqb k "sampling" then
    decode_field "sampling" JobsJobResult_Sampling JobsJobResult_SetSampling (fresh (OptNil_zero
      JobsSamplingResult_zero) OptNilJobsSamplingResult_Decode)
  else if String.eqb k "estimation" then
    decode_field "estimation" JobsJobResult_Estimation JobsJobResult_SetEstimation (fresh (OptNil_zero
      JobsEstimationResult_zero) OptNilJobsEstimationResult_Decode)
  else raw_field (fun k v s => (JobsJobResult_SetAdditionalProps (<[k := v]> (JobsJobResult_AdditionalProps s.1)) s.1, s.2)) k.
Definition JobsJobResult_Decode : decoder D JobsJobResult :=
  object "JobsJobResult" jsonFieldsNameOfJobsJobResult [] (JobsJobResult_SetAdditionalProps ∅)
    JobsJobResult_field.

Definition JobsTranspileResultStats_Encode : encoder (gmap string string) := raw_map_Encode.
Definition JobsTranspileResultStats_Decode : decoder D (gmap string string) := raw_map_Decode "JobsTranspileResultStats".

Definition NilJobsTranspileResultStats_Encode : encoder (Nil (gmap string string)) := Nil_Encode JobsTranspileResultStats_Encode.
Definition NilJobsTranspileResultStats_Decode : decoder D (Nil (gmap string string)) := Nil_Decode ∅ (fresh ∅ JobsTranspileResultStats_Decode).

Definition JobsTranspileResultVirtualPhysicalMapping_Encode : encoder (gmap string string) := raw_map_Encode.
Definition JobsTranspileResultVirtualPhysicalMapping_Decode : decoder D (gmap string string) := raw_map_Decode "JobsTranspileResultVirtualPhysicalMapping".

Definition NilJobsTranspileResultVirtualPhysicalMapping_Encode : encoder (Nil (gmap string string)) := Nil_Encode JobsTranspileResultVirtualPhysicalMapping_Encode.
Definition NilJobsTranspileResultVirtualPhysicalMapping_Decode : decoder D (Nil (gmap string string)) := Nil_Decode ∅ (fresh ∅ JobsTranspileResultVirtualPhysicalMapping_Decode).

Definition JobsTranspileResult_encodeFields (s : JobsTranspileResult) : list member :=
  [("transpiled_program", NilString_Encode (JobsTranspileResult_TranspiledProgram s))]
  ++ [("stats", NilJobsTranspileResultStats_Encode (JobsTranspileResult_Stats s))]
  ++ [("virtual_physical_mapping", NilJobsTranspileResultVirtualPhysicalMapping_Encode (JobsTranspileResult_VirtualPhysicalMapping s))].
Definition JobsTranspileResult_Encode : encoder JobsTranspileResult :=
  fun s => write_object (JobsTranspileResult_encodeFields s).
Definition jsonFieldsNameOfJobsTranspileResult : list string :=
  ["transpiled_program"; "stats"; "virtual_physical_mapping"].
Definition JobsTranspileResult_field (k : string) : decoder D (JobsTranspileResult * bitset) :=
  if String.eqb k "transpiled_program" then
    required 0 0 (decode_field "transpiled_program" JobsTranspileResult_TranspiledProgram
      JobsTranspileResult_SetTranspiledProgram NilString_Decode)
  else if String.eqb k "stats" then
    required 0 1 (decode_field "stats" JobsTranspileResult_Stats JobsTranspileResult_SetStats
      NilJobsTranspileResultStats_Decode)
  else if String.eqb k "virtual_physical_mapping" then
    required 0 2 (decode_field "virtual_physical_mapping" JobsTranspileResult_VirtualPhysicalMapping
      JobsTranspileResult_SetVirtualPhysicalMapping NilJobsTranspileResultVirtualPhysicalMapping_Decode)
  else skip_field.
Definition JobsTranspileResult_Decode : decoder D JobsTranspileResult :=
  object "JobsTranspileResult" jsonFieldsNameOfJobsTranspileResult [7] id JobsTranspileResult_field.

Definition OptNilString_Encode : encoder (OptNil string) := OptNil_Encode enc_Str.
Definition OptNilString_Decode : decoder D (OptNil string) := OptNil_Decode "" (assign d_Str).

Definition OptNilJobsOperatorItemArray_Encode : encoder (OptNil (option (list JobsOperatorItem))) :=
  OptNil_Encode (slice_Encode JobsOperatorItem_Encode).
Definition OptNilJobsOperatorItemArray_Decode : decoder D (OptNil (option (list JobsOperatorItem))) :=
  OptNil_Decode None (array JobsOperatorItem_zero JobsOperatorItem_Decode).

Definition OptNilJobsJobResult_Encode : encoder (OptNil JobsJobResult) := OptNil_Encode JobsJobResult_Encode.
Definition OptNilJobsJobResult_Decode : decoder D (OptNil JobsJobResult) := OptNil_Decode JobsJobResult_zero JobsJobResult_Decode.

Definition OptNilJobsTranspileResult_Encode : encoder (OptNil JobsTranspileResult) := OptNil_Encode JobsTranspileResult_Encode.
Definition OptNilJobsTranspileResult_Decode : decoder D (OptNil JobsTranspileResult) := OptNil_Decode JobsTranspileResult_zero JobsTranspileResult_Decode.

Definition JobsJobInfo_encodeFields (s : JobsJobInfo) : list member :=
  [("program", slice_Encode enc_Str (JobsJobInfo_Program s))]
  ++ optnil_member "combined_program" (JobsJobInfo_CombinedProgram s) OptNilString_Encode
  ++ optnil_member "operator" (JobsJobInfo_Operator s) OptNilJobsOperatorItemArray_Encode
  ++ optnil_member "result" (JobsJobInfo_Result s) OptNilJobsJobResult_Encode
  ++ optnil_member "transpile_result" (JobsJobInfo_TranspileResult s) OptNilJobsTranspileResult_Encode
  ++ optnil_member "message" (JobsJobInfo_Message s) OptNilString_Encode.
Definition JobsJobInfo_Encode : encoder JobsJobInfo := fun s => write_object (JobsJobInfo_encodeFields s).
Definition jsonFieldsNameOfJobsJobInfo : list string :=
  ["program"; "combined_program"; "operator"; "result"; "transpile_result"; "message"].
Definition JobsJobInfo_field (k : string) : decoder D (JobsJobInfo * bitset) :=
  if String.eqb k "program" then
    required 0 0 (decode_field "program" JobsJobInfo_Program JobsJobInfo_SetProgram (array "" (assign_first
      d_Str)))
  else if String.eqb k "combined_program" then
    decode_field "combined_program" JobsJobInfo_CombinedProgram JobsJobInfo_SetCombinedProgram (fresh
      (OptNil_zero "") OptNilString_Decode)
  else if String.eqb k "operator" then
    decode_field "operator" JobsJobInfo_Operator JobsJobInfo_SetOperator (fresh (OptNil_zero None)
      OptNilJobsOperatorItemArray_Decode)
  else if String.eqb k "result" then
    decode_field "result" JobsJobInfo_Result JobsJobInfo_SetResult (fresh (OptNil_zero JobsJobResult_zero)
      OptNilJobsJobResult_Decode)
  else if String.eqb k "transpile_result" then
    decode_field "transpile_result" JobsJobInfo_TranspileResult JobsJobInfo_SetTranspileResult (fresh
      (OptNil_zero JobsTranspileResult_zero) OptNilJobsTranspileResult_Decode)
  else if String.eqb k "message" then
    decode_field "message" JobsJobInfo_Message JobsJobInfo_SetMessage (fresh (OptNil_zero "")
      OptNilString_Decode)
  else skip_field.
Definition JobsJobInfo_Decode : decoder D JobsJobInfo :=
  object "JobsJobInfo" jsonFieldsNameOfJobsJobInfo [1] JobsJobInfo_setDefaults JobsJobInfo_field.

Definition JobsJobId_Encode : encoder string := enc_Str.
Definition JobsJobId_Decode : decoder D string := wrapped "alias" (assign d_Str).

Definition OptString_Encode : encoder (Opt string) := Opt_Encode enc_Str.
Definition OptString_Decode : decoder D (Opt string) := Opt_Decode (assign d_Str).

Definition JobsJobType_Encode : encoder string := enc_Str.
(** Every branch of the switch over the constants stores the text itself. *)
Definition JobsJobType_Decode : decoder D string := assign d_Str.

Definition JobsJobDefTranspilerInfo_Encode : encoder (gmap string string) := raw_map_Encode.
Definition JobsJobDefTranspilerInfo_Decode : decoder D (gmap string string) := raw_map_Decode "JobsJobDefTranspilerInfo".

Definition OptNilJobsJobDefTranspilerInfo_Encode : encoder (OptNil (gmap string string)) := OptNil_Encode JobsJobDefTranspilerInfo_Encode.
Definition OptNilJobsJobDefTranspilerInfo_Decode : decoder D (OptNil (gmap string string)) := OptNil_Decode ∅ (fresh ∅ JobsJobDefTranspilerInfo_Decode).

Definition JobsJobDefSimulatorInfo_Encode : encoder (gmap string string) := raw_map_Encode.
Definition JobsJobDefSimulatorInfo_Decode : decoder D (gmap string string) := raw_map_Decode "JobsJobDefSimulatorInfo".

Definition OptNilJobsJobDefSimulatorInfo_Encode : encoder (OptNil (gmap string string)) := OptNil_Encode JobsJobDefSimulatorInfo_Encode.
Definition OptNilJobsJobDefSimulatorInfo_Decode : decoder D (OptNil (gmap string string)) := OptNil_Decode ∅ (fresh ∅ JobsJobDefSimulatorInfo_Decode).

Definition JobsJobDefMitigationInfo_Encode : encoder (gmap string string) := raw_map_Encode.
Definition JobsJobDefMitigationInfo_Decode : decoder D (gmap string string) := raw_map_Decode "JobsJobDefMitigationInfo".

Definition OptNilJobsJobDefMitigationInfo_Encode : encoder (OptNil (gmap string string)) := OptNil_Encode JobsJobDefMitigationInfo_Encode.
Definition OptNilJobsJobDefMitigationInfo_Decode : decoder D (OptNil (gmap string string)) := OptNil_Decode ∅ (fresh ∅ JobsJobDefMitigationInfo_Decode).

Definition JobsJobStatus_Encode : encoder string := enc_Str.
(** Every branch of the switch over the constants stores the text itself. *)
Definition JobsJobStatus_Decode : decoder D string := assign d_Str.

Definition OptNilFloat64_Encode : encoder (OptNil Z) := OptNil_Encode enc_Float64.
Definition OptNilFloat64_Decode : decoder D (OptNil Z) := OptNil_Decode 0 (assign d_Float64).

Definition JobsJobDef_encodeFields (s : JobsJobDef) : list member :=
  [("job_id", JobsJobId_Encode (JobsJobDef_JobID s))]
  ++ optnil_member "name" (JobsJobDef_Name s) OptNilString_Encode
  ++ opt_member "description" (JobsJobDef_Description s) OptString_Encode
  ++ [("device_id", enc_Str (JobsJobDef_DeviceID s))]
  ++ [("shots", enc_Int (JobsJobDef_Shots s))]
  ++ [("job_type", JobsJobType_Encode (JobsJobDef_JobType s))]
  ++ [("job_info", JobsJobInfo_Encode (JobsJobDef_JobInfo s))]
  ++ optnil_member "transpiler_info" (JobsJobDef_TranspilerInfo s) OptNilJobsJobDefTranspilerInfo_Encode
  ++ optnil_member "simulator_info" (JobsJobDef_SimulatorInfo s) OptNilJobsJobDefSimulatorInfo_Encode
  ++ optnil_member "mitigation_info" (JobsJobDef_MitigationInfo s) OptNilJobsJobDefMitigationInfo_Encode
  ++ [("status", JobsJobStatus_Encode (JobsJobDef_Status s))]
  ++ optnil_member "execution_time" (JobsJobDef_ExecutionTime s) OptNilFloat64_Encode
  ++ optnil_member "submitted_at" (JobsJobDef_SubmittedAt s) (OptNilDateTime_Encode EncodeDateTime)
  ++ optnil_member "ready_at" (JobsJobDef_ReadyAt s) (OptNilDateTime_Encode EncodeDateTime)
  ++ optnil_member "running_at" (JobsJobDef_RunningAt s) (OptNilDateTime_Encode EncodeDateTime)
  ++ optnil_member "ended_at" (JobsJobDef_EndedAt s) (OptNilDateTime_Encode EncodeDateTime).
Definition JobsJobDef_Encode : encoder JobsJobDef := fun s => write_object (JobsJobDef_encodeFields s).
Definition jsonFieldsNameOfJobsJobDef : list string :=
  ["job_id"; "name"; "description"; "device_id"; "shots"; "job_type"; "job_info"; "transpiler_info";
    "simulator_info"; "mitigation_info"; "status"; "execution_time"; "submitted_at"; "ready_at"; "running_at";
    "ended_at"].
Definition JobsJobDef_field (k : string) : decoder D (JobsJobDef * bitset) :=
  if String.eqb k "job_id" then
    required 0 0 (decode_field "job_id" JobsJobDef_JobID JobsJobDef_SetJobID JobsJobId_Decode)
  else if String.eqb k "name" then
    decode_field "name" JobsJobDef_Name JobsJobDef_SetName (fresh (OptNil_zero "") OptNilString_Decode)
  else if String.eqb k "description" then
    decode_field "description" JobsJobDef_Description JobsJobDef_SetDescription (fresh (Opt_zero "")
      OptString_Decode)
  else if String.eqb k "device_id" then
    required 0 3 (decode_field "device_id" JobsJobDef_DeviceID JobsJobDef_SetDeviceID (assign_first d_Str))
  else if String.eqb k "shots" then
    required 0 4 (decode_field "shots" JobsJobDef_Shots JobsJobDef_SetShots (assign_first d_Int))
  else if String.eqb k "job_type" then
    required 0 5 (decode_field "job_type" JobsJobDef_JobType JobsJobDef_SetJobType JobsJobType_Decode)
  else if String.eqb k "job_info" then
    required 0 6 (decode_field "job_info" JobsJobDef_JobInfo JobsJobDef_SetJobInfo JobsJobInfo_Decode)
  else if String.eqb k "transpiler_info" then
    decode_field "transpiler_info" JobsJobDef_TranspilerInfo JobsJobDef_SetTranspilerInfo (fresh (OptNil_zero ∅)
      OptNilJobsJobDefTranspilerInfo_Decode)
  else if String.eqb k "simulator_info" then
    decode_field "simulator_info" JobsJobDef_SimulatorInfo JobsJobDef_SetSimulatorInfo (fresh (OptNil_zero ∅)
      OptNilJobsJobDefSimulatorInfo_Decode)
  else if String.eqb k "mitigation_info" then
    decode_field "mitigation_info" JobsJobDef_MitigationInfo JobsJobDef_SetMitigationInfo (fresh (OptNil_zero ∅)
      OptNilJobsJobDefMitigationInfo_Decode)
  else if String.eqb k "status" then
    required 1 2 (decode_field "status" JobsJobDef_Status JobsJobDef_SetStatus JobsJobStatus_Decode)
  else if String.eqb k "execution_time" then
    decode_field "execution_time" JobsJobDef_ExecutionTime JobsJobDef_SetExecutionTime (fresh (OptNil_zero 0)
      OptNilFloat64_Decode)
  else if String.eqb k "submitted_at" then
    decode_field "submitted_at" JobsJobDef_SubmittedAt JobsJobDef_SetSubmittedAt (fresh (OptNil_zero 0)
      (OptNilDateTime_Decode DecodeDateTime))
  else if String.eqb k "ready_at" then
    decode_field "ready_at" JobsJobDef_ReadyAt JobsJobDef_SetReadyAt (fresh (OptNil_zero 0)
      (OptNilDateTime_Decode DecodeDateTime))
  else if String.eqb k "running_at" then
    decode_field "running_at" JobsJobDef_RunningAt JobsJobDef_SetRunningAt (fresh (OptNil_zero 0)
      (OptNilDateTime_Decode DecodeDateTime))
  else if String.eqb k "ended_at" then
    decode_field "ended_at" JobsJobDef_EndedAt JobsJobDef_SetEndedAt (fresh (OptNil_zero 0)
      (OptNilDateTime_Decode DecodeDateTime))
  else skip_field.
Definition JobsJobDef_Decode : decoder D JobsJobDef :=
  object "JobsJobDef" jsonFieldsNameOfJobsJobDef [121; 4] JobsJobDef_setDefaults JobsJobDef_field.

Definition JobsJobStatusUpdateStatus_Encode : encoder string := enc_Str.
(** Every branch of the switch over the constants stores the text itself. *)
Definition JobsJobStatusUpdateStatus_Decode : decoder D string := assign d_Str.

Definition JobsJobStatusUpdate_encodeFields (s : JobsJobStatusUpdate) : list member :=
  [("status", JobsJobStatusUpdateStatus_Encode (JobsJobStatusUpdate_Status s))].
Definition JobsJobStatusUpdate_Encode : encoder JobsJobStatusUpdate :=
  fun s => write_object (JobsJobStatusUpdate_encodeFields s).
Definition jsonFieldsNameOfJobsJobStatusUpdate : list string := ["status"].
Definition JobsJobStatusUpdate_field (k : string) : decoder D (JobsJobStatusUpdate * bitset) :=
  if String.eqb k "status" then
    required 0 0 (decode_field "status" JobsJobStatusUpdate_Status JobsJobStatusUpdate_SetStatus
      JobsJobStatusUpdateStatus_Decode)
  else skip_field.
Definition JobsJobStatusUpdate_Decode : decoder D JobsJobStatusUpdate :=
  object "JobsJobStatusUpdate" jsonFieldsNameOfJobsJobStatusUpdate [1] id JobsJobStatusUpdate_field.

Definition JobsJobStatusUpdateResponse_encodeFields (s : JobsJobStatusUpdateResponse) : list member :=
  [("message", enc_Str (JobsJobStatusUpdateResponse_Message s))].
Definition JobsJobStatusUpdateResponse_Encode : encoder JobsJobStatusUpdateResponse :=
  fun s => write_object (JobsJobStatusUpdateResponse_encodeFields s).
Definition jsonFieldsNameOfJobsJobStatusUpdateResponse : list string := ["message"].
Definition JobsJobStatusUpdateResponse_field (k : string) : decoder D (JobsJobStatusUpdateResponse * bitset) :=
  if String.eqb k "message" then
    required 0 0 (decode_field "message" JobsJobStatusUpdateResponse_Message
      JobsJobStatusUpdateResponse_SetMessage (assign_first d_Str))
  else skip_field.
Definition JobsJobStatusUpdateResponse_Decode : decoder D JobsJobStatusUpdateResponse :=
  object "JobsJobStatusUpdateResponse" jsonFieldsNameOfJobsJobStatusUpdateResponse [1] id
    JobsJobStatusUpdateResponse_field.

Definition JobsUpdateJobInfo_encodeFields (s : JobsUpdateJobInfo) : list member :=
  optnil_member "combined_program" (JobsUpdateJobInfo_CombinedProgram s) OptNilString_Encode
  ++ optnil_member "transpile_result" (JobsUpdateJobInfo_TranspileResult s) OptNilJobsTranspileResult_Encode
  ++ optnil_member "result" (JobsUpdateJobInfo_Result s) OptNilJobsJobResult_Encode
  ++ optnil_member "message" (JobsUpdateJobInfo_Message s) OptNilString_Encode.
Definition JobsUpdateJobInfo_Encode : encoder JobsUpdateJobInfo :=
  fun s => write_object (JobsUpdateJobInfo_encodeFields s).
Definition jsonFieldsNameOfJobsUpdateJobInfo : list string :=
  ["combined_program"; "transpile_result"; "result"; "message"].
Definition JobsUpdateJobInfo_field (k : string) : decoder D (JobsUpdateJobInfo * bitset) :=
  if String.eqb k "combined_program" then
    decode_field "combined_program" JobsUpdateJobInfo_CombinedProgram JobsUpdateJobInfo_SetCombinedProgram
      (fresh (OptNil_zero "") OptNilString_Decode)
  else if String.eqb k "transpile_result" then
    decode_field "transpile_result" JobsUpdateJobInfo_TranspileResult JobsUpdateJobInfo_SetTranspileResult
      (fresh (OptNil_zero JobsTranspileResult_zero) OptNilJobsTranspileResult_Decode)
  else if String.eqb k "result" then
    decode_field "result" JobsUpdateJobInfo_Result JobsUpdateJobInfo_SetResult (fresh (OptNil_zero
      JobsJobResult_zero) OptNilJobsJobResult_Decode)
  else if String.eqb k "message" then
    decode_field "message" JobsUpdateJobInfo_Message JobsUpdateJobInfo_SetMessage (fresh (OptNil_zero "")
      OptNilString_Decode)
  else skip_field.
Definition JobsUpdateJobInfo_Decode : decoder D JobsUpdateJobInfo :=
  object "JobsUpdateJobInfo" jsonFieldsNameOfJobsUpdateJobInfo [] id JobsUpdateJobInfo_field.

Definition OptJobsJobStatus_Encode : encoder (Opt string) := Opt_Encode JobsJobStatus_Encode.
Definition OptJobsJobStatus_Decode : decoder D (Opt string) := Opt_Decode JobsJobStatus_Decode.

Definition OptJobsUpdateJobInfo_Encode : encoder (Opt JobsUpdateJobInfo) := Opt_Encode JobsUpdateJobInfo_Encode.
Definition OptJobsUpdateJobInfo_Decode : decoder D (Opt JobsUpdateJobInfo) := Opt_Decode JobsUpdateJobInfo_Decode.

Definition JobsUpdateJobInfoRequest_encodeFields (s : JobsUpdateJobInfoRequest) : list member :=
  opt_member "overwrite_status" (JobsUpdateJobInfoRequest_OverwriteStatus s) OptJobsJobStatus_Encode
  ++ optnil_member "execution_time" (JobsUpdateJobInfoRequest_ExecutionTime s) OptNilFloat64_Encode
  ++ opt_member "job_info" (JobsUpdateJobInfoRequest_JobInfo s) OptJobsUpdateJobInfo_Encode.
Definition JobsUpdateJobInfoRequest_Encode : encoder JobsUpdateJobInfoRequest :=
  fun s => write_object (JobsUpdateJobInfoRequest_encodeFields s).
Definition jsonFieldsNameOfJobsUpdateJobInfoRequest : list string :=
  ["overwrite_status"; "execution_time"; "job_info"].
Definition JobsUpdateJobInfoRequest_field (k : string) : decoder D (JobsUpdateJobInfoRequest * bitset) :=
  if String.eqb k "overwrite_status" then
    decode_field "overwrite_status" JobsUpdateJobInfoRequest_OverwriteStatus
      JobsUpdateJobInfoRequest_SetOverwriteStatus (fresh (Opt_zero "") OptJobsJobStatus_Decode)
  else if String.eqb k "execution_time" then
    decode_field "execution_time" JobsUpdateJobInfoRequest_ExecutionTime
      JobsUpdateJobInfoRequest_SetExecutionTime (fresh (OptNil_zero 0) OptNilFloat64_Decode)
  else if String.eqb k "job_info" then
    decode_field "job_info" JobsUpdateJobInfoRequest_JobInfo JobsUpdateJobInfoRequest_SetJobInfo (fresh
      (Opt_zero JobsUpdateJobInfo_zero) OptJobsUpdateJobInfo_Decode)
  else skip_field.
Definition JobsUpdateJobInfoRequest_Decode : decoder D JobsUpdateJobInfoRequest :=
  object "JobsUpdateJobInfoRequest" jsonFieldsNameOfJobsUpdateJobInfoRequest [] id
    JobsUpdateJobInfoRequest_field.

Definition JobsUpdateJobInfoResponse_encodeFields (s : JobsUpdateJobInfoResponse) : list member :=
  [("message", enc_Str (JobsUpdateJobInfoResponse_Message s))].
Definition JobsUpdateJobInfoResponse_Encode : encoder JobsUpdateJobInfoResponse :=
  fun s => write_object (JobsUpdateJobInfoResponse_encodeFields s).
Definition jsonFieldsNameOfJobsUpdateJobInfoResponse : list string := ["message"].
Definition JobsUpdateJobInfoResponse_field (k : string) : decoder D (JobsUpdateJobInfoResponse * bitset) :=
  if String.eqb k "message" then
    required 0 0 (decode_field "message" JobsUpdateJobInfoResponse_Message JobsUpdateJobInfoResponse_SetMessage
      (assign_first d_Str))
  else skip_field.
Definition JobsUpdateJobInfoResponse_Decode : decoder D JobsUpdateJobInfoResponse :=
  object "JobsUpdateJobInfoResponse" jsonFieldsNameOfJobsUpdateJobInfoResponse [1] id
    JobsUpdateJobInfoResponse_field.

Definition JobsUpdateJobTranspilerInfoResponse_encodeFields (s : JobsUpdateJobTranspilerInfoResponse) : list member :=
  [("message", enc_Str (JobsUpdateJobTranspilerInfoResponse_Message s))].
Definition JobsUpdateJobTranspilerInfoResponse_Encode : encoder JobsUpdateJobTranspilerInfoResponse :=
  fun s => write_object (JobsUpdateJobTranspilerInfoResponse_encodeFields s).
Definition jsonFieldsNameOfJobsUpdateJobTranspilerInfoResponse : list string := ["message"].
Definition JobsUpdateJobTranspilerInfoResponse_field (k : string) : decoder D (JobsUpdateJobTranspilerInfoResponse * bitset) :=
  if String.eqb k "message" then
    required 0 0 (decode_field "message" JobsUpdateJobTranspilerInfoResponse_Message
      JobsUpdateJobTranspilerInfoResponse_SetMessage (assign_first d_Str))
  else skip_field.
Definition JobsUpdateJobTranspilerInfoResponse_Decode : decoder D JobsUpdateJobTranspilerInfoResponse :=
  object "JobsUpdateJobTranspilerInfoResponse" jsonFieldsNameOfJobsUpdateJobTranspilerInfoResponse [1] id
    JobsUpdateJobTranspilerInfoResponse_field.

Definition JobsUploadSselogResponse_encodeFields (s : JobsUploadSselogResponse) : list member :=
  [("message", enc_Str (JobsUploadSselogResponse_Message s))].
Definition JobsUploadSselogResponse_Encode : encoder JobsUploadSselogResponse :=
  fun s => write_object (JobsUploadSselogResponse_encodeFields s).
Definition jsonFieldsNameOfJobsUploadSselogResponse : list string := ["message"].
Definition JobsUploadSselogResponse_field (k : string) : decoder D (JobsUploadSselogResponse * bitset) :=
  if String.eqb k "message" then
    required 0 0 (decode_field "message" JobsUploadSselogResponse_Message JobsUploadSselogResponse_SetMessage
      (assign_first d_Str))
  else skip_field.
Definition JobsUploadSselogResponse_Decode : decoder D JobsUploadSselogResponse :=
  object "JobsUploadSselogResponse" jsonFieldsNameOfJobsUploadSselogResponse [1] id
    JobsUploadSselogResponse_field.

Definition OptDevicesDeviceInfoUpdate_Encode : encoder (Opt DevicesDeviceInfoUpdate) := Opt_Encode DevicesDeviceInfoUpdate_Encode.
Definition OptDevicesDeviceInfoUpdate_Decode : decoder D (Opt DevicesDeviceInfoUpdate) := Opt_Decode DevicesDeviceInfoUpdate_Decode.

Definition OptDevicesDeviceStatusUpdate_Encode : encoder (Opt DevicesDeviceStatusUpdate) := Opt_Encode DevicesDeviceStatusUpdate_Encode.
Definition OptDevicesDeviceStatusUpdate_Decode : decoder D (Opt DevicesDeviceStatusUpdate) := Opt_Decode DevicesDeviceStatusUpdate_Decode.

Definition OptDevicesUpdateDeviceRequest_Encode : encoder (Opt DevicesUpdateDeviceRequest) := Opt_Encode DevicesUpdateDeviceRequest_Encode.
Definition OptDevicesUpdateDeviceRequest_Decode : decoder D (Opt DevicesUpdateDeviceRequest) := Opt_Decode DevicesUpdateDeviceRequest_Decode.

Definition OptJobsJobStatusUpdate_Encode : encoder (Opt JobsJobStatusUpdate) := Opt_Encode JobsJobStatusUpdate_Encode.
Definition OptJobsJobStatusUpdate_Decode : decoder D (Opt JobsJobStatusUpdate) := Opt_Decode JobsJobStatusUpdate_Decode.

Definition OptJobsUpdateJobInfoRequest_Encode : encoder (Opt JobsUpdateJobInfoRequest) := Opt_Encode JobsUpdateJobInfoRequest_Encode.
Definition OptJobsUpdateJobInfoRequest_Decode : decoder D (Opt JobsUpdateJobInfoRequest) := Opt_Decode JobsUpdateJobInfoRequest_Decode.

Definition JobsUpdateJobTranspilerInfoRequest_Encode : encoder (gmap string string) := raw_map_Encode.
Definition JobsUpdateJobTranspilerInfoRequest_Decode : decoder D (gmap string string) := raw_map_Decode "JobsUpdateJobTranspilerInfoRequest".

Definition OptJobsUpdateJobTranspilerInfoRequest_Encode : encoder (Opt (gmap string string)) := Opt_Encode JobsUpdateJobTranspilerInfoRequest_Encode.
Definition OptJobsUpdateJobTranspilerInfoRequest_Decode : decoder D (Opt (gmap string string)) := Opt_Decode (fresh ∅ JobsUpdateJobTranspilerInfoRequest_Decode).

(** The top-level array of a poll: [var unwrapped []JobsJobDef] filled and stored. *)
Definition GetJobsOKApplicationJSON_Encode : encoder (option (list JobsJobDef)) :=
  slice_Encode JobsJobDef_Encode.
Definition GetJobsOKApplicationJSON_Decode : decoder D (option (list JobsJobDef)) :=
  fun d s =>
    let '(e, d, unwrapped) := wrapped "alias" (array JobsJobDef_zero JobsJobDef_Decode) d None in
    (e, d, match e with Some _ => s | None => unwrapped end).

(** [MarshalJSON] and [UnmarshalJSON]. *)
Definition MarshalJSON {L : JxLaws D} {A} (enc : encoder A) (s : A) : string := Bytes (enc s).
Definition UnmarshalJSON {A} (dec : decoder D A) (data : string) (s : A) : option gerror * A :=
  let '(e, _, s) := dec (DecodeBytes data) s in (e, s).

(** ** What is read back *)

Context {L : JxLaws D} {DL : DateTimeLaws D}.

Definition DevicesDeviceDataUpdateResponse_norm (v : DevicesDeviceDataUpdateResponse) : DevicesDeviceDataUpdateResponse :=
  mkDevicesDeviceDataUpdateResponse
    (DevicesDeviceDataUpdateResponse_Message v).
Definition DevicesDeviceInfoUpdate_norm (v : DevicesDeviceInfoUpdate) : DevicesDeviceInfoUpdate :=
  mkDevicesDeviceInfoUpdate
    (Nil_norm "" id (DevicesDeviceInfoUpdate_DeviceInfo v))
    (OptNil_norm 0 false id (DevicesDeviceInfoUpdate_CalibratedAt v)).
Definition DevicesDeviceStatusUpdate_norm (v : DevicesDeviceStatusUpdate) : DevicesDeviceStatusUpdate :=
  mkDevicesDeviceStatusUpdate
    (DevicesDeviceStatusUpdate_Status v).
Definition DevicesUpdateDeviceRequest_norm (v : DevicesUpdateDeviceRequest) : DevicesUpdateDeviceRequest :=
  mkDevicesUpdateDeviceRequest
    (OptNil_norm 0 false id (DevicesUpdateDeviceRequest_NQubits v)).
Definition DevicesUpdateDeviceResponse_norm (v : DevicesUpdateDeviceResponse) : DevicesUpdateDeviceResponse :=
  mkDevicesUpdateDeviceResponse
    (DevicesUpdateDeviceResponse_Message v).
Definition ErrorBadRequest_norm (v : ErrorBadRequest) : ErrorBadRequest :=
  mkErrorBadRequest
    (ErrorBadRequest_Message v).
Definition ErrorConflictError_norm (v : ErrorConflictError) : ErrorConflictError :=
  mkErrorConflictError
    (ErrorConflictError_Message v).
Definition ErrorInternalServerError_norm (v : ErrorInternalServerError) : ErrorInternalServerError :=
  mkErrorInternalServerError
    (ErrorInternalServerError_Message v).
Definition ErrorNotFoundError_norm (v : ErrorNotFoundError) : ErrorNotFoundError :=
  mkErrorNotFoundError
    (ErrorNotFoundError_Message v).
Definition JobsEstimationResult_norm (v : JobsEstimationResult) : JobsEstimationResult :=
  mkJobsEstimationResult
    (JobsEstimationResult_ExpValue v)
    (JobsEstimationResult_Stds v).
Definition JobsOperatorItem_norm (v : JobsOperatorItem) : JobsOperatorItem :=
  mkJobsOperatorItem
    (JobsOperatorItem_Pauli v)
    (Opt_norm 0 id (JobsOperatorItem_Coeff v)).
Definition JobsSamplingResult_norm (v : JobsSamplingResult) : JobsSamplingResult :=
  mkJobsSamplingResult
    (JobsSamplingResult_Counts v)
    (OptNil_norm ∅ false id (JobsSamplingResult_DividedCounts v)).
Definition JobsJobResult_norm (v : JobsJobResult) : JobsJobResult :=
  mkJobsJobResult
    (OptNil_norm JobsSamplingResult_zero false JobsSamplingResult_norm (JobsJobResult_Sampling v))
    (OptNil_norm JobsEstimationResult_zero false JobsEstimationResult_norm (JobsJobResult_Estimation v))
    (JobsJobResult_AdditionalProps v).
Definition JobsTranspileResult_norm (v : JobsTranspileResult) : JobsTranspileResult :=
  mkJobsTranspileResult
    (Nil_norm "" id (JobsTranspileResult_TranspiledProgram v))
    (Nil_norm ∅ id (JobsTranspileResult_Stats v))
    (Nil_norm ∅ id (JobsTranspileResult_VirtualPhysicalMapping v)).
Definition JobsJobInfo_norm (v : JobsJobInfo) : JobsJobInfo :=
  mkJobsJobInfo
    (slice_norm id (JobsJobInfo_Program v))
    (OptNil_norm "" true id (JobsJobInfo_CombinedProgram v))
    (OptNil_norm None false (slice_norm JobsOperatorItem_norm) (JobsJobInfo_Operator v))
    (OptNil_norm JobsJobResult_zero false JobsJobResult_norm (JobsJobInfo_Result v))
    (OptNil_norm JobsTranspileResult_zero false JobsTranspileResult_norm (JobsJobInfo_TranspileResult v))
    (OptNil_norm "" true id (JobsJobInfo_Message v)).
Definition JobsJobDef_norm (v : JobsJobDef) : JobsJobDef :=
  mkJobsJobDef
    (JobsJobDef_JobID v)
    (OptNil_norm "" false id (JobsJobDef_Name v))
    (Opt_norm "" id (JobsJobDef_Description v))
    (JobsJobDef_DeviceID v)
    (JobsJobDef_Shots v)
    (JobsJobDef_JobType v)
    (JobsJobInfo_norm (JobsJobDef_JobInfo v))
    (OptNil_norm ∅ false id (JobsJobDef_TranspilerInfo v))
    (OptNil_norm ∅ false id (JobsJobDef_SimulatorInfo v))
    (OptNil_norm ∅ false id (JobsJobDef_MitigationInfo v))
    (JobsJobDef_Status v)
    (OptNil_norm 0 true id (JobsJobDef_ExecutionTime v))
    (OptNil_norm 0 true id (JobsJobDef_SubmittedAt v))
    (OptNil_norm 0 true id (JobsJobDef_ReadyAt v))
    (OptNil_norm 0 true id (JobsJobDef_RunningAt v))
    (OptNil_norm 0 true id (JobsJobDef_EndedAt v)).
Definition JobsJobStatusUpdate_norm (v : JobsJobStatusUpdate) : JobsJobStatusUpdate :=
  mkJobsJobStatusUpdate
    (JobsJobStatusUpdate_Status v).
Definition JobsJobStatusUpdateResponse_norm (v : JobsJobStatusUpdateResponse) : JobsJobStatusUpdateResponse :=
  mkJobsJobStatusUpdateResponse
    (JobsJobStatusUpdateResponse_Message v).
Definition JobsUpdateJobInfo_norm (v : JobsUpdateJobInfo) : JobsUpdateJobInfo :=
  mkJobsUpdateJobInfo
    (OptNil_norm "" false id (JobsUpdateJobInfo_CombinedProgram v))
    (OptNil_norm JobsTranspileResult_zero false JobsTranspileResult_norm (JobsUpdateJobInfo_TranspileResult v))
    (OptNil_norm JobsJobResult_zero false JobsJobResult_norm (JobsUpdateJobInfo_Result v))
    (OptNil_norm "" false id (JobsUpdateJobInfo_Message v)).
Definition JobsUpdateJobInfoRequest_norm (v : JobsUpdateJobInfoRequest) : JobsUpdateJobInfoRequest :=
  mkJobsUpdateJobInfoRequest
    (Opt_norm "" id (JobsUpdateJobInfoRequest_OverwriteStatus v))
    (OptNil_norm 0 false id (JobsUpdateJobInfoRequest_ExecutionTime v))
    (Opt_norm JobsUpdateJobInfo_zero JobsUpdateJobInfo_norm (JobsUpdateJobInfoRequest_JobInfo v)).
Definition JobsUpdateJobInfoResponse_norm (v : JobsUpdateJobInfoResponse) : JobsUpdateJobInfoResponse :=
  mkJobsUpdateJobInfoResponse
    (JobsUpdateJobInfoResponse_Message v).
Definition JobsUpdateJobTranspilerInfoResponse_norm (v : JobsUpdateJobTranspilerInfoResponse) : JobsUpdateJobTranspilerInfoResponse :=
  mkJobsUpdateJobTranspilerInfoResponse
    (JobsUpdateJobTranspilerInfoResponse_Message v).
Definition JobsUploadSselogResponse_norm (v : JobsUploadSselogResponse) : JobsUploadSselogResponse :=
  mkJobsUploadSselogResponse
    (JobsUploadSselogResponse_Message v).

Definition DevicesDeviceDataUpdateResponse_ok (v : DevicesDeviceDataUpdateResponse) : Prop :=
  str_ok (DevicesDeviceDataUpdateResponse_Message v).
Definition DevicesDeviceInfoUpdate_ok (v : DevicesDeviceInfoUpdate) : Prop :=
  Nil_ok str_ok (DevicesDeviceInfoUpdate_DeviceInfo v)
  /\ OptNil_ok time_ok (DevicesDeviceInfoUpdate_CalibratedAt v).
Definition DevicesDeviceStatusUpdate_ok (v : DevicesDeviceStatusUpdate) : Prop :=
  str_ok (DevicesDeviceStatusUpdate_Status v).
Definition DevicesUpdateDeviceRequest_ok (v : DevicesUpdateDeviceRequest) : Prop :=
  OptNil_ok in_i64 (DevicesUpdateDeviceRequest_NQubits v).
Definition DevicesUpdateDeviceResponse_ok (v : DevicesUpdateDeviceResponse) : Prop :=
  str_ok (DevicesUpdateDeviceResponse_Message v).
Definition ErrorBadRequest_ok (v : ErrorBadRequest) : Prop :=
  str_ok (ErrorBadRequest_Message v).
Definition ErrorConflictError_ok (v : ErrorConflictError) : Prop :=
  str_ok (ErrorConflictError_Message v).
Definition ErrorInternalServerError_ok (v : ErrorInternalServerError) : Prop :=
  str_ok (ErrorInternalServerError_Message v).
Definition ErrorNotFoundError_ok (v : ErrorNotFoundError) : Prop :=
  str_ok (ErrorNotFoundError_Message v).
Definition JobsEstimationResult_ok (v : JobsEstimationResult) : Prop :=
  float_ok (JobsEstimationResult_ExpValue v)
  /\ float_ok (JobsEstimationResult_Stds v).
Definition JobsOperatorItem_ok (v : JobsOperatorItem) : Prop :=
  str_ok (JobsOperatorItem_Pauli v)
  /\ Opt_ok float_ok (JobsOperatorItem_Coeff v).
Definition JobsSamplingResult_ok (v : JobsSamplingResult) : Prop :=
  raw_map_ok (JobsSamplingResult_Counts v)
  /\ OptNil_ok raw_map_ok (JobsSamplingResult_DividedCounts v).
Definition JobsJobResult_ok (v : JobsJobResult) : Prop :=
  OptNil_ok JobsSamplingResult_ok (JobsJobResult_Sampling v)
  /\ OptNil_ok JobsEstimationResult_ok (JobsJobResult_Estimation v)
  /\ raw_map_ok (JobsJobResult_AdditionalProps v)
  /\ JobsJobResult_AdditionalProps v !! "sampling" = None
  /\ JobsJobResult_AdditionalProps v !! "estimation" = None.
Definition JobsTranspileResult_ok (v : JobsTranspileResult) : Prop :=
  Nil_ok str_ok (JobsTranspileResult_TranspiledProgram v)
  /\ Nil_ok raw_map_ok (JobsTranspileResult_Stats v)
  /\ Nil_ok raw_map_ok (JobsTranspileResult_VirtualPhysicalMapping v).
Definition JobsJobInfo_ok (v : JobsJobInfo) : Prop :=
  slice_ok str_ok (JobsJobInfo_Program v)
  /\ OptNil_ok str_ok (JobsJobInfo_CombinedProgram v)
  /\ OptNil_ok (slice_ok JobsOperatorItem_ok) (JobsJobInfo_Operator v)
  /\ OptNil_ok JobsJobResult_ok (JobsJobInfo_Result v)
  /\ OptNil_ok JobsTranspileResult_ok (JobsJobInfo_TranspileResult v)
  /\ OptNil_ok str_ok (JobsJobInfo_Message v).
Definition JobsJobDef_ok (v : JobsJobDef) : Prop :=
  str_ok (JobsJobDef_JobID v)
  /\ OptNil_ok str_ok (JobsJobDef_Name v)
  /\ Opt_ok str_ok (JobsJobDef_Description v)
  /\ str_ok (JobsJobDef_DeviceID v)
  /\ in_i64 (JobsJobDef_Shots v)
  /\ str_ok (JobsJobDef_JobType v)
  /\ JobsJobInfo_ok (JobsJobDef_JobInfo v)
  /\ OptNil_ok raw_map_ok (JobsJobDef_TranspilerInfo v)
  /\ OptNil_ok raw_map_ok (JobsJobDef_SimulatorInfo v)
  /\ OptNil_ok raw_map_ok (JobsJobDef_MitigationInfo v)
  /\ str_ok (JobsJobDef_Status v)
  /\ OptNil_ok float_ok (JobsJobDef_ExecutionTime v)
  /\ OptNil_ok time_ok (JobsJobDef_SubmittedAt v)
  /\ OptNil_ok time_ok (JobsJobDef_ReadyAt v)
  /\ OptNil_ok time_ok (JobsJobDef_RunningAt v)
  /\ OptNil_ok time_ok (JobsJobDef_EndedAt v).
Definition JobsJobStatusUpdate_ok (v : JobsJobStatusUpdate) : Prop :=
  str_ok (JobsJobStatusUpdate_Status v).
Definition JobsJobStatusUpdateResponse_ok (v : JobsJobStatusUpdateResponse) : Prop :=
  str_ok (JobsJobStatusUpdateResponse_Message v).
Definition JobsUpdateJobInfo_ok (v : JobsUpdateJobInfo) : Prop :=
  OptNil_ok str_ok (JobsUpdateJobInfo_CombinedProgram v)
  /\ OptNil_ok JobsTranspileResult_ok (JobsUpdateJobInfo_TranspileResult v)
  /\ OptNil_ok JobsJobResult_ok (JobsUpdateJobInfo_Result v)
  /\ OptNil_ok str_ok (JobsUpdateJobInfo_Message v).
Definition JobsUpdateJobInfoRequest_ok (v : JobsUpdateJobInfoRequest) : Prop :=
  Opt_ok str_ok (JobsUpdateJobInfoRequest_OverwriteStatus v)
  /\ OptNil_ok float_ok (JobsUpdateJobInfoRequest_ExecutionTime v)
  /\ Opt_ok JobsUpdateJobInfo_ok (JobsUpdateJobInfoRequest_JobInfo v).
Definition JobsUpdateJobInfoResponse_ok (v : JobsUpdateJobInfoResponse) : Prop :=
  str_ok (JobsUpdateJobInfoResponse_Message v).
Definition JobsUpdateJobTranspilerInfoResponse_ok (v : JobsUpdateJobTranspilerInfoResponse) : Prop :=
  str_ok (JobsUpdateJobTranspilerInfoResponse_Message v).
Definition JobsUploadSselogResponse_ok (v : JobsUploadSselogResponse) : Prop :=
  str_ok (JobsUploadSselogResponse_Message v).

(** ** The codecs *)

(** Members without a case are kept as raw text. *)
Lemma members_additional (m : gmap string string) s b :
  raw_map_ok m -> m !! "sampling" = None -> m !! "estimation" = None ->
  members_run JobsJobResult_field (raw_elems m) (s, b)
    (JobsJobResult_SetAdditionalProps (m ∪ JobsJobResult_AdditionalProps s) s, b).
Proof.
  intros Hm Hs He. split; [by apply raw_elems_ok|].
  assert (Forall (fun kv => raw_ok kv.2 /\ kv.1 <> "sampling" /\ kv.1 <> "estimation") (range m)) as Hall.
  { apply Forall_forall. intros [k v] Hin. apply elem_of_range in Hin. cbn.
    split_and!; [apply (Hm k v Hin)|congruence..]. }
  rewrite <- (list_to_map_range m) at 2. unfold raw_elems.
  assert (NoDup (range m).*1) as Hnd by apply NoDup_fst_range.
  clear Hm Hs He. revert s. induction (range m) as [|[k v] l IH]; intros s.
  { cbn. rewrite (left_id_L ∅ (∪)). destruct s. constructor. }
  inversion Hall as [|? ? (Hraw & Hk1 & Hk2) Hall']; subst. cbn in Hraw, Hk1, Hk2, Hnd.
  inversion Hnd as [|? ? Hk Hnd']; subst. cbn. econstructor.
  - instantiate (1 := (JobsJobResult_SetAdditionalProps (<[k := v]> (JobsJobResult_AdditionalProps s)) s, b)).
    intros d r Hd. destruct (String.eqb_spec v "") as [->|_]; [by apply raw_ok_nonempty in Hraw|].
    destruct (at_raw _ _ _ Hraw Hd) as (d' & Hop & Hd'). exists d'.
    unfold JobsJobResult_field. rewrite (proj2 (String.eqb_neq _ _) Hk1), (proj2 (String.eqb_neq _ _) Hk2).
    unfold raw_field. by rewrite Hop.
  - rewrite <- insert_union_l, insert_union_r by (by apply not_elem_of_list_to_map_1).
    exact (IH Hall' Hnd' (JobsJobResult_SetAdditionalProps (<[k := v]> (JobsJobResult_AdditionalProps s)) s)).
Qed.

Lemma DevicesDeviceDataUpdateResponse_codec :
  codec DevicesDeviceDataUpdateResponse_Encode DevicesDeviceDataUpdateResponse_Decode
    DevicesDeviceDataUpdateResponse_zero DevicesDeviceDataUpdateResponse_ok DevicesDeviceDataUpdateResponse_norm.
Proof. object_codec. Qed.
#[local] Hint Resolve DevicesDeviceDataUpdateResponse_codec : codec.
Lemma DevicesDeviceInfoUpdate_codec :
  codec DevicesDeviceInfoUpdate_Encode DevicesDeviceInfoUpdate_Decode
    DevicesDeviceInfoUpdate_zero DevicesDeviceInfoUpdate_ok DevicesDeviceInfoUpdate_norm.
Proof. object_codec. Qed.
#[local] Hint Resolve DevicesDeviceInfoUpdate_codec : codec.
Lemma DevicesDeviceStatusUpdate_codec :
  codec DevicesDeviceStatusUpdate_Encode DevicesDeviceStatusUpdate_Decode
    DevicesDeviceStatusUpdate_zero DevicesDeviceStatusUpdate_ok DevicesDeviceStatusUpdate_norm.
Proof. object_codec. Qed.
#[local] Hint Resolve DevicesDeviceStatusUpdate_codec : codec.
Lemma DevicesUpdateDeviceRequest_codec :
  codec DevicesUpdateDeviceRequest_Encode DevicesUpdateDeviceRequest_Decode
    DevicesUpdateDeviceRequest_zero DevicesUpdateDeviceRequest_ok DevicesUpdateDeviceRequest_norm.
Proof. object_codec. Qed.
#[local] Hint Resolve DevicesUpdateDeviceRequest_codec : codec.
Lemma DevicesUpdateDeviceResponse_codec :
  codec DevicesUpdateDeviceResponse_Encode DevicesUpdateDeviceResponse_Decode
    DevicesUpdateDeviceResponse_zero DevicesUpdateDeviceResponse_ok DevicesUpdateDeviceResponse_norm.
Proof. object_codec. Qed.
#[local] Hint Resolve DevicesUpdateDeviceResponse_codec : codec.
Lemma ErrorBadRequest_codec :
  codec ErrorBadRequest_Encode ErrorBadRequest_Decode
    ErrorBadRequest_zero ErrorBadRequest_ok ErrorBadRequest_norm.
Proof. object_codec. Qed.
#[local] Hint Resolve ErrorBadRequest_codec : codec.
Lemma ErrorConflictError_codec :
  codec ErrorConflictError_Encode ErrorConflictError_Decode
    ErrorConflictError_zero ErrorConflictError_ok ErrorConflictError_norm.
Proof. object_codec. Qed.
#[local] Hint Resolve ErrorConflictError_codec : codec.
Lemma ErrorInternalServerError_codec :
  codec ErrorInternalServerError_Encode ErrorInternalServerError_Decode
    ErrorInternalServerError_zero ErrorInternalServerError_ok ErrorInternalServerError_norm.
Proof. object_codec. Qed.
#[local] Hint Resolve ErrorInternalServerError_codec : codec.
Lemma ErrorNotFoundError_codec :
  codec ErrorNotFoundError_Encode ErrorNotFoundError_Decode
    ErrorNotFoundError_zero ErrorNotFoundError_ok ErrorNotFoundError_norm.
Proof. object_codec. Qed.
#[local] Hint Resolve ErrorNotFoundError_codec : codec.
Lemma JobsEstimationResult_codec :
  codec JobsEstimationResult_Encode JobsEstimationResult_Decode
    JobsEstimationResult_zero JobsEstimationResult_ok JobsEstimationResult_norm.
Proof. object_codec. Qed.
#[local] Hint Resolve JobsEstimationResult_codec : codec.
Lemma JobsOperatorItem_codec :
  codec JobsOperatorItem_Encode JobsOperatorItem_Decode
    JobsOperatorItem_zero JobsOperatorItem_ok JobsOperatorItem_norm.
Proof. object_codec. Qed.
#[local] Hint Resolve JobsOperatorItem_codec : codec.
Lemma JobsSamplingResult_codec :
  codec JobsSamplingResult_Encode JobsSamplingResult_Decode
    JobsSamplingResult_zero JobsSamplingResult_ok JobsSamplingResult_norm.
Proof. object_codec. Qed.
#[local] Hint Resolve JobsSamplingResult_codec : codec.
Lemma JobsJobResult_codec :
  codec JobsJobResult_Encode JobsJobResult_Decode
    JobsJobResult_zero JobsJobResult_ok JobsJobResult_norm.
Proof.
  intros v Hv. unfold JobsJobResult_ok in Hv. destruct Hv as (? & ? & Hm & ? & ?).
  eapply members_object; [|reflexivity]. do 2 (eapply members_app; [member_step|]).
  pose proof (members_additional _ (JobsJobResult_SetEstimation (OptNil_norm JobsEstimationResult_zero false
    JobsEstimationResult_norm (JobsJobResult_Estimation v)) (JobsJobResult_SetSampling (OptNil_norm
    JobsSamplingResult_zero false JobsSamplingResult_norm (JobsJobResult_Sampling v)) JobsJobResult_zero)) []
    Hm ltac:(done) ltac:(done)) as Hadd.
  cbn in Hadd. rewrite (right_id_L ∅ (∪)) in Hadd. eapply members_eq; [exact Hadd|reflexivity].
Qed.
#[local] Hint Resolve JobsJobResult_codec : codec.
Lemma JobsTranspileResult_codec :
  codec JobsTranspileResult_Encode JobsTranspileResult_Decode
    JobsTranspileResult_zero JobsTranspileResult_ok JobsTranspileResult_norm.
Proof. object_codec. Qed.
#[local] Hint Resolve JobsTranspileResult_codec : codec.
Lemma JobsJobInfo_codec :
  codec JobsJobInfo_Encode JobsJobInfo_Decode
    JobsJobInfo_zero JobsJobInfo_ok JobsJobInfo_norm.
Proof. object_codec. Qed.
#[local] Hint Resolve JobsJobInfo_codec : codec.
Lemma JobsJobDef_codec :
  codec JobsJobDef_Encode JobsJobDef_Decode
    JobsJobDef_zero JobsJobDef_ok JobsJobDef_norm.
Proof. object_codec. Qed.
#[local] Hint Resolve JobsJobDef_codec : codec.
Lemma JobsJobStatusUpdate_codec :
  codec JobsJobStatusUpdate_Encode JobsJobStatusUpdate_Decode
    JobsJobStatusUpdate_zero JobsJobStatusUpdate_ok JobsJobStatusUpdate_norm.
Proof. object_codec. Qed.
#[local] Hint Resolve JobsJobStatusUpdate_codec : codec.
Lemma JobsJobStatusUpdateResponse_codec :
  codec JobsJobStatusUpdateResponse_Encode JobsJobStatusUpdateResponse_Decode
    JobsJobStatusUpdateResponse_zero JobsJobStatusUpdateResponse_ok JobsJobStatusUpdateResponse_norm.
Proof. object_codec. Qed.
#[local] Hint Resolve JobsJobStatusUpdateResponse_codec : codec.
Lemma JobsUpdateJobInfo_codec :
  codec JobsUpdateJobInfo_Encode JobsUpdateJobInfo_Decode
    JobsUpdateJobInfo_zero JobsUpdateJobInfo_ok JobsUpdateJobInfo_norm.
Proof. object_codec. Qed.
#[local] Hint Resolve JobsUpdateJobInfo_codec : codec.
Lemma JobsUpdateJobInfoRequest_codec :
  codec JobsUpdateJobInfoRequest_Encode JobsUpdateJobInfoRequest_Decode
    JobsUpdateJobInfoRequest_zero JobsUpdateJobInfoRequest_ok JobsUpdateJobInfoRequest_norm.
Proof. object_codec. Qed.
#[local] Hint Resolve JobsUpdateJobInfoRequest_codec : codec.
Lemma JobsUpdateJobInfoResponse_codec :
  codec JobsUpdateJobInfoResponse_Encode JobsUpdateJobInfoResponse_Decode
    JobsUpdateJobInfoResponse_zero JobsUpdateJobInfoResponse_ok JobsUpdateJobInfoResponse_norm.
Proof. object_codec. Qed.
#[local] Hint Resolve JobsUpdateJobInfoResponse_codec : codec.
Lemma JobsUpdateJobTranspilerInfoResponse_codec :
  codec JobsUpdateJobTranspilerInfoResponse_Encode JobsUpdateJobTranspilerInfoResponse_Decode
    JobsUpdateJobTranspilerInfoResponse_zero JobsUpdateJobTranspilerInfoResponse_ok JobsUpdateJobTranspilerInfoResponse_norm.
Proof. object_codec. Qed.
#[local] Hint Resolve JobsUpdateJobTranspilerInfoResponse_codec : codec.
Lemma JobsUploadSselogResponse_codec :
  codec JobsUploadSselogResponse_Encode JobsUploadSselogResponse_Decode
    JobsUploadSselogResponse_zero JobsUploadSselogResponse_ok JobsUploadSselogResponse_norm.
Proof. object_codec. Qed.
#[local] Hint Resolve JobsUploadSselogResponse_codec : codec.
Lemma JobsJobDefs_codec : codec GetJobsOKApplicationJSON_Encode GetJobsOKApplicationJSON_Decode None
    (slice_ok JobsJobDef_ok) (slice_norm JobsJobDef_norm).
Proof.
  intros l Hl. destruct (codec_array _ _ _ _ _ JobsJobDef_codec l Hl) as (Hr & Hj & Hs). split_and!; [|done..].
  intros d r Hd. destruct (Hr d r Hd) as (d' & Hdec & Hd'). exists d'.
  unfold GetJobsOKApplicationJSON_Decode, wrapped. by rewrite Hdec.
Qed.

Lemma unmarshal_marshal {A} (enc : encoder A) dec zero ok norm v : codec enc dec zero ok norm -> ok v ->
  fits (enc v) -> UnmarshalJSON dec (MarshalJSON enc v) zero = (None, norm v).
Proof.
  intros H Hv Hf. destruct (H v Hv) as (Hr & Hj & _). unfold UnmarshalJSON, MarshalJSON.
  destruct (Hr (DecodeBytes (Bytes (enc v))) []) as (d' & Hdec & _); [|by rewrite Hdec].
  rewrite app_nil_r. by apply at_start.
Qed.

(** C16: What the engine and the cloud exchange survives its text: a job
    definition, an array of them and the update of a job, encoded and decoded
    again, come back with every member as it was, except that an unset optional
    member comes back with its default and a nil slice (of programs, say) as an
    empty one. *)
Theorem api_text_roundtrip :
  (forall v, JobsJobDef_ok v -> fits (JobsJobDef_Encode v) ->
     UnmarshalJSON JobsJobDef_Decode (MarshalJSON JobsJobDef_Encode v) JobsJobDef_zero = (None, JobsJobDef_norm v)) /\
  (forall l, Forall JobsJobDef_ok l -> fits (GetJobsOKApplicationJSON_Encode (Some l)) ->
     UnmarshalJSON GetJobsOKApplicationJSON_Decode (MarshalJSON GetJobsOKApplicationJSON_Encode (Some l)) None
     = (None, Some (JobsJobDef_norm <$> l))) /\
  (forall v, JobsUpdateJobInfoRequest_ok v -> fits (JobsUpdateJobInfoRequest_Encode v) ->
     UnmarshalJSON JobsUpdateJobInfoRequest_Decode (MarshalJSON JobsUpdateJobInfoRequest_Encode v)
       JobsUpdateJobInfoRequest_zero = (None, JobsUpdateJobInfoRequest_norm v)).
Proof.
  split_and!; intros v Hv Hf.
  - exact (unmarshal_marshal _ _ _ _ _ _ JobsJobDef_codec Hv Hf).
  - exact (unmarshal_marshal _ _ _ _ _ _ JobsJobDefs_codec (Hv : slice_ok JobsJobDef_ok (Some v)) Hf).
  - exact (unmarshal_marshal _ _ _ _ _ _ JobsUpdateJobInfoRequest_codec Hv Hf).
Qed.

(** ** Members that are missing, and members that are not known *)

(** The run of the decoder over the members of a job definition. *)
Lemma JobsJobDef_run v : JobsJobDef_ok v ->
  members_run JobsJobDef_field (JobsJobDef_encodeFields v)
    (JobsJobDef_setDefaults JobsJobDef_zero, [0; 0]) (JobsJobDef_norm v, [121; 4]).
Proof.
  intros Hv. unfold JobsJobDef_ok in Hv. repeat match goal with H : _ /\ _ |- _ => destruct H end.
  eapply members_eq; [members_steps|reflexivity].
Qed.

Lemma decode_object_text {T} name names masks setDefaults (field : string -> decoder D (T * bitset)) ms zero s b :
  members_run field ms (setDefaults zero, replicate (length masks) 0) (s, b) -> fits (write_object ms) ->
  (UnmarshalJSON (object name names masks setDefaults field) (Bytes (write_object ms)) zero).1 =
    match required_failures names b masks with [] => None | l => Some (FieldErrors l) end /\
  (required_failures names b masks = [] ->
   UnmarshalJSON (object name names masks setDefaults field) (Bytes (write_object ms)) zero = (None, s)).
Proof.
  intros [Hall Hrun] Hf. assert (At (DecodeBytes (Bytes (write_object ms))) (write_object ms)) as Hd.
  { apply at_start; [|done]. apply jv_obj; [eapply Forall_impl; [exact Hall|]; naive_solver|].
    apply json_values_Forall, Forall_fmap. eapply Forall_impl; [exact Hall|]. naive_solver. }
  rewrite <- (app_nil_r (write_object ms)) in Hd at 2.
  destruct (at_obj _ _ _ _ _ _ _ Hall Hrun Hd) as (d' & Hobj & _).
  unfold UnmarshalJSON, object. rewrite Hobj. cbn. destruct (required_failures names b masks); done.
Qed.

(** The members of [ms] whose name [keep] accepts. *)
Definition keep_members (keep : string -> bool) (ms : list member) : list member := List.filter (fun m => keep m.1) ms.

Lemma keep_app keep ms1 ms2 : keep_members keep (ms1 ++ ms2) = keep_members keep ms1 ++ keep_members keep ms2.
Proof. apply List.filter_app. Qed.
Lemma keep_one keep k v : keep_members keep [(k, v)] = if keep k then [(k, v)] else [].
Proof. reflexivity. Qed.
Lemma keep_opt {A} keep k (o : Opt A) enc :
  keep_members keep (opt_member k o enc) = if keep k then opt_member k o enc else [].
Proof. unfold opt_member. destruct (Opt_Set o); [apply keep_one|by destruct (keep k)]. Qed.
Lemma keep_optnil {A} keep k (o : OptNil A) enc :
  keep_members keep (optnil_member k o enc) = if keep k then optnil_member k o enc else [].
Proof. unfold optnil_member. destruct (OptNil_Set o); [apply keep_one|by destruct (keep k)]. Qed.

Definition set_bit_if (keep : bool) (i : nat) (j : Z) (b : bitset) : bitset := if keep then set_bit i j b else b.

Lemma members_if_required {T F} (keep : bool) (f : string -> decoder D (T * bitset)) ms s b i j (set : F -> T -> T) x x0 :
  members_run f ms (s, b) (set x s, set_bit i j b) -> set x0 s = s ->
  members_run f (if keep then ms else []) (s, b) (set (if keep then x else x0) s, set_bit_if keep i j b).
Proof. intros H Hs. destruct keep; [done|]. rewrite Hs. apply members_nil. Qed.

Lemma members_if_optional {T F} (keep : bool) (f : string -> decoder D (T * bitset)) ms s b (set : F -> T -> T) x x0 :
  members_run f ms (s, b) (set x s, b) -> set x0 s = s ->
  members_run f (if keep then ms else []) (s, b) (set (if keep then x else x0) s, b).
Proof. intros H Hs. destruct keep; [done|]. rewrite Hs. apply members_nil. Qed.

Ltac member_if_step :=
  first [ eapply members_if_required; [member_step|reflexivity] | eapply members_if_optional; [member_step|reflexivity] ].

Definition JobsJobDef_required : list string :=
  ["job_id"; "device_id"; "shots"; "job_type"; "job_info"; "status"].

Lemma JobsJobDef_kept_run keep v : JobsJobDef_ok v ->
  exists s b, members_run JobsJobDef_field (keep_members keep (JobsJobDef_encodeFields v))
    (JobsJobDef_setDefaults JobsJobDef_zero, [0; 0]) (s, b) /\
  required_failures jsonFieldsNameOfJobsJobDef b [121; 4] =
  (fun n => (n, ErrFieldRequired)) <$> List.filter (fun n => negb (keep n)) JobsJobDef_required.
Proof.
  intros Hv. unfold JobsJobDef_ok in Hv. repeat match goal with H : _ /\ _ |- _ => destruct H end.
  eexists _, _. split.
  - unfold JobsJobDef_encodeFields. rewrite !keep_app, !keep_one, !keep_opt, !keep_optnil.
    repeat (eapply members_app; [member_if_step|]; simpl_state).
    member_if_step.
  - unfold JobsJobDef_required. cbn [List.filter].
    destruct (keep "job_id"), (keep "device_id"), (keep "shots"), (keep "job_type"), (keep "job_info"),
      (keep "status"); reflexivity.
Qed.

(** C27: A job definition of which members are missing is decoded exactly when
    the six required ones are there; otherwise the error names those that are
    missing, in the order of the struct. *)
Theorem job_def_missing_members keep v : JobsJobDef_ok v ->
  fits (write_object (keep_members keep (JobsJobDef_encodeFields v))) ->
  (UnmarshalJSON JobsJobDef_Decode (Bytes (write_object (keep_members keep (JobsJobDef_encodeFields v))))
     JobsJobDef_zero).1 =
  match List.filter (fun n => negb (keep n)) JobsJobDef_required with
  | [] => None
  | missed => Some (FieldErrors ((fun n => (n, ErrFieldRequired)) <$> missed))
  end.
Proof.
  intros Hv Hf. destruct (JobsJobDef_kept_run keep v Hv) as (s & b & Hrun & Hreq).
  unfold JobsJobDef_Decode. rewrite (proj1 (decode_object_text _ _ [121; 4] _ _ _ _ _ _ Hrun Hf)), Hreq.
  by destruct (List.filter _ _).
Qed.

Lemma obj_run_app_inv {S} (f : string -> decoder D S) ms1 ms2 s s2 :
  obj_run f (ms1 ++ ms2) s s2 -> exists s1, obj_run f ms1 s s1 /\ obj_run f ms2 s1 s2.
Proof.
  revert s. induction ms1 as [|[k v] ms1 IH]; intros s H; cbn in H; [by exists s; split; [constructor|]|].
  inversion H as [|? ? ? ? sm ? Hr Hrun]; subst. destruct (IH _ Hrun) as (s1 & H1 & H2).
  exists s1. split; [|done]. econstructor; [exact Hr|exact H1].
Qed.

(** Members the schema does not know are passed over, wherever they stand:
    the job definition is read as without them. *)
Theorem job_def_unknown_members v ms1 ms2 extra : JobsJobDef_ok v ->
  JobsJobDef_encodeFields v = ms1 ++ ms2 ->
  Forall (fun m => (m.1 ∉ jsonFieldsNameOfJobsJobDef) /\ str_ok m.1 /\ json_value m.2) extra ->
  fits (write_object (ms1 ++ extra ++ ms2)) ->
  UnmarshalJSON JobsJobDef_Decode (Bytes (write_object (ms1 ++ extra ++ ms2))) JobsJobDef_zero
  = (None, JobsJobDef_norm v).
Proof.
  intros Hv Hms Hex Hf. destruct (JobsJobDef_run v Hv) as [Hall Hrun]. rewrite Hms in Hall, Hrun.
  apply Forall_app in Hall as [Hall1 Hall2]. destruct (obj_run_app_inv _ _ _ _ _ Hrun) as (s1 & Hrun1 & Hrun2).
  refine (proj2 (decode_object_text _ _ [121; 4] _ _ _ _ _ [121; 4] _ Hf) eq_refl). split.
  - rewrite !Forall_app. split_and!; [done| |done]. eapply Forall_impl; [exact Hex|]. naive_solver.
  - eapply obj_run_app; [exact Hrun1|]. eapply obj_run_app; [|exact Hrun2]. apply obj_run_unknown.
    eapply Forall_impl; [exact Hex|]. intros [k x] (Hk & _ & Hx). split; [|done]. cbn in *.
    unfold JobsJobDef_field, jsonFieldsNameOfJobsJobDef in *.
    repeat match goal with |- context [String.eqb k ?n] =>
      destruct (String.eqb_spec k n) as [->|_]; [exfalso; apply Hk; repeat constructor|] end.
    reflexivity.
Qed.
End codecs.

(** ** On texts *)

Module ApiExample.
#[local] Existing Instance canonical_range.

Definition info : JobsJobInfo :=
  mkJobsJobInfo (Some ["OPENQASM 3;"]) (OptNil_zero "") (NewOptNil (Some [mkJobsOperatorItem "Z 0" (NewOpt 2)]))
    (OptNil_zero JobsJobResult_zero) (OptNil_zero JobsTranspileResult_zero) (mkOptNil "" true true).

Definition job : JobsJobDef :=
  mkJobsJobDef "j1" (OptNil_zero "") (NewOpt "a job") "qpu" 1000 "sampling" info
    (NewOptNil {["transpiler_lib" := "null"]}) (OptNil_zero ∅) (OptNil_zero ∅) "submitted"
    (OptNil_zero 0) (NewOptNil 1700000000) (OptNil_zero 0) (OptNil_zero 0) (OptNil_zero 0).

Definition update : JobsUpdateJobInfoRequest :=
  mkJobsUpdateJobInfoRequest (NewOpt "succeeded") (NewOptNil 3)
    (NewOpt (mkJobsUpdateJobInfo (NewOptNil "") (OptNil_zero JobsTranspileResult_zero)
      (NewOptNil (mkJobsJobResult (NewOptNil (mkJobsSamplingResult {["00" := "1000"]} (OptNil_zero ∅)))
        (mkOptNil JobsEstimationResult_zero true true) ∅)) (NewOptNil "done"))).

(** The nesting of what the calls write. *)
Lemma fits_eval cs j : run_calls cs [OArr []] = Some [OArr [j]] -> (jdepth j <=? max_depth)%nat = true -> fits cs.
Proof.
  intros Hr Hd j'. unfold writes. rewrite Hr. intros [= <-]. by apply Nat.leb_le.
Qed.

Ltac eval_fits := eapply fits_eval; vm_compute; reflexivity.

Lemma raw_ok_eval b j : Parse b = Some j -> b = Print j -> wf_json j -> (jdepth j <=? max_depth)%nat = true ->
  text_raw_ok b.
Proof. intros _ -> Hj Hd. exists j. split_and!; [done|by apply Nat.leb_le|done]. Qed.

Ltac eval_ok :=
  repeat match goal with
  | |- _ /\ _ => split
  | |- OptNil_ok _ _ => unfold OptNil_ok; cbn; intros; try discriminate
  | |- Opt_ok _ _ => unfold Opt_ok; cbn; intros; try discriminate
  | |- slice_ok _ _ => unfold slice_ok; cbn
  | |- Forall _ [] => constructor
  | |- Forall _ (_ :: _) => constructor
  | |- raw_map_ok ∅ => apply map_Forall_empty
  | |- raw_map_ok _ => apply map_Forall_singleton
  | |- text_raw_ok "null" => apply (raw_ok_eval "null" JNull); [reflexivity|reflexivity|exact I|reflexivity]
  | |- text_raw_ok "1000" =>
      apply (raw_ok_eval "1000" (JNum "1000")); [reflexivity|reflexivity|exact (num_ok_FormatInt 1000)|reflexivity]
  | |- raw_ok _ => cbn
  | |- in_i64 _ => unfold in_i64; lia
  | |- float_ok _ => cbn; unfold in_i64; lia
  | |- time_ok _ => cbn; unfold in_i64; lia
  | |- str_ok _ => reflexivity
  | |- text_str_ok _ => reflexivity
  | |- JobsJobInfo_ok _ => unfold JobsJobInfo_ok; cbn
  | |- JobsOperatorItem_ok _ => unfold JobsOperatorItem_ok; cbn
  | |- JobsUpdateJobInfo_ok _ => unfold JobsUpdateJobInfo_ok; cbn
  | |- JobsJobResult_ok _ => unfold JobsJobResult_ok; cbn
  | |- JobsSamplingResult_ok _ => unfold JobsSamplingResult_ok; cbn
  | |- _ !! _ = None => reflexivity
  end.

Lemma job_ok : JobsJobDef_ok job.
Proof. unfold JobsJobDef_ok, job. cbn -[OptNil_ok Opt_ok]. eval_ok. Qed.

Lemma update_ok : JobsUpdateJobInfoRequest_ok update.
Proof. unfold JobsUpdateJobInfoRequest_ok, update. cbn -[OptNil_ok Opt_ok]. eval_ok. Qed.

(** A job, a poll with two jobs and an update, through their texts. *)
Lemma api_text_roundtrip_witness :
  UnmarshalJSON JobsJobDef_Decode (MarshalJSON JobsJobDef_Encode job) JobsJobDef_zero = (None, JobsJobDef_norm job) /\
  UnmarshalJSON GetJobsOKApplicationJSON_Decode (MarshalJSON GetJobsOKApplicationJSON_Encode (Some [job; job])) None
    = (None, Some [JobsJobDef_norm job; JobsJobDef_norm job]) /\
  UnmarshalJSON JobsUpdateJobInfoRequest_Decode (MarshalJSON JobsUpdateJobInfoRequest_Encode update)
    JobsUpdateJobInfoRequest_zero = (None, JobsUpdateJobInfoRequest_norm update).
Proof.
  destruct (api_text_roundtrip (D := text_decoder)) as (H1 & H2 & H3). split_and!.
  - apply H1; [exact job_ok|eval_fits].
  - apply (H2 [job; job]); [by rewrite !Forall_cons; auto using job_ok|eval_fits].
  - apply H3; [exact update_ok|eval_fits].
Defined.

(** Without its device and its status the definition is refused by name. *)
Definition keep (n : string) : bool := negb (one_of ["device_id"; "status"; "name"] n).

Lemma job_def_missing_members_witness :
  (UnmarshalJSON JobsJobDef_Decode (Bytes (write_object (keep_members keep (JobsJobDef_encodeFields job))))
     JobsJobDef_zero).1
  = Some (FieldErrors [("device_id", ErrFieldRequired); ("status", ErrFieldRequired)]).
Proof. apply (job_def_missing_members (D := text_decoder) keep job job_ok). eval_fits. Defined.

Lemma job_def_unknown_members_witness :
  UnmarshalJSON JobsJobDef_Decode
    (Bytes (write_object ([] ++ [("priority", [CInt 3]); ("tags", write_array [[CStr "x"]])] ++ JobsJobDef_encodeFields job)))
    JobsJobDef_zero = (None, JobsJobDef_norm job).
Proof.
  apply (job_def_unknown_members (D := text_decoder) job []); [exact job_ok|reflexivity| |eval_fits].
  repeat constructor; try done; cbn; set_solver.
Defined.

Lemma required_failures_missing_witness :
  required_failures jsonFieldsNameOfJobsJobDef [1; 0] [121; 4]
  = (fun n => (n, ErrFieldRequired)) <$> ["device_id"; "shots"; "job_type"; "job_info"; "status"].
Proof. rewrite required_failures_missing; [reflexivity|]. repeat constructor; unfold in_u8; lia. Defined.
End ApiExample.
