(* ===== verification/ApiValidate.v ===== *)
(** * Validation of the provider API's data (oas/gen/providerapi/oas_validators_gen.go)

    [Validate] of each schema collects the failures of its members under their
    names.  The checks of numbers are third-party functions: the class
    [NumberValidators], with what is documented of them in
    [NumberValidatorLaws].  [job_def_validate_exact] says which job definitions
    pass: they are what the poll client hands on. *)

From stdpp Require Import base gmap strings list.
From Stdlib Require Import ZArith Lia.
From S2P Require Import Prelude GoString Jx ApiSchemas.

(** [validate.Int] with its bounds, [validate.Float]. *)
Record IntBounds := mkIntBounds { MinSet : bool; Min : Z; MaxSet : bool; Max : Z }.
Class NumberValidators := {
  validate_Int : IntBounds -> Z -> option gerror;
  validate_Float : Z -> option gerror
}.
Class NumberValidatorLaws {NV : NumberValidators} := {
  finite : Z -> Prop;
  validate_Int_ok : forall b n, validate_Int b n = None <->
    (MinSet b = true -> Min b <= n) /\ (MaxSet b = true -> n <= Max b);
  validate_Float_ok : forall f, validate_Float f = None <-> finite f
}.

(** ** The collection of failures *)

(** [if err := check(); err != nil { failures = append(failures, ...) }] for
    every member, then [validate.Error] if there are any. *)
Definition failures_of (checks : list (string * option gerror)) : list (string * gerror) :=
  checks ≫= fun c => match c.2 with Some e => [(c.1, e)] | None => [] end.
Definition validate_all (checks : list (string * option gerror)) : option gerror :=
  match failures_of checks with [] => None | failures => Some (FieldErrors failures) end.

(** [if value, ok := o.Get(); ok { check(value) }] *)
Definition when_set {A} (v : option A) (check : A -> option gerror) : option gerror :=
  match v with Some a => check a | None => None end.

(** The loop over the elements of a slice that must not be nil. *)
Definition validate_slice {A} (check : A -> option gerror) (l : option (list A)) : option gerror :=
  match l with
  | None => Some (Err "nil is invalid value")
  | Some l => validate_all (imap (fun i a => ("[" +:+ FormatInt (Z.of_nat i) +:+ "]", check a)) l)
  end.

Definition validate_enum (values : list string) (s : string) : option gerror :=
  if one_of values s then None else Some (Err ("invalid value: " +:+ s)).

Section validate.
Context {NV : NumberValidators}.

Definition float_check (f : Z) : option gerror := wrap_opt (validate_Float f) "float".

Definition DevicesDeviceStatusUpdateStatus_Validate : string -> option gerror :=
  validate_enum ["available"; "unavailable"].
Definition JobsJobStatus_Validate : string -> option gerror :=
  validate_enum ["submitted"; "ready"; "running"; "succeeded"; "failed"; "cancelled"].
Definition JobsJobStatusUpdateStatus_Validate : string -> option gerror := validate_enum ["running"].
Definition JobsJobType_Validate : string -> option gerror :=
  validate_enum ["sampling"; "estimation"; "multi_manual"; "sse"].

Definition DevicesDeviceStatusUpdate_Validate (s : DevicesDeviceStatusUpdate) : option gerror :=
  validate_all [("status", DevicesDeviceStatusUpdateStatus_Validate (DevicesDeviceStatusUpdate_Status s))].

Definition JobsEstimationResult_Validate (s : JobsEstimationResult) : option gerror :=
  validate_all
    [("exp_value", float_check (JobsEstimationResult_ExpValue s));
     ("stds", float_check (JobsEstimationResult_Stds s))].

Definition JobsJobResult_Validate (s : JobsJobResult) : option gerror :=
  validate_all [("estimation", when_set (OptNil_Get (JobsJobResult_Estimation s)) JobsEstimationResult_Validate)].

Definition JobsOperatorItem_Validate (s : JobsOperatorItem) : option gerror :=
  validate_all [("coeff", when_set (Opt_Get (JobsOperatorItem_Coeff s)) float_check)].

Definition JobsJobInfo_Validate (s : JobsJobInfo) : option gerror :=
  validate_all
    [("program", match JobsJobInfo_Program s with None => Some (Err "nil is invalid value") | Some _ => None end);
     ("operator", when_set (OptNil_Get (JobsJobInfo_Operator s)) (validate_slice JobsOperatorItem_Validate));
     ("result", when_set (OptNil_Get (JobsJobInfo_Result s)) JobsJobResult_Validate)].

Definition shots_bounds : IntBounds := mkIntBounds true 1 true 10000000.

Definition JobsJobDef_Validate (s : JobsJobDef) : option gerror :=
  validate_all
    [("shots", wrap_opt (validate_Int shots_bounds (JobsJobDef_Shots s)) "int");
     ("job_type", JobsJobType_Validate (JobsJobDef_JobType s));
     ("job_info", JobsJobInfo_Validate (JobsJobDef_JobInfo s));
     ("status", JobsJobStatus_Validate (JobsJobDef_Status s));
     ("execution_time", when_set (OptNil_Get (JobsJobDef_ExecutionTime s)) float_check)].

Definition GetJobsOKApplicationJSON_Validate : option (list JobsJobDef) -> option gerror :=
  validate_slice JobsJobDef_Validate.

Definition JobsJobStatusUpdate_Validate (s : JobsJobStatusUpdate) : option gerror :=
  validate_all [("status", JobsJobStatusUpdateStatus_Validate (JobsJobStatusUpdate_Status s))].

Definition JobsUpdateJobInfo_Validate (s : JobsUpdateJobInfo) : option gerror :=
  validate_all [("result", when_set (OptNil_Get (JobsUpdateJobInfo_Result s)) JobsJobResult_Validate)].

Definition JobsUpdateJobInfoRequest_Validate (s : JobsUpdateJobInfoRequest) : option gerror :=
  validate_all
    [("overwrite_status", when_set (Opt_Get (JobsUpdateJobInfoRequest_OverwriteStatus s)) JobsJobStatus_Validate);
     ("execution_time", when_set (OptNil_Get (JobsUpdateJobInfoRequest_ExecutionTime s)) float_check);
     ("job_info", when_set (Opt_Get (JobsUpdateJobInfoRequest_JobInfo s)) JobsUpdateJobInfo_Validate)].
End validate.

(** ** What passes *)

Lemma validate_all_ok checks : validate_all checks = None <-> Forall (fun c => c.2 = None) checks.
Proof.
  unfold validate_all, failures_of. induction checks as [|[n [e|]] checks IH]; cbn.
  - by split; [constructor|].
  - split; [done|]. by inversion 1.
  - rewrite IH, Forall_cons. cbn. naive_solver.
Qed.

Lemma validate_slice_ok {A} (check : A -> option gerror) l :
  validate_slice check l = None <-> exists l', l = Some l' /\ Forall (fun a => check a = None) l'.
Proof.
  destruct l as [l|]; cbn; [|naive_solver]. rewrite validate_all_ok.
  transitivity (Forall (fun a => check a = None) l); [|naive_solver].
  rewrite !Forall_lookup. setoid_rewrite list_lookup_imap. split.
  - intros H i a Hi. apply (H i ("[" +:+ FormatInt (Z.of_nat i) +:+ "]", check a)). by rewrite Hi.
  - intros H i [n c] Hi. destruct (l !! i) as [a|] eqn:Ha; [|done]. cbn in Hi. simplify_eq. cbn. by eapply H.
Qed.

Lemma one_of_elem values s : one_of values s = true <-> s ∈ values.
Proof.
  unfold one_of. rewrite existsb_exists. setoid_rewrite String.eqb_eq. rewrite list_elem_of_In. naive_solver.
Qed.

Lemma validate_enum_ok values s : validate_enum values s = None <-> s ∈ values.
Proof. unfold validate_enum. rewrite <- one_of_elem. by destruct (one_of values s). Qed.

Lemma when_set_ok {A} (v : option A) check : when_set v check = None <-> forall a, v = Some a -> check a = None.
Proof. destruct v; cbn; naive_solver. Qed.

Lemma wrap_opt_ok e msg : wrap_opt e msg = None <-> e = None.
Proof. by destruct e. Qed.

Section passes.
Context {NV : NumberValidators} {NL : NumberValidatorLaws}.

Lemma float_check_ok f : float_check f = None <-> finite f.
Proof. unfold float_check. rewrite wrap_opt_ok. apply validate_Float_ok. Qed.

(** The job definitions the specification of the API allows. *)
Definition result_valid (r : JobsJobResult) : Prop :=
  forall e, OptNil_Get (JobsJobResult_Estimation r) = Some e ->
    finite (JobsEstimationResult_ExpValue e) /\ finite (JobsEstimationResult_Stds e).
Definition operators_valid (ops : option (list JobsOperatorItem)) : Prop :=
  exists l, ops = Some l /\
    Forall (fun o => forall c, Opt_Get (JobsOperatorItem_Coeff o) = Some c -> finite c) l.
Record job_def_valid (v : JobsJobDef) : Prop := {
  valid_shots : 1 <= JobsJobDef_Shots v <= 10000000;
  valid_type : JobsJobDef_JobType v ∈ JobsJobType_AllValues;
  valid_program : JobsJobInfo_Program (JobsJobDef_JobInfo v) <> None;
  valid_operators : forall ops, OptNil_Get (JobsJobInfo_Operator (JobsJobDef_JobInfo v)) = Some ops -> operators_valid ops;
  valid_result : forall r, OptNil_Get (JobsJobInfo_Result (JobsJobDef_JobInfo v)) = Some r -> result_valid r;
  valid_status : JobsJobDef_Status v ∈ JobsJobStatus_AllValues;
  valid_time : forall t, OptNil_Get (JobsJobDef_ExecutionTime v) = Some t -> finite t
}.

Lemma estimation_validate r : JobsJobResult_Validate r = None <-> result_valid r.
Proof.
  unfold JobsJobResult_Validate, result_valid. rewrite validate_all_ok, Forall_singleton. cbn. rewrite when_set_ok.
  apply forall_proper. intros e. unfold JobsEstimationResult_Validate.
  rewrite validate_all_ok, !Forall_cons, Forall_nil. cbn. rewrite !float_check_ok. naive_solver.
Qed.

Lemma operators_validate ops : validate_slice JobsOperatorItem_Validate ops = None <-> operators_valid ops.
Proof.
  rewrite validate_slice_ok. unfold operators_valid. apply exist_proper. intros l.
  enough (Forall (fun a => JobsOperatorItem_Validate a = None) l <->
          Forall (fun o => forall c, Opt_Get (JobsOperatorItem_Coeff o) = Some c -> finite c) l) by naive_solver.
  apply Forall_iff. intros o. unfold JobsOperatorItem_Validate.
  rewrite validate_all_ok, Forall_singleton. cbn. rewrite when_set_ok. by setoid_rewrite float_check_ok.
Qed.

Lemma info_validate i : JobsJobInfo_Validate i = None <->
  JobsJobInfo_Program i <> None /\
  (forall ops, OptNil_Get (JobsJobInfo_Operator i) = Some ops -> operators_valid ops) /\
  (forall r, OptNil_Get (JobsJobInfo_Result i) = Some r -> result_valid r).
Proof.
  unfold JobsJobInfo_Validate. rewrite validate_all_ok, !Forall_cons, Forall_nil. cbn. rewrite !when_set_ok.
  setoid_rewrite operators_validate. setoid_rewrite estimation_validate.
  destruct (JobsJobInfo_Program i); naive_solver.
Qed.

Lemma job_def_validate v : JobsJobDef_Validate v = None <-> job_def_valid v.
Proof.
  unfold JobsJobDef_Validate. rewrite validate_all_ok, !Forall_cons, Forall_nil. cbn.
  rewrite wrap_opt_ok, validate_Int_ok, info_validate, when_set_ok. cbn.
  unfold JobsJobType_Validate, JobsJobStatus_Validate. rewrite !validate_enum_ok. setoid_rewrite float_check_ok.
  split; [intros ((? & ?) & ? & (? & ? & ?) & ? & ? & _); constructor; auto|intros []; naive_solver].
Qed.

#[export] Instance job_def_valid_dec v : Decision (job_def_valid v).
Proof. destruct (JobsJobDef_Validate v) eqn:E; [right|left]; rewrite <- job_def_validate, E; done. Defined.

Lemma jobs_validate l : GetJobsOKApplicationJSON_Validate l = None <->
  exists l', l = Some l' /\ Forall job_def_valid l'.
Proof.
  unfold GetJobsOKApplicationJSON_Validate. rewrite validate_slice_ok. apply exist_proper. intros l'.
  enough (Forall (fun a => JobsJobDef_Validate a = None) l' <-> Forall job_def_valid l') by naive_solver.
  apply Forall_iff. intros v. apply job_def_validate.
Qed.

(** The validation is exact.  A job definition passes it exactly when it is
    what the API allows: shots from one to ten million, one of the four job types
    and six statuses, a program, and only finite numbers.  An answer with job
    definitions passes exactly when it is a list and each of them passes. *)
Theorem job_def_validate_exact :
  (forall v, JobsJobDef_Validate v = None <-> job_def_valid v) /\
  (forall l, GetJobsOKApplicationJSON_Validate l = None <-> exists l', l = Some l' /\ Forall job_def_valid l').
Proof. split; [apply job_def_validate|apply jobs_validate]. Qed.
End passes.

(** ** Numbers as bit patterns *)

Module ApiValidateExample.
(** The exponent of a finite float is not all ones. *)
Definition finite_bits (f : Z) : bool := negb (Z.land (Z.shiftr f 52) 2047 =? 2047).

#[export] Instance validators : NumberValidators := {|
  validate_Int b n :=
    if MinSet b && (n <? Min b) then Some (Err "less than minimum")
    else if MaxSet b && (Max b <? n) then Some (Err "greater than maximum") else None;
  validate_Float f := if finite_bits f then None else Some (Err "not finite")
|}.

#[export] Instance validator_laws : NumberValidatorLaws.
Proof.
  refine {| finite f := finite_bits f = true |}.
  - intros [ms mn xs mx] n. cbn. destruct ms, xs; cbn;
      destruct (Z.ltb_spec n mn), (Z.ltb_spec mx n); naive_solver lia.
  - intros f. cbn. by destruct (finite_bits f).
Defined.

(** A job with [n] shots. *)
Definition job (n : Z) : JobsJobDef :=
  JobsJobDef_SetShots n (JobsJobDef_SetStatus "submitted" (JobsJobDef_SetJobType "sampling"
    (JobsJobDef_SetJobInfo (JobsJobInfo_SetProgram (Some []) JobsJobInfo_zero) JobsJobDef_zero))).

Lemma job_def_validate_exact_witness :
  (JobsJobDef_Validate (job 1000) = None <-> job_def_valid (job 1000)) /\
  (GetJobsOKApplicationJSON_Validate (Some [job 1; job 0]) = None <->
   exists l', Some [job 1; job 0] = Some l' /\ Forall job_def_valid l') /\
  JobsJobDef_Validate (job 1000) = None /\ GetJobsOKApplicationJSON_Validate (Some [job 1; job 0]) <> None.
Proof.
  split_and!; [apply (proj1 job_def_validate_exact)|apply (proj2 job_def_validate_exact)|reflexivity|discriminate].
Defined.
End ApiValidateExample.
