(* ===== verification/ApiHttp.v ===== *)
(** * HTTP as the generated client and server use it

    URLs, requests and responses, and the third-party functions on them: the
    HTTP client ([HttpClient]), the encoding of URLs ([UriLib]) and of media
    types and forms ([Mime]); and the check of the security requirement, which
    client and server share (oas_client_gen.go, oas_handlers_gen.go). *)

From stdpp Require Import base gmap strings list.
From Stdlib Require Import ZArith Lia.
From S2P Require Import Prelude GoString Jx ApiSchemas.

(** ** Requests and responses *)

Record URL := mkURL { U_Host : string; U_Path : string; U_RawPath : string; U_RawQuery : string }.
Record HttpRequest := mkHttpRequest {
  Method : string;
  R_URL : URL;
  Header : gmap string string;
  R_Body : option string
}.
(** The body is what reading it to the end gives. *)
Record HttpResponse := mkHttpResponse {
  StatusCode : Z;
  ContentType : string;
  Body : string + gerror
}.

(** [http.Client.Do] changes the world and is logged. *)
Class HttpClient (W : Type) := {
  http_Do : HttpRequest -> W -> (HttpResponse + gerror) * W;
  http_log : W -> list HttpRequest;
  http_log_Do : forall r w, http_log (http_Do r w).2 = http_log w ++ [r]
}.

(** [uri.PathEncoder], [uri.AddPathParts], [uri.QueryEncoder] with
    [url.Values.Encode], [url.Parse] and [ht.NewRequest]. *)
Class UriLib := {
  path_encode : string -> string -> string + gerror;
  AddPathParts : URL -> list string -> URL;
  query_encode : list (string * option string) -> string + gerror;
  url_Parse : string -> URL + gerror;
  NewRequest : string -> URL -> HttpRequest + gerror
}.

(** [uri.NormalizeEscapedPath] and [url.PathUnescape]. *)
Class UriPaths := {
  NormalizeEscapedPath : string -> option string;
  PathUnescape : string -> string + gerror
}.

(** [mime.ParseMediaType] up to its parameters, and the multipart body of a file
    with its content type. *)
Class Mime := {
  ParseMediaType : string -> string + gerror;
  multipart_body : MultipartFile -> string * string
}.

Definition SetBody (body contentType : string) (r : HttpRequest) : HttpRequest :=
  mkHttpRequest (Method r) (R_URL r) (<["Content-Type" := contentType]> (Header r)) (Some body).
Definition SetHeader (k v : string) (r : HttpRequest) : HttpRequest :=
  mkHttpRequest (Method r) (R_URL r) (<[k := v]> (Header r)) (R_Body r).

Definition rbind {A B} (r : A + gerror) (k : A -> B + gerror) : B + gerror :=
  match r with inl a => k a | inr e => inr e end.
Definition rmap {A B} (f : A -> B) (r : A + gerror) : B + gerror := rbind r (fun a => inl (f a)).
Definition rwrap {A} (msg : string) (r : A + gerror) : A + gerror :=
  match r with inl a => inl a | inr e => inr (Wrap e msg) end.

(** ** Security requirements *)

(** The errors of package ogenerrors that are compared with or returned. *)
Definition ErrSkipClientSecurity : gerror := Sentinel "skip client security".
Definition ErrSkipServerSecurity : gerror := Sentinel "skip server security".
Definition ErrSecurityRequirementIsNotSatisfied : gerror := Sentinel "security requirement is not satisfied".

(** [for i, mask := range requirement { if satisfied[i]&mask != mask ...}]: both
    are arrays of one length. *)
Fixpoint requirement_met (satisfied requirement : list Z) : bool :=
  match satisfied, requirement with
  | s :: satisfied', mask :: requirement' => (Z.land s mask =? mask) && requirement_met satisfied' requirement'
  | _, _ => true
  end.
Definition security_satisfied (satisfied : list Z) : bool := existsb (requirement_met satisfied) [[1]].
