(* ===== verification/ApiRouter.v ===== *)
(** * The router of the provider API's server (oas/gen/providerapi/oas_router_gen.go)

    [ServeHTTP] walks a tree of path prefixes by the first byte of what is left
    of the path; [FindPath] walks a second copy of the tree.  [router_exact]
    proves the walk equivalent to the path patterns of the API, and
    [find_path_agrees] the two copies equivalent.  The names of the operations
    are those of oas_operations_gen.go. *)

From stdpp Require Import base strings list.
From Stdlib Require Import ZArith Lia Ascii.
From S2P Require Import Prelude GoString Jx ApiSchemas ApiHttp.

Inductive OperationName :=
| GetJobOperation
| GetJobsOperation
| GetSsesrcOperation
| PatchDeviceOperation
| PatchDeviceInfoOperation
| PatchDeviceStatusOperation
| PatchJobOperation
| PatchJobInfoOperation
| PatchSselogOperation
| UpdateJobTranspilerInfoOperation.

#[export] Instance OperationName_eq_dec : EqDecision OperationName.
Proof. solve_decision. Defined.

Definition operation_name (op : OperationName) : string :=
  match op with
  | GetJobOperation => "GetJob"
  | GetJobsOperation => "GetJobs"
  | GetSsesrcOperation => "GetSsesrc"
  | PatchDeviceOperation => "PatchDevice"
  | PatchDeviceInfoOperation => "PatchDeviceInfo"
  | PatchDeviceStatusOperation => "PatchDeviceStatus"
  | PatchJobOperation => "PatchJob"
  | PatchJobInfoOperation => "PatchJobInfo"
  | PatchSselogOperation => "PatchSselog"
  | UpdateJobTranspilerInfoOperation => "UpdateJobTranspilerInfo"
  end.

(** What the leaves of [FindPath] say of an operation: summary, ID, pattern. *)
Definition operation_info (op : OperationName) : string * string * string :=
  match op with
  | GetJobOperation =>
      ("Get a job by ID", "get_job", "/jobs/{job_id}")
  | GetJobsOperation =>
      ("Search jobs for a device", "get_jobs", "/jobs")
  | GetSsesrcOperation =>
      ("Get SSE program source file", "get_ssesrc", "/jobs/{job_id}/ssesrc")
  | PatchDeviceOperation =>
      ("Update a part of selected device's properties.", "patchDevice", "/devices/{device_id}")
  | PatchDeviceInfoOperation =>
      ("Update device_info(calibration data) of selected device", "patchDeviceInfo", "/devices/{device_id}/device_info")
  | PatchDeviceStatusOperation =>
      ("Update status of selected device", "patchDeviceStatus", "/devices/{device_id}/status")
  | PatchJobOperation =>
      ("Modify selected quantum job (update status).", "patch_job", "/jobs/{job_id}/status")
  | PatchJobInfoOperation =>
      ("Update selected quantum job's job_info by placing job results", "patch_job_info", "/jobs/{job_id}/job_info")
  | PatchSselogOperation =>
      ("Upload SSE log file", "patch_sselog", "/jobs/{job_id}/sselog")
  | UpdateJobTranspilerInfoOperation =>
      ("Overwrite selected quantum job's traspiler_info", "update_job_transpiler_info", "/jobs/{job_id}/transpiler_info")
  end.
Definition pathPattern (op : OperationName) : string := (operation_info op).2.

(** ** Parts of a path *)

(** [switch elem[0]] on one byte. *)
Definition first_is (c : ascii) (s : string) : bool :=
  match s with String c' _ => Ascii.eqb c' c | EmptyString => false end.

(** The parameter up to the next slash, and the rest from the slash on. *)
Fixpoint until_slash (s : string) : string * string :=
  match s with
  | EmptyString => (EmptyString, EmptyString)
  | String c s' =>
      if Ascii.eqb c "/" then (EmptyString, s) else let '(arg, rest) := until_slash s' in (String c arg, rest)
  end.

Definition cutPrefix (prefix path : string) : option string :=
  if String.eqb prefix "" then Some path else drop_prefix prefix path.

Section elem.
Context {UP : UriPaths}.

(** The path that is routed, and whether it holds escapes. *)
Definition routed_path (u : URL) : string * bool :=
  if negb (String.eqb (U_RawPath u) "") then
    match NormalizeEscapedPath (U_RawPath u) with
    | Some normalized => (normalized, negb (string_forallb (fun c => negb (Ascii.eqb c "%")) normalized))
    | None => (U_Path u, false)
    end
  else (U_Path u, false).
End elem.

(** ** ServeHTTP

    [None] is a [break]: every one ends in [notFound]. *)

Inductive served :=
| NotFound
| NotAllowed (allowed : string)
| Handle (op : OperationName) (arg : string).

Section serve.
Context (method : string).

Definition on_method (m : string) (op : OperationName) (arg : string) : option served :=
  Some (if String.eqb method m then Handle op arg else NotAllowed m).

Definition serve_leaf (l m : string) (op : OperationName) (arg elem : string) : option served :=
  elem ← drop_prefix l elem;
  if String.eqb elem "" then on_method m op arg else None.

(** Below [/devices/{device_id}]. *)
Definition serve_device (arg elem : string) : option served :=
  elem ← drop_prefix "/" elem;
  if first_is "d" elem then serve_leaf "device_info" "PATCH" PatchDeviceInfoOperation arg elem
  else if first_is "s" elem then serve_leaf "status" "PATCH" PatchDeviceStatusOperation arg elem
  else None.

Definition serve_devices (elem : string) : option served :=
  elem ← drop_prefix "devices/" elem;
  let '(arg, elem) := until_slash elem in
  if String.eqb elem "" then on_method "PATCH" PatchDeviceOperation arg
  else if first_is "/" elem then serve_device arg elem
  else None.

(** Below [/jobs/{job_id}]: [/sse...]. *)
Definition serve_sse (arg elem : string) : option served :=
  elem ← drop_prefix "se" elem;
  if first_is "l" elem then serve_leaf "log" "PATCH" PatchSselogOperation arg elem
  else if first_is "s" elem then serve_leaf "src" "GET" GetSsesrcOperation arg elem
  else None.

Definition serve_job_s (arg elem : string) : option served :=
  elem ← drop_prefix "s" elem;
  if first_is "s" elem then serve_sse arg elem
  else if first_is "t" elem then serve_leaf "tatus" "PATCH" PatchJobOperation arg elem
  else None.

Definition serve_job (arg elem : string) : option served :=
  elem ← drop_prefix "/" elem;
  if first_is "j" elem then serve_leaf "job_info" "PATCH" PatchJobInfoOperation arg elem
  else if first_is "s" elem then serve_job_s arg elem
  else if first_is "t" elem then serve_leaf "transpiler_info" "PUT" UpdateJobTranspilerInfoOperation arg elem
  else None.

Definition serve_jobs_sub (elem : string) : option served :=
  elem ← drop_prefix "/" elem;
  let '(arg, elem) := until_slash elem in
  if String.eqb elem "" then on_method "GET" GetJobOperation arg
  else if first_is "/" elem then serve_job arg elem
  else None.

Definition serve_jobs (elem : string) : option served :=
  elem ← drop_prefix "jobs" elem;
  if String.eqb elem "" then on_method "GET" GetJobsOperation ""
  else if first_is "/" elem then serve_jobs_sub elem
  else None.

Definition serve_elem (elem : string) : option served :=
  if first_is "/" elem then
    elem ← drop_prefix "/" elem;
    if first_is "d" elem then serve_devices elem
    else if first_is "j" elem then serve_jobs elem
    else None
  else None.
End serve.

(** ** FindPath

    [None] is [return r, false]. *)

Record Route := mkRoute {
  Route_Name : string; Route_Summary : string; Route_OperationID : string; Route_PathPattern : string;
  Route_count : nat; Route_args : list string
}.
Definition Route_Args (r : Route) : list string := take (Route_count r) (Route_args r).

Definition route_of (op : OperationName) (arg : string) : Route :=
  let '(summary, operationID, pattern) := operation_info op in
  mkRoute (operation_name op) summary operationID pattern
    (if decide (op = GetJobsOperation) then 0 else 1)%nat [arg].

Section find.
Context (method : string).

Definition found (m : string) (op : OperationName) (arg : string) : option Route :=
  if String.eqb method m then Some (route_of op arg) else None.

Definition find_leaf (l m : string) (op : OperationName) (arg elem : string) : option Route :=
  elem ← drop_prefix l elem;
  if String.eqb elem "" then found m op arg else None.

(** Below [/devices/{device_id}]. *)
Definition find_device (arg elem : string) : option Route :=
  elem ← drop_prefix "/" elem;
  if first_is "d" elem then find_leaf "device_info" "PATCH" PatchDeviceInfoOperation arg elem
  else if first_is "s" elem then find_leaf "status" "PATCH" PatchDeviceStatusOperation arg elem
  else None.

Definition find_devices (elem : string) : option Route :=
  elem ← drop_prefix "devices/" elem;
  let '(arg, elem) := until_slash elem in
  if String.eqb elem "" then found "PATCH" PatchDeviceOperation arg
  else if first_is "/" elem then find_device arg elem
  else None.

(** Below [/jobs/{job_id}]: [/sse...]. *)
Definition find_sse (arg elem : string) : option Route :=
  elem ← drop_prefix "se" elem;
  if first_is "l" elem then find_leaf "log" "PATCH" PatchSselogOperation arg elem
  else if first_is "s" elem then find_leaf "src" "GET" GetSsesrcOperation arg elem
  else None.

Definition find_job_s (arg elem : string) : option Route :=
  elem ← drop_prefix "s" elem;
  if first_is "s" elem then find_sse arg elem
  else if first_is "t" elem then find_leaf "tatus" "PATCH" PatchJobOperation arg elem
  else None.

Definition find_job (arg elem : string) : option Route :=
  elem ← drop_prefix "/" elem;
  if first_is "j" elem then find_leaf "job_info" "PATCH" PatchJobInfoOperation arg elem
  else if first_is "s" elem then find_job_s arg elem
  else if first_is "t" elem then find_leaf "transpiler_info" "PUT" UpdateJobTranspilerInfoOperation arg elem
  else None.

Definition find_jobs_sub (elem : string) : option Route :=
  elem ← drop_prefix "/" elem;
  let '(arg, elem) := until_slash elem in
  if String.eqb elem "" then found "GET" GetJobOperation arg
  else if first_is "/" elem then find_job arg elem
  else None.

Definition find_jobs (elem : string) : option Route :=
  elem ← drop_prefix "jobs" elem;
  if String.eqb elem "" then found "GET" GetJobsOperation ""
  else if first_is "/" elem then find_jobs_sub elem
  else None.

Definition find_elem (elem : string) : option Route :=
  if first_is "/" elem then
    elem ← drop_prefix "/" elem;
    if first_is "d" elem then find_devices elem
    else if first_is "j" elem then find_jobs elem
    else None
  else None.
End find.

Section server.
Context {UP : UriPaths}.

(** [prefix] is the [Prefix] of the server's configuration; the flag is
    [elemIsEscaped]. *)
Definition ServeHTTP (prefix method : string) (u : URL) : served * bool :=
  let '(elem, elemIsEscaped) := routed_path u in
  match cutPrefix prefix elem with
  | None | Some EmptyString => (NotFound, elemIsEscaped)
  | Some elem => (default NotFound (serve_elem method elem), elemIsEscaped)
  end.

(** The deferred function. *)
Definition unescape_args (r : Route) : Route :=
  mkRoute (Route_Name r) (Route_Summary r) (Route_OperationID r) (Route_PathPattern r) (Route_count r)
    (imap (fun i arg => if decide (i < Route_count r)%nat then
                          match PathUnescape arg with inl unescaped => unescaped | inr _ => arg end
                        else arg) (Route_args r)).

Definition FindPath (prefix method : string) (u : URL) : option Route :=
  let elem :=
    if negb (String.eqb (U_RawPath u) "") then default (U_Path u) (NormalizeEscapedPath (U_RawPath u)) else U_Path u in
  let deferred := if negb (String.eqb (U_RawPath u) "") then unescape_args else id in
  elem ← cutPrefix prefix elem;
  deferred <$> find_elem method elem.

Definition FindRoute (prefix method path : string) : option Route :=
  FindPath prefix method (mkURL "" path "" "").
End server.

(** ** The path patterns *)

Definition no_slash (s : string) : Prop := string_forallb (fun c => negb (Ascii.eqb c "/")) s = true.

(** The pattern with its parameter, the part in braces, replaced. *)
Fixpoint skip_brace (s : string) : string :=
  match s with
  | EmptyString => EmptyString
  | String c s' => if Ascii.eqb c "}" then s' else skip_brace s'
  end.
Fixpoint fill (pattern arg : string) : string :=
  match pattern with
  | EmptyString => EmptyString
  | String c p => if Ascii.eqb c "{" then arg +:+ skip_brace p else String c (fill p arg)
  end.

(** An operation at a path: what its pattern gives for an argument without a
    slash. *)
Definition at_path (op : OperationName) (arg elem : string) : Prop :=
  no_slash arg /\ (op = GetJobsOperation -> arg = "") /\ elem = fill (pathPattern op) arg.

Definition http_method (op : OperationName) : string :=
  match op with
  | GetJobOperation | GetJobsOperation | GetSsesrcOperation => "GET"
  | UpdateJobTranspilerInfoOperation => "PUT"
  | _ => "PATCH"
  end.

Lemma drop_prefix_Some p s r : drop_prefix p s = Some r -> s = p +:+ r.
Proof.
  revert s. induction p as [|a p IH]; intros [|b s] H; cbn [drop_prefix] in H; try done; try by injection H as <-.
  destruct (Ascii.eqb_spec a b) as [->|]; [|done]. by rewrite (IH _ H).
Qed.

Lemma drop_prefix_app p s : drop_prefix p (p +:+ s) = Some s.
Proof.
  induction p as [|a p IH]; [by destruct s|]. change (String a p +:+ s) with (String a (p +:+ s)). cbn [drop_prefix].
  by rewrite Ascii.eqb_refl.
Qed.

Lemma until_slash_spec s arg rest : until_slash s = (arg, rest) -> s = arg +:+ rest /\ no_slash arg.
Proof.
  revert arg rest. induction s as [|c s IH]; intros arg rest H; cbn [until_slash] in H; [by injection H as <- <-|].
  destruct (Ascii.eqb c "/") eqn:E; [by injection H as <- <-|].
  destruct (until_slash s) as [a r]. injection H as <- <-. destruct (IH a r eq_refl) as [-> Ha].
  split; [done|]. unfold no_slash. cbn [string_forallb]. by rewrite E.
Qed.

Lemma until_slash_app arg rest : no_slash arg -> rest = "" \/ first_is "/" rest = true ->
  until_slash (arg +:+ rest) = (arg, rest).
Proof.
  unfold no_slash. intros Ha Hr. induction arg as [|c arg IH].
  - change ("" +:+ rest) with rest. destruct rest as [|c rest]; [done|]. destruct Hr as [|Hr]; [done|]. cbn [first_is until_slash] in *. by rewrite Hr.
  - change (String c arg +:+ rest) with (String c (arg +:+ rest)). cbn [until_slash string_forallb] in *.
    apply andb_true_iff in Ha as [Hc Ha]. apply negb_true_iff in Hc. rewrite Hc. by rewrite IH.
Qed.

(** One step of the walk in a hypothesis. *)
Ltac walk_step H :=
  match type of H with
  | (drop_prefix ?p ?e ≫= _) = _ =>
      let E := fresh "E" in destruct (drop_prefix p e) as [?|] eqn:E;
      [apply drop_prefix_Some in E as ->; cbn [mbind option_bind] in H|discriminate H]
  | (let '(_, _) := until_slash ?e in _) = _ =>
      let E := fresh "E" in destruct (until_slash e) as [? ?] eqn:E; apply until_slash_spec in E as [-> ?]
  | (if String.eqb ?e "" then _ else _) = _ =>
      let E := fresh "E" in destruct (String.eqb_spec e "") as [E|_]; [rewrite ?E in *; clear E|]
  | (if first_is ?c ?e then _ else _) = _ => destruct (first_is c e)
  | None = Some _ => discriminate H
  end.
Ltac walk H := repeat walk_step H.

Lemma serve_elem_sound method elem s : serve_elem method elem = Some s ->
  exists op arg, at_path op arg elem /\ on_method method (http_method op) op arg = Some s.
Proof.
  intros H. unfold serve_elem, serve_devices, serve_jobs, serve_jobs_sub, serve_job, serve_job_s, serve_sse,
    serve_device, serve_leaf in H.
  walk H; match type of H with on_method _ _ ?op ?arg = _ => exists op, arg end; (split; [|exact H]);
    (split; [assumption || reflexivity|]; split; [discriminate || reflexivity|]); reflexivity.
Qed.

Lemma until_slash_all arg : no_slash arg -> until_slash (arg +:+ "") = (arg, "").
Proof. intros Ha. apply until_slash_app; auto. Qed.

Lemma until_slash_sub arg rest : no_slash arg -> until_slash (arg +:+ String "/" rest) = (arg, String "/" rest).
Proof. intros Ha. apply until_slash_app; auto. Qed.

Lemma serve_elem_complete method elem op arg : at_path op arg elem ->
  serve_elem method elem = on_method method (http_method op) op arg.
Proof.
  intros (Ha & Hj & ->). unfold serve_elem, serve_devices, serve_jobs, serve_jobs_sub.
  destruct op; cbn -[until_slash on_method]; try rewrite until_slash_all by done;
    try rewrite until_slash_sub by done; try reflexivity.
  by rewrite Hj.
Qed.

(** The route of what is served, if anything is. *)
Definition served_route (s : served) : option Route :=
  match s with Handle op arg => Some (route_of op arg) | _ => None end.

Ltac same_walk :=
  match goal with
  | |- (drop_prefix ?p ?e ≫= _) = _ => destruct (drop_prefix p e) as [?|]; cbn [mbind option_bind]
  | |- (let '(_, _) := until_slash ?e in _) = _ => destruct (until_slash e) as [? ?]
  | |- (if String.eqb ?e "" then _ else _) = _ => destruct (String.eqb e "")
  | |- (if first_is ?c ?e then _ else _) = _ => destruct (first_is c e)
  | |- None = _ => reflexivity
  end.

Lemma found_on_method method m op arg : found method m op arg = on_method method m op arg ≫= served_route.
Proof. unfold found, on_method. by destruct (String.eqb method m). Qed.

Lemma find_elem_serve method elem : find_elem method elem = serve_elem method elem ≫= served_route.
Proof.
  unfold find_elem, find_devices, find_jobs, find_jobs_sub, find_job, find_job_s, find_sse, find_device, find_leaf.
  unfold serve_elem, serve_devices, serve_jobs, serve_jobs_sub, serve_job, serve_job_s, serve_sse, serve_device,
    serve_leaf.
  repeat same_walk; apply found_on_method.
Qed.

Section routes.
Context {UP : UriPaths}.

Lemma cutPrefix_app prefix elem : cutPrefix prefix (prefix +:+ elem) = Some elem.
Proof.
  unfold cutPrefix. destruct (String.eqb_spec prefix "") as [E|_]; [by rewrite E|apply drop_prefix_app].
Qed.

Lemma cutPrefix_Some prefix path elem : cutPrefix prefix path = Some elem <-> path = prefix +:+ elem.
Proof.
  split; [|intros ->; apply cutPrefix_app]. unfold cutPrefix.
  destruct (String.eqb_spec prefix "") as [E|_]; [by rewrite E; intros [= ->]|apply drop_prefix_Some].
Qed.

Lemma ServeHTTP_at prefix method u op arg elem : (routed_path u).1 = prefix +:+ elem -> at_path op arg elem ->
  ServeHTTP prefix method u =
  (if String.eqb method (http_method op) then Handle op arg else NotAllowed (http_method op), (routed_path u).2).
Proof.
  intros He Hat. unfold ServeHTTP. destruct (routed_path u) as [path esc]. cbn in He. subst path.
  rewrite cutPrefix_app, (serve_elem_complete _ _ _ _ Hat). destruct elem; [|done].
  exfalso. destruct Hat as (_ & _ & H). by destruct op.
Qed.

(** C26: The router is exact.  A request is handed to the handler of an operation
    exactly when, behind the prefix of the server, its path is the pattern of the
    operation with an argument without a slash and its method is that of the
    operation; with another method the request is refused with the one allowed;
    any other path is not found. *)
Theorem router_exact prefix method u :
  match (ServeHTTP prefix method u).1 with
  | Handle op arg => exists elem, (routed_path u).1 = prefix +:+ elem /\ at_path op arg elem /\ method = http_method op
  | NotAllowed allowed => exists elem op arg, (routed_path u).1 = prefix +:+ elem /\ at_path op arg elem /\
      allowed = http_method op /\ method <> allowed
  | NotFound => forall elem op arg, (routed_path u).1 = prefix +:+ elem -> ~ at_path op arg elem
  end.
Proof.
  destruct ((ServeHTTP prefix method u).1) as [|allowed|op arg] eqn:E.
  - intros elem op arg He Hat. rewrite (ServeHTTP_at _ _ _ _ _ _ He Hat) in E. cbn in E.
    by destruct (String.eqb method (http_method op)).
  - unfold ServeHTTP in E. destruct (routed_path u) as [path esc]. cbn.
    destruct (cutPrefix prefix path) as [[|c elem]|] eqn:Hc; [done| |done]. apply cutPrefix_Some in Hc as ->.
    cbn [fst] in E. destruct (serve_elem method _) as [s|] eqn:Es; [|done]. cbn in E. subst s.
    apply serve_elem_sound in Es as (op & arg & Hat & Hm). unfold on_method in Hm.
    destruct (String.eqb_spec method (http_method op)); [done|]. injection Hm as <-. eauto 10.
  - unfold ServeHTTP in E. destruct (routed_path u) as [path esc]. cbn.
    destruct (cutPrefix prefix path) as [[|c elem]|] eqn:Hc; [done| |done]. apply cutPrefix_Some in Hc as ->.
    cbn [fst] in E. destruct (serve_elem method _) as [s|] eqn:Es; [|done]. cbn in E. subst s.
    apply serve_elem_sound in Es as (op' & arg' & Hat & Hm). unfold on_method in Hm.
    destruct (String.eqb_spec method (http_method op')); [|done]. injection Hm as -> ->. eauto 10.
Qed.

(** The two copies of the tree agree.  [FindPath] finds a route exactly for
    the requests that are handled, and it is the route of the operation that
    handles them, with the argument unescaped where the URL has a raw path. *)
Theorem find_path_agrees prefix method u :
  FindPath prefix method u =
  match (ServeHTTP prefix method u).1 with
  | Handle op arg =>
      Some (if negb (String.eqb (U_RawPath u) "") then unescape_args (route_of op arg) else route_of op arg)
  | _ => None
  end.
Proof.
  unfold FindPath, ServeHTTP, routed_path.
  set (elem := if negb (String.eqb (U_RawPath u) "") then default _ _ else _).
  assert (exists esc, (if negb (String.eqb (U_RawPath u) "") then
            match NormalizeEscapedPath (U_RawPath u) with
            | Some n => (n, negb (string_forallb (fun c => negb (Ascii.eqb c "%")) n))
            | None => (U_Path u, false)
            end else (U_Path u, false)) = (elem, esc)) as [esc ->].
  { subst elem. destruct (negb _); [|eauto]. destruct (NormalizeEscapedPath _); cbn; eauto. }
  cbn. destruct (cutPrefix prefix elem) as [[|c e]|]; cbn; [done| |done].
  rewrite find_elem_serve. destruct (serve_elem method (String c e)) as [[| |op arg]|]; cbn; try done.
  by destruct (negb _).
Qed.
End routes.
