(* ===== verification/ApiClient.v ===== *)
(** * The client of the provider API (oas/gen/providerapi/oas_client_gen.go)

    Parameters, URLs, request bodies, the security header, the call and the
    decoding of its answer, for every operation
    (also oas_request_encoders_gen.go, oas_response_decoders_gen.go,
    oas_security_gen.go, oas_interfaces_gen.go).  [send] is the body the
    generated [send...] methods share, in the order of its stages; metrics and
    traces are left out.

    Requests, responses and the library they go through are in ApiHttp.v. *)

From stdpp Require Import base gmap strings list.
From Stdlib Require Import ZArith Lia Ascii.
From S2P Require Import Prelude GoString Json Jx JxText ApiSchemas ApiCodec ApiJson ApiValidate ApiHttp.

(** ** Parameters (oas_parameters_gen.go) *)

Record GetJobParams := mkGetJobParams { GetJobParams_JobID : string }.
Record GetJobsParams := mkGetJobsParams { GetJobsParams_DeviceID : string; GetJobsParams_Status : Opt string; GetJobsParams_MaxResults : Opt Z; GetJobsParams_Timestamp : Opt string }.
Record GetSsesrcParams := mkGetSsesrcParams { GetSsesrcParams_JobID : string }.
Record PatchDeviceParams := mkPatchDeviceParams { PatchDeviceParams_DeviceID : string }.
Record PatchDeviceInfoParams := mkPatchDeviceInfoParams { PatchDeviceInfoParams_DeviceID : string }.
Record PatchDeviceStatusParams := mkPatchDeviceStatusParams { PatchDeviceStatusParams_DeviceID : string }.
Record PatchJobParams := mkPatchJobParams { PatchJobParams_JobID : string }.
Record PatchJobInfoParams := mkPatchJobInfoParams { PatchJobInfoParams_JobID : string }.
Record PatchSselogParams := mkPatchSselogParams { PatchSselogParams_JobID : string }.
Record UpdateJobTranspilerInfoParams := mkUpdateJobTranspilerInfoParams { UpdateJobTranspilerInfoParams_JobID : string }.

(** ** Results: one constructor per type with the marker method *)

Inductive GetJobRes :=
| GetJobRes_JobsJobDef (response : JobsJobDef)
| GetJobRes_ErrorBadRequest (response : ErrorBadRequest)
| GetJobRes_ErrorNotFoundError (response : ErrorNotFoundError).
Inductive GetJobsRes :=
| GetJobsRes_GetJobsOKApplicationJSON (response : option (list JobsJobDef))
| GetJobsRes_ErrorBadRequest (response : ErrorBadRequest)
| GetJobsRes_ErrorInternalServerError (response : ErrorInternalServerError).
Inductive GetSsesrcRes :=
| GetSsesrcRes_GetSsesrcOK (response : GetSsesrcOK)
| GetSsesrcRes_ErrorBadRequest (response : ErrorBadRequest)
| GetSsesrcRes_ErrorNotFoundError (response : ErrorNotFoundError)
| GetSsesrcRes_ErrorInternalServerError (response : ErrorInternalServerError).
Inductive PatchDeviceRes :=
| PatchDeviceRes_DevicesUpdateDeviceResponse (response : DevicesUpdateDeviceResponse)
| PatchDeviceRes_ErrorBadRequest (response : ErrorBadRequest)
| PatchDeviceRes_ErrorNotFoundError (response : ErrorNotFoundError)
| PatchDeviceRes_ErrorInternalServerError (response : ErrorInternalServerError).
Inductive PatchDeviceInfoRes :=
| PatchDeviceInfoRes_DevicesDeviceDataUpdateResponse (response : DevicesDeviceDataUpdateResponse)
| PatchDeviceInfoRes_ErrorBadRequest (response : ErrorBadRequest)
| PatchDeviceInfoRes_ErrorNotFoundError (response : ErrorNotFoundError)
| PatchDeviceInfoRes_ErrorInternalServerError (response : ErrorInternalServerError).
Inductive PatchDeviceStatusRes :=
| PatchDeviceStatusRes_DevicesDeviceDataUpdateResponse (response : DevicesDeviceDataUpdateResponse)
| PatchDeviceStatusRes_ErrorBadRequest (response : ErrorBadRequest)
| PatchDeviceStatusRes_ErrorNotFoundError (response : ErrorNotFoundError)
| PatchDeviceStatusRes_ErrorInternalServerError (response : ErrorInternalServerError).
Inductive PatchJobRes :=
| PatchJobRes_JobsJobStatusUpdateResponse (response : JobsJobStatusUpdateResponse)
| PatchJobRes_ErrorNotFoundError (response : ErrorNotFoundError)
| PatchJobRes_ErrorConflictError (response : ErrorConflictError).
Inductive PatchJobInfoRes :=
| PatchJobInfoRes_JobsUpdateJobInfoResponse (response : JobsUpdateJobInfoResponse)
| PatchJobInfoRes_ErrorBadRequest (response : ErrorBadRequest)
| PatchJobInfoRes_ErrorNotFoundError (response : ErrorNotFoundError).
Inductive PatchSselogRes :=
| PatchSselogRes_JobsUploadSselogResponse (response : JobsUploadSselogResponse)
| PatchSselogRes_ErrorBadRequest (response : ErrorBadRequest)
| PatchSselogRes_ErrorInternalServerError (response : ErrorInternalServerError).
Inductive UpdateJobTranspilerInfoRes :=
| UpdateJobTranspilerInfoRes_JobsUpdateJobTranspilerInfoResponse (response : JobsUpdateJobTranspilerInfoResponse)
| UpdateJobTranspilerInfoRes_ErrorBadRequest (response : ErrorBadRequest)
| UpdateJobTranspilerInfoRes_ErrorNotFoundError (response : ErrorNotFoundError).

(** ** Decoding of responses *)

Section client.
Context {D : Type} {J : JxDecoder D} {L : JxLaws D} {DT : DateTime D} {MR : MapRange}.
Context {NV : NumberValidators} {MI : Mime} {UL : UriLib} {W : Type} {HC : HttpClient W}.

(** The body of a response whose media type is [want]. *)
Definition typed_body {A} (want : string) (resp : HttpResponse) (k : string -> string -> A + gerror) : A + gerror :=
  rbind (rwrap "parse media type" (ParseMediaType (ContentType resp)))
    (fun ct => if String.eqb ct want then rbind (Body resp) (k ct) else inr (InvalidContentType ct)).

Definition no_validate {A} (a : A) : option gerror := None.

(** The value is decoded, nothing must follow it, and it is validated. *)
Definition json_body {A R} (ret : A -> R) (dec : decoder D A) (zero : A) (validate : A -> option gerror)
    (resp : HttpResponse) : R + gerror :=
  typed_body "application/json" resp (fun ct buf =>
    let '(e, d, response) := dec (DecodeBytes buf) zero in
    match e with
    | Some e => inr (DecodeBodyError ct buf e)
    | None =>
        if is_EOF (d_Skip d).1 then
          match validate response with
          | Some e => inr (Wrap e "validate")
          | None => inl (ret response)
          end
        else inr (DecodeBodyError ct buf (Err "unexpected trailing data"))
    end).

Definition text_body {R} (ret : string -> R) (resp : HttpResponse) : R + gerror :=
  typed_body "text/plain" resp (fun _ b => inl (ret b)).

Definition decodeGetJobResponse (resp : HttpResponse) : GetJobRes + gerror :=
  if StatusCode resp =? 200 then
    json_body GetJobRes_JobsJobDef JobsJobDef_Decode JobsJobDef_zero JobsJobDef_Validate resp
  else if StatusCode resp =? 400 then
    json_body GetJobRes_ErrorBadRequest ErrorBadRequest_Decode ErrorBadRequest_zero no_validate resp
  else if StatusCode resp =? 404 then
    json_body GetJobRes_ErrorNotFoundError ErrorNotFoundError_Decode ErrorNotFoundError_zero no_validate resp
  else inr (UnexpectedStatusCode (StatusCode resp)).

Definition decodeGetJobsResponse (resp : HttpResponse) : GetJobsRes + gerror :=
  if StatusCode resp =? 200 then
    json_body GetJobsRes_GetJobsOKApplicationJSON GetJobsOKApplicationJSON_Decode None GetJobsOKApplicationJSON_Validate resp
  else if StatusCode resp =? 400 then
    json_body GetJobsRes_ErrorBadRequest ErrorBadRequest_Decode ErrorBadRequest_zero no_validate resp
  else if StatusCode resp =? 500 then
    json_body GetJobsRes_ErrorInternalServerError ErrorInternalServerError_Decode ErrorInternalServerError_zero no_validate resp
  else inr (UnexpectedStatusCode (StatusCode resp)).

Definition decodeGetSsesrcResponse (resp : HttpResponse) : GetSsesrcRes + gerror :=
  if StatusCode resp =? 200 then text_body (fun b => GetSsesrcRes_GetSsesrcOK (mkGetSsesrcOK (Some b))) resp
  else if StatusCode resp =? 400 then
    json_body GetSsesrcRes_ErrorBadRequest ErrorBadRequest_Decode ErrorBadRequest_zero no_validate resp
  else if StatusCode resp =? 404 then
    json_body GetSsesrcRes_ErrorNotFoundError ErrorNotFoundError_Decode ErrorNotFoundError_zero no_validate resp
  else if StatusCode resp =? 500 then
    json_body GetSsesrcRes_ErrorInternalServerError ErrorInternalServerError_Decode ErrorInternalServerError_zero no_validate resp
  else inr (UnexpectedStatusCode (StatusCode resp)).

Definition decodePatchDeviceResponse (resp : HttpResponse) : PatchDeviceRes + gerror :=
  if StatusCode resp =? 200 then
    json_body PatchDeviceRes_DevicesUpdateDeviceResponse DevicesUpdateDeviceResponse_Decode DevicesUpdateDeviceResponse_zero no_validate resp
  else if StatusCode resp =? 400 then
    json_body PatchDeviceRes_ErrorBadRequest ErrorBadRequest_Decode ErrorBadRequest_zero no_validate resp
  else if StatusCode resp =? 404 then
    json_body PatchDeviceRes_ErrorNotFoundError ErrorNotFoundError_Decode ErrorNotFoundError_zero no_validate resp
  else if StatusCode resp =? 500 then
    json_body PatchDeviceRes_ErrorInternalServerError ErrorInternalServerError_Decode ErrorInternalServerError_zero no_validate resp
  else inr (UnexpectedStatusCode (StatusCode resp)).

Definition decodePatchDeviceInfoResponse (resp : HttpResponse) : PatchDeviceInfoRes + gerror :=
  if StatusCode resp =? 200 then
    json_body PatchDeviceInfoRes_DevicesDeviceDataUpdateResponse DevicesDeviceDataUpdateResponse_Decode DevicesDeviceDataUpdateResponse_zero no_validate resp
  else if StatusCode resp =? 400 then
    json_body PatchDeviceInfoRes_ErrorBadRequest ErrorBadRequest_Decode ErrorBadRequest_zero no_validate resp
  else if StatusCode resp =? 404 then
    json_body PatchDeviceInfoRes_ErrorNotFoundError ErrorNotFoundError_Decode ErrorNotFoundError_zero no_validate resp
  else if StatusCode resp =? 500 then
    json_body PatchDeviceInfoRes_ErrorInternalServerError ErrorInternalServerError_Decode ErrorInternalServerError_zero no_validate resp
  else inr (UnexpectedStatusCode (StatusCode resp)).

Definition decodePatchDeviceStatusResponse (resp : HttpResponse) : PatchDeviceStatusRes + gerror :=
  if StatusCode resp =? 200 then
    json_body PatchDeviceStatusRes_DevicesDeviceDataUpdateResponse DevicesDeviceDataUpdateResponse_Decode DevicesDeviceDataUpdateResponse_zero no_validate resp
  else if StatusCode resp =? 400 then
    json_body PatchDeviceStatusRes_ErrorBadRequest ErrorBadRequest_Decode ErrorBadRequest_zero no_validate resp
  else if StatusCode resp =? 404 then
    json_body PatchDeviceStatusRes_ErrorNotFoundError ErrorNotFoundError_Decode ErrorNotFoundError_zero no_validate resp
  else if StatusCode resp =? 500 then
    json_body PatchDeviceStatusRes_ErrorInternalServerError ErrorInternalServerError_Decode ErrorInternalServerError_zero no_validate resp
  else inr (UnexpectedStatusCode (StatusCode resp)).

Definition decodePatchJobResponse (resp : HttpResponse) : PatchJobRes + gerror :=
  if StatusCode resp =? 200 then
    json_body PatchJobRes_JobsJobStatusUpdateResponse JobsJobStatusUpdateResponse_Decode JobsJobStatusUpdateResponse_zero no_validate resp
  else if StatusCode resp =? 404 then
    json_body PatchJobRes_ErrorNotFoundError ErrorNotFoundError_Decode ErrorNotFoundError_zero no_validate resp
  else if StatusCode resp =? 409 then
    json_body PatchJobRes_ErrorConflictError ErrorConflictError_Decode ErrorConflictError_zero no_validate resp
  else inr (UnexpectedStatusCode (StatusCode resp)).

Definition decodePatchJobInfoResponse (resp : HttpResponse) : PatchJobInfoRes + gerror :=
  if StatusCode resp =? 200 then
    json_body PatchJobInfoRes_JobsUpdateJobInfoResponse JobsUpdateJobInfoResponse_Decode JobsUpdateJobInfoResponse_zero no_validate resp
  else if StatusCode resp =? 400 then
    json_body PatchJobInfoRes_ErrorBadRequest ErrorBadRequest_Decode ErrorBadRequest_zero no_validate resp
  else if StatusCode resp =? 404 then
    json_body PatchJobInfoRes_ErrorNotFoundError ErrorNotFoundError_Decode ErrorNotFoundError_zero no_validate resp
  else inr (UnexpectedStatusCode (StatusCode resp)).

Definition decodePatchSselogResponse (resp : HttpResponse) : PatchSselogRes + gerror :=
  if StatusCode resp =? 200 then
    json_body PatchSselogRes_JobsUploadSselogResponse JobsUploadSselogResponse_Decode JobsUploadSselogResponse_zero no_validate resp
  else if StatusCode resp =? 400 then
    json_body PatchSselogRes_ErrorBadRequest ErrorBadRequest_Decode ErrorBadRequest_zero no_validate resp
  else if StatusCode resp =? 500 then
    json_body PatchSselogRes_ErrorInternalServerError ErrorInternalServerError_Decode ErrorInternalServerError_zero no_validate resp
  else inr (UnexpectedStatusCode (StatusCode resp)).

Definition decodeUpdateJobTranspilerInfoResponse (resp : HttpResponse) : UpdateJobTranspilerInfoRes + gerror :=
  if StatusCode resp =? 200 then
    json_body UpdateJobTranspilerInfoRes_JobsUpdateJobTranspilerInfoResponse JobsUpdateJobTranspilerInfoResponse_Decode JobsUpdateJobTranspilerInfoResponse_zero no_validate resp
  else if StatusCode resp =? 400 then
    json_body UpdateJobTranspilerInfoRes_ErrorBadRequest ErrorBadRequest_Decode ErrorBadRequest_zero no_validate resp
  else if StatusCode resp =? 404 then
    json_body UpdateJobTranspilerInfoRes_ErrorNotFoundError ErrorNotFoundError_Decode ErrorNotFoundError_zero no_validate resp
  else inr (UnexpectedStatusCode (StatusCode resp)).

(** ** Encoding of requests *)

(** A request without a value keeps its empty body. *)
Definition encode_json {A} (enc : encoder (Opt A)) (req : Opt A) (r : HttpRequest) : HttpRequest + gerror :=
  if negb (Opt_Set req) then inl r else inl (SetBody (Bytes (enc req)) "application/json" r).

Definition encodePatchDeviceRequest : Opt DevicesUpdateDeviceRequest -> HttpRequest -> HttpRequest + gerror :=
  encode_json OptDevicesUpdateDeviceRequest_Encode.
Definition encodePatchDeviceInfoRequest : Opt DevicesDeviceInfoUpdate -> HttpRequest -> HttpRequest + gerror :=
  encode_json OptDevicesDeviceInfoUpdate_Encode.
Definition encodePatchDeviceStatusRequest : Opt DevicesDeviceStatusUpdate -> HttpRequest -> HttpRequest + gerror :=
  encode_json OptDevicesDeviceStatusUpdate_Encode.
Definition encodePatchJobRequest : Opt JobsJobStatusUpdate -> HttpRequest -> HttpRequest + gerror :=
  encode_json OptJobsJobStatusUpdate_Encode.
Definition encodePatchJobInfoRequest : Opt JobsUpdateJobInfoRequest -> HttpRequest -> HttpRequest + gerror :=
  encode_json OptJobsUpdateJobInfoRequest_Encode.
Definition encodeUpdateJobTranspilerInfoRequest : Opt (gmap string string) -> HttpRequest -> HttpRequest + gerror :=
  encode_json OptJobsUpdateJobTranspilerInfoRequest_Encode.

Definition encodePatchSselogRequest (req : Opt JobsUploadSselogRequestMultipart) (r : HttpRequest) : HttpRequest + gerror :=
  if negb (Opt_Set req) then inl r
  else
    let '(body, contentType) := multipart_body (JobsUploadSselogRequestMultipart_File (Opt_Value req)) in
    inl (SetBody body contentType r).

(** ** The client *)

Record Client := mkClient { serverURL : URL; sec : string -> ApiKeyAuth + gerror }.

(** [strings.TrimRight(s, "/")] *)
Definition TrimRightSlash (s : string) : string :=
  String.string_of_list_ascii (reverse
    ((fix drop l := match l with
                    | c :: l' => if Ascii.eqb c "/"%char then drop l' else l
                    | [] => []
                    end) (reverse (String.list_ascii_of_string s)))).

Definition trimTrailingSlashes (u : URL) : URL :=
  mkURL (U_Host u) (TrimRightSlash (U_Path u)) (TrimRightSlash (U_RawPath u)) (U_RawQuery u).

(** [telemetry] is the outcome of creating the instruments of the base client. *)
Definition NewClient (url : string) (source : string -> ApiKeyAuth + gerror) (telemetry : option gerror) : Client + gerror :=
  rbind (url_Parse url) (fun u =>
    match telemetry with
    | Some e => inr e
    | None => inl (mkClient (trimTrailingSlashes u) source)
    end).

Definition securityApiKeyAuth (c : Client) (operationName : string) (req : HttpRequest) : HttpRequest + gerror :=
  match sec c operationName with
  | inr e => inr (Wrap e ("security source " +:+ dq +:+ "ApiKeyAuth" +:+ dq))
  | inl t => inl (SetHeader "X-Api-Key" (ApiKeyAuth_APIKey t) req)
  end.

Definition secure (c : Client) (operationName : string) (req : HttpRequest) : HttpRequest + gerror :=
  match securityApiKeyAuth c operationName req with
  | inl r => if security_satisfied [Z.lor 0 (Z.shiftl 1 0)] then inl r else inr ErrSecurityRequirementIsNotSatisfied
  | inr e =>
      if errors_Is "skip client security" e then
        if security_satisfied [0] then inl req else inr ErrSecurityRequirementIsNotSatisfied
      else inr (Wrap e ("security " +:+ dq +:+ "ApiKeyAuth" +:+ dq))
  end.

Definition build_request (c : Client) (op method : string) (url : URL + gerror)
    (encode : HttpRequest -> HttpRequest + gerror) : HttpRequest + gerror :=
  rbind url (fun u =>
  rbind (rwrap "create request" (NewRequest method u)) (fun r =>
  rbind (rwrap "encode request" (encode r)) (fun r => secure c op r))).

Definition send {R} (c : Client) (op method : string) (url : URL + gerror)
    (encode : HttpRequest -> HttpRequest + gerror) (decode : HttpResponse -> R + gerror) (w : W) : (R + gerror) * W :=
  match build_request c op method url encode with
  | inr e => (inr e, w)
  | inl r =>
      match http_Do r w with
      | (inr e, w) => (inr (Wrap e "do request"), w)
      | (inl resp, w) => (rwrap "decode response" (decode resp), w)
      end
  end.

(** A path with one parameter between constant parts. *)
Definition param_url (c : Client) (prefix name value : string) (rest : list string) : URL + gerror :=
  rbind (rwrap "encode path" (path_encode name value)) (fun encoded =>
    inl (AddPathParts (serverURL c) (prefix :: encoded :: rest))).

Definition GetJobs_url (c : Client) (params : GetJobsParams) : URL + gerror :=
  let u := AddPathParts (serverURL c) ["/jobs"] in
  rbind (rwrap "encode query" (query_encode
    [("device_id", Some (GetJobsParams_DeviceID params));
     ("status", Opt_Get (GetJobsParams_Status params));
     ("max_results", FormatInt <$> Opt_Get (GetJobsParams_MaxResults params));
     ("timestamp", Opt_Get (GetJobsParams_Timestamp params))])) (fun q =>
    inl (mkURL (U_Host u) (U_Path u) (U_RawPath u) q)).

Definition sendGetJob (c : Client) (params : GetJobParams) : W -> (GetJobRes + gerror) * W :=
  send c "GetJob" "GET" (param_url c "/jobs/" "job_id" (GetJobParams_JobID params) []) inl decodeGetJobResponse.
Definition sendGetJobs (c : Client) (params : GetJobsParams) : W -> (GetJobsRes + gerror) * W :=
  send c "GetJobs" "GET" (GetJobs_url c params) inl decodeGetJobsResponse.
Definition sendGetSsesrc (c : Client) (params : GetSsesrcParams) : W -> (GetSsesrcRes + gerror) * W :=
  send c "GetSsesrc" "GET" (param_url c "/jobs/" "job_id" (GetSsesrcParams_JobID params) ["/ssesrc"]) inl decodeGetSsesrcResponse.
Definition sendPatchDevice (c : Client) (request : Opt DevicesUpdateDeviceRequest) (params : PatchDeviceParams)
    : W -> (PatchDeviceRes + gerror) * W :=
  send c "PatchDevice" "PATCH" (param_url c "/devices/" "device_id" (PatchDeviceParams_DeviceID params) [])
    (encodePatchDeviceRequest request) decodePatchDeviceResponse.
Definition sendPatchDeviceInfo (c : Client) (request : Opt DevicesDeviceInfoUpdate) (params : PatchDeviceInfoParams)
    : W -> (PatchDeviceInfoRes + gerror) * W :=
  send c "PatchDeviceInfo" "PATCH" (param_url c "/devices/" "device_id" (PatchDeviceInfoParams_DeviceID params) ["/device_info"])
    (encodePatchDeviceInfoRequest request) decodePatchDeviceInfoResponse.
Definition sendPatchDeviceStatus (c : Client) (request : Opt DevicesDeviceStatusUpdate) (params : PatchDeviceStatusParams)
    : W -> (PatchDeviceStatusRes + gerror) * W :=
  send c "PatchDeviceStatus" "PATCH" (param_url c "/devices/" "device_id" (PatchDeviceStatusParams_DeviceID params) ["/status"])
    (encodePatchDeviceStatusRequest request) decodePatchDeviceStatusResponse.
Definition sendPatchJob (c : Client) (request : Opt JobsJobStatusUpdate) (params : PatchJobParams)
    : W -> (PatchJobRes + gerror) * W :=
  send c "PatchJob" "PATCH" (param_url c "/jobs/" "job_id" (PatchJobParams_JobID params) ["/status"])
    (encodePatchJobRequest request) decodePatchJobResponse.
Definition sendPatchJobInfo (c : Client) (request : Opt JobsUpdateJobInfoRequest) (params : PatchJobInfoParams)
    : W -> (PatchJobInfoRes + gerror) * W :=
  send c "PatchJobInfo" "PATCH" (param_url c "/jobs/" "job_id" (PatchJobInfoParams_JobID params) ["/job_info"])
    (encodePatchJobInfoRequest request) decodePatchJobInfoResponse.
Definition sendPatchSselog (c : Client) (request : Opt JobsUploadSselogRequestMultipart) (params : PatchSselogParams)
    : W -> (PatchSselogRes + gerror) * W :=
  send c "PatchSselog" "PATCH" (param_url c "/jobs/" "job_id" (PatchSselogParams_JobID params) ["/sselog"])
    (encodePatchSselogRequest request) decodePatchSselogResponse.
Definition sendUpdateJobTranspilerInfo (c : Client) (request : Opt (gmap string string)) (params : UpdateJobTranspilerInfoParams)
    : W -> (UpdateJobTranspilerInfoRes + gerror) * W :=
  send c "UpdateJobTranspilerInfo" "PUT" (param_url c "/jobs/" "job_id" (UpdateJobTranspilerInfoParams_JobID params) ["/transpiler_info"])
    (encodeUpdateJobTranspilerInfoRequest request) decodeUpdateJobTranspilerInfoResponse.

(** ** What is sent *)

Lemma send_log {R} (c : Client) op method url encode (decode : HttpResponse -> R + gerror) (w : W) :
  http_log (send c op method url encode decode w).2 =
  http_log w ++ match build_request c op method url encode with inl r => [r] | inr _ => [] end.
Proof.
  unfold send. destruct (build_request c op method url encode) as [r|e]; cbn; [|by rewrite app_nil_r].
  pose proof (http_log_Do r w) as Hl. by destruct (http_Do r w) as [[resp|e] w'].
Qed.

Lemma secure_inl c op req r : secure c op req = inl r ->
  exists k, sec c op = inl k /\ r = SetHeader "X-Api-Key" (ApiKeyAuth_APIKey k) req.
Proof.
  unfold secure, securityApiKeyAuth. destruct (sec c op) as [k|e].
  - change (security_satisfied [Z.lor 0 (Z.shiftl 1 0)]) with true. cbn. intros [= <-]. eauto.
  - change (security_satisfied [0]) with false. by destruct (errors_Is _ _).
Qed.

Lemma build_request_inl c op method url encode r : build_request c op method url encode = inl r ->
  exists u r0 r1, url = inl u /\ NewRequest method u = inl r0 /\ encode r0 = inl r1 /\ secure c op r1 = inl r.
Proof.
  unfold build_request. intros H. destruct url as [u|]; [|done]. cbn in H.
  destruct (NewRequest method u) as [r0|] eqn:E0; [|done]. cbn in H.
  destruct (encode r0) as [r1|] eqn:E1; [|done]. eauto 10.
Qed.

(** C28: No call leaves without the key: whatever the operation, its URL, its body
    and the answer, a call sends at most one request, and the one it sends
    carries the key the security source gave for that operation; nothing is sent
    when the source has none. *)
Theorem no_request_without_key {R} (c : Client) op method url encode (decode : HttpResponse -> R + gerror) (w : W) :
  match sec c op with
  | inr _ => http_log (send c op method url encode decode w).2 = http_log w
  | inl k => exists sent, http_log (send c op method url encode decode w).2 = http_log w ++ sent /\
      (length sent <= 1)%nat /\
      Forall (fun r => Header r !! "X-Api-Key" = Some (ApiKeyAuth_APIKey k)) sent
  end.
Proof.
  rewrite send_log. destruct (build_request c op method url encode) as [r|e] eqn:E.
  - apply build_request_inl in E as (u & r0 & r1 & _ & _ & _ & H).
    apply secure_inl in H as (k & -> & ->). eexists. split; [reflexivity|]. split; [done|].
    apply Forall_singleton. cbn. by rewrite lookup_insert_eq.
  - destruct (sec c op); [|by rewrite app_nil_r]. exists []. split_and!; [done|cbn; lia|constructor].
Qed.

(** ** What is received *)

(** The response [resp] carries the text of [cs] as JSON. *)
Definition carries (resp : HttpResponse) (code : Z) (cs : list jx_call) : Prop :=
  StatusCode resp = code /\ ParseMediaType (ContentType resp) = inl "application/json" /\ Body resp = inl (Bytes cs).

Lemma json_body_codec {A R} (ret : A -> R) (enc : encoder A) dec zero ok norm validate resp code v :
  codec enc dec zero ok norm -> ok v -> fits (enc v) -> carries resp code (enc v) ->
  json_body ret dec zero validate resp =
  match validate (norm v) with None => inl (ret (norm v)) | Some e => inr (Wrap e "validate") end.
Proof.
  intros H Hv Hf (_ & Hct & Hb). unfold json_body, typed_body, rwrap, rbind. rewrite Hct, Hb.
  change (String.eqb "application/json" "application/json") with true. cbn iota.
  destruct (H v Hv) as (Hr & Hj & _).
  destruct (Hr (DecodeBytes (Bytes (enc v))) []) as (d' & Hdec & Hd'); [rewrite app_nil_r; by apply at_start|].
  rewrite Hdec. destruct (at_eof _ Hd') as (d2 & Hd2). by rewrite Hd2.
Qed.
Context {DL : DateTimeLaws D} {NL : NumberValidatorLaws}.

(** All of [l] is handed on when the API allows all of it; else there is an
    error. *)
Definition handed_on (l : list JobsJobDef) (r : GetJobsRes + gerror) : Prop :=
  match r with
  | inl (GetJobsRes_GetJobsOKApplicationJSON got) => got = Some l /\ Forall job_def_valid l
  | inl _ => False
  | inr _ => Exists (fun v => ~ job_def_valid v) l
  end.

(** C18: The poll is all or nothing.  Of an answer with the text of job
    definitions, every definition is handed on, in order, exactly when each is
    allowed by the API; if one is not, the whole call is an error. *)
Theorem poll_all_or_nothing resp l : Forall JobsJobDef_ok l -> fits (GetJobsOKApplicationJSON_Encode (Some l)) ->
  carries resp 200 (GetJobsOKApplicationJSON_Encode (Some l)) ->
  handed_on (JobsJobDef_norm <$> l) (decodeGetJobsResponse resp).
Proof.
  intros Hl Hf Hc. unfold decodeGetJobsResponse. rewrite (proj1 Hc). change (200 =? 200) with true. cbn iota.
  rewrite (json_body_codec _ _ _ _ _ _ _ _ _ _ JobsJobDefs_codec (Hl : slice_ok _ (Some l)) Hf Hc).
  change (slice_norm JobsJobDef_norm (Some l)) with (Some (JobsJobDef_norm <$> l)).
  destruct (GetJobsOKApplicationJSON_Validate _) as [e|] eqn:E.
  - apply not_Forall_Exists; [intros v; apply job_def_valid_dec|]. intros Hall.
    enough (GetJobsOKApplicationJSON_Validate (Some (JobsJobDef_norm <$> l)) = None) by congruence.
    apply jobs_validate. eauto.
  - apply jobs_validate in E as (l' & [= <-] & Hall). done.
Qed.
End client.

(** ** A client and a world *)

Module ApiClientExample.
#[local] Existing Instance canonical_range.
Export ApiValidateExample.

(** A cloud that answers by a table, and the requests it got. *)
Record world := mkWorld { answer : HttpRequest -> HttpResponse + gerror; received : list HttpRequest }.

#[export] Instance http : HttpClient world := {|
  http_Do r w := (answer w r, mkWorld (answer w) (received w ++ [r]));
  http_log := received;
  http_log_Do _ _ := eq_refl
|}.

(** Texts without characters to escape. *)
#[export] Instance uri : UriLib := {|
  path_encode _ v := if String.eqb v "" then inr (Err "empty") else inl v;
  AddPathParts u parts := mkURL (U_Host u) (U_Path u +:+ Join parts "") (U_RawPath u) (U_RawQuery u);
  query_encode ps := inl (Join (ps ≫= fun p => match p.2 with Some v => [p.1 +:+ "=" +:+ v] | None => [] end) "&");
  url_Parse s := inl (mkURL s "/" "" "");
  NewRequest method u := inl (mkHttpRequest method u ∅ None)
|}.

#[export] Instance mime : Mime := {|
  ParseMediaType v := if String.eqb v "" then inr (Err "mime: no media type") else inl v;
  multipart_body f := (MF_File f, "multipart/form-data")
|}.

Definition key : string -> ApiKeyAuth + gerror := fun _ => inl (mkApiKeyAuth "secret").
Definition client : Client := mkClient (mkURL "http://cloud" "" "" "") key.
Definition json_response (code : Z) (cs : list jx_call) : HttpResponse :=
  mkHttpResponse code "application/json" (inl (Bytes cs)).

(** The poll of the engine. *)
Definition poll_params : GetJobsParams :=
  mkGetJobsParams "qpu" (NewOpt "submitted") (NewOpt 10) (Opt_zero "").
Definition cloud (l : list JobsJobDef) : world :=
  mkWorld (fun _ => inl (json_response 200 (GetJobsOKApplicationJSON_Encode (Some l)))) [].

Lemma no_request_without_key_witness :
  exists sent, http_log (sendGetJobs (D := text_decoder) client poll_params (cloud [])).2 = [] ++ sent /\
    (length sent <= 1)%nat /\ Forall (fun r => Header r !! "X-Api-Key" = Some "secret") sent.
Proof.
  exact (no_request_without_key client "GetJobs" "GET" (GetJobs_url client poll_params) inl
    (decodeGetJobsResponse (D := text_decoder)) (cloud [])).
Defined.

(** Of two definitions, the second without shots. *)
Definition no_shots : JobsJobDef := JobsJobDef_SetShots 0 ApiExample.job.

Lemma no_shots_ok : JobsJobDef_ok no_shots.
Proof. unfold JobsJobDef_ok. cbn -[OptNil_ok Opt_ok]. ApiExample.eval_ok. Qed.

Lemma json_response_carries code cs : carries (json_response code cs) code cs.
Proof. unfold carries, json_response. cbn [StatusCode ContentType Body]. split_and!; reflexivity. Qed.

Lemma poll_all_or_nothing_witness :
  handed_on (JobsJobDef_norm <$> [ApiExample.job; ApiExample.job])
    (decodeGetJobsResponse (json_response 200 (GetJobsOKApplicationJSON_Encode (Some [ApiExample.job; ApiExample.job])))) /\
  handed_on (JobsJobDef_norm <$> [ApiExample.job; no_shots])
    (decodeGetJobsResponse (json_response 200 (GetJobsOKApplicationJSON_Encode (Some [ApiExample.job; no_shots])))).
Proof.
  split.
  - refine (poll_all_or_nothing (D := text_decoder) _ [ApiExample.job; ApiExample.job] _ _ (json_response_carries _ _)).
    + by rewrite !Forall_cons; auto using ApiExample.job_ok.
    + ApiExample.eval_fits.
  - refine (poll_all_or_nothing (D := text_decoder) _ [ApiExample.job; no_shots] _ _ (json_response_carries _ _)).
    + by rewrite !Forall_cons; auto using ApiExample.job_ok, no_shots_ok.
    + ApiExample.eval_fits.
Defined.
End ApiClientExample.
