(* ===== verification/ApiServer.v ===== *)
(** * The server of the provider API (oas/gen/providerapi/oas_server_gen.go)

    Every operation of the API as the generated server answers it: security,
    parameters, body, the handler behind the middleware, the response
    (oas_handlers_gen.go, oas_parameters_gen.go, oas_request_decoders_gen.go,
    oas_response_encoders_gen.go, oas_security_gen.go, oas_unimplemented_gen.go).
    [handle] is the body the generated handlers share, in the order of its
    stages; [Server_ServeHTTP] puts the router in front.  Metrics, traces and the
    results of closing a request are left out.

    The handler ([Handler]) and the security handler are the user's; the
    response writer, the middleware, the decoders of parameters and of forms are
    library code, given as classes. *)

From stdpp Require Import base gmap strings list.
From Stdlib Require Import ZArith Lia.
From S2P Require Import Prelude GoString Json Jx JxText ApiSchemas ApiCodec ApiJson ApiValidate ApiHttp ApiRouter ApiClient.

(** ** Requests as the server sees them *)

Record ServerRequest := mkServerRequest {
  S_Method : string;
  S_URL : URL;
  S_Header : gmap string (list string);
  ContentLength : Z;
  S_Body : string + gerror
}.

(** [r.Header.Get] of a canonical key. *)
Definition Header_Get (r : ServerRequest) (k : string) : string := default "" (S_Header r !! k ≫= head).

(** Query and path parameters, and their conversion. *)
Class UriDecoders := {
  q_HasParam : URL -> string -> option gerror;
  q_DecodeValue : URL -> string -> string + gerror;
  path_DecodeValue : string -> string -> string + gerror;
  conv_ToString : string -> string + gerror;
  conv_ToInt : string -> Z + gerror
}.

(** A parsed form: its files by field, what [Open] of one gives, and what the
    closers answer; [multierr.Append]. *)
Record FileHeader := mkFileHeader { Filename : string; Open : string + gerror; f_Close : option gerror }.
Record MultipartForm := mkMultipartForm { F_File : gmap string (list FileHeader); RemoveAll : option gerror }.
Class Forms := {
  ParseMultipartForm : Z -> ServerRequest -> MultipartForm + gerror;
  multierr_Append : option gerror -> option gerror -> option gerror
}.

(** [http.ResponseWriter]. *)
Class ResponseWriter (Wr : Type) := {
  w_Header_Set : string -> string -> Wr -> Wr;
  w_WriteHeader : Z -> Wr -> Wr;
  w_Write : string -> Wr -> option gerror * Wr
}.

(** ** Parameters for the middleware: a map of values of any type *)

Inductive param_value :=
| PString (s : string)
| POptJobsJobStatus (o : Opt string)
| POptInt (o : Opt Z)
| POptString (o : Opt string).
Definition Parameters : Type := list (string * string * param_value).

Definition packed_get (ps : Parameters) (name in_ : string) : option param_value :=
  snd <$> find (fun p => bool_decide (p.1 = (name, in_))) ps.

(** The type assertions: [None] is a panic; an absent key of an optional
    parameter keeps the zero value. *)
Definition assert_string (v : option param_value) : option string :=
  match v with Some (PString s) => Some s | _ => None end.
Definition assert_opt {A} (zero : A) (get : param_value -> option (Opt A)) (v : option param_value)
    : option (Opt A) :=
  match v with None => Some (Opt_zero zero) | Some v => get v end.

Definition packGetJobParams (params : GetJobParams) : Parameters :=
  [("job_id", "path", PString (GetJobParams_JobID params))].
Definition unpackGetJobParams (packed : Parameters) : option GetJobParams :=
  JobID ← assert_string (packed_get packed "job_id" "path");
  Some (mkGetJobParams JobID).
Definition packGetJobsParams (params : GetJobsParams) : Parameters :=
  [("device_id", "query", PString (GetJobsParams_DeviceID params));
   ("status", "query", POptJobsJobStatus (GetJobsParams_Status params));
   ("max_results", "query", POptInt (GetJobsParams_MaxResults params));
   ("timestamp", "query", POptString (GetJobsParams_Timestamp params))].
Definition unpackGetJobsParams (packed : Parameters) : option GetJobsParams :=
  DeviceID ← assert_string (packed_get packed "device_id" "query");
  Status ← assert_opt "" (fun v => match v with POptJobsJobStatus o => Some o | _ => None end)
     (packed_get packed "status" "query");
  MaxResults ← assert_opt 0 (fun v => match v with POptInt o => Some o | _ => None end)
     (packed_get packed "max_results" "query");
  Timestamp ← assert_opt "" (fun v => match v with POptString o => Some o | _ => None end)
     (packed_get packed "timestamp" "query");
  Some (mkGetJobsParams DeviceID Status MaxResults Timestamp).
Definition packGetSsesrcParams (params : GetSsesrcParams) : Parameters :=
  [("job_id", "path", PString (GetSsesrcParams_JobID params))].
Definition unpackGetSsesrcParams (packed : Parameters) : option GetSsesrcParams :=
  JobID ← assert_string (packed_get packed "job_id" "path");
  Some (mkGetSsesrcParams JobID).
Definition packPatchDeviceParams (params : PatchDeviceParams) : Parameters :=
  [("device_id", "path", PString (PatchDeviceParams_DeviceID params))].
Definition unpackPatchDeviceParams (packed : Parameters) : option PatchDeviceParams :=
  DeviceID ← assert_string (packed_get packed "device_id" "path");
  Some (mkPatchDeviceParams DeviceID).
Definition packPatchDeviceInfoParams (params : PatchDeviceInfoParams) : Parameters :=
  [("device_id", "path", PString (PatchDeviceInfoParams_DeviceID params))].
Definition unpackPatchDeviceInfoParams (packed : Parameters) : option PatchDeviceInfoParams :=
  DeviceID ← assert_string (packed_get packed "device_id" "path");
  Some (mkPatchDeviceInfoParams DeviceID).
Definition packPatchDeviceStatusParams (params : PatchDeviceStatusParams) : Parameters :=
  [("device_id", "path", PString (PatchDeviceStatusParams_DeviceID params))].
Definition unpackPatchDeviceStatusParams (packed : Parameters) : option PatchDeviceStatusParams :=
  DeviceID ← assert_string (packed_get packed "device_id" "path");
  Some (mkPatchDeviceStatusParams DeviceID).
Definition packPatchJobParams (params : PatchJobParams) : Parameters :=
  [("job_id", "path", PString (PatchJobParams_JobID params))].
Definition unpackPatchJobParams (packed : Parameters) : option PatchJobParams :=
  JobID ← assert_string (packed_get packed "job_id" "path");
  Some (mkPatchJobParams JobID).
Definition packPatchJobInfoParams (params : PatchJobInfoParams) : Parameters :=
  [("job_id", "path", PString (PatchJobInfoParams_JobID params))].
Definition unpackPatchJobInfoParams (packed : Parameters) : option PatchJobInfoParams :=
  JobID ← assert_string (packed_get packed "job_id" "path");
  Some (mkPatchJobInfoParams JobID).
Definition packPatchSselogParams (params : PatchSselogParams) : Parameters :=
  [("job_id", "path", PString (PatchSselogParams_JobID params))].
Definition unpackPatchSselogParams (packed : Parameters) : option PatchSselogParams :=
  JobID ← assert_string (packed_get packed "job_id" "path");
  Some (mkPatchSselogParams JobID).
Definition packUpdateJobTranspilerInfoParams (params : UpdateJobTranspilerInfoParams) : Parameters :=
  [("job_id", "path", PString (UpdateJobTranspilerInfoParams_JobID params))].
Definition unpackUpdateJobTranspilerInfoParams (packed : Parameters) : option UpdateJobTranspilerInfoParams :=
  JobID ← assert_string (packed_get packed "job_id" "path");
  Some (mkUpdateJobTranspilerInfoParams JobID).

(** A middleware and the third-party function that runs it around a handler:
    [Ctx] is the context, [H] the state of the handlers. *)
Record MiddlewareRequest (Ctx : Type) := mkMiddlewareRequest {
  MR_Context : Ctx; MR_OperationName : string; MR_OperationSummary : string; MR_OperationID : string;
  MR_Params : Parameters; MR_Raw : ServerRequest
}.
Arguments mkMiddlewareRequest {Ctx}.
Class Middlewares (Ctx H : Type) := {
  Middleware : Type;
  HookMiddleware : forall Req Params Resp : Type, Middleware -> MiddlewareRequest Ctx -> Req ->
    (Parameters -> option Params) -> (Ctx -> Req -> Params -> H -> (Resp + gerror) * H) ->
    H -> outcome ((Resp + gerror) * H)
}.
Arguments HookMiddleware {Ctx H _ Req Params Resp}.

(** ** The user's side: a response may be the nil interface *)

Section server.
Context {D : Type} {J : JxDecoder D} {L : JxLaws D} {DT : DateTime D} {MR : MapRange}.
Context {NV : NumberValidators} {MI : Mime} {UP : UriPaths} {UD : UriDecoders} {FO : Forms}.
Context {Wr : Type} {RW : ResponseWriter Wr} {Ctx H : Type} {MW : Middlewares Ctx H}.

Record Handler := mkHandler {
  h_GetJob : Ctx -> GetJobParams -> H -> (option GetJobRes + gerror) * H;
  h_GetJobs : Ctx -> GetJobsParams -> H -> (option GetJobsRes + gerror) * H;
  h_GetSsesrc : Ctx -> GetSsesrcParams -> H -> (option GetSsesrcRes + gerror) * H;
  h_PatchDevice : Ctx -> Opt DevicesUpdateDeviceRequest -> PatchDeviceParams
     -> H -> (option PatchDeviceRes + gerror) * H;
  h_PatchDeviceInfo : Ctx -> Opt DevicesDeviceInfoUpdate -> PatchDeviceInfoParams
     -> H -> (option PatchDeviceInfoRes + gerror) * H;
  h_PatchDeviceStatus : Ctx -> Opt DevicesDeviceStatusUpdate -> PatchDeviceStatusParams
     -> H -> (option PatchDeviceStatusRes + gerror) * H;
  h_PatchJob : Ctx -> Opt JobsJobStatusUpdate -> PatchJobParams -> H -> (option PatchJobRes + gerror) * H;
  h_PatchJobInfo : Ctx -> Opt JobsUpdateJobInfoRequest -> PatchJobInfoParams
     -> H -> (option PatchJobInfoRes + gerror) * H;
  h_PatchSselog : Ctx -> Opt JobsUploadSselogRequestMultipart -> PatchSselogParams
     -> H -> (option PatchSselogRes + gerror) * H;
  h_UpdateJobTranspilerInfo : Ctx -> Opt (gmap string string) -> UpdateJobTranspilerInfoParams
     -> H -> (option UpdateJobTranspilerInfoRes + gerror) * H
}.

Definition SecurityHandler : Type := Ctx -> string -> ApiKeyAuth -> H -> (Ctx + gerror) * H.

Record serverConfig := mkServerConfig {
  cfg_NotFound : ServerRequest -> Wr -> Wr;
  cfg_MethodNotAllowed : ServerRequest -> string -> Wr -> Wr;
  cfg_ErrorHandler : Ctx -> ServerRequest -> gerror -> Wr -> Wr;
  cfg_Prefix : string;
  cfg_Middleware : option Middleware;
  cfg_MaxMultipartMemory : Z
}.

(** The default of [MethodNotAllowed]. *)
Definition default_MethodNotAllowed (r : ServerRequest) (allowed : string) (w : Wr) : Wr :=
  if String.eqb (S_Method r) "OPTIONS" then
    w_WriteHeader 204 (w_Header_Set "Access-Control-Allow-Headers" "Content-Type"
      (w_Header_Set "Access-Control-Allow-Methods" allowed w))
  else w_WriteHeader 405 (w_Header_Set "Allow" allowed w).

Definition newServerConfig (notFound : ServerRequest -> Wr -> Wr) (errorHandler
    : Ctx -> ServerRequest -> gerror -> Wr -> Wr)
    (opts : list (serverConfig -> serverConfig)) : serverConfig :=
  foldl (fun cfg opt => opt cfg)
    (mkServerConfig notFound default_MethodNotAllowed errorHandler "" None (Z.shiftl 32 20)) opts.

Record Server := mkServer { S_h : Handler; S_sec : SecurityHandler; S_cfg : serverConfig }.

(** [telemetry] is the outcome of creating the instruments of the base server. *)
Definition NewServer (h : Handler) (sec : SecurityHandler) (cfg : serverConfig) (telemetry : option gerror)
    : Server + gerror :=
  match telemetry with Some e => inr e | None => inl (mkServer h sec cfg) end.

(** ** Security (oas_security_gen.go) *)

(** The context and whether the scheme is satisfied. *)
Definition Server_securityApiKeyAuth (s : Server) (ctx : Ctx) (operationName : string) (req : ServerRequest) (h : H)
    : (option Ctx * bool + gerror) * H :=
  let value := Header_Get req "X-Api-Key" in
  if String.eqb value "" then (inl (Some ctx, false), h)
  else
    match S_sec s ctx operationName (ApiKeyAuth_SetAPIKey value (mkApiKeyAuth "")) h with
    | (inr err, h) => if errors_Is "skip server security" err then (inl (None, false), h) else (inr err, h)
    | (inl rctx, h) => (inl (Some rctx, true), h)
    end.

(** The error, or the context to go on with. *)
Definition server_secure (s : Server) (ctx : Ctx) (operationName : string) (req : ServerRequest) (h : H)
    : (Ctx + gerror) * H :=
  match Server_securityApiKeyAuth s ctx operationName req h with
  | (inr err, h) => (inr (SecurityError operationName "ApiKeyAuth" err), h)
  | (inl (sctx, ok), h) =>
      let satisfied := if ok then [Z.lor 0 (Z.shiftl 1 0)] else [0] in
      let ctx := if ok then default ctx sctx else ctx in
      if security_satisfied satisfied then (inl ctx, h)
      else (inr (SecurityError operationName "" ErrSecurityRequirementIsNotSatisfied), h)
  end.

(** ** Parameters (oas_parameters_gen.go) *)

Definition param_error {A} (name in_ : string) (r : A + gerror) : A + gerror :=
  match r with inl a => inl a | inr e => inr (DecodeParamError name in_ e) end.

Definition decode_path (name arg : string) (argsEscaped : bool) : string + gerror :=
  param_error name "path"
    (rbind (if argsEscaped then rwrap "unescape path" (PathUnescape arg) else inl arg) (fun param =>
       if 0 <? len param then rbind (path_DecodeValue name param) conv_ToString else inr ErrFieldRequired)).

(** A query parameter, [None] when it is absent. *)
Definition decode_query {A} (u : URL) (name : string) (conv : string -> A + gerror) : option A + gerror :=
  match q_HasParam u name with
  | Some _ => inl None
  | None => rmap Some (rbind (q_DecodeValue u name) conv)
  end.
Definition opt_param {A} (zero : A) (o : option A) : Opt A :=
  match o with Some a => Opt_SetTo a (Opt_zero zero) | None => Opt_zero zero end.

Definition decodeGetJobsParams (r : ServerRequest) : GetJobsParams + gerror :=
  let u := S_URL r in
  rbind (param_error "device_id" "query"
           (rbind (decode_query u "device_id" conv_ToString) (fun o =>
              match o with Some v => inl v | None => inr ErrFieldRequired end))) (fun DeviceID =>
  rbind (param_error "status" "query"
           (rbind (decode_query u "status" conv_ToString) (fun o =>
              match when_set o JobsJobStatus_Validate with None => inl o | Some e => inr e end))) (fun Status =>
  rbind (param_error "max_results" "query" (decode_query u "max_results" conv_ToInt)) (fun MaxResults =>
  rbind (param_error "timestamp" "query" (decode_query u "timestamp" conv_ToString)) (fun Timestamp =>
  inl (mkGetJobsParams DeviceID (opt_param "" Status) (opt_param 0 MaxResults) (opt_param "" Timestamp)))))).

Definition decodeGetJobParams (arg : string) (argsEscaped : bool) (r : ServerRequest) : GetJobParams + gerror :=
  rmap mkGetJobParams (decode_path "job_id" arg argsEscaped).
Definition decodeGetSsesrcParams (arg : string) (argsEscaped : bool) (r : ServerRequest) : GetSsesrcParams + gerror :=
  rmap mkGetSsesrcParams (decode_path "job_id" arg argsEscaped).
Definition decodePatchDeviceParams (arg : string) (argsEscaped : bool) (r : ServerRequest)
    : PatchDeviceParams + gerror :=
  rmap mkPatchDeviceParams (decode_path "device_id" arg argsEscaped).
Definition decodePatchDeviceInfoParams (arg : string) (argsEscaped : bool) (r : ServerRequest)
    : PatchDeviceInfoParams + gerror :=
  rmap mkPatchDeviceInfoParams (decode_path "device_id" arg argsEscaped).
Definition decodePatchDeviceStatusParams (arg : string) (argsEscaped : bool) (r : ServerRequest)
    : PatchDeviceStatusParams + gerror :=
  rmap mkPatchDeviceStatusParams (decode_path "device_id" arg argsEscaped).
Definition decodePatchJobParams (arg : string) (argsEscaped : bool) (r : ServerRequest) : PatchJobParams + gerror :=
  rmap mkPatchJobParams (decode_path "job_id" arg argsEscaped).
Definition decodePatchJobInfoParams (arg : string) (argsEscaped : bool) (r : ServerRequest)
    : PatchJobInfoParams + gerror :=
  rmap mkPatchJobInfoParams (decode_path "job_id" arg argsEscaped).
Definition decodePatchSselogParams (arg : string) (argsEscaped : bool) (r : ServerRequest)
    : PatchSselogParams + gerror :=
  rmap mkPatchSselogParams (decode_path "job_id" arg argsEscaped).
Definition decodeUpdateJobTranspilerInfoParams (arg : string) (argsEscaped : bool) (r : ServerRequest)
    : UpdateJobTranspilerInfoParams + gerror :=
  rmap mkUpdateJobTranspilerInfoParams (decode_path "job_id" arg argsEscaped).

(** ** Bodies (oas_request_decoders_gen.go) *)

(** The closers answer in reverse order; their errors join the error of the
    request. *)
Definition close_all (closers : list (option gerror)) : option gerror :=
  foldr (fun c merr => multierr_Append merr c) None closers.
Definition with_closers {A} (closers : list (option gerror)) (r : A + gerror) : A + gerror :=
  match r with
  | inl a => inl a
  | inr rerr => inr (default rerr (multierr_Append (Some rerr) (close_all closers)))
  end.

(** The media type of a body; [None] when there is no body to decode. *)
Definition request_type (want : string) (r : ServerRequest) : option string + gerror :=
  if bool_decide (S_Header r !! "Content-Type" = None) && (ContentLength r =? 0) then inl None
  else
    rbind (rwrap "parse media type" (ParseMediaType (Header_Get r "Content-Type"))) (fun ct =>
      if String.eqb ct want then inl (if ContentLength r =? 0 then None else Some ct) else inr (InvalidContentType ct)).

(** An absent body is the unset value. *)
Definition json_request {A} (zero : A) (dec : decoder D (Opt A)) (validate : A -> option gerror) (r : ServerRequest)
    : Opt A + gerror :=
  with_closers []
    (rbind (request_type "application/json" r) (fun t =>
       match t with
       | None => inl (Opt_zero zero)
       | Some ct =>
           rbind (S_Body r) (fun buf =>
             if len buf =? 0 then inl (Opt_zero zero)
             else
               let '(e, d, request) := dec (DecodeBytes buf) (Opt_Reset zero (Opt_zero zero)) in
               match e with
               | Some e => inr (DecodeBodyError ct buf e)
               | None =>
                   if is_EOF (d_Skip d).1 then
                     match when_set (Opt_Get request) validate with
                     | Some e => inr (Wrap e "validate")
                     | None => inl request
                     end
                   else inr (DecodeBodyError ct buf (Err "unexpected trailing data"))
               end)
       end)).

Definition decodePatchDeviceRequest (s : Server) : ServerRequest -> Opt DevicesUpdateDeviceRequest + gerror :=
  json_request DevicesUpdateDeviceRequest_zero OptDevicesUpdateDeviceRequest_Decode no_validate.
Definition decodePatchDeviceInfoRequest (s : Server) : ServerRequest -> Opt DevicesDeviceInfoUpdate + gerror :=
  json_request DevicesDeviceInfoUpdate_zero OptDevicesDeviceInfoUpdate_Decode no_validate.
Definition decodePatchDeviceStatusRequest (s : Server) : ServerRequest -> Opt DevicesDeviceStatusUpdate + gerror :=
  json_request DevicesDeviceStatusUpdate_zero OptDevicesDeviceStatusUpdate_Decode DevicesDeviceStatusUpdate_Validate.
Definition decodePatchJobRequest (s : Server) : ServerRequest -> Opt JobsJobStatusUpdate + gerror :=
  json_request JobsJobStatusUpdate_zero OptJobsJobStatusUpdate_Decode JobsJobStatusUpdate_Validate.
Definition decodePatchJobInfoRequest (s : Server) : ServerRequest -> Opt JobsUpdateJobInfoRequest + gerror :=
  json_request JobsUpdateJobInfoRequest_zero OptJobsUpdateJobInfoRequest_Decode JobsUpdateJobInfoRequest_Validate.
Definition decodeUpdateJobTranspilerInfoRequest (s : Server) : ServerRequest -> Opt (gmap string string) + gerror :=
  json_request ∅ OptJobsUpdateJobTranspilerInfoRequest_Decode no_validate.

Definition decodePatchSselogRequest (s : Server) (r : ServerRequest)
    : Opt JobsUploadSselogRequestMultipart + gerror :=
  let unset := Opt_zero JobsUploadSselogRequestMultipart_zero in
  match request_type "multipart/form-data" r with
  | inr e => with_closers [] (inr e)
  | inl None => inl unset
  | inl (Some _) =>
      match ParseMultipartForm (cfg_MaxMultipartMemory (S_cfg s)) r with
      | inr e => with_closers [] (inr (Wrap e "parse multipart form"))
      | inl form =>
          let failed e closers := with_closers closers (inr (Wrap e ("decode " +:+ dq +:+ "file" +:+ dq))) in
          match F_File form !! "file" with
          | None | Some [] => failed ErrFieldRequired [RemoveAll form]
          | Some (fh :: _) =>
              match Open fh with
              | inr e => failed (Wrap e "open") [RemoveAll form]
              | inl f => inl (NewOpt (mkJobsUploadSselogRequestMultipart (mkMultipartFile (Filename fh) f)))
              end
          end
      end
  end.

(** ** Responses (oas_response_encoders_gen.go) *)

Definition write_body (contentType : string) (code : Z) (body : string) (w : Wr) : option gerror * Wr :=
  let w := w_WriteHeader code (w_Header_Set "Content-Type" contentType w) in
  let '(e, w) := w_Write body w in (wrap_opt e "write", w).
Definition write_json {A} (code : Z) (enc : encoder A) (response : A) : Wr -> option gerror * Wr :=
  write_body "application/json; charset=utf-8" code (Bytes (enc response)).
Definition write_text (code : Z) : string -> Wr -> option gerror * Wr := write_body "text/plain; charset=utf-8" code.
Definition unexpected_response (w : Wr) : option gerror * Wr := (Some (Err "unexpected response type: <nil>"), w).

Definition encodeGetJobResponse (response : option GetJobRes) : Wr -> option gerror * Wr :=
  match response with
  | Some (GetJobRes_JobsJobDef response) => write_json 200 JobsJobDef_Encode response
  | Some (GetJobRes_ErrorBadRequest response) => write_json 400 ErrorBadRequest_Encode response
  | Some (GetJobRes_ErrorNotFoundError response) => write_json 404 ErrorNotFoundError_Encode response
  | None => unexpected_response
  end.
Definition encodeGetJobsResponse (response : option GetJobsRes) : Wr -> option gerror * Wr :=
  match response with
  | Some (GetJobsRes_GetJobsOKApplicationJSON response) => write_json 200 GetJobsOKApplicationJSON_Encode response
  | Some (GetJobsRes_ErrorBadRequest response) => write_json 400 ErrorBadRequest_Encode response
  | Some (GetJobsRes_ErrorInternalServerError response) => write_json 500 ErrorInternalServerError_Encode response
  | None => unexpected_response
  end.
Definition encodeGetSsesrcResponse (response : option GetSsesrcRes) : Wr -> option gerror * Wr :=
  match response with
  | Some (GetSsesrcRes_GetSsesrcOK response) => write_text 200 (default "" (GetSsesrcOK_Data response))
  | Some (GetSsesrcRes_ErrorBadRequest response) => write_json 400 ErrorBadRequest_Encode response
  | Some (GetSsesrcRes_ErrorNotFoundError response) => write_json 404 ErrorNotFoundError_Encode response
  | Some (GetSsesrcRes_ErrorInternalServerError response) => write_json 500 ErrorInternalServerError_Encode response
  | None => unexpected_response
  end.
Definition encodePatchDeviceResponse (response : option PatchDeviceRes) : Wr -> option gerror * Wr :=
  match response with
  | Some (PatchDeviceRes_DevicesUpdateDeviceResponse response) => write_json 200 DevicesUpdateDeviceResponse_Encode response
  | Some (PatchDeviceRes_ErrorBadRequest response) => write_json 400 ErrorBadRequest_Encode response
  | Some (PatchDeviceRes_ErrorNotFoundError response) => write_json 404 ErrorNotFoundError_Encode response
  | Some (PatchDeviceRes_ErrorInternalServerError response) => write_json 500 ErrorInternalServerError_Encode response
  | None => unexpected_response
  end.
Definition encodePatchDeviceInfoResponse (response : option PatchDeviceInfoRes) : Wr -> option gerror * Wr :=
  match response with
  | Some (PatchDeviceInfoRes_DevicesDeviceDataUpdateResponse response) => write_json 200 DevicesDeviceDataUpdateResponse_Encode response
  | Some (PatchDeviceInfoRes_ErrorBadRequest response) => write_json 400 ErrorBadRequest_Encode response
  | Some (PatchDeviceInfoRes_ErrorNotFoundError response) => write_json 404 ErrorNotFoundError_Encode response
  | Some (PatchDeviceInfoRes_ErrorInternalServerError response) => write_json 500 ErrorInternalServerError_Encode response
  | None => unexpected_response
  end.
Definition encodePatchDeviceStatusResponse (response : option PatchDeviceStatusRes) : Wr -> option gerror * Wr :=
  match response with
  | Some (PatchDeviceStatusRes_DevicesDeviceDataUpdateResponse response) => write_json 200 DevicesDeviceDataUpdateResponse_Encode response
  | Some (PatchDeviceStatusRes_ErrorBadRequest response) => write_json 400 ErrorBadRequest_Encode response
  | Some (PatchDeviceStatusRes_ErrorNotFoundError response) => write_json 404 ErrorNotFoundError_Encode response
  | Some (PatchDeviceStatusRes_ErrorInternalServerError response) => write_json 500 ErrorInternalServerError_Encode response
  | None => unexpected_response
  end.
Definition encodePatchJobResponse (response : option PatchJobRes) : Wr -> option gerror * Wr :=
  match response with
  | Some (PatchJobRes_JobsJobStatusUpdateResponse response) => write_json 200 JobsJobStatusUpdateResponse_Encode response
  | Some (PatchJobRes_ErrorNotFoundError response) => write_json 404 ErrorNotFoundError_Encode response
  | Some (PatchJobRes_ErrorConflictError response) => write_json 409 ErrorConflictError_Encode response
  | None => unexpected_response
  end.
Definition encodePatchJobInfoResponse (response : option PatchJobInfoRes) : Wr -> option gerror * Wr :=
  match response with
  | Some (PatchJobInfoRes_JobsUpdateJobInfoResponse response) => write_json 200 JobsUpdateJobInfoResponse_Encode response
  | Some (PatchJobInfoRes_ErrorBadRequest response) => write_json 400 ErrorBadRequest_Encode response
  | Some (PatchJobInfoRes_ErrorNotFoundError response) => write_json 404 ErrorNotFoundError_Encode response
  | None => unexpected_response
  end.
Definition encodePatchSselogResponse (response : option PatchSselogRes) : Wr -> option gerror * Wr :=
  match response with
  | Some (PatchSselogRes_JobsUploadSselogResponse response) => write_json 200 JobsUploadSselogResponse_Encode response
  | Some (PatchSselogRes_ErrorBadRequest response) => write_json 400 ErrorBadRequest_Encode response
  | Some (PatchSselogRes_ErrorInternalServerError response) => write_json 500 ErrorInternalServerError_Encode response
  | None => unexpected_response
  end.
Definition encodeUpdateJobTranspilerInfoResponse (response : option UpdateJobTranspilerInfoRes)
    : Wr -> option gerror * Wr :=
  match response with
  | Some (UpdateJobTranspilerInfoRes_JobsUpdateJobTranspilerInfoResponse response) => write_json 200 JobsUpdateJobTranspilerInfoResponse_Encode response
  | Some (UpdateJobTranspilerInfoRes_ErrorBadRequest response) => write_json 400 ErrorBadRequest_Encode response
  | Some (UpdateJobTranspilerInfoRes_ErrorNotFoundError response) => write_json 404 ErrorNotFoundError_Encode response
  | None => unexpected_response
  end.

(** ** Handlers (oas_handlers_gen.go) *)

(** The call of the user's handler, behind the middleware if there is one. *)
Definition run_handler {Req Params Resp} (s : Server) (op : OperationName) (summary operationID : string)
    (pack : Params -> Parameters) (unpack : Parameters -> option Params)
    (call : Ctx -> Req -> Params -> H -> (Resp + gerror) * H)
    (ctx : Ctx) (r : ServerRequest) (request : Req) (params : Params) (h : H) : outcome ((Resp + gerror) * H) :=
  match cfg_Middleware (S_cfg s) with
  | Some m =>
      HookMiddleware m (mkMiddlewareRequest ctx (operation_name op) summary operationID (pack params) r) request
        unpack call h
  | None => Ret (call ctx request params h)
  end.

(** The error of an encoder that has been answered already is not answered
    again. *)
Definition respond {Resp} (s : Server) (ctx : Ctx) (r : ServerRequest)
    (encode : Resp -> Wr -> option gerror * Wr) (res : Resp + gerror) (w : Wr) : Wr :=
  match res with
  | inr err => cfg_ErrorHandler (S_cfg s) ctx r err w
  | inl response =>
      match encode response w with
      | (None, w) => w
      | (Some err, w) =>
          if errors_Is "internal server error response" err then w else cfg_ErrorHandler (S_cfg s) ctx r err w
      end
  end.

Definition handle {Req Params Resp} (s : Server) (op : OperationName) (summary operationID : string)
    (decode_params : ServerRequest -> Params + gerror) (decode_request : ServerRequest -> Req + gerror)
    (pack : Params -> Parameters) (unpack : Parameters -> option Params)
    (call : Ctx -> Req -> Params -> H -> (Resp + gerror) * H) (encode : Resp -> Wr -> option gerror * Wr)
    (ctx : Ctx) (r : ServerRequest) (h : H) (w : Wr) : outcome (H * Wr) :=
  let fail ctx err h := Ret (h, cfg_ErrorHandler (S_cfg s) ctx r err w) in
  match server_secure s ctx (operation_name op) r h with
  | (inr err, h) => fail ctx err h
  | (inl ctx, h) =>
      match decode_params r with
      | inr err => fail ctx (DecodeParamsError (operation_name op) err) h
      | inl params =>
          match decode_request r with
          | inr err => fail ctx (DecodeRequestError (operation_name op) err) h
          | inl request =>
              let? res := run_handler s op summary operationID pack unpack call ctx r request params h in
              let '(res, h) := res in
              Ret (h, respond s ctx r encode res w)
          end
      end
  end.

Definition handleGetJobRequest (s : Server) (arg : string) (argsEscaped : bool)
    : Ctx -> ServerRequest -> H -> Wr -> outcome (H * Wr) :=
  handle s GetJobOperation "Get a job by ID" "get_job"
    (decodeGetJobParams arg argsEscaped) (fun _ => inl tt) packGetJobParams unpackGetJobParams
    (fun ctx _ params => h_GetJob (S_h s) ctx params) encodeGetJobResponse.
Definition handleGetJobsRequest (s : Server) : Ctx -> ServerRequest -> H -> Wr -> outcome (H * Wr) :=
  handle s GetJobsOperation "Search jobs for a device" "get_jobs"
    decodeGetJobsParams (fun _ => inl tt) packGetJobsParams unpackGetJobsParams
    (fun ctx _ params => h_GetJobs (S_h s) ctx params) encodeGetJobsResponse.
Definition handleGetSsesrcRequest (s : Server) (arg : string) (argsEscaped : bool)
    : Ctx -> ServerRequest -> H -> Wr -> outcome (H * Wr) :=
  handle s GetSsesrcOperation "Get SSE program source file" "get_ssesrc"
    (decodeGetSsesrcParams arg argsEscaped) (fun _ => inl tt) packGetSsesrcParams unpackGetSsesrcParams
    (fun ctx _ params => h_GetSsesrc (S_h s) ctx params) encodeGetSsesrcResponse.
Definition handlePatchDeviceRequest (s : Server) (arg : string) (argsEscaped : bool)
    : Ctx -> ServerRequest -> H -> Wr -> outcome (H * Wr) :=
  handle s PatchDeviceOperation "Update a part of selected device's properties." "patchDevice"
    (decodePatchDeviceParams arg argsEscaped) (decodePatchDeviceRequest s)
    packPatchDeviceParams unpackPatchDeviceParams
    (fun ctx request params => h_PatchDevice (S_h s) ctx request params) encodePatchDeviceResponse.
Definition handlePatchDeviceInfoRequest (s : Server) (arg : string) (argsEscaped : bool)
    : Ctx -> ServerRequest -> H -> Wr -> outcome (H * Wr) :=
  handle s PatchDeviceInfoOperation "Update device_info(calibration data) of selected device" "patchDeviceInfo"
    (decodePatchDeviceInfoParams arg argsEscaped) (decodePatchDeviceInfoRequest s)
    packPatchDeviceInfoParams unpackPatchDeviceInfoParams
    (fun ctx request params => h_PatchDeviceInfo (S_h s) ctx request params) encodePatchDeviceInfoResponse.
Definition handlePatchDeviceStatusRequest (s : Server) (arg : string) (argsEscaped : bool)
    : Ctx -> ServerRequest -> H -> Wr -> outcome (H * Wr) :=
  handle s PatchDeviceStatusOperation "Update status of selected device" "patchDeviceStatus"
    (decodePatchDeviceStatusParams arg argsEscaped) (decodePatchDeviceStatusRequest s)
    packPatchDeviceStatusParams unpackPatchDeviceStatusParams
    (fun ctx request params => h_PatchDeviceStatus (S_h s) ctx request params) encodePatchDeviceStatusResponse.
Definition handlePatchJobRequest (s : Server) (arg : string) (argsEscaped : bool)
    : Ctx -> ServerRequest -> H -> Wr -> outcome (H * Wr) :=
  handle s PatchJobOperation "Modify selected quantum job (update status)." "patch_job"
    (decodePatchJobParams arg argsEscaped) (decodePatchJobRequest s) packPatchJobParams unpackPatchJobParams
    (fun ctx request params => h_PatchJob (S_h s) ctx request params) encodePatchJobResponse.
Definition handlePatchJobInfoRequest (s : Server) (arg : string) (argsEscaped : bool)
    : Ctx -> ServerRequest -> H -> Wr -> outcome (H * Wr) :=
  handle s PatchJobInfoOperation "Update selected quantum job's job_info by placing job results" "patch_job_info"
    (decodePatchJobInfoParams arg argsEscaped) (decodePatchJobInfoRequest s)
    packPatchJobInfoParams unpackPatchJobInfoParams
    (fun ctx request params => h_PatchJobInfo (S_h s) ctx request params) encodePatchJobInfoResponse.
Definition handlePatchSselogRequest (s : Server) (arg : string) (argsEscaped : bool)
    : Ctx -> ServerRequest -> H -> Wr -> outcome (H * Wr) :=
  handle s PatchSselogOperation "Upload SSE log file" "patch_sselog"
    (decodePatchSselogParams arg argsEscaped) (decodePatchSselogRequest s)
    packPatchSselogParams unpackPatchSselogParams
    (fun ctx request params => h_PatchSselog (S_h s) ctx request params) encodePatchSselogResponse.
Definition handleUpdateJobTranspilerInfoRequest (s : Server) (arg : string) (argsEscaped : bool)
    : Ctx -> ServerRequest -> H -> Wr -> outcome (H * Wr) :=
  handle s UpdateJobTranspilerInfoOperation "Overwrite selected quantum job's traspiler_info" "update_job_transpiler_info"
    (decodeUpdateJobTranspilerInfoParams arg argsEscaped) (decodeUpdateJobTranspilerInfoRequest s)
    packUpdateJobTranspilerInfoParams unpackUpdateJobTranspilerInfoParams
    (fun ctx request params => h_UpdateJobTranspilerInfo (S_h s) ctx request params) encodeUpdateJobTranspilerInfoResponse.

(** ** ServeHTTP *)

Definition handle_operation (s : Server) (op : OperationName) (arg : string) (esc : bool)
    : Ctx -> ServerRequest -> H -> Wr -> outcome (H * Wr) :=
  match op with
  | GetJobOperation => handleGetJobRequest s arg esc
  | GetJobsOperation => handleGetJobsRequest s
  | GetSsesrcOperation => handleGetSsesrcRequest s arg esc
  | PatchDeviceOperation => handlePatchDeviceRequest s arg esc
  | PatchDeviceInfoOperation => handlePatchDeviceInfoRequest s arg esc
  | PatchDeviceStatusOperation => handlePatchDeviceStatusRequest s arg esc
  | PatchJobOperation => handlePatchJobRequest s arg esc
  | PatchJobInfoOperation => handlePatchJobInfoRequest s arg esc
  | PatchSselogOperation => handlePatchSselogRequest s arg esc
  | UpdateJobTranspilerInfoOperation => handleUpdateJobTranspilerInfoRequest s arg esc
  end.

Definition Server_ServeHTTP (s : Server) (ctx : Ctx) (r : ServerRequest) (h : H) (w : Wr) : outcome (H * Wr) :=
  match ServeHTTP (cfg_Prefix (S_cfg s)) (S_Method r) (S_URL r) with
  | (NotFound, _) => Ret (h, cfg_NotFound (S_cfg s) r w)
  | (NotAllowed allowed, _) => Ret (h, cfg_MethodNotAllowed (S_cfg s) r allowed w)
  | (Handle op arg, esc) => handle_operation s op arg esc ctx r h w
  end.

(** ** The handler that implements nothing *)

Definition ErrNotImplemented : gerror := Sentinel "not implemented".
Definition UnimplementedHandler : Handler :=
  mkHandler (fun _ _ h => (inr ErrNotImplemented, h))
    (fun _ _ h => (inr ErrNotImplemented, h))
    (fun _ _ h => (inr ErrNotImplemented, h))
    (fun _ _ _ h => (inr ErrNotImplemented, h))
    (fun _ _ _ h => (inr ErrNotImplemented, h))
    (fun _ _ _ h => (inr ErrNotImplemented, h))
    (fun _ _ _ h => (inr ErrNotImplemented, h))
    (fun _ _ _ h => (inr ErrNotImplemented, h))
    (fun _ _ _ h => (inr ErrNotImplemented, h))
    (fun _ _ _ h => (inr ErrNotImplemented, h)).

(** ** What is served *)

(** The security of [s] lets nobody in with the headers of [r]. *)
Definition denied (s : Server) (ctx : Ctx) (r : ServerRequest) (h : H) : Prop :=
  Header_Get r "X-Api-Key" = "" \/
  forall op, exists e, S_sec s ctx op (mkApiKeyAuth (Header_Get r "X-Api-Key")) h = (inr e, h).

Lemma server_secure_denied s ctx op r h : denied s ctx r h -> exists e, server_secure s ctx op r h = (inr e, h).
Proof.
  intros Hd. unfold server_secure, Server_securityApiKeyAuth.
  change (security_satisfied [0]) with false.
  destruct (String.eqb_spec (Header_Get r "X-Api-Key") "") as [_|Hk]; [eauto|].
  destruct Hd as [|Hd]; [done|]. destruct (Hd op) as [e He]. unfold ApiKeyAuth_SetAPIKey. rewrite He.
  change (security_satisfied [0]) with false. destruct (errors_Is _ e); eauto.
Qed.

Lemma handle_denied {Req Params Resp} s op summary oid dp dr pack unpack
    (call : Ctx -> Req -> Params -> H -> (Resp + gerror) * H) encode ctx r h w : denied s ctx r h ->
  exists w', handle s op summary oid dp dr pack unpack call encode ctx r h w = Ret (h, w').
Proof.
  intros Hd. unfold handle. destruct (server_secure_denied s ctx (operation_name op) r h Hd) as [e ->]. eauto.
Qed.

(** C25: No handler runs for a request the security does not let in: whatever is
    asked for, the state of the handlers is left as it was and the server answers
    by itself. *)
Theorem server_requires_key s ctx r h w : denied s ctx r h -> exists w', Server_ServeHTTP s ctx r h w = Ret (h, w').
Proof.
  intros Hd. unfold Server_ServeHTTP. destruct (ServeHTTP _ _ _) as [[|allowed|op arg] esc]; [eauto..|].
  destruct op; by apply handle_denied.
Qed.

(** ** Stages of a request that is let in *)

Lemma server_secure_accepted s ctx op r key ctx' h h' : Header_Get r "X-Api-Key" = key -> key <> "" ->
  S_sec s ctx op (mkApiKeyAuth key) h = (inl ctx', h') -> server_secure s ctx op r h = (inl ctx', h').
Proof.
  intros Hk Hne Hs. unfold server_secure, Server_securityApiKeyAuth. rewrite Hk.
  destruct (String.eqb_spec key "") as [|_]; [done|]. unfold ApiKeyAuth_SetAPIKey. by rewrite Hs.
Qed.

Lemma handle_accepted {Req Params Resp} s op summary oid dp dr pack unpack
    (call : Ctx -> Req -> Params -> H -> (Resp + gerror) * H) encode ctx ctx' r h h' h'' w w' params request res :
  cfg_Middleware (S_cfg s) = None ->
  server_secure s ctx (operation_name op) r h = (inl ctx', h') ->
  dp r = inl params -> dr r = inl request -> call ctx' request params h' = (inl res, h'') ->
  encode res w = (None, w') ->
  handle s op summary oid dp dr pack unpack call encode ctx r h w = Ret (h'', w').
Proof.
  intros Hm Hs Hp Hr Hc He. unfold handle, run_handler. rewrite Hs, Hp, Hr, Hm, Hc. cbn. by rewrite He.
Qed.

(** The middleware gets the parameters back it packs. *)
Lemma unpack_pack :
  (forall p, unpackGetJobsParams (packGetJobsParams p) = Some p) /\
  (forall p, unpackPatchJobParams (packPatchJobParams p) = Some p) /\
  (forall p, unpackPatchJobInfoParams (packPatchJobInfoParams p) = Some p) /\
  (forall p, unpackPatchDeviceParams (packPatchDeviceParams p) = Some p).
Proof. by repeat split; intros []. Qed.
End server.
