(* ===== verification/ApiRoundtrip.v ===== *)
(** * Client and server of the provider API together

    The generated client over a transport that hands its requests to the
    generated server ([loop]).  Each lemma [..._served] says that a call the
    engine makes reaches the handler of its operation with the parameters and the
    body it was made with, and that the client returns what the handler
    answered.  [ApiLaws] collects what is documented of the library code between
    them (URLs, media types), [exchange] is the step all operations share. *)

From stdpp Require Import base gmap strings list fin_maps.
From Stdlib Require Import ZArith Lia Ascii.
From S2P Require Import Prelude GoString Jx JxText ApiSchemas ApiCodec ApiJson ApiValidate ApiHttp ApiRouter ApiClient ApiServer.

(** ** The library between client and server *)

(** Paths without characters to escape. *)
Definition plain_char (c : ascii) : bool :=
  in_range "a"%char "z"%char c || in_range "A"%char "Z"%char c || is_digit c || Ascii.eqb c "/" || Ascii.eqb c "-" ||
  Ascii.eqb c "_" || Ascii.eqb c ".".
Definition plain (s : string) : Prop := string_forallb plain_char s = true.
Definition plain_url (u : URL) : Prop := plain (U_Path u) /\ U_RawPath u = "".

Class ApiLaws {UL : UriLib} {UP : UriPaths} {UD : UriDecoders} {MI : Mime} {FO : Forms} := {
  NewRequest_ok : forall m u, m ∈ ["GET"; "PATCH"; "PUT"] -> NewRequest m u = inl (mkHttpRequest m u ∅ None);
  plain_parts : forall u parts, plain_url u -> Forall plain parts ->
    routed_path (AddPathParts u parts) = (U_Path u +:+ Join parts "", false);
  encoded_part : forall u pre name v encoded post, plain_url u -> plain pre -> Forall plain post ->
    path_encode name v = inl encoded ->
    exists arg esc, routed_path (AddPathParts u (pre :: encoded :: post)) = (U_Path u +:+ pre +:+ arg +:+ Join post "", esc)
      /\ no_slash arg /\ if (esc : bool) then PathUnescape arg = inl v else arg = v;
  query_values : forall h p rp ps q name v, query_encode ps = inl q -> NoDup ps.*1 -> (name, v) ∈ ps ->
    match v with
    | Some v => q_HasParam (mkURL h p rp q) name = None /\ q_DecodeValue (mkURL h p rp q) name = inl v
    | None => exists e, q_HasParam (mkURL h p rp q) name = Some e
    end;
  path_DecodeValue_ok : forall name v, v <> "" -> path_DecodeValue name v = inl v;
  conv_ToString_ok : forall v, conv_ToString v = inl v;
  conv_ToInt_ok : forall n, in_i64 n -> conv_ToInt (FormatInt n) = inl n;
  ParseMediaType_json : ParseMediaType "application/json" = inl "application/json";
  ParseMediaType_json_utf8 : ParseMediaType "application/json; charset=utf-8" = inl "application/json";
  Append_none : forall e, multierr_Append (Some e) None = Some e
}.

(** ** The transport *)

(** A response as it is written: the header until the status is set. *)
Record recorder := mkRecorder { rw_header : gmap string string; rw_status : option Z; rw_body : string }.
#[export] Instance recorder_writer : ResponseWriter recorder := {|
  w_Header_Set k v w :=
    match rw_status w with None => mkRecorder (<[k := v]> (rw_header w)) None (rw_body w) | Some _ => w end;
  w_WriteHeader n w :=
    match rw_status w with None => mkRecorder (rw_header w) (Some n) (rw_body w) | Some _ => w end;
  w_Write b w := (None, mkRecorder (rw_header w) (Some (default 200 (rw_status w))) (rw_body w +:+ b))
|}.
Definition no_response : recorder := mkRecorder ∅ None "".

Definition receive (r : HttpRequest) : ServerRequest :=
  mkServerRequest (Method r) (R_URL r) ((fun v => [v]) <$> Header r) (len (default "" (R_Body r)))
    (inl (default "" (R_Body r))).
Definition answer_of (w : recorder) : HttpResponse :=
  mkHttpResponse (default 200 (rw_status w)) (default "" (rw_header w !! "Content-Type")) (inl (rw_body w)).

Section loop.
Context {D : Type} {J : JxDecoder D} {L : JxLaws D} {DT : DateTime D} {DL : DateTimeLaws D} {MR : MapRange}.
Context {NV : NumberValidators} {NL : NumberValidatorLaws}.
Context {UL : UriLib} {UP : UriPaths} {UD : UriDecoders} {MI : Mime} {FO : Forms} {AL : ApiLaws}.
Context {Ctx H : Type} {MW : Middlewares Ctx H}.
Context (s : Server (Wr := recorder) (Ctx := Ctx) (H := H)) (ctx : Ctx).

(** A handler that panics closes the connection. *)
#[export] Program Instance loop : HttpClient (H * list HttpRequest) := {|
  http_Do r w :=
    match Server_ServeHTTP s ctx (receive r) w.1 no_response with
    | Ret (h, wr) => (inl (answer_of wr), (h, w.2 ++ [r]))
    | Panic _ => (inr (Err "EOF"), (w.1, w.2 ++ [r]))
    end;
  http_log := snd
|}.
Next Obligation. intros r w. cbn. by destruct (Server_ServeHTTP _ _ _ _ _) as [[]|]. Qed.

(** The server stands where the client looks for it. *)
Definition facing (c : Client) : Prop :=
  cfg_Middleware (S_cfg s) = None /\ cfg_Prefix (S_cfg s) = U_Path (serverURL c) /\ plain_url (serverURL c).

(** The key of the client is let in: the context and the handlers' state after. *)
Definition accepted (c : Client) (op : OperationName) (h : H) (ctx' : Ctx) (h' : H) : Prop :=
  exists key, sec c (operation_name op) = inl key /\ ApiKeyAuth_APIKey key <> "" /\
    S_sec s ctx (operation_name op) key h = (inl ctx', h').

Lemma http_method_known op : http_method op ∈ ["GET"; "PATCH"; "PUT"].
Proof. destruct op; cbn; set_solver. Qed.

Lemma secure_key c op key r : sec c op = inl key -> secure c op r = inl (SetHeader "X-Api-Key" (ApiKeyAuth_APIKey key) r).
Proof. intros Hk. unfold secure, securityApiKeyAuth. by rewrite Hk. Qed.

Lemma received_key k r : Header_Get (receive (SetHeader "X-Api-Key" k r)) "X-Api-Key" = k.
Proof. unfold Header_Get, receive, SetHeader. cbn. by rewrite lookup_fmap, lookup_insert_eq. Qed.

(** The request of an operation: [elem] is its path behind the prefix. *)
Lemma exchange {Req Params Resp R} (c : Client) op u r0 encode (decode : HttpResponse -> R + gerror)
    summary oid dp dr pack unpack (call : Ctx -> Req -> Params -> H -> (Resp + gerror) * H)
    (enc : Resp -> recorder -> option gerror * recorder) arg elem h h' h'' ctx' log params request res w out :
  facing c -> accepted c op h ctx' h' ->
  encode (mkHttpRequest (http_method op) u ∅ None) = inl r0 -> Method r0 = http_method op -> R_URL r0 = u ->
  (routed_path u).1 = U_Path (serverURL c) +:+ elem -> at_path op arg elem ->
  handle_operation s op arg (routed_path u).2 = handle s op summary oid dp dr pack unpack call enc ->
  (forall key, dp (receive (SetHeader "X-Api-Key" key r0)) = inl params /\
               dr (receive (SetHeader "X-Api-Key" key r0)) = inl request) ->
  call ctx' request params h' = (inl res, h'') -> enc res no_response = (None, w) -> decode (answer_of w) = inl out ->
  exists r, send c (operation_name op) (http_method op) (inl u) encode decode (h, log) = (inl out, (h'', log ++ [r])).
Proof.
  intros (Hm & Hp & Hu) (key & Hk & Hne & Hs) He Hr0m Hr0u Hpath Hat Hop Hdec Hcall Henc Hout.
  exists (SetHeader "X-Api-Key" (ApiKeyAuth_APIKey key) r0).
  unfold send, build_request, rbind, rwrap. rewrite NewRequest_ok by apply http_method_known. rewrite He.
  rewrite (secure_key _ _ _ _ Hk). cbn [http_Do loop fst snd].
  set (r := SetHeader "X-Api-Key" (ApiKeyAuth_APIKey key) r0).
  assert (Server_ServeHTTP s ctx (receive r) h no_response = Ret (h'', w)) as ->; [|cbn; by rewrite Hout].
  unfold Server_ServeHTTP.
  assert (ServeHTTP (cfg_Prefix (S_cfg s)) (S_Method (receive r)) (S_URL (receive r)) =
          (Handle op arg, (routed_path u).2)) as ->.
  { subst r. cbn. rewrite Hr0m, Hr0u, Hp, (ServeHTTP_at _ _ _ _ _ _ Hpath Hat). by rewrite String.eqb_refl. }
  rewrite Hop. destruct (Hdec (ApiKeyAuth_APIKey key)) as [Hdp Hdr].
  eapply handle_accepted; [exact Hm| |exact Hdp|exact Hdr|exact Hcall|exact Henc].
  eapply server_secure_accepted; [apply received_key|done|]. by destruct key.
Qed.

(** ** Bodies, parameters, responses *)

Lemma json_request_served {A} (enc : encoder A) (dec : decoder D A) zero ok norm validate v key m u :
  codec enc dec zero ok norm -> ok v -> fits (enc v) -> validate (norm v) = None ->
  json_request zero (Opt_Decode dec) validate
    (receive (SetHeader "X-Api-Key" key (SetBody (Bytes (enc v)) "application/json" (mkHttpRequest m u ∅ None))))
  = inl (NewOpt (norm v)).
Proof.
  intros Hc Hv Hf Hval. destruct (Hc v Hv) as (Hr & Hj & _).
  pose proof (Bytes_nonempty _ Hj Hf) as Hne.
  set (r := receive _).
  assert (S_Header r !! "Content-Type" = Some ["application/json"]) as Hct.
  { subst r. cbn. rewrite lookup_fmap, lookup_insert_ne, lookup_insert_eq by done. done. }
  assert ((len (Bytes (enc v)) =? 0) = false) as Hlen.
  { apply Z.eqb_neq. unfold len. destruct (Bytes (enc v)); [done|]. cbn. lia. }
  unfold json_request, request_type, Header_Get. rewrite Hct.
  rewrite bool_decide_eq_false_2 by done. cbn [andb mbind option_bind head default].
  rewrite ParseMediaType_json. cbn [rwrap rbind].
  change (String.eqb "application/json" "application/json") with true. cbn iota.
  change (ContentLength r) with (len (Bytes (enc v))). change (S_Body r) with (inl (Bytes (enc v)) : string + gerror).
  rewrite Hlen. cbn [rbind]. rewrite Hlen.
  destruct (Hr (DecodeBytes (Bytes (enc v))) []) as (d' & Hdec & Hd'); [rewrite app_nil_r; by apply at_start|].
  unfold Opt_Decode. cbn [Opt_Value Opt_Reset Opt_zero]. rewrite Hdec.
  destruct (at_eof _ Hd') as (d2 & Hd2). rewrite Hd2. cbn. by rewrite Hval.
Qed.

Lemma decode_path_served name v arg (esc : bool) : v <> "" -> (if esc then PathUnescape arg = inl v else arg = v) ->
  decode_path name arg esc = inl v.
Proof.
  intros Hv He. unfold decode_path. assert ((0 <? len v) = true) as Hl.
  { apply Z.ltb_lt. unfold len. destruct v; [done|]. cbn. lia. }
  destruct esc; [rewrite He|subst arg]; cbn [rwrap rbind]; rewrite Hl, path_DecodeValue_ok by done; cbn [rbind];
    by rewrite conv_ToString_ok.
Qed.

Lemma write_json_carries {A} code (enc : encoder A) a :
  exists w, write_json code enc a no_response = (None, w) /\ carries (answer_of w) code (enc a).
Proof.
  eexists. split; [reflexivity|]. unfold carries, answer_of. cbn. rewrite lookup_insert_eq. cbn.
  by rewrite ParseMediaType_json_utf8.
Qed.

(** A value that can be sent. *)
Definition sendable {A} (enc : encoder A) (ok : A -> Prop) (v : A) : Prop := ok v /\ fits (enc v).

Definition PatchJobRes_ok (r : PatchJobRes) : Prop :=
  match r with
  | PatchJobRes_JobsJobStatusUpdateResponse v => sendable JobsJobStatusUpdateResponse_Encode JobsJobStatusUpdateResponse_ok v
  | PatchJobRes_ErrorNotFoundError v => sendable ErrorNotFoundError_Encode ErrorNotFoundError_ok v
  | PatchJobRes_ErrorConflictError v => sendable ErrorConflictError_Encode ErrorConflictError_ok v
  end.
Definition PatchJobInfoRes_ok (r : PatchJobInfoRes) : Prop :=
  match r with
  | PatchJobInfoRes_JobsUpdateJobInfoResponse v => sendable JobsUpdateJobInfoResponse_Encode JobsUpdateJobInfoResponse_ok v
  | PatchJobInfoRes_ErrorBadRequest v => sendable ErrorBadRequest_Encode ErrorBadRequest_ok v
  | PatchJobInfoRes_ErrorNotFoundError v => sendable ErrorNotFoundError_Encode ErrorNotFoundError_ok v
  end.
Definition UpdateJobTranspilerInfoRes_ok (r : UpdateJobTranspilerInfoRes) : Prop :=
  match r with
  | UpdateJobTranspilerInfoRes_JobsUpdateJobTranspilerInfoResponse v =>
      sendable JobsUpdateJobTranspilerInfoResponse_Encode JobsUpdateJobTranspilerInfoResponse_ok v
  | UpdateJobTranspilerInfoRes_ErrorBadRequest v => sendable ErrorBadRequest_Encode ErrorBadRequest_ok v
  | UpdateJobTranspilerInfoRes_ErrorNotFoundError v => sendable ErrorNotFoundError_Encode ErrorNotFoundError_ok v
  end.
Definition GetJobsRes_ok (r : GetJobsRes) : Prop :=
  match r with
  | GetJobsRes_GetJobsOKApplicationJSON l =>
      sendable GetJobsOKApplicationJSON_Encode (slice_ok JobsJobDef_ok) l /\
      Forall job_def_valid (JobsJobDef_norm <$> default [] l)
  | GetJobsRes_ErrorBadRequest v => sendable ErrorBadRequest_Encode ErrorBadRequest_ok v
  | GetJobsRes_ErrorInternalServerError v => sendable ErrorInternalServerError_Encode ErrorInternalServerError_ok v
  end.
(** What is received of it: job definitions in normal form. *)
Definition GetJobsRes_norm (r : GetJobsRes) : GetJobsRes :=
  match r with
  | GetJobsRes_GetJobsOKApplicationJSON l => GetJobsRes_GetJobsOKApplicationJSON (slice_norm JobsJobDef_norm l)
  | r => r
  end.

(** One constructor: the client decodes what the server wrote. *)
Ltac answered code codec_lemma :=
  match goal with
  | Hs : sendable ?enc _ ?v |- _ =>
      destruct Hs as [? ?]; destruct (write_json_carries code enc v) as (w & Hw & Hc); exists w;
      split; [exact Hw|]; rewrite (proj1 Hc); cbn [Z.eqb Pos.eqb];
      erewrite json_body_codec; [|exact codec_lemma|eassumption|eassumption|exact Hc];
      try (destruct v; reflexivity)
  end.

Lemma PatchJobRes_answered r : PatchJobRes_ok r ->
  exists w, encodePatchJobResponse (Some r) no_response = (None, w) /\ decodePatchJobResponse (answer_of w) = inl r.
Proof.
  unfold decodePatchJobResponse. destruct r as [v|v|v]; intros Hs; cbn [PatchJobRes_ok] in Hs.
  - answered 200 JobsJobStatusUpdateResponse_codec.
  - answered 404 ErrorNotFoundError_codec.
  - answered 409 ErrorConflictError_codec.
Qed.

Lemma PatchJobInfoRes_answered r : PatchJobInfoRes_ok r ->
  exists w, encodePatchJobInfoResponse (Some r) no_response = (None, w) /\ decodePatchJobInfoResponse (answer_of w) = inl r.
Proof.
  unfold decodePatchJobInfoResponse. destruct r as [v|v|v]; intros Hs; cbn [PatchJobInfoRes_ok] in Hs.
  - answered 200 JobsUpdateJobInfoResponse_codec.
  - answered 400 ErrorBadRequest_codec.
  - answered 404 ErrorNotFoundError_codec.
Qed.

Lemma UpdateJobTranspilerInfoRes_answered r : UpdateJobTranspilerInfoRes_ok r ->
  exists w, encodeUpdateJobTranspilerInfoResponse (Some r) no_response = (None, w) /\
    decodeUpdateJobTranspilerInfoResponse (answer_of w) = inl r.
Proof.
  unfold decodeUpdateJobTranspilerInfoResponse. destruct r as [v|v|v]; intros Hs; cbn [UpdateJobTranspilerInfoRes_ok] in Hs.
  - answered 200 JobsUpdateJobTranspilerInfoResponse_codec.
  - answered 400 ErrorBadRequest_codec.
  - answered 404 ErrorNotFoundError_codec.
Qed.

Lemma GetJobsRes_answered r : GetJobsRes_ok r ->
  exists w, encodeGetJobsResponse (Some r) no_response = (None, w) /\
    decodeGetJobsResponse (answer_of w) = inl (GetJobsRes_norm r).
Proof.
  unfold decodeGetJobsResponse. destruct r as [l|v|v]; intros Hs; cbn [GetJobsRes_ok GetJobsRes_norm] in *.
  - destruct Hs as [Hs Hvalid]. answered 200 JobsJobDefs_codec.
    assert (GetJobsOKApplicationJSON_Validate (slice_norm JobsJobDef_norm l) = None) as -> by (apply jobs_validate; eauto).
    done.
  - answered 400 ErrorBadRequest_codec.
  - answered 500 ErrorInternalServerError_codec.
Qed.

(** ** The calls of the engine *)

Lemma param_url_encoded c pre name v encoded post : path_encode name v = inl encoded ->
  param_url c pre name v post = inl (AddPathParts (serverURL c) (pre :: encoded :: post)).
Proof. intros He. unfold param_url. by rewrite He. Qed.

(** An operation on a job with a JSON body: [post] is what its path has after the
    identifier. *)
Lemma job_body_served {A Params Resp R} c op post (mkParams : string -> Params) (enc : encoder A) (dec : decoder D A)
    zero ok norm validate summary oid pack unpack (call : Ctx -> Opt A -> Params -> H -> (Resp + gerror) * H)
    (encode : Resp -> recorder -> option gerror * recorder) (decode : HttpResponse -> R + gerror)
    h h' h'' ctx' log id encoded req res w out :
  facing c -> accepted c op h ctx' h' -> path_encode "job_id" id = inl encoded -> id <> "" ->
  codec enc dec zero ok norm -> sendable enc ok req -> validate (norm req) = None ->
  plain post -> op <> GetJobsOperation -> (forall arg, fill (pathPattern op) arg = "/jobs/" +:+ arg +:+ post) ->
  (forall arg esc, handle_operation s op arg esc =
     handle s op summary oid (fun _ => rmap mkParams (decode_path "job_id" arg esc))
       (json_request zero (Opt_Decode dec) validate) pack unpack call encode) ->
  call ctx' (NewOpt (norm req)) (mkParams id) h' = (inl res, h'') ->
  encode res no_response = (None, w) -> decode (answer_of w) = inl out ->
  exists r, send c (operation_name op) (http_method op) (param_url c "/jobs/" "job_id" id [post])
    (encode_json (Opt_Encode enc) (NewOpt req)) decode (h, log) = (inl out, (h'', log ++ [r])).
Proof.
  intros Hf Ha Hid Hne Hcodec [Hok Hfit] Hval Hpost Hop Hfill Hhandle Hcall Hw Hdec.
  destruct (encoded_part (serverURL c) "/jobs/" "job_id" id encoded [post] (proj2 (proj2 Hf)) eq_refl
    ltac:(by constructor) Hid) as (arg & esc & Hpath & Hslash & Harg).
  rewrite (param_url_encoded _ _ _ _ _ _ Hid). cbn [Join] in Hpath.
  eapply (exchange c op); [exact Hf|exact Ha|reflexivity|reflexivity|reflexivity|by rewrite Hpath| |apply Hhandle
    | |exact Hcall|exact Hw|exact Hdec].
  - split_and!; [exact Hslash|done|symmetry; apply Hfill].
  - intros key. rewrite Hpath. cbn [snd]. rewrite (decode_path_served _ _ _ _ Hne Harg). split; [done|].
    exact (json_request_served _ _ _ _ _ _ _ _ _ _ Hcodec Hok Hfit Hval).
Qed.

Lemma PatchJob_served c h h' h'' ctx' log id encoded req res :
  facing c -> accepted c PatchJobOperation h ctx' h' -> path_encode "job_id" id = inl encoded -> id <> "" ->
  sendable JobsJobStatusUpdate_Encode JobsJobStatusUpdate_ok req ->
  JobsJobStatusUpdate_Validate (JobsJobStatusUpdate_norm req) = None ->
  h_PatchJob (S_h s) ctx' (NewOpt (JobsJobStatusUpdate_norm req)) (mkPatchJobParams id) h' = (inl (Some res), h'') ->
  PatchJobRes_ok res ->
  exists r, sendPatchJob c (NewOpt req) (mkPatchJobParams id) (h, log) = (inl res, (h'', log ++ [r])).
Proof.
  intros Hf Ha Hid Hne Hs Hval Hcall Hres. destruct (PatchJobRes_answered res Hres) as (w & Hw & Hdec).
  by eapply (job_body_served c PatchJobOperation "/status" _ _ _ _ _ _ _ _ _ _ _ _ _ _ h);
    [exact Hf|exact Ha|exact Hid|exact Hne|exact JobsJobStatusUpdate_codec|exact Hs|exact Hval|reflexivity|done| | |exact Hcall
      |exact Hw|exact Hdec].
Qed.

Lemma PatchJobInfo_served c h h' h'' ctx' log id encoded req res :
  facing c -> accepted c PatchJobInfoOperation h ctx' h' -> path_encode "job_id" id = inl encoded -> id <> "" ->
  sendable JobsUpdateJobInfoRequest_Encode JobsUpdateJobInfoRequest_ok req ->
  JobsUpdateJobInfoRequest_Validate (JobsUpdateJobInfoRequest_norm req) = None ->
  h_PatchJobInfo (S_h s) ctx' (NewOpt (JobsUpdateJobInfoRequest_norm req)) (mkPatchJobInfoParams id) h'
    = (inl (Some res), h'') ->
  PatchJobInfoRes_ok res ->
  exists r, sendPatchJobInfo c (NewOpt req) (mkPatchJobInfoParams id) (h, log) = (inl res, (h'', log ++ [r])).
Proof.
  intros Hf Ha Hid Hne Hs Hval Hcall Hres. destruct (PatchJobInfoRes_answered res Hres) as (w & Hw & Hdec).
  by eapply (job_body_served c PatchJobInfoOperation "/job_info" _ _ _ _ _ _ _ _ _ _ _ _ _ _ h);
    [exact Hf|exact Ha|exact Hid|exact Hne|exact JobsUpdateJobInfoRequest_codec|exact Hs|exact Hval|reflexivity|done| |
      |exact Hcall|exact Hw|exact Hdec].
Qed.

Lemma UpdateJobTranspilerInfo_served c h h' h'' ctx' log id encoded req res :
  facing c -> accepted c UpdateJobTranspilerInfoOperation h ctx' h' -> path_encode "job_id" id = inl encoded -> id <> "" ->
  sendable JobsUpdateJobTranspilerInfoRequest_Encode raw_map_ok req ->
  h_UpdateJobTranspilerInfo (S_h s) ctx' (NewOpt req) (mkUpdateJobTranspilerInfoParams id) h' = (inl (Some res), h'') ->
  UpdateJobTranspilerInfoRes_ok res ->
  exists r, sendUpdateJobTranspilerInfo c (NewOpt req) (mkUpdateJobTranspilerInfoParams id) (h, log)
    = (inl res, (h'', log ++ [r])).
Proof.
  intros Hf Ha Hid Hne Hs Hcall Hres. destruct (UpdateJobTranspilerInfoRes_answered res Hres) as (w & Hw & Hdec).
  by eapply (job_body_served c UpdateJobTranspilerInfoOperation "/transpiler_info" _ _ _ _ _ _ no_validate _ _ _ _ _ _ _ h);
    [exact Hf|exact Ha|exact Hid|exact Hne
      |exact (codec_fresh _ _ _ _ _ (codec_raw_map "JobsUpdateJobTranspilerInfoRequest"))|exact Hs|reflexivity|reflexivity
      |done| | |exact Hcall|exact Hw|exact Hdec].
Qed.

Lemma decode_query_set {A} h p rp ps q name v (conv : string -> A + gerror) : query_encode ps = inl q -> NoDup ps.*1 ->
  (name, Some v) ∈ ps -> decode_query (mkURL h p rp q) name conv = rmap Some (conv v).
Proof.
  intros Hq Hnd Hin. destruct (query_values h p rp _ _ _ _ Hq Hnd Hin) as [Hh Hd]. unfold decode_query. by rewrite Hh, Hd.
Qed.

Lemma decode_query_unset {A} h p rp ps q name (conv : string -> A + gerror) : query_encode ps = inl q -> NoDup ps.*1 ->
  (name, None) ∈ ps -> decode_query (mkURL h p rp q) name conv = inl None.
Proof.
  intros Hq Hnd Hin. destruct (query_values h p rp _ _ _ _ Hq Hnd Hin) as [e Hh]. unfold decode_query. by rewrite Hh.
Qed.

(** The poll: jobs of one status of a device. *)
Definition poll_query (device status : string) (n : Z) : list (string * option string) :=
  [("device_id", Some device); ("status", Some status); ("max_results", Some (FormatInt n)); ("timestamp", None)].
Definition poll_params (device status : string) (n : Z) : GetJobsParams :=
  mkGetJobsParams device (NewOpt status) (NewOpt n) (Opt_zero "").

Lemma poll_params_served device status n q r : query_encode (poll_query device status n) = inl q ->
  JobsJobStatus_Validate status = None -> in_i64 n ->
  U_RawQuery (S_URL r) = q -> decodeGetJobsParams r = inl (poll_params device status n).
Proof.
  intros Hq Hs Hn Hr. unfold decodeGetJobsParams. destruct (S_URL r) as [h p rp q']. cbn in Hr. subst q'.
  assert (NoDup (poll_query device status n).*1) as Hnd by (apply (bool_decide_unpack _); reflexivity).
  rewrite (decode_query_set _ _ _ _ _ "device_id" device conv_ToString Hq Hnd) by set_solver.
  rewrite (decode_query_set _ _ _ _ _ "status" status conv_ToString Hq Hnd) by set_solver.
  rewrite (decode_query_set _ _ _ _ _ "max_results" (FormatInt n) conv_ToInt Hq Hnd) by set_solver.
  rewrite (decode_query_unset _ _ _ _ _ "timestamp" conv_ToString Hq Hnd) by set_solver.
  rewrite !conv_ToString_ok, conv_ToInt_ok by done. cbn. by rewrite Hs.
Qed.

Lemma GetJobs_served c h h' h'' ctx' log device status n q res :
  facing c -> accepted c GetJobsOperation h ctx' h' -> query_encode (poll_query device status n) = inl q ->
  JobsJobStatus_Validate status = None -> in_i64 n ->
  h_GetJobs (S_h s) ctx' (poll_params device status n) h' = (inl (Some res), h'') -> GetJobsRes_ok res ->
  exists r, sendGetJobs c (poll_params device status n) (h, log) = (inl (GetJobsRes_norm res), (h'', log ++ [r])).
Proof.
  intros Hf Ha Hq Hs Hn Hcall Hres. destruct (GetJobsRes_answered res Hres) as (w & Hw & Hdec).
  pose proof (plain_parts (serverURL c) ["/jobs"] (proj2 (proj2 Hf)) ltac:(by constructor)) as Hpath.
  unfold sendGetJobs, GetJobs_url. cbn [GetJobsParams_DeviceID GetJobsParams_Status GetJobsParams_MaxResults
    GetJobsParams_Timestamp poll_params Opt_Get NewOpt Opt_zero Opt_Set Opt_Value fmap option_fmap option_map].
  fold (poll_query device status n). rewrite Hq. cbn [rwrap rbind].
  assert (routed_path (mkURL (U_Host (AddPathParts (serverURL c) ["/jobs"])) (U_Path (AddPathParts (serverURL c) ["/jobs"]))
    (U_RawPath (AddPathParts (serverURL c) ["/jobs"])) q) = (U_Path (serverURL c) +:+ "/jobs", false)) as Hpath' by exact Hpath.
  eapply (exchange (Req := unit) c GetJobsOperation); [exact Hf|exact Ha|reflexivity|reflexivity|reflexivity|by rewrite Hpath'| |reflexivity
    | | |exact Hw|exact Hdec].
  - by instantiate (1 := "").
  - intros key. split; [|reflexivity]. eapply poll_params_served; [exact Hq|done..].
  - exact Hcall.
Qed.
End loop.

(** ** Instances *)

Module ApiRoundtripExample.

(** Queries of texts without separators. *)
Definition query_char (c : ascii) : bool := negb (Ascii.eqb c "&" || Ascii.eqb c "=").
Definition query_text (s : string) : bool := string_forallb query_char s.
Fixpoint cut_at (stop : ascii) (s : string) : string * string :=
  match s with
  | EmptyString => (EmptyString, EmptyString)
  | String c s' => if Ascii.eqb c stop then (EmptyString, s')
                   else let '(a, b) := cut_at stop s' in (String c a, b)
  end.
Definition query_pair (p : string * option string) : string :=
  match p.2 with Some v => p.1 +:+ String "=" (v +:+ "&") | None => "" end.
Definition query_text_of (ps : list (string * option string)) : string := foldr (fun p s => query_pair p +:+ s) "" ps.
Fixpoint query_get (fuel : nat) (name q : string) : option string :=
  match fuel, q with
  | S fuel', String _ _ =>
      let '(k, rest) := cut_at "=" q in
      let '(v, rest) := cut_at "&" rest in
      if String.eqb k name then Some v else query_get fuel' name rest
  | _, _ => None
  end.
Definition query_lookup (q name : string) : option string := query_get (String.length q) name q.

Lemma length_pair (k v rest : string) :
  String.length (query_pair (k, Some v) +:+ rest) = S (S (String.length k + String.length v + String.length rest)).
Proof. unfold query_pair. cbn [fst snd]. rewrite !string_app_length. cbn. rewrite string_app_length. cbn. lia. Qed.

Lemma cut_at_text stop a b : (stop = "=" \/ stop = "&")%char -> query_text a = true ->
  cut_at stop (a +:+ String stop b) = (a, b).
Proof.
  intros Hs. unfold query_text.
  induction a as [|c a IH]; cbn [string_forallb]; [intros _; change ("" +:+ String stop b) with (String stop b); cbn [cut_at]; by rewrite Ascii.eqb_refl|].
  intros [Hc Ha]%andb_true_iff. assert (Ascii.eqb c stop = false) as H.
  { apply negb_true_iff, orb_false_iff in Hc as [H1 H2]. by destruct Hs; subst. }
  change (String c a +:+ String stop b) with (String c (a +:+ String stop b)). cbn [cut_at]. by rewrite H, IH.
Qed.

Lemma query_get_pair fuel name k v rest : query_text k = true -> query_text v = true ->
  query_get (S fuel) name (query_pair (k, Some v) +:+ rest) = if String.eqb k name then Some v else query_get fuel name rest.
Proof.
  intros Hk Hv. unfold query_pair. cbn [fst snd].
  assert ((k +:+ String "=" (v +:+ "&")) +:+ rest = k +:+ String "=" (v +:+ String "&" rest)) as ->.
  { rewrite string_app_assoc. f_equal. change (String "=" (v +:+ "&") +:+ rest) with (String "=" ((v +:+ "&") +:+ rest)).
    by rewrite string_app_assoc. }
  cbn [query_get]. rewrite (cut_at_text "=" k) by auto. rewrite (cut_at_text "&" v) by auto.
  destruct k; reflexivity.
Qed.

Definition query_pairs_ok (ps : list (string * option string)) : bool :=
  forallb (fun p => query_text p.1 && query_text (default "" p.2)) ps.

Lemma query_lookup_pairs ps name v fuel : query_pairs_ok ps = true -> NoDup ps.*1 -> (name, v) ∈ ps ->
  (String.length (query_text_of ps) <= fuel)%nat -> query_get fuel name (query_text_of ps) = v.
Proof.
  intros Hok Hnd Hin. revert fuel. assert (forall ps fuel, query_pairs_ok ps = true -> name ∉ ps.*1 ->
    (String.length (query_text_of ps) <= fuel)%nat -> query_get fuel name (query_text_of ps) = None) as Hout.
  { clear. induction ps as [|[k o] ps IH]; intros fuel Hok Hn Hf; [by destruct fuel|]. cbn in Hok, Hn.
    apply andb_true_iff in Hok as [[Hk Ho]%andb_true_iff Hok]. apply not_elem_of_cons in Hn as [Hne Hn].
    destruct o as [v|]; [|by apply IH].
    change (query_text_of ((k, Some v) :: ps)) with (query_pair (k, Some v) +:+ query_text_of ps) in *.
    rewrite length_pair in Hf. destruct fuel as [|fuel]; [lia|].
    rewrite query_get_pair by done. destruct (String.eqb_spec k name); [by subst|]. apply IH; [done|done|lia]. }
  induction ps as [|[k o] ps IH]; [by apply elem_of_nil in Hin|]. intros fuel Hf. cbn in Hok, Hnd.
  pose proof Hok as Hok'. apply andb_true_iff in Hok as [[Hk Ho]%andb_true_iff Hok]. apply NoDup_cons in Hnd as [Hn Hnd].
  destruct o as [t|].
  - change (query_text_of ((k, Some t) :: ps)) with (query_pair (k, Some t) +:+ query_text_of ps) in *.
    rewrite length_pair in Hf. destruct fuel as [|fuel]; [lia|].
    rewrite query_get_pair by done. apply elem_of_cons in Hin as [[= -> ->]|Hin]; [by rewrite String.eqb_refl|].
    destruct (String.eqb_spec k name) as [->|Hne]; [|apply IH; [done..|lia]].
    exfalso. apply Hn. apply (list_elem_of_fmap_2 fst) in Hin. exact Hin.
  - apply elem_of_cons in Hin as [[= -> ->]|Hin]; [|exact (IH Hok Hnd Hin fuel Hf)]. exact (Hout ps fuel Hok Hn Hf).
Qed.

(** Path parameters of letters, digits and the like. *)
Definition path_text (s : string) : bool :=
  negb (String.eqb s "") && string_forallb (fun c => plain_char c && negb (Ascii.eqb c "/")) s.

#[export] Instance uri : UriLib := {|
  path_encode _ v := if path_text v then inl v else inr (Err "not a plain parameter");
  AddPathParts u parts := mkURL (U_Host u) (U_Path u +:+ Join parts "") (U_RawPath u) (U_RawQuery u);
  query_encode ps := if query_pairs_ok ps then inl (query_text_of ps) else inr (Err "not a plain query");
  url_Parse s := inl (mkURL s "/" "" "");
  NewRequest method u := inl (mkHttpRequest method u ∅ None)
|}.

#[export] Instance paths : UriPaths := {| NormalizeEscapedPath := Some; PathUnescape := inl |}.

Definition from_strconv {A} (r : A + error) : A + gerror := match r with inl a => inl a | inr e => inr (Err e) end.

#[export] Instance decoders : UriDecoders := {|
  q_HasParam u name := match query_lookup (U_RawQuery u) name with Some _ => None | None => Some (Err "no parameter") end;
  q_DecodeValue u name := match query_lookup (U_RawQuery u) name with Some v => inl v | None => inr (Err "no parameter") end;
  path_DecodeValue _ v := if String.eqb v "" then inr (Err "empty") else inl v;
  conv_ToString := inl;
  conv_ToInt v := from_strconv (Atoi v)
|}.

#[export] Instance mime : Mime := {|
  ParseMediaType v := inl (fst (cut_at ";" v));
  multipart_body f := (MF_File f, "multipart/form-data")
|}.

#[export] Instance forms : Forms := {|
  ParseMultipartForm _ _ := inr (Err "not a form");
  multierr_Append a b := match a with Some _ => a | None => b end
|}.

Lemma path_text_no_slash v : path_text v = true -> no_slash v.
Proof.
  intros [_ Hv]%andb_true_iff. unfold no_slash. induction v as [|c v IH]; [done|]. cbn in *.
  apply andb_true_iff in Hv as [[_ Hc]%andb_true_iff Hv]. rewrite Hc. by apply IH.
Qed.

Lemma Join_cons_nil a l : Join (a :: l) "" = a +:+ Join l "".
Proof. destruct l; [by rewrite string_app_nil_r|done]. Qed.

#[export] Instance api_laws : ApiLaws.
Proof.
  constructor; try reflexivity.
  - intros u parts [_ Hr] _. unfold routed_path. cbn. by rewrite Hr.
  - intros u pre name v encoded post [_ Hr] _ _ He. cbn in He. destruct (path_text v) eqn:Ev; [|done]. simplify_eq.
    exists encoded, false. unfold routed_path. cbn [AddPathParts uri U_RawPath]. rewrite Hr. cbn [negb].
    rewrite !Join_cons_nil. split; [done|]. split; [by apply path_text_no_slash|done].
  - intros h p rp ps q name v Hq Hnd Hin. cbn in Hq. destruct (query_pairs_ok ps) eqn:Eq; [|done]. simplify_eq.
    cbn. unfold query_lookup. rewrite (query_lookup_pairs ps name v _ Eq Hnd Hin) by done. destruct v; eauto.
  - intros name v Hv. cbn. by destruct (String.eqb_spec v "").
  - intros n Hn. cbn. by rewrite Atoi_FormatInt.
Qed.
End ApiRoundtripExample.
