(* ===== verification/ApiCloud.v ===== *)
(** * The engine's two ends on the provider API

    The poll client of poller/awspollclient.go and the requests of
    db/service.go on the generated client: what Cloud states over an interface
    is joined with ApiClient, which implements it.  [cloud_view] and
    [update_of] relate the generated data to the part of it the converter and
    the service database use; [client_api] is the instance of [IProviderAPI] the
    generated client gives.  [poll_served] follows a poll through the client, the
    transport and the generated server; [service_db_refines] is the simulation
    of the service database's requests. *)

From stdpp Require Import base gmap strings list fin_maps.
From Stdlib Require Import ZArith Lia.
From S2P Require Import Prelude GoString Json Core Job Converter Scheduler Cloud.
From S2P Require Import Jx JxText ApiSchemas ApiCodec ApiJson ApiValidate ApiHttp ApiRouter ApiClient ApiServer ApiRoundtrip.

(** ** The data of both sides *)

Definition view_optnil {A B} (f : A -> B) (o : OptNil A) : Converter.OptNil B :=
  match OptNil_Get o with Some a => OSet (f a) | None => if OptNil_Null o then ONull else OUnset end.
Definition of_optnil {A B} (zero : B) (f : A -> B) (o : Converter.OptNil A) : OptNil B :=
  match o with OSet a => NewOptNil (f a) | ONull => OptNil_SetToNull zero (OptNil_zero zero) | OUnset => OptNil_zero zero end.
Definition of_nil {A} (zero : A) (o : option A) : Nil A :=
  match o with Some a => NewNil a | None => Nil_SetToNull zero (Nil_zero zero) end.

Definition view_operator (o : JobsOperatorItem) : Converter.JobsOperatorItem :=
  mkOperatorItem (JobsOperatorItem_Pauli o) (Opt_Get (JobsOperatorItem_Coeff o)).
Definition view_result (r : JobsJobResult) : Converter.JobsJobResult :=
  mkJobResult
    (view_optnil (fun v => mkSampling (JobsSamplingResult_Counts v) (view_optnil id (JobsSamplingResult_DividedCounts v)))
       (JobsJobResult_Sampling r))
    (view_optnil (fun v => mkEstimationResult (Some (JobsEstimationResult_ExpValue v)) (Some (JobsEstimationResult_Stds v)))
       (JobsJobResult_Estimation r)).
Definition view_transpile (r : JobsTranspileResult) : Converter.JobsTranspileResult :=
  mkTranspileResult (default "" (Nil_Get (JobsTranspileResult_TranspiledProgram r)))
    (Nil_Get (JobsTranspileResult_Stats r)) (Nil_Get (JobsTranspileResult_VirtualPhysicalMapping r)).

(** What the converter sees of a job definition. *)
Definition cloud_view (j : JobsJobDef) : Converter.JobsJobDef :=
  let i := JobsJobDef_JobInfo j in
  mkJobDef (JobsJobDef_JobID j) (JobsJobDef_Shots j) (JobsJobDef_JobType j)
    (mkJobInfo (default [] (JobsJobInfo_Program i)) (view_optnil id (JobsJobInfo_CombinedProgram i))
       (view_optnil (fun l => view_operator <$> default [] l) (JobsJobInfo_Operator i))
       (view_optnil view_result (JobsJobInfo_Result i)) (view_optnil view_transpile (JobsJobInfo_TranspileResult i))
       (view_optnil id (JobsJobInfo_Message i)))
    (view_optnil (fun m => Some <$> m) (JobsJobDef_TranspilerInfo j)) (view_optnil id (JobsJobDef_MitigationInfo j))
    (JobsJobDef_Status j) (view_optnil id (JobsJobDef_ExecutionTime j)) (view_optnil id (JobsJobDef_SubmittedAt j)).

Definition result_of_view (r : Converter.JobsJobResult) : JobsJobResult :=
  mkJobsJobResult
    (of_optnil JobsSamplingResult_zero (fun v => mkJobsSamplingResult (S_Counts v) (of_optnil ∅ id (S_DividedCounts v)))
       (R_Sampling r))
    (of_optnil JobsEstimationResult_zero
       (fun v => mkJobsEstimationResult (default 0 (E_ExpValue v)) (default 0 (E_Stds v))) (R_Estimation r)) ∅.
Definition transpile_of_view (r : Converter.JobsTranspileResult) : JobsTranspileResult :=
  mkJobsTranspileResult (NewNil (T_TranspiledProgram r)) (of_nil ∅ (T_Stats r)) (of_nil ∅ (T_VirtualPhysicalMapping r)).

(** The request the service database builds. *)
Definition update_of (req : Cloud.JobsUpdateJobInfoRequest) : JobsUpdateJobInfoRequest :=
  mkJobsUpdateJobInfoRequest (NewOpt (OverwriteStatus req)) (of_optnil 0 id (U_ExecutionTime req))
    (NewOpt (mkJobsUpdateJobInfo (of_optnil "" id (U_CombinedProgram req))
      (of_optnil JobsTranspileResult_zero transpile_of_view (U_TranspileResult req))
      (of_optnil JobsJobResult_zero result_of_view (U_Result req)) (of_optnil "" id (U_Message req)))).
(** A nil raw value is an empty one. *)
Definition info_of (ti : gmap string (option string)) : gmap string string := default "" <$> ti.

(** ** The engine on the client *)

(** [err.Error()]. *)
Class ErrorText := { Error : gerror -> string }.

(** [ApiKeyAuth] of [pollerSecuritySource], [dbSecuritySource] and
    [SecuritySource] (sse/apiclient/apiclient.go): the key of the settings. *)
Definition source_ApiKeyAuth (apiKey : string) (operationName : string) : ApiKeyAuth + gerror :=
  inl (ApiKeyAuth_SetAPIKey apiKey (mkApiKeyAuth "")).

Record awsPollClient := mkAwsPollClient {
  client : Client; count : Z; endpoint : string; edgeName : string; deviceName : string
}.

Section engine.
Context {D : Type} {J : JxDecoder D} {L : JxLaws D} {DT : DateTime D} {MR : MapRange} {NV : NumberValidators}.
Context {UL : UriLib} {MI : Mime} {ET : ErrorText} {WH : Type} {HC : HttpClient WH}.

Definition newAWSPollClient (apiKey endPoint edge device : string) (n : Z) (telemetry : option gerror)
    : awsPollClient + gerror :=
  rmap (fun cli => mkAwsPollClient cli n endPoint edge device)
    (NewClient endPoint (source_ApiKeyAuth apiKey) telemetry).

(** [awsPollClient.downloadUserProgram]: the answer is not looked at. *)
Definition downloadUserProgram (c : awsPollClient) (jobID : string) (w : WH) : (string + gerror) * WH :=
  let uri := endpoint c +:+ "/ssejobs/" +:+ jobID +:+ "/download-src" in
  match rbind (url_Parse uri) (NewRequest "GET") with
  | inr e => (inr e, w)
  | inl r =>
      match http_Do r w with
      | (inr e, w) => (inr e, w)
      | (inl _, w) => (inl "dummy_sse", w)
      end
  end.

(** The client of [ServiceDB.Setup]. *)
Definition ServiceDB_client (endPoint apiKey : string) (telemetry : option gerror) : Client + gerror :=
  NewClient endPoint (source_ApiKeyAuth apiKey) telemetry.

(** The answer of the client as [awsPollClient.request] distinguishes it. *)
Definition poll_answer (res0 : GetJobsRes + gerror) : Cloud.GetJobsRes + error :=
  match res0 with
  | inr e => inr (Error e)
  | inl (GetJobsRes_GetJobsOKApplicationJSON l) => inl (GetJobsOK (cloud_view <$> default [] l))
  | inl (GetJobsRes_ErrorBadRequest _) => inl (GetJobsOther "*providerapi.ErrorBadRequest")
  | inl (GetJobsRes_ErrorInternalServerError _) => inl (GetJobsOther "*providerapi.ErrorInternalServerError")
  end.

Section request.
Context {W Jb : Type} `{ITranspiler W} `{IQPUManager W} {GF : GoFloat}.
Context (jm : JobManager Jb) (mkUnknown : JobData -> Jb) (now : Z) (noContext : bool).

Definition awsPollClient_request (c : awsPollClient) (w : W) (wh : WH) : outcome (list Jb * option error) * WH :=
  let params := mkGetJobsParams (deviceName c) (NewOpt "submitted") (NewOpt (count c)) (Opt_zero "") in
  let '(res0, wh) := sendGetJobs (client c) params wh in
  (poll_request jm mkUnknown now noContext w (poll_answer res0), wh).
End request.

(** A request of the service database; every answer counts as success. *)
Definition client_call (c : Client) (r : api_request) (w : WH) : (unit + gerror) * WH :=
  match r with
  | PatchJob jid status =>
      let '(res, w) := sendPatchJob c (NewOpt (mkJobsJobStatusUpdate status)) (mkPatchJobParams jid) w in
      (rmap (fun _ => tt) res, w)
  | PatchJobInfo jid req =>
      let '(res, w) := sendPatchJobInfo c (NewOpt (update_of req)) (mkPatchJobInfoParams jid) w in
      (rmap (fun _ => tt) res, w)
  | UpdateJobTranspilerInfo jid ti =>
      let '(res, w) := sendUpdateJobTranspilerInfo c (NewOpt (info_of ti)) (mkUpdateJobTranspilerInfoParams jid) w in
      (rmap (fun _ => tt) res, w)
  end.

(** The interface of the service database, with the calls logged. *)
#[export] Program Instance client_api (c : Client) : IProviderAPI (WH * list api_request) := {|
  api_call r w := let '(res, wh) := client_call c r w.1 in
                  (match res with inl _ => None | inr e => Some (Error e) end, (wh, w.2 ++ [r]));
  api_log := snd
|}.
Next Obligation. intros c r w. cbn. by destruct (client_call c r w.1). Qed.
End engine.

(** ** Polling through the server *)

Section served.
Context {D : Type} {J : JxDecoder D} {L : JxLaws D} {DT : DateTime D} {DL : DateTimeLaws D} {MR : MapRange}.
Context {NV : NumberValidators} {NL : NumberValidatorLaws}.
Context {UL : UriLib} {UP : UriPaths} {UD : UriDecoders} {MI : Mime} {FO : Forms} {AL : ApiLaws} {ET : ErrorText}.
Context {Ctx H : Type} {MW : Middlewares Ctx H}.
Context (s : Server (Wr := recorder) (Ctx := Ctx) (H := H)) (ctx : Ctx).
#[local] Existing Instance loop.

Lemma valid_type_known j : job_def_valid j -> poll_job_type (C_JobType (cloud_view j)) <> None.
Proof.
  intros Hv. pose proof (valid_type _ Hv) as Ht. cbn. unfold JobsJobType_AllValues in Ht.
  repeat (apply elem_of_cons in Ht as [->|Ht]; [done|]). by apply elem_of_nil in Ht.
Qed.

(** A valid definition whose conversion panics carries the empty program list. *)
Lemma valid_no_program j : job_def_valid j -> Program (C_JobInfo (cloud_view j)) = [] ->
  JobsJobInfo_Program (JobsJobDef_JobInfo j) = Some [].
Proof.
  intros Hv Hp. pose proof (valid_program _ Hv) as Hn. cbn in Hp.
  destruct (JobsJobInfo_Program _) as [l|]; [|done]. cbn in Hp. by subst.
Qed.

Section polling.
Context {W Jb : Type} `{ITranspiler W} `{IQPUManager W} {GF : GoFloat}.
Context (jm : JobManager Jb) (mkUnknown : JobData -> Jb) (now : Z).

(** The jobs the poll client hands on, one per definition and in order. *)
Definition polled (w : W) (defs : list JobsJobDef) (jobs : list Jb) : Prop :=
  Forall2 (fun j jb => poll_one jm mkUnknown now w (cloud_view j) = Ret jb) defs jobs.

(** What can go wrong with a valid answer. *)
Definition no_program (j : JobsJobDef) : Prop :=
  JobsJobDef_JobType j <> "multi_manual" /\ JobsJobInfo_Program (JobsJobDef_JobInfo j) = Some [].

(** C10: The poll client against the server.  When the server accepts the
    client's key and the handler of GetJobs, called with the device of the engine,
    the status submitted and the number of jobs asked for, answers with valid job
    definitions, one request reaches it, and the poll client returns one job for
    each definition, in order and without error; the only other outcome is the
    panic of a definition that is not of type multi_manual and whose program list
    is empty, which the API's own validation admits. *)
Theorem poll_served c w h h' h'' ctx' log q l :
  facing s (client c) -> accepted s ctx (client c) GetJobsOperation h ctx' h' ->
  query_encode (poll_query (deviceName c) "submitted" (count c)) = inl q -> in_i64 (count c) ->
  h_GetJobs (S_h s) ctx' (poll_params (deviceName c) "submitted" (count c)) h' =
    (inl (Some (GetJobsRes_GetJobsOKApplicationJSON (Some l))), h'') ->
  GetJobsRes_ok (GetJobsRes_GetJobsOKApplicationJSON (Some l)) ->
  exists r res, awsPollClient_request (HC := loop s ctx) jm mkUnknown now false c w (h, log) = (res, (h'', log ++ [r])) /\
    match res with
    | Ret (jobs, e) => e = None /\ polled w (JobsJobDef_norm <$> l) jobs
    | Panic _ => Exists no_program (JobsJobDef_norm <$> l)
    end.
Proof.
  intros Hf Ha Hq Hn Hcall Hres. pose proof (proj2 Hres) as Hvalid. cbn [default] in Hvalid.
  destruct (GetJobs_served s ctx _ _ _ _ _ log _ _ _ _ _ Hf Ha Hq eq_refl Hn Hcall Hres) as [r Hr].
  exists r. eexists. unfold awsPollClient_request. fold (poll_params (deviceName c) "submitted" (count c)).
  rewrite Hr. split; [reflexivity|]. cbn [GetJobsRes_norm slice_norm poll_answer default poll_request].
  change (default [] (slice_norm JobsJobDef_norm (Some l))) with (JobsJobDef_norm <$> l).
  unfold toJobSlice.
  pose proof (toJobSlice_loop_cases jm mkUnknown now w (cloud_view <$> (JobsJobDef_norm <$> l)) []) as Hc.
  assert (Forall (fun def => poll_job_type (C_JobType def) <> None) (cloud_view <$> (JobsJobDef_norm <$> l))) as Hk.
  { apply Forall_fmap. eapply Forall_impl; [exact Hvalid|apply valid_type_known]. }
  specialize (Hc Hk). destruct (toJobSlice_loop _ _ _ _ _ _ _) as [js|m]; cbn [obind].
  - destruct Hc as (jobs & -> & Hj). split; [done|]. by apply Forall2_fmap_l in Hj.
  - apply Exists_fmap in Hc. apply Exists_exists in Hc as (j & Hin & Hp). apply Exists_exists. exists j. split; [done|].
    pose proof (proj1 (Forall_forall _ _) Hvalid j Hin) as Hj.
    apply poll_one_panic in Hp as [Ht Hp]; [|by apply valid_type_known].
    split; [exact Ht|by apply valid_no_program].
Qed.
End polling.

(** ** Updating through the server

    [spec_api] is the cloud as the service database sees it: a list of accepted
    requests.  A server whose handlers carry [step] out implements it. *)

#[local] Program Instance spec_api : IProviderAPI (list api_request) :=
  {| api_call r w := (None, w ++ [r]); api_log w := w |}.
Next Obligation. reflexivity. Qed.

Definition request_id (r : api_request) : string :=
  match r with PatchJob id _ | PatchJobInfo id _ | UpdateJobTranspilerInfo id _ => id end.
Definition request_op (r : api_request) : OperationName :=
  match r with
  | PatchJob _ _ => PatchJobOperation
  | PatchJobInfo _ _ => PatchJobInfoOperation
  | UpdateJobTranspilerInfo _ _ => UpdateJobTranspilerInfoOperation
  end.

(** A request the API's schema admits. *)
Definition body_valid (r : api_request) : Prop :=
  match r with
  | PatchJob _ status =>
      sendable JobsJobStatusUpdate_Encode JobsJobStatusUpdate_ok (mkJobsJobStatusUpdate status) /\
      JobsJobStatusUpdate_Validate (mkJobsJobStatusUpdate status) = None
  | PatchJobInfo _ req =>
      sendable JobsUpdateJobInfoRequest_Encode JobsUpdateJobInfoRequest_ok (update_of req) /\
      JobsUpdateJobInfoRequest_Validate (JobsUpdateJobInfoRequest_norm (update_of req)) = None
  | UpdateJobTranspilerInfo _ ti => sendable JobsUpdateJobTranspilerInfoRequest_Encode raw_map_ok (info_of ti)
  end.
Definition deliverable (r : api_request) : Prop :=
  request_id r <> "" /\ (exists encoded, path_encode "job_id" (request_id r) = inl encoded) /\ body_valid r.

(** The handler of the operation, called with the request, answers. *)
Definition handles (ctx' : Ctx) (r : api_request) (h h' : H) : Prop :=
  match r with
  | PatchJob id status => exists res,
      h_PatchJob (S_h s) ctx' (NewOpt (mkJobsJobStatusUpdate status)) (mkPatchJobParams id) h = (inl (Some res), h') /\
      PatchJobRes_ok res
  | PatchJobInfo id req => exists res,
      h_PatchJobInfo (S_h s) ctx' (NewOpt (JobsUpdateJobInfoRequest_norm (update_of req))) (mkPatchJobInfoParams id) h
        = (inl (Some res), h') /\ PatchJobInfoRes_ok res
  | UpdateJobTranspilerInfo id ti => exists res,
      h_UpdateJobTranspilerInfo (S_h s) ctx' (NewOpt (info_of ti)) (mkUpdateJobTranspilerInfoParams id) h
        = (inl (Some res), h') /\ UpdateJobTranspilerInfoRes_ok res
  end.

Lemma request_served c r h h' h'' ctx' log :
  facing s c -> deliverable r -> accepted s ctx c (request_op r) h ctx' h' -> handles ctx' r h' h'' ->
  exists rq, client_call (HC := loop s ctx) c r (h, log) = (inl tt, (h'', log ++ [rq])).
Proof.
  intros Hf (Hne & [encoded He] & Hb) Ha Hh. destruct r as [id st|id req|id ti]; cbn in *.
  - destruct Hb as [Hs Hv], Hh as (res & Hcall & Hres).
    destruct (PatchJob_served s ctx c h h' h'' ctx' log id encoded _ res Hf Ha He Hne Hs Hv Hcall Hres) as [rq Hr].
    exists rq. by rewrite Hr.
  - destruct Hb as [Hs Hv], Hh as (res & Hcall & Hres).
    destruct (PatchJobInfo_served s ctx c h h' h'' ctx' log id encoded _ res Hf Ha He Hne Hs Hv Hcall Hres) as [rq Hr].
    exists rq. by rewrite Hr.
  - destruct Hh as (res & Hcall & Hres).
    destruct (UpdateJobTranspilerInfo_served s ctx c h h' h'' ctx' log id encoded _ res Hf Ha He Hne Hb Hcall Hres)
      as [rq Hr].
    exists rq. by rewrite Hr.
Qed.

Section updating.
Context {GF : GoFloat}.
Context (c : Client) (step : api_request -> H -> H).

(** The server accepts every deliverable request and carries [step] out. *)
Definition implements : Prop := forall r h, deliverable r ->
  exists ctx' h', accepted s ctx c (request_op r) h ctx' h' /\ handles ctx' r h' (step r h).
Definition run_requests (h : H) (reqs : list api_request) : H := foldl (fun h r => step r h) h reqs.

(** The worlds of both sides: the handlers' state after the requests, one HTTP
    request for each of them. *)
Definition related (h0 : H) (log0 : list HttpRequest) (reqs : list api_request)
    (w : (H * list HttpRequest) * list api_request) : Prop :=
  exists rqs, w = ((run_requests h0 reqs, log0 ++ rqs), reqs) /\ length rqs = length reqs.

#[local] Abbreviation client_world := (client_api (HC := loop s ctx) c).

Lemma call_related h0 log0 reqs w r : facing s c -> implements -> deliverable r -> related h0 log0 reqs w ->
  exists w', api_call (IProviderAPI := client_world) r w = (None, w') /\ related h0 log0 (reqs ++ [r]) w'.
Proof.
  intros Hf Hi Hd (rqs & -> & Hlen). destruct (Hi r (run_requests h0 reqs) Hd) as (ctx' & h' & Ha & Hh).
  destruct (request_served c r _ _ _ _ (log0 ++ rqs) Hf Hd Ha Hh) as [rq Hr].
  eexists. split; [cbn; rewrite Hr; reflexivity|]. exists (rqs ++ [rq]). rewrite !length_app, Hlen. split; [|done].
  unfold run_requests. by rewrite foldl_app, app_assoc.
Qed.

Lemma last_deliverable reqs r : Forall deliverable (reqs ++ [r]) -> Forall deliverable reqs /\ deliverable r.
Proof. rewrite Forall_app, Forall_singleton. done. Qed.

(** The requests made so far stay. *)
Lemma Update_grows reqs d : exists more, (ServiceDB_Update (HA := spec_api) (reqs, d)).2.1 = reqs ++ more.
Proof.
  unfold ServiceDB_Update, bind, get, modify, lift, gopanic, ret, updateStatusOnly, putTranspilerInfo, call. cbn.
  destruct (ConvertToCloudJob d) as [cJob d']. cbn.
  repeat (case_match; cbn; simplify_eq/=); try (exists []; by rewrite app_nil_r); try (by eexists);
    rewrite <- app_assoc; by eexists.
Qed.

Lemma Update_related h0 log0 reqs w d r reqs' d' : facing s c -> implements -> related h0 log0 reqs w ->
  ServiceDB_Update (HA := spec_api) (reqs, d) = (r, (reqs', d')) -> Forall deliverable reqs' ->
  exists w', ServiceDB_Update (HA := client_world) (w, d) = (r, (w', d')) /\ related h0 log0 reqs' w'.
Proof.
  intros Hf Hi Hw Hu Hd. unfold ServiceDB_Update, bind, get, modify, lift, gopanic, ret in *. cbn in *.
  destruct (ConvertToCloudJob d) as [cJob d1]. cbn in *.
  destruct (negb (UseJobInfoUpdate d1)).
  { unfold updateStatusOnly, call, ret in *. destruct (String.eqb _ _); [|simplify_eq/=; by eauto].
    cbn in Hu. simplify_eq. apply last_deliverable in Hd as [_ Hd].
    destruct (call_related h0 log0 reqs w _ Hf Hi Hd Hw) as (w' & Hc & Hr). cbn [fst snd]. rewrite Hc. by eauto. }
  destruct (update_transpile_result d1 cJob) as [tr|m]; [|simplify_eq/=; by eauto].
  destruct (Result_TranspilerInfo (JobResult d1)) as [info|]; [|simplify_eq/=; by eauto].
  unfold call in *. cbn [fst snd api_call spec_api] in Hu.
  match goal with |- context [api_call (PatchJobInfo ?i ?q)] => set (req := PatchJobInfo i q) in * end.
  assert (Forall deliverable (reqs ++ [req])) as Hd1.
  { unfold putTranspilerInfo, call, ret in Hu. cbn in Hu. repeat case_match; simplify_eq/=; try done.
    by apply last_deliverable in Hd as [Hd _]. }
  pose proof Hd1 as Hd2. apply last_deliverable in Hd2 as [_ Hd2].
  destruct (call_related h0 log0 reqs w req Hf Hi Hd2 Hw) as (w1 & Hc & Hr). cbn [fst snd] in Hc |- *. rewrite Hc.
  destruct (NeedsUpdateTranspilerInfo d1); [|simplify_eq/=; by eauto].
  unfold putTranspilerInfo, call, ret in *. destruct (OGet (C_TranspilerInfo cJob)) as [ti|]; [|simplify_eq/=; by eauto].
  cbn [fst snd api_call spec_api] in Hu. simplify_eq. apply last_deliverable in Hd as [_ Hd].
  destruct (call_related h0 log0 _ w1 _ Hf Hi Hd Hr) as (w2 & Hc2 & Hr2). cbn [fst snd]. rewrite Hc2. by eauto.
Qed.

Lemma loop_grows reqs msgs : exists more, (ServiceDB_loop (HA := spec_api) msgs reqs).2 = reqs ++ more.
Proof.
  revert reqs. induction msgs as [|[d|] msgs IH]; intros reqs; cbn [ServiceDB_loop];
    [exists []; by rewrite app_nil_r| |exists []; by rewrite app_nil_r].
  unfold bind. destruct (Update_grows reqs d) as [more Hm].
  destruct (ServiceDB_Update _) as [[e|m] [reqs' d']]; cbn in Hm |- *; [|by exists more].
  rewrite Hm. destruct (IH (reqs ++ more)) as [more' ->]. exists (more ++ more'). by rewrite app_assoc.
Qed.

Lemma loop_related h0 log0 reqs w msgs r reqs' : facing s c -> implements -> related h0 log0 reqs w ->
  ServiceDB_loop (HA := spec_api) msgs reqs = (r, reqs') -> Forall deliverable reqs' ->
  exists w', ServiceDB_loop (HA := client_world) msgs w = (r, w') /\ related h0 log0 reqs' w'.
Proof.
  intros Hf Hi. revert reqs w. induction msgs as [|[d|] msgs IH]; intros reqs w Hw Hl Hd; cbn [ServiceDB_loop] in Hl |- *;
    [unfold ret in *; simplify_eq/=; by eauto| |unfold bind, gopanic in *; simplify_eq/=; by eauto].
  unfold bind in *. destruct (ServiceDB_Update (reqs, d)) as [r1 [reqs1 d1]] eqn:Eu.
  assert (Forall deliverable reqs1) as Hd1.
  { destruct r1; [|by simplify_eq/=]. destruct (loop_grows reqs1 msgs) as [more Hm]. rewrite Hl in Hm. cbn in Hm.
    subst reqs'. by apply Forall_app in Hd as [Hd _]. }
  destruct (Update_related h0 log0 reqs w d r1 reqs1 d1 Hf Hi Hw Eu Hd1) as (w1 & Hu & Hw1). rewrite Hu.
  destruct r1 as [e|m]; [exact (IH reqs1 w1 Hw1 Hl Hd)|]. simplify_eq/=. eauto.
Qed.

(** C11: The service database over the generated client and server refines the
    abstract one.  Whatever jobs it receives: run on an API that just accepts
    requests it makes some list of them (and ends or panics).  If the API's schema
    admits these requests and the server implements them, then run on the
    generated client against the generated server it ends in the same way, the
    server's handlers have been called with exactly these requests in order, and
    each took one HTTP request. *)
Theorem service_db_refines h log msgs r reqs :
  facing s c -> implements -> ServiceDB_loop (HA := spec_api) msgs [] = (r, reqs) -> Forall deliverable reqs ->
  exists rqs, ServiceDB_loop (HA := client_world) msgs ((h, log), []) = (r, ((run_requests h reqs, log ++ rqs), reqs)) /\
    length rqs = length reqs.
Proof.
  intros Hf Hi Hl Hd. destruct (loop_related h log [] ((h, log), []) msgs r reqs Hf Hi) as (w' & Hw & rqs & -> & Hlen);
    [exists []; by rewrite app_nil_r|done|done|]. by exists rqs.
Qed.
End updating.
End served.

(** ** A server that records what it is told *)

Module ApiCloudExample.
Export ApiValidateExample ApiRoundtripExample.
#[local] Existing Instance canonical_range.
#[local] Existing Instance CloudExample.floats.
#[export] Instance errors : ErrorText := {| Error _ := "error" |}.
#[export] Instance no_middleware : Middlewares unit (list (string * (string + JobsUpdateJobInfoRequest + gmap string string))) :=
  {| Middleware := Empty_set; HookMiddleware _ _ _ m := match m with end |}.

(** What was told about which job: its status, its result, its transpiler. *)
Definition told : Type := string * (string + JobsUpdateJobInfoRequest + gmap string string).
Definition H : Type := list told.

Definition said (r : api_request) : told :=
  match r with
  | PatchJob id status => (id, inl (inl status))
  | PatchJobInfo id req => (id, inl (inr (JobsUpdateJobInfoRequest_norm (update_of req))))
  | UpdateJobTranspilerInfo id ti => (id, inr (info_of ti))
  end.
Definition step (r : api_request) (h : H) : H := h ++ [said r].

Definition refuse {A B} (a : A) (h : H) : (option B + gerror) * H := (inr (Err "not implemented"), h).
Definition handler : Handler (Ctx := unit) (H := H) := {|
  h_GetJob _ := refuse; h_GetSsesrc _ := refuse;
  h_PatchDevice _ _ := refuse; h_PatchDeviceInfo _ _ := refuse; h_PatchDeviceStatus _ _ := refuse;
  h_PatchSselog _ _ := refuse;
  h_GetJobs _ _ h := (inl (Some (GetJobsRes_GetJobsOKApplicationJSON (Some [ApiExample.job]))), h);
  h_PatchJob _ u p h :=
    (inl (Some (PatchJobRes_JobsJobStatusUpdateResponse (mkJobsJobStatusUpdateResponse "ok"))),
     h ++ [(PatchJobParams_JobID p, inl (inl (JobsJobStatusUpdate_Status (Opt_Value u))))]);
  h_PatchJobInfo _ u p h :=
    (inl (Some (PatchJobInfoRes_JobsUpdateJobInfoResponse (mkJobsUpdateJobInfoResponse "ok"))),
     h ++ [(PatchJobInfoParams_JobID p, inl (inr (Opt_Value u)))]);
  h_UpdateJobTranspilerInfo _ u p h :=
    (inl (Some (UpdateJobTranspilerInfoRes_JobsUpdateJobTranspilerInfoResponse
       (mkJobsUpdateJobTranspilerInfoResponse "ok"))),
     h ++ [(UpdateJobTranspilerInfoParams_JobID p, inr (Opt_Value u))])
|}.
Definition security (ctx : unit) (op : string) (key : ApiKeyAuth) (h : H) : (unit + gerror) * H :=
  if String.eqb (ApiKeyAuth_APIKey key) "secret" then (inl tt, h) else (inr (Err "unknown key"), h).
Definition server : Server (Wr := recorder) (Ctx := unit) (H := H) :=
  mkServer handler security (newServerConfig (fun _ => w_WriteHeader 404) (fun _ _ _ => w_WriteHeader 500) []).
Definition client0 : Client := mkClient (mkURL "http://cloud" "" "" "") (source_ApiKeyAuth "secret").

Lemma server_facing : facing server client0.
Proof. repeat split. Qed.

Lemma client_accepted op h : accepted server tt client0 op h tt h.
Proof. exists (mkApiKeyAuth "secret"). split_and!; done. Qed.

Lemma server_implements : implements server tt client0 step.
Proof.
  intros r h _. exists tt, h. split; [apply client_accepted|]. destruct r; cbn; eexists; (split; [reflexivity|]); (split; [reflexivity|ApiExample.eval_fits]).
Qed.

(** A poll for ten jobs of the device. *)
Definition poller : awsPollClient := mkAwsPollClient client0 10 "http://cloud" "edge" "qpu".
Definition poll (log : list HttpRequest) : outcome (list NormalJob * option error) * (H * list HttpRequest) :=
  awsPollClient_request (D := text_decoder) (HC := loop (D := text_decoder) server tt) CloudExample.manager NormalJob_New 0
    false poller SchedExample.start ([], log).

Lemma answer_ok : GetJobsRes_ok (D := text_decoder) (GetJobsRes_GetJobsOKApplicationJSON (Some [ApiExample.job])).
Proof.
  split; [split; [|ApiExample.eval_fits]|].
  - exact (conj ApiExample.job_ok I) || (constructor; [exact ApiExample.job_ok|constructor]).
  - constructor; [|constructor]. apply (bool_decide_unpack _). vm_compute. reflexivity.
Qed.

Lemma poll_served_witness : exists r res, poll [] = (res, ([], [] ++ [r])) /\
  match res with
  | Ret (jobs, e) => e = None /\
      polled CloudExample.manager NormalJob_New 0 SchedExample.start (JobsJobDef_norm <$> [ApiExample.job]) jobs
  | Panic _ => Exists no_program (JobsJobDef_norm <$> [ApiExample.job])
  end.
Proof.
  refine (poll_served (D := text_decoder) server tt CloudExample.manager NormalJob_New 0 poller SchedExample.start
    [] [] [] tt [] "device_id=qpu&status=submitted&max_results=10&" [ApiExample.job] server_facing _ _ _ _ answer_ok).
  - apply client_accepted.
  - vm_compute. reflexivity.
  - unfold in_i64. cbn. lia.
  - reflexivity.
Defined.

(** A job that starts to run and one that is done. *)
Definition started : JobData := set_JobStatus RUNNING (jd (SchedExample.job "a")).
Definition finished : JobData := set_UseJobInfoUpdate true (set_JobStatus SUCCEEDED (jd (SchedExample.job "b"))).
Definition messages : list (option JobData) := [Some started; Some finished].
Definition requests : list api_request := (ServiceDB_loop (HA := spec_api) messages []).2.

Lemma requests_deliverable : Forall (deliverable (D := text_decoder)) requests.
Proof.
  let rs := eval vm_compute in requests in change requests with rs.
  apply Forall_cons; split; [|apply Forall_singleton].
  - split; [done|]. split; [eexists; vm_compute; reflexivity|]. split; [|reflexivity].
    split; [reflexivity|ApiExample.eval_fits].
  - split; [done|]. split; [eexists; vm_compute; reflexivity|]. split; [|reflexivity].
    split; [|ApiExample.eval_fits].
    unfold JobsUpdateJobInfoRequest_ok. cbn -[OptNil_ok Opt_ok]. ApiExample.eval_ok.
Qed.

Lemma service_db_refines_witness : exists rqs,
  ServiceDB_loop (HA := client_api (D := text_decoder) (HC := loop (D := text_decoder) server tt) client0) messages
    (([], []), []) = (Ret tt, ((run_requests step [] requests, [] ++ rqs), requests)) /\
  length rqs = length requests.
Proof.
  refine (service_db_refines (D := text_decoder) server tt client0 step [] [] messages (Ret tt) requests server_facing
    server_implements _ requests_deliverable).
  vm_compute. reflexivity.
Defined.

(** A request with a key the server does not know. *)
Definition stranger : ServerRequest :=
  mkServerRequest "PATCH" (mkURL "" "/jobs/b/status" "" "") {["X-Api-Key" := ["guess"]]} 0 (inl "").

Lemma server_requires_key_witness :
  exists w, Server_ServeHTTP (D := text_decoder) server tt stranger [] no_response = Ret ([], w).
Proof.
  refine (server_requires_key (D := text_decoder) server tt stranger [] no_response _).
  right. intros op. exists (Err "unknown key"). reflexivity.
Defined.
End ApiCloudExample.
