(* ===== verification/Antlr.v ===== *)
(** * The ANTLR runtime as the generated parser uses it

    [ParserRuntime] is the parser object of the runtime (github.com/antlr/antlr4)
    with its token stream, contexts and prediction, over a state of its own: the
    methods the generated rule functions call.  [ParserLaws] says what they do to
    what can be observed, [view]: the tokens ahead, the contexts under
    construction and the precedences, under the error strategy the program sets,
    [BailErrorStrategy], which panics at the first error.  Prediction is left
    open but for its range: what is proved holds for every prediction.

    Grammars are regular expressions over tokens and rules; [parses] is the
    judgement on code: it builds nodes in the language of an expression out of
    the tokens it consumes, and it ends when fewer than [n] tokens are ahead.  Its
    rules follow the code. *)

From stdpp Require Import base list strings.
From Stdlib Require Import ZArith Lia.
From S2P Require Import Prelude.

(** ** Tokens, contexts, trees *)

Record token := mkToken { tok_type : Z; tok_text : string }.
Definition TokenEOF : Z := -1.
Definition ATNInvalidAltNumber : Z := 0.
Definition eof_token : token := mkToken TokenEOF "<EOF>".

(** A context is its kind, its labels ([op=], [body=]) and its children. *)
Inductive node (K : Type) :=
| Leaf (t : token)
| Node (k : K) (labels : list (string * node K)) (children : list (node K)).
Arguments Leaf {K}.
Arguments Node {K}.

Fixpoint node_tokens {K} (n : node K) : list token :=
  match n with
  | Leaf t => if tok_type t =? TokenEOF then [] else [t]
  | Node _ _ children => concat (map node_tokens children)
  end.
Definition tokens {K} (ns : list (node K)) : list token := concat (map node_tokens ns).

(** [GetText]: the texts of the tokens, one after the other. *)
Fixpoint GetText {K} (n : node K) : string :=
  match n with
  | Leaf t => tok_text t
  | Node _ _ children => String.concat "" (map GetText children)
  end.

(** A context under construction. *)
Record frame (K : Type) := mkFrame { f_kind : K; f_labels : list (string * node K); f_children : list (node K) }.
Arguments mkFrame {K}.
Arguments f_kind {K}.
Arguments f_labels {K}.
Arguments f_children {K}.
Definition node_of {K} (f : frame K) : node K := Node (f_kind f) (f_labels f) (f_children f).
Definition add_child {K} (n : node K) (f : frame K) : frame K := mkFrame (f_kind f) (f_labels f) (f_children f ++ [n]).
Definition add_label {K} (name : string) (n : node K) (f : frame K) : frame K :=
  mkFrame (f_kind f) ((name, n) :: f_labels f) (f_children f).

(** ** Results of runtime calls *)

Inductive exception :=
| RecognitionException (what : string)
| OtherPanic (what : string).
Inductive pres (A : Type) := Ok (a : A) | Raise (e : exception) | OutOfFuel.
Arguments Ok {A}.
Arguments Raise {A}.
Arguments OutOfFuel {A}.
Definition PM (P A : Type) : Type := P -> pres A * P.

Class ParserRuntime (K P : Type) := {
  p_LA1 : P -> Z;
  p_LT1 : P -> token;
  p_SetState : Z -> P -> P;
  p_GetParserRuleContext : P -> node K;
  p_EnterRule : K -> Z -> P -> P;
  p_EnterOuterAlt : Z -> P -> P;
  p_ExitRule : P -> P;
  p_SetField : string -> node K -> P -> P;
  p_SetStop : P -> P;
  p_Match : Z -> PM P token;
  p_Consume : PM P token;
  p_ReportMatch : P -> P;
  p_RecoverInline : PM P token;
  p_Sync : PM P unit;
  p_AdaptivePredict : Z -> PM P Z;
  p_SetException : exception -> P -> P;
  p_ReportError : exception -> P -> P;
  p_Recover : exception -> PM P unit;
  p_EnterRecursionRule : K -> Z -> Z -> P -> P;
  p_SetParserRuleContext : K -> P -> P;
  p_PushNewRecursionContext : K -> Z -> P -> P;
  p_UnrollRecursionContexts : P -> P;
  p_Precpred : Z -> P -> bool;
  p_GetParseListeners : P -> bool;
  p_TriggerExitRuleEvent : P -> P
}.

(** ** Code over the runtime *)

Section code.
Context {K P : Type} {PR : ParserRuntime K P}.

Definition pret {A} (a : A) : PM P A := fun p => (Ok a, p).
Definition praise {A} (e : exception) : PM P A := fun p => (Raise e, p).
Definition out_of_fuel {A} : PM P A := fun p => (OutOfFuel, p).
Definition pbind {A B} (m : PM P A) (k : A -> PM P B) : PM P B := fun p =>
  match m p with
  | (Ok a, p) => k a p
  | (Raise e, p) => (Raise e, p)
  | (OutOfFuel, p) => (OutOfFuel, p)
  end.
Definition pdo (f : P -> P) : PM P unit := fun p => (Ok tt, f p).
Definition pget {A} (f : P -> A) : PM P A := fun p => (Ok (f p), p).

(** [for cond(x) { body; x = next }] *)
Fixpoint for_loop (fuel : nat) (cond : Z -> bool) (body : Z -> PM P unit) (next : PM P Z) (x : Z) : PM P unit :=
  match fuel with
  | O => out_of_fuel
  | S fuel' => if cond x then pbind (body x) (fun _ => pbind next (for_loop fuel' cond body next)) else pret tt
  end.

(** The deferred function that recovers: a recognition error goes to the error
    handler, anything else panics on. *)
Definition recovering (body : PM P unit) : PM P unit := fun p =>
  match body p with
  | (Raise (RecognitionException e), p) =>
      p_Recover (RecognitionException e) (p_ReportError (RecognitionException e) (p_SetException (RecognitionException e) p))
  | r => r
  end.

(** A rule function: its context is entered, the body runs, the context is left
    whatever happens and returned. *)
Definition rule_function (enter : P -> P) (exit : P -> P) (body : PM P unit) : PM P (node K) := fun p =>
  match recovering body (enter p) with
  | (Ok _, p) => (Ok (p_GetParserRuleContext p), exit p)
  | (Raise e, p) => (Raise e, exit p)
  | (OutOfFuel, p) => (OutOfFuel, p)
  end.

Definition SetState (s : Z) : PM P unit := pdo (p_SetState s).
Definition EnterOuterAlt (alt : Z) : PM P unit := pdo (p_EnterOuterAlt alt).
Definition LA1 : PM P Z := pget p_LA1.
Definition LT1 : PM P token := pget p_LT1.
Definition SetField (name : string) (n : node K) : PM P unit := pdo (p_SetField name n).
Definition Match (t : Z) : PM P token := p_Match t.
Definition ReportMatch : PM P unit := pdo p_ReportMatch.
Definition NoViableAltException : exception := RecognitionException "NoViableAltException".
Definition FailedPredicateException (predicate : string) : exception := RecognitionException predicate.
End code.

Declare Scope antlr_scope.
Delimit Scope antlr_scope with antlr.
Notation "m ;;; k" := (pbind m (fun _ => k)) (at level 100, right associativity) : antlr_scope.
Notation "'let%' x := m 'in' k" := (pbind m (fun x => k)) (at level 10, x name, k at level 200) : antlr_scope.

(** [((_la-base)&-(0x1f+1)) == 0 && ((1<<uint(_la-base))&(mask)) != 0] *)
Definition mask (base : Z) (ts : list Z) : Z := foldr (fun t m => Z.lor (Z.shiftl 1 (t - base)) m) 0 ts.
Definition bit_test (base : Z) (ts : list Z) (la : Z) : bool :=
  (Z.land (la - base) (- (31 + 1)) =? 0) && negb (Z.land (Z.shiftl 1 (la - base)) (mask base ts) =? 0).

Lemma mask_bit base ts i : 0 <= i -> Forall (fun t => base <= t) ts ->
  Z.testbit (mask base ts) i = true <-> base + i ∈ ts.
Proof.
  intros Hi. induction 1 as [|t ts Ht Hts IH]; cbn [mask foldr].
  - rewrite Z.bits_0. split; [done|]. by intros ?%elem_of_nil.
  - fold (mask base ts). rewrite Z.lor_spec, orb_true_iff, IH, elem_of_cons, Z.shiftl_spec by done.
    rewrite <- (Z.pow_0_r 2) at 1. rewrite Z.pow2_bits_eqb by lia. rewrite Z.eqb_eq. intuition lia.
Qed.

(** The test is membership. *)
Lemma bit_test_spec base ts la : Forall (fun t => base <= t < base + 32) ts -> bit_test base ts la = true <-> la ∈ ts.
Proof.
  intros Hts. unfold bit_test. rewrite andb_true_iff, negb_true_iff, Z.eqb_eq, Z.eqb_neq.
  assert (Z.land (la - base) (- (31 + 1)) = 0 <-> base <= la < base + 32) as ->.
  { change (- (31 + 1)) with (Z.lnot (Z.ones 5)). rewrite <- Z.ldiff_land, Z.ldiff_ones_r, Z.shiftl_mul_pow2, Z.shiftr_div_pow2 by lia.
    change (2 ^ 5) with 32. pose proof (Z.div_mod (la - base) 32 ltac:(lia)).
    pose proof (Z.mod_pos_bound (la - base) 32 ltac:(lia)). split; intros; nia. }
  assert (Forall (fun t => base <= t) ts) as Hb by (eapply Forall_impl; [exact Hts|cbn; lia]).
  split.
  - intros [Hr Hm]. replace la with (base + (la - base)) by lia. apply mask_bit; [lia|done|].
    destruct (Z.testbit (mask base ts) (la - base)) eqn:E; [done|]. exfalso. apply Hm.
    apply Z.bits_inj'. intros i Hi. rewrite Z.land_spec, Z.bits_0, Z.shiftl_spec by done.
    rewrite <- (Z.pow_0_r 2) at 1. rewrite Z.pow2_bits_eqb by lia.
    destruct (Z.eqb_spec 0 (i - (la - base))); [|done]. replace i with (la - base) by lia. by rewrite E.
  - intros Hin. pose proof (proj1 (Forall_forall _ _) Hts la Hin) as Hr. cbn in Hr. split; [done|]. intros H0.
    assert (Z.testbit (mask base ts) (la - base) = true) as E by (apply mask_bit; [lia|done|]; by replace (base + (la - base)) with la by lia).
    assert (Z.testbit (Z.land (Z.shiftl 1 (la - base)) (mask base ts)) (la - base) = true) as E2.
    { rewrite Z.land_spec, E, Z.shiftl_spec by lia. by replace (la - base - (la - base)) with 0 by lia. }
    by rewrite H0, Z.bits_0 in E2.
Qed.
