(* ===== verification/AntlrLaws.v ===== *)
(** * What the ANTLR runtime does, grammars, and code that follows a grammar

    The laws of [ParserRuntime] over [view], grammars as regular expressions
    ([re], [matches], [derives]), and the judgement [parses] with a rule for each
    construct of the generated code. *)

From stdpp Require Import base list strings.
From Stdlib Require Import ZArith Lia.
From S2P Require Import Prelude Antlr.

(** ** What can be observed of the parser object *)

Record view (K : Type) := mkView { v_input : list token; v_frames : list (frame K); v_prec : list Z }.
Arguments mkView {K}.
Arguments v_input {K}.
Arguments v_frames {K}.
Arguments v_prec {K}.

Section views.
Context {K : Type}.
Implicit Types v : view K.

Definition v_la v : Z := match v_input v with [] => TokenEOF | t :: _ => tok_type t end.
Definition v_lt v : token := match v_input v with [] => eof_token | t :: _ => t end.
Definition on_top (g : frame K -> frame K) v : view K :=
  mkView (v_input v) (match v_frames v with f :: fs => g f :: fs | [] => [] end) (v_prec v).
Definition v_push (k : K) v : view K := mkView (v_input v) (mkFrame k [] [] :: v_frames v) (v_prec v).
(** The finished context becomes a child of the one below, if there is one. *)
Definition pop_frame (fs : list (frame K)) : list (frame K) :=
  match fs with f :: g :: fs => add_child (node_of f) g :: fs | _ => [] end.
Definition v_exit v : view K := mkView (v_input v) (pop_frame (v_frames v)) (v_prec v).
Definition v_match (t : Z) v : option (token * view K) :=
  match v_input v with
  | [] => if t =? TokenEOF then Some (eof_token, on_top (add_child (Leaf eof_token)) v) else None
  | tok :: rest =>
      if tok_type tok =? t then Some (tok, on_top (add_child (Leaf tok)) (mkView rest (v_frames v) (v_prec v))) else None
  end.
Definition v_enter_recursion (k : K) (prec : Z) v : view K :=
  mkView (v_input v) (mkFrame k [] [] :: v_frames v) (prec :: v_prec v).
Definition v_unroll v : view K := mkView (v_input v) (pop_frame (v_frames v)) (tail (v_prec v)).
End views.

(** [alts d] is the number of alternatives of a decision. *)
Class ParserLaws (K P : Type) {PR : ParserRuntime K P} (alts : Z -> Z) := {
  view_of : P -> view K;
  law_LA1 : forall p, p_LA1 p = v_la (view_of p);
  law_LT1 : forall p, p_LT1 p = v_lt (view_of p);
  law_SetState : forall s p, view_of (p_SetState s p) = view_of p;
  law_EnterOuterAlt : forall alt p, view_of (p_EnterOuterAlt alt p) = view_of p;
  law_SetStop : forall p, view_of (p_SetStop p) = view_of p;
  law_ReportMatch : forall p, view_of (p_ReportMatch p) = view_of p;
  law_TriggerExitRuleEvent : forall p, view_of (p_TriggerExitRuleEvent p) = view_of p;
  law_GetParserRuleContext : forall p f fs, v_frames (view_of p) = f :: fs -> p_GetParserRuleContext p = node_of f;
  law_SetField : forall name n p, view_of (p_SetField name n p) = on_top (add_label name n) (view_of p);
  law_EnterRule : forall k s p, view_of (p_EnterRule k s p) = v_push k (view_of p);
  law_ExitRule : forall p, view_of (p_ExitRule p) = v_exit (view_of p);
  law_Match : forall t p,
    match v_match t (view_of p) with
    | Some (tok, v') => exists p', p_Match t p = (Ok tok, p') /\ view_of p' = v'
    | None => exists m p', p_Match t p = (Raise (OtherPanic m), p')
    end;
  law_Consume : forall p tok rest, v_input (view_of p) = tok :: rest ->
    exists p', p_Consume p = (Ok tok, p') /\
      view_of p' = on_top (add_child (Leaf tok)) (mkView rest (v_frames (view_of p)) (v_prec (view_of p)));
  law_RecoverInline : forall p, exists m p', p_RecoverInline p = (Raise (OtherPanic m), p');
  law_Sync : forall p, exists p', p_Sync p = (Ok tt, p') /\ view_of p' = view_of p;
  law_AdaptivePredict : forall d p,
    (exists a p', p_AdaptivePredict d p = (Ok a, p') /\ 1 <= a <= alts d /\ view_of p' = view_of p) \/
    (exists e p', p_AdaptivePredict d p = (Raise e, p'));
  law_Recover : forall e p, exists m p', p_Recover e p = (Raise (OtherPanic m), p');
  law_EnterRecursionRule : forall k s prec p, view_of (p_EnterRecursionRule k s prec p) = v_enter_recursion k prec (view_of p);
  law_SetParserRuleContext : forall k p,
    view_of (p_SetParserRuleContext k p) = on_top (fun _ => mkFrame k [] []) (view_of p);
  law_PushNewRecursionContext : forall k s p,
    view_of (p_PushNewRecursionContext k s p) = on_top (fun f => mkFrame k [] [node_of f]) (view_of p);
  law_UnrollRecursionContexts : forall p, view_of (p_UnrollRecursionContexts p) = v_unroll (view_of p);
  law_Precpred : forall n p q qs, v_prec (view_of p) = q :: qs -> p_Precpred n p = (q <=? n)
}.

(** ** Grammars *)

Inductive re (R : Type) :=
| Tok (ts : list Z)
| NT (r : R) (lvl : Z)
| Eps
| Seq (a b : re R)
| Alt (a b : re R)
| Star (a : re R).
Arguments Tok {R}.
Arguments NT {R}.
Arguments Eps {R}.
Arguments Seq {R}.
Arguments Alt {R}.
Arguments Star {R}.
Definition Opt {R} (a : re R) : re R := Alt a Eps.

(** The kinds of contexts belong to rules; a kind has the level of its
    precedence and a right-hand side, which for the operators of a left-recursive
    rule starts with the left operand. *)
Class Grammar (K R : Type) := {
  rule_of : K -> R;
  level : K -> Z;
  left_operand : K -> bool;
  rhs : K -> re R;
  rule_nullable : R -> bool
}.

Section grammars.
Context {K R : Type} {G : Grammar K R}.
Implicit Types ns : list (node K).

(** The loosest operator along the left operands of a context: what decides
    whether the context may stand where a precedence is asked for. *)
Fixpoint node_level (n : node K) : Z :=
  match n with
  | Leaf _ => 0
  | Node k _ ch => match ch with c :: _ => if left_operand k then Z.min (level k) (node_level c) else level k | [] => level k end
  end.

Inductive matches : re R -> list (node K) -> Prop :=
| m_tok ts t : tok_type t ∈ ts -> matches (Tok ts) [Leaf t]
| m_nt lvl k ls ch : lvl <= node_level (Node k ls ch) -> matches (NT (rule_of k) lvl) [Node k ls ch]
| m_eps : matches Eps []
| m_seq a b ns ns' : matches a ns -> matches b ns' -> matches (Seq a b) (ns ++ ns')
| m_left a b ns : matches a ns -> matches (Alt a b) ns
| m_right a b ns : matches b ns -> matches (Alt a b) ns
| m_none a : matches (Star a) []
| m_more a ns ns' : matches a ns -> matches (Star a) ns' -> matches (Star a) (ns ++ ns').

(** Every context of the tree is an instance of its right-hand side. *)
Inductive derives : node K -> Prop :=
| d_leaf t : derives (Leaf t)
| d_node k ls ch : matches (rhs k) ch -> Forall derives ch -> derives (Node k ls ch).

Fixpoint nullable (r : re R) : bool :=
  match r with
  | Tok ts => existsb (Z.eqb TokenEOF) ts
  | NT r _ => rule_nullable r
  | Eps | Star _ => true
  | Seq a b => nullable a && nullable b
  | Alt a b => nullable a || nullable b
  end.

Class GrammarLaws := {
  nullable_law : forall k, rule_nullable (rule_of k) = false -> nullable (rhs k) = false;
  level_nonneg : forall k, 0 <= level k
}.

Lemma level_alone k ls ch : left_operand k = false -> node_level (Node k ls ch) = level k.
Proof. intros H. cbn. by destruct ch as [|c ch]; [|rewrite H]. Qed.
Lemma level_above k ls c ch q : q <= level k -> q <= node_level c -> q <= node_level (Node k ls (c :: ch)).
Proof. intros H1 H2. cbn. destruct (left_operand k); lia. Qed.

Lemma node_induction (Q : node K -> Prop) : (forall t, Q (Leaf t)) ->
  (forall k ls ch, Forall Q ch -> Q (Node k ls ch)) -> forall n, Q n.
Proof.
  intros Hl Hn. fix IH 1. intros [t|k ls ch]; [apply Hl|]. apply Hn. induction ch as [|n ch IHch]; constructor; [apply IH|exact IHch].
Qed.

Lemma tokens_app ns ns' : tokens (ns ++ ns') = tokens ns ++ tokens ns'.
Proof. unfold tokens. by rewrite map_app, concat_app. Qed.

Lemma node_tokens_node k ls (ch : list (node K)) : node_tokens (Node k ls ch) = tokens ch.
Proof. reflexivity. Qed.

Lemma matches_tokens r ns : matches r ns -> nullable r = false ->
  Forall (fun n => match n with Node k _ _ => rule_nullable (rule_of k) = false -> node_tokens n <> [] | _ => True end) ns ->
  tokens ns <> [].
Proof.
  induction 1 as [ts t Ht|lvl k ls ch Hl| |a b ns ns' Ha IHa Hb IHb|a b ns Ha IHa|a b ns Hb IHb| |]; cbn [nullable];
    intros Hn Hf; try done.
  - unfold tokens. cbn. destruct (Z.eqb_spec (tok_type t) TokenEOF) as [E|]; [|done]. exfalso.
    rewrite E in Ht. assert (existsb (Z.eqb TokenEOF) ts = true) as Hx; [|congruence].
    apply existsb_exists. exists TokenEOF. split; [by apply list_elem_of_In|done].
  - rewrite Forall_singleton in Hf. unfold tokens. cbn [map concat]. rewrite app_nil_r. by apply Hf.
  - rewrite tokens_app. apply Forall_app in Hf as [Hf1 Hf2]. apply andb_false_iff in Hn as [Hn|Hn].
    + intros [E _]%app_eq_nil. by apply IHa.
    + intros [_ E]%app_eq_nil. by apply IHb.
  - apply orb_false_iff in Hn as [Hn _]. by apply IHa.
  - apply orb_false_iff in Hn as [_ Hn]. by apply IHb.
Qed.

Lemma derives_tokens {NL : GrammarLaws} n : derives n ->
  match n with Node k _ _ => rule_nullable (rule_of k) = false -> node_tokens n <> [] | _ => True end.
Proof.
  induction n as [t|k ls ch IH] using node_induction; [done|]. intros Hd Hk. inversion Hd as [|? ? ? Hm Hf]; subst.
  rewrite node_tokens_node. apply (matches_tokens _ _ Hm); [by apply nullable_law|].
  apply Forall_forall. intros n Hn. apply (proj1 (Forall_forall _ _) IH n Hn). by apply (proj1 (Forall_forall _ _) Hf).
Qed.

Lemma node_level_nonneg {NL : GrammarLaws} n : 0 <= node_level n.
Proof.
  induction n as [t|k ls ch IH] using node_induction; [done|]. cbn. pose proof (level_nonneg k).
  destruct IH as [|c ch Hc _]; [lia|]. destruct (left_operand k); lia.
Qed.

Lemma matches_nonempty {NL : GrammarLaws} r ns : matches r ns -> Forall derives ns -> nullable r = false -> tokens ns <> [].
Proof.
  intros Hm Hd Hn. apply (matches_tokens r ns Hm Hn). eapply Forall_impl; [exact Hd|]. apply derives_tokens.
Qed.
End grammars.

(** ** Code that follows a grammar *)

Section judgement.
Context {K R P : Type} {PR : ParserRuntime K P} {G : Grammar K R} {alts : Z -> Z} {PL : ParserLaws K P alts}.
Context {NL : GrammarLaws (K := K) (R := R)}.
Local Open Scope antlr_scope.
Local Abbreviation vw := (view_of (ParserLaws := PL)).

Definition is_eof (n : node K) : Prop := exists t, n = Leaf t /\ tok_type t = TokenEOF.

(** The context on top got the nodes [ns], made of the tokens that are gone. *)
Definition grows (v v' : view K) (ns : list (node K)) : Prop :=
  exists f f' fs, v_frames v = f :: fs /\ v_frames v' = f' :: fs /\ f_kind f' = f_kind f /\
    f_children f' = f_children f ++ ns /\ v_prec v' = v_prec v /\ v_input v = tokens ns ++ v_input v' /\
    (Exists is_eof ns -> v_input v' = []).

Definition no_eof (t : token) : Prop := tok_type t <> TokenEOF.
Definition ready (n : nat) (v : view K) : Prop :=
  v_frames v <> [] /\ (length (v_input v) < n)%nat /\ Forall no_eof (v_input v).

(** With fewer than [n] tokens ahead [m] ends, and if it does not fail it has
    added nodes that match [r] to the context on top. *)
Definition parses {A} (n : nat) (m : PM P A) (r : re R) : Prop := forall p, ready n (vw p) ->
  match m p with
  | (Ok _, p') => exists ns, grows (vw p) (vw p') ns /\ matches r ns /\ Forall derives ns
  | (Raise _, _) => True
  | (OutOfFuel, _) => False
  end.

(** A step that consumes nothing, with what is known of its result. *)
Definition quiet {A} (m : PM P A) (Q : A -> Prop) : Prop := forall p, v_frames (vw p) <> [] ->
  match m p with
  | (Ok a, p') => grows (vw p) (vw p') [] /\ Q a
  | (Raise _, _) => True
  | (OutOfFuel, _) => False
  end.

Lemma grows_nil v : v_frames v <> [] -> grows v v [].
Proof.
  intros Hv. unfold grows. destruct (v_frames v) as [|f fs] eqn:E; [done|]. exists f, f, fs. rewrite app_nil_r.
  split_and!; try done. by intros ?%Exists_nil.
Qed.

Lemma grows_same v v' : v_frames v <> [] -> v' = v -> grows v v' [].
Proof. intros Hv ->. by apply grows_nil. Qed.

Lemma grows_trans v1 v2 v3 ns ns' : grows v1 v2 ns -> grows v2 v3 ns' -> grows v1 v3 (ns ++ ns').
Proof.
  intros (f & f2 & fs & H1 & H2 & H3 & H4 & H5 & H6 & H7) (g & g3 & gs & J1 & J2 & J3 & J4 & J5 & J6 & J7).
  rewrite H2 in J1. simplify_eq. exists f, g3, gs. rewrite tokens_app, J4, H4, <- !app_assoc, <- J6.
  split_and!; try done; [congruence..|]. intros [He|He]%Exists_app; [|by apply J7].
  apply H7 in He. rewrite He in J6. symmetry in J6. by apply app_eq_nil in J6 as [_ ?].
Qed.

Lemma grows_ready n v v' ns : ready n v -> grows v v' ns -> ready n v'.
Proof.
  intros (Hf & Hl & He) (f & f' & fs & H1 & H2 & _ & _ & _ & H6 & _). split; [by rewrite H2|].
  rewrite H6, length_app in Hl. rewrite H6 in He. apply Forall_app in He as [_ He]. split; [lia|done].
Qed.

Lemma grows_ready_less n v v' ns : ready n v -> grows v v' ns -> tokens ns <> [] -> ready (pred n) v'.
Proof.
  intros (Hf & Hl & He) (f & f' & fs & H1 & H2 & _ & _ & _ & H6 & _) Hn. split; [by rewrite H2|].
  rewrite H6, length_app in Hl. rewrite H6 in He. apply Forall_app in He as [_ He]. split; [|done].
  destruct (tokens ns); [done|]. cbn in Hl. lia.
Qed.

(** *** Consequence and sequence *)

Lemma parses_sub {A} n (m : PM P A) r r' : (forall ns, matches r ns -> matches r' ns) -> parses n m r -> parses n m r'.
Proof.
  intros Hsub Hm p Hp. specialize (Hm p Hp). destruct (m p) as [[a|e|] p']; [|done..].
  destruct Hm as (ns & Hg & Hr & Hd). eauto.
Qed.

Lemma parses_left {A} n (m : PM P A) r r' : parses n m r -> parses n m (Alt r r').
Proof. apply parses_sub. intros. by apply m_left. Qed.
Lemma parses_right {A} n (m : PM P A) r r' : parses n m r' -> parses n m (Alt r r').
Proof. apply parses_sub. intros. by apply m_right. Qed.

Lemma parses_zero {A} (m : PM P A) r : parses 0 m r.
Proof. intros p (_ & Hl & _). lia. Qed.

Lemma parses_fewer {A} n n' (m : PM P A) r : (n' <= n)%nat -> parses n m r -> parses n' m r.
Proof. intros Hn Hm p (Hf & Hl & He). apply Hm. split_and!; [done|lia|done]. Qed.

Lemma parses_quiet {A B} n (m : PM P A) (Q : A -> Prop) (k : A -> PM P B) r :
  quiet m Q -> (forall a, Q a -> parses n (k a) r) -> parses n (pbind m k) r.
Proof.
  intros Hm Hk p Hp. unfold pbind. specialize (Hm p (proj1 Hp)). destruct (m p) as [[a|e|] p']; [|done..].
  destruct Hm as [Hg HQ]. specialize (Hk a HQ p' (grows_ready _ _ _ _ Hp Hg)).
  destruct (k a p') as [[b|e|] p'']; [|done..]. destruct Hk as (ns & Hg' & Hr & Hd).
  exists ns. split; [exact (grows_trans _ _ _ _ _ Hg Hg')|done].
Qed.

Lemma parses_seq {A B} n (m : PM P A) (k : A -> PM P B) r r' :
  parses n m r -> (forall a, parses (if nullable r then n else pred n) (k a) r') -> parses n (pbind m k) (Seq r r').
Proof.
  intros Hm Hk p Hp. unfold pbind. specialize (Hm p Hp). destruct (m p) as [[a|e|] p']; [|done..].
  destruct Hm as (ns & Hg & Hr & Hd).
  assert (ready (if nullable r then n else pred n) (vw p')) as Hp'.
  { destruct (nullable r) eqn:En; [by eapply grows_ready|]. eapply grows_ready_less; [done|done|]. by eapply matches_nonempty. }
  specialize (Hk a p' Hp'). destruct (k a p') as [[b|e|] p'']; [|done..]. destruct Hk as (ns' & Hg' & Hr' & Hd').
  exists (ns ++ ns'). split; [by eapply grows_trans|]. split; [by constructor|by apply Forall_app].
Qed.

(** The last step of a sequence whose result is not used. *)
Lemma parses_then {A B} n (m : PM P A) (k : A -> PM P B) r :
  parses n m r -> (forall a, quiet (k a) (fun _ => True)) -> parses n (pbind m k) r.
Proof.
  intros Hm Hk p Hp. unfold pbind. specialize (Hm p Hp). destruct (m p) as [[a|e|] p']; [|done..].
  destruct Hm as (ns & Hg & Hr & Hd). specialize (Hk a p' (proj1 (grows_ready _ _ _ _ Hp Hg))).
  destruct (k a p') as [[b|e|] p'']; [|done..]. exists ns. rewrite <- (app_nil_r ns) at 1.
  split; [eapply grows_trans; [done|apply Hk]|done].
Qed.

Lemma parses_if {A} n (b : bool) (m m' : PM P A) r : parses n m r -> parses n m' r -> parses n (if b then m else m') r.
Proof. by destruct b. Qed.

Lemma parses_ret {A} n (a : A) : parses n (pret a) Eps.
Proof. intros p Hp. exists []. split; [apply grows_nil, Hp|]. split; constructor. Qed.

Lemma parses_raise {A} n e r : parses n (praise (A := A) e) r.
Proof. by intros p Hp. Qed.

Lemma parses_recover {A} n (k : token -> PM P A) r : parses n (pbind p_RecoverInline k) r.
Proof. intros p Hp. unfold pbind. by destruct (law_RecoverInline p) as (m & p' & ->). Qed.

(** *** Tokens *)

Lemma tokens_leaf (t : token) : no_eof t -> tokens (K := K) [Leaf t] = [t].
Proof. intros Ht. unfold tokens. cbn. by destruct (Z.eqb_spec (tok_type t) TokenEOF). Qed.

Lemma grows_token v tok rest : v_frames v <> [] -> no_eof tok -> v_input v = tok :: rest ->
  grows v (on_top (add_child (Leaf tok)) (mkView rest (v_frames v) (v_prec v))) [Leaf tok].
Proof.
  intros Hf Ht Hi. unfold grows. destruct (v_frames v) as [|f fs] eqn:E; [done|]. exists f, (add_child (Leaf tok) f), fs.
  rewrite Hi, tokens_leaf by done. cbn. split_and!; try done. by intros [(t & [= <-] & He)|?%Exists_nil]%Exists_cons.
Qed.

Lemma parses_match n t : parses n (Match t) (Tok [t]).
Proof.
  intros p (Hf & Hl & He). pose proof (law_Match t p) as Hm. unfold Match.
  destruct (v_match t (vw p)) as [[tok v']|] eqn:E; [|by destruct Hm as (m & p' & ->)].
  destruct Hm as (p' & -> & <-). unfold v_match in E. destruct (v_input (vw p)) as [|tok' rest] eqn:Ei.
  - destruct (Z.eqb_spec t TokenEOF) as [->|]; [|done]. injection E as <- Hv. exists [Leaf eof_token].
    destruct (v_frames (vw p)) as [|f fs] eqn:Ev; [done|].
    split; [|split; [apply m_tok; by left|by repeat constructor]]. exists f, (add_child (Leaf eof_token) f), fs.
    rewrite <- Hv. unfold on_top. cbn. rewrite Ev, Ei. done.
  - destruct (Z.eqb_spec (tok_type tok') t) as [<-|]; [|done]. injection E as <- Hv. exists [Leaf tok'].
    apply Forall_cons in He as [Ht _]. split; [rewrite <- Hv; by apply grows_token|].
    split; [apply m_tok; by left|by repeat constructor].
Qed.

(** One token of a set; [m] is what is done when the next one is not of it. *)
Lemma parses_one_of n (c : Z -> bool) ts m (k : Z -> token -> PM P unit) : (forall la, c la = true -> la ∈ ts) -> TokenEOF ∉ ts ->
  (forall la, parses n (m la) (Tok ts)) -> (forall la tok, quiet (k la tok) (fun _ => True)) ->
  parses n (let% _la := LA1 in if negb (c _la) then m _la else (ReportMatch ;;; let% t := p_Consume in k _la t)) (Tok ts).
Proof.
  intros Hc Heof Hm Hk p Hp. unfold pbind at 1. unfold LA1, pget. destruct (c (p_LA1 p)) eqn:E; cbn [negb]; [|by apply Hm].
  pose proof (Hc _ E) as Hla. rewrite law_LA1 in Hla. unfold v_la in Hla. destruct Hp as (Hf & Hl & He).
  unfold pbind, ReportMatch, pdo. destruct (v_input (vw p)) as [|tok rest] eqn:Ei; [done|].
  destruct (law_Consume (p_ReportMatch p) tok rest) as (p' & -> & Hv); [by rewrite law_ReportMatch|].
  rewrite law_ReportMatch in Hv. apply Forall_cons in He as [Ht _].
  assert (grows (vw p) (vw p') [Leaf tok]) as Hg by (rewrite Hv; by apply grows_token).
  assert (v_frames (vw p') <> []) as Hf' by (destruct Hg as (f & f' & fs & _ & -> & _); done).
  specialize (Hk (p_LA1 p) tok p' Hf'). destruct (k _ tok p') as [[a|e|] p'']; [|done..]. exists [Leaf tok].
  split; [exact (grows_trans _ _ _ [Leaf tok] [] Hg (proj1 Hk))|]. split; [by constructor|by repeat constructor].
Qed.

(** *** Quiet steps *)

Lemma quiet_do f (Q : unit -> Prop) : (forall p, vw (f p) = vw p) -> Q tt -> quiet (pdo f) Q.
Proof. intros Hv HQ p Hp. split; [by apply grows_same|done]. Qed.
Lemma quiet_get {A} (f : P -> A) : quiet (pget f) (fun _ => True).
Proof. intros p Hp. split; [by apply grows_nil|done]. Qed.
Lemma quiet_ret {A} (a : A) : quiet (pret a) (fun x => x = a).
Proof. intros p Hp. split; [by apply grows_nil|done]. Qed.
Lemma quiet_SetState s : quiet (SetState s) (fun _ => True).
Proof. apply quiet_do; [apply law_SetState|done]. Qed.
Lemma quiet_EnterOuterAlt s : quiet (EnterOuterAlt s) (fun _ => True).
Proof. apply quiet_do; [apply law_EnterOuterAlt|done]. Qed.
Lemma quiet_ReportMatch : quiet ReportMatch (fun _ => True).
Proof. apply quiet_do; [apply law_ReportMatch|done]. Qed.
Lemma quiet_SetField name n : quiet (SetField name n) (fun _ => True).
Proof.
  intros p Hp. split; [|done]. cbn. rewrite law_SetField. destruct (v_frames (vw p)) as [|f fs] eqn:E; [done|].
  exists f, (add_label name n f), fs. unfold on_top. cbn. rewrite E, app_nil_r. split_and!; try done. by intros ?%Exists_nil.
Qed.
Lemma quiet_Sync : quiet p_Sync (fun _ => True).
Proof. intros p Hp. destruct (law_Sync p) as (p' & -> & Hv). split; [by apply grows_same|done]. Qed.
Lemma quiet_AdaptivePredict d : quiet (p_AdaptivePredict d) (fun a => 1 <= a <= alts d).
Proof.
  intros p Hp. destruct (law_AdaptivePredict d p) as [(a & p' & -> & Ha & Hv)|(e & p' & ->)]; [|done].
  split; [by apply grows_same|done].
Qed.
Lemma quiet_bind {A B} (m : PM P A) Q (k : A -> PM P B) Q' :
  quiet m Q -> (forall a, Q a -> quiet (k a) Q') -> quiet (pbind m k) Q'.
Proof.
  intros Hm Hk p Hp. unfold pbind. specialize (Hm p Hp). destruct (m p) as [[a|e|] p']; [|done..].
  destruct Hm as [Hg HQ].
  assert (v_frames (vw p') <> []) as Hf' by (destruct Hg as (f & f' & fs & _ & -> & _); done).
  specialize (Hk a HQ p' Hf'). destruct (k a p') as [[b|e|] p'']; [|done..].
  split; [exact (grows_trans _ _ _ [] [] Hg (proj1 Hk))|apply Hk].
Qed.

(** *** Loops *)

Lemma parses_for n fuel cond body next (Q : Z -> Prop) x r : (n <= fuel)%nat -> Q x ->
  (forall x n', (n' <= n)%nat -> Q x -> cond x = true -> parses n' (body x) r) -> nullable r = false -> quiet next Q ->
  parses n (for_loop fuel cond body next x) (Star r).
Proof.
  intros Hn Hx Hb Hr Hq. revert n x Hn Hx Hb. induction fuel as [|fuel IH]; intros n x Hn Hx Hb.
  { assert (n = 0%nat) as -> by lia. apply parses_zero. }
  cbn [for_loop]. destruct (cond x) eqn:Ec.
  - apply (parses_sub _ _ (Seq r (Star r))).
    { intros ns Hs. inversion Hs; subst. by apply m_more. }
    apply parses_seq; [by apply Hb|]. intros _. rewrite Hr. eapply parses_quiet; [exact Hq|]. intros x' Hx'.
    apply IH; [lia|done|]. intros y n' Hn'. apply Hb. lia.
  - apply (parses_sub _ _ Eps); [|apply parses_ret]. intros ns Hs. inversion Hs; subst. apply m_none.
Qed.

(** ** Rule functions *)

Lemma recovering_same body p :
  match recovering body p with
  | (Ok a, p') => body p = (Ok a, p')
  | (Raise _, _) => True
  | (OutOfFuel, _) => exists p', body p = (OutOfFuel, p')
  end.
Proof.
  unfold recovering. destruct (body p) as [[a|[e|e]|] p']; eauto.
  by destruct (law_Recover (RecognitionException e) (p_ReportError (RecognitionException e)
    (p_SetException (RecognitionException e) p'))) as (m & p2 & ->).
Qed.

(** The node [nd] is added to the context on top, or is the whole result. *)
Definition hand_up (nd : node K) (fs : list (frame K)) : list (frame K) :=
  match fs with f :: fs => add_child nd f :: fs | [] => [] end.

Lemma pop_hand_up f fs : pop_frame (f :: fs) = hand_up (node_of f) fs.
Proof. by destruct fs. Qed.

Lemma rule_function_built n k s body p : parses n body (rhs k) ->
  (length (v_input (vw p)) < n)%nat -> Forall no_eof (v_input (vw p)) ->
  match rule_function (p_EnterRule k s) p_ExitRule body p with
  | (Ok nd, p') => exists ls ns, nd = Node k ls ns /\ matches (rhs k) ns /\ Forall derives ns /\
      v_input (vw p) = tokens ns ++ v_input (vw p') /\ (Exists is_eof ns -> v_input (vw p') = []) /\
      v_frames (vw p') = hand_up nd (v_frames (vw p)) /\ v_prec (vw p') = v_prec (vw p)
  | (Raise _, _) => True
  | (OutOfFuel, _) => False
  end.
Proof.
  intros Hb Hl He. unfold rule_function. set (p1 := p_EnterRule k s p).
  assert (vw p1 = v_push k (vw p)) as Hv1 by apply law_EnterRule.
  assert (ready n (vw p1)) as Hr by (rewrite Hv1; done). specialize (Hb p1 Hr).
  pose proof (recovering_same body p1) as Hrec. destruct (recovering body p1) as [[a|e|] p2]; [|done|].
  2: { destruct Hrec as [p' E]. by rewrite E in Hb. }
  rewrite Hrec in Hb. destruct Hb as (ns & (f & f' & fs & H1 & H2 & H3 & H4 & H5 & H6 & H7) & Hm & Hd).
  rewrite Hv1 in H1, H5, H6. cbn in H1, H5, H6. simplify_eq. cbn in H3, H4.
  rewrite (law_GetParserRuleContext _ _ _ H2), law_ExitRule. unfold v_exit. cbn [v_input v_frames v_prec].
  rewrite H2, pop_hand_up. exists (f_labels f'), ns. unfold node_of. rewrite H3, H4. split_and!; try done.
Qed.

Lemma grows_hand_up v v' k ls ns : v_frames v <> [] -> v_input v = tokens ns ++ v_input v' ->
  v_frames v' = hand_up (Node k ls ns) (v_frames v) -> v_prec v' = v_prec v -> grows v v' [Node k ls ns].
Proof.
  intros Hf Hi Hv Hp. destruct (v_frames v) as [|f fs] eqn:E; [done|]. exists f, (add_child (Node k ls ns) f), fs.
  unfold tokens at 1. cbn [map concat]. rewrite node_tokens_node, app_nil_r. split_and!; try done.
  by intros [(t & ? & _)|?%Exists_nil]%Exists_cons.
Qed.

Lemma parses_rule n k s body lvl : parses n body (rhs k) -> left_operand k = false -> lvl <= level k ->
  parses n (rule_function (p_EnterRule k s) p_ExitRule body) (NT (rule_of k) lvl).
Proof.
  intros Hb Hk Hlvl p (Hf & Hl & He). pose proof (rule_function_built n k s body p Hb Hl He) as H.
  destruct (rule_function _ _ _ p) as [[nd|e|] p']; [|done..].
  destruct H as (ls & ns & -> & Hm & Hd & Hi & _ & Hv & Hp). exists [Node k ls ns].
  split; [by apply grows_hand_up|]. split; [|apply Forall_singleton; by constructor].
  constructor. by rewrite level_alone.
Qed.

(** ** A left-recursive rule

    Its context changes its kind as the alternatives become known. *)

Section recursion.
Context (r0 : R).

Definition operand (q : Z) (f : frame K) : Prop :=
  rule_of (f_kind f) = r0 /\ q <= node_level (node_of f) /\ matches (rhs (f_kind f)) (f_children f) /\ Forall derives (f_children f).

(** From a context in [pre], [m] makes one in [post] of it with more tokens. *)
Definition becomes {A} (n : nat) (q : Z) (m : PM P A) (pre post : frame K -> Prop) : Prop := forall p f fs qs,
  v_frames (vw p) = f :: fs -> v_prec (vw p) = q :: qs -> ready n (vw p) -> pre f ->
  match m p with
  | (Ok _, p') => exists f' used, v_frames (vw p') = f' :: fs /\ v_prec (vw p') = q :: qs /\ post f' /\
      v_input (vw p) = used ++ v_input (vw p') /\ tokens (f_children f') = tokens (f_children f) ++ used /\ used <> []
  | (Raise _, _) => True
  | (OutOfFuel, _) => False
  end.

Definition insensitive (pre : frame K -> Prop) : Prop := forall k ls ls' ch, pre (mkFrame k ls ch) -> pre (mkFrame k ls' ch).

Lemma operand_insensitive q : insensitive (operand q).
Proof. intros k ls ls' ch H. exact H. Qed.

Lemma becomes_quiet {A B} n q (m : PM P A) Q (k : A -> PM P B) pre post : insensitive pre ->
  quiet m Q -> (forall a, Q a -> becomes n q (k a) pre post) -> becomes n q (pbind m k) pre post.
Proof.
  intros Hins Hm Hk p f fs qs Hf Hq Hr Hpre. unfold pbind. specialize (Hm p (proj1 Hr)).
  destruct (m p) as [[a|e|] p1]; [|done..]. destruct Hm as [Hg HQ].
  pose proof (grows_ready _ _ _ _ Hr Hg) as Hr1. destruct Hg as (g & g' & gs & H1 & H2 & H3 & H4 & H5 & H6 & _).
  rewrite H1 in Hf. simplify_eq. rewrite app_nil_r in H4. cbn in H6.
  assert (pre g') as Hpre'.
  { destruct f as [k0 ls ch], g' as [k1 ls1 ch1]. cbn in H3, H4. subst. by eapply Hins. }
  specialize (Hk a HQ p1 g' fs qs H2 ltac:(by rewrite H5) Hr1 Hpre'). destruct (k a p1) as [[b|e|] p2]; [|done..].
  by rewrite H6, <- H4.
Qed.

Lemma becomes_if {A} n q (b : bool) (m m' : PM P A) pre post :
  becomes n q m pre post -> becomes n q m' pre post -> becomes n q (if b then m else m') pre post.
Proof. by destruct b. Qed.

(** The alternatives that start the rule: the context is empty so far. *)
Lemma becomes_alternative n q k (m : PM P unit) pre : rule_of k = r0 -> left_operand k = false -> q <= level k -> nullable (rhs k) = false ->
  (forall f, pre f -> f_children f = []) -> parses n m (rhs k) ->
  becomes n q (pbind (pdo (p_SetParserRuleContext k)) (fun _ => m)) pre (operand q).
Proof.
  intros Hk Hk0 Hl Hn Hpre Hm p f fs qs Hf Hq Hr Hp. unfold pbind, pdo. set (p1 := p_SetParserRuleContext k p).
  assert (vw p1 = mkView (v_input (vw p)) (mkFrame k [] [] :: fs) (v_prec (vw p))) as Hv.
  { subst p1. rewrite law_SetParserRuleContext. unfold on_top. by rewrite Hf. }
  assert (ready n (vw p1)) as Hr1 by (rewrite Hv; split; [done|apply Hr]). specialize (Hm p1 Hr1).
  destruct (m p1) as [[a|e|] p2]; [|done..].
  destruct Hm as (ns & (g & g' & gs & H1 & H2 & H3 & H4 & H5 & H6 & _) & Hmt & Hd).
  rewrite Hv in H1, H5, H6. cbn in H1, H5, H6. simplify_eq. cbn in H3, H4. exists g', (tokens ns).
  rewrite (Hpre f Hp). split; [done|]. split; [by rewrite H5|]. split; [unfold operand, node_of; rewrite H4, H3; by rewrite level_alone|].
  split; [done|]. split; [by rewrite H4|]. by apply (matches_nonempty (rhs k) ns Hmt Hd Hn).
Qed.

(** One operator: the context so far becomes the first child; [lv] is the
    precedence the runtime is asked about. *)
Lemma becomes_operator n q k s st lv e (m : PM P unit) r :
  rule_of k = r0 -> lv <= level k -> rhs k = Seq (NT r0 0) r -> nullable r = false -> parses n m r ->
  becomes n q (pbind (pdo (p_PushNewRecursionContext k s)) (fun _ => pbind (SetState st) (fun _ =>
    pbind (pget (p_Precpred lv)) (fun _pp => pbind (if negb _pp then praise e else pret tt) (fun _ => m)))))
    (operand q) (operand q).
Proof.
  intros Hk Hl Hrhs Hn Hm p f fs qs Hf Hq Hr Hp. unfold pbind, pdo, SetState, pget, pdo.
  set (p1 := p_SetState st (p_PushNewRecursionContext k s p)).
  assert (vw p1 = mkView (v_input (vw p)) (mkFrame k [] [node_of f] :: fs) (q :: qs)) as Hv.
  { subst p1. rewrite law_SetState, law_PushNewRecursionContext. unfold on_top. by rewrite Hf, Hq. }
  rewrite (law_Precpred lv p1 q qs) by by rewrite Hv. destruct (Z.leb_spec q lv) as [Hle|]; [|done]. cbn [negb pret].
  assert (ready n (vw p1)) as Hr1 by (rewrite Hv; split; [done|apply Hr]). specialize (Hm p1 Hr1).
  unfold pret. destruct (m p1) as [[a|e'|] p2]; [|done..].
  destruct Hm as (ns & (g & g' & gs & H1 & H2 & H3 & H4 & H5 & H6 & _) & Hmt & Hd).
  rewrite Hv in H1, H5, H6. cbn in H1, H5, H6. simplify_eq. cbn in H3, H4. exists g', (tokens ns).
  destruct Hp as (Hp1 & Hp2 & Hp3 & Hp4). split; [done|]. split; [by rewrite H5|]. split.
  { unfold operand, node_of. rewrite H4, H3. split_and!; [done|apply level_above; [lia|exact Hp2]| |].
    - rewrite Hrhs. apply (m_seq _ _ [node_of f] ns); [|done]. rewrite <- Hp1. constructor. apply node_level_nonneg.
    - constructor; [|done]. by constructor. }
  split; [done|]. split; [|by apply (matches_nonempty r ns Hmt Hd Hn)].
  rewrite H4. change (node_of f :: ns) with ([node_of f] ++ ns). rewrite tokens_app. f_equal.
  unfold tokens at 1. cbn [map concat]. rewrite app_nil_r. apply node_tokens_node.
Qed.

(** From an operand, [m] makes an operand of it with more tokens, if any. *)
Definition continues {A} (n : nat) (q : Z) (m : PM P A) : Prop := forall p f fs qs,
  v_frames (vw p) = f :: fs -> v_prec (vw p) = q :: qs -> ready n (vw p) -> operand q f ->
  match m p with
  | (Ok _, p') => exists f' used, v_frames (vw p') = f' :: fs /\ v_prec (vw p') = q :: qs /\ operand q f' /\
      v_input (vw p) = used ++ v_input (vw p') /\ tokens (f_children f') = tokens (f_children f) ++ used
  | (Raise _, _) => True
  | (OutOfFuel, _) => False
  end.

Lemma continues_quiet {A B} n q (m : PM P A) Q (k : A -> PM P B) :
  quiet m Q -> (forall a, Q a -> continues n q (k a)) -> continues n q (pbind m k).
Proof.
  intros Hm Hk p f fs qs Hf Hq Hr Hpre. unfold pbind. specialize (Hm p (proj1 Hr)).
  destruct (m p) as [[a|e|] p1]; [|done..]. destruct Hm as [Hg HQ].
  pose proof (grows_ready _ _ _ _ Hr Hg) as Hr1. destruct Hg as (g & g' & gs & H1 & H2 & H3 & H4 & H5 & H6 & _).
  rewrite H1 in Hf. simplify_eq. rewrite app_nil_r in H4. cbn in H6.
  assert (operand q g') as Hpre'.
  { destruct f as [k0 ls ch], g' as [k1 ls1 ch1]. cbn in H3, H4. subst. by eapply operand_insensitive. }
  specialize (Hk a HQ p1 g' fs qs H2 ltac:(by rewrite H5) Hr1 Hpre'). destruct (k a p1) as [[b|e|] p2]; [|done..].
  by rewrite H6, <- H4.
Qed.

(** Operators as long as there are any. *)
Lemma continues_for n fuel q cond body next (Q : Z -> Prop) x : (n <= fuel)%nat -> Q x -> quiet next Q ->
  (forall x n', (n' <= n)%nat -> Q x -> cond x = true -> becomes n' q (body x) (operand q) (operand q)) ->
  continues n q (for_loop fuel cond body next x).
Proof.
  intros Hn Hx Hnext Hb p f fs qs. revert n x p f Hn Hx Hb.
  induction fuel as [|fuel IH]; intros n x p f Hn Hx Hb Hf Hq Hr Hp.
  { destruct Hr as (_ & ? & _). lia. }
  cbn [for_loop]. destruct (cond x) eqn:Ec; [|unfold pret; exists f, []; rewrite app_nil_r; done].
  unfold pbind at 1. pose proof (Hb x n ltac:(lia) Hx Ec p f fs qs Hf Hq Hr Hp) as H1.
  destruct (body x p) as [[a|e|] p1]; [|done..]. destruct H1 as (f1 & u1 & Hf1 & Hq1 & Hp1 & Hi1 & Ht1 & Hu1).
  assert (ready (pred n) (vw p1)) as Hr1.
  { destruct Hr as (_ & Hl & He). rewrite Hi1, length_app in Hl. rewrite Hi1 in He. apply Forall_app in He as [_ He].
    split_and!; [by rewrite Hf1| |done]. destruct u1; [done|]. cbn in Hl. lia. }
  unfold pbind. pose proof (Hnext p1 (proj1 Hr1)) as H2. destruct (next p1) as [[x2|e|] p2]; [|done..].
  destruct H2 as [Hg Hx2]. pose proof (grows_ready _ _ _ _ Hr1 Hg) as Hr2.
  destruct Hg as (g & g' & gs & G1 & G2 & G3 & G4 & G5 & G6 & _). rewrite G1 in Hf1. simplify_eq. rewrite app_nil_r in G4.
  cbn in G6. assert (operand q g') as Hp2.
  { destruct f1, g'. cbn in G3, G4. subst. by eapply operand_insensitive. }
  specialize (IH (pred n) x2 p2 g' ltac:(lia) Hx2 ltac:(intros y n' Hn'; apply Hb; lia) G2 ltac:(by rewrite G5) Hr2 Hp2).
  destruct (for_loop fuel cond body next x2 p2) as [[b|e|] p3]; [|done..].
  destruct IH as (f3 & u3 & Hf3 & Hq3 & Hp3 & Hi3 & Ht3). exists f3, (u1 ++ u3).
  split_and!; try done; [by rewrite Hi1, G6, Hi3, app_assoc|]. by rewrite Ht3, G4, Ht1, app_assoc.
Qed.

(** The rule function, from the first operand and the operators. *)
Lemma parses_recursion n k0 s q (primary : PM P unit) (operators : unit -> PM P unit) :
  becomes n q primary (fun f => f_children f = []) (operand q) -> (forall a, continues n q (operators a)) ->
  parses n (rule_function (p_EnterRecursionRule k0 s q) p_UnrollRecursionContexts (pbind primary operators)) (NT r0 q).
Proof.
  intros Hprim Hops p (Hf & Hl & He). unfold rule_function. set (p1 := p_EnterRecursionRule k0 s q p).
  assert (vw p1 = v_enter_recursion k0 q (vw p)) as Hv1 by apply law_EnterRecursionRule.
  assert (ready n (vw p1)) as Hr1 by (rewrite Hv1; done).
  pose proof (recovering_same (pbind primary operators) p1) as Hrec. unfold pbind in Hrec at 2 3.
  specialize (Hprim p1 (mkFrame k0 [] []) (v_frames (vw p)) (v_prec (vw p)) ltac:(by rewrite Hv1) ltac:(by rewrite Hv1) Hr1 eq_refl).
  destruct (recovering (pbind primary operators) p1) as [[u|e|] p3] eqn:Erec; [|done|].
  2: { destruct Hrec as [p' Hrec]. destruct (primary p1) as [[a|e|] p2]; [|done..].
    destruct Hprim as (f & used & Hf2 & Hq2 & Hp2 & Hi2 & Ht2 & _).
    assert (ready n (vw p2)) as Hr2.
    { destruct Hr1 as (_ & Hl1 & He1). rewrite Hi2, length_app in Hl1. rewrite Hi2 in He1. apply Forall_app in He1 as [_ He1].
      split_and!; [by rewrite Hf2|lia|done]. }
    specialize (Hops a p2 f _ _ Hf2 Hq2 Hr2 Hp2). by rewrite Hrec in Hops. }
  destruct (primary p1) as [[a|e|] p2]; [|done..]. destruct Hprim as (f & used & Hf2 & Hq2 & Hp2 & Hi2 & Ht2 & _).
  assert (ready n (vw p2)) as Hr2.
  { destruct Hr1 as (_ & Hl1 & He1). rewrite Hi2, length_app in Hl1. rewrite Hi2 in He1. apply Forall_app in He1 as [_ He1].
    split_and!; [by rewrite Hf2|lia|done]. }
  specialize (Hops a p2 f _ _ Hf2 Hq2 Hr2 Hp2). rewrite Hrec in Hops.
  destruct Hops as (f' & u' & Hf3 & Hq3 & (Ho1 & Ho2 & Ho3 & Ho4) & Hi3 & Ht3).
  exists [node_of f'].
  split; [|split; [rewrite <- Ho1; by constructor|apply Forall_singleton; by constructor]].
  apply grows_hand_up; [done| | |].
  - rewrite law_UnrollRecursionContexts. cbn. rewrite Ht3, Ht2. cbn. rewrite <- app_assoc, <- Hi3, <- Hi2. by rewrite Hv1.
  - rewrite law_UnrollRecursionContexts. cbn. by rewrite Hf3, pop_hand_up.
  - rewrite law_UnrollRecursionContexts. cbn. by rewrite Hq3.
Qed.
End recursion.
End judgement.
