(* ===== verification/AntlrContexts.v ===== *)
(** * Accessors of contexts

    The generated accessors look through the children of a context: a token of a
    type, the first child of a rule, all children of a rule, the i-th of them.
    [ContextRuntime] is what they use of the ANTLR runtime, [ContextLaws] what
    its methods do; the loops are those of the generated methods, which differ
    only in the interface they test for.  A table of accessors for a context
    is checked against the right-hand side of its rule: [accessors_fit] decides
    whether every child of a derived context is returned exactly once. *)

From stdpp Require Import base list strings.
From Stdlib Require Import ZArith Lia.
From S2P Require Import Prelude Antlr AntlrLaws.

Class ContextRuntime (K : Type) := {
  GetChildren : node K -> list (node K);
  GetToken : node K -> Z -> Z -> option (node K);
  GetTokens : node K -> Z -> list (node K)
}.

Definition children_of {K} (n : node K) : list (node K) := match n with Leaf _ => [] | Node _ _ ch => ch end.

(** A label of a context; the last assignment counts. *)
Fixpoint label_in {K} (name : string) (ls : list (string * node K)) : option (node K) :=
  match ls with
  | [] => None
  | (name', v) :: ls' => if String.eqb name' name then Some v else label_in name ls'
  end.
Definition label {K} (name : string) (n : node K) : option (node K) :=
  match n with Leaf _ => None | Node _ ls _ => label_in name ls end.
Definition set_label {K} (name : string) (v : node K) (n : node K) : node K :=
  match n with Leaf t => Leaf t | Node k ls ch => Node k ((name, v) :: ls) ch end.

(** ** The loops of the accessors *)

Section loops.
Context {K : Type} {CR : ContextRuntime K}.
(** The test for the interface of a context: [ctx.(IXContext)]. *)
Variable ok : node K -> bool.

Fixpoint first_loop (children : list (node K)) : option (node K) :=
  match children with
  | [] => None
  | ctx :: rest => if ok ctx then Some ctx else first_loop rest
  end.
Definition first_context (s : node K) : option (node K) := first_loop (GetChildren s).

(** Counting first, then filling a slice of that length. *)
Fixpoint len_loop (children : list (node K)) (len : Z) : Z :=
  match children with
  | [] => len
  | ctx :: rest => len_loop rest (if ok ctx then len + 1 else len)
  end.
Fixpoint fill_slice (children : list (node K)) (i : Z) (tst : list (option (node K))) : list (option (node K)) :=
  match children with
  | [] => tst
  | ctx :: rest => if ok ctx then fill_slice rest (i + 1) (<[Z.to_nat i := Some ctx]> tst) else fill_slice rest i tst
  end.
Definition all_contexts (s : node K) : list (option (node K)) :=
  let children := GetChildren s in
  fill_slice children 0 (replicate (Z.to_nat (len_loop children 0)) None).

Fixpoint nth_loop (children : list (node K)) (i j : Z) : option (node K) :=
  match children with
  | [] => None
  | ctx :: rest => if ok ctx then if j =? i then Some ctx else nth_loop rest i (j + 1) else nth_loop rest i j
  end.
Definition nth_context (s : node K) (i : Z) : option (node K) := nth_loop (GetChildren s) i 0.

Lemma filter_hit c l : ok c = true -> filter ok (c :: l) = c :: filter ok l.
Proof. intros H. rewrite filter_cons, decide_True; [done|]. apply Is_true_true. exact H. Qed.
Lemma filter_miss c l : ok c = false -> filter ok (c :: l) = filter ok l.
Proof. intros H. rewrite filter_cons, decide_False; [done|]. rewrite Is_true_true. by rewrite H. Qed.

Lemma first_loop_filter l : first_loop l = head (filter ok l).
Proof.
  induction l as [|c l IH]; [done|]. cbn [first_loop]. destruct (ok c) eqn:E.
  - by rewrite filter_hit.
  - by rewrite filter_miss.
Qed.

Lemma len_loop_filter l n : len_loop l n = n + Z.of_nat (length (filter ok l)).
Proof.
  revert n. induction l as [|c l IH]; intros n; cbn [len_loop]; [cbn; lia|]. rewrite IH. destruct (ok c) eqn:E.
  - rewrite filter_hit by done. cbn [length]. lia.
  - by rewrite filter_miss.
Qed.

Lemma fill_slice_filter l done_ rest : length rest = length (filter ok l) ->
  fill_slice l (Z.of_nat (length done_)) (done_ ++ rest) = done_ ++ map Some (filter ok l).
Proof.
  revert done_ rest. induction l as [|c l IH]; intros done_ rest; cbn [fill_slice].
  - rewrite filter_nil. intros ->%nil_length_inv. done.
  - destruct (ok c) eqn:E.
    + rewrite filter_hit by done. destruct rest as [|r rest]; [done|]. cbn [length map]. intros [= H].
      rewrite Nat2Z.id, insert_app_r_alt by lia. rewrite Nat.sub_diag. cbn [insert list_insert].
      rewrite (cons_middle (Some c) done_ rest), app_assoc. replace (Z.of_nat (length done_) + 1) with (Z.of_nat (length (done_ ++ [Some c])))
        by (rewrite length_app; cbn; lia).
      rewrite IH by done. by rewrite <- app_assoc.
    + rewrite filter_miss by done. apply IH.
Qed.

Lemma nth_loop_filter l i j : 0 <= j <= i -> nth_loop l i j = filter ok l !! Z.to_nat (i - j).
Proof.
  revert j. induction l as [|c l IH]; intros j Hj; cbn [nth_loop]; [by rewrite filter_nil|].
  destruct (ok c) eqn:E.
  - rewrite filter_hit by done. destruct (Z.eqb_spec j i) as [->|].
    + by replace (i - i) with 0 by lia.
    + rewrite IH by lia. by replace (Z.to_nat (i - j)) with (S (Z.to_nat (i - (j + 1)))) by lia.
  - rewrite filter_miss by done. by apply IH.
Qed.
End loops.

(** ** What the runtime's methods return *)

Definition is_token {K} (t : Z) (n : node K) : bool := match n with Leaf tok => tok_type tok =? t | Node _ _ _ => false end.

Class ContextLaws (K : Type) {CR : ContextRuntime K} := {
  law_GetChildren : forall n, GetChildren n = children_of n;
  law_GetToken : forall n t i, 0 <= i -> GetToken n t i = filter (is_token t) (children_of n) !! Z.to_nat i;
  law_GetTokens : forall n t, GetTokens n t = filter (is_token t) (children_of n)
}.

(** ** Occurrences of symbols in a right-hand side *)

Inductive symbol (R : Type) := STok (t : Z) | SRule (r : R).
Arguments STok {R}.
Arguments SRule {R}.
#[export] Instance symbol_eq_dec {R} `{EqDecision R} : EqDecision (symbol R).
Proof. solve_decision. Defined.

Section occurrences.
Context {K R : Type} {G : Grammar K R} `{EqDecision R}.
Implicit Types (s : symbol R) (ns : list (node K)).

Definition symbol_of (n : node K) : symbol R := match n with Leaf t => STok (tok_type t) | Node k _ _ => SRule (rule_of k) end.
Definition is_context (r : R) (n : node K) : bool :=
  match n with Leaf _ => false | Node k _ _ => bool_decide (rule_of k = r) end.
Definition is_symbol s (n : node K) : bool := bool_decide (symbol_of n = s).

Fixpoint symbols (r : re R) : list (symbol R) :=
  match r with
  | Tok ts => map STok ts
  | NT x _ => [SRule x]
  | Eps => []
  | Seq a b | Alt a b => symbols a ++ symbols b
  | Star a => symbols a
  end.

(** How often a symbol occurs in a match: at most, [None] without a bound, and
    at least. *)
Fixpoint most s (r : re R) : option nat :=
  match r with
  | Tok ts => if existsb (fun t => bool_decide (STok t = s)) ts then Some 1%nat else Some O
  | NT x _ => if bool_decide (SRule x = s) then Some 1%nat else Some O
  | Eps => Some O
  | Seq a b => match most s a, most s b with Some m, Some n => Some (m + n)%nat | _, _ => None end
  | Alt a b => match most s a, most s b with Some m, Some n => Some (Nat.max m n) | _, _ => None end
  | Star a => match most s a with Some O => Some O | _ => None end
  end.
Fixpoint least s (r : re R) : nat :=
  match r with
  | Tok ts => if forallb (fun t => bool_decide (STok t = s)) ts then 1 else 0
  | NT x _ => if bool_decide (SRule x = s) then 1 else 0
  | Eps | Star _ => 0
  | Seq a b => least s a + least s b
  | Alt a b => Nat.min (least s a) (least s b)
  end.

Definition occurrences s ns : nat := length (filter (is_symbol s) ns).
Lemma occurrences_app s ns ns' : occurrences s (ns ++ ns') = (occurrences s ns + occurrences s ns')%nat.
Proof. unfold occurrences. by rewrite filter_app, length_app. Qed.
Lemma occurrences_one s n : occurrences s [n] = if is_symbol s n then 1%nat else O.
Proof.
  unfold occurrences. destruct (is_symbol s n) eqn:E; [by rewrite filter_hit|by rewrite filter_miss].
Qed.

Lemma matches_symbols (r : re R) ns : matches r ns -> Forall (fun n => symbol_of n ∈ symbols r) ns.
Proof.
  induction 1 as [ts t Ht|lvl k ls ch _| |a b ns ns' _ IHa _ IHb|a b ns _ IH|a b ns _ IH| |a ns ns' _ IHa _ IHs]; cbn [symbols].
  - constructor; [|constructor]. apply list_elem_of_fmap. eauto.
  - repeat constructor.
  - constructor.
  - apply Forall_app. split; (eapply Forall_impl; [eassumption|]); cbn; intros x Hx; apply elem_of_app; auto.
  - eapply Forall_impl; [eassumption|]; cbn; intros x Hx; apply elem_of_app; auto.
  - eapply Forall_impl; [eassumption|]; cbn; intros x Hx; apply elem_of_app; auto.
  - constructor.
  - by apply Forall_app.
Qed.

Lemma matches_most (r : re R) s ns m : matches r ns -> most s r = Some m -> (occurrences s ns <= m)%nat.
Proof.
  intros H. revert m.
  induction H as [ts t Ht|lvl k ls ch _| |a b ns ns' _ IHa _ IHb|a b ns _ IH|a b ns _ IH| |a ns ns' _ IHa _ IHs]; cbn [most]; intros m.
  - rewrite occurrences_one. unfold is_symbol. case_bool_decide as E; [|lia]. cbn in E. subst s.
    destruct (existsb _ ts) eqn:Ex; intros [= <-]; [lia|]. apply Bool.not_true_iff_false in Ex. destruct Ex.
    apply existsb_exists. exists (tok_type t). split; [by apply list_elem_of_In|by apply bool_decide_eq_true].
  - rewrite occurrences_one. unfold is_symbol. cbn [symbol_of]. destruct (bool_decide _); intros [= <-]; lia.
  - cbn. lia.
  - rewrite occurrences_app. destruct (most s a), (most s b); try done. intros [= <-].
    specialize (IHa _ eq_refl). specialize (IHb _ eq_refl). lia.
  - destruct (most s a), (most s b); try done. intros [= <-]. specialize (IH _ eq_refl). lia.
  - destruct (most s a), (most s b); try done. intros [= <-]. specialize (IH _ eq_refl). lia.
  - cbn. lia.
  - rewrite occurrences_app. cbn [most] in IHs. destruct (most s a) as [[|n]|]; try done. intros [= <-].
    specialize (IHa _ eq_refl). specialize (IHs _ eq_refl). lia.
Qed.

Lemma matches_least (r : re R) s ns : matches r ns -> (least s r <= occurrences s ns)%nat.
Proof.
  induction 1 as [ts t Ht|lvl k ls ch _| |a b ns ns' _ IHa _ IHb|a b ns _ IH|a b ns _ IH| |a ns ns' _ IHa _ IHs]; cbn [least].
  - rewrite occurrences_one. unfold is_symbol. destruct (forallb _ ts) eqn:E; [|lia].
    assert (bool_decide (STok (tok_type t) = s) = true) as E' by (eapply forallb_forall in E; [exact E|by apply list_elem_of_In]).
    cbn [symbol_of]. by rewrite E'.
  - rewrite occurrences_one. unfold is_symbol. cbn [symbol_of]. lia.
  - lia.
  - rewrite occurrences_app. lia.
  - lia.
  - lia.
  - lia.
  - lia.
Qed.

(** The children, sorted by symbol. *)
Lemma partition_cons ss c ns : NoDup ss -> symbol_of c ∈ ss ->
  concat (map (fun s => filter (is_symbol s) (c :: ns)) ss) ≡ₚ c :: concat (map (fun s => filter (is_symbol s) ns) ss).
Proof.
  intros Hnd (l1 & l2 & ->)%list_elem_of_split. apply NoDup_app in Hnd as (_ & Hd1 & [Hd2 _]%NoDup_cons).
  assert (forall l, symbol_of c ∉ l -> map (fun s => filter (is_symbol s) (c :: ns)) l = map (fun s => filter (is_symbol s) ns) l) as Hsame.
  { intros l Hl. apply map_ext_in. intros s Hs%list_elem_of_In. apply filter_miss. unfold is_symbol.
    apply bool_decide_eq_false. congruence. }
  rewrite !map_app, !concat_app. cbn [map concat].
  rewrite (Hsame l1) by (intros Hin; apply (Hd1 _ Hin); left). rewrite (Hsame l2) by done.
  rewrite filter_hit by (unfold is_symbol; by apply bool_decide_eq_true). cbn [app]. by rewrite <- Permutation_middle.
Qed.

Lemma partition_symbols ss ns : NoDup ss -> Forall (fun n => symbol_of n ∈ ss) ns ->
  concat (map (fun s => filter (is_symbol s) ns) ss) ≡ₚ ns.
Proof.
  intros Hnd. induction 1 as [|c ns Hc _ IH].
  - clear. induction ss; [done|]. cbn. by rewrite IHss.
  - rewrite partition_cons by done. by rewrite IH.
Qed.

(** ** Tables of accessors *)

(** The accessors of a symbol: of its only child, or of all its children and of
    the one with an index. *)
Inductive accessor :=
| one (s : symbol R) (get : node K -> option (node K))
| many (s : symbol R) (get : node K -> list (option (node K))) (at_ : node K -> Z -> option (node K)).

Definition acc_symbol (a : accessor) : symbol R := match a with one s _ | many s _ _ => s end.
Definition returned (a : accessor) (n : node K) : list (option (node K)) :=
  match a with
  | one _ get => match get n with Some c => [Some c] | None => [] end
  | many _ get _ => get n
  end.

Definition accessor_sound (a : accessor) : Prop := forall n,
  match a with
  | one s get => get n = head (filter (is_symbol s) (children_of n))
  | many s get at_ => get n = map Some (filter (is_symbol s) (children_of n)) /\
      forall i, 0 <= i -> at_ n i = filter (is_symbol s) (children_of n) !! Z.to_nat i
  end.

Definition accessors_fit (r : re R) (accs : list accessor) : bool :=
  bool_decide (NoDup (map acc_symbol accs)) &&
  forallb (fun s => bool_decide (s ∈ map acc_symbol accs)) (symbols r) &&
  forallb (fun a => match a with one s _ => match most s r with Some m => (m <=? 1)%nat | None => false end | many _ _ _ => true end) accs.

Lemma accessors_return_children k ls ch accs : Forall accessor_sound accs -> accessors_fit (rhs k) accs = true ->
  matches (rhs k) ch -> concat (map (fun a => returned a (Node k ls ch)) accs) ≡ₚ map Some ch.
Proof.
  intros Hs Hf Hm. unfold accessors_fit in Hf. apply andb_true_iff in Hf as [[Hnd Hsy]%andb_true_iff Hone].
  apply bool_decide_eq_true in Hnd.
  assert (Forall (fun a => returned a (Node k ls ch) = map Some (filter (is_symbol (acc_symbol a)) ch)) accs) as Hret.
  { apply Forall_forall. intros a Ha. rewrite Forall_forall in Hs. specialize (Hs a Ha (Node k ls ch)).
    apply list_elem_of_In in Ha. eapply forallb_forall in Hone; [|exact Ha].
    destruct a as [s get|s get at_]; cbn [returned acc_symbol children_of] in *; [rewrite Hs|by destruct Hs].
    destruct (most s (rhs k)) as [m|] eqn:Em; [|done]. apply Nat.leb_le in Hone.
    pose proof (matches_most _ s ch m Hm Em) as Ho. unfold occurrences in Ho.
    destruct (filter (is_symbol s) ch) as [|c [|c' l]]; [done..|]. cbn [length] in Ho. lia. }
  assert (concat (map (fun a => returned a (Node k ls ch)) accs) =
    map Some (concat (map (fun s => filter (is_symbol s) ch) (map acc_symbol accs)))) as ->.
  { rewrite concat_map, !map_map. f_equal. apply map_ext_in. intros a Ha. rewrite Forall_forall in Hret.
    by apply Hret, list_elem_of_In. }
  apply Permutation_map, partition_symbols; [done|]. eapply Forall_impl; [by apply matches_symbols|]. cbn. intros c Hc.
  eapply forallb_forall in Hsy; [|by apply list_elem_of_In]. by apply bool_decide_eq_true in Hsy.
Qed.

(** ** The generated accessors *)

Context {CR : ContextRuntime K} {CL : ContextLaws K}.

Lemma filter_is_context r (l : list (node K)) : filter (is_context r) l = filter (is_symbol (SRule r)) l.
Proof.
  induction l as [|c l IH]; [done|]. destruct (is_symbol (SRule r) c) eqn:E.
  - rewrite !filter_hit; [by rewrite IH|done|]. unfold is_symbol in E. apply bool_decide_eq_true in E.
    destruct c as [t|k ls ch]; [done|]. cbn in *. apply bool_decide_eq_true. congruence.
  - rewrite !filter_miss; [done|done|]. unfold is_symbol in E. apply bool_decide_eq_false in E.
    destruct c as [t|k ls ch]; [done|]. cbn in *. apply bool_decide_eq_false. congruence.
Qed.

Lemma filter_is_token t (l : list (node K)) : filter (is_token t) l = filter (is_symbol (STok t)) l.
Proof.
  induction l as [|c l IH]; [done|]. destruct (is_symbol (STok t) c) eqn:E.
  - rewrite !filter_hit; [by rewrite IH|done|]. unfold is_symbol in E. apply bool_decide_eq_true in E.
    destruct c as [t'|k ls ch]; [|done]. cbn in *. apply Z.eqb_eq. congruence.
  - rewrite !filter_miss; [done|done|]. unfold is_symbol in E. apply bool_decide_eq_false in E.
    destruct c as [t'|k ls ch]; [|done]. cbn in *. apply Z.eqb_neq. congruence.
Qed.

Lemma first_context_sound r : accessor_sound (one (SRule r) (first_context (is_context r))).
Proof. intros n. unfold first_context. by rewrite law_GetChildren, first_loop_filter, filter_is_context. Qed.

Lemma token_sound t : accessor_sound (one (STok t) (fun n => GetToken n t 0)).
Proof. intros n. rewrite law_GetToken, filter_is_token by lia. by destruct (filter _ _). Qed.

Lemma all_contexts_sound r : accessor_sound (many (SRule r) (all_contexts (is_context r)) (nth_context (is_context r))).
Proof.
  intros n. unfold all_contexts, nth_context. rewrite law_GetChildren, len_loop_filter. split.
  - rewrite Z.add_0_l, Nat2Z.id, <- filter_is_context.
    apply (fill_slice_filter (is_context r) (children_of n) [] (replicate _ None)). by rewrite length_replicate.
  - intros i Hi. rewrite nth_loop_filter, filter_is_context by lia. by rewrite Z.sub_0_r.
Qed.

Lemma all_tokens_sound t : accessor_sound (many (STok t) (fun n => map Some (GetTokens n t)) (fun n => GetToken n t)).
Proof.
  intros n. rewrite law_GetTokens, filter_is_token. split; [done|]. intros i Hi. by rewrite law_GetToken, filter_is_token.
Qed.
End occurrences.

(** The runtime's methods on trees whose children are listed in the node. *)
Definition tree_contexts {K} : ContextRuntime K := {|
  GetChildren := children_of;
  GetToken n t i := if 0 <=? i then filter (is_token t) (children_of n) !! Z.to_nat i else None;
  GetTokens n t := filter (is_token t) (children_of n)
|}.
Lemma tree_contexts_laws {K} : ContextLaws K (CR := tree_contexts).
Proof. split; cbn; [done| |done]. intros n t i Hi. by destruct (Z.leb_spec 0 i); [|lia]. Qed.
