(* ===== verification/AntlrMachine.v ===== *)
(** * A runtime whose prediction answers as it is told

    [machine] keeps exactly what [view] shows, and the list of the answers of the
    prediction: an instance of the runtime's laws on which a parser can be run. *)

From stdpp Require Import base list strings.
From Stdlib Require Import ZArith Lia.
From S2P Require Import Prelude Antlr AntlrLaws.

Record machine (K : Type) := mkMachine { mc_view : view K; mc_choices : list Z }.
Arguments mkMachine {K}.
Arguments mc_view {K}.
Arguments mc_choices {K}.

Section machine.
Context {K : Type} (alts : Z -> Z).

Definition mc_on (f : view K -> view K) (m : machine K) : machine K := mkMachine (f (mc_view m)) (mc_choices m).
Definition ParseCancellationException : exception := OtherPanic "ParseCancellationException".

(** Prediction takes the next answer; without a possible one it fails. *)
Definition mc_predict (d : Z) : PM (machine K) Z := fun m =>
  match mc_choices m with
  | a :: rest =>
      if (1 <=? a) && (a <=? alts d) then (Ok a, mkMachine (mc_view m) rest) else (Raise NoViableAltException, m)
  | [] => (Raise NoViableAltException, m)
  end.

Definition machine_runtime : ParserRuntime K (machine K) := {|
  p_LA1 m := v_la (mc_view m);
  p_LT1 m := v_lt (mc_view m);
  p_SetState _ m := m;
  p_GetParserRuleContext m := match v_frames (mc_view m) with f :: _ => node_of f | [] => Leaf eof_token end;
  p_EnterRule k _ := mc_on (v_push k);
  p_EnterOuterAlt _ m := m;
  p_ExitRule := mc_on v_exit;
  p_SetField name n := mc_on (on_top (add_label name n));
  p_SetStop m := m;
  p_Match t m :=
    match v_match t (mc_view m) with
    | Some (tok, v) => (Ok tok, mkMachine v (mc_choices m))
    | None => (Raise ParseCancellationException, m)
    end;
  p_Consume m :=
    match v_input (mc_view m) with
    | tok :: rest =>
        (Ok tok, mc_on (fun v => on_top (add_child (Leaf tok)) (mkView rest (v_frames v) (v_prec v))) m)
    | [] => (Raise (OtherPanic "cannot consume EOF"), m)
    end;
  p_ReportMatch m := m;
  p_RecoverInline m := (Raise ParseCancellationException, m);
  p_Sync m := (Ok tt, m);
  p_AdaptivePredict := mc_predict;
  p_SetException _ m := m;
  p_ReportError _ m := m;
  p_Recover _ m := (Raise ParseCancellationException, m);
  p_EnterRecursionRule k _ prec := mc_on (v_enter_recursion k prec);
  p_SetParserRuleContext k := mc_on (on_top (fun _ => mkFrame k [] []));
  p_PushNewRecursionContext k _ := mc_on (on_top (fun f => mkFrame k [] [node_of f]));
  p_UnrollRecursionContexts := mc_on v_unroll;
  p_Precpred n m := match v_prec (mc_view m) with q :: _ => q <=? n | [] => false end;
  p_GetParseListeners _ := false;
  p_TriggerExitRuleEvent m := m
|}.
Definition machine_laws : ParserLaws K (machine K) alts (PR := machine_runtime).
Proof.
  refine {| view_of := mc_view |}; try reflexivity.
  - intros p f fs H. cbn. by rewrite H.
  - intros t p. cbn. destruct (v_match t (mc_view p)) as [[tok v]|]; [|by eauto]. by eauto.
  - intros p tok rest H. cbn. rewrite H. eauto.
  - intros p. cbn. eauto.
  - intros p. cbn. eauto.
  - intros d p. cbn. unfold mc_predict. destruct (mc_choices p) as [|a rest]; [right; eauto|].
    destruct ((1 <=? a) && (a <=? alts d)) eqn:E; [left|right; eauto]. exists a. eexists. split; [reflexivity|].
    split; [|done]. apply andb_true_iff in E as [?%Z.leb_le ?%Z.leb_le]. lia.
  - intros e p. cbn. eauto.
  - intros n p q qs H. cbn. by rewrite H.
Defined.

Definition start_machine (ts : list token) (choices : list Z) : machine K := mkMachine (mkView ts [] []) choices.
End machine.
