(* ===== verification/AntlrComplete.v ===== *)
(** * Code that accepts what its grammar derives

    On the machine a piece of the parser accepts a right-hand side when some
    answers of the prediction make it consume any match of it
    ([accepts]): the tests of the next token in the code never lead away from a
    derivation.  The judgement knows the next token and the tokens that may
    follow; a test is settled by computing it on all tokens the match can start
    with. *)

From stdpp Require Import base list strings sets.
From Stdlib Require Import ZArith Lia.
From S2P Require Import Prelude Antlr AntlrLaws AntlrMachine.

(** ** Sizes, and trees without their labels *)

Section nodes.
Context {K : Type}.

Fixpoint node_size (n : node K) : nat :=
  match n with Leaf _ => 1 | Node _ _ ch => S (list_sum (map node_size ch)) end.
Definition sizes (ns : list (node K)) : nat := list_sum (map node_size ns).

(** The end of the input is the runtime's token. *)
Fixpoint erase (n : node K) : node K :=
  match n with
  | Leaf t => if tok_type t =? TokenEOF then Leaf eof_token else Leaf t
  | Node k _ ch => Node k [] (map erase ch)
  end.

Definition la (ts : list token) : Z := match ts with [] => TokenEOF | t :: _ => tok_type t end.

Lemma sizes_app ns ns' : sizes (ns ++ ns') = (sizes ns + sizes ns')%nat.
Proof. unfold sizes. by rewrite map_app, list_sum_app. Qed.
Lemma sizes_cons n ns : sizes (n :: ns) = (node_size n + sizes ns)%nat.
Proof. reflexivity. Qed.
Lemma node_size_pos (n : node K) : (1 <= node_size n)%nat.
Proof. destruct n; cbn; lia. Qed.
Lemma node_size_node k ls (ch : list (node K)) : node_size (Node k ls ch) = S (sizes ch).
Proof. reflexivity. Qed.
End nodes.

(** ** The tokens a match starts with *)

(** A list for each rule that has them all. *)
Class FirstTokens (K R : Type) {G : Grammar K R} := {
  first_of : R -> list Z
}.

Section first.
Context {K R : Type} {G : Grammar K R} {FT : FirstTokens K R}.

Fixpoint first (r : re R) : list Z :=
  match r with
  | Tok ts => ts
  | NT x _ => first_of x
  | Eps => []
  | Seq a b => first a ++ if nullable a then first b else []
  | Alt a b => first a ++ first b
  | Star a => first a
  end.
Definition starts (r : re R) (F : list Z) : list Z := first r ++ if nullable r then F else [].

Class FirstLaws := {
  first_law : forall k z, z ∈ first (rhs k) -> z ∈ first_of (rule_of k);
  first_nullable : forall k, nullable (rhs k) = true -> rule_nullable (rule_of k) = true
}.

Lemma matches_starts (r : re R) ns rest F : matches r ns ->
  Forall (fun n => match n with
    | Node k _ ch => forall rest F, la rest ∈ F -> la (tokens ch ++ rest) ∈ starts (NT (rule_of k) 0) F
    | Leaf _ => True
    end) ns ->
  la rest ∈ F -> la (tokens ns ++ rest) ∈ starts r F.
Proof.
  intros Hm. revert rest F.
  induction Hm as [ts t Ht|lvl k ls ch _| |a b ns ns' Ha IHa Hb IHb|a b ns Ha IHa|a b ns Hb IHb| |a ns ns' Ha IHa Hs IHs];
    intros rest F Hf Hr; unfold starts in *; cbn [first nullable] in *.
  - unfold tokens. cbn [map concat node_tokens]. destruct (Z.eqb_spec (tok_type t) TokenEOF) as [E|E].
    + cbn. apply elem_of_app. right. assert (existsb (Z.eqb TokenEOF) ts = true) as ->; [|done].
      apply existsb_exists. exists TokenEOF. rewrite E in Ht. split; [by apply list_elem_of_In|done].
    + cbn. apply elem_of_app. by left.
  - rewrite Forall_singleton in Hf. unfold tokens. cbn [map concat]. rewrite app_nil_r, node_tokens_node. by apply Hf.
  - cbn. exact Hr.
  - apply Forall_app in Hf as [Hf1 Hf2]. rewrite tokens_app, <- app_assoc.
    specialize (IHa (tokens ns' ++ rest) _ Hf1 (IHb rest F Hf2 Hr)). destruct (nullable a); cbn; set_solver.
  - specialize (IHa rest F Hf Hr). destruct (nullable a), (nullable b); cbn; set_solver.
  - specialize (IHb rest F Hf Hr). destruct (nullable a), (nullable b); cbn; set_solver.
  - cbn. set_solver.
  - apply Forall_app in Hf as [Hf1 Hf2]. rewrite tokens_app, <- app_assoc.
    specialize (IHs rest F Hf2 Hr). specialize (IHa (tokens ns' ++ rest) _ Hf1 IHs). destruct (nullable a); set_solver.
Qed.

Lemma derived_starts {FL : FirstLaws} n : derives n ->
  match n with
  | Node k _ ch => forall rest F, la rest ∈ F -> la (tokens ch ++ rest) ∈ starts (NT (rule_of k) 0) F
  | Leaf _ => True
  end.
Proof.
  induction n as [t|k ls ch IH] using node_induction; [done|]. intros Hd rest F Hr. inversion Hd as [|? ? ? Hm Hc]; subst.
  assert (la (tokens ch ++ rest) ∈ starts (rhs k) F) as H.
  { apply matches_starts; [done| |done]. apply Forall_forall. intros c Hin. rewrite Forall_forall in IH, Hc. by apply IH, Hc. }
  unfold starts in *. cbn [first nullable]. apply elem_of_app in H as [H|H]; apply elem_of_app; [left; by apply first_law|].
  destruct (nullable (rhs k)) eqn:E; [|by apply elem_of_nil in H]. right. by rewrite (first_nullable k E).
Qed.

Lemma starts_la {FL : FirstLaws} (r : re R) ns rest F : matches r ns -> Forall derives ns -> la rest ∈ F ->
  la (tokens ns ++ rest) ∈ starts r F.
Proof.
  intros Hm Hd Hr. apply matches_starts; [done| |done]. eapply Forall_impl; [exact Hd|]. apply derived_starts.
Qed.
End first.
Arguments FirstLaws : clear implicits.
Arguments FirstLaws K R {G FT}.

(** ** The judgement *)

Section judgement.
Context {K R : Type} {G : Grammar K R} {FT : FirstTokens K R} {FL : FirstLaws K R} (alts : Z -> Z).
#[local] Instance runtime : ParserRuntime K (machine K) := machine_runtime alts.
Local Abbreviation mc := (machine K).
Local Abbreviation PM := (Antlr.PM mc).
Implicit Types (ns : list (node K)) (f : frame K) (F : list Z).

Definition st (ts : list token) f fs qs cs : mc := mkMachine (mkView ts (f :: fs) qs) cs.

(** The context on top got the children [ns]. *)
Definition with_children f f' ns : Prop :=
  f_kind f' = f_kind f /\ map erase (f_children f') = map erase (f_children f) ++ map erase ns.

(** With some answers first, [m] consumes the tokens of [ns]. *)
Definition runs_on {A} (m : PM A) ns (rest : list token) : Prop := forall f fs qs,
  exists cs a f', with_children f f' ns /\
    forall cs', m (st (tokens ns ++ rest) f fs qs (cs ++ cs')) = (Ok a, st rest f' fs qs cs').

(** Every match of [r] of a size up to [N], when the next token is [z] and one of
    [F] follows. *)
Definition accepts {A} (z : Z) (N : nat) (m : PM A) (r : re R) F : Prop := forall ns rest,
  matches r ns -> Forall derives ns -> (sizes ns <= N)%nat -> Forall no_eof rest -> la rest ∈ F ->
  la (tokens ns ++ rest) = z -> runs_on m ns rest.

(** A step that consumes nothing. *)
Definition silent {A} (m : PM A) : Prop := forall ts f fs qs,
  exists a f', with_children f f' [] /\ forall cs, m (st ts f fs qs cs) = (Ok a, st ts f' fs qs cs).

Lemma with_children_refl f : with_children f f [].
Proof. split; [done|]. by rewrite app_nil_r. Qed.
Lemma with_children_trans f1 f2 f3 ns ns' : with_children f1 f2 ns -> with_children f2 f3 ns' -> with_children f1 f3 (ns ++ ns').
Proof. intros [H1 H2] [H3 H4]. split; [congruence|]. by rewrite H4, H2, map_app, app_assoc. Qed.

Lemma no_eof_node_tokens (n : node K) : Forall no_eof (node_tokens n).
Proof.
  induction n as [t|k ls ch IH] using node_induction; cbn.
  - destruct (Z.eqb_spec (tok_type t) TokenEOF); by repeat constructor.
  - induction IH as [|c ch Hc _ IHch]; cbn; [done|]. by apply Forall_app.
Qed.
Lemma no_eof_tokens ns : Forall no_eof (tokens ns).
Proof.
  unfold tokens. induction ns as [|n ns IH]; cbn; [done|]. apply Forall_app. split; [apply no_eof_node_tokens|done].
Qed.

(** *** Steps that consume nothing *)

Lemma accepts_silent {A B} z N (m : PM A) (k : A -> PM B) r F :
  silent m -> (forall a, accepts z N (k a) r F) -> accepts z N (pbind m k) r F.
Proof.
  intros Hm Hk ns rest Hr Hd Hn He Hf Hz f fs qs. destruct (Hm (tokens ns ++ rest) f fs qs) as (a & f1 & Hf1 & Hm1).
  destruct (Hk a ns rest Hr Hd Hn He Hf Hz f1 fs qs) as (cs & b & f2 & Hf2 & Hk2). exists cs, b, f2.
  split; [exact (with_children_trans _ _ _ _ _ Hf1 Hf2)|]. intros cs'. unfold pbind. by rewrite Hm1.
Qed.

Lemma accepts_then {A B} z N (m : PM A) (k : A -> PM B) r F :
  accepts z N m r F -> (forall a, silent (k a)) -> accepts z N (pbind m k) r F.
Proof.
  intros Hm Hk ns rest Hr Hd Hn He Hf Hz f fs qs.
  destruct (Hm ns rest Hr Hd Hn He Hf Hz f fs qs) as (cs & a & f1 & Hf1 & Hm1).
  destruct (Hk a rest f1 fs qs) as (b & f2 & Hf2 & Hk2). exists cs, b, f2. rewrite <- (app_nil_r ns) at 1.
  split; [by eapply with_children_trans|]. intros cs'. unfold pbind. by rewrite Hm1.
Qed.

Lemma pbind_ok {A B} (m : PM A) (k : A -> PM B) p a p' : m p = (Ok a, p') -> pbind m k p = k a p'.
Proof. intros H. unfold pbind. by rewrite H. Qed.
Lemma predict_step d v ts f fs qs cs : (1 <=? v) && (v <=? alts d) = true ->
  p_AdaptivePredict d (st ts f fs qs (v :: cs)) = (Ok v, st ts f fs qs cs).
Proof. intros H. cbn. unfold mc_predict. cbn. by rewrite H. Qed.

Lemma silent_bind {A B} (m : PM A) (k : A -> PM B) : silent m -> (forall a, silent (k a)) -> silent (pbind m k).
Proof.
  intros Hm Hk ts f fs qs. destruct (Hm ts f fs qs) as (a & f1 & Hf1 & Hm1).
  destruct (Hk a ts f1 fs qs) as (b & f2 & Hf2 & Hk2). exists b, f2. split; [exact (with_children_trans _ _ _ _ _ Hf1 Hf2)|].
  intros cs. unfold pbind. by rewrite Hm1.
Qed.

Lemma silent_ret {A} (a : A) : silent (pret a).
Proof. intros ts f fs qs. exists a, f. split; [apply with_children_refl|done]. Qed.
Lemma silent_get {A} (g : mc -> A) : (forall ts f fs qs cs, g (st ts f fs qs cs) = g (st ts f fs qs [])) -> silent (pget g).
Proof.
  intros Hg ts f fs qs. exists (g (st ts f fs qs [])), f. split; [apply with_children_refl|].
  intros cs. unfold pget. by rewrite Hg.
Qed.
Lemma silent_do (g : mc -> mc) : (forall p, g p = p) -> silent (pdo g).
Proof. intros Hg ts f fs qs. exists tt, f. split; [apply with_children_refl|]. intros cs. unfold pdo. by rewrite Hg. Qed.
Lemma silent_SetState s : silent (SetState s).
Proof. by apply silent_do. Qed.
Lemma silent_EnterOuterAlt a : silent (EnterOuterAlt a).
Proof. by apply silent_do. Qed.
Lemma silent_ReportMatch : silent ReportMatch.
Proof. by apply silent_do. Qed.
Lemma silent_Sync : silent p_Sync.
Proof. intros ts f fs qs. exists tt, f. split; [apply with_children_refl|done]. Qed.
Lemma silent_SetField name n : silent (SetField name n).
Proof.
  intros ts f fs qs. exists tt, (add_label name n f). split; [|done]. split; [done|]. by rewrite app_nil_r.
Qed.
Lemma silent_if {A} (b : bool) (m m' : PM A) : silent m -> silent m' -> silent (if b then m else m').
Proof. by destruct b. Qed.

(** *** Sequences, alternatives, tests *)

Lemma accepts_more {A} z N (m : PM A) r F F' : (forall x, x ∈ F -> x ∈ F') -> accepts z N m r F' -> accepts z N m r F.
Proof. intros HF Hm ns rest Hr Hd Hn He Hf. apply Hm; auto. Qed.

Lemma accepts_seq {A B} z N (m : PM A) (k : A -> PM B) ra rb F :
  accepts z N m ra (starts rb F) -> (forall a z', accepts z' N (k a) rb F) -> accepts z N (pbind m k) (Seq ra rb) F.
Proof.
  intros Hm Hk ns rest Hr Hd Hn He Hf Hz f fs qs. inversion Hr as [| | |? ? ns1 ns2 Hr1 Hr2| | | |]; subst.
  apply Forall_app in Hd as [Hd1 Hd2]. rewrite sizes_app in Hn. rewrite tokens_app, <- app_assoc in *.
  destruct (Hm ns1 (tokens ns2 ++ rest)) with (f := f) (fs := fs) (qs := qs) as (cs1 & a & f1 & Hf1 & Hm1); try done; [lia| | |].
  { apply Forall_app. split; [apply no_eof_tokens|done]. }
  { by apply starts_la. }
  destruct (Hk a _ ns2 rest Hr2 Hd2 ltac:(lia) He Hf eq_refl f1 fs qs) as (cs2 & b & f2 & Hf2 & Hk2).
  exists (cs1 ++ cs2), b, f2. split; [by eapply with_children_trans|]. intros cs'. unfold pbind. by rewrite <- app_assoc, Hm1.
Qed.

Lemma accepts_assoc {A B C} z N (m : PM A) (k : A -> PM B) (h : B -> PM C) r F :
  accepts z N (pbind (pbind m k) h) r F -> accepts z N (pbind m (fun a => pbind (k a) h)) r F.
Proof.
  intros Hm ns rest Hr Hd Hn He Hf Hz f fs qs. destruct (Hm ns rest Hr Hd Hn He Hf Hz f fs qs) as (cs & c & f' & Hf' & H).
  exists cs, c, f'. split; [done|]. intros cs'. rewrite <- H. unfold pbind. by destruct (m _) as [[a|e|] p].
Qed.

Lemma accepts_alt {A} z N (m : PM A) ra rb F : accepts z N m ra F -> accepts z N m rb F -> accepts z N m (Alt ra rb) F.
Proof. intros Ha Hb ns rest Hr. inversion Hr; subst; [by apply Ha|by apply Hb]. Qed.

Lemma accepts_start {A} z N (m : PM A) r F : (z ∈ starts r F -> accepts z N m r F) -> accepts z N m r F.
Proof. intros Hm ns rest Hr Hd Hn He Hf Hz. apply Hm; try done. rewrite <- Hz. by apply starts_la. Qed.

Lemma accepts_yes {A} z N (c : Z -> bool) (m m' : PM A) r F :
  forallb c (starts r F) = true -> accepts z N m r F -> accepts z N (if c z then m else m') r F.
Proof.
  intros Hc Hm. apply accepts_start. intros Hz%list_elem_of_In. eapply forallb_forall in Hc; [|exact Hz]. by rewrite Hc.
Qed.
Lemma accepts_no {A} z N (c : Z -> bool) (m m' : PM A) r F :
  forallb (fun z => negb (c z)) (starts r F) = true -> accepts z N m' r F -> accepts z N (if c z then m else m') r F.
Proof.
  intros Hc Hm. apply accepts_start. intros Hz%list_elem_of_In. eapply forallb_forall in Hc; [|exact Hz].
  apply negb_true_iff in Hc. by rewrite Hc.
Qed.

Lemma accepts_la {A} z N (k : Z -> PM A) r F : accepts z N (k z) r F -> accepts z N (pbind LA1 k) r F.
Proof.
  intros Hk ns rest Hr Hd Hn He Hf Hz f fs qs. destruct (Hk ns rest Hr Hd Hn He Hf Hz f fs qs) as (cs & a & f' & Hf' & H).
  exists cs, a, f'. split; [done|]. intros cs'. rewrite <- H. unfold pbind, LA1, pget. cbn.
  change (v_la _) with (la (tokens ns ++ rest)). by rewrite Hz.
Qed.

Lemma accepts_predict {A} z N d a (k : Z -> PM A) r F : (1 <=? a) && (a <=? alts d) = true ->
  accepts z N (k a) r F -> accepts z N (pbind (p_AdaptivePredict d) k) r F.
Proof.
  intros Ha Hk ns rest Hr Hd Hn He Hf Hz f fs qs. destruct (Hk ns rest Hr Hd Hn He Hf Hz f fs qs) as (cs & b & f' & Hf' & H).
  exists (a :: cs), b, f'. split; [done|]. intros cs'. rewrite <- H. unfold pbind. cbn. unfold mc_predict. cbn. by rewrite Ha.
Qed.

Lemma accepts_ret {A} z N (a : A) F : accepts z N (pret a) Eps F.
Proof.
  intros ns rest Hr Hd Hn He Hf Hz f fs qs. inversion Hr; subst. exists [], a, f. split; [apply with_children_refl|done].
Qed.

(** *** Tokens *)

Lemma erase_leaf t : no_eof t -> erase (K := K) (Leaf t) = Leaf t.
Proof. unfold no_eof. cbn. by destruct (Z.eqb_spec (tok_type t) TokenEOF). Qed.

(** Consuming the token of a leaf. *)
Lemma with_leaf t f : no_eof t -> with_children f (add_child (Leaf t) f) [Leaf t].
Proof. intros _. split; [done|]. cbn. by rewrite map_app. Qed.

Lemma accepts_match z N t F : bool_decide (t = TokenEOF -> F = [TokenEOF]) = true -> accepts z N (Match t) (Tok [t]) F.
Proof.
  intros HF%bool_decide_eq_true ns rest Hr Hd Hn He Hf Hz f fs qs. inversion Hr as [? tok Ht| | | | | | |]; subst.
  apply list_elem_of_singleton in Ht. destruct (Z.eqb_spec (tok_type tok) TokenEOF) as [E|E].
  - assert (rest = []) as ->.
    { rewrite HF in Hf by congruence. apply list_elem_of_singleton in Hf. destruct rest as [|t' rest]; [done|].
      by apply Forall_cons in He as [? _]. }
    exists [], eof_token, (add_child (Leaf eof_token) f). split.
    { split; [done|]. cbn [map erase]. rewrite E. cbn. by rewrite map_app. }
    intros cs'. unfold tokens. cbn [map concat node_tokens]. rewrite E. cbn. unfold v_match. cbn. by rewrite <- Ht, E.
  - exists [], tok, (add_child (Leaf tok) f). split; [by apply with_leaf|]. intros cs'.
    unfold tokens. cbn [map concat node_tokens]. destruct (Z.eqb_spec (tok_type tok) TokenEOF); [done|].
    cbn. unfold v_match. cbn. by rewrite Ht, Z.eqb_refl.
Qed.

Lemma accepts_consume z N ts F : bool_decide (TokenEOF ∉ ts) = true -> accepts z N p_Consume (Tok ts) F.
Proof.
  intros HF%bool_decide_eq_true ns rest Hr Hd Hn He Hf Hz f fs qs. inversion Hr as [? tok Ht| | | | | | |]; subst.
  assert (tok_type tok <> TokenEOF) as E by (intros E; by rewrite E in Ht).
  exists [], tok, (add_child (Leaf tok) f). split; [by apply with_leaf|]. intros cs'.
  unfold tokens. cbn [map concat node_tokens]. destruct (Z.eqb_spec (tok_type tok) TokenEOF); [done|]. reflexivity.
Qed.

(** *** Loops *)

(** What is read at the end of a turn: the next token. *)
Definition peeks (next : PM Z) : Prop := forall ts f fs qs,
  exists f', with_children f f' [] /\ forall cs, next (st ts f fs qs cs) = (Ok (la ts), st ts f' fs qs cs).

Lemma peeks_la : peeks LA1.
Proof. intros ts f fs qs. exists f. split; [apply with_children_refl|done]. Qed.
Lemma peeks_silent {A} (m : PM A) (next : PM Z) : silent m -> peeks next -> peeks (pbind m (fun _ => next)).
Proof.
  intros Hm Hn ts f fs qs. destruct (Hm ts f fs qs) as (a & f1 & Hf1 & Hm1). destruct (Hn ts f1 fs qs) as (f2 & Hf2 & Hn2).
  exists f2. split; [exact (with_children_trans _ _ _ _ _ Hf1 Hf2)|]. intros cs. unfold pbind. by rewrite Hm1.
Qed.

Lemma sizes_nonempty {NL : GrammarLaws (K := K) (R := R)} (r : re R) ns :
  matches r ns -> Forall derives ns -> nullable r = false -> (1 <= sizes ns)%nat.
Proof.
  intros Hm Hd Hn. pose proof (matches_nonempty r ns Hm Hd Hn). destruct ns as [|n ns]; [done|].
  rewrite sizes_cons. pose proof (node_size_pos n). lia.
Qed.

Lemma matches_star (r : re R) ns : matches (Star r) ns -> exists nss, ns = concat nss /\ Forall (matches r) nss.
Proof.
  intros Hs. remember (Star r) as sr eqn:E. induction Hs as [| | | | | | |a ns ns' Ha _ Hs IH]; try done.
  - by exists [].
  - injection E as ->. destruct IH as (nss & -> & Hf); [done|]. exists (ns :: nss). split; [done|by constructor].
Qed.

(** A loop over the parts [nss] of a match, when [var] is what its variable holds
    before them. *)
Lemma loop_runs (var : list (list (node K)) -> Z) cond body next rest nss fuel :
  (length nss < fuel)%nat -> cond (var []) = false ->
  (forall ns nss', ns :: nss' `suffix_of` nss -> cond (var (ns :: nss')) = true /\
     runs_on (body (var (ns :: nss'))) ns (tokens (concat nss') ++ rest)) ->
  (forall nss' f fs qs, nss' `suffix_of` nss -> exists cs f', with_children f f' [] /\ forall cs',
     next (st (tokens (concat nss') ++ rest) f fs qs (cs ++ cs')) = (Ok (var nss'), st (tokens (concat nss') ++ rest) f' fs qs cs')) ->
  runs_on (for_loop fuel cond body next (var nss)) (concat nss) rest.
Proof.
  revert nss. induction fuel as [|fuel IH]; intros nss Hl H0 Hb Hn; [lia|]. intros f fs qs. cbn [for_loop].
  destruct nss as [|ns nss]; cbn [concat].
  { rewrite H0. exists [], tt, f. split; [apply with_children_refl|done]. }
  destruct (Hb ns nss ltac:(reflexivity)) as [-> Hbody]. rewrite tokens_app, <- app_assoc.
  destruct (Hbody f fs qs) as (cs1 & a & f1 & Hf1 & H1).
  destruct (Hn nss f1 fs qs) as (cs2 & f2 & Hf2 & H2); [by exists [ns]|].
  destruct (IH nss) with (f := f2) (fs := fs) (qs := qs) as (cs3 & u & f3 & Hf3 & H3); [cbn in Hl; lia|done| | |].
  - intros ns' nss' Hs. apply Hb. by apply suffix_cons_r.
  - intros nss' f' fs' qs' Hs. apply Hn. by apply suffix_cons_r.
  - exists (cs1 ++ cs2 ++ cs3), u, f3. split.
    { eapply with_children_trans; [exact Hf1|]. exact (with_children_trans _ _ _ _ _ Hf2 Hf3). }
    intros cs'. unfold pbind. by rewrite <- !app_assoc, H1, H2.
Qed.

(** The parts of a match, each of which the body of the loop accepts. *)
Lemma parts_run {NL : GrammarLaws (K := K) (R := R)} N (body : Z -> PM unit) (r : re R) F rest nss :
  Forall (matches r) nss -> Forall derives (concat nss) -> (sizes (concat nss) <= N)%nat -> Forall no_eof rest -> la rest ∈ F ->
  nullable r = false -> (forall x z, accepts z N (body x) r (first r ++ F)) ->
  (length nss <= sizes (concat nss))%nat /\
  forall ns nss' x, ns :: nss' `suffix_of` nss -> la (tokens (concat (ns :: nss')) ++ rest) ∈ first r /\
    runs_on (body x) ns (tokens (concat nss') ++ rest).
Proof.
  intros Hm Hd Hn He Hf Hnull Hb. split.
  - clear Hn. induction Hm as [|ns nss Hns Hm IH]; [cbn; lia|]. cbn [concat length] in *. apply Forall_app in Hd as [Hd1 Hd2].
    rewrite sizes_app. pose proof (sizes_nonempty _ _ Hns Hd1 Hnull). specialize (IH Hd2). lia.
  - intros ns nss' x [pre ->]. apply Forall_app in Hm as [_ [Hns Hm]%Forall_cons]. rewrite concat_app in Hd, Hn.
    cbn [concat] in *. apply Forall_app in Hd as [_ [Hd1 Hd2]%Forall_app]. rewrite !sizes_app in Hn.
    assert (la (tokens (concat nss') ++ rest) ∈ first r ++ F) as Hla.
    { clear -Hm Hd2 Hf Hnull FL. destruct Hm as [|ns' nss' Hns' _]; [cbn; set_solver|]. cbn [concat] in *.
      apply Forall_app in Hd2 as [Hd1 _]. rewrite tokens_app, <- app_assoc.
      pose proof (starts_la r ns' (tokens (concat nss') ++ rest) [la (tokens (concat nss') ++ rest)] Hns' Hd1 ltac:(by left)) as H.
      unfold starts in H. rewrite Hnull, app_nil_r in H. set_solver. }
    split.
    + pose proof (starts_la r ns (tokens (concat nss') ++ rest) _ Hns Hd1 Hla) as H. unfold starts in H.
      by rewrite Hnull, app_nil_r, app_assoc, <- tokens_app in H.
    + eapply Hb; [done..|lia| |exact Hla|reflexivity]. apply Forall_app. split; [apply no_eof_tokens|done].
Qed.

Lemma accepts_for {NL : GrammarLaws (K := K) (R := R)} z N fuel cond body next (r : re R) F : (N < fuel)%nat -> nullable r = false ->
  forallb cond (first r) = true -> forallb (fun z => negb (cond z)) F = true ->
  (forall x z', accepts z' N (body x) r (first r ++ F)) -> peeks next ->
  accepts z N (for_loop fuel cond body next z) (Star r) F.
Proof.
  intros HN Hnull Hc Hc' Hb Hnext ns rest Hr Hd Hn He Hf Hz. apply matches_star in Hr as (nss & -> & Hm).
  destruct (parts_run N body r F rest nss Hm Hd Hn He Hf Hnull Hb) as [Hlen Hruns]. rewrite <- Hz.
  apply (loop_runs (fun nss => la (tokens (concat nss) ++ rest))).
  - lia.
  - cbn. eapply forallb_forall in Hc'; [|by apply list_elem_of_In]. by apply negb_true_iff in Hc'.
  - intros ns nss' Hs. destruct (Hruns ns nss' (la (tokens (concat (ns :: nss')) ++ rest)) Hs) as [Hla Hrun]. split; [|done].
    eapply forallb_forall in Hc; [exact Hc|by apply list_elem_of_In].
  - intros nss' f fs qs _. destruct (Hnext (tokens (concat nss') ++ rest) f fs qs) as (f' & Hf' & H). by exists [], f'.
Qed.

(** A loop that asks the prediction: 1 to go on, 2 to stop. *)
Lemma accepts_predict_for {NL : GrammarLaws (K := K) (R := R)} {A B} z N fuel d cond body (m1 : PM A) (m2 : PM B) (r : re R) F :
  (N < fuel)%nat -> nullable r = false -> alts d = 2 -> cond 1 = true -> cond 2 = false ->
  (forall z', accepts z' N (body 1) r (first r ++ F)) -> silent m1 -> silent m2 ->
  accepts z N (pbind (p_AdaptivePredict d)
    (for_loop fuel cond body (pbind m1 (fun _ => pbind m2 (fun _ => p_AdaptivePredict d))))) (Star r) F.
Proof.
  intros HN Hnull Hd2 Hc1 Hc2 Hb Hm1 Hm2 ns rest Hr Hd Hn He Hf Hz. apply matches_star in Hr as (nss & -> & Hm).
  destruct (parts_run N (fun _ => body 1) r F rest nss Hm Hd Hn He Hf Hnull (fun _ => Hb)) as [Hlen Hruns].
  set (var := fun nss : list (list (node K)) => match nss with [] => 2 | _ => 1 end).
  assert (forall nss', (1 <=? var nss') && (var nss' <=? alts d) = true) as Hvar by (intros []; rewrite Hd2; done).
  pose proof (loop_runs var cond body (pbind m1 (fun _ => pbind m2 (fun _ => p_AdaptivePredict d))) rest nss fuel) as Hloop.
  intros f fs qs. destruct Hloop with (f := f) (fs := fs) (qs := qs) as (cs & a & f' & Hf' & H); [lia|done| | |].
  - intros ns nss' Hs. split; [done|]. by apply (Hruns ns nss' 1 Hs).
  - intros nss' g gs ps _. destruct (Hm1 (tokens (concat nss') ++ rest) g gs ps) as (a1 & g1 & Hg1 & E1).
    destruct (Hm2 (tokens (concat nss') ++ rest) g1 gs ps) as (a2 & g2 & Hg2 & E2). exists [var nss'], g2.
    split; [exact (with_children_trans _ _ _ _ _ Hg1 Hg2)|]. intros cs'. unfold pbind. rewrite E1, E2.
    cbn. unfold mc_predict. cbn. by rewrite Hvar.
  - exists (var nss :: cs), a, f'. split; [done|]. intros cs'. rewrite <- H. unfold pbind. cbn. unfold mc_predict. cbn. by rewrite Hvar.
Qed.

(** ** Rule functions *)

Lemma recovering_ok (body : PM unit) p a p' : body p = (Ok a, p') -> recovering body p = (Ok a, p').
Proof. intros H. unfold recovering. by rewrite H. Qed.

(** A finished context, and the one below that gets it. *)
Lemma with_node k ls ch f g : f_kind g = k -> map erase (f_children g) = map erase ch ->
  with_children f (add_child (node_of g) f) [Node k ls ch].
Proof. intros Hk Hc. split; [done|]. cbn. rewrite map_app. cbn. by rewrite Hk, Hc. Qed.

Lemma accepts_rule z N k s body lvl F F' : (forall k', rule_of k' = rule_of k -> k' = k) -> (forall x, x ∈ F -> x ∈ F') ->
  (forall z', accepts z' N body (rhs k) F') ->
  accepts z (S N) (rule_function (p_EnterRule k s) p_ExitRule body) (NT (rule_of k) lvl) F.
Proof.
  intros Hk HF Hb ns rest Hr Hd Hn He Hf Hz f fs qs. inversion Hr as [|? k' ls ch _ Hk'| | | | | |]; subst. apply Hk in Hk' as ->.
  rewrite Forall_singleton in Hd. inversion Hd as [|? ? ? Hm Hch]; subst.
  destruct (Hb (la (tokens ch ++ rest)) ch rest Hm Hch) with (f := mkFrame k [] []) (fs := f :: fs) (qs := qs) as (cs & a & g & [Hg Hc] & H);
    [cbn in Hn; unfold sizes; lia|done|by apply HF|reflexivity|].
  exists cs, (node_of g), (add_child (node_of g) f). split; [by apply with_node|]. intros cs'. unfold rule_function.
  assert (body (p_EnterRule k s (st (tokens [Node k ls ch] ++ rest) f fs qs (cs ++ cs'))) = (Ok a, st rest g (f :: fs) qs cs')) as E.
  { rewrite <- H. unfold tokens at 1. cbn [map concat]. by rewrite node_tokens_node, app_nil_r. }
  by rewrite (recovering_ok _ _ _ _ E).
Qed.

(** ** A left-recursive rule *)

Section recursion.
Context (r0 : R).

(** A first operand: the context on top, empty so far, becomes it. *)
Definition opens (N : nat) (m : PM unit) F : Prop := forall k ch rest,
  rule_of k = r0 -> left_operand k = false -> matches (rhs k) ch -> Forall derives ch -> (sizes ch <= N)%nat ->
  Forall no_eof rest -> la rest ∈ F -> forall f fs qs, f_children f = [] ->
  exists cs f', f_kind f' = k /\ map erase (f_children f') = map erase ch /\
    forall cs', m (st (tokens ch ++ rest) f fs qs (cs ++ cs')) = (Ok tt, st rest f' fs qs cs').

(** An operator and what stands on its right: the context on top becomes the
    operand on its left. *)
Definition extends (N : nat) (m : PM unit) F : Prop := forall k r ch rest q,
  rule_of k = r0 -> left_operand k = true -> rhs k = Seq (NT r0 0) r -> q <= level k -> matches r ch -> Forall derives ch ->
  (sizes ch <= N)%nat -> Forall no_eof rest -> la rest ∈ F -> forall f fs qs,
  exists cs f', f_kind f' = k /\ map erase (f_children f') = erase (node_of f) :: map erase ch /\
    forall cs', m (st (tokens ch ++ rest) f fs (q :: qs) (cs ++ cs')) = (Ok tt, st rest f' fs (q :: qs) cs').

(** The operand at the left end of a context, and the operators from there on. *)
Definition climb (c : node K) (o : K * list (node K)) : node K := Node o.1 [] (c :: o.2).
Definition operator_ok (N : nat) (q : Z) (o : K * list (node K)) : Prop := exists r,
  rule_of o.1 = r0 /\ left_operand o.1 = true /\ rhs o.1 = Seq (NT r0 0) r /\ nullable r = false /\ q <= level o.1 /\
  matches r o.2 /\ Forall derives o.2 /\ (sizes o.2 <= N)%nat.

Definition left_law : Prop := forall k, rule_of k = r0 -> left_operand k = true -> exists r, rhs k = Seq (NT r0 0) r /\ nullable r = false.

Lemma operator_ok_more N N' q o : (N <= N')%nat -> operator_ok N q o -> operator_ok N' q o.
Proof. intros HN (r & H1 & H2 & H3 & H4 & H5 & H6 & H7 & H8). exists r. split_and!; try done. lia. Qed.

Lemma left_spine (HL : left_law) N q n : derives n -> (node_size n <= S N)%nat -> q <= node_level n ->
  match n with
  | Leaf _ => True
  | Node k _ _ => rule_of k = r0 -> exists kb ch ops, rule_of kb = r0 /\ left_operand kb = false /\
      matches (rhs kb) ch /\ Forall derives ch /\ (sizes ch <= N)%nat /\ Forall (operator_ok N q) ops /\
      node_tokens n = tokens ch ++ concat (map (fun o => tokens o.2) ops) /\ (length ops <= N)%nat /\
      erase n = foldl climb (Node kb [] (map erase ch)) (map (fun o => (o.1, map erase o.2)) ops)
  end.
Proof.
  revert N. induction n as [t|k ls ch IH] using node_induction; intros N Hd Hs Hq; [done|]. intros Hk.
  inversion Hd as [|? ? ? Hm Hch]; subst. rewrite node_size_node in Hs. destruct (left_operand k) eqn:El.
  - destruct (HL k Hk El) as (r & Hrhs & Hnull). rewrite Hrhs in Hm. inversion Hm as [| | |? ? ns1 ns2 Hm1 Hm2| | | |]; subst.
    inversion Hm1 as [|? k1 ls1 ch1 Hl1 Hk1| | | | | |]; subst. cbn [app] in *. apply Forall_cons in IH as [IH _], Hch as [Hd1 Hd2].
    rewrite sizes_cons in Hs. pose proof (node_size_pos (Node k1 ls1 ch1)) as Hp1.
    change (node_level (Node k ls ?c)) with (if left_operand k then Z.min (level k) (node_level (Node k1 ls1 ch1)) else level k) in Hq.
    rewrite El in Hq.
    destruct N as [|N]; [lia|].
    destruct (IH N Hd1) as (kb & ch & ops & H1 & H2 & H4 & H5 & H6 & H7 & H8 & H9 & H10); [lia|etrans; [exact Hq|apply Z.le_min_r]|done|].
    exists kb, ch, (ops ++ [(k, ns2)]). split_and!; try done; [congruence|apply (Nat.le_trans _ N); [exact H6|apply Nat.le_succ_diag_r]| | | |].
    + apply Forall_app. split; [eapply Forall_impl; [exact H7|]; intros o; apply operator_ok_more; lia|].
      apply Forall_singleton. exists r. split_and!; try done; cbn [snd fst]; try congruence; [by apply Z.min_glb_iff in Hq as [? _]|lia].
    + rewrite node_tokens_node. unfold tokens at 1. cbn [map concat]. fold (tokens ns2). rewrite H8, map_app, concat_app. cbn.
      by rewrite app_nil_r, app_assoc.
    + rewrite length_app. cbn. lia.
    + rewrite map_app, foldl_app. cbn [erase map]. cbn [erase] in H10. by rewrite H10.
  - exists k, ch, []. split_and!; try done; [unfold sizes in *; lia|by rewrite node_tokens_node, app_nil_r|cbn; lia].
Qed.

(** What follows an operand is an operator, or what follows the whole. *)
Lemma operators_la N q F ops rest : (forall k r z, rule_of k = r0 -> left_operand k = true -> rhs k = Seq (NT r0 0) r -> z ∈ first r -> z ∈ F) ->
  Forall (operator_ok N q) ops -> la rest ∈ F -> la (concat (map (fun o => tokens o.2) ops) ++ rest) ∈ F.
Proof.
  intros HF Hops Hf. destruct Hops as [|[k' ch'] ops (r' & J1 & J2 & J3 & J4 & J5 & J6 & J7 & J8) _]; [done|]. cbn [fst snd] in *.
  cbn [map concat]. rewrite <- app_assoc.
  pose proof (starts_la r' ch' (concat (map (fun o => tokens o.2) ops) ++ rest) [la (concat (map (fun o => tokens o.2) ops) ++ rest)]
    J6 J7 ltac:(by left)) as H. unfold starts in H. rewrite J4, app_nil_r in H. by eapply HF.
Qed.

Lemma operators_no_eof (ops : list (K * list (node K))) rest : Forall no_eof rest ->
  Forall no_eof (concat (map (fun o => tokens o.2) ops) ++ rest).
Proof.
  intros He. apply Forall_app. split; [|done]. induction ops; cbn; [done|]. apply Forall_app. split; [apply no_eof_tokens|done].
Qed.

(** The loop over the operators. *)
Lemma operators_run N q (body : Z -> PM unit) {A B} (m1 : PM A) (m2 : PM B) d cond F rest : alts d = 2 ->
  cond 1 = true -> cond 2 = false -> extends N (body 1) F -> Forall no_eof rest -> la rest ∈ F ->
  (forall k r z, rule_of k = r0 -> left_operand k = true -> rhs k = Seq (NT r0 0) r -> z ∈ first r -> z ∈ F) ->
  silent m1 -> silent m2 -> forall ops fuel, Forall (operator_ok N q) ops -> (length ops < fuel)%nat -> forall f fs qs, exists cs f',
    erase (node_of f') = foldl climb (erase (node_of f)) (map (fun o => (o.1, map erase o.2)) ops) /\
    forall cs', for_loop fuel cond body (pbind m1 (fun _ => pbind m2 (fun _ => p_AdaptivePredict d))) (match ops with [] => 2 | _ => 1 end)
      (st (concat (map (fun o => tokens o.2) ops) ++ rest) f fs (q :: qs) (cs ++ cs')) = (Ok tt, st rest f' fs (q :: qs) cs').
Proof.
  intros Hd2 Hc1 Hc2 Hb He Hf HF Hm1 Hm2 ops. induction ops as [|[k ch] ops IH]; intros fuel Hops Hl f fs qs;
    (destruct fuel as [|fuel]; [cbn in Hl; lia|]); cbn [for_loop map concat].
  { rewrite Hc2. by exists [], f. }
  rewrite Hc1. apply Forall_cons in Hops as [(r & H1 & H2 & H3 & H4 & H5 & H6 & H7 & H8) Hops]. cbn [fst snd] in *.
  set (rest1 := concat (map (fun o => tokens o.2) ops) ++ rest).
  assert (Forall no_eof rest1) as He1 by by apply operators_no_eof.
  assert (la rest1 ∈ F) as Hf1 by (by eapply operators_la).
  destruct (Hb k r ch rest1 q H1 H2 H3 H5 H6 H7 H8 He1 Hf1 f fs qs) as (cs1 & f1 & Hk1 & Hch1 & E1).
  destruct (Hm1 rest1 f1 fs (q :: qs)) as (a1 & f2 & Hf2 & E2). destruct (Hm2 rest1 f2 fs (q :: qs)) as (a2 & f3 & Hf3 & E3).
  destruct (IH fuel Hops ltac:(cbn in Hl; lia) f3 fs qs) as (cs2 & f' & Hf' & E4).
  exists (cs1 ++ (match ops with [] => 2 | _ => 1 end) :: cs2), f'. split.
  - rewrite Hf'. cbn [foldl]. f_equal. unfold climb. cbn [fst snd].
    pose proof (with_children_trans _ _ _ _ _ Hf2 Hf3) as [Hk3 Hc3]. unfold node_of. cbn. rewrite app_nil_r in Hc3.
    by rewrite Hk3, Hc3, Hk1, Hch1.
  - intros cs'. rewrite <- !app_assoc. cbn [app]. fold rest1. rewrite (pbind_ok _ _ _ _ _ (E1 _)). erewrite pbind_ok; [exact (E4 cs')|].
    rewrite (pbind_ok _ _ _ _ _ (E2 _)), (pbind_ok _ _ _ _ _ (E3 _)). apply predict_step. rewrite Hd2. by destruct ops.
Qed.

Lemma accepts_recursion z (HL : left_law) N k0 s q (primary : PM unit) (body : Z -> PM unit) {A1 A2 A3 A4 A5}
    (m1 : PM A1) (m2 : PM A2) (m3 : PM A3) (n1 : PM A4) (n2 : PM A5) d cond fuel F F' :
  alts d = 2 -> cond 1 = true -> cond 2 = false -> (N < fuel)%nat -> (forall x, x ∈ F -> x ∈ F') ->
  (forall k r z, rule_of k = r0 -> left_operand k = true -> rhs k = Seq (NT r0 0) r -> z ∈ first r -> z ∈ F') ->
  opens N primary F' -> extends N (body 1) F' -> silent m1 -> silent m2 -> silent m3 -> silent n1 -> silent n2 ->
  accepts z (S N) (rule_function (p_EnterRecursionRule k0 s q) p_UnrollRecursionContexts
    (pbind primary (fun _ => pbind m1 (fun _ => pbind m2 (fun _ => pbind m3 (fun _ => pbind (p_AdaptivePredict d)
      (for_loop fuel cond body (pbind n1 (fun _ => pbind n2 (fun _ => p_AdaptivePredict d)))))))))) (NT r0 q) F.
Proof.
  intros Hd2 Hc1 Hc2 HN HF HF' Hopen Hext Hm1 Hm2 Hm3 Hn1 Hn2 ns rest Hr Hd Hn He Hf Hz f fs qs.
  inversion Hr as [|? k ls ch Hq Hk| | | | | |]; subst. rewrite Forall_singleton in Hd.
  assert (node_size (Node k ls ch) <= S N)%nat as Hsz by (unfold sizes in Hn; cbn [map list_sum fold_right] in Hn; lia).
  destruct (left_spine HL N q _ Hd Hsz Hq Hk) as (kb & chb & ops & H1 & H2 & H3 & H4 & H5 & H6 & H7 & H8 & H9).
  set (rest1 := concat (map (fun o => tokens o.2) ops) ++ rest).
  assert (Forall no_eof rest1) as He1 by by apply operators_no_eof.
  assert (la rest1 ∈ F') as Hf1 by (eapply operators_la; [done..|by apply HF]).
  destruct (Hopen kb chb rest1 H1 H2 H3 H4 H5 He1 Hf1 (mkFrame k0 [] []) (f :: fs) (q :: qs) eq_refl) as (cs1 & f1 & Hk1 & Hc1' & E1).
  destruct (Hm1 rest1 f1 (f :: fs) (q :: qs)) as (a2 & f2 & Hf2 & E2).
  destruct (Hm2 rest1 f2 (f :: fs) (q :: qs)) as (a3 & f3 & Hf3 & E3).
  destruct (Hm3 rest1 f3 (f :: fs) (q :: qs)) as (a4 & f4 & Hf4 & E4).
  destruct (operators_run N q body n1 n2 d cond F' rest Hd2 Hc1 Hc2 Hext He ltac:(by apply HF) HF' Hn1 Hn2 ops fuel H6 ltac:(lia)
    f4 (f :: fs) qs) as (cs2 & g & Hg & E5).
  assert (erase (node_of g) = erase (Node k ls ch)) as Hnode.
  { rewrite Hg, H9. f_equal. pose proof (with_children_trans _ _ _ _ _ Hf2 (with_children_trans _ _ _ _ _ Hf3 Hf4)) as [Hk4 Hc4].
    unfold node_of. cbn. rewrite app_nil_r in Hc4. by rewrite Hk4, Hc4, Hk1, Hc1'. }
  exists (cs1 ++ (match ops with [] => 2 | _ => 1 end) :: cs2), (node_of g), (add_child (node_of g) f). split.
  { split; [done|]. cbn [add_child f_children map]. rewrite map_app. cbn [map]. by rewrite Hnode. }
  intros cs'. unfold rule_function.
  replace (tokens [Node k ls ch] ++ rest) with (tokens chb ++ rest1)
    by (subst rest1; rewrite app_assoc, <- H7; unfold tokens; cbn [map concat]; by rewrite app_nil_r).
  assert (forall m : PM unit, m (p_EnterRecursionRule k0 s q (st (tokens chb ++ rest1) f fs qs ((cs1 ++ (match ops with [] => 2 | _ => 1 end) :: cs2) ++ cs'))) =
    (Ok tt, st rest g (f :: fs) (q :: qs) cs') ->
    match recovering m (p_EnterRecursionRule k0 s q (st (tokens chb ++ rest1) f fs qs ((cs1 ++ (match ops with [] => 2 | _ => 1 end) :: cs2) ++ cs'))) with
    | (Ok _, p) => (Ok (p_GetParserRuleContext p), p_UnrollRecursionContexts p)
    | (Raise e, p) => (Raise e, p_UnrollRecursionContexts p)
    | (OutOfFuel, p) => (OutOfFuel, p)
    end = (Ok (node_of g), st rest (add_child (node_of g) f) fs qs cs')) as Hfin.
  { intros m Hm. by rewrite (recovering_ok _ _ _ _ Hm). }
  apply Hfin. rewrite <- app_assoc. cbn [app].
  change (p_EnterRecursionRule k0 s q (st (tokens chb ++ rest1) f fs qs ?cs)) with (st (tokens chb ++ rest1) (mkFrame k0 [] []) (f :: fs) (q :: qs) cs).
  rewrite (pbind_ok _ _ _ _ _ (E1 _)), (pbind_ok _ _ _ _ _ (E2 _)), (pbind_ok _ _ _ _ _ (E3 _)), (pbind_ok _ _ _ _ _ (E4 _)).
  erewrite pbind_ok; [exact (E5 cs')|]. apply predict_step. rewrite Hd2. by destruct ops.
Qed.

(** *** The code of a first operand and of an operator *)

Definition opens_as (k : K) (r : re R) (N : nat) (m : PM unit) F : Prop := forall ch rest,
  matches r ch -> Forall derives ch -> (sizes ch <= N)%nat -> Forall no_eof rest -> la rest ∈ F -> forall f fs qs, f_children f = [] ->
  exists cs f', f_kind f' = k /\ map erase (f_children f') = map erase ch /\
    forall cs', m (st (tokens ch ++ rest) f fs qs (cs ++ cs')) = (Ok tt, st rest f' fs qs cs').

Lemma opens_silent {A} k r N (m : PM A) (h : A -> PM unit) F :
  silent m -> (forall a, opens_as k r N (h a) F) -> opens_as k r N (pbind m h) F.
Proof.
  intros Hm Hh ch rest Hr Hd Hn He Hf f fs qs Hch. destruct (Hm (tokens ch ++ rest) f fs qs) as (a & f1 & [Hk1 Hc1] & E1).
  rewrite Hch in Hc1. apply map_eq_nil in Hc1.
  destruct (Hh a ch rest Hr Hd Hn He Hf f1 fs qs Hc1) as (cs & f2 & H1 & H2 & E2). exists cs, f2. split_and!; try done.
  intros cs'. by rewrite (pbind_ok _ _ _ _ _ (E1 _)).
Qed.
Lemma opens_predict k r N d a (h : Z -> PM unit) F : (1 <=? a) && (a <=? alts d) = true ->
  opens_as k r N (h a) F -> opens_as k r N (pbind (p_AdaptivePredict d) h) F.
Proof.
  intros Ha Hh ch rest Hr Hd Hn He Hf f fs qs Hch. destruct (Hh ch rest Hr Hd Hn He Hf f fs qs Hch) as (cs & f2 & H1 & H2 & E2).
  exists (a :: cs), f2. split_and!; try done. intros cs'. cbn [app]. rewrite (pbind_ok _ _ _ a _ (predict_step _ _ _ _ _ _ _ Ha)). apply E2.
Qed.
Lemma opens_alternative k r N (m : PM unit) F : (forall z, accepts z N m r F) ->
  opens_as k r N (pbind (pdo (p_SetParserRuleContext k)) (fun _ => m)) F.
Proof.
  intros Hm ch rest Hr Hd Hn He Hf f fs qs _.
  destruct (Hm _ ch rest Hr Hd Hn He Hf eq_refl (mkFrame k [] []) fs qs) as (cs & [] & f' & [H1 H2] & E). exists cs, f'. by split_and!.
Qed.

Definition extends_as (k : K) (r : re R) (N : nat) (m : PM unit) F : Prop := forall ch rest q, q <= level k ->
  matches r ch -> Forall derives ch -> (sizes ch <= N)%nat -> Forall no_eof rest -> la rest ∈ F -> forall f fs qs,
  exists cs f', f_kind f' = k /\ map erase (f_children f') = erase (node_of f) :: map erase ch /\
    forall cs', m (st (tokens ch ++ rest) f fs (q :: qs) (cs ++ cs')) = (Ok tt, st rest f' fs (q :: qs) cs').

Lemma extends_silent {A} k r N (m : PM A) (h : A -> PM unit) F :
  silent m -> (forall a, extends_as k r N (h a) F) -> extends_as k r N (pbind m h) F.
Proof.
  intros Hm Hh ch rest q Hq Hr Hd Hn He Hf f fs qs. destruct (Hm (tokens ch ++ rest) f fs (q :: qs)) as (a & f1 & [Hk1 Hc1] & E1).
  destruct (Hh a ch rest q Hq Hr Hd Hn He Hf f1 fs qs) as (cs & f2 & H1 & H2 & E2). exists cs, f2. split_and!; [done| |].
  - rewrite H2. unfold node_of. cbn. cbn in Hc1. rewrite app_nil_r in Hc1. by rewrite Hk1, Hc1.
  - intros cs'. by rewrite (pbind_ok _ _ _ _ _ (E1 _)).
Qed.
Lemma extends_predict k r N d a (h : Z -> PM unit) F : (1 <=? a) && (a <=? alts d) = true ->
  extends_as k r N (h a) F -> extends_as k r N (pbind (p_AdaptivePredict d) h) F.
Proof.
  intros Ha Hh ch rest q Hq Hr Hd Hn He Hf f fs qs. destruct (Hh ch rest q Hq Hr Hd Hn He Hf f fs qs) as (cs & f2 & H1 & H2 & E2).
  exists (a :: cs), f2. split_and!; try done. intros cs'. cbn [app]. rewrite (pbind_ok _ _ _ a _ (predict_step _ _ _ _ _ _ _ Ha)). apply E2.
Qed.
Lemma extends_operator k r N s st0 lv e (m : PM unit) F : level k <= lv -> (forall z, accepts z N m r F) ->
  extends_as k r N (pbind (pdo (p_PushNewRecursionContext k s)) (fun _ => pbind (SetState st0) (fun _ =>
    pbind (pget (p_Precpred lv)) (fun _pp => pbind (if negb _pp then praise e else pret tt) (fun _ => m))))) F.
Proof.
  intros Hl Hm ch rest q Hq Hr Hd Hn He Hf f fs qs.
  destruct (Hm _ ch rest Hr Hd Hn He Hf eq_refl (mkFrame k [] [node_of f]) fs (q :: qs)) as (cs & [] & f' & [H1 H2] & E).
  exists cs, f'. split_and!; [done|done|]. intros cs'. unfold pbind at 1 2 3. unfold pdo, SetState, pdo, pget.
  cbn [p_Precpred runtime machine_runtime]. cbn. replace (q <=? lv) with true by (symmetry; apply Z.leb_le; lia). cbn. apply E.
Qed.
End recursion.
End judgement.
