(* ===== verification/Qasm3Grammar.v ===== *)
(** * The grammar of OpenQASM 3 (core/parser/qasm3Parser.g4, qasm3_parser.go)

    Token types and rules with their numbers, the kinds of contexts, and the
    grammar as it is documented in qasm3Parser.g4: [qasm3_rhs] gives the right-hand
    side of each context.  Of the rule [expression], which is left-recursive, each
    labelled alternative is a context with its precedence, counted from the end
    of the list of alternatives; the operand on the right of an operator binds
    tighter than the operator, or as tight for the right-associative one, all
    along its own left operands ([node_level]).  That an operator on the left
    binds no looser is not in the code: prediction prefers to go on with the
    operand on the right. *)

From stdpp Require Import base list strings.
From Stdlib Require Import ZArith Lia.
From S2P Require Import Prelude Antlr AntlrLaws.

(** ** Token types (qasm3_parser.go) *)

Definition qasm3ParserEOF : Z := TokenEOF.
Definition qasm3ParserOPENQASM : Z := 1.
Definition qasm3ParserINCLUDE : Z := 2.
Definition qasm3ParserDEFCALGRAMMAR : Z := 3.
Definition qasm3ParserDEF : Z := 4.
Definition qasm3ParserCAL : Z := 5.
Definition qasm3ParserDEFCAL : Z := 6.
Definition qasm3ParserGATE : Z := 7.
Definition qasm3ParserEXTERN : Z := 8.
Definition qasm3ParserBOX : Z := 9.
Definition qasm3ParserLET : Z := 10.
Definition qasm3ParserBREAK : Z := 11.
Definition qasm3ParserCONTINUE : Z := 12.
Definition qasm3ParserIF : Z := 13.
Definition qasm3ParserELSE : Z := 14.
Definition qasm3ParserEND : Z := 15.
Definition qasm3ParserRETURN : Z := 16.
Definition qasm3ParserFOR : Z := 17.
Definition qasm3ParserWHILE : Z := 18.
Definition qasm3ParserIN : Z := 19.
Definition qasm3ParserPRAGMA : Z := 20.
Definition qasm3ParserAnnotationKeyword : Z := 21.
Definition qasm3ParserINPUT : Z := 22.
Definition qasm3ParserOUTPUT : Z := 23.
Definition qasm3ParserCONST : Z := 24.
Definition qasm3ParserMUTABLE : Z := 25.
Definition qasm3ParserQREG : Z := 26.
Definition qasm3ParserQUBIT : Z := 27.
Definition qasm3ParserCREG : Z := 28.
Definition qasm3ParserBOOL : Z := 29.
Definition qasm3ParserBIT : Z := 30.
Definition qasm3ParserINT : Z := 31.
Definition qasm3ParserUINT : Z := 32.
Definition qasm3ParserFLOAT : Z := 33.
Definition qasm3ParserANGLE : Z := 34.
Definition qasm3ParserCOMPLEX : Z := 35.
Definition qasm3ParserARRAY : Z := 36.
Definition qasm3ParserDURATION : Z := 37.
Definition qasm3ParserSTRETCH : Z := 38.
Definition qasm3ParserGPHASE : Z := 39.
Definition qasm3ParserINV : Z := 40.
Definition qasm3ParserPOW : Z := 41.
Definition qasm3ParserCTRL : Z := 42.
Definition qasm3ParserNEGCTRL : Z := 43.
Definition qasm3ParserDIM : Z := 44.
Definition qasm3ParserDURATIONOF : Z := 45.
Definition qasm3ParserDELAY : Z := 46.
Definition qasm3ParserRESET : Z := 47.
Definition qasm3ParserMEASURE : Z := 48.
Definition qasm3ParserBARRIER : Z := 49.
Definition qasm3ParserBooleanLiteral : Z := 50.
Definition qasm3ParserLBRACKET : Z := 51.
Definition qasm3ParserRBRACKET : Z := 52.
Definition qasm3ParserLBRACE : Z := 53.
Definition qasm3ParserRBRACE : Z := 54.
Definition qasm3ParserLPAREN : Z := 55.
Definition qasm3ParserRPAREN : Z := 56.
Definition qasm3ParserCOLON : Z := 57.
Definition qasm3ParserSEMICOLON : Z := 58.
Definition qasm3ParserDOT : Z := 59.
Definition qasm3ParserCOMMA : Z := 60.
Definition qasm3ParserEQUALS : Z := 61.
Definition qasm3ParserARROW : Z := 62.
Definition qasm3ParserPLUS : Z := 63.
Definition qasm3ParserDOUBLE_PLUS : Z := 64.
Definition qasm3ParserMINUS : Z := 65.
Definition qasm3ParserASTERISK : Z := 66.
Definition qasm3ParserDOUBLE_ASTERISK : Z := 67.
Definition qasm3ParserSLASH : Z := 68.
Definition qasm3ParserPERCENT : Z := 69.
Definition qasm3ParserPIPE : Z := 70.
Definition qasm3ParserDOUBLE_PIPE : Z := 71.
Definition qasm3ParserAMPERSAND : Z := 72.
Definition qasm3ParserDOUBLE_AMPERSAND : Z := 73.
Definition qasm3ParserCARET : Z := 74.
Definition qasm3ParserAT : Z := 75.
Definition qasm3ParserTILDE : Z := 76.
Definition qasm3ParserEXCLAMATION_POINT : Z := 77.
Definition qasm3ParserEqualityOperator : Z := 78.
Definition qasm3ParserCompoundAssignmentOperator : Z := 79.
Definition qasm3ParserComparisonOperator : Z := 80.
Definition qasm3ParserBitshiftOperator : Z := 81.
Definition qasm3ParserIMAG : Z := 82.
Definition qasm3ParserImaginaryLiteral : Z := 83.
Definition qasm3ParserBinaryIntegerLiteral : Z := 84.
Definition qasm3ParserOctalIntegerLiteral : Z := 85.
Definition qasm3ParserDecimalIntegerLiteral : Z := 86.
Definition qasm3ParserHexIntegerLiteral : Z := 87.
Definition qasm3ParserIdentifier : Z := 88.
Definition qasm3ParserHardwareQubit : Z := 89.
Definition qasm3ParserFloatLiteral : Z := 90.
Definition qasm3ParserTimingLiteral : Z := 91.
Definition qasm3ParserBitstringLiteral : Z := 92.
Definition qasm3ParserStringLiteral : Z := 93.
Definition qasm3ParserWhitespace : Z := 94.
Definition qasm3ParserNewline : Z := 95.
Definition qasm3ParserLineComment : Z := 96.
Definition qasm3ParserBlockComment : Z := 97.
Definition qasm3ParserVERSION_IDENTIFER_WHITESPACE : Z := 98.
Definition qasm3ParserVersionSpecifier : Z := 99.
Definition qasm3ParserEAT_INITIAL_SPACE : Z := 100.
Definition qasm3ParserEAT_LINE_END : Z := 101.
Definition qasm3ParserRemainingLineContent : Z := 102.
Definition qasm3ParserCAL_PRELUDE_WHITESPACE : Z := 103.
Definition qasm3ParserCAL_PRELUDE_COMMENT : Z := 104.
Definition qasm3ParserDEFCAL_PRELUDE_WHITESPACE : Z := 105.
Definition qasm3ParserDEFCAL_PRELUDE_COMMENT : Z := 106.
Definition qasm3ParserCalibrationBlock : Z := 107.

(** ** Rules *)

Inductive qasm3Rule :=
| RULE_program | RULE_version | RULE_statement | RULE_annotation | RULE_scope | RULE_pragma |
RULE_statementOrScope | RULE_calibrationGrammarStatement | RULE_includeStatement | RULE_breakStatement |
RULE_continueStatement | RULE_endStatement | RULE_forStatement | RULE_ifStatement | RULE_returnStatement |
RULE_whileStatement | RULE_barrierStatement | RULE_boxStatement | RULE_delayStatement | RULE_gateCallStatement
| RULE_measureArrowAssignmentStatement | RULE_resetStatement | RULE_aliasDeclarationStatement |
RULE_classicalDeclarationStatement | RULE_constDeclarationStatement | RULE_ioDeclarationStatement |
RULE_oldStyleDeclarationStatement | RULE_quantumDeclarationStatement | RULE_defStatement |
RULE_externStatement | RULE_gateStatement | RULE_assignmentStatement | RULE_expressionStatement |
RULE_calStatement | RULE_defcalStatement | RULE_expression | RULE_aliasExpression | RULE_declarationExpression
| RULE_measureExpression | RULE_rangeExpression | RULE_setExpression | RULE_arrayLiteral | RULE_indexOperator
| RULE_indexedIdentifier | RULE_returnSignature | RULE_gateModifier | RULE_scalarType | RULE_qubitType |
RULE_arrayType | RULE_arrayReferenceType | RULE_designator | RULE_defcalTarget | RULE_defcalArgumentDefinition
| RULE_defcalOperand | RULE_gateOperand | RULE_externArgument | RULE_argumentDefinition |
RULE_argumentDefinitionList | RULE_defcalArgumentDefinitionList | RULE_defcalOperandList | RULE_expressionList
| RULE_identifierList | RULE_gateOperandList | RULE_externArgumentList.
Definition qasm3Rule_number (r : qasm3Rule) : Z :=
  match r with
  | RULE_program => 0
  | RULE_version => 1
  | RULE_statement => 2
  | RULE_annotation => 3
  | RULE_scope => 4
  | RULE_pragma => 5
  | RULE_statementOrScope => 6
  | RULE_calibrationGrammarStatement => 7
  | RULE_includeStatement => 8
  | RULE_breakStatement => 9
  | RULE_continueStatement => 10
  | RULE_endStatement => 11
  | RULE_forStatement => 12
  | RULE_ifStatement => 13
  | RULE_returnStatement => 14
  | RULE_whileStatement => 15
  | RULE_barrierStatement => 16
  | RULE_boxStatement => 17
  | RULE_delayStatement => 18
  | RULE_gateCallStatement => 19
  | RULE_measureArrowAssignmentStatement => 20
  | RULE_resetStatement => 21
  | RULE_aliasDeclarationStatement => 22
  | RULE_classicalDeclarationStatement => 23
  | RULE_constDeclarationStatement => 24
  | RULE_ioDeclarationStatement => 25
  | RULE_oldStyleDeclarationStatement => 26
  | RULE_quantumDeclarationStatement => 27
  | RULE_defStatement => 28
  | RULE_externStatement => 29
  | RULE_gateStatement => 30
  | RULE_assignmentStatement => 31
  | RULE_expressionStatement => 32
  | RULE_calStatement => 33
  | RULE_defcalStatement => 34
  | RULE_expression => 35
  | RULE_aliasExpression => 36
  | RULE_declarationExpression => 37
  | RULE_measureExpression => 38
  | RULE_rangeExpression => 39
  | RULE_setExpression => 40
  | RULE_arrayLiteral => 41
  | RULE_indexOperator => 42
  | RULE_indexedIdentifier => 43
  | RULE_returnSignature => 44
  | RULE_gateModifier => 45
  | RULE_scalarType => 46
  | RULE_qubitType => 47
  | RULE_arrayType => 48
  | RULE_arrayReferenceType => 49
  | RULE_designator => 50
  | RULE_defcalTarget => 51
  | RULE_defcalArgumentDefinition => 52
  | RULE_defcalOperand => 53
  | RULE_gateOperand => 54
  | RULE_externArgument => 55
  | RULE_argumentDefinition => 56
  | RULE_argumentDefinitionList => 57
  | RULE_defcalArgumentDefinitionList => 58
  | RULE_defcalOperandList => 59
  | RULE_expressionList => 60
  | RULE_identifierList => 61
  | RULE_gateOperandList => 62
  | RULE_externArgumentList => 63
  end.

(** The table of the rules' names, and a rule's name in it. *)
Definition qasm3_ruleNames : list string :=
  ["program"; "version"; "statement"; "annotation"; "scope"; "pragma"; "statementOrScope";
   "calibrationGrammarStatement"; "includeStatement"; "breakStatement"; "continueStatement"; "endStatement";
   "forStatement"; "ifStatement"; "returnStatement"; "whileStatement"; "barrierStatement"; "boxStatement";
   "delayStatement"; "gateCallStatement"; "measureArrowAssignmentStatement"; "resetStatement";
   "aliasDeclarationStatement"; "classicalDeclarationStatement"; "constDeclarationStatement";
   "ioDeclarationStatement"; "oldStyleDeclarationStatement"; "quantumDeclarationStatement"; "defStatement";
   "externStatement"; "gateStatement"; "assignmentStatement"; "expressionStatement"; "calStatement";
   "defcalStatement"; "expression"; "aliasExpression"; "declarationExpression"; "measureExpression";
   "rangeExpression"; "setExpression"; "arrayLiteral"; "indexOperator"; "indexedIdentifier"; "returnSignature";
   "gateModifier"; "scalarType"; "qubitType"; "arrayType"; "arrayReferenceType"; "designator"; "defcalTarget";
   "defcalArgumentDefinition"; "defcalOperand"; "gateOperand"; "externArgument"; "argumentDefinition";
   "argumentDefinitionList"; "defcalArgumentDefinitionList"; "defcalOperandList"; "expressionList";
   "identifierList"; "gateOperandList"; "externArgumentList"].
Definition qasm3_rule_name (r : qasm3Rule) : string := default "" (qasm3_ruleNames !! Z.to_nat (qasm3Rule_number r)).

(** ** Contexts *)

Inductive qasm3Context :=
| ProgramContext | VersionContext | StatementContext | AnnotationContext | ScopeContext | PragmaContext |
StatementOrScopeContext | CalibrationGrammarStatementContext | IncludeStatementContext | BreakStatementContext
| ContinueStatementContext | EndStatementContext | ForStatementContext | IfStatementContext |
ReturnStatementContext | WhileStatementContext | BarrierStatementContext | BoxStatementContext |
DelayStatementContext | GateCallStatementContext | MeasureArrowAssignmentStatementContext |
ResetStatementContext | AliasDeclarationStatementContext | ClassicalDeclarationStatementContext |
ConstDeclarationStatementContext | IoDeclarationStatementContext | OldStyleDeclarationStatementContext |
QuantumDeclarationStatementContext | DefStatementContext | ExternStatementContext | GateStatementContext |
AssignmentStatementContext | ExpressionStatementContext | CalStatementContext | DefcalStatementContext |
ExpressionContext | BitwiseXorExpressionContext | AdditiveExpressionContext | DurationofExpressionContext |
ParenthesisExpressionContext | ComparisonExpressionContext | MultiplicativeExpressionContext |
LogicalOrExpressionContext | CastExpressionContext | PowerExpressionContext | BitwiseOrExpressionContext |
CallExpressionContext | BitshiftExpressionContext | BitwiseAndExpressionContext | EqualityExpressionContext |
LogicalAndExpressionContext | IndexExpressionContext | UnaryExpressionContext | LiteralExpressionContext |
AliasExpressionContext | DeclarationExpressionContext | MeasureExpressionContext | RangeExpressionContext |
SetExpressionContext | ArrayLiteralContext | IndexOperatorContext | IndexedIdentifierContext |
ReturnSignatureContext | GateModifierContext | ScalarTypeContext | QubitTypeContext | ArrayTypeContext |
ArrayReferenceTypeContext | DesignatorContext | DefcalTargetContext | DefcalArgumentDefinitionContext |
DefcalOperandContext | GateOperandContext | ExternArgumentContext | ArgumentDefinitionContext |
ArgumentDefinitionListContext | DefcalArgumentDefinitionListContext | DefcalOperandListContext |
ExpressionListContext | IdentifierListContext | GateOperandListContext | ExternArgumentListContext.
Definition qasm3_rule_of (k : qasm3Context) : qasm3Rule :=
  match k with
  | ProgramContext => RULE_program
  | VersionContext => RULE_version
  | StatementContext => RULE_statement
  | AnnotationContext => RULE_annotation
  | ScopeContext => RULE_scope
  | PragmaContext => RULE_pragma
  | StatementOrScopeContext => RULE_statementOrScope
  | CalibrationGrammarStatementContext => RULE_calibrationGrammarStatement
  | IncludeStatementContext => RULE_includeStatement
  | BreakStatementContext => RULE_breakStatement
  | ContinueStatementContext => RULE_continueStatement
  | EndStatementContext => RULE_endStatement
  | ForStatementContext => RULE_forStatement
  | IfStatementContext => RULE_ifStatement
  | ReturnStatementContext => RULE_returnStatement
  | WhileStatementContext => RULE_whileStatement
  | BarrierStatementContext => RULE_barrierStatement
  | BoxStatementContext => RULE_boxStatement
  | DelayStatementContext => RULE_delayStatement
  | GateCallStatementContext => RULE_gateCallStatement
  | MeasureArrowAssignmentStatementContext => RULE_measureArrowAssignmentStatement
  | ResetStatementContext => RULE_resetStatement
  | AliasDeclarationStatementContext => RULE_aliasDeclarationStatement
  | ClassicalDeclarationStatementContext => RULE_classicalDeclarationStatement
  | ConstDeclarationStatementContext => RULE_constDeclarationStatement
  | IoDeclarationStatementContext => RULE_ioDeclarationStatement
  | OldStyleDeclarationStatementContext => RULE_oldStyleDeclarationStatement
  | QuantumDeclarationStatementContext => RULE_quantumDeclarationStatement
  | DefStatementContext => RULE_defStatement
  | ExternStatementContext => RULE_externStatement
  | GateStatementContext => RULE_gateStatement
  | AssignmentStatementContext => RULE_assignmentStatement
  | ExpressionStatementContext => RULE_expressionStatement
  | CalStatementContext => RULE_calStatement
  | DefcalStatementContext => RULE_defcalStatement
  | AliasExpressionContext => RULE_aliasExpression
  | DeclarationExpressionContext => RULE_declarationExpression
  | MeasureExpressionContext => RULE_measureExpression
  | RangeExpressionContext => RULE_rangeExpression
  | SetExpressionContext => RULE_setExpression
  | ArrayLiteralContext => RULE_arrayLiteral
  | IndexOperatorContext => RULE_indexOperator
  | IndexedIdentifierContext => RULE_indexedIdentifier
  | ReturnSignatureContext => RULE_returnSignature
  | GateModifierContext => RULE_gateModifier
  | ScalarTypeContext => RULE_scalarType
  | QubitTypeContext => RULE_qubitType
  | ArrayTypeContext => RULE_arrayType
  | ArrayReferenceTypeContext => RULE_arrayReferenceType
  | DesignatorContext => RULE_designator
  | DefcalTargetContext => RULE_defcalTarget
  | DefcalArgumentDefinitionContext => RULE_defcalArgumentDefinition
  | DefcalOperandContext => RULE_defcalOperand
  | GateOperandContext => RULE_gateOperand
  | ExternArgumentContext => RULE_externArgument
  | ArgumentDefinitionContext => RULE_argumentDefinition
  | ArgumentDefinitionListContext => RULE_argumentDefinitionList
  | DefcalArgumentDefinitionListContext => RULE_defcalArgumentDefinitionList
  | DefcalOperandListContext => RULE_defcalOperandList
  | ExpressionListContext => RULE_expressionList
  | IdentifierListContext => RULE_identifierList
  | GateOperandListContext => RULE_gateOperandList
  | ExternArgumentListContext => RULE_externArgumentList
  | ExpressionContext
  | BitwiseXorExpressionContext | AdditiveExpressionContext | DurationofExpressionContext |
  ParenthesisExpressionContext | ComparisonExpressionContext | MultiplicativeExpressionContext |
  LogicalOrExpressionContext | CastExpressionContext | PowerExpressionContext | BitwiseOrExpressionContext |
  CallExpressionContext | BitshiftExpressionContext | BitwiseAndExpressionContext |
  EqualityExpressionContext | LogicalAndExpressionContext | IndexExpressionContext | UnaryExpressionContext
  | LiteralExpressionContext => RULE_expression
  end.

(** ** The grammar (qasm3Parser.g4) *)

(** The precedence of a binary or postfix operator; nothing binds tighter than
    the other expressions. *)
Definition qasm3_level (k : qasm3Context) : Z :=
  match k with
  | IndexExpressionContext => 17
  | PowerExpressionContext => 16
  | MultiplicativeExpressionContext => 14
  | AdditiveExpressionContext => 13
  | BitshiftExpressionContext => 12
  | ComparisonExpressionContext => 11
  | EqualityExpressionContext => 10
  | BitwiseAndExpressionContext => 9
  | BitwiseXorExpressionContext => 8
  | BitwiseOrExpressionContext => 7
  | LogicalAndExpressionContext => 6
  | LogicalOrExpressionContext => 5
  | _ => 18
  end.

Definition qasm3_rhs (k : qasm3Context) : re qasm3Rule :=
  match k with
  | ProgramContext =>
      Seq (Opt (NT RULE_version 0)) (Seq (Star (NT RULE_statement 0)) (Tok [qasm3ParserEOF]))
  | VersionContext =>
      Seq (Tok [qasm3ParserOPENQASM]) (Seq (Tok [qasm3ParserVersionSpecifier]) (Tok [qasm3ParserSEMICOLON]))
  | StatementContext =>
      Alt (NT RULE_pragma 0) (Seq (Star (NT RULE_annotation 0)) (Alt (NT RULE_aliasDeclarationStatement 0)
        (Alt (NT RULE_assignmentStatement 0) (Alt (NT RULE_barrierStatement 0) (Alt (NT
        RULE_boxStatement 0) (Alt (NT RULE_breakStatement 0) (Alt (NT RULE_calStatement 0) (Alt (NT
        RULE_calibrationGrammarStatement 0) (Alt (NT RULE_classicalDeclarationStatement 0) (Alt (NT
        RULE_constDeclarationStatement 0) (Alt (NT RULE_continueStatement 0) (Alt (NT RULE_defStatement
        0) (Alt (NT RULE_defcalStatement 0) (Alt (NT RULE_delayStatement 0) (Alt (NT RULE_endStatement
        0) (Alt (NT RULE_expressionStatement 0) (Alt (NT RULE_externStatement 0) (Alt (NT
        RULE_forStatement 0) (Alt (NT RULE_gateCallStatement 0) (Alt (NT RULE_gateStatement 0) (Alt (NT
        RULE_ifStatement 0) (Alt (NT RULE_includeStatement 0) (Alt (NT RULE_ioDeclarationStatement 0)
        (Alt (NT RULE_measureArrowAssignmentStatement 0) (Alt (NT RULE_oldStyleDeclarationStatement 0)
        (Alt (NT RULE_quantumDeclarationStatement 0) (Alt (NT RULE_resetStatement 0) (Alt (NT
        RULE_returnStatement 0) (NT RULE_whileStatement 0)))))))))))))))))))))))))))))
  | AnnotationContext =>
      Seq (Tok [qasm3ParserAnnotationKeyword]) (Opt (Tok [qasm3ParserRemainingLineContent]))
  | ScopeContext =>
      Seq (Tok [qasm3ParserLBRACE]) (Seq (Star (NT RULE_statement 0)) (Tok [qasm3ParserRBRACE]))
  | PragmaContext =>
      Seq (Tok [qasm3ParserPRAGMA]) (Tok [qasm3ParserRemainingLineContent])
  | StatementOrScopeContext =>
      Alt (NT RULE_statement 0) (NT RULE_scope 0)
  | CalibrationGrammarStatementContext =>
      Seq (Tok [qasm3ParserDEFCALGRAMMAR]) (Seq (Tok [qasm3ParserStringLiteral]) (Tok [qasm3ParserSEMICOLON]))
  | IncludeStatementContext =>
      Seq (Tok [qasm3ParserINCLUDE]) (Seq (Tok [qasm3ParserStringLiteral]) (Tok [qasm3ParserSEMICOLON]))
  | BreakStatementContext =>
      Seq (Tok [qasm3ParserBREAK]) (Tok [qasm3ParserSEMICOLON])
  | ContinueStatementContext =>
      Seq (Tok [qasm3ParserCONTINUE]) (Tok [qasm3ParserSEMICOLON])
  | EndStatementContext =>
      Seq (Tok [qasm3ParserEND]) (Tok [qasm3ParserSEMICOLON])
  | ForStatementContext =>
      Seq (Tok [qasm3ParserFOR]) (Seq (NT RULE_scalarType 0) (Seq (Tok [qasm3ParserIdentifier]) (Seq (Tok
        [qasm3ParserIN]) (Seq (Alt (NT RULE_setExpression 0) (Alt (Seq (Tok [qasm3ParserLBRACKET]) (Seq
        (NT RULE_rangeExpression 0) (Tok [qasm3ParserRBRACKET]))) (Tok [qasm3ParserIdentifier]))) (NT
        RULE_statementOrScope 0)))))
  | IfStatementContext =>
      Seq (Tok [qasm3ParserIF]) (Seq (Tok [qasm3ParserLPAREN]) (Seq (NT RULE_expression 0) (Seq (Tok
        [qasm3ParserRPAREN]) (Seq (NT RULE_statementOrScope 0) (Opt (Seq (Tok [qasm3ParserELSE]) (NT
        RULE_statementOrScope 0)))))))
  | ReturnStatementContext =>
      Seq (Tok [qasm3ParserRETURN]) (Seq (Opt (Alt (NT RULE_expression 0) (NT RULE_measureExpression 0))) (Tok
        [qasm3ParserSEMICOLON]))
  | WhileStatementContext =>
      Seq (Tok [qasm3ParserWHILE]) (Seq (Tok [qasm3ParserLPAREN]) (Seq (NT RULE_expression 0) (Seq (Tok
        [qasm3ParserRPAREN]) (NT RULE_statementOrScope 0))))
  | BarrierStatementContext =>
      Seq (Tok [qasm3ParserBARRIER]) (Seq (Opt (NT RULE_gateOperandList 0)) (Tok [qasm3ParserSEMICOLON]))
  | BoxStatementContext =>
      Seq (Tok [qasm3ParserBOX]) (Seq (Opt (NT RULE_designator 0)) (NT RULE_scope 0))
  | DelayStatementContext =>
      Seq (Tok [qasm3ParserDELAY]) (Seq (NT RULE_designator 0) (Seq (Opt (NT RULE_gateOperandList 0)) (Tok
        [qasm3ParserSEMICOLON])))
  | GateCallStatementContext =>
      Alt (Seq (Star (NT RULE_gateModifier 0)) (Seq (Tok [qasm3ParserIdentifier]) (Seq (Opt (Seq (Tok
        [qasm3ParserLPAREN]) (Seq (Opt (NT RULE_expressionList 0)) (Tok [qasm3ParserRPAREN])))) (Seq
        (Opt (NT RULE_designator 0)) (Seq (NT RULE_gateOperandList 0) (Tok [qasm3ParserSEMICOLON]))))))
        (Seq (Star (NT RULE_gateModifier 0)) (Seq (Tok [qasm3ParserGPHASE]) (Seq (Opt (Seq (Tok
        [qasm3ParserLPAREN]) (Seq (Opt (NT RULE_expressionList 0)) (Tok [qasm3ParserRPAREN])))) (Seq
        (Opt (NT RULE_designator 0)) (Seq (Opt (NT RULE_gateOperandList 0)) (Tok
        [qasm3ParserSEMICOLON]))))))
  | MeasureArrowAssignmentStatementContext =>
      Seq (NT RULE_measureExpression 0) (Seq (Opt (Seq (Tok [qasm3ParserARROW]) (NT RULE_indexedIdentifier
        0))) (Tok [qasm3ParserSEMICOLON]))
  | ResetStatementContext =>
      Seq (Tok [qasm3ParserRESET]) (Seq (NT RULE_gateOperand 0) (Tok [qasm3ParserSEMICOLON]))
  | AliasDeclarationStatementContext =>
      Seq (Tok [qasm3ParserLET]) (Seq (Tok [qasm3ParserIdentifier]) (Seq (Tok [qasm3ParserEQUALS]) (Seq (NT
        RULE_aliasExpression 0) (Tok [qasm3ParserSEMICOLON]))))
  | ClassicalDeclarationStatementContext =>
      Seq (Alt (NT RULE_scalarType 0) (NT RULE_arrayType 0)) (Seq (Tok [qasm3ParserIdentifier]) (Seq (Opt (Seq
        (Tok [qasm3ParserEQUALS]) (NT RULE_declarationExpression 0))) (Tok [qasm3ParserSEMICOLON])))
  | ConstDeclarationStatementContext =>
      Seq (Tok [qasm3ParserCONST]) (Seq (NT RULE_scalarType 0) (Seq (Tok [qasm3ParserIdentifier]) (Seq (Tok
        [qasm3ParserEQUALS]) (Seq (NT RULE_declarationExpression 0) (Tok [qasm3ParserSEMICOLON])))))
  | IoDeclarationStatementContext =>
      Seq (Tok [qasm3ParserINPUT; qasm3ParserOUTPUT]) (Seq (Alt (NT RULE_scalarType 0) (NT RULE_arrayType 0))
        (Seq (Tok [qasm3ParserIdentifier]) (Tok [qasm3ParserSEMICOLON])))
  | OldStyleDeclarationStatementContext =>
      Seq (Tok [qasm3ParserCREG; qasm3ParserQREG]) (Seq (Tok [qasm3ParserIdentifier]) (Seq (Opt (NT
        RULE_designator 0)) (Tok [qasm3ParserSEMICOLON])))
  | QuantumDeclarationStatementContext =>
      Seq (NT RULE_qubitType 0) (Seq (Tok [qasm3ParserIdentifier]) (Tok [qasm3ParserSEMICOLON]))
  | DefStatementContext =>
      Seq (Tok [qasm3ParserDEF]) (Seq (Tok [qasm3ParserIdentifier]) (Seq (Tok [qasm3ParserLPAREN]) (Seq (Opt
        (NT RULE_argumentDefinitionList 0)) (Seq (Tok [qasm3ParserRPAREN]) (Seq (Opt (NT
        RULE_returnSignature 0)) (NT RULE_scope 0))))))
  | ExternStatementContext =>
      Seq (Tok [qasm3ParserEXTERN]) (Seq (Tok [qasm3ParserIdentifier]) (Seq (Tok [qasm3ParserLPAREN]) (Seq
        (Opt (NT RULE_externArgumentList 0)) (Seq (Tok [qasm3ParserRPAREN]) (Seq (Opt (NT
        RULE_returnSignature 0)) (Tok [qasm3ParserSEMICOLON]))))))
  | GateStatementContext =>
      Seq (Tok [qasm3ParserGATE]) (Seq (Tok [qasm3ParserIdentifier]) (Seq (Opt (Seq (Tok [qasm3ParserLPAREN])
        (Seq (Opt (NT RULE_identifierList 0)) (Tok [qasm3ParserRPAREN])))) (Seq (NT RULE_identifierList
        0) (NT RULE_scope 0))))
  | AssignmentStatementContext =>
      Seq (NT RULE_indexedIdentifier 0) (Seq (Tok [qasm3ParserEQUALS; qasm3ParserCompoundAssignmentOperator])
        (Seq (Alt (NT RULE_expression 0) (NT RULE_measureExpression 0)) (Tok [qasm3ParserSEMICOLON])))
  | ExpressionStatementContext =>
      Seq (NT RULE_expression 0) (Tok [qasm3ParserSEMICOLON])
  | CalStatementContext =>
      Seq (Tok [qasm3ParserCAL]) (Seq (Tok [qasm3ParserLBRACE]) (Seq (Opt (Tok [qasm3ParserCalibrationBlock]))
        (Tok [qasm3ParserRBRACE])))
  | DefcalStatementContext =>
      Seq (Tok [qasm3ParserDEFCAL]) (Seq (NT RULE_defcalTarget 0) (Seq (Opt (Seq (Tok [qasm3ParserLPAREN])
        (Seq (Opt (NT RULE_defcalArgumentDefinitionList 0)) (Tok [qasm3ParserRPAREN])))) (Seq (NT
        RULE_defcalOperandList 0) (Seq (Opt (NT RULE_returnSignature 0)) (Seq (Tok [qasm3ParserLBRACE])
        (Seq (Opt (Tok [qasm3ParserCalibrationBlock])) (Tok [qasm3ParserRBRACE])))))))
  | AliasExpressionContext =>
      Seq (NT RULE_expression 0) (Star (Seq (Tok [qasm3ParserDOUBLE_PLUS]) (NT RULE_expression 0)))
  | DeclarationExpressionContext =>
      Alt (NT RULE_arrayLiteral 0) (Alt (NT RULE_expression 0) (NT RULE_measureExpression 0))
  | MeasureExpressionContext =>
      Seq (Tok [qasm3ParserMEASURE]) (NT RULE_gateOperand 0)
  | RangeExpressionContext =>
      Seq (Opt (NT RULE_expression 0)) (Seq (Tok [qasm3ParserCOLON]) (Seq (Opt (NT RULE_expression 0)) (Opt
        (Seq (Tok [qasm3ParserCOLON]) (NT RULE_expression 0)))))
  | SetExpressionContext =>
      Seq (Tok [qasm3ParserLBRACE]) (Seq (NT RULE_expression 0) (Seq (Star (Seq (Tok [qasm3ParserCOMMA]) (NT
        RULE_expression 0))) (Seq (Opt (Tok [qasm3ParserCOMMA])) (Tok [qasm3ParserRBRACE]))))
  | ArrayLiteralContext =>
      Seq (Tok [qasm3ParserLBRACE]) (Seq (Alt (NT RULE_expression 0) (NT RULE_arrayLiteral 0)) (Seq (Star (Seq
        (Tok [qasm3ParserCOMMA]) (Alt (NT RULE_expression 0) (NT RULE_arrayLiteral 0)))) (Seq (Opt (Tok
        [qasm3ParserCOMMA])) (Tok [qasm3ParserRBRACE]))))
  | IndexOperatorContext =>
      Seq (Tok [qasm3ParserLBRACKET]) (Seq (Alt (NT RULE_setExpression 0) (Seq (Alt (NT RULE_expression 0) (NT
        RULE_rangeExpression 0)) (Seq (Star (Seq (Tok [qasm3ParserCOMMA]) (Alt (NT RULE_expression 0)
        (NT RULE_rangeExpression 0)))) (Opt (Tok [qasm3ParserCOMMA]))))) (Tok [qasm3ParserRBRACKET]))
  | IndexedIdentifierContext =>
      Seq (Tok [qasm3ParserIdentifier]) (Star (NT RULE_indexOperator 0))
  | ReturnSignatureContext =>
      Seq (Tok [qasm3ParserARROW]) (NT RULE_scalarType 0)
  | GateModifierContext =>
      Seq (Alt (Tok [qasm3ParserINV]) (Alt (Seq (Tok [qasm3ParserPOW]) (Seq (Tok [qasm3ParserLPAREN]) (Seq (NT
        RULE_expression 0) (Tok [qasm3ParserRPAREN])))) (Seq (Tok [qasm3ParserCTRL; qasm3ParserNEGCTRL])
        (Opt (Seq (Tok [qasm3ParserLPAREN]) (Seq (NT RULE_expression 0) (Tok [qasm3ParserRPAREN])))))))
        (Tok [qasm3ParserAT])
  | ScalarTypeContext =>
      Alt (Seq (Tok [qasm3ParserBIT]) (Opt (NT RULE_designator 0))) (Alt (Seq (Tok [qasm3ParserINT]) (Opt (NT
        RULE_designator 0))) (Alt (Seq (Tok [qasm3ParserUINT]) (Opt (NT RULE_designator 0))) (Alt (Seq
        (Tok [qasm3ParserFLOAT]) (Opt (NT RULE_designator 0))) (Alt (Seq (Tok [qasm3ParserANGLE]) (Opt
        (NT RULE_designator 0))) (Alt (Tok [qasm3ParserBOOL]) (Alt (Tok [qasm3ParserDURATION]) (Alt (Tok
        [qasm3ParserSTRETCH]) (Seq (Tok [qasm3ParserCOMPLEX]) (Opt (Seq (Tok [qasm3ParserLBRACKET]) (Seq
        (NT RULE_scalarType 0) (Tok [qasm3ParserRBRACKET]))))))))))))
  | QubitTypeContext =>
      Seq (Tok [qasm3ParserQUBIT]) (Opt (NT RULE_designator 0))
  | ArrayTypeContext =>
      Seq (Tok [qasm3ParserARRAY]) (Seq (Tok [qasm3ParserLBRACKET]) (Seq (NT RULE_scalarType 0) (Seq (Tok
        [qasm3ParserCOMMA]) (Seq (NT RULE_expressionList 0) (Tok [qasm3ParserRBRACKET])))))
  | ArrayReferenceTypeContext =>
      Seq (Tok [qasm3ParserCONST; qasm3ParserMUTABLE]) (Seq (Tok [qasm3ParserARRAY]) (Seq (Tok
        [qasm3ParserLBRACKET]) (Seq (NT RULE_scalarType 0) (Seq (Tok [qasm3ParserCOMMA]) (Seq (Alt (NT
        RULE_expressionList 0) (Seq (Tok [qasm3ParserDIM]) (Seq (Tok [qasm3ParserEQUALS]) (NT
        RULE_expression 0)))) (Tok [qasm3ParserRBRACKET]))))))
  | DesignatorContext =>
      Seq (Tok [qasm3ParserLBRACKET]) (Seq (NT RULE_expression 0) (Tok [qasm3ParserRBRACKET]))
  | DefcalTargetContext =>
      Tok [qasm3ParserMEASURE; qasm3ParserRESET; qasm3ParserDELAY; qasm3ParserIdentifier]
  | DefcalArgumentDefinitionContext =>
      Alt (NT RULE_expression 0) (NT RULE_argumentDefinition 0)
  | DefcalOperandContext =>
      Tok [qasm3ParserHardwareQubit; qasm3ParserIdentifier]
  | GateOperandContext =>
      Alt (NT RULE_indexedIdentifier 0) (Tok [qasm3ParserHardwareQubit])
  | ExternArgumentContext =>
      Alt (NT RULE_scalarType 0) (Alt (NT RULE_arrayReferenceType 0) (Seq (Tok [qasm3ParserCREG]) (Opt (NT
        RULE_designator 0))))
  | ArgumentDefinitionContext =>
      Alt (Seq (NT RULE_scalarType 0) (Tok [qasm3ParserIdentifier])) (Alt (Seq (NT RULE_qubitType 0) (Tok
        [qasm3ParserIdentifier])) (Alt (Seq (Tok [qasm3ParserCREG; qasm3ParserQREG]) (Seq (Tok
        [qasm3ParserIdentifier]) (Opt (NT RULE_designator 0)))) (Seq (NT RULE_arrayReferenceType 0) (Tok
        [qasm3ParserIdentifier]))))
  | ArgumentDefinitionListContext =>
      Seq (NT RULE_argumentDefinition 0) (Seq (Star (Seq (Tok [qasm3ParserCOMMA]) (NT RULE_argumentDefinition
        0))) (Opt (Tok [qasm3ParserCOMMA])))
  | DefcalArgumentDefinitionListContext =>
      Seq (NT RULE_defcalArgumentDefinition 0) (Seq (Star (Seq (Tok [qasm3ParserCOMMA]) (NT
        RULE_defcalArgumentDefinition 0))) (Opt (Tok [qasm3ParserCOMMA])))
  | DefcalOperandListContext =>
      Seq (NT RULE_defcalOperand 0) (Seq (Star (Seq (Tok [qasm3ParserCOMMA]) (NT RULE_defcalOperand 0))) (Opt
        (Tok [qasm3ParserCOMMA])))
  | ExpressionListContext =>
      Seq (NT RULE_expression 0) (Seq (Star (Seq (Tok [qasm3ParserCOMMA]) (NT RULE_expression 0))) (Opt (Tok
        [qasm3ParserCOMMA])))
  | IdentifierListContext =>
      Seq (Tok [qasm3ParserIdentifier]) (Seq (Star (Seq (Tok [qasm3ParserCOMMA]) (Tok
        [qasm3ParserIdentifier]))) (Opt (Tok [qasm3ParserCOMMA])))
  | GateOperandListContext =>
      Seq (NT RULE_gateOperand 0) (Seq (Star (Seq (Tok [qasm3ParserCOMMA]) (NT RULE_gateOperand 0))) (Opt (Tok
        [qasm3ParserCOMMA])))
  | ExternArgumentListContext =>
      Seq (NT RULE_externArgument 0) (Seq (Star (Seq (Tok [qasm3ParserCOMMA]) (NT RULE_externArgument 0)))
        (Opt (Tok [qasm3ParserCOMMA])))
  | BitwiseXorExpressionContext =>
      Seq (NT RULE_expression 0) (Seq (Tok [qasm3ParserCARET]) (NT RULE_expression 9))
  | AdditiveExpressionContext =>
      Seq (NT RULE_expression 0) (Seq (Tok [qasm3ParserPLUS; qasm3ParserMINUS]) (NT RULE_expression 14))
  | DurationofExpressionContext =>
      Seq (Tok [qasm3ParserDURATIONOF]) (Seq (Tok [qasm3ParserLPAREN]) (Seq (NT RULE_scope 0) (Tok
        [qasm3ParserRPAREN])))
  | ParenthesisExpressionContext =>
      Seq (Tok [qasm3ParserLPAREN]) (Seq (NT RULE_expression 0) (Tok [qasm3ParserRPAREN]))
  | ComparisonExpressionContext =>
      Seq (NT RULE_expression 0) (Seq (Tok [qasm3ParserComparisonOperator]) (NT RULE_expression 12))
  | MultiplicativeExpressionContext =>
      Seq (NT RULE_expression 0) (Seq (Tok [qasm3ParserASTERISK; qasm3ParserSLASH; qasm3ParserPERCENT]) (NT
        RULE_expression 15))
  | LogicalOrExpressionContext =>
      Seq (NT RULE_expression 0) (Seq (Tok [qasm3ParserDOUBLE_PIPE]) (NT RULE_expression 6))
  | CastExpressionContext =>
      Seq (Alt (NT RULE_scalarType 0) (NT RULE_arrayType 0)) (Seq (Tok [qasm3ParserLPAREN]) (Seq (NT
        RULE_expression 0) (Tok [qasm3ParserRPAREN])))
  | PowerExpressionContext =>
      Seq (NT RULE_expression 0) (Seq (Tok [qasm3ParserDOUBLE_ASTERISK]) (NT RULE_expression 16))
  | BitwiseOrExpressionContext =>
      Seq (NT RULE_expression 0) (Seq (Tok [qasm3ParserPIPE]) (NT RULE_expression 8))
  | CallExpressionContext =>
      Seq (Tok [qasm3ParserIdentifier]) (Seq (Tok [qasm3ParserLPAREN]) (Seq (Opt (NT RULE_expressionList 0))
        (Tok [qasm3ParserRPAREN])))
  | BitshiftExpressionContext =>
      Seq (NT RULE_expression 0) (Seq (Tok [qasm3ParserBitshiftOperator]) (NT RULE_expression 13))
  | BitwiseAndExpressionContext =>
      Seq (NT RULE_expression 0) (Seq (Tok [qasm3ParserAMPERSAND]) (NT RULE_expression 10))
  | EqualityExpressionContext =>
      Seq (NT RULE_expression 0) (Seq (Tok [qasm3ParserEqualityOperator]) (NT RULE_expression 11))
  | LogicalAndExpressionContext =>
      Seq (NT RULE_expression 0) (Seq (Tok [qasm3ParserDOUBLE_AMPERSAND]) (NT RULE_expression 7))
  | IndexExpressionContext =>
      Seq (NT RULE_expression 0) (NT RULE_indexOperator 0)
  | UnaryExpressionContext =>
      Seq (Tok [qasm3ParserTILDE; qasm3ParserEXCLAMATION_POINT; qasm3ParserMINUS]) (NT RULE_expression 15)
  | LiteralExpressionContext =>
      Tok [qasm3ParserIdentifier; qasm3ParserBinaryIntegerLiteral; qasm3ParserOctalIntegerLiteral;
        qasm3ParserDecimalIntegerLiteral; qasm3ParserHexIntegerLiteral; qasm3ParserFloatLiteral;
        qasm3ParserImaginaryLiteral; qasm3ParserBooleanLiteral; qasm3ParserBitstringLiteral;
        qasm3ParserTimingLiteral; qasm3ParserHardwareQubit]
  (* its alternative is always known in the end *)
  | ExpressionContext => Tok []
  end.

#[export] Instance qasm3_grammar : Grammar qasm3Context qasm3Rule := {|
  rule_of := qasm3_rule_of;
  level := qasm3_level;
  left_operand k := bool_decide (qasm3_level k < 18);
  rhs := qasm3_rhs;
  rule_nullable r := match r with RULE_program => true | _ => false end
|}.

(** Alternatives of the decisions left to prediction. *)
Definition decision_alts (d : Z) : Z :=
  match d with
  | 3 => 28
  | 43 => 6
  | 44 => 12
  | _ => 2
  end.
