(* ===== verification/Qasm3Parser.v ===== *)
(** * The generated parser (core/parser/qasm3_parser.go)

    One definition for each rule function, statement by statement: its body, and
    the function with the context it enters and leaves.  [call] stands for the
    recursive calls, [fuel] bounds the loops; [run_rule] ties the knot.  The
    parser object is that of the runtime ([ParserRuntime]). *)

From stdpp Require Import base list strings.
From Stdlib Require Import ZArith Lia.
From S2P Require Import Prelude Antlr AntlrLaws Qasm3Grammar.

Section qasm3Parser.
Context {P : Type} {PR : ParserRuntime qasm3Context P}.
Context (call : qasm3Rule -> Z -> PM P (node qasm3Context)) (fuel : nat).
Local Open Scope antlr_scope.

Definition qasm3Parser_Program_body : PM P unit :=
  EnterOuterAlt 1 ;;; SetState 129 ;;; p_Sync ;;;
  let% _la := LA1 in
  (if (_la =? qasm3ParserOPENQASM) then
    SetState 128 ;;; call RULE_version 0 ;;; pret tt
   else
    pret tt) ;;;
  SetState 134 ;;; p_Sync ;;;
  let% _la := LA1 in
  for_loop fuel (fun _la => bit_test 0 [qasm3ParserINCLUDE; qasm3ParserDEFCALGRAMMAR; qasm3ParserDEF;
      qasm3ParserCAL; qasm3ParserDEFCAL; qasm3ParserGATE; qasm3ParserEXTERN; qasm3ParserBOX; qasm3ParserLET;
      qasm3ParserBREAK; qasm3ParserCONTINUE; qasm3ParserIF; qasm3ParserEND; qasm3ParserRETURN; qasm3ParserFOR;
      qasm3ParserWHILE; qasm3ParserPRAGMA; qasm3ParserAnnotationKeyword; qasm3ParserINPUT; qasm3ParserOUTPUT;
      qasm3ParserCONST; qasm3ParserQREG; qasm3ParserQUBIT; qasm3ParserCREG; qasm3ParserBOOL; qasm3ParserBIT;
      qasm3ParserINT] _la || bit_test 32 [qasm3ParserUINT; qasm3ParserFLOAT; qasm3ParserANGLE; qasm3ParserCOMPLEX;
      qasm3ParserARRAY; qasm3ParserDURATION; qasm3ParserSTRETCH; qasm3ParserGPHASE; qasm3ParserINV;
      qasm3ParserPOW; qasm3ParserCTRL; qasm3ParserNEGCTRL; qasm3ParserDURATIONOF; qasm3ParserDELAY;
      qasm3ParserRESET; qasm3ParserMEASURE; qasm3ParserBARRIER; qasm3ParserBooleanLiteral;
      qasm3ParserLPAREN] _la || bit_test 65 [qasm3ParserMINUS; qasm3ParserTILDE; qasm3ParserEXCLAMATION_POINT;
      qasm3ParserImaginaryLiteral; qasm3ParserBinaryIntegerLiteral; qasm3ParserOctalIntegerLiteral;
      qasm3ParserDecimalIntegerLiteral; qasm3ParserHexIntegerLiteral; qasm3ParserIdentifier;
      qasm3ParserHardwareQubit; qasm3ParserFloatLiteral; qasm3ParserTimingLiteral;
      qasm3ParserBitstringLiteral] _la) (fun _ =>
      SetState 131 ;;; call RULE_statement 0 ;;; pret tt)
    (SetState 136 ;;; p_Sync ;;; LA1) _la ;;;
  SetState 137 ;;; Match qasm3ParserEOF ;;; pret tt.
Definition qasm3Parser_Program : PM P (node qasm3Context) :=
  rule_function (p_EnterRule ProgramContext 0) p_ExitRule qasm3Parser_Program_body.

Definition qasm3Parser_Version_body : PM P unit :=
  EnterOuterAlt 1 ;;; SetState 139 ;;; Match qasm3ParserOPENQASM ;;; SetState 140 ;;;
  Match qasm3ParserVersionSpecifier ;;; SetState 141 ;;; Match qasm3ParserSEMICOLON ;;; pret tt.
Definition qasm3Parser_Version : PM P (node qasm3Context) :=
  rule_function (p_EnterRule VersionContext 2) p_ExitRule qasm3Parser_Version_body.

Definition qasm3Parser_Statement_body : PM P unit :=
  SetState 180 ;;; p_Sync ;;;
  (let% _la := LA1 in
    if (_la =? qasm3ParserPRAGMA) then
      EnterOuterAlt 1 ;;; SetState 143 ;;; call RULE_pragma 0 ;;; pret tt
    else
    if (_la =? qasm3ParserINCLUDE) || (_la =? qasm3ParserDEFCALGRAMMAR) || (_la =? qasm3ParserDEF) ||
        (_la =? qasm3ParserCAL) || (_la =? qasm3ParserDEFCAL) || (_la =? qasm3ParserGATE) ||
        (_la =? qasm3ParserEXTERN) || (_la =? qasm3ParserBOX) || (_la =? qasm3ParserLET) ||
        (_la =? qasm3ParserBREAK) || (_la =? qasm3ParserCONTINUE) || (_la =? qasm3ParserIF) ||
        (_la =? qasm3ParserEND) || (_la =? qasm3ParserRETURN) || (_la =? qasm3ParserFOR) ||
        (_la =? qasm3ParserWHILE) || (_la =? qasm3ParserAnnotationKeyword) || (_la =? qasm3ParserINPUT) ||
        (_la =? qasm3ParserOUTPUT) || (_la =? qasm3ParserCONST) || (_la =? qasm3ParserQREG) ||
        (_la =? qasm3ParserQUBIT) || (_la =? qasm3ParserCREG) || (_la =? qasm3ParserBOOL) ||
        (_la =? qasm3ParserBIT) || (_la =? qasm3ParserINT) || (_la =? qasm3ParserUINT) ||
        (_la =? qasm3ParserFLOAT) || (_la =? qasm3ParserANGLE) || (_la =? qasm3ParserCOMPLEX) ||
        (_la =? qasm3ParserARRAY) || (_la =? qasm3ParserDURATION) || (_la =? qasm3ParserSTRETCH) ||
        (_la =? qasm3ParserGPHASE) || (_la =? qasm3ParserINV) || (_la =? qasm3ParserPOW) ||
        (_la =? qasm3ParserCTRL) || (_la =? qasm3ParserNEGCTRL) || (_la =? qasm3ParserDURATIONOF) ||
        (_la =? qasm3ParserDELAY) || (_la =? qasm3ParserRESET) || (_la =? qasm3ParserMEASURE) ||
        (_la =? qasm3ParserBARRIER) || (_la =? qasm3ParserBooleanLiteral) || (_la =? qasm3ParserLPAREN) ||
        (_la =? qasm3ParserMINUS) || (_la =? qasm3ParserTILDE) || (_la =? qasm3ParserEXCLAMATION_POINT) ||
        (_la =? qasm3ParserImaginaryLiteral) || (_la =? qasm3ParserBinaryIntegerLiteral) ||
        (_la =? qasm3ParserOctalIntegerLiteral) || (_la =? qasm3ParserDecimalIntegerLiteral) ||
        (_la =? qasm3ParserHexIntegerLiteral) || (_la =? qasm3ParserIdentifier) ||
        (_la =? qasm3ParserHardwareQubit) || (_la =? qasm3ParserFloatLiteral) ||
        (_la =? qasm3ParserTimingLiteral) || (_la =? qasm3ParserBitstringLiteral) then
      EnterOuterAlt 2 ;;; SetState 147 ;;; p_Sync ;;;
      let% _la := LA1 in
      for_loop fuel (fun _la => (_la =? qasm3ParserAnnotationKeyword)) (fun _ =>
          SetState 144 ;;; call RULE_annotation 0 ;;; pret tt)
        (SetState 149 ;;; p_Sync ;;; LA1) _la ;;;
      SetState 178 ;;; p_Sync ;;;
      (let% _alt := p_AdaptivePredict 3 in
        if _alt =? 1 then
          SetState 150 ;;; call RULE_aliasDeclarationStatement 0 ;;; pret tt
        else
        if _alt =? 2 then
          SetState 151 ;;; call RULE_assignmentStatement 0 ;;; pret tt
        else
        if _alt =? 3 then
          SetState 152 ;;; call RULE_barrierStatement 0 ;;; pret tt
        else
        if _alt =? 4 then
          SetState 153 ;;; call RULE_boxStatement 0 ;;; pret tt
        else
        if _alt =? 5 then
          SetState 154 ;;; call RULE_breakStatement 0 ;;; pret tt
        else
        if _alt =? 6 then
          SetState 155 ;;; call RULE_calStatement 0 ;;; pret tt
        else
        if _alt =? 7 then
          SetState 156 ;;; call RULE_calibrationGrammarStatement 0 ;;; pret tt
        else
        if _alt =? 8 then
          SetState 157 ;;; call RULE_classicalDeclarationStatement 0 ;;; pret tt
        else
        if _alt =? 9 then
          SetState 158 ;;; call RULE_constDeclarationStatement 0 ;;; pret tt
        else
        if _alt =? 10 then
          SetState 159 ;;; call RULE_continueStatement 0 ;;; pret tt
        else
        if _alt =? 11 then
          SetState 160 ;;; call RULE_defStatement 0 ;;; pret tt
        else
        if _alt =? 12 then
          SetState 161 ;;; call RULE_defcalStatement 0 ;;; pret tt
        else
        if _alt =? 13 then
          SetState 162 ;;; call RULE_delayStatement 0 ;;; pret tt
        else
        if _alt =? 14 then
          SetState 163 ;;; call RULE_endStatement 0 ;;; pret tt
        else
        if _alt =? 15 then
          SetState 164 ;;; call RULE_expressionStatement 0 ;;; pret tt
        else
        if _alt =? 16 then
          SetState 165 ;;; call RULE_externStatement 0 ;;; pret tt
        else
        if _alt =? 17 then
          SetState 166 ;;; call RULE_forStatement 0 ;;; pret tt
        else
        if _alt =? 18 then
          SetState 167 ;;; call RULE_gateCallStatement 0 ;;; pret tt
        else
        if _alt =? 19 then
          SetState 168 ;;; call RULE_gateStatement 0 ;;; pret tt
        else
        if _alt =? 20 then
          SetState 169 ;;; call RULE_ifStatement 0 ;;; pret tt
        else
        if _alt =? 21 then
          SetState 170 ;;; call RULE_includeStatement 0 ;;; pret tt
        else
        if _alt =? 22 then
          SetState 171 ;;; call RULE_ioDeclarationStatement 0 ;;; pret tt
        else
        if _alt =? 23 then
          SetState 172 ;;; call RULE_measureArrowAssignmentStatement 0 ;;; pret tt
        else
        if _alt =? 24 then
          SetState 173 ;;; call RULE_oldStyleDeclarationStatement 0 ;;; pret tt
        else
        if _alt =? 25 then
          SetState 174 ;;; call RULE_quantumDeclarationStatement 0 ;;; pret tt
        else
        if _alt =? 26 then
          SetState 175 ;;; call RULE_resetStatement 0 ;;; pret tt
        else
        if _alt =? 27 then
          SetState 176 ;;; call RULE_returnStatement 0 ;;; pret tt
        else
        if _alt =? 28 then
          SetState 177 ;;; call RULE_whileStatement 0 ;;; pret tt
        else
        pret tt)
    else
    praise NoViableAltException).
Definition qasm3Parser_Statement : PM P (node qasm3Context) :=
  rule_function (p_EnterRule StatementContext 4) p_ExitRule qasm3Parser_Statement_body.

Definition qasm3Parser_Annotation_body : PM P unit :=
  EnterOuterAlt 1 ;;; SetState 182 ;;; Match qasm3ParserAnnotationKeyword ;;; SetState 184 ;;; p_Sync ;;;
  let% _la := LA1 in
  (if (_la =? qasm3ParserRemainingLineContent) then
    SetState 183 ;;; Match qasm3ParserRemainingLineContent ;;; pret tt
   else
    pret tt).
Definition qasm3Parser_Annotation : PM P (node qasm3Context) :=
  rule_function (p_EnterRule AnnotationContext 6) p_ExitRule qasm3Parser_Annotation_body.

Definition qasm3Parser_Scope_body : PM P unit :=
  EnterOuterAlt 1 ;;; SetState 186 ;;; Match qasm3ParserLBRACE ;;; SetState 190 ;;; p_Sync ;;;
  let% _la := LA1 in
  for_loop fuel (fun _la => bit_test 0 [qasm3ParserINCLUDE; qasm3ParserDEFCALGRAMMAR; qasm3ParserDEF;
      qasm3ParserCAL; qasm3ParserDEFCAL; qasm3ParserGATE; qasm3ParserEXTERN; qasm3ParserBOX; qasm3ParserLET;
      qasm3ParserBREAK; qasm3ParserCONTINUE; qasm3ParserIF; qasm3ParserEND; qasm3ParserRETURN; qasm3ParserFOR;
      qasm3ParserWHILE; qasm3ParserPRAGMA; qasm3ParserAnnotationKeyword; qasm3ParserINPUT; qasm3ParserOUTPUT;
      qasm3ParserCONST; qasm3ParserQREG; qasm3ParserQUBIT; qasm3ParserCREG; qasm3ParserBOOL; qasm3ParserBIT;
      qasm3ParserINT] _la || bit_test 32 [qasm3ParserUINT; qasm3ParserFLOAT; qasm3ParserANGLE; qasm3ParserCOMPLEX;
      qasm3ParserARRAY; qasm3ParserDURATION; qasm3ParserSTRETCH; qasm3ParserGPHASE; qasm3ParserINV;
      qasm3ParserPOW; qasm3ParserCTRL; qasm3ParserNEGCTRL; qasm3ParserDURATIONOF; qasm3ParserDELAY;
      qasm3ParserRESET; qasm3ParserMEASURE; qasm3ParserBARRIER; qasm3ParserBooleanLiteral;
      qasm3ParserLPAREN] _la || bit_test 65 [qasm3ParserMINUS; qasm3ParserTILDE; qasm3ParserEXCLAMATION_POINT;
      qasm3ParserImaginaryLiteral; qasm3ParserBinaryIntegerLiteral; qasm3ParserOctalIntegerLiteral;
      qasm3ParserDecimalIntegerLiteral; qasm3ParserHexIntegerLiteral; qasm3ParserIdentifier;
      qasm3ParserHardwareQubit; qasm3ParserFloatLiteral; qasm3ParserTimingLiteral;
      qasm3ParserBitstringLiteral] _la) (fun _ =>
      SetState 187 ;;; call RULE_statement 0 ;;; pret tt)
    (SetState 192 ;;; p_Sync ;;; LA1) _la ;;;
  SetState 193 ;;; Match qasm3ParserRBRACE ;;; pret tt.
Definition qasm3Parser_Scope : PM P (node qasm3Context) :=
  rule_function (p_EnterRule ScopeContext 8) p_ExitRule qasm3Parser_Scope_body.

Definition qasm3Parser_Pragma_body : PM P unit :=
  EnterOuterAlt 1 ;;; SetState 195 ;;; Match qasm3ParserPRAGMA ;;; SetState 196 ;;;
  Match qasm3ParserRemainingLineContent ;;; pret tt.
Definition qasm3Parser_Pragma : PM P (node qasm3Context) :=
  rule_function (p_EnterRule PragmaContext 10) p_ExitRule qasm3Parser_Pragma_body.

Definition qasm3Parser_StatementOrScope_body : PM P unit :=
  SetState 200 ;;; p_Sync ;;;
  (let% _la := LA1 in
    if (_la =? qasm3ParserINCLUDE) || (_la =? qasm3ParserDEFCALGRAMMAR) || (_la =? qasm3ParserDEF) ||
        (_la =? qasm3ParserCAL) || (_la =? qasm3ParserDEFCAL) || (_la =? qasm3ParserGATE) ||
        (_la =? qasm3ParserEXTERN) || (_la =? qasm3ParserBOX) || (_la =? qasm3ParserLET) ||
        (_la =? qasm3ParserBREAK) || (_la =? qasm3ParserCONTINUE) || (_la =? qasm3ParserIF) ||
        (_la =? qasm3ParserEND) || (_la =? qasm3ParserRETURN) || (_la =? qasm3ParserFOR) ||
        (_la =? qasm3ParserWHILE) || (_la =? qasm3ParserPRAGMA) || (_la =? qasm3ParserAnnotationKeyword) ||
        (_la =? qasm3ParserINPUT) || (_la =? qasm3ParserOUTPUT) || (_la =? qasm3ParserCONST) ||
        (_la =? qasm3ParserQREG) || (_la =? qasm3ParserQUBIT) || (_la =? qasm3ParserCREG) ||
        (_la =? qasm3ParserBOOL) || (_la =? qasm3ParserBIT) || (_la =? qasm3ParserINT) ||
        (_la =? qasm3ParserUINT) || (_la =? qasm3ParserFLOAT) || (_la =? qasm3ParserANGLE) ||
        (_la =? qasm3ParserCOMPLEX) || (_la =? qasm3ParserARRAY) || (_la =? qasm3ParserDURATION) ||
        (_la =? qasm3ParserSTRETCH) || (_la =? qasm3ParserGPHASE) || (_la =? qasm3ParserINV) ||
        (_la =? qasm3ParserPOW) || (_la =? qasm3ParserCTRL) || (_la =? qasm3ParserNEGCTRL) ||
        (_la =? qasm3ParserDURATIONOF) || (_la =? qasm3ParserDELAY) || (_la =? qasm3ParserRESET) ||
        (_la =? qasm3ParserMEASURE) || (_la =? qasm3ParserBARRIER) || (_la =? qasm3ParserBooleanLiteral) ||
        (_la =? qasm3ParserLPAREN) || (_la =? qasm3ParserMINUS) || (_la =? qasm3ParserTILDE) ||
        (_la =? qasm3ParserEXCLAMATION_POINT) || (_la =? qasm3ParserImaginaryLiteral) ||
        (_la =? qasm3ParserBinaryIntegerLiteral) || (_la =? qasm3ParserOctalIntegerLiteral) ||
        (_la =? qasm3ParserDecimalIntegerLiteral) || (_la =? qasm3ParserHexIntegerLiteral) ||
        (_la =? qasm3ParserIdentifier) || (_la =? qasm3ParserHardwareQubit) ||
        (_la =? qasm3ParserFloatLiteral) || (_la =? qasm3ParserTimingLiteral) ||
        (_la =? qasm3ParserBitstringLiteral) then
      EnterOuterAlt 1 ;;; SetState 198 ;;; call RULE_statement 0 ;;; pret tt
    else
    if (_la =? qasm3ParserLBRACE) then
      EnterOuterAlt 2 ;;; SetState 199 ;;; call RULE_scope 0 ;;; pret tt
    else
    praise NoViableAltException).
Definition qasm3Parser_StatementOrScope : PM P (node qasm3Context) :=
  rule_function (p_EnterRule StatementOrScopeContext 12) p_ExitRule qasm3Parser_StatementOrScope_body.

Definition qasm3Parser_CalibrationGrammarStatement_body : PM P unit :=
  EnterOuterAlt 1 ;;; SetState 202 ;;; Match qasm3ParserDEFCALGRAMMAR ;;; SetState 203 ;;;
  Match qasm3ParserStringLiteral ;;; SetState 204 ;;; Match qasm3ParserSEMICOLON ;;; pret tt.
Definition qasm3Parser_CalibrationGrammarStatement : PM P (node qasm3Context) :=
  rule_function (p_EnterRule CalibrationGrammarStatementContext 14) p_ExitRule qasm3Parser_CalibrationGrammarStatement_body.

Definition qasm3Parser_IncludeStatement_body : PM P unit :=
  EnterOuterAlt 1 ;;; SetState 206 ;;; Match qasm3ParserINCLUDE ;;; SetState 207 ;;;
  Match qasm3ParserStringLiteral ;;; SetState 208 ;;; Match qasm3ParserSEMICOLON ;;; pret tt.
Definition qasm3Parser_IncludeStatement : PM P (node qasm3Context) :=
  rule_function (p_EnterRule IncludeStatementContext 16) p_ExitRule qasm3Parser_IncludeStatement_body.

Definition qasm3Parser_BreakStatement_body : PM P unit :=
  EnterOuterAlt 1 ;;; SetState 210 ;;; Match qasm3ParserBREAK ;;; SetState 211 ;;;
  Match qasm3ParserSEMICOLON ;;; pret tt.
Definition qasm3Parser_BreakStatement : PM P (node qasm3Context) :=
  rule_function (p_EnterRule BreakStatementContext 18) p_ExitRule qasm3Parser_BreakStatement_body.

Definition qasm3Parser_ContinueStatement_body : PM P unit :=
  EnterOuterAlt 1 ;;; SetState 213 ;;; Match qasm3ParserCONTINUE ;;; SetState 214 ;;;
  Match qasm3ParserSEMICOLON ;;; pret tt.
Definition qasm3Parser_ContinueStatement : PM P (node qasm3Context) :=
  rule_function (p_EnterRule ContinueStatementContext 20) p_ExitRule qasm3Parser_ContinueStatement_body.

Definition qasm3Parser_EndStatement_body : PM P unit :=
  EnterOuterAlt 1 ;;; SetState 216 ;;; Match qasm3ParserEND ;;; SetState 217 ;;;
  Match qasm3ParserSEMICOLON ;;; pret tt.
Definition qasm3Parser_EndStatement : PM P (node qasm3Context) :=
  rule_function (p_EnterRule EndStatementContext 22) p_ExitRule qasm3Parser_EndStatement_body.

Definition qasm3Parser_ForStatement_body : PM P unit :=
  EnterOuterAlt 1 ;;; SetState 219 ;;; Match qasm3ParserFOR ;;; SetState 220 ;;; call RULE_scalarType 0 ;;;
  SetState 221 ;;; Match qasm3ParserIdentifier ;;; SetState 222 ;;; Match qasm3ParserIN ;;; SetState 229 ;;;
  p_Sync ;;;
  (let% _la := LA1 in
    if (_la =? qasm3ParserLBRACE) then
      SetState 223 ;;; call RULE_setExpression 0 ;;; pret tt
    else
    if (_la =? qasm3ParserLBRACKET) then
      SetState 224 ;;; Match qasm3ParserLBRACKET ;;; SetState 225 ;;; call RULE_rangeExpression 0 ;;;
      SetState 226 ;;; Match qasm3ParserRBRACKET ;;; pret tt
    else
    if (_la =? qasm3ParserIdentifier) then
      SetState 228 ;;; Match qasm3ParserIdentifier ;;; pret tt
    else
    praise NoViableAltException) ;;;
  SetState 231 ;;;
  let% _x := call RULE_statementOrScope 0 in
  SetField "body" _x.
Definition qasm3Parser_ForStatement : PM P (node qasm3Context) :=
  rule_function (p_EnterRule ForStatementContext 24) p_ExitRule qasm3Parser_ForStatement_body.

Definition qasm3Parser_IfStatement_body : PM P unit :=
  EnterOuterAlt 1 ;;; SetState 233 ;;; Match qasm3ParserIF ;;; SetState 234 ;;; Match qasm3ParserLPAREN ;;;
  SetState 235 ;;; call RULE_expression 0 ;;; SetState 236 ;;; Match qasm3ParserRPAREN ;;; SetState 237 ;;;
  let% _x := call RULE_statementOrScope 0 in
  SetField "if_body" _x ;;; SetState 240 ;;; p_Sync ;;;
  let% _alt := p_AdaptivePredict 9 in
  (if _alt =? 1 then
    SetState 238 ;;; Match qasm3ParserELSE ;;; SetState 239 ;;;
    let% _x := call RULE_statementOrScope 0 in
    SetField "else_body" _x
   else
    pret tt).
Definition qasm3Parser_IfStatement : PM P (node qasm3Context) :=
  rule_function (p_EnterRule IfStatementContext 26) p_ExitRule qasm3Parser_IfStatement_body.

Definition qasm3Parser_ReturnStatement_body : PM P unit :=
  EnterOuterAlt 1 ;;; SetState 242 ;;; Match qasm3ParserRETURN ;;; SetState 245 ;;; p_Sync ;;;
  (let% _la := LA1 in
    if (_la =? qasm3ParserBOOL) || (_la =? qasm3ParserBIT) || (_la =? qasm3ParserINT) ||
        (_la =? qasm3ParserUINT) || (_la =? qasm3ParserFLOAT) || (_la =? qasm3ParserANGLE) ||
        (_la =? qasm3ParserCOMPLEX) || (_la =? qasm3ParserARRAY) || (_la =? qasm3ParserDURATION) ||
        (_la =? qasm3ParserSTRETCH) || (_la =? qasm3ParserDURATIONOF) || (_la =? qasm3ParserBooleanLiteral) ||
        (_la =? qasm3ParserLPAREN) || (_la =? qasm3ParserMINUS) || (_la =? qasm3ParserTILDE) ||
        (_la =? qasm3ParserEXCLAMATION_POINT) || (_la =? qasm3ParserImaginaryLiteral) ||
        (_la =? qasm3ParserBinaryIntegerLiteral) || (_la =? qasm3ParserOctalIntegerLiteral) ||
        (_la =? qasm3ParserDecimalIntegerLiteral) || (_la =? qasm3ParserHexIntegerLiteral) ||
        (_la =? qasm3ParserIdentifier) || (_la =? qasm3ParserHardwareQubit) ||
        (_la =? qasm3ParserFloatLiteral) || (_la =? qasm3ParserTimingLiteral) ||
        (_la =? qasm3ParserBitstringLiteral) then
      SetState 243 ;;; call RULE_expression 0 ;;; pret tt
    else
    if (_la =? qasm3ParserMEASURE) then
      SetState 244 ;;; call RULE_measureExpression 0 ;;; pret tt
    else
    if (_la =? qasm3ParserSEMICOLON) then
      pret tt
    else
    pret tt) ;;;
  SetState 247 ;;; Match qasm3ParserSEMICOLON ;;; pret tt.
Definition qasm3Parser_ReturnStatement : PM P (node qasm3Context) :=
  rule_function (p_EnterRule ReturnStatementContext 28) p_ExitRule qasm3Parser_ReturnStatement_body.

Definition qasm3Parser_WhileStatement_body : PM P unit :=
  EnterOuterAlt 1 ;;; SetState 249 ;;; Match qasm3ParserWHILE ;;; SetState 250 ;;; Match qasm3ParserLPAREN ;;;
  SetState 251 ;;; call RULE_expression 0 ;;; SetState 252 ;;; Match qasm3ParserRPAREN ;;; SetState 253 ;;;
  let% _x := call RULE_statementOrScope 0 in
  SetField "body" _x.
Definition qasm3Parser_WhileStatement : PM P (node qasm3Context) :=
  rule_function (p_EnterRule WhileStatementContext 30) p_ExitRule qasm3Parser_WhileStatement_body.

Definition qasm3Parser_BarrierStatement_body : PM P unit :=
  EnterOuterAlt 1 ;;; SetState 255 ;;; Match qasm3ParserBARRIER ;;; SetState 257 ;;; p_Sync ;;;
  let% _la := LA1 in
  (if (_la =? qasm3ParserIdentifier) || (_la =? qasm3ParserHardwareQubit) then
    SetState 256 ;;; call RULE_gateOperandList 0 ;;; pret tt
   else
    pret tt) ;;;
  SetState 259 ;;; Match qasm3ParserSEMICOLON ;;; pret tt.
Definition qasm3Parser_BarrierStatement : PM P (node qasm3Context) :=
  rule_function (p_EnterRule BarrierStatementContext 32) p_ExitRule qasm3Parser_BarrierStatement_body.

Definition qasm3Parser_BoxStatement_body : PM P unit :=
  EnterOuterAlt 1 ;;; SetState 261 ;;; Match qasm3ParserBOX ;;; SetState 263 ;;; p_Sync ;;;
  let% _la := LA1 in
  (if (_la =? qasm3ParserLBRACKET) then
    SetState 262 ;;; call RULE_designator 0 ;;; pret tt
   else
    pret tt) ;;;
  SetState 265 ;;; call RULE_scope 0 ;;; pret tt.
Definition qasm3Parser_BoxStatement : PM P (node qasm3Context) :=
  rule_function (p_EnterRule BoxStatementContext 34) p_ExitRule qasm3Parser_BoxStatement_body.

Definition qasm3Parser_DelayStatement_body : PM P unit :=
  EnterOuterAlt 1 ;;; SetState 267 ;;; Match qasm3ParserDELAY ;;; SetState 268 ;;; call RULE_designator 0 ;;;
  SetState 270 ;;; p_Sync ;;;
  let% _la := LA1 in
  (if (_la =? qasm3ParserIdentifier) || (_la =? qasm3ParserHardwareQubit) then
    SetState 269 ;;; call RULE_gateOperandList 0 ;;; pret tt
   else
    pret tt) ;;;
  SetState 272 ;;; Match qasm3ParserSEMICOLON ;;; pret tt.
Definition qasm3Parser_DelayStatement : PM P (node qasm3Context) :=
  rule_function (p_EnterRule DelayStatementContext 36) p_ExitRule qasm3Parser_DelayStatement_body.

Definition qasm3Parser_GateCallStatement_body : PM P unit :=
  SetState 315 ;;; p_Sync ;;;
  (let% _alt := p_AdaptivePredict 23 in
    if _alt =? 1 then
      EnterOuterAlt 1 ;;; SetState 277 ;;; p_Sync ;;;
      let% _la := LA1 in
      for_loop fuel (fun _la => bit_test 40 [qasm3ParserINV; qasm3ParserPOW; qasm3ParserCTRL;
          qasm3ParserNEGCTRL] _la) (fun _ =>
          SetState 274 ;;; call RULE_gateModifier 0 ;;; pret tt)
        (SetState 279 ;;; p_Sync ;;; LA1) _la ;;;
      SetState 280 ;;; Match qasm3ParserIdentifier ;;; SetState 286 ;;; p_Sync ;;;
      let% _la := LA1 in
      (if (_la =? qasm3ParserLPAREN) then
        SetState 281 ;;; Match qasm3ParserLPAREN ;;; SetState 283 ;;; p_Sync ;;;
        let% _la := LA1 in
        (if bit_test 29 [qasm3ParserBOOL; qasm3ParserBIT; qasm3ParserINT; qasm3ParserUINT; qasm3ParserFLOAT;
            qasm3ParserANGLE; qasm3ParserCOMPLEX; qasm3ParserARRAY; qasm3ParserDURATION; qasm3ParserSTRETCH;
            qasm3ParserDURATIONOF; qasm3ParserBooleanLiteral; qasm3ParserLPAREN] _la ||
            bit_test 65 [qasm3ParserMINUS; qasm3ParserTILDE; qasm3ParserEXCLAMATION_POINT;
            qasm3ParserImaginaryLiteral; qasm3ParserBinaryIntegerLiteral; qasm3ParserOctalIntegerLiteral;
            qasm3ParserDecimalIntegerLiteral; qasm3ParserHexIntegerLiteral; qasm3ParserIdentifier;
            qasm3ParserHardwareQubit; qasm3ParserFloatLiteral; qasm3ParserTimingLiteral;
            qasm3ParserBitstringLiteral] _la then
          SetState 282 ;;; call RULE_expressionList 0 ;;; pret tt
         else
          pret tt) ;;;
        SetState 285 ;;; Match qasm3ParserRPAREN ;;; pret tt
       else
        pret tt) ;;;
      SetState 289 ;;; p_Sync ;;;
      let% _la := LA1 in
      (if (_la =? qasm3ParserLBRACKET) then
        SetState 288 ;;; call RULE_designator 0 ;;; pret tt
       else
        pret tt) ;;;
      SetState 291 ;;; call RULE_gateOperandList 0 ;;; SetState 292 ;;; Match qasm3ParserSEMICOLON ;;; pret tt
    else
    if _alt =? 2 then
      EnterOuterAlt 2 ;;; SetState 297 ;;; p_Sync ;;;
      let% _la := LA1 in
      for_loop fuel (fun _la => bit_test 40 [qasm3ParserINV; qasm3ParserPOW; qasm3ParserCTRL;
          qasm3ParserNEGCTRL] _la) (fun _ =>
          SetState 294 ;;; call RULE_gateModifier 0 ;;; pret tt)
        (SetState 299 ;;; p_Sync ;;; LA1) _la ;;;
      SetState 300 ;;; Match qasm3ParserGPHASE ;;; SetState 306 ;;; p_Sync ;;;
      let% _la := LA1 in
      (if (_la =? qasm3ParserLPAREN) then
        SetState 301 ;;; Match qasm3ParserLPAREN ;;; SetState 303 ;;; p_Sync ;;;
        let% _la := LA1 in
        (if bit_test 29 [qasm3ParserBOOL; qasm3ParserBIT; qasm3ParserINT; qasm3ParserUINT; qasm3ParserFLOAT;
            qasm3ParserANGLE; qasm3ParserCOMPLEX; qasm3ParserARRAY; qasm3ParserDURATION; qasm3ParserSTRETCH;
            qasm3ParserDURATIONOF; qasm3ParserBooleanLiteral; qasm3ParserLPAREN] _la ||
            bit_test 65 [qasm3ParserMINUS; qasm3ParserTILDE; qasm3ParserEXCLAMATION_POINT;
            qasm3ParserImaginaryLiteral; qasm3ParserBinaryIntegerLiteral; qasm3ParserOctalIntegerLiteral;
            qasm3ParserDecimalIntegerLiteral; qasm3ParserHexIntegerLiteral; qasm3ParserIdentifier;
            qasm3ParserHardwareQubit; qasm3ParserFloatLiteral; qasm3ParserTimingLiteral;
            qasm3ParserBitstringLiteral] _la then
          SetState 302 ;;; call RULE_expressionList 0 ;;; pret tt
         else
          pret tt) ;;;
        SetState 305 ;;; Match qasm3ParserRPAREN ;;; pret tt
       else
        pret tt) ;;;
      SetState 309 ;;; p_Sync ;;;
      let% _la := LA1 in
      (if (_la =? qasm3ParserLBRACKET) then
        SetState 308 ;;; call RULE_designator 0 ;;; pret tt
       else
        pret tt) ;;;
      SetState 312 ;;; p_Sync ;;;
      let% _la := LA1 in
      (if (_la =? qasm3ParserIdentifier) || (_la =? qasm3ParserHardwareQubit) then
        SetState 311 ;;; call RULE_gateOperandList 0 ;;; pret tt
       else
        pret tt) ;;;
      SetState 314 ;;; Match qasm3ParserSEMICOLON ;;; pret tt
    else
    pret tt).
Definition qasm3Parser_GateCallStatement : PM P (node qasm3Context) :=
  rule_function (p_EnterRule GateCallStatementContext 38) p_ExitRule qasm3Parser_GateCallStatement_body.

Definition qasm3Parser_MeasureArrowAssignmentStatement_body : PM P unit :=
  EnterOuterAlt 1 ;;; SetState 317 ;;; call RULE_measureExpression 0 ;;; SetState 320 ;;; p_Sync ;;;
  let% _la := LA1 in
  (if (_la =? qasm3ParserARROW) then
    SetState 318 ;;; Match qasm3ParserARROW ;;; SetState 319 ;;; call RULE_indexedIdentifier 0 ;;; pret tt
   else
    pret tt) ;;;
  SetState 322 ;;; Match qasm3ParserSEMICOLON ;;; pret tt.
Definition qasm3Parser_MeasureArrowAssignmentStatement : PM P (node qasm3Context) :=
  rule_function (p_EnterRule MeasureArrowAssignmentStatementContext 40) p_ExitRule qasm3Parser_MeasureArrowAssignmentStatement_body.

Definition qasm3Parser_ResetStatement_body : PM P unit :=
  EnterOuterAlt 1 ;;; SetState 324 ;;; Match qasm3ParserRESET ;;; SetState 325 ;;; call RULE_gateOperand 0 ;;;
  SetState 326 ;;; Match qasm3ParserSEMICOLON ;;; pret tt.
Definition qasm3Parser_ResetStatement : PM P (node qasm3Context) :=
  rule_function (p_EnterRule ResetStatementContext 42) p_ExitRule qasm3Parser_ResetStatement_body.

Definition qasm3Parser_AliasDeclarationStatement_body : PM P unit :=
  EnterOuterAlt 1 ;;; SetState 328 ;;; Match qasm3ParserLET ;;; SetState 329 ;;; Match qasm3ParserIdentifier ;;;
  SetState 330 ;;; Match qasm3ParserEQUALS ;;; SetState 331 ;;; call RULE_aliasExpression 0 ;;; SetState 332 ;;;
  Match qasm3ParserSEMICOLON ;;; pret tt.
Definition qasm3Parser_AliasDeclarationStatement : PM P (node qasm3Context) :=
  rule_function (p_EnterRule AliasDeclarationStatementContext 44) p_ExitRule qasm3Parser_AliasDeclarationStatement_body.

Definition qasm3Parser_ClassicalDeclarationStatement_body : PM P unit :=
  EnterOuterAlt 1 ;;; SetState 336 ;;; p_Sync ;;;
  (let% _la := LA1 in
    if (_la =? qasm3ParserBOOL) || (_la =? qasm3ParserBIT) || (_la =? qasm3ParserINT) ||
        (_la =? qasm3ParserUINT) || (_la =? qasm3ParserFLOAT) || (_la =? qasm3ParserANGLE) ||
        (_la =? qasm3ParserCOMPLEX) || (_la =? qasm3ParserDURATION) || (_la =? qasm3ParserSTRETCH) then
      SetState 334 ;;; call RULE_scalarType 0 ;;; pret tt
    else
    if (_la =? qasm3ParserARRAY) then
      SetState 335 ;;; call RULE_arrayType 0 ;;; pret tt
    else
    praise NoViableAltException) ;;;
  SetState 338 ;;; Match qasm3ParserIdentifier ;;; SetState 341 ;;; p_Sync ;;;
  let% _la := LA1 in
  (if (_la =? qasm3ParserEQUALS) then
    SetState 339 ;;; Match qasm3ParserEQUALS ;;; SetState 340 ;;; call RULE_declarationExpression 0 ;;; pret tt
   else
    pret tt) ;;;
  SetState 343 ;;; Match qasm3ParserSEMICOLON ;;; pret tt.
Definition qasm3Parser_ClassicalDeclarationStatement : PM P (node qasm3Context) :=
  rule_function (p_EnterRule ClassicalDeclarationStatementContext 46) p_ExitRule qasm3Parser_ClassicalDeclarationStatement_body.

Definition qasm3Parser_ConstDeclarationStatement_body : PM P unit :=
  EnterOuterAlt 1 ;;; SetState 345 ;;; Match qasm3ParserCONST ;;; SetState 346 ;;; call RULE_scalarType 0 ;;;
  SetState 347 ;;; Match qasm3ParserIdentifier ;;; SetState 348 ;;; Match qasm3ParserEQUALS ;;; SetState 349 ;;;
  call RULE_declarationExpression 0 ;;; SetState 350 ;;; Match qasm3ParserSEMICOLON ;;; pret tt.
Definition qasm3Parser_ConstDeclarationStatement : PM P (node qasm3Context) :=
  rule_function (p_EnterRule ConstDeclarationStatementContext 48) p_ExitRule qasm3Parser_ConstDeclarationStatement_body.

Definition qasm3Parser_IoDeclarationStatement_body : PM P unit :=
  EnterOuterAlt 1 ;;; SetState 352 ;;;
  (let% _la := LA1 in
    if negb ((_la =? qasm3ParserINPUT) || (_la =? qasm3ParserOUTPUT)) then
      p_RecoverInline ;;; pret tt
    else
      ReportMatch ;;; p_Consume ;;; pret tt) ;;;
  SetState 355 ;;; p_Sync ;;;
  (let% _la := LA1 in
    if (_la =? qasm3ParserBOOL) || (_la =? qasm3ParserBIT) || (_la =? qasm3ParserINT) ||
        (_la =? qasm3ParserUINT) || (_la =? qasm3ParserFLOAT) || (_la =? qasm3ParserANGLE) ||
        (_la =? qasm3ParserCOMPLEX) || (_la =? qasm3ParserDURATION) || (_la =? qasm3ParserSTRETCH) then
      SetState 353 ;;; call RULE_scalarType 0 ;;; pret tt
    else
    if (_la =? qasm3ParserARRAY) then
      SetState 354 ;;; call RULE_arrayType 0 ;;; pret tt
    else
    praise NoViableAltException) ;;;
  SetState 357 ;;; Match qasm3ParserIdentifier ;;; SetState 358 ;;; Match qasm3ParserSEMICOLON ;;; pret tt.
Definition qasm3Parser_IoDeclarationStatement : PM P (node qasm3Context) :=
  rule_function (p_EnterRule IoDeclarationStatementContext 50) p_ExitRule qasm3Parser_IoDeclarationStatement_body.

Definition qasm3Parser_OldStyleDeclarationStatement_body : PM P unit :=
  EnterOuterAlt 1 ;;; SetState 360 ;;;
  (let% _la := LA1 in
    if negb ((_la =? qasm3ParserQREG) || (_la =? qasm3ParserCREG)) then
      p_RecoverInline ;;; pret tt
    else
      ReportMatch ;;; p_Consume ;;; pret tt) ;;;
  SetState 361 ;;; Match qasm3ParserIdentifier ;;; SetState 363 ;;; p_Sync ;;;
  let% _la := LA1 in
  (if (_la =? qasm3ParserLBRACKET) then
    SetState 362 ;;; call RULE_designator 0 ;;; pret tt
   else
    pret tt) ;;;
  SetState 365 ;;; Match qasm3ParserSEMICOLON ;;; pret tt.
Definition qasm3Parser_OldStyleDeclarationStatement : PM P (node qasm3Context) :=
  rule_function (p_EnterRule OldStyleDeclarationStatementContext 52) p_ExitRule qasm3Parser_OldStyleDeclarationStatement_body.

Definition qasm3Parser_QuantumDeclarationStatement_body : PM P unit :=
  EnterOuterAlt 1 ;;; SetState 367 ;;; call RULE_qubitType 0 ;;; SetState 368 ;;; Match qasm3ParserIdentifier ;;;
  SetState 369 ;;; Match qasm3ParserSEMICOLON ;;; pret tt.
Definition qasm3Parser_QuantumDeclarationStatement : PM P (node qasm3Context) :=
  rule_function (p_EnterRule QuantumDeclarationStatementContext 54) p_ExitRule qasm3Parser_QuantumDeclarationStatement_body.

Definition qasm3Parser_DefStatement_body : PM P unit :=
  EnterOuterAlt 1 ;;; SetState 371 ;;; Match qasm3ParserDEF ;;; SetState 372 ;;; Match qasm3ParserIdentifier ;;;
  SetState 373 ;;; Match qasm3ParserLPAREN ;;; SetState 375 ;;; p_Sync ;;;
  let% _la := LA1 in
  (if bit_test 24 [qasm3ParserCONST; qasm3ParserMUTABLE; qasm3ParserQREG; qasm3ParserQUBIT; qasm3ParserCREG;
      qasm3ParserBOOL; qasm3ParserBIT; qasm3ParserINT; qasm3ParserUINT; qasm3ParserFLOAT; qasm3ParserANGLE;
      qasm3ParserCOMPLEX; qasm3ParserDURATION; qasm3ParserSTRETCH] _la then
    SetState 374 ;;; call RULE_argumentDefinitionList 0 ;;; pret tt
   else
    pret tt) ;;;
  SetState 377 ;;; Match qasm3ParserRPAREN ;;; SetState 379 ;;; p_Sync ;;;
  let% _la := LA1 in
  (if (_la =? qasm3ParserARROW) then
    SetState 378 ;;; call RULE_returnSignature 0 ;;; pret tt
   else
    pret tt) ;;;
  SetState 381 ;;; call RULE_scope 0 ;;; pret tt.
Definition qasm3Parser_DefStatement : PM P (node qasm3Context) :=
  rule_function (p_EnterRule DefStatementContext 56) p_ExitRule qasm3Parser_DefStatement_body.

Definition qasm3Parser_ExternStatement_body : PM P unit :=
  EnterOuterAlt 1 ;;; SetState 383 ;;; Match qasm3ParserEXTERN ;;; SetState 384 ;;; Match qasm3ParserIdentifier ;;;
  SetState 385 ;;; Match qasm3ParserLPAREN ;;; SetState 387 ;;; p_Sync ;;;
  let% _la := LA1 in
  (if bit_test 24 [qasm3ParserCONST; qasm3ParserMUTABLE; qasm3ParserCREG; qasm3ParserBOOL; qasm3ParserBIT;
      qasm3ParserINT; qasm3ParserUINT; qasm3ParserFLOAT; qasm3ParserANGLE; qasm3ParserCOMPLEX;
      qasm3ParserDURATION; qasm3ParserSTRETCH] _la then
    SetState 386 ;;; call RULE_externArgumentList 0 ;;; pret tt
   else
    pret tt) ;;;
  SetState 389 ;;; Match qasm3ParserRPAREN ;;; SetState 391 ;;; p_Sync ;;;
  let% _la := LA1 in
  (if (_la =? qasm3ParserARROW) then
    SetState 390 ;;; call RULE_returnSignature 0 ;;; pret tt
   else
    pret tt) ;;;
  SetState 393 ;;; Match qasm3ParserSEMICOLON ;;; pret tt.
Definition qasm3Parser_ExternStatement : PM P (node qasm3Context) :=
  rule_function (p_EnterRule ExternStatementContext 58) p_ExitRule qasm3Parser_ExternStatement_body.

Definition qasm3Parser_GateStatement_body : PM P unit :=
  EnterOuterAlt 1 ;;; SetState 395 ;;; Match qasm3ParserGATE ;;; SetState 396 ;;; Match qasm3ParserIdentifier ;;;
  SetState 402 ;;; p_Sync ;;;
  let% _la := LA1 in
  (if (_la =? qasm3ParserLPAREN) then
    SetState 397 ;;; Match qasm3ParserLPAREN ;;; SetState 399 ;;; p_Sync ;;;
    let% _la := LA1 in
    (if (_la =? qasm3ParserIdentifier) then
      SetState 398 ;;;
      let% _x := call RULE_identifierList 0 in
      SetField "params" _x
     else
      pret tt) ;;;
    SetState 401 ;;; Match qasm3ParserRPAREN ;;; pret tt
   else
    pret tt) ;;;
  SetState 404 ;;;
  let% _x := call RULE_identifierList 0 in
  SetField "qubits" _x ;;; SetState 405 ;;; call RULE_scope 0 ;;; pret tt.
Definition qasm3Parser_GateStatement : PM P (node qasm3Context) :=
  rule_function (p_EnterRule GateStatementContext 60) p_ExitRule qasm3Parser_GateStatement_body.

Definition qasm3Parser_AssignmentStatement_body : PM P unit :=
  EnterOuterAlt 1 ;;; SetState 407 ;;; call RULE_indexedIdentifier 0 ;;; SetState 408 ;;;
  let% _lt := LT1 in
  SetField "op" (Leaf _lt) ;;;
  (let% _la := LA1 in
    if negb ((_la =? qasm3ParserEQUALS) || (_la =? qasm3ParserCompoundAssignmentOperator)) then
      let% _ri := p_RecoverInline in
      SetField "op" (Leaf _ri)
    else
      ReportMatch ;;; p_Consume ;;; pret tt) ;;;
  SetState 411 ;;; p_Sync ;;;
  (let% _la := LA1 in
    if (_la =? qasm3ParserBOOL) || (_la =? qasm3ParserBIT) || (_la =? qasm3ParserINT) ||
        (_la =? qasm3ParserUINT) || (_la =? qasm3ParserFLOAT) || (_la =? qasm3ParserANGLE) ||
        (_la =? qasm3ParserCOMPLEX) || (_la =? qasm3ParserARRAY) || (_la =? qasm3ParserDURATION) ||
        (_la =? qasm3ParserSTRETCH) || (_la =? qasm3ParserDURATIONOF) || (_la =? qasm3ParserBooleanLiteral) ||
        (_la =? qasm3ParserLPAREN) || (_la =? qasm3ParserMINUS) || (_la =? qasm3ParserTILDE) ||
        (_la =? qasm3ParserEXCLAMATION_POINT) || (_la =? qasm3ParserImaginaryLiteral) ||
        (_la =? qasm3ParserBinaryIntegerLiteral) || (_la =? qasm3ParserOctalIntegerLiteral) ||
        (_la =? qasm3ParserDecimalIntegerLiteral) || (_la =? qasm3ParserHexIntegerLiteral) ||
        (_la =? qasm3ParserIdentifier) || (_la =? qasm3ParserHardwareQubit) ||
        (_la =? qasm3ParserFloatLiteral) || (_la =? qasm3ParserTimingLiteral) ||
        (_la =? qasm3ParserBitstringLiteral) then
      SetState 409 ;;; call RULE_expression 0 ;;; pret tt
    else
    if (_la =? qasm3ParserMEASURE) then
      SetState 410 ;;; call RULE_measureExpression 0 ;;; pret tt
    else
    praise NoViableAltException) ;;;
  SetState 413 ;;; Match qasm3ParserSEMICOLON ;;; pret tt.
Definition qasm3Parser_AssignmentStatement : PM P (node qasm3Context) :=
  rule_function (p_EnterRule AssignmentStatementContext 62) p_ExitRule qasm3Parser_AssignmentStatement_body.

Definition qasm3Parser_ExpressionStatement_body : PM P unit :=
  EnterOuterAlt 1 ;;; SetState 415 ;;; call RULE_expression 0 ;;; SetState 416 ;;;
  Match qasm3ParserSEMICOLON ;;; pret tt.
Definition qasm3Parser_ExpressionStatement : PM P (node qasm3Context) :=
  rule_function (p_EnterRule ExpressionStatementContext 64) p_ExitRule qasm3Parser_ExpressionStatement_body.

Definition qasm3Parser_CalStatement_body : PM P unit :=
  EnterOuterAlt 1 ;;; SetState 418 ;;; Match qasm3ParserCAL ;;; SetState 419 ;;; Match qasm3ParserLBRACE ;;;
  SetState 421 ;;; p_Sync ;;;
  let% _la := LA1 in
  (if (_la =? qasm3ParserCalibrationBlock) then
    SetState 420 ;;; Match qasm3ParserCalibrationBlock ;;; pret tt
   else
    pret tt) ;;;
  SetState 423 ;;; Match qasm3ParserRBRACE ;;; pret tt.
Definition qasm3Parser_CalStatement : PM P (node qasm3Context) :=
  rule_function (p_EnterRule CalStatementContext 66) p_ExitRule qasm3Parser_CalStatement_body.

Definition qasm3Parser_DefcalStatement_body : PM P unit :=
  EnterOuterAlt 1 ;;; SetState 425 ;;; Match qasm3ParserDEFCAL ;;; SetState 426 ;;; call RULE_defcalTarget 0 ;;;
  SetState 432 ;;; p_Sync ;;;
  let% _la := LA1 in
  (if (_la =? qasm3ParserLPAREN) then
    SetState 427 ;;; Match qasm3ParserLPAREN ;;; SetState 429 ;;; p_Sync ;;;
    let% _la := LA1 in
    (if bit_test 24 [qasm3ParserCONST; qasm3ParserMUTABLE; qasm3ParserQREG; qasm3ParserQUBIT; qasm3ParserCREG;
        qasm3ParserBOOL; qasm3ParserBIT; qasm3ParserINT; qasm3ParserUINT; qasm3ParserFLOAT; qasm3ParserANGLE;
        qasm3ParserCOMPLEX; qasm3ParserARRAY; qasm3ParserDURATION; qasm3ParserSTRETCH; qasm3ParserDURATIONOF;
        qasm3ParserBooleanLiteral; qasm3ParserLPAREN] _la || bit_test 65 [qasm3ParserMINUS; qasm3ParserTILDE;
        qasm3ParserEXCLAMATION_POINT; qasm3ParserImaginaryLiteral; qasm3ParserBinaryIntegerLiteral;
        qasm3ParserOctalIntegerLiteral; qasm3ParserDecimalIntegerLiteral; qasm3ParserHexIntegerLiteral;
        qasm3ParserIdentifier; qasm3ParserHardwareQubit; qasm3ParserFloatLiteral; qasm3ParserTimingLiteral;
        qasm3ParserBitstringLiteral] _la then
      SetState 428 ;;; call RULE_defcalArgumentDefinitionList 0 ;;; pret tt
     else
      pret tt) ;;;
    SetState 431 ;;; Match qasm3ParserRPAREN ;;; pret tt
   else
    pret tt) ;;;
  SetState 434 ;;; call RULE_defcalOperandList 0 ;;; SetState 436 ;;; p_Sync ;;;
  let% _la := LA1 in
  (if (_la =? qasm3ParserARROW) then
    SetState 435 ;;; call RULE_returnSignature 0 ;;; pret tt
   else
    pret tt) ;;;
  SetState 438 ;;; Match qasm3ParserLBRACE ;;; SetState 440 ;;; p_Sync ;;;
  let% _la := LA1 in
  (if (_la =? qasm3ParserCalibrationBlock) then
    SetState 439 ;;; Match qasm3ParserCalibrationBlock ;;; pret tt
   else
    pret tt) ;;;
  SetState 442 ;;; Match qasm3ParserRBRACE ;;; pret tt.
Definition qasm3Parser_DefcalStatement : PM P (node qasm3Context) :=
  rule_function (p_EnterRule DefcalStatementContext 68) p_ExitRule qasm3Parser_DefcalStatement_body.

(** *** expression *)

(** The first operand: the alternatives that are not left-recursive. *)
Definition qasm3Parser_expression_primary : PM P unit :=
  EnterOuterAlt 1 ;;; SetState 471 ;;; p_Sync ;;;
  (let% _alt := p_AdaptivePredict 43 in
    if _alt =? 1 then
      pdo (p_SetParserRuleContext ParenthesisExpressionContext) ;;; SetState 445 ;;; Match qasm3ParserLPAREN ;;;
      SetState 446 ;;; call RULE_expression 0 ;;; SetState 447 ;;; Match qasm3ParserRPAREN ;;; pret tt
    else
    if _alt =? 2 then
      pdo (p_SetParserRuleContext UnaryExpressionContext) ;;; SetState 449 ;;;
      let% _lt := LT1 in
      SetField "op" (Leaf _lt) ;;;
      (let% _la := LA1 in
        if negb (bit_test 65 [qasm3ParserMINUS; qasm3ParserTILDE; qasm3ParserEXCLAMATION_POINT] _la) then
          let% _ri := p_RecoverInline in
          SetField "op" (Leaf _ri)
        else
          ReportMatch ;;; p_Consume ;;; pret tt) ;;;
      SetState 450 ;;; call RULE_expression 15 ;;; pret tt
    else
    if _alt =? 3 then
      pdo (p_SetParserRuleContext CastExpressionContext) ;;; SetState 453 ;;; p_Sync ;;;
      (let% _la := LA1 in
        if (_la =? qasm3ParserBOOL) || (_la =? qasm3ParserBIT) || (_la =? qasm3ParserINT) ||
            (_la =? qasm3ParserUINT) || (_la =? qasm3ParserFLOAT) || (_la =? qasm3ParserANGLE) ||
            (_la =? qasm3ParserCOMPLEX) || (_la =? qasm3ParserDURATION) || (_la =? qasm3ParserSTRETCH) then
          SetState 451 ;;; call RULE_scalarType 0 ;;; pret tt
        else
        if (_la =? qasm3ParserARRAY) then
          SetState 452 ;;; call RULE_arrayType 0 ;;; pret tt
        else
        praise NoViableAltException) ;;;
      SetState 455 ;;; Match qasm3ParserLPAREN ;;; SetState 456 ;;; call RULE_expression 0 ;;; SetState 457 ;;;
      Match qasm3ParserRPAREN ;;; pret tt
    else
    if _alt =? 4 then
      pdo (p_SetParserRuleContext DurationofExpressionContext) ;;; SetState 459 ;;; Match qasm3ParserDURATIONOF ;;;
      SetState 460 ;;; Match qasm3ParserLPAREN ;;; SetState 461 ;;; call RULE_scope 0 ;;; SetState 462 ;;;
      Match qasm3ParserRPAREN ;;; pret tt
    else
    if _alt =? 5 then
      pdo (p_SetParserRuleContext CallExpressionContext) ;;; SetState 464 ;;; Match qasm3ParserIdentifier ;;;
      SetState 465 ;;; Match qasm3ParserLPAREN ;;; SetState 467 ;;; p_Sync ;;;
      let% _la := LA1 in
      (if bit_test 29 [qasm3ParserBOOL; qasm3ParserBIT; qasm3ParserINT; qasm3ParserUINT; qasm3ParserFLOAT;
          qasm3ParserANGLE; qasm3ParserCOMPLEX; qasm3ParserARRAY; qasm3ParserDURATION; qasm3ParserSTRETCH;
          qasm3ParserDURATIONOF; qasm3ParserBooleanLiteral; qasm3ParserLPAREN] _la ||
          bit_test 65 [qasm3ParserMINUS; qasm3ParserTILDE; qasm3ParserEXCLAMATION_POINT;
          qasm3ParserImaginaryLiteral; qasm3ParserBinaryIntegerLiteral; qasm3ParserOctalIntegerLiteral;
          qasm3ParserDecimalIntegerLiteral; qasm3ParserHexIntegerLiteral; qasm3ParserIdentifier;
          qasm3ParserHardwareQubit; qasm3ParserFloatLiteral; qasm3ParserTimingLiteral;
          qasm3ParserBitstringLiteral] _la then
        SetState 466 ;;; call RULE_expressionList 0 ;;; pret tt
       else
        pret tt) ;;;
      SetState 469 ;;; Match qasm3ParserRPAREN ;;; pret tt
    else
    if _alt =? 6 then
      pdo (p_SetParserRuleContext LiteralExpressionContext) ;;; SetState 470 ;;;
      (let% _la := LA1 in
        if negb ((_la =? qasm3ParserBooleanLiteral) || bit_test 83 [qasm3ParserImaginaryLiteral;
            qasm3ParserBinaryIntegerLiteral; qasm3ParserOctalIntegerLiteral; qasm3ParserDecimalIntegerLiteral;
            qasm3ParserHexIntegerLiteral; qasm3ParserIdentifier; qasm3ParserHardwareQubit;
            qasm3ParserFloatLiteral; qasm3ParserTimingLiteral; qasm3ParserBitstringLiteral] _la) then
          p_RecoverInline ;;; pret tt
        else
          ReportMatch ;;; p_Consume ;;; pret tt)
    else
    pret tt).

(** One operator with its right operand; what was parsed so far becomes its first
    child. *)
Definition qasm3Parser_expression_operator (_startState : Z) : PM P unit :=
  (let% _alt := p_AdaptivePredict 44 in
    if _alt =? 1 then
      pdo (p_PushNewRecursionContext PowerExpressionContext _startState) ;;; SetState 473 ;;;
      let% _pp := pget (p_Precpred 16) in
      (if negb _pp then
        praise (FailedPredicateException "p.Precpred(p.GetParserRuleContext(), 16)")
       else
        pret tt) ;;;
      SetState 474 ;;;
      let% _m := Match qasm3ParserDOUBLE_ASTERISK in
      SetField "op" (Leaf _m) ;;; SetState 475 ;;; call RULE_expression 16 ;;; pret tt
    else
    if _alt =? 2 then
      pdo (p_PushNewRecursionContext MultiplicativeExpressionContext _startState) ;;; SetState 476 ;;;
      let% _pp := pget (p_Precpred 14) in
      (if negb _pp then
        praise (FailedPredicateException "p.Precpred(p.GetParserRuleContext(), 14)")
       else
        pret tt) ;;;
      SetState 477 ;;;
      let% _lt := LT1 in
      SetField "op" (Leaf _lt) ;;;
      (let% _la := LA1 in
        if negb (bit_test 66 [qasm3ParserASTERISK; qasm3ParserSLASH; qasm3ParserPERCENT] _la) then
          let% _ri := p_RecoverInline in
          SetField "op" (Leaf _ri)
        else
          ReportMatch ;;; p_Consume ;;; pret tt) ;;;
      SetState 478 ;;; call RULE_expression 15 ;;; pret tt
    else
    if _alt =? 3 then
      pdo (p_PushNewRecursionContext AdditiveExpressionContext _startState) ;;; SetState 479 ;;;
      let% _pp := pget (p_Precpred 13) in
      (if negb _pp then
        praise (FailedPredicateException "p.Precpred(p.GetParserRuleContext(), 13)")
       else
        pret tt) ;;;
      SetState 480 ;;;
      let% _lt := LT1 in
      SetField "op" (Leaf _lt) ;;;
      (let% _la := LA1 in
        if negb ((_la =? qasm3ParserPLUS) || (_la =? qasm3ParserMINUS)) then
          let% _ri := p_RecoverInline in
          SetField "op" (Leaf _ri)
        else
          ReportMatch ;;; p_Consume ;;; pret tt) ;;;
      SetState 481 ;;; call RULE_expression 14 ;;; pret tt
    else
    if _alt =? 4 then
      pdo (p_PushNewRecursionContext BitshiftExpressionContext _startState) ;;; SetState 482 ;;;
      let% _pp := pget (p_Precpred 12) in
      (if negb _pp then
        praise (FailedPredicateException "p.Precpred(p.GetParserRuleContext(), 12)")
       else
        pret tt) ;;;
      SetState 483 ;;;
      let% _m := Match qasm3ParserBitshiftOperator in
      SetField "op" (Leaf _m) ;;; SetState 484 ;;; call RULE_expression 13 ;;; pret tt
    else
    if _alt =? 5 then
      pdo (p_PushNewRecursionContext ComparisonExpressionContext _startState) ;;; SetState 485 ;;;
      let% _pp := pget (p_Precpred 11) in
      (if negb _pp then
        praise (FailedPredicateException "p.Precpred(p.GetParserRuleContext(), 11)")
       else
        pret tt) ;;;
      SetState 486 ;;;
      let% _m := Match qasm3ParserComparisonOperator in
      SetField "op" (Leaf _m) ;;; SetState 487 ;;; call RULE_expression 12 ;;; pret tt
    else
    if _alt =? 6 then
      pdo (p_PushNewRecursionContext EqualityExpressionContext _startState) ;;; SetState 488 ;;;
      let% _pp := pget (p_Precpred 10) in
      (if negb _pp then
        praise (FailedPredicateException "p.Precpred(p.GetParserRuleContext(), 10)")
       else
        pret tt) ;;;
      SetState 489 ;;;
      let% _m := Match qasm3ParserEqualityOperator in
      SetField "op" (Leaf _m) ;;; SetState 490 ;;; call RULE_expression 11 ;;; pret tt
    else
    if _alt =? 7 then
      pdo (p_PushNewRecursionContext BitwiseAndExpressionContext _startState) ;;; SetState 491 ;;;
      let% _pp := pget (p_Precpred 9) in
      (if negb _pp then
        praise (FailedPredicateException "p.Precpred(p.GetParserRuleContext(), 9)")
       else
        pret tt) ;;;
      SetState 492 ;;;
      let% _m := Match qasm3ParserAMPERSAND in
      SetField "op" (Leaf _m) ;;; SetState 493 ;;; call RULE_expression 10 ;;; pret tt
    else
    if _alt =? 8 then
      pdo (p_PushNewRecursionContext BitwiseXorExpressionContext _startState) ;;; SetState 494 ;;;
      let% _pp := pget (p_Precpred 8) in
      (if negb _pp then
        praise (FailedPredicateException "p.Precpred(p.GetParserRuleContext(), 8)")
       else
        pret tt) ;;;
      SetState 495 ;;;
      let% _m := Match qasm3ParserCARET in
      SetField "op" (Leaf _m) ;;; SetState 496 ;;; call RULE_expression 9 ;;; pret tt
    else
    if _alt =? 9 then
      pdo (p_PushNewRecursionContext BitwiseOrExpressionContext _startState) ;;; SetState 497 ;;;
      let% _pp := pget (p_Precpred 7) in
      (if negb _pp then
        praise (FailedPredicateException "p.Precpred(p.GetParserRuleContext(), 7)")
       else
        pret tt) ;;;
      SetState 498 ;;;
      let% _m := Match qasm3ParserPIPE in
      SetField "op" (Leaf _m) ;;; SetState 499 ;;; call RULE_expression 8 ;;; pret tt
    else
    if _alt =? 10 then
      pdo (p_PushNewRecursionContext LogicalAndExpressionContext _startState) ;;; SetState 500 ;;;
      let% _pp := pget (p_Precpred 6) in
      (if negb _pp then
        praise (FailedPredicateException "p.Precpred(p.GetParserRuleContext(), 6)")
       else
        pret tt) ;;;
      SetState 501 ;;;
      let% _m := Match qasm3ParserDOUBLE_AMPERSAND in
      SetField "op" (Leaf _m) ;;; SetState 502 ;;; call RULE_expression 7 ;;; pret tt
    else
    if _alt =? 11 then
      pdo (p_PushNewRecursionContext LogicalOrExpressionContext _startState) ;;; SetState 503 ;;;
      let% _pp := pget (p_Precpred 5) in
      (if negb _pp then
        praise (FailedPredicateException "p.Precpred(p.GetParserRuleContext(), 5)")
       else
        pret tt) ;;;
      SetState 504 ;;;
      let% _m := Match qasm3ParserDOUBLE_PIPE in
      SetField "op" (Leaf _m) ;;; SetState 505 ;;; call RULE_expression 6 ;;; pret tt
    else
    if _alt =? 12 then
      pdo (p_PushNewRecursionContext IndexExpressionContext _startState) ;;; SetState 506 ;;;
      let% _pp := pget (p_Precpred 17) in
      (if negb _pp then
        praise (FailedPredicateException "p.Precpred(p.GetParserRuleContext(), 17)")
       else
        pret tt) ;;;
      SetState 507 ;;; call RULE_indexOperator 0 ;;; pret tt
    else
    pret tt).

Definition qasm3Parser_expression_body (_startState : Z) : PM P unit :=
  qasm3Parser_expression_primary ;;; pdo p_SetStop ;;; SetState 510 ;;; p_Sync ;;;
  let% _alt := p_AdaptivePredict 45 in
  for_loop fuel (fun _alt => negb (_alt =? 2) && negb (_alt =? ATNInvalidAltNumber)) (fun _alt =>
      (if _alt =? 1 then
        let% _ls := pget p_GetParseListeners in
        (if _ls then
          pdo p_TriggerExitRuleEvent
         else
          pret tt) ;;;
        SetState 508 ;;; p_Sync ;;; qasm3Parser_expression_operator _startState
       else
        pret tt))
    (SetState 512 ;;; p_Sync ;;; p_AdaptivePredict 45) _alt.
Definition qasm3Parser_expression (_p : Z) : PM P (node qasm3Context) :=
  let _startState := 70 in
  rule_function (p_EnterRecursionRule ExpressionContext 70 _p) p_UnrollRecursionContexts
    (qasm3Parser_expression_body _startState).

Definition qasm3Parser_AliasExpression_body : PM P unit :=
  EnterOuterAlt 1 ;;; SetState 513 ;;; call RULE_expression 0 ;;; SetState 518 ;;; p_Sync ;;;
  let% _la := LA1 in
  for_loop fuel (fun _la => (_la =? qasm3ParserDOUBLE_PLUS)) (fun _ =>
      SetState 514 ;;; Match qasm3ParserDOUBLE_PLUS ;;; SetState 515 ;;; call RULE_expression 0 ;;; pret tt)
    (SetState 520 ;;; p_Sync ;;; LA1) _la.
Definition qasm3Parser_AliasExpression : PM P (node qasm3Context) :=
  rule_function (p_EnterRule AliasExpressionContext 72) p_ExitRule qasm3Parser_AliasExpression_body.

Definition qasm3Parser_DeclarationExpression_body : PM P unit :=
  SetState 524 ;;; p_Sync ;;;
  (let% _la := LA1 in
    if (_la =? qasm3ParserLBRACE) then
      EnterOuterAlt 1 ;;; SetState 521 ;;; call RULE_arrayLiteral 0 ;;; pret tt
    else
    if (_la =? qasm3ParserBOOL) || (_la =? qasm3ParserBIT) || (_la =? qasm3ParserINT) ||
        (_la =? qasm3ParserUINT) || (_la =? qasm3ParserFLOAT) || (_la =? qasm3ParserANGLE) ||
        (_la =? qasm3ParserCOMPLEX) || (_la =? qasm3ParserARRAY) || (_la =? qasm3ParserDURATION) ||
        (_la =? qasm3ParserSTRETCH) || (_la =? qasm3ParserDURATIONOF) || (_la =? qasm3ParserBooleanLiteral) ||
        (_la =? qasm3ParserLPAREN) || (_la =? qasm3ParserMINUS) || (_la =? qasm3ParserTILDE) ||
        (_la =? qasm3ParserEXCLAMATION_POINT) || (_la =? qasm3ParserImaginaryLiteral) ||
        (_la =? qasm3ParserBinaryIntegerLiteral) || (_la =? qasm3ParserOctalIntegerLiteral) ||
        (_la =? qasm3ParserDecimalIntegerLiteral) || (_la =? qasm3ParserHexIntegerLiteral) ||
        (_la =? qasm3ParserIdentifier) || (_la =? qasm3ParserHardwareQubit) ||
        (_la =? qasm3ParserFloatLiteral) || (_la =? qasm3ParserTimingLiteral) ||
        (_la =? qasm3ParserBitstringLiteral) then
      EnterOuterAlt 2 ;;; SetState 522 ;;; call RULE_expression 0 ;;; pret tt
    else
    if (_la =? qasm3ParserMEASURE) then
      EnterOuterAlt 3 ;;; SetState 523 ;;; call RULE_measureExpression 0 ;;; pret tt
    else
    praise NoViableAltException).
Definition qasm3Parser_DeclarationExpression : PM P (node qasm3Context) :=
  rule_function (p_EnterRule DeclarationExpressionContext 74) p_ExitRule qasm3Parser_DeclarationExpression_body.

Definition qasm3Parser_MeasureExpression_body : PM P unit :=
  EnterOuterAlt 1 ;;; SetState 526 ;;; Match qasm3ParserMEASURE ;;; SetState 527 ;;;
  call RULE_gateOperand 0 ;;; pret tt.
Definition qasm3Parser_MeasureExpression : PM P (node qasm3Context) :=
  rule_function (p_EnterRule MeasureExpressionContext 76) p_ExitRule qasm3Parser_MeasureExpression_body.

Definition qasm3Parser_RangeExpression_body : PM P unit :=
  EnterOuterAlt 1 ;;; SetState 530 ;;; p_Sync ;;;
  let% _la := LA1 in
  (if bit_test 29 [qasm3ParserBOOL; qasm3ParserBIT; qasm3ParserINT; qasm3ParserUINT; qasm3ParserFLOAT;
      qasm3ParserANGLE; qasm3ParserCOMPLEX; qasm3ParserARRAY; qasm3ParserDURATION; qasm3ParserSTRETCH;
      qasm3ParserDURATIONOF; qasm3ParserBooleanLiteral; qasm3ParserLPAREN] _la || bit_test 65 [qasm3ParserMINUS;
      qasm3ParserTILDE; qasm3ParserEXCLAMATION_POINT; qasm3ParserImaginaryLiteral;
      qasm3ParserBinaryIntegerLiteral; qasm3ParserOctalIntegerLiteral; qasm3ParserDecimalIntegerLiteral;
      qasm3ParserHexIntegerLiteral; qasm3ParserIdentifier; qasm3ParserHardwareQubit; qasm3ParserFloatLiteral;
      qasm3ParserTimingLiteral; qasm3ParserBitstringLiteral] _la then
    SetState 529 ;;; call RULE_expression 0 ;;; pret tt
   else
    pret tt) ;;;
  SetState 532 ;;; Match qasm3ParserCOLON ;;; SetState 534 ;;; p_Sync ;;;
  let% _la := LA1 in
  (if bit_test 29 [qasm3ParserBOOL; qasm3ParserBIT; qasm3ParserINT; qasm3ParserUINT; qasm3ParserFLOAT;
      qasm3ParserANGLE; qasm3ParserCOMPLEX; qasm3ParserARRAY; qasm3ParserDURATION; qasm3ParserSTRETCH;
      qasm3ParserDURATIONOF; qasm3ParserBooleanLiteral; qasm3ParserLPAREN] _la || bit_test 65 [qasm3ParserMINUS;
      qasm3ParserTILDE; qasm3ParserEXCLAMATION_POINT; qasm3ParserImaginaryLiteral;
      qasm3ParserBinaryIntegerLiteral; qasm3ParserOctalIntegerLiteral; qasm3ParserDecimalIntegerLiteral;
      qasm3ParserHexIntegerLiteral; qasm3ParserIdentifier; qasm3ParserHardwareQubit; qasm3ParserFloatLiteral;
      qasm3ParserTimingLiteral; qasm3ParserBitstringLiteral] _la then
    SetState 533 ;;; call RULE_expression 0 ;;; pret tt
   else
    pret tt) ;;;
  SetState 538 ;;; p_Sync ;;;
  let% _la := LA1 in
  (if (_la =? qasm3ParserCOLON) then
    SetState 536 ;;; Match qasm3ParserCOLON ;;; SetState 537 ;;; call RULE_expression 0 ;;; pret tt
   else
    pret tt).
Definition qasm3Parser_RangeExpression : PM P (node qasm3Context) :=
  rule_function (p_EnterRule RangeExpressionContext 78) p_ExitRule qasm3Parser_RangeExpression_body.

Definition qasm3Parser_SetExpression_body : PM P unit :=
  EnterOuterAlt 1 ;;; SetState 540 ;;; Match qasm3ParserLBRACE ;;; SetState 541 ;;; call RULE_expression 0 ;;;
  SetState 546 ;;; p_Sync ;;;
  let% _alt := p_AdaptivePredict 51 in
  for_loop fuel (fun _alt => negb (_alt =? 2) && negb (_alt =? ATNInvalidAltNumber)) (fun _alt =>
      (if _alt =? 1 then
        SetState 542 ;;; Match qasm3ParserCOMMA ;;; SetState 543 ;;; call RULE_expression 0 ;;; pret tt
       else
        pret tt))
    (SetState 548 ;;; p_Sync ;;; p_AdaptivePredict 51) _alt ;;;
  SetState 550 ;;; p_Sync ;;;
  let% _la := LA1 in
  (if (_la =? qasm3ParserCOMMA) then
    SetState 549 ;;; Match qasm3ParserCOMMA ;;; pret tt
   else
    pret tt) ;;;
  SetState 552 ;;; Match qasm3ParserRBRACE ;;; pret tt.
Definition qasm3Parser_SetExpression : PM P (node qasm3Context) :=
  rule_function (p_EnterRule SetExpressionContext 80) p_ExitRule qasm3Parser_SetExpression_body.

Definition qasm3Parser_ArrayLiteral_body : PM P unit :=
  EnterOuterAlt 1 ;;; SetState 554 ;;; Match qasm3ParserLBRACE ;;; SetState 557 ;;; p_Sync ;;;
  (let% _la := LA1 in
    if (_la =? qasm3ParserBOOL) || (_la =? qasm3ParserBIT) || (_la =? qasm3ParserINT) ||
        (_la =? qasm3ParserUINT) || (_la =? qasm3ParserFLOAT) || (_la =? qasm3ParserANGLE) ||
        (_la =? qasm3ParserCOMPLEX) || (_la =? qasm3ParserARRAY) || (_la =? qasm3ParserDURATION) ||
        (_la =? qasm3ParserSTRETCH) || (_la =? qasm3ParserDURATIONOF) || (_la =? qasm3ParserBooleanLiteral) ||
        (_la =? qasm3ParserLPAREN) || (_la =? qasm3ParserMINUS) || (_la =? qasm3ParserTILDE) ||
        (_la =? qasm3ParserEXCLAMATION_POINT) || (_la =? qasm3ParserImaginaryLiteral) ||
        (_la =? qasm3ParserBinaryIntegerLiteral) || (_la =? qasm3ParserOctalIntegerLiteral) ||
        (_la =? qasm3ParserDecimalIntegerLiteral) || (_la =? qasm3ParserHexIntegerLiteral) ||
        (_la =? qasm3ParserIdentifier) || (_la =? qasm3ParserHardwareQubit) ||
        (_la =? qasm3ParserFloatLiteral) || (_la =? qasm3ParserTimingLiteral) ||
        (_la =? qasm3ParserBitstringLiteral) then
      SetState 555 ;;; call RULE_expression 0 ;;; pret tt
    else
    if (_la =? qasm3ParserLBRACE) then
      SetState 556 ;;; call RULE_arrayLiteral 0 ;;; pret tt
    else
    praise NoViableAltException) ;;;
  SetState 566 ;;; p_Sync ;;;
  let% _alt := p_AdaptivePredict 55 in
  for_loop fuel (fun _alt => negb (_alt =? 2) && negb (_alt =? ATNInvalidAltNumber)) (fun _alt =>
      (if _alt =? 1 then
        SetState 559 ;;; Match qasm3ParserCOMMA ;;; SetState 562 ;;; p_Sync ;;;
        (let% _la := LA1 in
          if (_la =? qasm3ParserBOOL) || (_la =? qasm3ParserBIT) || (_la =? qasm3ParserINT) ||
              (_la =? qasm3ParserUINT) || (_la =? qasm3ParserFLOAT) || (_la =? qasm3ParserANGLE) ||
              (_la =? qasm3ParserCOMPLEX) || (_la =? qasm3ParserARRAY) || (_la =? qasm3ParserDURATION) ||
              (_la =? qasm3ParserSTRETCH) || (_la =? qasm3ParserDURATIONOF) ||
              (_la =? qasm3ParserBooleanLiteral) || (_la =? qasm3ParserLPAREN) || (_la =? qasm3ParserMINUS) ||
              (_la =? qasm3ParserTILDE) || (_la =? qasm3ParserEXCLAMATION_POINT) ||
              (_la =? qasm3ParserImaginaryLiteral) || (_la =? qasm3ParserBinaryIntegerLiteral) ||
              (_la =? qasm3ParserOctalIntegerLiteral) || (_la =? qasm3ParserDecimalIntegerLiteral) ||
              (_la =? qasm3ParserHexIntegerLiteral) || (_la =? qasm3ParserIdentifier) ||
              (_la =? qasm3ParserHardwareQubit) || (_la =? qasm3ParserFloatLiteral) ||
              (_la =? qasm3ParserTimingLiteral) || (_la =? qasm3ParserBitstringLiteral) then
            SetState 560 ;;; call RULE_expression 0 ;;; pret tt
          else
          if (_la =? qasm3ParserLBRACE) then
            SetState 561 ;;; call RULE_arrayLiteral 0 ;;; pret tt
          else
          praise NoViableAltException)
       else
        pret tt))
    (SetState 568 ;;; p_Sync ;;; p_AdaptivePredict 55) _alt ;;;
  SetState 570 ;;; p_Sync ;;;
  let% _la := LA1 in
  (if (_la =? qasm3ParserCOMMA) then
    SetState 569 ;;; Match qasm3ParserCOMMA ;;; pret tt
   else
    pret tt) ;;;
  SetState 572 ;;; Match qasm3ParserRBRACE ;;; pret tt.
Definition qasm3Parser_ArrayLiteral : PM P (node qasm3Context) :=
  rule_function (p_EnterRule ArrayLiteralContext 82) p_ExitRule qasm3Parser_ArrayLiteral_body.

Definition qasm3Parser_IndexOperator_body : PM P unit :=
  EnterOuterAlt 1 ;;; SetState 574 ;;; Match qasm3ParserLBRACKET ;;; SetState 593 ;;; p_Sync ;;;
  (let% _la := LA1 in
    if (_la =? qasm3ParserLBRACE) then
      SetState 575 ;;; call RULE_setExpression 0 ;;; pret tt
    else
    if (_la =? qasm3ParserBOOL) || (_la =? qasm3ParserBIT) || (_la =? qasm3ParserINT) ||
        (_la =? qasm3ParserUINT) || (_la =? qasm3ParserFLOAT) || (_la =? qasm3ParserANGLE) ||
        (_la =? qasm3ParserCOMPLEX) || (_la =? qasm3ParserARRAY) || (_la =? qasm3ParserDURATION) ||
        (_la =? qasm3ParserSTRETCH) || (_la =? qasm3ParserDURATIONOF) || (_la =? qasm3ParserBooleanLiteral) ||
        (_la =? qasm3ParserLPAREN) || (_la =? qasm3ParserCOLON) || (_la =? qasm3ParserMINUS) ||
        (_la =? qasm3ParserTILDE) || (_la =? qasm3ParserEXCLAMATION_POINT) ||
        (_la =? qasm3ParserImaginaryLiteral) || (_la =? qasm3ParserBinaryIntegerLiteral) ||
        (_la =? qasm3ParserOctalIntegerLiteral) || (_la =? qasm3ParserDecimalIntegerLiteral) ||
        (_la =? qasm3ParserHexIntegerLiteral) || (_la =? qasm3ParserIdentifier) ||
        (_la =? qasm3ParserHardwareQubit) || (_la =? qasm3ParserFloatLiteral) ||
        (_la =? qasm3ParserTimingLiteral) || (_la =? qasm3ParserBitstringLiteral) then
      SetState 578 ;;; p_Sync ;;;
      (let% _alt := p_AdaptivePredict 57 in
        if _alt =? 1 then
          SetState 576 ;;; call RULE_expression 0 ;;; pret tt
        else
        if _alt =? 2 then
          SetState 577 ;;; call RULE_rangeExpression 0 ;;; pret tt
        else
        pret tt) ;;;
      SetState 587 ;;; p_Sync ;;;
      let% _alt := p_AdaptivePredict 59 in
      for_loop fuel (fun _alt => negb (_alt =? 2) && negb (_alt =? ATNInvalidAltNumber)) (fun _alt =>
          (if _alt =? 1 then
            SetState 580 ;;; Match qasm3ParserCOMMA ;;; SetState 583 ;;; p_Sync ;;;
            (let% _alt := p_AdaptivePredict 58 in
              if _alt =? 1 then
                SetState 581 ;;; call RULE_expression 0 ;;; pret tt
              else
              if _alt =? 2 then
                SetState 582 ;;; call RULE_rangeExpression 0 ;;; pret tt
              else
              pret tt)
           else
            pret tt))
        (SetState 589 ;;; p_Sync ;;; p_AdaptivePredict 59) _alt ;;;
      SetState 591 ;;; p_Sync ;;;
      let% _la := LA1 in
      (if (_la =? qasm3ParserCOMMA) then
        SetState 590 ;;; Match qasm3ParserCOMMA ;;; pret tt
       else
        pret tt)
    else
    praise NoViableAltException) ;;;
  SetState 595 ;;; Match qasm3ParserRBRACKET ;;; pret tt.
Definition qasm3Parser_IndexOperator : PM P (node qasm3Context) :=
  rule_function (p_EnterRule IndexOperatorContext 84) p_ExitRule qasm3Parser_IndexOperator_body.

Definition qasm3Parser_IndexedIdentifier_body : PM P unit :=
  EnterOuterAlt 1 ;;; SetState 597 ;;; Match qasm3ParserIdentifier ;;; SetState 601 ;;; p_Sync ;;;
  let% _la := LA1 in
  for_loop fuel (fun _la => (_la =? qasm3ParserLBRACKET)) (fun _ =>
      SetState 598 ;;; call RULE_indexOperator 0 ;;; pret tt)
    (SetState 603 ;;; p_Sync ;;; LA1) _la.
Definition qasm3Parser_IndexedIdentifier : PM P (node qasm3Context) :=
  rule_function (p_EnterRule IndexedIdentifierContext 86) p_ExitRule qasm3Parser_IndexedIdentifier_body.

Definition qasm3Parser_ReturnSignature_body : PM P unit :=
  EnterOuterAlt 1 ;;; SetState 604 ;;; Match qasm3ParserARROW ;;; SetState 605 ;;;
  call RULE_scalarType 0 ;;; pret tt.
Definition qasm3Parser_ReturnSignature : PM P (node qasm3Context) :=
  rule_function (p_EnterRule ReturnSignatureContext 88) p_ExitRule qasm3Parser_ReturnSignature_body.

Definition qasm3Parser_GateModifier_body : PM P unit :=
  EnterOuterAlt 1 ;;; SetState 620 ;;; p_Sync ;;;
  (let% _la := LA1 in
    if (_la =? qasm3ParserINV) then
      SetState 607 ;;; Match qasm3ParserINV ;;; pret tt
    else
    if (_la =? qasm3ParserPOW) then
      SetState 608 ;;; Match qasm3ParserPOW ;;; SetState 609 ;;; Match qasm3ParserLPAREN ;;; SetState 610 ;;;
      call RULE_expression 0 ;;; SetState 611 ;;; Match qasm3ParserRPAREN ;;; pret tt
    else
    if (_la =? qasm3ParserCTRL) || (_la =? qasm3ParserNEGCTRL) then
      SetState 613 ;;;
      (let% _la := LA1 in
        if negb ((_la =? qasm3ParserCTRL) || (_la =? qasm3ParserNEGCTRL)) then
          p_RecoverInline ;;; pret tt
        else
          ReportMatch ;;; p_Consume ;;; pret tt) ;;;
      SetState 618 ;;; p_Sync ;;;
      let% _la := LA1 in
      (if (_la =? qasm3ParserLPAREN) then
        SetState 614 ;;; Match qasm3ParserLPAREN ;;; SetState 615 ;;; call RULE_expression 0 ;;; SetState 616 ;;;
        Match qasm3ParserRPAREN ;;; pret tt
       else
        pret tt)
    else
    praise NoViableAltException) ;;;
  SetState 622 ;;; Match qasm3ParserAT ;;; pret tt.
Definition qasm3Parser_GateModifier : PM P (node qasm3Context) :=
  rule_function (p_EnterRule GateModifierContext 90) p_ExitRule qasm3Parser_GateModifier_body.

Definition qasm3Parser_ScalarType_body : PM P unit :=
  SetState 654 ;;; p_Sync ;;;
  (let% _la := LA1 in
    if (_la =? qasm3ParserBIT) then
      EnterOuterAlt 1 ;;; SetState 624 ;;; Match qasm3ParserBIT ;;; SetState 626 ;;; p_Sync ;;;
      let% _la := LA1 in
      (if (_la =? qasm3ParserLBRACKET) then
        SetState 625 ;;; call RULE_designator 0 ;;; pret tt
       else
        pret tt)
    else
    if (_la =? qasm3ParserINT) then
      EnterOuterAlt 2 ;;; SetState 628 ;;; Match qasm3ParserINT ;;; SetState 630 ;;; p_Sync ;;;
      let% _la := LA1 in
      (if (_la =? qasm3ParserLBRACKET) then
        SetState 629 ;;; call RULE_designator 0 ;;; pret tt
       else
        pret tt)
    else
    if (_la =? qasm3ParserUINT) then
      EnterOuterAlt 3 ;;; SetState 632 ;;; Match qasm3ParserUINT ;;; SetState 634 ;;; p_Sync ;;;
      let% _la := LA1 in
      (if (_la =? qasm3ParserLBRACKET) then
        SetState 633 ;;; call RULE_designator 0 ;;; pret tt
       else
        pret tt)
    else
    if (_la =? qasm3ParserFLOAT) then
      EnterOuterAlt 4 ;;; SetState 636 ;;; Match qasm3ParserFLOAT ;;; SetState 638 ;;; p_Sync ;;;
      let% _la := LA1 in
      (if (_la =? qasm3ParserLBRACKET) then
        SetState 637 ;;; call RULE_designator 0 ;;; pret tt
       else
        pret tt)
    else
    if (_la =? qasm3ParserANGLE) then
      EnterOuterAlt 5 ;;; SetState 640 ;;; Match qasm3ParserANGLE ;;; SetState 642 ;;; p_Sync ;;;
      let% _la := LA1 in
      (if (_la =? qasm3ParserLBRACKET) then
        SetState 641 ;;; call RULE_designator 0 ;;; pret tt
       else
        pret tt)
    else
    if (_la =? qasm3ParserBOOL) then
      EnterOuterAlt 6 ;;; SetState 644 ;;; Match qasm3ParserBOOL ;;; pret tt
    else
    if (_la =? qasm3ParserDURATION) then
      EnterOuterAlt 7 ;;; SetState 645 ;;; Match qasm3ParserDURATION ;;; pret tt
    else
    if (_la =? qasm3ParserSTRETCH) then
      EnterOuterAlt 8 ;;; SetState 646 ;;; Match qasm3ParserSTRETCH ;;; pret tt
    else
    if (_la =? qasm3ParserCOMPLEX) then
      EnterOuterAlt 9 ;;; SetState 647 ;;; Match qasm3ParserCOMPLEX ;;; SetState 652 ;;; p_Sync ;;;
      let% _la := LA1 in
      (if (_la =? qasm3ParserLBRACKET) then
        SetState 648 ;;; Match qasm3ParserLBRACKET ;;; SetState 649 ;;; call RULE_scalarType 0 ;;; SetState 650 ;;;
        Match qasm3ParserRBRACKET ;;; pret tt
       else
        pret tt)
    else
    praise NoViableAltException).
Definition qasm3Parser_ScalarType : PM P (node qasm3Context) :=
  rule_function (p_EnterRule ScalarTypeContext 92) p_ExitRule qasm3Parser_ScalarType_body.

Definition qasm3Parser_QubitType_body : PM P unit :=
  EnterOuterAlt 1 ;;; SetState 656 ;;; Match qasm3ParserQUBIT ;;; SetState 658 ;;; p_Sync ;;;
  let% _la := LA1 in
  (if (_la =? qasm3ParserLBRACKET) then
    SetState 657 ;;; call RULE_designator 0 ;;; pret tt
   else
    pret tt).
Definition qasm3Parser_QubitType : PM P (node qasm3Context) :=
  rule_function (p_EnterRule QubitTypeContext 94) p_ExitRule qasm3Parser_QubitType_body.

Definition qasm3Parser_ArrayType_body : PM P unit :=
  EnterOuterAlt 1 ;;; SetState 660 ;;; Match qasm3ParserARRAY ;;; SetState 661 ;;; Match qasm3ParserLBRACKET ;;;
  SetState 662 ;;; call RULE_scalarType 0 ;;; SetState 663 ;;; Match qasm3ParserCOMMA ;;; SetState 664 ;;;
  call RULE_expressionList 0 ;;; SetState 665 ;;; Match qasm3ParserRBRACKET ;;; pret tt.
Definition qasm3Parser_ArrayType : PM P (node qasm3Context) :=
  rule_function (p_EnterRule ArrayTypeContext 96) p_ExitRule qasm3Parser_ArrayType_body.

Definition qasm3Parser_ArrayReferenceType_body : PM P unit :=
  EnterOuterAlt 1 ;;; SetState 667 ;;;
  (let% _la := LA1 in
    if negb ((_la =? qasm3ParserCONST) || (_la =? qasm3ParserMUTABLE)) then
      p_RecoverInline ;;; pret tt
    else
      ReportMatch ;;; p_Consume ;;; pret tt) ;;;
  SetState 668 ;;; Match qasm3ParserARRAY ;;; SetState 669 ;;; Match qasm3ParserLBRACKET ;;; SetState 670 ;;;
  call RULE_scalarType 0 ;;; SetState 671 ;;; Match qasm3ParserCOMMA ;;; SetState 676 ;;; p_Sync ;;;
  (let% _la := LA1 in
    if (_la =? qasm3ParserBOOL) || (_la =? qasm3ParserBIT) || (_la =? qasm3ParserINT) ||
        (_la =? qasm3ParserUINT) || (_la =? qasm3ParserFLOAT) || (_la =? qasm3ParserANGLE) ||
        (_la =? qasm3ParserCOMPLEX) || (_la =? qasm3ParserARRAY) || (_la =? qasm3ParserDURATION) ||
        (_la =? qasm3ParserSTRETCH) || (_la =? qasm3ParserDURATIONOF) || (_la =? qasm3ParserBooleanLiteral) ||
        (_la =? qasm3ParserLPAREN) || (_la =? qasm3ParserMINUS) || (_la =? qasm3ParserTILDE) ||
        (_la =? qasm3ParserEXCLAMATION_POINT) || (_la =? qasm3ParserImaginaryLiteral) ||
        (_la =? qasm3ParserBinaryIntegerLiteral) || (_la =? qasm3ParserOctalIntegerLiteral) ||
        (_la =? qasm3ParserDecimalIntegerLiteral) || (_la =? qasm3ParserHexIntegerLiteral) ||
        (_la =? qasm3ParserIdentifier) || (_la =? qasm3ParserHardwareQubit) ||
        (_la =? qasm3ParserFloatLiteral) || (_la =? qasm3ParserTimingLiteral) ||
        (_la =? qasm3ParserBitstringLiteral) then
      SetState 672 ;;; call RULE_expressionList 0 ;;; pret tt
    else
    if (_la =? qasm3ParserDIM) then
      SetState 673 ;;; Match qasm3ParserDIM ;;; SetState 674 ;;; Match qasm3ParserEQUALS ;;; SetState 675 ;;;
      call RULE_expression 0 ;;; pret tt
    else
    praise NoViableAltException) ;;;
  SetState 678 ;;; Match qasm3ParserRBRACKET ;;; pret tt.
Definition qasm3Parser_ArrayReferenceType : PM P (node qasm3Context) :=
  rule_function (p_EnterRule ArrayReferenceTypeContext 98) p_ExitRule qasm3Parser_ArrayReferenceType_body.

Definition qasm3Parser_Designator_body : PM P unit :=
  EnterOuterAlt 1 ;;; SetState 680 ;;; Match qasm3ParserLBRACKET ;;; SetState 681 ;;; call RULE_expression 0 ;;;
  SetState 682 ;;; Match qasm3ParserRBRACKET ;;; pret tt.
Definition qasm3Parser_Designator : PM P (node qasm3Context) :=
  rule_function (p_EnterRule DesignatorContext 100) p_ExitRule qasm3Parser_Designator_body.

Definition qasm3Parser_DefcalTarget_body : PM P unit :=
  EnterOuterAlt 1 ;;; SetState 684 ;;;
  (let% _la := LA1 in
    if negb (bit_test 46 [qasm3ParserDELAY; qasm3ParserRESET; qasm3ParserMEASURE] _la ||
        (_la =? qasm3ParserIdentifier)) then
      p_RecoverInline ;;; pret tt
    else
      ReportMatch ;;; p_Consume ;;; pret tt).
Definition qasm3Parser_DefcalTarget : PM P (node qasm3Context) :=
  rule_function (p_EnterRule DefcalTargetContext 102) p_ExitRule qasm3Parser_DefcalTarget_body.

Definition qasm3Parser_DefcalArgumentDefinition_body : PM P unit :=
  SetState 688 ;;; p_Sync ;;;
  (let% _alt := p_AdaptivePredict 74 in
    if _alt =? 1 then
      EnterOuterAlt 1 ;;; SetState 686 ;;; call RULE_expression 0 ;;; pret tt
    else
    if _alt =? 2 then
      EnterOuterAlt 2 ;;; SetState 687 ;;; call RULE_argumentDefinition 0 ;;; pret tt
    else
    pret tt).
Definition qasm3Parser_DefcalArgumentDefinition : PM P (node qasm3Context) :=
  rule_function (p_EnterRule DefcalArgumentDefinitionContext 104) p_ExitRule qasm3Parser_DefcalArgumentDefinition_body.

Definition qasm3Parser_DefcalOperand_body : PM P unit :=
  EnterOuterAlt 1 ;;; SetState 690 ;;;
  (let% _la := LA1 in
    if negb ((_la =? qasm3ParserIdentifier) || (_la =? qasm3ParserHardwareQubit)) then
      p_RecoverInline ;;; pret tt
    else
      ReportMatch ;;; p_Consume ;;; pret tt).
Definition qasm3Parser_DefcalOperand : PM P (node qasm3Context) :=
  rule_function (p_EnterRule DefcalOperandContext 106) p_ExitRule qasm3Parser_DefcalOperand_body.

Definition qasm3Parser_GateOperand_body : PM P unit :=
  SetState 694 ;;; p_Sync ;;;
  (let% _la := LA1 in
    if (_la =? qasm3ParserIdentifier) then
      EnterOuterAlt 1 ;;; SetState 692 ;;; call RULE_indexedIdentifier 0 ;;; pret tt
    else
    if (_la =? qasm3ParserHardwareQubit) then
      EnterOuterAlt 2 ;;; SetState 693 ;;; Match qasm3ParserHardwareQubit ;;; pret tt
    else
    praise NoViableAltException).
Definition qasm3Parser_GateOperand : PM P (node qasm3Context) :=
  rule_function (p_EnterRule GateOperandContext 108) p_ExitRule qasm3Parser_GateOperand_body.

Definition qasm3Parser_ExternArgument_body : PM P unit :=
  SetState 702 ;;; p_Sync ;;;
  (let% _la := LA1 in
    if (_la =? qasm3ParserBOOL) || (_la =? qasm3ParserBIT) || (_la =? qasm3ParserINT) ||
        (_la =? qasm3ParserUINT) || (_la =? qasm3ParserFLOAT) || (_la =? qasm3ParserANGLE) ||
        (_la =? qasm3ParserCOMPLEX) || (_la =? qasm3ParserDURATION) || (_la =? qasm3ParserSTRETCH) then
      EnterOuterAlt 1 ;;; SetState 696 ;;; call RULE_scalarType 0 ;;; pret tt
    else
    if (_la =? qasm3ParserCONST) || (_la =? qasm3ParserMUTABLE) then
      EnterOuterAlt 2 ;;; SetState 697 ;;; call RULE_arrayReferenceType 0 ;;; pret tt
    else
    if (_la =? qasm3ParserCREG) then
      EnterOuterAlt 3 ;;; SetState 698 ;;; Match qasm3ParserCREG ;;; SetState 700 ;;; p_Sync ;;;
      let% _la := LA1 in
      (if (_la =? qasm3ParserLBRACKET) then
        SetState 699 ;;; call RULE_designator 0 ;;; pret tt
       else
        pret tt)
    else
    praise NoViableAltException).
Definition qasm3Parser_ExternArgument : PM P (node qasm3Context) :=
  rule_function (p_EnterRule ExternArgumentContext 110) p_ExitRule qasm3Parser_ExternArgument_body.

Definition qasm3Parser_ArgumentDefinition_body : PM P unit :=
  SetState 718 ;;; p_Sync ;;;
  (let% _la := LA1 in
    if (_la =? qasm3ParserBOOL) || (_la =? qasm3ParserBIT) || (_la =? qasm3ParserINT) ||
        (_la =? qasm3ParserUINT) || (_la =? qasm3ParserFLOAT) || (_la =? qasm3ParserANGLE) ||
        (_la =? qasm3ParserCOMPLEX) || (_la =? qasm3ParserDURATION) || (_la =? qasm3ParserSTRETCH) then
      EnterOuterAlt 1 ;;; SetState 704 ;;; call RULE_scalarType 0 ;;; SetState 705 ;;;
      Match qasm3ParserIdentifier ;;; pret tt
    else
    if (_la =? qasm3ParserQUBIT) then
      EnterOuterAlt 2 ;;; SetState 707 ;;; call RULE_qubitType 0 ;;; SetState 708 ;;;
      Match qasm3ParserIdentifier ;;; pret tt
    else
    if (_la =? qasm3ParserQREG) || (_la =? qasm3ParserCREG) then
      EnterOuterAlt 3 ;;; SetState 710 ;;;
      (let% _la := LA1 in
        if negb ((_la =? qasm3ParserQREG) || (_la =? qasm3ParserCREG)) then
          p_RecoverInline ;;; pret tt
        else
          ReportMatch ;;; p_Consume ;;; pret tt) ;;;
      SetState 711 ;;; Match qasm3ParserIdentifier ;;; SetState 713 ;;; p_Sync ;;;
      let% _la := LA1 in
      (if (_la =? qasm3ParserLBRACKET) then
        SetState 712 ;;; call RULE_designator 0 ;;; pret tt
       else
        pret tt)
    else
    if (_la =? qasm3ParserCONST) || (_la =? qasm3ParserMUTABLE) then
      EnterOuterAlt 4 ;;; SetState 715 ;;; call RULE_arrayReferenceType 0 ;;; SetState 716 ;;;
      Match qasm3ParserIdentifier ;;; pret tt
    else
    praise NoViableAltException).
Definition qasm3Parser_ArgumentDefinition : PM P (node qasm3Context) :=
  rule_function (p_EnterRule ArgumentDefinitionContext 112) p_ExitRule qasm3Parser_ArgumentDefinition_body.

Definition qasm3Parser_ArgumentDefinitionList_body : PM P unit :=
  EnterOuterAlt 1 ;;; SetState 720 ;;; call RULE_argumentDefinition 0 ;;; SetState 725 ;;; p_Sync ;;;
  let% _alt := p_AdaptivePredict 80 in
  for_loop fuel (fun _alt => negb (_alt =? 2) && negb (_alt =? ATNInvalidAltNumber)) (fun _alt =>
      (if _alt =? 1 then
        SetState 721 ;;; Match qasm3ParserCOMMA ;;; SetState 722 ;;; call RULE_argumentDefinition 0 ;;; pret tt
       else
        pret tt))
    (SetState 727 ;;; p_Sync ;;; p_AdaptivePredict 80) _alt ;;;
  SetState 729 ;;; p_Sync ;;;
  let% _la := LA1 in
  (if (_la =? qasm3ParserCOMMA) then
    SetState 728 ;;; Match qasm3ParserCOMMA ;;; pret tt
   else
    pret tt).
Definition qasm3Parser_ArgumentDefinitionList : PM P (node qasm3Context) :=
  rule_function (p_EnterRule ArgumentDefinitionListContext 114) p_ExitRule qasm3Parser_ArgumentDefinitionList_body.

Definition qasm3Parser_DefcalArgumentDefinitionList_body : PM P unit :=
  EnterOuterAlt 1 ;;; SetState 731 ;;; call RULE_defcalArgumentDefinition 0 ;;; SetState 736 ;;; p_Sync ;;;
  let% _alt := p_AdaptivePredict 82 in
  for_loop fuel (fun _alt => negb (_alt =? 2) && negb (_alt =? ATNInvalidAltNumber)) (fun _alt =>
      (if _alt =? 1 then
        SetState 732 ;;; Match qasm3ParserCOMMA ;;; SetState 733 ;;;
        call RULE_defcalArgumentDefinition 0 ;;; pret tt
       else
        pret tt))
    (SetState 738 ;;; p_Sync ;;; p_AdaptivePredict 82) _alt ;;;
  SetState 740 ;;; p_Sync ;;;
  let% _la := LA1 in
  (if (_la =? qasm3ParserCOMMA) then
    SetState 739 ;;; Match qasm3ParserCOMMA ;;; pret tt
   else
    pret tt).
Definition qasm3Parser_DefcalArgumentDefinitionList : PM P (node qasm3Context) :=
  rule_function (p_EnterRule DefcalArgumentDefinitionListContext 116) p_ExitRule qasm3Parser_DefcalArgumentDefinitionList_body.

Definition qasm3Parser_DefcalOperandList_body : PM P unit :=
  EnterOuterAlt 1 ;;; SetState 742 ;;; call RULE_defcalOperand 0 ;;; SetState 747 ;;; p_Sync ;;;
  let% _alt := p_AdaptivePredict 84 in
  for_loop fuel (fun _alt => negb (_alt =? 2) && negb (_alt =? ATNInvalidAltNumber)) (fun _alt =>
      (if _alt =? 1 then
        SetState 743 ;;; Match qasm3ParserCOMMA ;;; SetState 744 ;;; call RULE_defcalOperand 0 ;;; pret tt
       else
        pret tt))
    (SetState 749 ;;; p_Sync ;;; p_AdaptivePredict 84) _alt ;;;
  SetState 751 ;;; p_Sync ;;;
  let% _la := LA1 in
  (if (_la =? qasm3ParserCOMMA) then
    SetState 750 ;;; Match qasm3ParserCOMMA ;;; pret tt
   else
    pret tt).
Definition qasm3Parser_DefcalOperandList : PM P (node qasm3Context) :=
  rule_function (p_EnterRule DefcalOperandListContext 118) p_ExitRule qasm3Parser_DefcalOperandList_body.

Definition qasm3Parser_ExpressionList_body : PM P unit :=
  EnterOuterAlt 1 ;;; SetState 753 ;;; call RULE_expression 0 ;;; SetState 758 ;;; p_Sync ;;;
  let% _alt := p_AdaptivePredict 86 in
  for_loop fuel (fun _alt => negb (_alt =? 2) && negb (_alt =? ATNInvalidAltNumber)) (fun _alt =>
      (if _alt =? 1 then
        SetState 754 ;;; Match qasm3ParserCOMMA ;;; SetState 755 ;;; call RULE_expression 0 ;;; pret tt
       else
        pret tt))
    (SetState 760 ;;; p_Sync ;;; p_AdaptivePredict 86) _alt ;;;
  SetState 762 ;;; p_Sync ;;;
  let% _la := LA1 in
  (if (_la =? qasm3ParserCOMMA) then
    SetState 761 ;;; Match qasm3ParserCOMMA ;;; pret tt
   else
    pret tt).
Definition qasm3Parser_ExpressionList : PM P (node qasm3Context) :=
  rule_function (p_EnterRule ExpressionListContext 120) p_ExitRule qasm3Parser_ExpressionList_body.

Definition qasm3Parser_IdentifierList_body : PM P unit :=
  EnterOuterAlt 1 ;;; SetState 764 ;;; Match qasm3ParserIdentifier ;;; SetState 769 ;;; p_Sync ;;;
  let% _alt := p_AdaptivePredict 88 in
  for_loop fuel (fun _alt => negb (_alt =? 2) && negb (_alt =? ATNInvalidAltNumber)) (fun _alt =>
      (if _alt =? 1 then
        SetState 765 ;;; Match qasm3ParserCOMMA ;;; SetState 766 ;;; Match qasm3ParserIdentifier ;;; pret tt
       else
        pret tt))
    (SetState 771 ;;; p_Sync ;;; p_AdaptivePredict 88) _alt ;;;
  SetState 773 ;;; p_Sync ;;;
  let% _la := LA1 in
  (if (_la =? qasm3ParserCOMMA) then
    SetState 772 ;;; Match qasm3ParserCOMMA ;;; pret tt
   else
    pret tt).
Definition qasm3Parser_IdentifierList : PM P (node qasm3Context) :=
  rule_function (p_EnterRule IdentifierListContext 122) p_ExitRule qasm3Parser_IdentifierList_body.

Definition qasm3Parser_GateOperandList_body : PM P unit :=
  EnterOuterAlt 1 ;;; SetState 775 ;;; call RULE_gateOperand 0 ;;; SetState 780 ;;; p_Sync ;;;
  let% _alt := p_AdaptivePredict 90 in
  for_loop fuel (fun _alt => negb (_alt =? 2) && negb (_alt =? ATNInvalidAltNumber)) (fun _alt =>
      (if _alt =? 1 then
        SetState 776 ;;; Match qasm3ParserCOMMA ;;; SetState 777 ;;; call RULE_gateOperand 0 ;;; pret tt
       else
        pret tt))
    (SetState 782 ;;; p_Sync ;;; p_AdaptivePredict 90) _alt ;;;
  SetState 784 ;;; p_Sync ;;;
  let% _la := LA1 in
  (if (_la =? qasm3ParserCOMMA) then
    SetState 783 ;;; Match qasm3ParserCOMMA ;;; pret tt
   else
    pret tt).
Definition qasm3Parser_GateOperandList : PM P (node qasm3Context) :=
  rule_function (p_EnterRule GateOperandListContext 124) p_ExitRule qasm3Parser_GateOperandList_body.

Definition qasm3Parser_ExternArgumentList_body : PM P unit :=
  EnterOuterAlt 1 ;;; SetState 786 ;;; call RULE_externArgument 0 ;;; SetState 791 ;;; p_Sync ;;;
  let% _alt := p_AdaptivePredict 92 in
  for_loop fuel (fun _alt => negb (_alt =? 2) && negb (_alt =? ATNInvalidAltNumber)) (fun _alt =>
      (if _alt =? 1 then
        SetState 787 ;;; Match qasm3ParserCOMMA ;;; SetState 788 ;;; call RULE_externArgument 0 ;;; pret tt
       else
        pret tt))
    (SetState 793 ;;; p_Sync ;;; p_AdaptivePredict 92) _alt ;;;
  SetState 795 ;;; p_Sync ;;;
  let% _la := LA1 in
  (if (_la =? qasm3ParserCOMMA) then
    SetState 794 ;;; Match qasm3ParserCOMMA ;;; pret tt
   else
    pret tt).
Definition qasm3Parser_ExternArgumentList : PM P (node qasm3Context) :=
  rule_function (p_EnterRule ExternArgumentListContext 126) p_ExitRule qasm3Parser_ExternArgumentList_body.

End qasm3Parser.

(** ** All rules *)

Section run.
Context {P : Type} {PR : ParserRuntime qasm3Context P}.

Definition rule_method (call : qasm3Rule -> Z -> PM P (node qasm3Context)) (fuel : nat) (r : qasm3Rule) (_p : Z)
    : PM P (node qasm3Context) :=
  match r with
  | RULE_program => qasm3Parser_Program call fuel
  | RULE_version => qasm3Parser_Version
  | RULE_statement => qasm3Parser_Statement call fuel
  | RULE_annotation => qasm3Parser_Annotation
  | RULE_scope => qasm3Parser_Scope call fuel
  | RULE_pragma => qasm3Parser_Pragma
  | RULE_statementOrScope => qasm3Parser_StatementOrScope call
  | RULE_calibrationGrammarStatement => qasm3Parser_CalibrationGrammarStatement
  | RULE_includeStatement => qasm3Parser_IncludeStatement
  | RULE_breakStatement => qasm3Parser_BreakStatement
  | RULE_continueStatement => qasm3Parser_ContinueStatement
  | RULE_endStatement => qasm3Parser_EndStatement
  | RULE_forStatement => qasm3Parser_ForStatement call
  | RULE_ifStatement => qasm3Parser_IfStatement call
  | RULE_returnStatement => qasm3Parser_ReturnStatement call
  | RULE_whileStatement => qasm3Parser_WhileStatement call
  | RULE_barrierStatement => qasm3Parser_BarrierStatement call
  | RULE_boxStatement => qasm3Parser_BoxStatement call
  | RULE_delayStatement => qasm3Parser_DelayStatement call
  | RULE_gateCallStatement => qasm3Parser_GateCallStatement call fuel
  | RULE_measureArrowAssignmentStatement => qasm3Parser_MeasureArrowAssignmentStatement call
  | RULE_resetStatement => qasm3Parser_ResetStatement call
  | RULE_aliasDeclarationStatement => qasm3Parser_AliasDeclarationStatement call
  | RULE_classicalDeclarationStatement => qasm3Parser_ClassicalDeclarationStatement call
  | RULE_constDeclarationStatement => qasm3Parser_ConstDeclarationStatement call
  | RULE_ioDeclarationStatement => qasm3Parser_IoDeclarationStatement call
  | RULE_oldStyleDeclarationStatement => qasm3Parser_OldStyleDeclarationStatement call
  | RULE_quantumDeclarationStatement => qasm3Parser_QuantumDeclarationStatement call
  | RULE_defStatement => qasm3Parser_DefStatement call
  | RULE_externStatement => qasm3Parser_ExternStatement call
  | RULE_gateStatement => qasm3Parser_GateStatement call
  | RULE_assignmentStatement => qasm3Parser_AssignmentStatement call
  | RULE_expressionStatement => qasm3Parser_ExpressionStatement call
  | RULE_calStatement => qasm3Parser_CalStatement
  | RULE_defcalStatement => qasm3Parser_DefcalStatement call
  | RULE_expression => qasm3Parser_expression call fuel _p
  | RULE_aliasExpression => qasm3Parser_AliasExpression call fuel
  | RULE_declarationExpression => qasm3Parser_DeclarationExpression call
  | RULE_measureExpression => qasm3Parser_MeasureExpression call
  | RULE_rangeExpression => qasm3Parser_RangeExpression call
  | RULE_setExpression => qasm3Parser_SetExpression call fuel
  | RULE_arrayLiteral => qasm3Parser_ArrayLiteral call fuel
  | RULE_indexOperator => qasm3Parser_IndexOperator call fuel
  | RULE_indexedIdentifier => qasm3Parser_IndexedIdentifier call fuel
  | RULE_returnSignature => qasm3Parser_ReturnSignature call
  | RULE_gateModifier => qasm3Parser_GateModifier call
  | RULE_scalarType => qasm3Parser_ScalarType call
  | RULE_qubitType => qasm3Parser_QubitType call
  | RULE_arrayType => qasm3Parser_ArrayType call
  | RULE_arrayReferenceType => qasm3Parser_ArrayReferenceType call
  | RULE_designator => qasm3Parser_Designator call
  | RULE_defcalTarget => qasm3Parser_DefcalTarget
  | RULE_defcalArgumentDefinition => qasm3Parser_DefcalArgumentDefinition call
  | RULE_defcalOperand => qasm3Parser_DefcalOperand
  | RULE_gateOperand => qasm3Parser_GateOperand call
  | RULE_externArgument => qasm3Parser_ExternArgument call
  | RULE_argumentDefinition => qasm3Parser_ArgumentDefinition call
  | RULE_argumentDefinitionList => qasm3Parser_ArgumentDefinitionList call fuel
  | RULE_defcalArgumentDefinitionList => qasm3Parser_DefcalArgumentDefinitionList call fuel
  | RULE_defcalOperandList => qasm3Parser_DefcalOperandList call fuel
  | RULE_expressionList => qasm3Parser_ExpressionList call fuel
  | RULE_identifierList => qasm3Parser_IdentifierList fuel
  | RULE_gateOperandList => qasm3Parser_GateOperandList call fuel
  | RULE_externArgumentList => qasm3Parser_ExternArgumentList call fuel
  end.

Fixpoint run_rule (fuel : nat) (r : qasm3Rule) (_p : Z) : PM P (node qasm3Context) :=
  match fuel with
  | O => out_of_fuel
  | S fuel' => rule_method (run_rule fuel') fuel' r _p
  end.

(** [p.Program()] *)
Definition Program_parse (fuel : nat) : PM P (node qasm3Context) := run_rule fuel RULE_program 0.

(** The predicates the prediction asks for. *)
Definition qasm3Parser_Expression_Sempred (p : P) (predIndex : Z) : option bool :=
  match predIndex with
  | 0 => Some (p_Precpred 16 p)
  | 1 => Some (p_Precpred 14 p)
  | 2 => Some (p_Precpred 13 p)
  | 3 => Some (p_Precpred 12 p)
  | 4 => Some (p_Precpred 11 p)
  | 5 => Some (p_Precpred 10 p)
  | 6 => Some (p_Precpred 9 p)
  | 7 => Some (p_Precpred 8 p)
  | 8 => Some (p_Precpred 7 p)
  | 9 => Some (p_Precpred 6 p)
  | 10 => Some (p_Precpred 5 p)
  | 11 => Some (p_Precpred 17 p)
  | _ => None
  end.
End run.
