(* ===== verification/Qasm3Sound.v ===== *)
(** * The generated parser follows the grammar

    Every rule function builds contexts of its rule out of the tokens it
    consumes, whatever the prediction answers, and returns: [run_rule_parses].
    [qasm3_rank] orders the rules by what they can call before they consume a
    token. *)

From stdpp Require Import base list strings.
From Stdlib Require Import ZArith Lia.
From S2P Require Import Prelude Antlr AntlrLaws Qasm3Grammar Qasm3Parser.

#[export] Instance qasm3_grammar_laws : GrammarLaws (K := qasm3Context) (R := qasm3Rule).
Proof. split; intros k; destruct k; try reflexivity; discriminate. Qed.

Definition qasm3_rank (r : qasm3Rule) : nat :=
  match r with
    | RULE_gateCallStatement | RULE_measureArrowAssignmentStatement | RULE_classicalDeclarationStatement |
    RULE_quantumDeclarationStatement | RULE_assignmentStatement | RULE_expression | RULE_gateOperand |
    RULE_externArgument | RULE_argumentDefinition | RULE_defcalOperandList => 1
    | RULE_expressionStatement | RULE_aliasExpression | RULE_declarationExpression | RULE_rangeExpression |
    RULE_defcalArgumentDefinition | RULE_argumentDefinitionList | RULE_expressionList | RULE_gateOperandList
    | RULE_externArgumentList => 2
    | RULE_statement | RULE_defcalArgumentDefinitionList => 3
    | RULE_program | RULE_statementOrScope => 4
  | _ => 0
  end.

Lemma quiet_any {K R P} {PR : ParserRuntime K P} {G : Grammar K R} {alts} {PL : ParserLaws K P alts} {A}
    (m : PM P A) (Q : A -> Prop) : quiet (PL := PL) m Q -> quiet (PL := PL) m (fun _ => True).
Proof. intros H p Hp. specialize (H p Hp). destruct (m p) as [[a|e|] p']; [|done..]. split; [apply H|done]. Qed.

Ltac head_of m := lazymatch m with ?f _ => head_of f | ?f => f end.

Section sound.
Context {P : Type} {PR : ParserRuntime qasm3Context P} {PL : ParserLaws qasm3Context P decision_alts}.
Context (call : qasm3Rule -> Z -> PM P (node qasm3Context)) (fuel N : nat).
Local Abbreviation parses := (parses (PL := PL) (G := qasm3_grammar)).
Local Abbreviation quiet := (quiet (PL := PL)).
Hypothesis Hcall : forall n r lvl, lvl = 0 \/ r = RULE_expression /\ lvl <= 18 -> (n * 64 + qasm3_rank r < N)%nat ->
  parses n (call r lvl) (NT r lvl).
Hypothesis Hfuel : (N <= fuel)%nat.

(** *** One tactic for all rules *)

Ltac solve_quiet :=
  lazymatch goal with
  | |- AntlrLaws.quiet (SetState _) _ => apply quiet_SetState
  | |- AntlrLaws.quiet (EnterOuterAlt _) _ => apply quiet_EnterOuterAlt
  | |- AntlrLaws.quiet p_Sync _ => apply quiet_Sync
  | |- AntlrLaws.quiet ReportMatch _ => apply quiet_ReportMatch
  | |- AntlrLaws.quiet (SetField _ _) _ => apply quiet_SetField
  | |- AntlrLaws.quiet (p_AdaptivePredict _) _ => apply quiet_AdaptivePredict
  | |- AntlrLaws.quiet (pret _) _ => eapply quiet_any; apply quiet_ret
  | |- AntlrLaws.quiet (pbind _ _) _ => eapply quiet_bind; [solve_quiet|intros ? _; solve_quiet]
  | |- AntlrLaws.quiet _ _ => apply quiet_get
  end.

(** A test of the next token is membership in a list. *)
Ltac solve_test :=
  let la := fresh "la" in let H := fresh "H" in
  intros la H; repeat (apply orb_true_iff in H as [H|H]);
  first [apply Z.eqb_eq in H; subst la|apply bit_test_spec in H; [|repeat constructor; done]];
  repeat (apply elem_of_cons in H as [->|H]); try (by apply elem_of_nil in H);
  apply (bool_decide_unpack _); vm_compute; exact I.

Ltac compute_null :=
  lazymatch goal with
  | |- AntlrLaws.parses (if ?b then _ else _) _ _ => let b' := eval vm_compute in b in change b with b'; cbv iota
  end.

Ltac parse :=
  lazymatch goal with
  | |- AntlrLaws.parses (if _ then _ else _) _ _ => compute_null; parse
  | |- AntlrLaws.parses _ (praise _) _ => apply parses_raise
  | |- AntlrLaws.parses _ (pbind p_RecoverInline _) _ => apply parses_recover
  | |- AntlrLaws.parses _ (pbind (SetState _) _) _ => eapply parses_quiet; [apply quiet_SetState|intros ? _; parse]
  | |- AntlrLaws.parses _ (pbind (EnterOuterAlt _) _) _ => eapply parses_quiet; [apply quiet_EnterOuterAlt|intros ? _; parse]
  | |- AntlrLaws.parses _ (pbind p_Sync _) _ => eapply parses_quiet; [apply quiet_Sync|intros ? _; parse]
  | |- AntlrLaws.parses _ (pbind (SetField _ _) _) _ => eapply parses_quiet; [apply quiet_SetField|intros ? _; parse]
  | |- AntlrLaws.parses _ (pbind LT1 _) _ => eapply parses_quiet; [apply quiet_get|intros ? _; parse]
  | |- AntlrLaws.parses _ (pbind (p_AdaptivePredict ?d) _) _ =>
      let a := fresh "alt" in let H := fresh "Halt" in
      eapply parses_quiet; [apply quiet_AdaptivePredict|intros a H; cbn in H; parse]
  | |- AntlrLaws.parses _ (pbind LA1 (fun _ => if negb _ then _ else _)) (Tok _) =>
      eapply parses_one_of; [solve_test|apply (bool_decide_unpack _); vm_compute; exact I|intros ?; parse|intros ? ?; solve_quiet]
  | |- AntlrLaws.parses _ (pbind LA1 (fun _ => if negb _ then _ else _)) (Alt _ _) => choose
  | |- AntlrLaws.parses _ (pbind LA1 _) _ => eapply parses_quiet; [apply quiet_get|intros ? _; parse]
  | |- AntlrLaws.parses _ (if ?x =? ?y then _ else _) _ => destruct (Z.eqb_spec x y); parse
  | |- AntlrLaws.parses _ (if ?b then _ else _) _ => destruct b; parse
  | |- AntlrLaws.parses _ (pret _) Eps => apply parses_ret
  | |- AntlrLaws.parses _ (pret _) _ => first [exfalso; lia|choose]
  | |- AntlrLaws.parses _ (for_loop _ _ _ (pbind _ (fun _ => pbind _ (fun _ => p_AdaptivePredict ?d))) _) (Star _) =>
      let H := fresh "Hc" in
      eapply (parses_for _ _ _ _ _ (fun a => 1 <= a <= decision_alts d));
        [lia|cbn; lia
        |intros ? ? ? ? H; cbn in *; apply andb_true_iff in H as [?%negb_true_iff%Z.eqb_neq ?%negb_true_iff%Z.eqb_neq];
         unfold ATNInvalidAltNumber in *; parse
        |reflexivity|solve_next]
  | |- AntlrLaws.parses _ (for_loop _ _ _ _ _) (Star _) =>
      eapply (parses_for _ _ _ _ _ (fun _ => True)); [lia|done|intros; parse|reflexivity|solve_quiet]
  | |- AntlrLaws.parses _ (Match _) (Tok _) => apply parses_match
  | |- AntlrLaws.parses _ (call _ _) (NT _ _) => apply Hcall; [first [by left|right; split; [done|lia]]|cbn; lia]
  | |- AntlrLaws.parses _ (pbind _ _) (Seq _ _) => eapply parses_seq; [parse|intros ?; parse]
  | |- AntlrLaws.parses _ _ (Opt _) => unfold Opt; parse
  | |- AntlrLaws.parses _ _ (Alt _ _) => choose
  | |- AntlrLaws.parses _ (pbind _ _) _ => eapply parses_then; [parse|intros ?; solve_quiet]
  end
with choose := first [apply parses_left; solve [parse]|apply parses_right; solve [parse]]
with solve_next := eapply quiet_bind; [apply quiet_SetState|intros ? _; eapply quiet_bind; [apply quiet_Sync|intros ? _; apply quiet_AdaptivePredict]].

Ltac start_rule n :=
  let Hn := fresh "Hn" in intros Hn; destruct n as [|n]; [apply parses_zero|]; cbn [qasm3_rank] in Hn; cbv delta [qasm3_rhs] iota beta;
  lazymatch goal with |- AntlrLaws.parses _ ?m _ => let h := head_of m in unfold h end.

Lemma Program_parses n : (n * 64 + qasm3_rank RULE_program <= N)%nat ->
  parses n (qasm3Parser_Program_body call fuel) (qasm3_rhs ProgramContext).
Proof. start_rule n. parse. Qed.
Lemma Version_parses n : (n * 64 + qasm3_rank RULE_version <= N)%nat ->
  parses n (qasm3Parser_Version_body) (qasm3_rhs VersionContext).
Proof. start_rule n. parse. Qed.
Lemma Statement_parses n : (n * 64 + qasm3_rank RULE_statement <= N)%nat ->
  parses n (qasm3Parser_Statement_body call fuel) (qasm3_rhs StatementContext).
Proof. start_rule n. parse. Qed.
Lemma Annotation_parses n : (n * 64 + qasm3_rank RULE_annotation <= N)%nat ->
  parses n (qasm3Parser_Annotation_body) (qasm3_rhs AnnotationContext).
Proof. start_rule n. parse. Qed.
Lemma Scope_parses n : (n * 64 + qasm3_rank RULE_scope <= N)%nat ->
  parses n (qasm3Parser_Scope_body call fuel) (qasm3_rhs ScopeContext).
Proof. start_rule n. parse. Qed.
Lemma Pragma_parses n : (n * 64 + qasm3_rank RULE_pragma <= N)%nat ->
  parses n (qasm3Parser_Pragma_body) (qasm3_rhs PragmaContext).
Proof. start_rule n. parse. Qed.
Lemma StatementOrScope_parses n : (n * 64 + qasm3_rank RULE_statementOrScope <= N)%nat ->
  parses n (qasm3Parser_StatementOrScope_body call) (qasm3_rhs StatementOrScopeContext).
Proof. start_rule n. parse. Qed.
Lemma CalibrationGrammarStatement_parses n : (n * 64 + qasm3_rank RULE_calibrationGrammarStatement <= N)%nat ->
  parses n (qasm3Parser_CalibrationGrammarStatement_body) (qasm3_rhs CalibrationGrammarStatementContext).
Proof. start_rule n. parse. Qed.
Lemma IncludeStatement_parses n : (n * 64 + qasm3_rank RULE_includeStatement <= N)%nat ->
  parses n (qasm3Parser_IncludeStatement_body) (qasm3_rhs IncludeStatementContext).
Proof. start_rule n. parse. Qed.
Lemma BreakStatement_parses n : (n * 64 + qasm3_rank RULE_breakStatement <= N)%nat ->
  parses n (qasm3Parser_BreakStatement_body) (qasm3_rhs BreakStatementContext).
Proof. start_rule n. parse. Qed.
Lemma ContinueStatement_parses n : (n * 64 + qasm3_rank RULE_continueStatement <= N)%nat ->
  parses n (qasm3Parser_ContinueStatement_body) (qasm3_rhs ContinueStatementContext).
Proof. start_rule n. parse. Qed.
Lemma EndStatement_parses n : (n * 64 + qasm3_rank RULE_endStatement <= N)%nat ->
  parses n (qasm3Parser_EndStatement_body) (qasm3_rhs EndStatementContext).
Proof. start_rule n. parse. Qed.
Lemma ForStatement_parses n : (n * 64 + qasm3_rank RULE_forStatement <= N)%nat ->
  parses n (qasm3Parser_ForStatement_body call) (qasm3_rhs ForStatementContext).
Proof. start_rule n. parse. Qed.
Lemma IfStatement_parses n : (n * 64 + qasm3_rank RULE_ifStatement <= N)%nat ->
  parses n (qasm3Parser_IfStatement_body call) (qasm3_rhs IfStatementContext).
Proof. start_rule n. parse. Qed.
Lemma ReturnStatement_parses n : (n * 64 + qasm3_rank RULE_returnStatement <= N)%nat ->
  parses n (qasm3Parser_ReturnStatement_body call) (qasm3_rhs ReturnStatementContext).
Proof. start_rule n. parse. Qed.
Lemma WhileStatement_parses n : (n * 64 + qasm3_rank RULE_whileStatement <= N)%nat ->
  parses n (qasm3Parser_WhileStatement_body call) (qasm3_rhs WhileStatementContext).
Proof. start_rule n. parse. Qed.
Lemma BarrierStatement_parses n : (n * 64 + qasm3_rank RULE_barrierStatement <= N)%nat ->
  parses n (qasm3Parser_BarrierStatement_body call) (qasm3_rhs BarrierStatementContext).
Proof. start_rule n. parse. Qed.
Lemma BoxStatement_parses n : (n * 64 + qasm3_rank RULE_boxStatement <= N)%nat ->
  parses n (qasm3Parser_BoxStatement_body call) (qasm3_rhs BoxStatementContext).
Proof. start_rule n. parse. Qed.
Lemma DelayStatement_parses n : (n * 64 + qasm3_rank RULE_delayStatement <= N)%nat ->
  parses n (qasm3Parser_DelayStatement_body call) (qasm3_rhs DelayStatementContext).
Proof. start_rule n. parse. Qed.
Lemma GateCallStatement_parses n : (n * 64 + qasm3_rank RULE_gateCallStatement <= N)%nat ->
  parses n (qasm3Parser_GateCallStatement_body call fuel) (qasm3_rhs GateCallStatementContext).
Proof. start_rule n. parse. Qed.
Lemma MeasureArrowAssignmentStatement_parses n : (n * 64 + qasm3_rank RULE_measureArrowAssignmentStatement <= N)%nat ->
  parses n (qasm3Parser_MeasureArrowAssignmentStatement_body call) (qasm3_rhs MeasureArrowAssignmentStatementContext).
Proof. start_rule n. parse. Qed.
Lemma ResetStatement_parses n : (n * 64 + qasm3_rank RULE_resetStatement <= N)%nat ->
  parses n (qasm3Parser_ResetStatement_body call) (qasm3_rhs ResetStatementContext).
Proof. start_rule n. parse. Qed.
Lemma AliasDeclarationStatement_parses n : (n * 64 + qasm3_rank RULE_aliasDeclarationStatement <= N)%nat ->
  parses n (qasm3Parser_AliasDeclarationStatement_body call) (qasm3_rhs AliasDeclarationStatementContext).
Proof. start_rule n. parse. Qed.
Lemma ClassicalDeclarationStatement_parses n : (n * 64 + qasm3_rank RULE_classicalDeclarationStatement <= N)%nat ->
  parses n (qasm3Parser_ClassicalDeclarationStatement_body call) (qasm3_rhs ClassicalDeclarationStatementContext).
Proof. start_rule n. parse. Qed.
Lemma ConstDeclarationStatement_parses n : (n * 64 + qasm3_rank RULE_constDeclarationStatement <= N)%nat ->
  parses n (qasm3Parser_ConstDeclarationStatement_body call) (qasm3_rhs ConstDeclarationStatementContext).
Proof. start_rule n. parse. Qed.
Lemma IoDeclarationStatement_parses n : (n * 64 + qasm3_rank RULE_ioDeclarationStatement <= N)%nat ->
  parses n (qasm3Parser_IoDeclarationStatement_body call) (qasm3_rhs IoDeclarationStatementContext).
Proof. start_rule n. parse. Qed.
Lemma OldStyleDeclarationStatement_parses n : (n * 64 + qasm3_rank RULE_oldStyleDeclarationStatement <= N)%nat ->
  parses n (qasm3Parser_OldStyleDeclarationStatement_body call) (qasm3_rhs OldStyleDeclarationStatementContext).
Proof. start_rule n. parse. Qed.
Lemma QuantumDeclarationStatement_parses n : (n * 64 + qasm3_rank RULE_quantumDeclarationStatement <= N)%nat ->
  parses n (qasm3Parser_QuantumDeclarationStatement_body call) (qasm3_rhs QuantumDeclarationStatementContext).
Proof. start_rule n. parse. Qed.
Lemma DefStatement_parses n : (n * 64 + qasm3_rank RULE_defStatement <= N)%nat ->
  parses n (qasm3Parser_DefStatement_body call) (qasm3_rhs DefStatementContext).
Proof. start_rule n. parse. Qed.
Lemma ExternStatement_parses n : (n * 64 + qasm3_rank RULE_externStatement <= N)%nat ->
  parses n (qasm3Parser_ExternStatement_body call) (qasm3_rhs ExternStatementContext).
Proof. start_rule n. parse. Qed.
Lemma GateStatement_parses n : (n * 64 + qasm3_rank RULE_gateStatement <= N)%nat ->
  parses n (qasm3Parser_GateStatement_body call) (qasm3_rhs GateStatementContext).
Proof. start_rule n. parse. Qed.
Lemma AssignmentStatement_parses n : (n * 64 + qasm3_rank RULE_assignmentStatement <= N)%nat ->
  parses n (qasm3Parser_AssignmentStatement_body call) (qasm3_rhs AssignmentStatementContext).
Proof. start_rule n. parse. Qed.
Lemma ExpressionStatement_parses n : (n * 64 + qasm3_rank RULE_expressionStatement <= N)%nat ->
  parses n (qasm3Parser_ExpressionStatement_body call) (qasm3_rhs ExpressionStatementContext).
Proof. start_rule n. parse. Qed.
Lemma CalStatement_parses n : (n * 64 + qasm3_rank RULE_calStatement <= N)%nat ->
  parses n (qasm3Parser_CalStatement_body) (qasm3_rhs CalStatementContext).
Proof. start_rule n. parse. Qed.
Lemma DefcalStatement_parses n : (n * 64 + qasm3_rank RULE_defcalStatement <= N)%nat ->
  parses n (qasm3Parser_DefcalStatement_body call) (qasm3_rhs DefcalStatementContext).
Proof. start_rule n. parse. Qed.
Lemma AliasExpression_parses n : (n * 64 + qasm3_rank RULE_aliasExpression <= N)%nat ->
  parses n (qasm3Parser_AliasExpression_body call fuel) (qasm3_rhs AliasExpressionContext).
Proof. start_rule n. parse. Qed.
Lemma DeclarationExpression_parses n : (n * 64 + qasm3_rank RULE_declarationExpression <= N)%nat ->
  parses n (qasm3Parser_DeclarationExpression_body call) (qasm3_rhs DeclarationExpressionContext).
Proof. start_rule n. parse. Qed.
Lemma MeasureExpression_parses n : (n * 64 + qasm3_rank RULE_measureExpression <= N)%nat ->
  parses n (qasm3Parser_MeasureExpression_body call) (qasm3_rhs MeasureExpressionContext).
Proof. start_rule n. parse. Qed.
Lemma RangeExpression_parses n : (n * 64 + qasm3_rank RULE_rangeExpression <= N)%nat ->
  parses n (qasm3Parser_RangeExpression_body call) (qasm3_rhs RangeExpressionContext).
Proof. start_rule n. parse. Qed.
Lemma SetExpression_parses n : (n * 64 + qasm3_rank RULE_setExpression <= N)%nat ->
  parses n (qasm3Parser_SetExpression_body call fuel) (qasm3_rhs SetExpressionContext).
Proof. start_rule n. parse. Qed.
Lemma ArrayLiteral_parses n : (n * 64 + qasm3_rank RULE_arrayLiteral <= N)%nat ->
  parses n (qasm3Parser_ArrayLiteral_body call fuel) (qasm3_rhs ArrayLiteralContext).
Proof. start_rule n. parse. Qed.
Lemma IndexOperator_parses n : (n * 64 + qasm3_rank RULE_indexOperator <= N)%nat ->
  parses n (qasm3Parser_IndexOperator_body call fuel) (qasm3_rhs IndexOperatorContext).
Proof. start_rule n. parse. Qed.
Lemma IndexedIdentifier_parses n : (n * 64 + qasm3_rank RULE_indexedIdentifier <= N)%nat ->
  parses n (qasm3Parser_IndexedIdentifier_body call fuel) (qasm3_rhs IndexedIdentifierContext).
Proof. start_rule n. parse. Qed.
Lemma ReturnSignature_parses n : (n * 64 + qasm3_rank RULE_returnSignature <= N)%nat ->
  parses n (qasm3Parser_ReturnSignature_body call) (qasm3_rhs ReturnSignatureContext).
Proof. start_rule n. parse. Qed.
Lemma GateModifier_parses n : (n * 64 + qasm3_rank RULE_gateModifier <= N)%nat ->
  parses n (qasm3Parser_GateModifier_body call) (qasm3_rhs GateModifierContext).
Proof. start_rule n. parse. Qed.
Lemma ScalarType_parses n : (n * 64 + qasm3_rank RULE_scalarType <= N)%nat ->
  parses n (qasm3Parser_ScalarType_body call) (qasm3_rhs ScalarTypeContext).
Proof. start_rule n. parse. Qed.
Lemma QubitType_parses n : (n * 64 + qasm3_rank RULE_qubitType <= N)%nat ->
  parses n (qasm3Parser_QubitType_body call) (qasm3_rhs QubitTypeContext).
Proof. start_rule n. parse. Qed.
Lemma ArrayType_parses n : (n * 64 + qasm3_rank RULE_arrayType <= N)%nat ->
  parses n (qasm3Parser_ArrayType_body call) (qasm3_rhs ArrayTypeContext).
Proof. start_rule n. parse. Qed.
Lemma ArrayReferenceType_parses n : (n * 64 + qasm3_rank RULE_arrayReferenceType <= N)%nat ->
  parses n (qasm3Parser_ArrayReferenceType_body call) (qasm3_rhs ArrayReferenceTypeContext).
Proof. start_rule n. parse. Qed.
Lemma Designator_parses n : (n * 64 + qasm3_rank RULE_designator <= N)%nat ->
  parses n (qasm3Parser_Designator_body call) (qasm3_rhs DesignatorContext).
Proof. start_rule n. parse. Qed.
Lemma DefcalTarget_parses n : (n * 64 + qasm3_rank RULE_defcalTarget <= N)%nat ->
  parses n (qasm3Parser_DefcalTarget_body) (qasm3_rhs DefcalTargetContext).
Proof. start_rule n. parse. Qed.
Lemma DefcalArgumentDefinition_parses n : (n * 64 + qasm3_rank RULE_defcalArgumentDefinition <= N)%nat ->
  parses n (qasm3Parser_DefcalArgumentDefinition_body call) (qasm3_rhs DefcalArgumentDefinitionContext).
Proof. start_rule n. parse. Qed.
Lemma DefcalOperand_parses n : (n * 64 + qasm3_rank RULE_defcalOperand <= N)%nat ->
  parses n (qasm3Parser_DefcalOperand_body) (qasm3_rhs DefcalOperandContext).
Proof. start_rule n. parse. Qed.
Lemma GateOperand_parses n : (n * 64 + qasm3_rank RULE_gateOperand <= N)%nat ->
  parses n (qasm3Parser_GateOperand_body call) (qasm3_rhs GateOperandContext).
Proof. start_rule n. parse. Qed.
Lemma ExternArgument_parses n : (n * 64 + qasm3_rank RULE_externArgument <= N)%nat ->
  parses n (qasm3Parser_ExternArgument_body call) (qasm3_rhs ExternArgumentContext).
Proof. start_rule n. parse. Qed.
Lemma ArgumentDefinition_parses n : (n * 64 + qasm3_rank RULE_argumentDefinition <= N)%nat ->
  parses n (qasm3Parser_ArgumentDefinition_body call) (qasm3_rhs ArgumentDefinitionContext).
Proof. start_rule n. parse. Qed.
Lemma ArgumentDefinitionList_parses n : (n * 64 + qasm3_rank RULE_argumentDefinitionList <= N)%nat ->
  parses n (qasm3Parser_ArgumentDefinitionList_body call fuel) (qasm3_rhs ArgumentDefinitionListContext).
Proof. start_rule n. parse. Qed.
Lemma DefcalArgumentDefinitionList_parses n : (n * 64 + qasm3_rank RULE_defcalArgumentDefinitionList <= N)%nat ->
  parses n (qasm3Parser_DefcalArgumentDefinitionList_body call fuel) (qasm3_rhs DefcalArgumentDefinitionListContext).
Proof. start_rule n. parse. Qed.
Lemma DefcalOperandList_parses n : (n * 64 + qasm3_rank RULE_defcalOperandList <= N)%nat ->
  parses n (qasm3Parser_DefcalOperandList_body call fuel) (qasm3_rhs DefcalOperandListContext).
Proof. start_rule n. parse. Qed.
Lemma ExpressionList_parses n : (n * 64 + qasm3_rank RULE_expressionList <= N)%nat ->
  parses n (qasm3Parser_ExpressionList_body call fuel) (qasm3_rhs ExpressionListContext).
Proof. start_rule n. parse. Qed.
Lemma IdentifierList_parses n : (n * 64 + qasm3_rank RULE_identifierList <= N)%nat ->
  parses n (qasm3Parser_IdentifierList_body fuel) (qasm3_rhs IdentifierListContext).
Proof. start_rule n. parse. Qed.
Lemma GateOperandList_parses n : (n * 64 + qasm3_rank RULE_gateOperandList <= N)%nat ->
  parses n (qasm3Parser_GateOperandList_body call fuel) (qasm3_rhs GateOperandListContext).
Proof. start_rule n. parse. Qed.
Lemma ExternArgumentList_parses n : (n * 64 + qasm3_rank RULE_externArgumentList <= N)%nat ->
  parses n (qasm3Parser_ExternArgumentList_body call fuel) (qasm3_rhs ExternArgumentListContext).
Proof. start_rule n. parse. Qed.

(** *** expression *)

Ltac start_expression n :=
  let Hn := fresh "Hn" in intros Hn; destruct n as [|n]; [intros; intros p f fs qs _ _ Hr; destruct Hr as (_ & ? & _); lia|]; cbn [qasm3_rank] in Hn.

Lemma primary_becomes n q : (n * 64 + qasm3_rank RULE_expression <= N)%nat -> q <= 18 ->
  becomes (PL := PL) n q (qasm3Parser_expression_primary call)
    (fun f => f_children f = []) (operand RULE_expression q).
Proof.
  start_expression n. intros Hq. unfold qasm3Parser_expression_primary.
  do 3 (eapply becomes_quiet; [by intros ? ? ? ?|solve_quiet|intros ? _]).
  eapply becomes_quiet; [by intros ? ? ? ?|apply quiet_AdaptivePredict|intros alt Halt; cbn in Halt].
  repeat match goal with |- becomes _ _ (if ?x =? ?y then _ else _) _ _ => destruct (Z.eqb_spec x y) end;
    [apply becomes_alternative; [done|reflexivity|cbn; lia|done|done|cbn; parse]..|exfalso; lia].
Qed.

Lemma operator_becomes n q s : (n * 64 + qasm3_rank RULE_expression <= N)%nat ->
  becomes (PL := PL) n q (qasm3Parser_expression_operator call s)
    (operand RULE_expression q) (operand RULE_expression q).
Proof.
  start_expression n. unfold qasm3Parser_expression_operator.
  eapply becomes_quiet; [apply operand_insensitive|apply quiet_AdaptivePredict|intros alt Halt; cbn in Halt].
  repeat match goal with |- becomes _ _ (if ?x =? ?y then _ else _) _ _ => destruct (Z.eqb_spec x y) end;
    [eapply becomes_operator; [done|cbn; lia|reflexivity|reflexivity|parse]..|exfalso; lia].
Qed.

Lemma expression_parses n q : (n * 64 + qasm3_rank RULE_expression <= N)%nat -> q <= 18 ->
  parses n (qasm3Parser_expression call fuel q) (NT RULE_expression q).
Proof.
  intros Hn Hq. unfold qasm3Parser_expression, qasm3Parser_expression_body. cbv zeta.
  apply parses_recursion; [by apply primary_becomes|]. intros _.
  do 3 (eapply continues_quiet; [first [solve_quiet|apply (quiet_do _ (fun _ => True)); [apply law_SetStop|done]]|intros ? _]).
  eapply continues_quiet; [apply quiet_AdaptivePredict|intros alt Halt; cbn in Halt].
  eapply (continues_for _ _ _ _ _ _ _ (fun a => 1 <= a <= decision_alts 45)); [lia|cbn; lia|solve_next|].
  intros x n' Hn' Hx Hc. cbn in Hx, Hc. cbn beta iota. apply andb_true_iff in Hc as [?%negb_true_iff%Z.eqb_neq _].
  destruct (Z.eqb_spec x 1); [|exfalso; lia].
  eapply becomes_quiet; [apply operand_insensitive|apply quiet_get|intros ls _].
  eapply becomes_quiet; [apply operand_insensitive| |intros ? _].
  { destruct ls; [apply (quiet_do _ (fun _ => True)); [apply law_TriggerExitRuleEvent|done]|solve_quiet]. }
  do 2 (eapply becomes_quiet; [apply operand_insensitive|solve_quiet|intros ? _]). apply operator_becomes. lia.
Qed.
End sound.

(** ** Every rule *)

Section run.
Context {P : Type} {PR : ParserRuntime qasm3Context P} {PL : ParserLaws qasm3Context P decision_alts}.

(** A rule, from the lemma on its body. *)
Ltac rule_case lem Hf IH Hlvl :=
  match goal with |- AntlrLaws.parses _ ?m _ => let h := head_of m in unfold h end;
  match goal with
  | |- AntlrLaws.parses _ (rule_function (p_EnterRule ?k ?s) _ _) (NT _ ?l) => apply (parses_rule (G := qasm3_grammar) _ k s _ l)
  end;
  [eapply lem; first [exact IH|exact Hf|apply Nat.le_refl|lia]|reflexivity|exact Hlvl].

(** Whatever rule is run, with fuel for the tokens ahead. *)
Lemma run_rule_parses fuel n r lvl : lvl = 0 \/ r = RULE_expression /\ lvl <= 18 -> (n * 64 + qasm3_rank r < fuel)%nat ->
  parses (PL := PL) (G := qasm3_grammar) n (run_rule fuel r lvl) (NT r lvl).
Proof.
  revert n r lvl. induction fuel as [|fuel IH]; intros n r lvl Hl Hn; [lia|]. cbn [run_rule].
  assert (lvl <= 18) as Hlvl by (destruct Hl as [->|[_ ?]]; lia).
  assert (n * 64 + qasm3_rank r <= fuel)%nat as Hf by lia.
  destruct r; cbn [rule_method].
  - rule_case Program_parses Hf IH Hlvl.
  - rule_case Version_parses Hf IH Hlvl.
  - rule_case Statement_parses Hf IH Hlvl.
  - rule_case Annotation_parses Hf IH Hlvl.
  - rule_case Scope_parses Hf IH Hlvl.
  - rule_case Pragma_parses Hf IH Hlvl.
  - rule_case StatementOrScope_parses Hf IH Hlvl.
  - rule_case CalibrationGrammarStatement_parses Hf IH Hlvl.
  - rule_case IncludeStatement_parses Hf IH Hlvl.
  - rule_case BreakStatement_parses Hf IH Hlvl.
  - rule_case ContinueStatement_parses Hf IH Hlvl.
  - rule_case EndStatement_parses Hf IH Hlvl.
  - rule_case ForStatement_parses Hf IH Hlvl.
  - rule_case IfStatement_parses Hf IH Hlvl.
  - rule_case ReturnStatement_parses Hf IH Hlvl.
  - rule_case WhileStatement_parses Hf IH Hlvl.
  - rule_case BarrierStatement_parses Hf IH Hlvl.
  - rule_case BoxStatement_parses Hf IH Hlvl.
  - rule_case DelayStatement_parses Hf IH Hlvl.
  - rule_case GateCallStatement_parses Hf IH Hlvl.
  - rule_case MeasureArrowAssignmentStatement_parses Hf IH Hlvl.
  - rule_case ResetStatement_parses Hf IH Hlvl.
  - rule_case AliasDeclarationStatement_parses Hf IH Hlvl.
  - rule_case ClassicalDeclarationStatement_parses Hf IH Hlvl.
  - rule_case ConstDeclarationStatement_parses Hf IH Hlvl.
  - rule_case IoDeclarationStatement_parses Hf IH Hlvl.
  - rule_case OldStyleDeclarationStatement_parses Hf IH Hlvl.
  - rule_case QuantumDeclarationStatement_parses Hf IH Hlvl.
  - rule_case DefStatement_parses Hf IH Hlvl.
  - rule_case ExternStatement_parses Hf IH Hlvl.
  - rule_case GateStatement_parses Hf IH Hlvl.
  - rule_case AssignmentStatement_parses Hf IH Hlvl.
  - rule_case ExpressionStatement_parses Hf IH Hlvl.
  - rule_case CalStatement_parses Hf IH Hlvl.
  - rule_case DefcalStatement_parses Hf IH Hlvl.
  - apply (expression_parses _ fuel fuel); [exact IH|lia|exact Hf|exact Hlvl].
  - rule_case AliasExpression_parses Hf IH Hlvl.
  - rule_case DeclarationExpression_parses Hf IH Hlvl.
  - rule_case MeasureExpression_parses Hf IH Hlvl.
  - rule_case RangeExpression_parses Hf IH Hlvl.
  - rule_case SetExpression_parses Hf IH Hlvl.
  - rule_case ArrayLiteral_parses Hf IH Hlvl.
  - rule_case IndexOperator_parses Hf IH Hlvl.
  - rule_case IndexedIdentifier_parses Hf IH Hlvl.
  - rule_case ReturnSignature_parses Hf IH Hlvl.
  - rule_case GateModifier_parses Hf IH Hlvl.
  - rule_case ScalarType_parses Hf IH Hlvl.
  - rule_case QubitType_parses Hf IH Hlvl.
  - rule_case ArrayType_parses Hf IH Hlvl.
  - rule_case ArrayReferenceType_parses Hf IH Hlvl.
  - rule_case Designator_parses Hf IH Hlvl.
  - rule_case DefcalTarget_parses Hf IH Hlvl.
  - rule_case DefcalArgumentDefinition_parses Hf IH Hlvl.
  - rule_case DefcalOperand_parses Hf IH Hlvl.
  - rule_case GateOperand_parses Hf IH Hlvl.
  - rule_case ExternArgument_parses Hf IH Hlvl.
  - rule_case ArgumentDefinition_parses Hf IH Hlvl.
  - rule_case ArgumentDefinitionList_parses Hf IH Hlvl.
  - rule_case DefcalArgumentDefinitionList_parses Hf IH Hlvl.
  - rule_case DefcalOperandList_parses Hf IH Hlvl.
  - rule_case ExpressionList_parses Hf IH Hlvl.
  - rule_case IdentifierList_parses Hf IH Hlvl.
  - rule_case GateOperandList_parses Hf IH Hlvl.
  - rule_case ExternArgumentList_parses Hf IH Hlvl.
Qed.

Lemma program_ends ns : matches (G := qasm3_grammar) (qasm3_rhs ProgramContext) ns -> Exists is_eof ns.
Proof.
  cbn [qasm3_rhs]. intros H. inversion H as [| | |? ? n1 n2 _ H2| | | |]; subst.
  inversion H2 as [| | |? ? n3 n4 _ H4| | | |]; subst. inversion H4 as [? t Ht| | | | | | |]; subst.
  apply Exists_app. right. apply Exists_app. right. apply Exists_cons. left. exists t. split; [done|].
  by apply list_elem_of_singleton in Ht.
Qed.

(** The parser started on a list of tokens, with fuel for their number. *)
Lemma program_parse_built p ts fuel : view_of p = mkView ts [] [] -> Forall no_eof ts ->
  (64 * length ts + 128 <= fuel)%nat ->
  match Program_parse fuel p with
  | (Ok nd, p') => exists ls ns, nd = Node ProgramContext ls ns /\ matches (G := qasm3_grammar) (qasm3_rhs ProgramContext) ns /\
      Forall (derives (G := qasm3_grammar)) ns /\ tokens ns = ts /\ v_input (view_of p') = []
  | (Raise _, _) => True
  | (OutOfFuel, _) => False
  end.
Proof.
  intros Hv Hts Hfuel. unfold Program_parse. destruct fuel as [|fuel]; [lia|]. cbn [run_rule rule_method].
  unfold qasm3Parser_Program. set (n := S (length ts)).
  assert (n * 64 + qasm3_rank RULE_program <= fuel)%nat as Hf by (cbn [qasm3_rank]; lia).
  pose proof (Program_parses (PL := PL) (run_rule fuel) fuel fuel
    (fun n r lvl Hl Hn => run_rule_parses fuel n r lvl Hl Hn) ltac:(lia) n Hf) as Hb.
  pose proof (rule_function_built n ProgramContext 0 _ p Hb) as H. rewrite Hv in H. cbn [v_input] in H.
  specialize (H ltac:(lia) Hts). destruct (rule_function _ _ _ p) as [[nd|e|] p']; [|done..].
  destruct H as (ls & ns & -> & Hm & Hd & Hi & He & _). pose proof (He (program_ends ns Hm)) as Hend.
  rewrite Hend, app_nil_r in Hi. exists ls, ns. by repeat split.
Qed.

(** C7: The generated parser follows the grammar and returns, whatever the
    prediction answers.  Started on a list of tokens, with fuel for their number,
    the parser either panics or returns a program context whose tree is a
    derivation of the grammar of qasm3Parser.g4, right operands bound by their
    precedence, made of exactly these tokens in order; it never runs on. *)
Theorem program_parse_sound p ts fuel : view_of p = mkView ts [] [] -> Forall no_eof ts ->
  (64 * length ts + 128 <= fuel)%nat ->
  match Program_parse fuel p with
  | (Ok nd, p') => (exists ls ns, nd = Node ProgramContext ls ns) /\ derives (G := qasm3_grammar) nd /\
      node_tokens nd = ts /\ v_input (view_of p') = []
  | (Raise _, _) => True
  | (OutOfFuel, _) => False
  end.
Proof.
  intros Hv Hts Hfuel. pose proof (program_parse_built p ts fuel Hv Hts Hfuel) as H.
  destruct (Program_parse fuel p) as [[nd|e|] p']; [|done..]. destruct H as (ls & ns & -> & Hm & Hd & Ht & Hi).
  split; [by eauto|]. split; [by constructor|]. split; [by rewrite node_tokens_node|done].
Qed.
End run.
