(* ===== verification/Qasm3Contexts.v ===== *)
(** * The contexts of the parser (core/parser/qasm3_parser.go)

    Every accessor of every generated context type, by the name of its type and
    method, and the getters and setters of the labels.  [qasm3_accessors] lists
    the accessors of each kind of context; [context_accessors_exact] shows that
    on a context of a parsed tree they return every child exactly once. *)

From stdpp Require Import base list strings.
From Stdlib Require Import ZArith Lia.
From S2P Require Import Prelude Antlr AntlrLaws AntlrContexts Qasm3Grammar.

#[export] Instance qasm3Rule_eq_dec : EqDecision qasm3Rule.
Proof. solve_decision. Defined.

Section contexts.
Context {CR : ContextRuntime qasm3Context}.

(** [ProgramContext] *)
Definition ProgramContext_EOF (s : node qasm3Context) : option (node qasm3Context) := GetToken s qasm3ParserEOF 0.
Definition ProgramContext_Version (s : node qasm3Context) : option (node qasm3Context) :=
  first_context (is_context RULE_version) s.
Definition ProgramContext_AllStatement (s : node qasm3Context) : list (option (node qasm3Context)) :=
  all_contexts (is_context RULE_statement) s.
Definition ProgramContext_Statement (s : node qasm3Context) (i : Z) : option (node qasm3Context) :=
  nth_context (is_context RULE_statement) s i.

(** [VersionContext] *)
Definition VersionContext_OPENQASM (s : node qasm3Context) : option (node qasm3Context) :=
  GetToken s qasm3ParserOPENQASM 0.
Definition VersionContext_VersionSpecifier (s : node qasm3Context) : option (node qasm3Context) :=
  GetToken s qasm3ParserVersionSpecifier 0.
Definition VersionContext_SEMICOLON (s : node qasm3Context) : option (node qasm3Context) :=
  GetToken s qasm3ParserSEMICOLON 0.

(** [StatementContext] *)
Definition StatementContext_Pragma (s : node qasm3Context) : option (node qasm3Context) :=
  first_context (is_context RULE_pragma) s.
Definition StatementContext_AliasDeclarationStatement (s : node qasm3Context) : option (node qasm3Context) :=
  first_context (is_context RULE_aliasDeclarationStatement) s.
Definition StatementContext_AssignmentStatement (s : node qasm3Context) : option (node qasm3Context) :=
  first_context (is_context RULE_assignmentStatement) s.
Definition StatementContext_BarrierStatement (s : node qasm3Context) : option (node qasm3Context) :=
  first_context (is_context RULE_barrierStatement) s.
Definition StatementContext_BoxStatement (s : node qasm3Context) : option (node qasm3Context) :=
  first_context (is_context RULE_boxStatement) s.
Definition StatementContext_BreakStatement (s : node qasm3Context) : option (node qasm3Context) :=
  first_context (is_context RULE_breakStatement) s.
Definition StatementContext_CalStatement (s : node qasm3Context) : option (node qasm3Context) :=
  first_context (is_context RULE_calStatement) s.
Definition StatementContext_CalibrationGrammarStatement (s : node qasm3Context) : option (node qasm3Context) :=
  first_context (is_context RULE_calibrationGrammarStatement) s.
Definition StatementContext_ClassicalDeclarationStatement (s : node qasm3Context) : option (node qasm3Context) :=
  first_context (is_context RULE_classicalDeclarationStatement) s.
Definition StatementContext_ConstDeclarationStatement (s : node qasm3Context) : option (node qasm3Context) :=
  first_context (is_context RULE_constDeclarationStatement) s.
Definition StatementContext_ContinueStatement (s : node qasm3Context) : option (node qasm3Context) :=
  first_context (is_context RULE_continueStatement) s.
Definition StatementContext_DefStatement (s : node qasm3Context) : option (node qasm3Context) :=
  first_context (is_context RULE_defStatement) s.
Definition StatementContext_DefcalStatement (s : node qasm3Context) : option (node qasm3Context) :=
  first_context (is_context RULE_defcalStatement) s.
Definition StatementContext_DelayStatement (s : node qasm3Context) : option (node qasm3Context) :=
  first_context (is_context RULE_delayStatement) s.
Definition StatementContext_EndStatement (s : node qasm3Context) : option (node qasm3Context) :=
  first_context (is_context RULE_endStatement) s.
Definition StatementContext_ExpressionStatement (s : node qasm3Context) : option (node qasm3Context) :=
  first_context (is_context RULE_expressionStatement) s.
Definition StatementContext_ExternStatement (s : node qasm3Context) : option (node qasm3Context) :=
  first_context (is_context RULE_externStatement) s.
Definition StatementContext_ForStatement (s : node qasm3Context) : option (node qasm3Context) :=
  first_context (is_context RULE_forStatement) s.
Definition StatementContext_GateCallStatement (s : node qasm3Context) : option (node qasm3Context) :=
  first_context (is_context RULE_gateCallStatement) s.
Definition StatementContext_GateStatement (s : node qasm3Context) : option (node qasm3Context) :=
  first_context (is_context RULE_gateStatement) s.
Definition StatementContext_IfStatement (s : node qasm3Context) : option (node qasm3Context) :=
  first_context (is_context RULE_ifStatement) s.
Definition StatementContext_IncludeStatement (s : node qasm3Context) : option (node qasm3Context) :=
  first_context (is_context RULE_includeStatement) s.
Definition StatementContext_IoDeclarationStatement (s : node qasm3Context) : option (node qasm3Context) :=
  first_context (is_context RULE_ioDeclarationStatement) s.
Definition StatementContext_MeasureArrowAssignmentStatement (s : node qasm3Context) : option (node qasm3Context) :=
  first_context (is_context RULE_measureArrowAssignmentStatement) s.
Definition StatementContext_OldStyleDeclarationStatement (s : node qasm3Context) : option (node qasm3Context) :=
  first_context (is_context RULE_oldStyleDeclarationStatement) s.
Definition StatementContext_QuantumDeclarationStatement (s : node qasm3Context) : option (node qasm3Context) :=
  first_context (is_context RULE_quantumDeclarationStatement) s.
Definition StatementContext_ResetStatement (s : node qasm3Context) : option (node qasm3Context) :=
  first_context (is_context RULE_resetStatement) s.
Definition StatementContext_ReturnStatement (s : node qasm3Context) : option (node qasm3Context) :=
  first_context (is_context RULE_returnStatement) s.
Definition StatementContext_WhileStatement (s : node qasm3Context) : option (node qasm3Context) :=
  first_context (is_context RULE_whileStatement) s.
Definition StatementContext_AllAnnotation (s : node qasm3Context) : list (option (node qasm3Context)) :=
  all_contexts (is_context RULE_annotation) s.
Definition StatementContext_Annotation (s : node qasm3Context) (i : Z) : option (node qasm3Context) :=
  nth_context (is_context RULE_annotation) s i.

(** [AnnotationContext] *)
Definition AnnotationContext_AnnotationKeyword (s : node qasm3Context) : option (node qasm3Context) :=
  GetToken s qasm3ParserAnnotationKeyword 0.
Definition AnnotationContext_RemainingLineContent (s : node qasm3Context) : option (node qasm3Context) :=
  GetToken s qasm3ParserRemainingLineContent 0.

(** [ScopeContext] *)
Definition ScopeContext_LBRACE (s : node qasm3Context) : option (node qasm3Context) :=
  GetToken s qasm3ParserLBRACE 0.
Definition ScopeContext_RBRACE (s : node qasm3Context) : option (node qasm3Context) :=
  GetToken s qasm3ParserRBRACE 0.
Definition ScopeContext_AllStatement (s : node qasm3Context) : list (option (node qasm3Context)) :=
  all_contexts (is_context RULE_statement) s.
Definition ScopeContext_Statement (s : node qasm3Context) (i : Z) : option (node qasm3Context) :=
  nth_context (is_context RULE_statement) s i.

(** [PragmaContext] *)
Definition PragmaContext_PRAGMA (s : node qasm3Context) : option (node qasm3Context) :=
  GetToken s qasm3ParserPRAGMA 0.
Definition PragmaContext_RemainingLineContent (s : node qasm3Context) : option (node qasm3Context) :=
  GetToken s qasm3ParserRemainingLineContent 0.

(** [StatementOrScopeContext] *)
Definition StatementOrScopeContext_Statement (s : node qasm3Context) : option (node qasm3Context) :=
  first_context (is_context RULE_statement) s.
Definition StatementOrScopeContext_Scope (s : node qasm3Context) : option (node qasm3Context) :=
  first_context (is_context RULE_scope) s.

(** [CalibrationGrammarStatementContext] *)
Definition CalibrationGrammarStatementContext_DEFCALGRAMMAR (s : node qasm3Context) : option (node qasm3Context) :=
  GetToken s qasm3ParserDEFCALGRAMMAR 0.
Definition CalibrationGrammarStatementContext_StringLiteral (s : node qasm3Context) : option (node qasm3Context) :=
  GetToken s qasm3ParserStringLiteral 0.
Definition CalibrationGrammarStatementContext_SEMICOLON (s : node qasm3Context) : option (node qasm3Context) :=
  GetToken s qasm3ParserSEMICOLON 0.

(** [IncludeStatementContext] *)
Definition IncludeStatementContext_INCLUDE (s : node qasm3Context) : option (node qasm3Context) :=
  GetToken s qasm3ParserINCLUDE 0.
Definition IncludeStatementContext_StringLiteral (s : node qasm3Context) : option (node qasm3Context) :=
  GetToken s qasm3ParserStringLiteral 0.
Definition IncludeStatementContext_SEMICOLON (s : node qasm3Context) : option (node qasm3Context) :=
  GetToken s qasm3ParserSEMICOLON 0.

(** [BreakStatementContext] *)
Definition BreakStatementContext_BREAK (s : node qasm3Context) : option (node qasm3Context) :=
  GetToken s qasm3ParserBREAK 0.
Definition BreakStatementContext_SEMICOLON (s : node qasm3Context) : option (node qasm3Context) :=
  GetToken s qasm3ParserSEMICOLON 0.

(** [ContinueStatementContext] *)
Definition ContinueStatementContext_CONTINUE (s : node qasm3Context) : option (node qasm3Context) :=
  GetToken s qasm3ParserCONTINUE 0.
Definition ContinueStatementContext_SEMICOLON (s : node qasm3Context) : option (node qasm3Context) :=
  GetToken s qasm3ParserSEMICOLON 0.

(** [EndStatementContext] *)
Definition EndStatementContext_END (s : node qasm3Context) : option (node qasm3Context) :=
  GetToken s qasm3ParserEND 0.
Definition EndStatementContext_SEMICOLON (s : node qasm3Context) : option (node qasm3Context) :=
  GetToken s qasm3ParserSEMICOLON 0.

(** [ForStatementContext] *)
Definition ForStatementContext_GetBody (s : node qasm3Context) : option (node qasm3Context) := label "body" s.
Definition ForStatementContext_SetBody (v s : node qasm3Context) : node qasm3Context := set_label "body" v s.
Definition ForStatementContext_FOR (s : node qasm3Context) : option (node qasm3Context) :=
  GetToken s qasm3ParserFOR 0.
Definition ForStatementContext_ScalarType (s : node qasm3Context) : option (node qasm3Context) :=
  first_context (is_context RULE_scalarType) s.
Definition ForStatementContext_AllIdentifier (s : node qasm3Context) : list (node qasm3Context) :=
  GetTokens s qasm3ParserIdentifier.
Definition ForStatementContext_Identifier (s : node qasm3Context) (i : Z) : option (node qasm3Context) :=
  GetToken s qasm3ParserIdentifier i.
Definition ForStatementContext_IN (s : node qasm3Context) : option (node qasm3Context) :=
  GetToken s qasm3ParserIN 0.
Definition ForStatementContext_StatementOrScope (s : node qasm3Context) : option (node qasm3Context) :=
  first_context (is_context RULE_statementOrScope) s.
Definition ForStatementContext_SetExpression (s : node qasm3Context) : option (node qasm3Context) :=
  first_context (is_context RULE_setExpression) s.
Definition ForStatementContext_LBRACKET (s : node qasm3Context) : option (node qasm3Context) :=
  GetToken s qasm3ParserLBRACKET 0.
Definition ForStatementContext_RangeExpression (s : node qasm3Context) : option (node qasm3Context) :=
  first_context (is_context RULE_rangeExpression) s.
Definition ForStatementContext_RBRACKET (s : node qasm3Context) : option (node qasm3Context) :=
  GetToken s qasm3ParserRBRACKET 0.

(** [IfStatementContext] *)
Definition IfStatementContext_GetIf_body (s : node qasm3Context) : option (node qasm3Context) := label "if_body" s.
Definition IfStatementContext_GetElse_body (s : node qasm3Context) : option (node qasm3Context) :=
  label "else_body" s.
Definition IfStatementContext_SetIf_body (v s : node qasm3Context) : node qasm3Context := set_label "if_body" v s.
Definition IfStatementContext_SetElse_body (v s : node qasm3Context) : node qasm3Context :=
  set_label "else_body" v s.
Definition IfStatementContext_IF (s : node qasm3Context) : option (node qasm3Context) := GetToken s qasm3ParserIF 0.
Definition IfStatementContext_LPAREN (s : node qasm3Context) : option (node qasm3Context) :=
  GetToken s qasm3ParserLPAREN 0.
Definition IfStatementContext_Expression (s : node qasm3Context) : option (node qasm3Context) :=
  first_context (is_context RULE_expression) s.
Definition IfStatementContext_RPAREN (s : node qasm3Context) : option (node qasm3Context) :=
  GetToken s qasm3ParserRPAREN 0.
Definition IfStatementContext_AllStatementOrScope (s : node qasm3Context) : list (option (node qasm3Context)) :=
  all_contexts (is_context RULE_statementOrScope) s.
Definition IfStatementContext_StatementOrScope (s : node qasm3Context) (i : Z) : option (node qasm3Context) :=
  nth_context (is_context RULE_statementOrScope) s i.
Definition IfStatementContext_ELSE (s : node qasm3Context) : option (node qasm3Context) :=
  GetToken s qasm3ParserELSE 0.

(** [ReturnStatementContext] *)
Definition ReturnStatementContext_RETURN (s : node qasm3Context) : option (node qasm3Context) :=
  GetToken s qasm3ParserRETURN 0.
Definition ReturnStatementContext_SEMICOLON (s : node qasm3Context) : option (node qasm3Context) :=
  GetToken s qasm3ParserSEMICOLON 0.
Definition ReturnStatementContext_Expression (s : node qasm3Context) : option (node qasm3Context) :=
  first_context (is_context RULE_expression) s.
Definition ReturnStatementContext_MeasureExpression (s : node qasm3Context) : option (node qasm3Context) :=
  first_context (is_context RULE_measureExpression) s.

(** [WhileStatementContext] *)
Definition WhileStatementContext_GetBody (s : node qasm3Context) : option (node qasm3Context) := label "body" s.
Definition WhileStatementContext_SetBody (v s : node qasm3Context) : node qasm3Context := set_label "body" v s.
Definition WhileStatementContext_WHILE (s : node qasm3Context) : option (node qasm3Context) :=
  GetToken s qasm3ParserWHILE 0.
Definition WhileStatementContext_LPAREN (s : node qasm3Context) : option (node qasm3Context) :=
  GetToken s qasm3ParserLPAREN 0.
Definition WhileStatementContext_Expression (s : node qasm3Context) : option (node qasm3Context) :=
  first_context (is_context RULE_expression) s.
Definition WhileStatementContext_RPAREN (s : node qasm3Context) : option (node qasm3Context) :=
  GetToken s qasm3ParserRPAREN 0.
Definition WhileStatementContext_StatementOrScope (s : node qasm3Context) : option (node qasm3Context) :=
  first_context (is_context RULE_statementOrScope) s.

(** [BarrierStatementContext] *)
Definition BarrierStatementContext_BARRIER (s : node qasm3Context) : option (node qasm3Context) :=
  GetToken s qasm3ParserBARRIER 0.
Definition BarrierStatementContext_SEMICOLON (s : node qasm3Context) : option (node qasm3Context) :=
  GetToken s qasm3ParserSEMICOLON 0.
Definition BarrierStatementContext_GateOperandList (s : node qasm3Context) : option (node qasm3Context) :=
  first_context (is_context RULE_gateOperandList) s.

(** [BoxStatementContext] *)
Definition BoxStatementContext_BOX (s : node qasm3Context) : option (node qasm3Context) :=
  GetToken s qasm3ParserBOX 0.
Definition BoxStatementContext_Scope (s : node qasm3Context) : option (node qasm3Context) :=
  first_context (is_context RULE_scope) s.
Definition BoxStatementContext_Designator (s : node qasm3Context) : option (node qasm3Context) :=
  first_context (is_context RULE_designator) s.

(** [DelayStatementContext] *)
Definition DelayStatementContext_DELAY (s : node qasm3Context) : option (node qasm3Context) :=
  GetToken s qasm3ParserDELAY 0.
Definition DelayStatementContext_Designator (s : node qasm3Context) : option (node qasm3Context) :=
  first_context (is_context RULE_designator) s.
Definition DelayStatementContext_SEMICOLON (s : node qasm3Context) : option (node qasm3Context) :=
  GetToken s qasm3ParserSEMICOLON 0.
Definition DelayStatementContext_GateOperandList (s : node qasm3Context) : option (node qasm3Context) :=
  first_context (is_context RULE_gateOperandList) s.

(** [GateCallStatementContext] *)
Definition GateCallStatementContext_Identifier (s : node qasm3Context) : option (node qasm3Context) :=
  GetToken s qasm3ParserIdentifier 0.
Definition GateCallStatementContext_GateOperandList (s : node qasm3Context) : option (node qasm3Context) :=
  first_context (is_context RULE_gateOperandList) s.
Definition GateCallStatementContext_SEMICOLON (s : node qasm3Context) : option (node qasm3Context) :=
  GetToken s qasm3ParserSEMICOLON 0.
Definition GateCallStatementContext_AllGateModifier (s : node qasm3Context) : list (option (node qasm3Context)) :=
  all_contexts (is_context RULE_gateModifier) s.
Definition GateCallStatementContext_GateModifier (s : node qasm3Context) (i : Z) : option (node qasm3Context) :=
  nth_context (is_context RULE_gateModifier) s i.
Definition GateCallStatementContext_LPAREN (s : node qasm3Context) : option (node qasm3Context) :=
  GetToken s qasm3ParserLPAREN 0.
Definition GateCallStatementContext_RPAREN (s : node qasm3Context) : option (node qasm3Context) :=
  GetToken s qasm3ParserRPAREN 0.
Definition GateCallStatementContext_Designator (s : node qasm3Context) : option (node qasm3Context) :=
  first_context (is_context RULE_designator) s.
Definition GateCallStatementContext_ExpressionList (s : node qasm3Context) : option (node qasm3Context) :=
  first_context (is_context RULE_expressionList) s.
Definition GateCallStatementContext_GPHASE (s : node qasm3Context) : option (node qasm3Context) :=
  GetToken s qasm3ParserGPHASE 0.

(** [MeasureArrowAssignmentStatementContext] *)
Definition MeasureArrowAssignmentStatementContext_MeasureExpression (s : node qasm3Context) : option (node qasm3Context) :=
  first_context (is_context RULE_measureExpression) s.
Definition MeasureArrowAssignmentStatementContext_SEMICOLON (s : node qasm3Context) : option (node qasm3Context) :=
  GetToken s qasm3ParserSEMICOLON 0.
Definition MeasureArrowAssignmentStatementContext_ARROW (s : node qasm3Context) : option (node qasm3Context) :=
  GetToken s qasm3ParserARROW 0.
Definition MeasureArrowAssignmentStatementContext_IndexedIdentifier (s : node qasm3Context) : option (node qasm3Context) :=
  first_context (is_context RULE_indexedIdentifier) s.

(** [ResetStatementContext] *)
Definition ResetStatementContext_RESET (s : node qasm3Context) : option (node qasm3Context) :=
  GetToken s qasm3ParserRESET 0.
Definition ResetStatementContext_GateOperand (s : node qasm3Context) : option (node qasm3Context) :=
  first_context (is_context RULE_gateOperand) s.
Definition ResetStatementContext_SEMICOLON (s : node qasm3Context) : option (node qasm3Context) :=
  GetToken s qasm3ParserSEMICOLON 0.

(** [AliasDeclarationStatementContext] *)
Definition AliasDeclarationStatementContext_LET (s : node qasm3Context) : option (node qasm3Context) :=
  GetToken s qasm3ParserLET 0.
Definition AliasDeclarationStatementContext_Identifier (s : node qasm3Context) : option (node qasm3Context) :=
  GetToken s qasm3ParserIdentifier 0.
Definition AliasDeclarationStatementContext_EQUALS (s : node qasm3Context) : option (node qasm3Context) :=
  GetToken s qasm3ParserEQUALS 0.
Definition AliasDeclarationStatementContext_AliasExpression (s : node qasm3Context) : option (node qasm3Context) :=
  first_context (is_context RULE_aliasExpression) s.
Definition AliasDeclarationStatementContext_SEMICOLON (s : node qasm3Context) : option (node qasm3Context) :=
  GetToken s qasm3ParserSEMICOLON 0.

(** [ClassicalDeclarationStatementContext] *)
Definition ClassicalDeclarationStatementContext_Identifier (s : node qasm3Context) : option (node qasm3Context) :=
  GetToken s qasm3ParserIdentifier 0.
Definition ClassicalDeclarationStatementContext_SEMICOLON (s : node qasm3Context) : option (node qasm3Context) :=
  GetToken s qasm3ParserSEMICOLON 0.
Definition ClassicalDeclarationStatementContext_ScalarType (s : node qasm3Context) : option (node qasm3Context) :=
  first_context (is_context RULE_scalarType) s.
Definition ClassicalDeclarationStatementContext_ArrayType (s : node qasm3Context) : option (node qasm3Context) :=
  first_context (is_context RULE_arrayType) s.
Definition ClassicalDeclarationStatementContext_EQUALS (s : node qasm3Context) : option (node qasm3Context) :=
  GetToken s qasm3ParserEQUALS 0.
Definition ClassicalDeclarationStatementContext_DeclarationExpression (s : node qasm3Context) : option (node qasm3Context) :=
  first_context (is_context RULE_declarationExpression) s.

(** [ConstDeclarationStatementContext] *)
Definition ConstDeclarationStatementContext_CONST (s : node qasm3Context) : option (node qasm3Context) :=
  GetToken s qasm3ParserCONST 0.
Definition ConstDeclarationStatementContext_ScalarType (s : node qasm3Context) : option (node qasm3Context) :=
  first_context (is_context RULE_scalarType) s.
Definition ConstDeclarationStatementContext_Identifier (s : node qasm3Context) : option (node qasm3Context) :=
  GetToken s qasm3ParserIdentifier 0.
Definition ConstDeclarationStatementContext_EQUALS (s : node qasm3Context) : option (node qasm3Context) :=
  GetToken s qasm3ParserEQUALS 0.
Definition ConstDeclarationStatementContext_DeclarationExpression (s : node qasm3Context) : option (node qasm3Context) :=
  first_context (is_context RULE_declarationExpression) s.
Definition ConstDeclarationStatementContext_SEMICOLON (s : node qasm3Context) : option (node qasm3Context) :=
  GetToken s qasm3ParserSEMICOLON 0.

(** [IoDeclarationStatementContext] *)
Definition IoDeclarationStatementContext_Identifier (s : node qasm3Context) : option (node qasm3Context) :=
  GetToken s qasm3ParserIdentifier 0.
Definition IoDeclarationStatementContext_SEMICOLON (s : node qasm3Context) : option (node qasm3Context) :=
  GetToken s qasm3ParserSEMICOLON 0.
Definition IoDeclarationStatementContext_INPUT (s : node qasm3Context) : option (node qasm3Context) :=
  GetToken s qasm3ParserINPUT 0.
Definition IoDeclarationStatementContext_OUTPUT (s : node qasm3Context) : option (node qasm3Context) :=
  GetToken s qasm3ParserOUTPUT 0.
Definition IoDeclarationStatementContext_ScalarType (s : node qasm3Context) : option (node qasm3Context) :=
  first_context (is_context RULE_scalarType) s.
Definition IoDeclarationStatementContext_ArrayType (s : node qasm3Context) : option (node qasm3Context) :=
  first_context (is_context RULE_arrayType) s.

(** [OldStyleDeclarationStatementContext] *)
Definition OldStyleDeclarationStatementContext_Identifier (s : node qasm3Context) : option (node qasm3Context) :=
  GetToken s qasm3ParserIdentifier 0.
Definition OldStyleDeclarationStatementContext_SEMICOLON (s : node qasm3Context) : option (node qasm3Context) :=
  GetToken s qasm3ParserSEMICOLON 0.
Definition OldStyleDeclarationStatementContext_CREG (s : node qasm3Context) : option (node qasm3Context) :=
  GetToken s qasm3ParserCREG 0.
Definition OldStyleDeclarationStatementContext_QREG (s : node qasm3Context) : option (node qasm3Context) :=
  GetToken s qasm3ParserQREG 0.
Definition OldStyleDeclarationStatementContext_Designator (s : node qasm3Context) : option (node qasm3Context) :=
  first_context (is_context RULE_designator) s.

(** [QuantumDeclarationStatementContext] *)
Definition QuantumDeclarationStatementContext_QubitType (s : node qasm3Context) : option (node qasm3Context) :=
  first_context (is_context RULE_qubitType) s.
Definition QuantumDeclarationStatementContext_Identifier (s : node qasm3Context) : option (node qasm3Context) :=
  GetToken s qasm3ParserIdentifier 0.
Definition QuantumDeclarationStatementContext_SEMICOLON (s : node qasm3Context) : option (node qasm3Context) :=
  GetToken s qasm3ParserSEMICOLON 0.

(** [DefStatementContext] *)
Definition DefStatementContext_DEF (s : node qasm3Context) : option (node qasm3Context) :=
  GetToken s qasm3ParserDEF 0.
Definition DefStatementContext_Identifier (s : node qasm3Context) : option (node qasm3Context) :=
  GetToken s qasm3ParserIdentifier 0.
Definition DefStatementContext_LPAREN (s : node qasm3Context) : option (node qasm3Context) :=
  GetToken s qasm3ParserLPAREN 0.
Definition DefStatementContext_RPAREN (s : node qasm3Context) : option (node qasm3Context) :=
  GetToken s qasm3ParserRPAREN 0.
Definition DefStatementContext_Scope (s : node qasm3Context) : option (node qasm3Context) :=
  first_context (is_context RULE_scope) s.
Definition DefStatementContext_ArgumentDefinitionList (s : node qasm3Context) : option (node qasm3Context) :=
  first_context (is_context RULE_argumentDefinitionList) s.
Definition DefStatementContext_ReturnSignature (s : node qasm3Context) : option (node qasm3Context) :=
  first_context (is_context RULE_returnSignature) s.

(** [ExternStatementContext] *)
Definition ExternStatementContext_EXTERN (s : node qasm3Context) : option (node qasm3Context) :=
  GetToken s qasm3ParserEXTERN 0.
Definition ExternStatementContext_Identifier (s : node qasm3Context) : option (node qasm3Context) :=
  GetToken s qasm3ParserIdentifier 0.
Definition ExternStatementContext_LPAREN (s : node qasm3Context) : option (node qasm3Context) :=
  GetToken s qasm3ParserLPAREN 0.
Definition ExternStatementContext_RPAREN (s : node qasm3Context) : option (node qasm3Context) :=
  GetToken s qasm3ParserRPAREN 0.
Definition ExternStatementContext_SEMICOLON (s : node qasm3Context) : option (node qasm3Context) :=
  GetToken s qasm3ParserSEMICOLON 0.
Definition ExternStatementContext_ExternArgumentList (s : node qasm3Context) : option (node qasm3Context) :=
  first_context (is_context RULE_externArgumentList) s.
Definition ExternStatementContext_ReturnSignature (s : node qasm3Context) : option (node qasm3Context) :=
  first_context (is_context RULE_returnSignature) s.

(** [GateStatementContext] *)
Definition GateStatementContext_GetParams (s : node qasm3Context) : option (node qasm3Context) := label "params" s.
Definition GateStatementContext_GetQubits (s : node qasm3Context) : option (node qasm3Context) := label "qubits" s.
Definition GateStatementContext_SetParams (v s : node qasm3Context) : node qasm3Context := set_label "params" v s.
Definition GateStatementContext_SetQubits (v s : node qasm3Context) : node qasm3Context := set_label "qubits" v s.
Definition GateStatementContext_GATE (s : node qasm3Context) : option (node qasm3Context) :=
  GetToken s qasm3ParserGATE 0.
Definition GateStatementContext_Identifier (s : node qasm3Context) : option (node qasm3Context) :=
  GetToken s qasm3ParserIdentifier 0.
Definition GateStatementContext_Scope (s : node qasm3Context) : option (node qasm3Context) :=
  first_context (is_context RULE_scope) s.
Definition GateStatementContext_AllIdentifierList (s : node qasm3Context) : list (option (node qasm3Context)) :=
  all_contexts (is_context RULE_identifierList) s.
Definition GateStatementContext_IdentifierList (s : node qasm3Context) (i : Z) : option (node qasm3Context) :=
  nth_context (is_context RULE_identifierList) s i.
Definition GateStatementContext_LPAREN (s : node qasm3Context) : option (node qasm3Context) :=
  GetToken s qasm3ParserLPAREN 0.
Definition GateStatementContext_RPAREN (s : node qasm3Context) : option (node qasm3Context) :=
  GetToken s qasm3ParserRPAREN 0.

(** [AssignmentStatementContext] *)
Definition AssignmentStatementContext_GetOp (s : node qasm3Context) : option (node qasm3Context) := label "op" s.
Definition AssignmentStatementContext_SetOp (v s : node qasm3Context) : node qasm3Context := set_label "op" v s.
Definition AssignmentStatementContext_IndexedIdentifier (s : node qasm3Context) : option (node qasm3Context) :=
  first_context (is_context RULE_indexedIdentifier) s.
Definition AssignmentStatementContext_SEMICOLON (s : node qasm3Context) : option (node qasm3Context) :=
  GetToken s qasm3ParserSEMICOLON 0.
Definition AssignmentStatementContext_EQUALS (s : node qasm3Context) : option (node qasm3Context) :=
  GetToken s qasm3ParserEQUALS 0.
Definition AssignmentStatementContext_CompoundAssignmentOperator (s : node qasm3Context) : option (node qasm3Context) :=
  GetToken s qasm3ParserCompoundAssignmentOperator 0.
Definition AssignmentStatementContext_Expression (s : node qasm3Context) : option (node qasm3Context) :=
  first_context (is_context RULE_expression) s.
Definition AssignmentStatementContext_MeasureExpression (s : node qasm3Context) : option (node qasm3Context) :=
  first_context (is_context RULE_measureExpression) s.

(** [ExpressionStatementContext] *)
Definition ExpressionStatementContext_Expression (s : node qasm3Context) : option (node qasm3Context) :=
  first_context (is_context RULE_expression) s.
Definition ExpressionStatementContext_SEMICOLON (s : node qasm3Context) : option (node qasm3Context) :=
  GetToken s qasm3ParserSEMICOLON 0.

(** [CalStatementContext] *)
Definition CalStatementContext_CAL (s : node qasm3Context) : option (node qasm3Context) :=
  GetToken s qasm3ParserCAL 0.
Definition CalStatementContext_LBRACE (s : node qasm3Context) : option (node qasm3Context) :=
  GetToken s qasm3ParserLBRACE 0.
Definition CalStatementContext_RBRACE (s : node qasm3Context) : option (node qasm3Context) :=
  GetToken s qasm3ParserRBRACE 0.
Definition CalStatementContext_CalibrationBlock (s : node qasm3Context) : option (node qasm3Context) :=
  GetToken s qasm3ParserCalibrationBlock 0.

(** [DefcalStatementContext] *)
Definition DefcalStatementContext_DEFCAL (s : node qasm3Context) : option (node qasm3Context) :=
  GetToken s qasm3ParserDEFCAL 0.
Definition DefcalStatementContext_DefcalTarget (s : node qasm3Context) : option (node qasm3Context) :=
  first_context (is_context RULE_defcalTarget) s.
Definition DefcalStatementContext_DefcalOperandList (s : node qasm3Context) : option (node qasm3Context) :=
  first_context (is_context RULE_defcalOperandList) s.
Definition DefcalStatementContext_LBRACE (s : node qasm3Context) : option (node qasm3Context) :=
  GetToken s qasm3ParserLBRACE 0.
Definition DefcalStatementContext_RBRACE (s : node qasm3Context) : option (node qasm3Context) :=
  GetToken s qasm3ParserRBRACE 0.
Definition DefcalStatementContext_LPAREN (s : node qasm3Context) : option (node qasm3Context) :=
  GetToken s qasm3ParserLPAREN 0.
Definition DefcalStatementContext_RPAREN (s : node qasm3Context) : option (node qasm3Context) :=
  GetToken s qasm3ParserRPAREN 0.
Definition DefcalStatementContext_ReturnSignature (s : node qasm3Context) : option (node qasm3Context) :=
  first_context (is_context RULE_returnSignature) s.
Definition DefcalStatementContext_CalibrationBlock (s : node qasm3Context) : option (node qasm3Context) :=
  GetToken s qasm3ParserCalibrationBlock 0.
Definition DefcalStatementContext_DefcalArgumentDefinitionList (s : node qasm3Context) : option (node qasm3Context) :=
  first_context (is_context RULE_defcalArgumentDefinitionList) s.

(** [BitwiseXorExpressionContext] *)
Definition BitwiseXorExpressionContext_GetOp (s : node qasm3Context) : option (node qasm3Context) := label "op" s.
Definition BitwiseXorExpressionContext_SetOp (v s : node qasm3Context) : node qasm3Context := set_label "op" v s.
Definition BitwiseXorExpressionContext_AllExpression (s : node qasm3Context) : list (option (node qasm3Context)) :=
  all_contexts (is_context RULE_expression) s.
Definition BitwiseXorExpressionContext_Expression (s : node qasm3Context) (i : Z) : option (node qasm3Context) :=
  nth_context (is_context RULE_expression) s i.
Definition BitwiseXorExpressionContext_CARET (s : node qasm3Context) : option (node qasm3Context) :=
  GetToken s qasm3ParserCARET 0.

(** [AdditiveExpressionContext] *)
Definition AdditiveExpressionContext_GetOp (s : node qasm3Context) : option (node qasm3Context) := label "op" s.
Definition AdditiveExpressionContext_SetOp (v s : node qasm3Context) : node qasm3Context := set_label "op" v s.
Definition AdditiveExpressionContext_AllExpression (s : node qasm3Context) : list (option (node qasm3Context)) :=
  all_contexts (is_context RULE_expression) s.
Definition AdditiveExpressionContext_Expression (s : node qasm3Context) (i : Z) : option (node qasm3Context) :=
  nth_context (is_context RULE_expression) s i.
Definition AdditiveExpressionContext_PLUS (s : node qasm3Context) : option (node qasm3Context) :=
  GetToken s qasm3ParserPLUS 0.
Definition AdditiveExpressionContext_MINUS (s : node qasm3Context) : option (node qasm3Context) :=
  GetToken s qasm3ParserMINUS 0.

(** [DurationofExpressionContext] *)
Definition DurationofExpressionContext_DURATIONOF (s : node qasm3Context) : option (node qasm3Context) :=
  GetToken s qasm3ParserDURATIONOF 0.
Definition DurationofExpressionContext_LPAREN (s : node qasm3Context) : option (node qasm3Context) :=
  GetToken s qasm3ParserLPAREN 0.
Definition DurationofExpressionContext_Scope (s : node qasm3Context) : option (node qasm3Context) :=
  first_context (is_context RULE_scope) s.
Definition DurationofExpressionContext_RPAREN (s : node qasm3Context) : option (node qasm3Context) :=
  GetToken s qasm3ParserRPAREN 0.

(** [ParenthesisExpressionContext] *)
Definition ParenthesisExpressionContext_LPAREN (s : node qasm3Context) : option (node qasm3Context) :=
  GetToken s qasm3ParserLPAREN 0.
Definition ParenthesisExpressionContext_Expression (s : node qasm3Context) : option (node qasm3Context) :=
  first_context (is_context RULE_expression) s.
Definition ParenthesisExpressionContext_RPAREN (s : node qasm3Context) : option (node qasm3Context) :=
  GetToken s qasm3ParserRPAREN 0.

(** [ComparisonExpressionContext] *)
Definition ComparisonExpressionContext_GetOp (s : node qasm3Context) : option (node qasm3Context) := label "op" s.
Definition ComparisonExpressionContext_SetOp (v s : node qasm3Context) : node qasm3Context := set_label "op" v s.
Definition ComparisonExpressionContext_AllExpression (s : node qasm3Context) : list (option (node qasm3Context)) :=
  all_contexts (is_context RULE_expression) s.
Definition ComparisonExpressionContext_Expression (s : node qasm3Context) (i : Z) : option (node qasm3Context) :=
  nth_context (is_context RULE_expression) s i.
Definition ComparisonExpressionContext_ComparisonOperator (s : node qasm3Context) : option (node qasm3Context) :=
  GetToken s qasm3ParserComparisonOperator 0.

(** [MultiplicativeExpressionContext] *)
Definition MultiplicativeExpressionContext_GetOp (s : node qasm3Context) : option (node qasm3Context) :=
  label "op" s.
Definition MultiplicativeExpressionContext_SetOp (v s : node qasm3Context) : node qasm3Context :=
  set_label "op" v s.
Definition MultiplicativeExpressionContext_AllExpression (s : node qasm3Context) : list (option (node qasm3Context)) :=
 
  all_contexts (is_context RULE_expression) s.
Definition MultiplicativeExpressionContext_Expression (s : node qasm3Context) (i : Z) : option (node qasm3Context) :=
  nth_context (is_context RULE_expression) s i.
Definition MultiplicativeExpressionContext_ASTERISK (s : node qasm3Context) : option (node qasm3Context) :=
  GetToken s qasm3ParserASTERISK 0.
Definition MultiplicativeExpressionContext_SLASH (s : node qasm3Context) : option (node qasm3Context) :=
  GetToken s qasm3ParserSLASH 0.
Definition MultiplicativeExpressionContext_PERCENT (s : node qasm3Context) : option (node qasm3Context) :=
  GetToken s qasm3ParserPERCENT 0.

(** [LogicalOrExpressionContext] *)
Definition LogicalOrExpressionContext_GetOp (s : node qasm3Context) : option (node qasm3Context) := label "op" s.
Definition LogicalOrExpressionContext_SetOp (v s : node qasm3Context) : node qasm3Context := set_label "op" v s.
Definition LogicalOrExpressionContext_AllExpression (s : node qasm3Context) : list (option (node qasm3Context)) :=
  all_contexts (is_context RULE_expression) s.
Definition LogicalOrExpressionContext_Expression (s : node qasm3Context) (i : Z) : option (node qasm3Context) :=
  nth_context (is_context RULE_expression) s i.
Definition LogicalOrExpressionContext_DOUBLE_PIPE (s : node qasm3Context) : option (node qasm3Context) :=
  GetToken s qasm3ParserDOUBLE_PIPE 0.

(** [CastExpressionContext] *)
Definition CastExpressionContext_LPAREN (s : node qasm3Context) : option (node qasm3Context) :=
  GetToken s qasm3ParserLPAREN 0.
Definition CastExpressionContext_Expression (s : node qasm3Context) : option (node qasm3Context) :=
  first_context (is_context RULE_expression) s.
Definition CastExpressionContext_RPAREN (s : node qasm3Context) : option (node qasm3Context) :=
  GetToken s qasm3ParserRPAREN 0.
Definition CastExpressionContext_ScalarType (s : node qasm3Context) : option (node qasm3Context) :=
  first_context (is_context RULE_scalarType) s.
Definition CastExpressionContext_ArrayType (s : node qasm3Context) : option (node qasm3Context) :=
  first_context (is_context RULE_arrayType) s.

(** [PowerExpressionContext] *)
Definition PowerExpressionContext_GetOp (s : node qasm3Context) : option (node qasm3Context) := label "op" s.
Definition PowerExpressionContext_SetOp (v s : node qasm3Context) : node qasm3Context := set_label "op" v s.
Definition PowerExpressionContext_AllExpression (s : node qasm3Context) : list (option (node qasm3Context)) :=
  all_contexts (is_context RULE_expression) s.
Definition PowerExpressionContext_Expression (s : node qasm3Context) (i : Z) : option (node qasm3Context) :=
  nth_context (is_context RULE_expression) s i.
Definition PowerExpressionContext_DOUBLE_ASTERISK (s : node qasm3Context) : option (node qasm3Context) :=
  GetToken s qasm3ParserDOUBLE_ASTERISK 0.

(** [BitwiseOrExpressionContext] *)
Definition BitwiseOrExpressionContext_GetOp (s : node qasm3Context) : option (node qasm3Context) := label "op" s.
Definition BitwiseOrExpressionContext_SetOp (v s : node qasm3Context) : node qasm3Context := set_label "op" v s.
Definition BitwiseOrExpressionContext_AllExpression (s : node qasm3Context) : list (option (node qasm3Context)) :=
  all_contexts (is_context RULE_expression) s.
Definition BitwiseOrExpressionContext_Expression (s : node qasm3Context) (i : Z) : option (node qasm3Context) :=
  nth_context (is_context RULE_expression) s i.
Definition BitwiseOrExpressionContext_PIPE (s : node qasm3Context) : option (node qasm3Context) :=
  GetToken s qasm3ParserPIPE 0.

(** [CallExpressionContext] *)
Definition CallExpressionContext_Identifier (s : node qasm3Context) : option (node qasm3Context) :=
  GetToken s qasm3ParserIdentifier 0.
Definition CallExpressionContext_LPAREN (s : node qasm3Context) : option (node qasm3Context) :=
  GetToken s qasm3ParserLPAREN 0.
Definition CallExpressionContext_RPAREN (s : node qasm3Context) : option (node qasm3Context) :=
  GetToken s qasm3ParserRPAREN 0.
Definition CallExpressionContext_ExpressionList (s : node qasm3Context) : option (node qasm3Context) :=
  first_context (is_context RULE_expressionList) s.

(** [BitshiftExpressionContext] *)
Definition BitshiftExpressionContext_GetOp (s : node qasm3Context) : option (node qasm3Context) := label "op" s.
Definition BitshiftExpressionContext_SetOp (v s : node qasm3Context) : node qasm3Context := set_label "op" v s.
Definition BitshiftExpressionContext_AllExpression (s : node qasm3Context) : list (option (node qasm3Context)) :=
  all_contexts (is_context RULE_expression) s.
Definition BitshiftExpressionContext_Expression (s : node qasm3Context) (i : Z) : option (node qasm3Context) :=
  nth_context (is_context RULE_expression) s i.
Definition BitshiftExpressionContext_BitshiftOperator (s : node qasm3Context) : option (node qasm3Context) :=
  GetToken s qasm3ParserBitshiftOperator 0.

(** [BitwiseAndExpressionContext] *)
Definition BitwiseAndExpressionContext_GetOp (s : node qasm3Context) : option (node qasm3Context) := label "op" s.
Definition BitwiseAndExpressionContext_SetOp (v s : node qasm3Context) : node qasm3Context := set_label "op" v s.
Definition BitwiseAndExpressionContext_AllExpression (s : node qasm3Context) : list (option (node qasm3Context)) :=
  all_contexts (is_context RULE_expression) s.
Definition BitwiseAndExpressionContext_Expression (s : node qasm3Context) (i : Z) : option (node qasm3Context) :=
  nth_context (is_context RULE_expression) s i.
Definition BitwiseAndExpressionContext_AMPERSAND (s : node qasm3Context) : option (node qasm3Context) :=
  GetToken s qasm3ParserAMPERSAND 0.

(** [EqualityExpressionContext] *)
Definition EqualityExpressionContext_GetOp (s : node qasm3Context) : option (node qasm3Context) := label "op" s.
Definition EqualityExpressionContext_SetOp (v s : node qasm3Context) : node qasm3Context := set_label "op" v s.
Definition EqualityExpressionContext_AllExpression (s : node qasm3Context) : list (option (node qasm3Context)) :=
  all_contexts (is_context RULE_expression) s.
Definition EqualityExpressionContext_Expression (s : node qasm3Context) (i : Z) : option (node qasm3Context) :=
  nth_context (is_context RULE_expression) s i.
Definition EqualityExpressionContext_EqualityOperator (s : node qasm3Context) : option (node qasm3Context) :=
  GetToken s qasm3ParserEqualityOperator 0.

(** [LogicalAndExpressionContext] *)
Definition LogicalAndExpressionContext_GetOp (s : node qasm3Context) : option (node qasm3Context) := label "op" s.
Definition LogicalAndExpressionContext_SetOp (v s : node qasm3Context) : node qasm3Context := set_label "op" v s.
Definition LogicalAndExpressionContext_AllExpression (s : node qasm3Context) : list (option (node qasm3Context)) :=
  all_contexts (is_context RULE_expression) s.
Definition LogicalAndExpressionContext_Expression (s : node qasm3Context) (i : Z) : option (node qasm3Context) :=
  nth_context (is_context RULE_expression) s i.
Definition LogicalAndExpressionContext_DOUBLE_AMPERSAND (s : node qasm3Context) : option (node qasm3Context) :=
  GetToken s qasm3ParserDOUBLE_AMPERSAND 0.

(** [IndexExpressionContext] *)
Definition IndexExpressionContext_Expression (s : node qasm3Context) : option (node qasm3Context) :=
  first_context (is_context RULE_expression) s.
Definition IndexExpressionContext_IndexOperator (s : node qasm3Context) : option (node qasm3Context) :=
  first_context (is_context RULE_indexOperator) s.

(** [UnaryExpressionContext] *)
Definition UnaryExpressionContext_GetOp (s : node qasm3Context) : option (node qasm3Context) := label "op" s.
Definition UnaryExpressionContext_SetOp (v s : node qasm3Context) : node qasm3Context := set_label "op" v s.
Definition UnaryExpressionContext_Expression (s : node qasm3Context) : option (node qasm3Context) :=
  first_context (is_context RULE_expression) s.
Definition UnaryExpressionContext_TILDE (s : node qasm3Context) : option (node qasm3Context) :=
  GetToken s qasm3ParserTILDE 0.
Definition UnaryExpressionContext_EXCLAMATION_POINT (s : node qasm3Context) : option (node qasm3Context) :=
  GetToken s qasm3ParserEXCLAMATION_POINT 0.
Definition UnaryExpressionContext_MINUS (s : node qasm3Context) : option (node qasm3Context) :=
  GetToken s qasm3ParserMINUS 0.

(** [LiteralExpressionContext] *)
Definition LiteralExpressionContext_Identifier (s : node qasm3Context) : option (node qasm3Context) :=
  GetToken s qasm3ParserIdentifier 0.
Definition LiteralExpressionContext_BinaryIntegerLiteral (s : node qasm3Context) : option (node qasm3Context) :=
  GetToken s qasm3ParserBinaryIntegerLiteral 0.
Definition LiteralExpressionContext_OctalIntegerLiteral (s : node qasm3Context) : option (node qasm3Context) :=
  GetToken s qasm3ParserOctalIntegerLiteral 0.
Definition LiteralExpressionContext_DecimalIntegerLiteral (s : node qasm3Context) : option (node qasm3Context) :=
  GetToken s qasm3ParserDecimalIntegerLiteral 0.
Definition LiteralExpressionContext_HexIntegerLiteral (s : node qasm3Context) : option (node qasm3Context) :=
  GetToken s qasm3ParserHexIntegerLiteral 0.
Definition LiteralExpressionContext_FloatLiteral (s : node qasm3Context) : option (node qasm3Context) :=
  GetToken s qasm3ParserFloatLiteral 0.
Definition LiteralExpressionContext_ImaginaryLiteral (s : node qasm3Context) : option (node qasm3Context) :=
  GetToken s qasm3ParserImaginaryLiteral 0.
Definition LiteralExpressionContext_BooleanLiteral (s : node qasm3Context) : option (node qasm3Context) :=
  GetToken s qasm3ParserBooleanLiteral 0.
Definition LiteralExpressionContext_BitstringLiteral (s : node qasm3Context) : option (node qasm3Context) :=
  GetToken s qasm3ParserBitstringLiteral 0.
Definition LiteralExpressionContext_TimingLiteral (s : node qasm3Context) : option (node qasm3Context) :=
  GetToken s qasm3ParserTimingLiteral 0.
Definition LiteralExpressionContext_HardwareQubit (s : node qasm3Context) : option (node qasm3Context) :=
  GetToken s qasm3ParserHardwareQubit 0.

(** [AliasExpressionContext] *)
Definition AliasExpressionContext_AllExpression (s : node qasm3Context) : list (option (node qasm3Context)) :=
  all_contexts (is_context RULE_expression) s.
Definition AliasExpressionContext_Expression (s : node qasm3Context) (i : Z) : option (node qasm3Context) :=
  nth_context (is_context RULE_expression) s i.
Definition AliasExpressionContext_AllDOUBLE_PLUS (s : node qasm3Context) : list (node qasm3Context) :=
  GetTokens s qasm3ParserDOUBLE_PLUS.
Definition AliasExpressionContext_DOUBLE_PLUS (s : node qasm3Context) (i : Z) : option (node qasm3Context) :=
  GetToken s qasm3ParserDOUBLE_PLUS i.

(** [DeclarationExpressionContext] *)
Definition DeclarationExpressionContext_ArrayLiteral (s : node qasm3Context) : option (node qasm3Context) :=
  first_context (is_context RULE_arrayLiteral) s.
Definition DeclarationExpressionContext_Expression (s : node qasm3Context) : option (node qasm3Context) :=
  first_context (is_context RULE_expression) s.
Definition DeclarationExpressionContext_MeasureExpression (s : node qasm3Context) : option (node qasm3Context) :=
  first_context (is_context RULE_measureExpression) s.

(** [MeasureExpressionContext] *)
Definition MeasureExpressionContext_MEASURE (s : node qasm3Context) : option (node qasm3Context) :=
  GetToken s qasm3ParserMEASURE 0.
Definition MeasureExpressionContext_GateOperand (s : node qasm3Context) : option (node qasm3Context) :=
  first_context (is_context RULE_gateOperand) s.

(** [RangeExpressionContext] *)
Definition RangeExpressionContext_AllCOLON (s : node qasm3Context) : list (node qasm3Context) :=
  GetTokens s qasm3ParserCOLON.
Definition RangeExpressionContext_COLON (s : node qasm3Context) (i : Z) : option (node qasm3Context) :=
  GetToken s qasm3ParserCOLON i.
Definition RangeExpressionContext_AllExpression (s : node qasm3Context) : list (option (node qasm3Context)) :=
  all_contexts (is_context RULE_expression) s.
Definition RangeExpressionContext_Expression (s : node qasm3Context) (i : Z) : option (node qasm3Context) :=
  nth_context (is_context RULE_expression) s i.

(** [SetExpressionContext] *)
Definition SetExpressionContext_LBRACE (s : node qasm3Context) : option (node qasm3Context) :=
  GetToken s qasm3ParserLBRACE 0.
Definition SetExpressionContext_AllExpression (s : node qasm3Context) : list (option (node qasm3Context)) :=
  all_contexts (is_context RULE_expression) s.
Definition SetExpressionContext_Expression (s : node qasm3Context) (i : Z) : option (node qasm3Context) :=
  nth_context (is_context RULE_expression) s i.
Definition SetExpressionContext_RBRACE (s : node qasm3Context) : option (node qasm3Context) :=
  GetToken s qasm3ParserRBRACE 0.
Definition SetExpressionContext_AllCOMMA (s : node qasm3Context) : list (node qasm3Context) :=
  GetTokens s qasm3ParserCOMMA.
Definition SetExpressionContext_COMMA (s : node qasm3Context) (i : Z) : option (node qasm3Context) :=
  GetToken s qasm3ParserCOMMA i.

(** [ArrayLiteralContext] *)
Definition ArrayLiteralContext_LBRACE (s : node qasm3Context) : option (node qasm3Context) :=
  GetToken s qasm3ParserLBRACE 0.
Definition ArrayLiteralContext_RBRACE (s : node qasm3Context) : option (node qasm3Context) :=
  GetToken s qasm3ParserRBRACE 0.
Definition ArrayLiteralContext_AllExpression (s : node qasm3Context) : list (option (node qasm3Context)) :=
  all_contexts (is_context RULE_expression) s.
Definition ArrayLiteralContext_Expression (s : node qasm3Context) (i : Z) : option (node qasm3Context) :=
  nth_context (is_context RULE_expression) s i.
Definition ArrayLiteralContext_AllArrayLiteral (s : node qasm3Context) : list (option (node qasm3Context)) :=
  all_contexts (is_context RULE_arrayLiteral) s.
Definition ArrayLiteralContext_ArrayLiteral (s : node qasm3Context) (i : Z) : option (node qasm3Context) :=
  nth_context (is_context RULE_arrayLiteral) s i.
Definition ArrayLiteralContext_AllCOMMA (s : node qasm3Context) : list (node qasm3Context) :=
  GetTokens s qasm3ParserCOMMA.
Definition ArrayLiteralContext_COMMA (s : node qasm3Context) (i : Z) : option (node qasm3Context) :=
  GetToken s qasm3ParserCOMMA i.

(** [IndexOperatorContext] *)
Definition IndexOperatorContext_LBRACKET (s : node qasm3Context) : option (node qasm3Context) :=
  GetToken s qasm3ParserLBRACKET 0.
Definition IndexOperatorContext_RBRACKET (s : node qasm3Context) : option (node qasm3Context) :=
  GetToken s qasm3ParserRBRACKET 0.
Definition IndexOperatorContext_SetExpression (s : node qasm3Context) : option (node qasm3Context) :=
  first_context (is_context RULE_setExpression) s.
Definition IndexOperatorContext_AllExpression (s : node qasm3Context) : list (option (node qasm3Context)) :=
  all_contexts (is_context RULE_expression) s.
Definition IndexOperatorContext_Expression (s : node qasm3Context) (i : Z) : option (node qasm3Context) :=
  nth_context (is_context RULE_expression) s i.
Definition IndexOperatorContext_AllRangeExpression (s : node qasm3Context) : list (option (node qasm3Context)) :=
  all_contexts (is_context RULE_rangeExpression) s.
Definition IndexOperatorContext_RangeExpression (s : node qasm3Context) (i : Z) : option (node qasm3Context) :=
  nth_context (is_context RULE_rangeExpression) s i.
Definition IndexOperatorContext_AllCOMMA (s : node qasm3Context) : list (node qasm3Context) :=
  GetTokens s qasm3ParserCOMMA.
Definition IndexOperatorContext_COMMA (s : node qasm3Context) (i : Z) : option (node qasm3Context) :=
  GetToken s qasm3ParserCOMMA i.

(** [IndexedIdentifierContext] *)
Definition IndexedIdentifierContext_Identifier (s : node qasm3Context) : option (node qasm3Context) :=
  GetToken s qasm3ParserIdentifier 0.
Definition IndexedIdentifierContext_AllIndexOperator (s : node qasm3Context) : list (option (node qasm3Context)) :=
  all_contexts (is_context RULE_indexOperator) s.
Definition IndexedIdentifierContext_IndexOperator (s : node qasm3Context) (i : Z) : option (node qasm3Context) :=
  nth_context (is_context RULE_indexOperator) s i.

(** [ReturnSignatureContext] *)
Definition ReturnSignatureContext_ARROW (s : node qasm3Context) : option (node qasm3Context) :=
  GetToken s qasm3ParserARROW 0.
Definition ReturnSignatureContext_ScalarType (s : node qasm3Context) : option (node qasm3Context) :=
  first_context (is_context RULE_scalarType) s.

(** [GateModifierContext] *)
Definition GateModifierContext_AT (s : node qasm3Context) : option (node qasm3Context) :=
  GetToken s qasm3ParserAT 0.
Definition GateModifierContext_INV (s : node qasm3Context) : option (node qasm3Context) :=
  GetToken s qasm3ParserINV 0.
Definition GateModifierContext_POW (s : node qasm3Context) : option (node qasm3Context) :=
  GetToken s qasm3ParserPOW 0.
Definition GateModifierContext_LPAREN (s : node qasm3Context) : option (node qasm3Context) :=
  GetToken s qasm3ParserLPAREN 0.
Definition GateModifierContext_Expression (s : node qasm3Context) : option (node qasm3Context) :=
  first_context (is_context RULE_expression) s.
Definition GateModifierContext_RPAREN (s : node qasm3Context) : option (node qasm3Context) :=
  GetToken s qasm3ParserRPAREN 0.
Definition GateModifierContext_CTRL (s : node qasm3Context) : option (node qasm3Context) :=
  GetToken s qasm3ParserCTRL 0.
Definition GateModifierContext_NEGCTRL (s : node qasm3Context) : option (node qasm3Context) :=
  GetToken s qasm3ParserNEGCTRL 0.

(** [ScalarTypeContext] *)
Definition ScalarTypeContext_BIT (s : node qasm3Context) : option (node qasm3Context) :=
  GetToken s qasm3ParserBIT 0.
Definition ScalarTypeContext_Designator (s : node qasm3Context) : option (node qasm3Context) :=
  first_context (is_context RULE_designator) s.
Definition ScalarTypeContext_INT (s : node qasm3Context) : option (node qasm3Context) :=
  GetToken s qasm3ParserINT 0.
Definition ScalarTypeContext_UINT (s : node qasm3Context) : option (node qasm3Context) :=
  GetToken s qasm3ParserUINT 0.
Definition ScalarTypeContext_FLOAT (s : node qasm3Context) : option (node qasm3Context) :=
  GetToken s qasm3ParserFLOAT 0.
Definition ScalarTypeContext_ANGLE (s : node qasm3Context) : option (node qasm3Context) :=
  GetToken s qasm3ParserANGLE 0.
Definition ScalarTypeContext_BOOL (s : node qasm3Context) : option (node qasm3Context) :=
  GetToken s qasm3ParserBOOL 0.
Definition ScalarTypeContext_DURATION (s : node qasm3Context) : option (node qasm3Context) :=
  GetToken s qasm3ParserDURATION 0.
Definition ScalarTypeContext_STRETCH (s : node qasm3Context) : option (node qasm3Context) :=
  GetToken s qasm3ParserSTRETCH 0.
Definition ScalarTypeContext_COMPLEX (s : node qasm3Context) : option (node qasm3Context) :=
  GetToken s qasm3ParserCOMPLEX 0.
Definition ScalarTypeContext_LBRACKET (s : node qasm3Context) : option (node qasm3Context) :=
  GetToken s qasm3ParserLBRACKET 0.
Definition ScalarTypeContext_ScalarType (s : node qasm3Context) : option (node qasm3Context) :=
  first_context (is_context RULE_scalarType) s.
Definition ScalarTypeContext_RBRACKET (s : node qasm3Context) : option (node qasm3Context) :=
  GetToken s qasm3ParserRBRACKET 0.

(** [QubitTypeContext] *)
Definition QubitTypeContext_QUBIT (s : node qasm3Context) : option (node qasm3Context) :=
  GetToken s qasm3ParserQUBIT 0.
Definition QubitTypeContext_Designator (s : node qasm3Context) : option (node qasm3Context) :=
  first_context (is_context RULE_designator) s.

(** [ArrayTypeContext] *)
Definition ArrayTypeContext_ARRAY (s : node qasm3Context) : option (node qasm3Context) :=
  GetToken s qasm3ParserARRAY 0.
Definition ArrayTypeContext_LBRACKET (s : node qasm3Context) : option (node qasm3Context) :=
  GetToken s qasm3ParserLBRACKET 0.
Definition ArrayTypeContext_ScalarType (s : node qasm3Context) : option (node qasm3Context) :=
  first_context (is_context RULE_scalarType) s.
Definition ArrayTypeContext_COMMA (s : node qasm3Context) : option (node qasm3Context) :=
  GetToken s qasm3ParserCOMMA 0.
Definition ArrayTypeContext_ExpressionList (s : node qasm3Context) : option (node qasm3Context) :=
  first_context (is_context RULE_expressionList) s.
Definition ArrayTypeContext_RBRACKET (s : node qasm3Context) : option (node qasm3Context) :=
  GetToken s qasm3ParserRBRACKET 0.

(** [ArrayReferenceTypeContext] *)
Definition ArrayReferenceTypeContext_ARRAY (s : node qasm3Context) : option (node qasm3Context) :=
  GetToken s qasm3ParserARRAY 0.
Definition ArrayReferenceTypeContext_LBRACKET (s : node qasm3Context) : option (node qasm3Context) :=
  GetToken s qasm3ParserLBRACKET 0.
Definition ArrayReferenceTypeContext_ScalarType (s : node qasm3Context) : option (node qasm3Context) :=
  first_context (is_context RULE_scalarType) s.
Definition ArrayReferenceTypeContext_COMMA (s : node qasm3Context) : option (node qasm3Context) :=
  GetToken s qasm3ParserCOMMA 0.
Definition ArrayReferenceTypeContext_RBRACKET (s : node qasm3Context) : option (node qasm3Context) :=
  GetToken s qasm3ParserRBRACKET 0.
Definition ArrayReferenceTypeContext_CONST (s : node qasm3Context) : option (node qasm3Context) :=
  GetToken s qasm3ParserCONST 0.
Definition ArrayReferenceTypeContext_MUTABLE (s : node qasm3Context) : option (node qasm3Context) :=
  GetToken s qasm3ParserMUTABLE 0.
Definition ArrayReferenceTypeContext_ExpressionList (s : node qasm3Context) : option (node qasm3Context) :=
  first_context (is_context RULE_expressionList) s.
Definition ArrayReferenceTypeContext_DIM (s : node qasm3Context) : option (node qasm3Context) :=
  GetToken s qasm3ParserDIM 0.
Definition ArrayReferenceTypeContext_EQUALS (s : node qasm3Context) : option (node qasm3Context) :=
  GetToken s qasm3ParserEQUALS 0.
Definition ArrayReferenceTypeContext_Expression (s : node qasm3Context) : option (node qasm3Context) :=
  first_context (is_context RULE_expression) s.

(** [DesignatorContext] *)
Definition DesignatorContext_LBRACKET (s : node qasm3Context) : option (node qasm3Context) :=
  GetToken s qasm3ParserLBRACKET 0.
Definition DesignatorContext_Expression (s : node qasm3Context) : option (node qasm3Context) :=
  first_context (is_context RULE_expression) s.
Definition DesignatorContext_RBRACKET (s : node qasm3Context) : option (node qasm3Context) :=
  GetToken s qasm3ParserRBRACKET 0.

(** [DefcalTargetContext] *)
Definition DefcalTargetContext_MEASURE (s : node qasm3Context) : option (node qasm3Context) :=
  GetToken s qasm3ParserMEASURE 0.
Definition DefcalTargetContext_RESET (s : node qasm3Context) : option (node qasm3Context) :=
  GetToken s qasm3ParserRESET 0.
Definition DefcalTargetContext_DELAY (s : node qasm3Context) : option (node qasm3Context) :=
  GetToken s qasm3ParserDELAY 0.
Definition DefcalTargetContext_Identifier (s : node qasm3Context) : option (node qasm3Context) :=
  GetToken s qasm3ParserIdentifier 0.

(** [DefcalArgumentDefinitionContext] *)
Definition DefcalArgumentDefinitionContext_Expression (s : node qasm3Context) : option (node qasm3Context) :=
  first_context (is_context RULE_expression) s.
Definition DefcalArgumentDefinitionContext_ArgumentDefinition (s : node qasm3Context) : option (node qasm3Context) :=
  first_context (is_context RULE_argumentDefinition) s.

(** [DefcalOperandContext] *)
Definition DefcalOperandContext_HardwareQubit (s : node qasm3Context) : option (node qasm3Context) :=
  GetToken s qasm3ParserHardwareQubit 0.
Definition DefcalOperandContext_Identifier (s : node qasm3Context) : option (node qasm3Context) :=
  GetToken s qasm3ParserIdentifier 0.

(** [GateOperandContext] *)
Definition GateOperandContext_IndexedIdentifier (s : node qasm3Context) : option (node qasm3Context) :=
  first_context (is_context RULE_indexedIdentifier) s.
Definition GateOperandContext_HardwareQubit (s : node qasm3Context) : option (node qasm3Context) :=
  GetToken s qasm3ParserHardwareQubit 0.

(** [ExternArgumentContext] *)
Definition ExternArgumentContext_ScalarType (s : node qasm3Context) : option (node qasm3Context) :=
  first_context (is_context RULE_scalarType) s.
Definition ExternArgumentContext_ArrayReferenceType (s : node qasm3Context) : option (node qasm3Context) :=
  first_context (is_context RULE_arrayReferenceType) s.
Definition ExternArgumentContext_CREG (s : node qasm3Context) : option (node qasm3Context) :=
  GetToken s qasm3ParserCREG 0.
Definition ExternArgumentContext_Designator (s : node qasm3Context) : option (node qasm3Context) :=
  first_context (is_context RULE_designator) s.

(** [ArgumentDefinitionContext] *)
Definition ArgumentDefinitionContext_ScalarType (s : node qasm3Context) : option (node qasm3Context) :=
  first_context (is_context RULE_scalarType) s.
Definition ArgumentDefinitionContext_Identifier (s : node qasm3Context) : option (node qasm3Context) :=
  GetToken s qasm3ParserIdentifier 0.
Definition ArgumentDefinitionContext_QubitType (s : node qasm3Context) : option (node qasm3Context) :=
  first_context (is_context RULE_qubitType) s.
Definition ArgumentDefinitionContext_CREG (s : node qasm3Context) : option (node qasm3Context) :=
  GetToken s qasm3ParserCREG 0.
Definition ArgumentDefinitionContext_QREG (s : node qasm3Context) : option (node qasm3Context) :=
  GetToken s qasm3ParserQREG 0.
Definition ArgumentDefinitionContext_Designator (s : node qasm3Context) : option (node qasm3Context) :=
  first_context (is_context RULE_designator) s.
Definition ArgumentDefinitionContext_ArrayReferenceType (s : node qasm3Context) : option (node qasm3Context) :=
  first_context (is_context RULE_arrayReferenceType) s.

(** [ArgumentDefinitionListContext] *)
Definition ArgumentDefinitionListContext_AllArgumentDefinition (s : node qasm3Context) : list (option (node qasm3Context)) :=
 
  all_contexts (is_context RULE_argumentDefinition) s.
Definition ArgumentDefinitionListContext_ArgumentDefinition (s : node qasm3Context) (i : Z) : option (node qasm3Context) :=
  nth_context (is_context RULE_argumentDefinition) s i.
Definition ArgumentDefinitionListContext_AllCOMMA (s : node qasm3Context) : list (node qasm3Context) :=
  GetTokens s qasm3ParserCOMMA.
Definition ArgumentDefinitionListContext_COMMA (s : node qasm3Context) (i : Z) : option (node qasm3Context) :=
  GetToken s qasm3ParserCOMMA i.

(** [DefcalArgumentDefinitionListContext] *)
Definition DefcalArgumentDefinitionListContext_AllDefcalArgumentDefinition (s : node qasm3Context) : list (option (node qasm3Context)) :=
 
  all_contexts (is_context RULE_defcalArgumentDefinition) s.
Definition DefcalArgumentDefinitionListContext_DefcalArgumentDefinition (s : node qasm3Context) (i : Z) : option (node qasm3Context) :=
  nth_context (is_context RULE_defcalArgumentDefinition) s i.
Definition DefcalArgumentDefinitionListContext_AllCOMMA (s : node qasm3Context) : list (node qasm3Context) :=
  GetTokens s qasm3ParserCOMMA.
Definition DefcalArgumentDefinitionListContext_COMMA (s : node qasm3Context) (i : Z) : option (node qasm3Context) :=
  GetToken s qasm3ParserCOMMA i.

(** [DefcalOperandListContext] *)
Definition DefcalOperandListContext_AllDefcalOperand (s : node qasm3Context) : list (option (node qasm3Context)) :=
  all_contexts (is_context RULE_defcalOperand) s.
Definition DefcalOperandListContext_DefcalOperand (s : node qasm3Context) (i : Z) : option (node qasm3Context) :=
  nth_context (is_context RULE_defcalOperand) s i.
Definition DefcalOperandListContext_AllCOMMA (s : node qasm3Context) : list (node qasm3Context) :=
  GetTokens s qasm3ParserCOMMA.
Definition DefcalOperandListContext_COMMA (s : node qasm3Context) (i : Z) : option (node qasm3Context) :=
  GetToken s qasm3ParserCOMMA i.

(** [ExpressionListContext] *)
Definition ExpressionListContext_AllExpression (s : node qasm3Context) : list (option (node qasm3Context)) :=
  all_contexts (is_context RULE_expression) s.
Definition ExpressionListContext_Expression (s : node qasm3Context) (i : Z) : option (node qasm3Context) :=
  nth_context (is_context RULE_expression) s i.
Definition ExpressionListContext_AllCOMMA (s : node qasm3Context) : list (node qasm3Context) :=
  GetTokens s qasm3ParserCOMMA.
Definition ExpressionListContext_COMMA (s : node qasm3Context) (i : Z) : option (node qasm3Context) :=
  GetToken s qasm3ParserCOMMA i.

(** [IdentifierListContext] *)
Definition IdentifierListContext_AllIdentifier (s : node qasm3Context) : list (node qasm3Context) :=
  GetTokens s qasm3ParserIdentifier.
Definition IdentifierListContext_Identifier (s : node qasm3Context) (i : Z) : option (node qasm3Context) :=
  GetToken s qasm3ParserIdentifier i.
Definition IdentifierListContext_AllCOMMA (s : node qasm3Context) : list (node qasm3Context) :=
  GetTokens s qasm3ParserCOMMA.
Definition IdentifierListContext_COMMA (s : node qasm3Context) (i : Z) : option (node qasm3Context) :=
  GetToken s qasm3ParserCOMMA i.

(** [GateOperandListContext] *)
Definition GateOperandListContext_AllGateOperand (s : node qasm3Context) : list (option (node qasm3Context)) :=
  all_contexts (is_context RULE_gateOperand) s.
Definition GateOperandListContext_GateOperand (s : node qasm3Context) (i : Z) : option (node qasm3Context) :=
  nth_context (is_context RULE_gateOperand) s i.
Definition GateOperandListContext_AllCOMMA (s : node qasm3Context) : list (node qasm3Context) :=
  GetTokens s qasm3ParserCOMMA.
Definition GateOperandListContext_COMMA (s : node qasm3Context) (i : Z) : option (node qasm3Context) :=
  GetToken s qasm3ParserCOMMA i.

(** [ExternArgumentListContext] *)
Definition ExternArgumentListContext_AllExternArgument (s : node qasm3Context) : list (option (node qasm3Context)) :=
 
  all_contexts (is_context RULE_externArgument) s.
Definition ExternArgumentListContext_ExternArgument (s : node qasm3Context) (i : Z) : option (node qasm3Context) :=
  nth_context (is_context RULE_externArgument) s i.
Definition ExternArgumentListContext_AllCOMMA (s : node qasm3Context) : list (node qasm3Context) :=
  GetTokens s qasm3ParserCOMMA.
Definition ExternArgumentListContext_COMMA (s : node qasm3Context) (i : Z) : option (node qasm3Context) :=
  GetToken s qasm3ParserCOMMA i.

(** ** The accessors of a context *)

Definition qasm3_accessors (k : qasm3Context) : list (accessor (K := qasm3Context) (R := qasm3Rule)) :=
  match k with
  | ProgramContext =>
      [one (STok qasm3ParserEOF) ProgramContext_EOF;
       one (SRule RULE_version) ProgramContext_Version;
       many (SRule RULE_statement) ProgramContext_AllStatement ProgramContext_Statement]
  | VersionContext =>
      [one (STok qasm3ParserOPENQASM) VersionContext_OPENQASM;
       one (STok qasm3ParserVersionSpecifier) VersionContext_VersionSpecifier;
       one (STok qasm3ParserSEMICOLON) VersionContext_SEMICOLON]
  | StatementContext =>
      [one (SRule RULE_pragma) StatementContext_Pragma;
       one (SRule RULE_aliasDeclarationStatement) StatementContext_AliasDeclarationStatement;
       one (SRule RULE_assignmentStatement) StatementContext_AssignmentStatement;
       one (SRule RULE_barrierStatement) StatementContext_BarrierStatement;
       one (SRule RULE_boxStatement) StatementContext_BoxStatement;
       one (SRule RULE_breakStatement) StatementContext_BreakStatement;
       one (SRule RULE_calStatement) StatementContext_CalStatement;
       one (SRule RULE_calibrationGrammarStatement) StatementContext_CalibrationGrammarStatement;
       one (SRule RULE_classicalDeclarationStatement) StatementContext_ClassicalDeclarationStatement;
       one (SRule RULE_constDeclarationStatement) StatementContext_ConstDeclarationStatement;
       one (SRule RULE_continueStatement) StatementContext_ContinueStatement;
       one (SRule RULE_defStatement) StatementContext_DefStatement;
       one (SRule RULE_defcalStatement) StatementContext_DefcalStatement;
       one (SRule RULE_delayStatement) StatementContext_DelayStatement;
       one (SRule RULE_endStatement) StatementContext_EndStatement;
       one (SRule RULE_expressionStatement) StatementContext_ExpressionStatement;
       one (SRule RULE_externStatement) StatementContext_ExternStatement;
       one (SRule RULE_forStatement) StatementContext_ForStatement;
       one (SRule RULE_gateCallStatement) StatementContext_GateCallStatement;
       one (SRule RULE_gateStatement) StatementContext_GateStatement;
       one (SRule RULE_ifStatement) StatementContext_IfStatement;
       one (SRule RULE_includeStatement) StatementContext_IncludeStatement;
       one (SRule RULE_ioDeclarationStatement) StatementContext_IoDeclarationStatement;
       one (SRule RULE_measureArrowAssignmentStatement) StatementContext_MeasureArrowAssignmentStatement;
       one (SRule RULE_oldStyleDeclarationStatement) StatementContext_OldStyleDeclarationStatement;
       one (SRule RULE_quantumDeclarationStatement) StatementContext_QuantumDeclarationStatement;
       one (SRule RULE_resetStatement) StatementContext_ResetStatement;
       one (SRule RULE_returnStatement) StatementContext_ReturnStatement;
       one (SRule RULE_whileStatement) StatementContext_WhileStatement;
       many (SRule RULE_annotation) StatementContext_AllAnnotation StatementContext_Annotation]
  | AnnotationContext =>
      [one (STok qasm3ParserAnnotationKeyword) AnnotationContext_AnnotationKeyword;
       one (STok qasm3ParserRemainingLineContent) AnnotationContext_RemainingLineContent]
  | ScopeContext =>
      [one (STok qasm3ParserLBRACE) ScopeContext_LBRACE;
       one (STok qasm3ParserRBRACE) ScopeContext_RBRACE;
       many (SRule RULE_statement) ScopeContext_AllStatement ScopeContext_Statement]
  | PragmaContext =>
      [one (STok qasm3ParserPRAGMA) PragmaContext_PRAGMA;
       one (STok qasm3ParserRemainingLineContent) PragmaContext_RemainingLineContent]
  | StatementOrScopeContext =>
      [one (SRule RULE_statement) StatementOrScopeContext_Statement;
       one (SRule RULE_scope) StatementOrScopeContext_Scope]
  | CalibrationGrammarStatementContext =>
      [one (STok qasm3ParserDEFCALGRAMMAR) CalibrationGrammarStatementContext_DEFCALGRAMMAR;
       one (STok qasm3ParserStringLiteral) CalibrationGrammarStatementContext_StringLiteral;
       one (STok qasm3ParserSEMICOLON) CalibrationGrammarStatementContext_SEMICOLON]
  | IncludeStatementContext =>
      [one (STok qasm3ParserINCLUDE) IncludeStatementContext_INCLUDE;
       one (STok qasm3ParserStringLiteral) IncludeStatementContext_StringLiteral;
       one (STok qasm3ParserSEMICOLON) IncludeStatementContext_SEMICOLON]
  | BreakStatementContext =>
      [one (STok qasm3ParserBREAK) BreakStatementContext_BREAK;
       one (STok qasm3ParserSEMICOLON) BreakStatementContext_SEMICOLON]
  | ContinueStatementContext =>
      [one (STok qasm3ParserCONTINUE) ContinueStatementContext_CONTINUE;
       one (STok qasm3ParserSEMICOLON) ContinueStatementContext_SEMICOLON]
  | EndStatementContext =>
      [one (STok qasm3ParserEND) EndStatementContext_END;
       one (STok qasm3ParserSEMICOLON) EndStatementContext_SEMICOLON]
  | ForStatementContext =>
      [one (STok qasm3ParserFOR) ForStatementContext_FOR;
       one (SRule RULE_scalarType) ForStatementContext_ScalarType;
       many (STok qasm3ParserIdentifier) (fun s => map Some (ForStatementContext_AllIdentifier s)) ForStatementContext_Identifier;
       one (STok qasm3ParserIN) ForStatementContext_IN;
       one (SRule RULE_statementOrScope) ForStatementContext_StatementOrScope;
       one (SRule RULE_setExpression) ForStatementContext_SetExpression;
       one (STok qasm3ParserLBRACKET) ForStatementContext_LBRACKET;
       one (SRule RULE_rangeExpression) ForStatementContext_RangeExpression;
       one (STok qasm3ParserRBRACKET) ForStatementContext_RBRACKET]
  | IfStatementContext =>
      [one (STok qasm3ParserIF) IfStatementContext_IF;
       one (STok qasm3ParserLPAREN) IfStatementContext_LPAREN;
       one (SRule RULE_expression) IfStatementContext_Expression;
       one (STok qasm3ParserRPAREN) IfStatementContext_RPAREN;
       many (SRule RULE_statementOrScope) IfStatementContext_AllStatementOrScope IfStatementContext_StatementOrScope;
       one (STok qasm3ParserELSE) IfStatementContext_ELSE]
  | ReturnStatementContext =>
      [one (STok qasm3ParserRETURN) ReturnStatementContext_RETURN;
       one (STok qasm3ParserSEMICOLON) ReturnStatementContext_SEMICOLON;
       one (SRule RULE_expression) ReturnStatementContext_Expression;
       one (SRule RULE_measureExpression) ReturnStatementContext_MeasureExpression]
  | WhileStatementContext =>
      [one (STok qasm3ParserWHILE) WhileStatementContext_WHILE;
       one (STok qasm3ParserLPAREN) WhileStatementContext_LPAREN;
       one (SRule RULE_expression) WhileStatementContext_Expression;
       one (STok qasm3ParserRPAREN) WhileStatementContext_RPAREN;
       one (SRule RULE_statementOrScope) WhileStatementContext_StatementOrScope]
  | BarrierStatementContext =>
      [one (STok qasm3ParserBARRIER) BarrierStatementContext_BARRIER;
       one (STok qasm3ParserSEMICOLON) BarrierStatementContext_SEMICOLON;
       one (SRule RULE_gateOperandList) BarrierStatementContext_GateOperandList]
  | BoxStatementContext =>
      [one (STok qasm3ParserBOX) BoxStatementContext_BOX;
       one (SRule RULE_scope) BoxStatementContext_Scope;
       one (SRule RULE_designator) BoxStatementContext_Designator]
  | DelayStatementContext =>
      [one (STok qasm3ParserDELAY) DelayStatementContext_DELAY;
       one (SRule RULE_designator) DelayStatementContext_Designator;
       one (STok qasm3ParserSEMICOLON) DelayStatementContext_SEMICOLON;
       one (SRule RULE_gateOperandList) DelayStatementContext_GateOperandList]
  | GateCallStatementContext =>
      [one (STok qasm3ParserIdentifier) GateCallStatementContext_Identifier;
       one (SRule RULE_gateOperandList) GateCallStatementContext_GateOperandList;
       one (STok qasm3ParserSEMICOLON) GateCallStatementContext_SEMICOLON;
       many (SRule RULE_gateModifier) GateCallStatementContext_AllGateModifier GateCallStatementContext_GateModifier;
       one (STok qasm3ParserLPAREN) GateCallStatementContext_LPAREN;
       one (STok qasm3ParserRPAREN) GateCallStatementContext_RPAREN;
       one (SRule RULE_designator) GateCallStatementContext_Designator;
       one (SRule RULE_expressionList) GateCallStatementContext_ExpressionList;
       one (STok qasm3ParserGPHASE) GateCallStatementContext_GPHASE]
  | MeasureArrowAssignmentStatementContext =>
      [one (SRule RULE_measureExpression) MeasureArrowAssignmentStatementContext_MeasureExpression;
       one (STok qasm3ParserSEMICOLON) MeasureArrowAssignmentStatementContext_SEMICOLON;
       one (STok qasm3ParserARROW) MeasureArrowAssignmentStatementContext_ARROW;
       one (SRule RULE_indexedIdentifier) MeasureArrowAssignmentStatementContext_IndexedIdentifier]
  | ResetStatementContext =>
      [one (STok qasm3ParserRESET) ResetStatementContext_RESET;
       one (SRule RULE_gateOperand) ResetStatementContext_GateOperand;
       one (STok qasm3ParserSEMICOLON) ResetStatementContext_SEMICOLON]
  | AliasDeclarationStatementContext =>
      [one (STok qasm3ParserLET) AliasDeclarationStatementContext_LET;
       one (STok qasm3ParserIdentifier) AliasDeclarationStatementContext_Identifier;
       one (STok qasm3ParserEQUALS) AliasDeclarationStatementContext_EQUALS;
       one (SRule RULE_aliasExpression) AliasDeclarationStatementContext_AliasExpression;
       one (STok qasm3ParserSEMICOLON) AliasDeclarationStatementContext_SEMICOLON]
  | ClassicalDeclarationStatementContext =>
      [one (STok qasm3ParserIdentifier) ClassicalDeclarationStatementContext_Identifier;
       one (STok qasm3ParserSEMICOLON) ClassicalDeclarationStatementContext_SEMICOLON;
       one (SRule RULE_scalarType) ClassicalDeclarationStatementContext_ScalarType;
       one (SRule RULE_arrayType) ClassicalDeclarationStatementContext_ArrayType;
       one (STok qasm3ParserEQUALS) ClassicalDeclarationStatementContext_EQUALS;
       one (SRule RULE_declarationExpression) ClassicalDeclarationStatementContext_DeclarationExpression]
  | ConstDeclarationStatementContext =>
      [one (STok qasm3ParserCONST) ConstDeclarationStatementContext_CONST;
       one (SRule RULE_scalarType) ConstDeclarationStatementContext_ScalarType;
       one (STok qasm3ParserIdentifier) ConstDeclarationStatementContext_Identifier;
       one (STok qasm3ParserEQUALS) ConstDeclarationStatementContext_EQUALS;
       one (SRule RULE_declarationExpression) ConstDeclarationStatementContext_DeclarationExpression;
       one (STok qasm3ParserSEMICOLON) ConstDeclarationStatementContext_SEMICOLON]
  | IoDeclarationStatementContext =>
      [one (STok qasm3ParserIdentifier) IoDeclarationStatementContext_Identifier;
       one (STok qasm3ParserSEMICOLON) IoDeclarationStatementContext_SEMICOLON;
       one (STok qasm3ParserINPUT) IoDeclarationStatementContext_INPUT;
       one (STok qasm3ParserOUTPUT) IoDeclarationStatementContext_OUTPUT;
       one (SRule RULE_scalarType) IoDeclarationStatementContext_ScalarType;
       one (SRule RULE_arrayType) IoDeclarationStatementContext_ArrayType]
  | OldStyleDeclarationStatementContext =>
      [one (STok qasm3ParserIdentifier) OldStyleDeclarationStatementContext_Identifier;
       one (STok qasm3ParserSEMICOLON) OldStyleDeclarationStatementContext_SEMICOLON;
       one (STok qasm3ParserCREG) OldStyleDeclarationStatementContext_CREG;
       one (STok qasm3ParserQREG) OldStyleDeclarationStatementContext_QREG;
       one (SRule RULE_designator) OldStyleDeclarationStatementContext_Designator]
  | QuantumDeclarationStatementContext =>
      [one (SRule RULE_qubitType) QuantumDeclarationStatementContext_QubitType;
       one (STok qasm3ParserIdentifier) QuantumDeclarationStatementContext_Identifier;
       one (STok qasm3ParserSEMICOLON) QuantumDeclarationStatementContext_SEMICOLON]
  | DefStatementContext =>
      [one (STok qasm3ParserDEF) DefStatementContext_DEF;
       one (STok qasm3ParserIdentifier) DefStatementContext_Identifier;
       one (STok qasm3ParserLPAREN) DefStatementContext_LPAREN;
       one (STok qasm3ParserRPAREN) DefStatementContext_RPAREN;
       one (SRule RULE_scope) DefStatementContext_Scope;
       one (SRule RULE_argumentDefinitionList) DefStatementContext_ArgumentDefinitionList;
       one (SRule RULE_returnSignature) DefStatementContext_ReturnSignature]
  | ExternStatementContext =>
      [one (STok qasm3ParserEXTERN) ExternStatementContext_EXTERN;
       one (STok qasm3ParserIdentifier) ExternStatementContext_Identifier;
       one (STok qasm3ParserLPAREN) ExternStatementContext_LPAREN;
       one (STok qasm3ParserRPAREN) ExternStatementContext_RPAREN;
       one (STok qasm3ParserSEMICOLON) ExternStatementContext_SEMICOLON;
       one (SRule RULE_externArgumentList) ExternStatementContext_ExternArgumentList;
       one (SRule RULE_returnSignature) ExternStatementContext_ReturnSignature]
  | GateStatementContext =>
      [one (STok qasm3ParserGATE) GateStatementContext_GATE;
       one (STok qasm3ParserIdentifier) GateStatementContext_Identifier;
       one (SRule RULE_scope) GateStatementContext_Scope;
       many (SRule RULE_identifierList) GateStatementContext_AllIdentifierList GateStatementContext_IdentifierList;
       one (STok qasm3ParserLPAREN) GateStatementContext_LPAREN;
       one (STok qasm3ParserRPAREN) GateStatementContext_RPAREN]
  | AssignmentStatementContext =>
      [one (SRule RULE_indexedIdentifier) AssignmentStatementContext_IndexedIdentifier;
       one (STok qasm3ParserSEMICOLON) AssignmentStatementContext_SEMICOLON;
       one (STok qasm3ParserEQUALS) AssignmentStatementContext_EQUALS;
       one (STok qasm3ParserCompoundAssignmentOperator) AssignmentStatementContext_CompoundAssignmentOperator;
       one (SRule RULE_expression) AssignmentStatementContext_Expression;
       one (SRule RULE_measureExpression) AssignmentStatementContext_MeasureExpression]
  | ExpressionStatementContext =>
      [one (SRule RULE_expression) ExpressionStatementContext_Expression;
       one (STok qasm3ParserSEMICOLON) ExpressionStatementContext_SEMICOLON]
  | CalStatementContext =>
      [one (STok qasm3ParserCAL) CalStatementContext_CAL;
       one (STok qasm3ParserLBRACE) CalStatementContext_LBRACE;
       one (STok qasm3ParserRBRACE) CalStatementContext_RBRACE;
       one (STok qasm3ParserCalibrationBlock) CalStatementContext_CalibrationBlock]
  | DefcalStatementContext =>
      [one (STok qasm3ParserDEFCAL) DefcalStatementContext_DEFCAL;
       one (SRule RULE_defcalTarget) DefcalStatementContext_DefcalTarget;
       one (SRule RULE_defcalOperandList) DefcalStatementContext_DefcalOperandList;
       one (STok qasm3ParserLBRACE) DefcalStatementContext_LBRACE;
       one (STok qasm3ParserRBRACE) DefcalStatementContext_RBRACE;
       one (STok qasm3ParserLPAREN) DefcalStatementContext_LPAREN;
       one (STok qasm3ParserRPAREN) DefcalStatementContext_RPAREN;
       one (SRule RULE_returnSignature) DefcalStatementContext_ReturnSignature;
       one (STok qasm3ParserCalibrationBlock) DefcalStatementContext_CalibrationBlock;
       one (SRule RULE_defcalArgumentDefinitionList) DefcalStatementContext_DefcalArgumentDefinitionList]
  | BitwiseXorExpressionContext =>
      [many (SRule RULE_expression) BitwiseXorExpressionContext_AllExpression BitwiseXorExpressionContext_Expression;
       one (STok qasm3ParserCARET) BitwiseXorExpressionContext_CARET]
  | AdditiveExpressionContext =>
      [many (SRule RULE_expression) AdditiveExpressionContext_AllExpression AdditiveExpressionContext_Expression;
       one (STok qasm3ParserPLUS) AdditiveExpressionContext_PLUS;
       one (STok qasm3ParserMINUS) AdditiveExpressionContext_MINUS]
  | DurationofExpressionContext =>
      [one (STok qasm3ParserDURATIONOF) DurationofExpressionContext_DURATIONOF;
       one (STok qasm3ParserLPAREN) DurationofExpressionContext_LPAREN;
       one (SRule RULE_scope) DurationofExpressionContext_Scope;
       one (STok qasm3ParserRPAREN) DurationofExpressionContext_RPAREN]
  | ParenthesisExpressionContext =>
      [one (STok qasm3ParserLPAREN) ParenthesisExpressionContext_LPAREN;
       one (SRule RULE_expression) ParenthesisExpressionContext_Expression;
       one (STok qasm3ParserRPAREN) ParenthesisExpressionContext_RPAREN]
  | ComparisonExpressionContext =>
      [many (SRule RULE_expression) ComparisonExpressionContext_AllExpression ComparisonExpressionContext_Expression;
       one (STok qasm3ParserComparisonOperator) ComparisonExpressionContext_ComparisonOperator]
  | MultiplicativeExpressionContext =>
      [many (SRule RULE_expression) MultiplicativeExpressionContext_AllExpression MultiplicativeExpressionContext_Expression;
       one (STok qasm3ParserASTERISK) MultiplicativeExpressionContext_ASTERISK;
       one (STok qasm3ParserSLASH) MultiplicativeExpressionContext_SLASH;
       one (STok qasm3ParserPERCENT) MultiplicativeExpressionContext_PERCENT]
  | LogicalOrExpressionContext =>
      [many (SRule RULE_expression) LogicalOrExpressionContext_AllExpression LogicalOrExpressionContext_Expression;
       one (STok qasm3ParserDOUBLE_PIPE) LogicalOrExpressionContext_DOUBLE_PIPE]
  | CastExpressionContext =>
      [one (STok qasm3ParserLPAREN) CastExpressionContext_LPAREN;
       one (SRule RULE_expression) CastExpressionContext_Expression;
       one (STok qasm3ParserRPAREN) CastExpressionContext_RPAREN;
       one (SRule RULE_scalarType) CastExpressionContext_ScalarType;
       one (SRule RULE_arrayType) CastExpressionContext_ArrayType]
  | PowerExpressionContext =>
      [many (SRule RULE_expression) PowerExpressionContext_AllExpression PowerExpressionContext_Expression;
       one (STok qasm3ParserDOUBLE_ASTERISK) PowerExpressionContext_DOUBLE_ASTERISK]
  | BitwiseOrExpressionContext =>
      [many (SRule RULE_expression) BitwiseOrExpressionContext_AllExpression BitwiseOrExpressionContext_Expression;
       one (STok qasm3ParserPIPE) BitwiseOrExpressionContext_PIPE]
  | CallExpressionContext =>
      [one (STok qasm3ParserIdentifier) CallExpressionContext_Identifier;
       one (STok qasm3ParserLPAREN) CallExpressionContext_LPAREN;
       one (STok qasm3ParserRPAREN) CallExpressionContext_RPAREN;
       one (SRule RULE_expressionList) CallExpressionContext_ExpressionList]
  | BitshiftExpressionContext =>
      [many (SRule RULE_expression) BitshiftExpressionContext_AllExpression BitshiftExpressionContext_Expression;
       one (STok qasm3ParserBitshiftOperator) BitshiftExpressionContext_BitshiftOperator]
  | BitwiseAndExpressionContext =>
      [many (SRule RULE_expression) BitwiseAndExpressionContext_AllExpression BitwiseAndExpressionContext_Expression;
       one (STok qasm3ParserAMPERSAND) BitwiseAndExpressionContext_AMPERSAND]
  | EqualityExpressionContext =>
      [many (SRule RULE_expression) EqualityExpressionContext_AllExpression EqualityExpressionContext_Expression;
       one (STok qasm3ParserEqualityOperator) EqualityExpressionContext_EqualityOperator]
  | LogicalAndExpressionContext =>
      [many (SRule RULE_expression) LogicalAndExpressionContext_AllExpression LogicalAndExpressionContext_Expression;
       one (STok qasm3ParserDOUBLE_AMPERSAND) LogicalAndExpressionContext_DOUBLE_AMPERSAND]
  | IndexExpressionContext =>
      [one (SRule RULE_expression) IndexExpressionContext_Expression;
       one (SRule RULE_indexOperator) IndexExpressionContext_IndexOperator]
  | UnaryExpressionContext =>
      [one (SRule RULE_expression) UnaryExpressionContext_Expression;
       one (STok qasm3ParserTILDE) UnaryExpressionContext_TILDE;
       one (STok qasm3ParserEXCLAMATION_POINT) UnaryExpressionContext_EXCLAMATION_POINT;
       one (STok qasm3ParserMINUS) UnaryExpressionContext_MINUS]
  | LiteralExpressionContext =>
      [one (STok qasm3ParserIdentifier) LiteralExpressionContext_Identifier;
       one (STok qasm3ParserBinaryIntegerLiteral) LiteralExpressionContext_BinaryIntegerLiteral;
       one (STok qasm3ParserOctalIntegerLiteral) LiteralExpressionContext_OctalIntegerLiteral;
       one (STok qasm3ParserDecimalIntegerLiteral) LiteralExpressionContext_DecimalIntegerLiteral;
       one (STok qasm3ParserHexIntegerLiteral) LiteralExpressionContext_HexIntegerLiteral;
       one (STok qasm3ParserFloatLiteral) LiteralExpressionContext_FloatLiteral;
       one (STok qasm3ParserImaginaryLiteral) LiteralExpressionContext_ImaginaryLiteral;
       one (STok qasm3ParserBooleanLiteral) LiteralExpressionContext_BooleanLiteral;
       one (STok qasm3ParserBitstringLiteral) LiteralExpressionContext_BitstringLiteral;
       one (STok qasm3ParserTimingLiteral) LiteralExpressionContext_TimingLiteral;
       one (STok qasm3ParserHardwareQubit) LiteralExpressionContext_HardwareQubit]
  | AliasExpressionContext =>
      [many (SRule RULE_expression) AliasExpressionContext_AllExpression AliasExpressionContext_Expression;
       many (STok qasm3ParserDOUBLE_PLUS) (fun s => map Some (AliasExpressionContext_AllDOUBLE_PLUS s)) AliasExpressionContext_DOUBLE_PLUS]
  | DeclarationExpressionContext =>
      [one (SRule RULE_arrayLiteral) DeclarationExpressionContext_ArrayLiteral;
       one (SRule RULE_expression) DeclarationExpressionContext_Expression;
       one (SRule RULE_measureExpression) DeclarationExpressionContext_MeasureExpression]
  | MeasureExpressionContext =>
      [one (STok qasm3ParserMEASURE) MeasureExpressionContext_MEASURE;
       one (SRule RULE_gateOperand) MeasureExpressionContext_GateOperand]
  | RangeExpressionContext =>
      [many (STok qasm3ParserCOLON) (fun s => map Some (RangeExpressionContext_AllCOLON s)) RangeExpressionContext_COLON;
       many (SRule RULE_expression) RangeExpressionContext_AllExpression RangeExpressionContext_Expression]
  | SetExpressionContext =>
      [one (STok qasm3ParserLBRACE) SetExpressionContext_LBRACE;
       many (SRule RULE_expression) SetExpressionContext_AllExpression SetExpressionContext_Expression;
       one (STok qasm3ParserRBRACE) SetExpressionContext_RBRACE;
       many (STok qasm3ParserCOMMA) (fun s => map Some (SetExpressionContext_AllCOMMA s)) SetExpressionContext_COMMA]
  | ArrayLiteralContext =>
      [one (STok qasm3ParserLBRACE) ArrayLiteralContext_LBRACE;
       one (STok qasm3ParserRBRACE) ArrayLiteralContext_RBRACE;
       many (SRule RULE_expression) ArrayLiteralContext_AllExpression ArrayLiteralContext_Expression;
       many (SRule RULE_arrayLiteral) ArrayLiteralContext_AllArrayLiteral ArrayLiteralContext_ArrayLiteral;
       many (STok qasm3ParserCOMMA) (fun s => map Some (ArrayLiteralContext_AllCOMMA s)) ArrayLiteralContext_COMMA]
  | IndexOperatorContext =>
      [one (STok qasm3ParserLBRACKET) IndexOperatorContext_LBRACKET;
       one (STok qasm3ParserRBRACKET) IndexOperatorContext_RBRACKET;
       one (SRule RULE_setExpression) IndexOperatorContext_SetExpression;
       many (SRule RULE_expression) IndexOperatorContext_AllExpression IndexOperatorContext_Expression;
       many (SRule RULE_rangeExpression) IndexOperatorContext_AllRangeExpression IndexOperatorContext_RangeExpression;
       many (STok qasm3ParserCOMMA) (fun s => map Some (IndexOperatorContext_AllCOMMA s)) IndexOperatorContext_COMMA]
  | IndexedIdentifierContext =>
      [one (STok qasm3ParserIdentifier) IndexedIdentifierContext_Identifier;
       many (SRule RULE_indexOperator) IndexedIdentifierContext_AllIndexOperator IndexedIdentifierContext_IndexOperator]
  | ReturnSignatureContext =>
      [one (STok qasm3ParserARROW) ReturnSignatureContext_ARROW;
       one (SRule RULE_scalarType) ReturnSignatureContext_ScalarType]
  | GateModifierContext =>
      [one (STok qasm3ParserAT) GateModifierContext_AT;
       one (STok qasm3ParserINV) GateModifierContext_INV;
       one (STok qasm3ParserPOW) GateModifierContext_POW;
       one (STok qasm3ParserLPAREN) GateModifierContext_LPAREN;
       one (SRule RULE_expression) GateModifierContext_Expression;
       one (STok qasm3ParserRPAREN) GateModifierContext_RPAREN;
       one (STok qasm3ParserCTRL) GateModifierContext_CTRL;
       one (STok qasm3ParserNEGCTRL) GateModifierContext_NEGCTRL]
  | ScalarTypeContext =>
      [one (STok qasm3ParserBIT) ScalarTypeContext_BIT;
       one (SRule RULE_designator) ScalarTypeContext_Designator;
       one (STok qasm3ParserINT) ScalarTypeContext_INT;
       one (STok qasm3ParserUINT) ScalarTypeContext_UINT;
       one (STok qasm3ParserFLOAT) ScalarTypeContext_FLOAT;
       one (STok qasm3ParserANGLE) ScalarTypeContext_ANGLE;
       one (STok qasm3ParserBOOL) ScalarTypeContext_BOOL;
       one (STok qasm3ParserDURATION) ScalarTypeContext_DURATION;
       one (STok qasm3ParserSTRETCH) ScalarTypeContext_STRETCH;
       one (STok qasm3ParserCOMPLEX) ScalarTypeContext_COMPLEX;
       one (STok qasm3ParserLBRACKET) ScalarTypeContext_LBRACKET;
       one (SRule RULE_scalarType) ScalarTypeContext_ScalarType;
       one (STok qasm3ParserRBRACKET) ScalarTypeContext_RBRACKET]
  | QubitTypeContext =>
      [one (STok qasm3ParserQUBIT) QubitTypeContext_QUBIT;
       one (SRule RULE_designator) QubitTypeContext_Designator]
  | ArrayTypeContext =>
      [one (STok qasm3ParserARRAY) ArrayTypeContext_ARRAY;
       one (STok qasm3ParserLBRACKET) ArrayTypeContext_LBRACKET;
       one (SRule RULE_scalarType) ArrayTypeContext_ScalarType;
       one (STok qasm3ParserCOMMA) ArrayTypeContext_COMMA;
       one (SRule RULE_expressionList) ArrayTypeContext_ExpressionList;
       one (STok qasm3ParserRBRACKET) ArrayTypeContext_RBRACKET]
  | ArrayReferenceTypeContext =>
      [one (STok qasm3ParserARRAY) ArrayReferenceTypeContext_ARRAY;
       one (STok qasm3ParserLBRACKET) ArrayReferenceTypeContext_LBRACKET;
       one (SRule RULE_scalarType) ArrayReferenceTypeContext_ScalarType;
       one (STok qasm3ParserCOMMA) ArrayReferenceTypeContext_COMMA;
       one (STok qasm3ParserRBRACKET) ArrayReferenceTypeContext_RBRACKET;
       one (STok qasm3ParserCONST) ArrayReferenceTypeContext_CONST;
       one (STok qasm3ParserMUTABLE) ArrayReferenceTypeContext_MUTABLE;
       one (SRule RULE_expressionList) ArrayReferenceTypeContext_ExpressionList;
       one (STok qasm3ParserDIM) ArrayReferenceTypeContext_DIM;
       one (STok qasm3ParserEQUALS) ArrayReferenceTypeContext_EQUALS;
       one (SRule RULE_expression) ArrayReferenceTypeContext_Expression]
  | DesignatorContext =>
      [one (STok qasm3ParserLBRACKET) DesignatorContext_LBRACKET;
       one (SRule RULE_expression) DesignatorContext_Expression;
       one (STok qasm3ParserRBRACKET) DesignatorContext_RBRACKET]
  | DefcalTargetContext =>
      [one (STok qasm3ParserMEASURE) DefcalTargetContext_MEASURE;
       one (STok qasm3ParserRESET) DefcalTargetContext_RESET;
       one (STok qasm3ParserDELAY) DefcalTargetContext_DELAY;
       one (STok qasm3ParserIdentifier) DefcalTargetContext_Identifier]
  | DefcalArgumentDefinitionContext =>
      [one (SRule RULE_expression) DefcalArgumentDefinitionContext_Expression;
       one (SRule RULE_argumentDefinition) DefcalArgumentDefinitionContext_ArgumentDefinition]
  | DefcalOperandContext =>
      [one (STok qasm3ParserHardwareQubit) DefcalOperandContext_HardwareQubit;
       one (STok qasm3ParserIdentifier) DefcalOperandContext_Identifier]
  | GateOperandContext =>
      [one (SRule RULE_indexedIdentifier) GateOperandContext_IndexedIdentifier;
       one (STok qasm3ParserHardwareQubit) GateOperandContext_HardwareQubit]
  | ExternArgumentContext =>
      [one (SRule RULE_scalarType) ExternArgumentContext_ScalarType;
       one (SRule RULE_arrayReferenceType) ExternArgumentContext_ArrayReferenceType;
       one (STok qasm3ParserCREG) ExternArgumentContext_CREG;
       one (SRule RULE_designator) ExternArgumentContext_Designator]
  | ArgumentDefinitionContext =>
      [one (SRule RULE_scalarType) ArgumentDefinitionContext_ScalarType;
       one (STok qasm3ParserIdentifier) ArgumentDefinitionContext_Identifier;
       one (SRule RULE_qubitType) ArgumentDefinitionContext_QubitType;
       one (STok qasm3ParserCREG) ArgumentDefinitionContext_CREG;
       one (STok qasm3ParserQREG) ArgumentDefinitionContext_QREG;
       one (SRule RULE_designator) ArgumentDefinitionContext_Designator;
       one (SRule RULE_arrayReferenceType) ArgumentDefinitionContext_ArrayReferenceType]
  | ArgumentDefinitionListContext =>
      [many (SRule RULE_argumentDefinition) ArgumentDefinitionListContext_AllArgumentDefinition ArgumentDefinitionListContext_ArgumentDefinition;
       many (STok qasm3ParserCOMMA) (fun s => map Some (ArgumentDefinitionListContext_AllCOMMA s)) ArgumentDefinitionListContext_COMMA]
  | DefcalArgumentDefinitionListContext =>
      [many (SRule RULE_defcalArgumentDefinition) DefcalArgumentDefinitionListContext_AllDefcalArgumentDefinition DefcalArgumentDefinitionListContext_DefcalArgumentDefinition;
       many (STok qasm3ParserCOMMA) (fun s => map Some (DefcalArgumentDefinitionListContext_AllCOMMA s)) DefcalArgumentDefinitionListContext_COMMA]
  | DefcalOperandListContext =>
      [many (SRule RULE_defcalOperand) DefcalOperandListContext_AllDefcalOperand DefcalOperandListContext_DefcalOperand;
       many (STok qasm3ParserCOMMA) (fun s => map Some (DefcalOperandListContext_AllCOMMA s)) DefcalOperandListContext_COMMA]
  | ExpressionListContext =>
      [many (SRule RULE_expression) ExpressionListContext_AllExpression ExpressionListContext_Expression;
       many (STok qasm3ParserCOMMA) (fun s => map Some (ExpressionListContext_AllCOMMA s)) ExpressionListContext_COMMA]
  | IdentifierListContext =>
      [many (STok qasm3ParserIdentifier) (fun s => map Some (IdentifierListContext_AllIdentifier s)) IdentifierListContext_Identifier;
       many (STok qasm3ParserCOMMA) (fun s => map Some (IdentifierListContext_AllCOMMA s)) IdentifierListContext_COMMA]
  | GateOperandListContext =>
      [many (SRule RULE_gateOperand) GateOperandListContext_AllGateOperand GateOperandListContext_GateOperand;
       many (STok qasm3ParserCOMMA) (fun s => map Some (GateOperandListContext_AllCOMMA s)) GateOperandListContext_COMMA]
  | ExternArgumentListContext =>
      [many (SRule RULE_externArgument) ExternArgumentListContext_AllExternArgument ExternArgumentListContext_ExternArgument;
       many (STok qasm3ParserCOMMA) (fun s => map Some (ExternArgumentListContext_AllCOMMA s)) ExternArgumentListContext_COMMA]
  | _ => []
  end.

Context {CL : ContextLaws qasm3Context}.

Lemma qasm3_accessors_sound k : Forall (accessor_sound (K := qasm3Context) (R := qasm3Rule)) (qasm3_accessors k).
Proof.
  destruct k; cbn [qasm3_accessors];
    repeat (constructor; [solve [apply (first_context_sound (G := qasm3_grammar))|apply token_sound
      |apply (all_contexts_sound (G := qasm3_grammar))|apply all_tokens_sound]|]); constructor.
Qed.

Lemma no_match ns : ~ matches (G := qasm3_grammar) (qasm3_rhs ExpressionContext) ns.
Proof. intros H. inversion H as [? t Ht| | | | | | |]; subst. by apply elem_of_nil in Ht. Qed.

Lemma qasm3_accessors_fit k : k <> ExpressionContext -> accessors_fit (qasm3_rhs k) (qasm3_accessors k) = true.
Proof. destruct k; try done; intros _; vm_compute; reflexivity. Qed.

(** What an accessor of a context returns when the children match the rule. *)
Lemma accessor_returns k ls ch a : matches (G := qasm3_grammar) (qasm3_rhs k) ch -> a ∈ qasm3_accessors k ->
  match a with
  | one s get => (1 <= least s (qasm3_rhs k))%nat -> is_Some (get (Node k ls ch))
  | many s get at_ => (least s (qasm3_rhs k) <= length (get (Node k ls ch)))%nat /\
      forall i, 0 <= i -> at_ (Node k ls ch) i = mjoin (get (Node k ls ch) !! Z.to_nat i)
  end.
Proof.
  intros Hm Ha. pose proof (qasm3_accessors_sound k) as Hs. rewrite Forall_forall in Hs. specialize (Hs a Ha (Node k ls ch)).
  pose proof (fun s => matches_least _ s ch Hm) as Hl. unfold occurrences in Hl.
  destruct a as [s get|s get at_]; cbn [children_of] in Hs; specialize (Hl s).
  - intros Hs1. rewrite Hs. destruct (filter (is_symbol s) ch); [cbn in Hl; lia|by eexists].
  - destruct Hs as [Hg Hat]. split; [by rewrite Hg, length_map|].
    intros i Hi. rewrite Hg, Hat, list_lookup_fmap by done. by destruct (filter _ _ !! _).
Qed.

(** C17: The generated accessors lose nothing and invent nothing.  On a context of
    a tree that derives by the grammar, as the parser builds them, the accessors
    of its type return every child exactly once: each child is in the result of
    one accessor, an accessor without index is never short of a second child.
    The one for index [i] returns what the one for all has at [i], and nil behind
    the end; an accessor of a child the rule requires never returns nil. *)
Theorem context_accessors_exact k ls ch : derives (G := qasm3_grammar) (Node k ls ch) ->
  concat (map (fun a => returned a (Node k ls ch)) (qasm3_accessors k)) ≡ₚ map Some ch /\
  Forall (fun a => match a with
    | one s get => (1 <= least s (qasm3_rhs k))%nat -> is_Some (get (Node k ls ch))
    | many s get at_ => (least s (qasm3_rhs k) <= length (get (Node k ls ch)))%nat /\
        forall i, 0 <= i -> at_ (Node k ls ch) i = mjoin (get (Node k ls ch) !! Z.to_nat i)
    end) (qasm3_accessors k).
Proof.
  intros H. inversion H as [|? ? ? Hm _]; subst. split.
  - apply (accessors_return_children (G := qasm3_grammar)); [apply qasm3_accessors_sound| |exact Hm].
    apply qasm3_accessors_fit. intros ->. by eapply no_match.
  - apply Forall_forall. intros a Ha. by apply accessor_returns.
Qed.
End contexts.
