(* ===== verification/Qasm3Complete.v ===== *)
(** * The generated parser accepts the grammar

    On the machine, whose prediction answers as it is told, the parser returns
    every derivation of the grammar for some answers: no test of the next token
    in the generated code leads away from a derivation.  With Qasm3Sound, the
    trees the parser can return are the derivations. *)

From stdpp Require Import base list strings sets.
From Stdlib Require Import ZArith Lia.
From S2P Require Import Prelude Antlr AntlrLaws AntlrContexts AntlrMachine AntlrComplete Qasm3Grammar Qasm3Parser Qasm3Sound Qasm3Contexts.

(** ** The tokens a rule starts with, and those that follow it

    Both tables are computed from the grammar, by steps until nothing changes. *)

Definition all_contexts_kinds : list qasm3Context :=
  [ProgramContext; VersionContext; StatementContext; AnnotationContext; ScopeContext; PragmaContext;
   StatementOrScopeContext; CalibrationGrammarStatementContext; IncludeStatementContext;
   BreakStatementContext; ContinueStatementContext; EndStatementContext; ForStatementContext;
   IfStatementContext; ReturnStatementContext; WhileStatementContext; BarrierStatementContext;
   BoxStatementContext; DelayStatementContext; GateCallStatementContext;
   MeasureArrowAssignmentStatementContext; ResetStatementContext; AliasDeclarationStatementContext;
   ClassicalDeclarationStatementContext; ConstDeclarationStatementContext; IoDeclarationStatementContext;
   OldStyleDeclarationStatementContext; QuantumDeclarationStatementContext; DefStatementContext;
   ExternStatementContext; GateStatementContext; AssignmentStatementContext; ExpressionStatementContext;
   CalStatementContext; DefcalStatementContext; ExpressionContext; BitwiseXorExpressionContext;
   AdditiveExpressionContext; DurationofExpressionContext; ParenthesisExpressionContext;
   ComparisonExpressionContext; MultiplicativeExpressionContext; LogicalOrExpressionContext;
   CastExpressionContext; PowerExpressionContext; BitwiseOrExpressionContext; CallExpressionContext;
   BitshiftExpressionContext; BitwiseAndExpressionContext; EqualityExpressionContext;
   LogicalAndExpressionContext; IndexExpressionContext; UnaryExpressionContext; LiteralExpressionContext;
   AliasExpressionContext; DeclarationExpressionContext; MeasureExpressionContext; RangeExpressionContext;
   SetExpressionContext; ArrayLiteralContext; IndexOperatorContext; IndexedIdentifierContext;
   ReturnSignatureContext; GateModifierContext; ScalarTypeContext; QubitTypeContext; ArrayTypeContext;
   ArrayReferenceTypeContext; DesignatorContext; DefcalTargetContext; DefcalArgumentDefinitionContext;
   DefcalOperandContext; GateOperandContext; ExternArgumentContext; ArgumentDefinitionContext;
   ArgumentDefinitionListContext; DefcalArgumentDefinitionListContext; DefcalOperandListContext;
   ExpressionListContext; IdentifierListContext; GateOperandListContext; ExternArgumentListContext].
Definition all_rules : list qasm3Rule :=
  [RULE_program; RULE_version; RULE_statement; RULE_annotation; RULE_scope; RULE_pragma;
   RULE_statementOrScope; RULE_calibrationGrammarStatement; RULE_includeStatement; RULE_breakStatement;
   RULE_continueStatement; RULE_endStatement; RULE_forStatement; RULE_ifStatement; RULE_returnStatement;
   RULE_whileStatement; RULE_barrierStatement; RULE_boxStatement; RULE_delayStatement;
   RULE_gateCallStatement; RULE_measureArrowAssignmentStatement; RULE_resetStatement;
   RULE_aliasDeclarationStatement; RULE_classicalDeclarationStatement; RULE_constDeclarationStatement;
   RULE_ioDeclarationStatement; RULE_oldStyleDeclarationStatement; RULE_quantumDeclarationStatement;
   RULE_defStatement; RULE_externStatement; RULE_gateStatement; RULE_assignmentStatement;
   RULE_expressionStatement; RULE_calStatement; RULE_defcalStatement; RULE_expression; RULE_aliasExpression;
   RULE_declarationExpression; RULE_measureExpression; RULE_rangeExpression; RULE_setExpression;
   RULE_arrayLiteral; RULE_indexOperator; RULE_indexedIdentifier; RULE_returnSignature; RULE_gateModifier;
   RULE_scalarType; RULE_qubitType; RULE_arrayType; RULE_arrayReferenceType; RULE_designator;
   RULE_defcalTarget; RULE_defcalArgumentDefinition; RULE_defcalOperand; RULE_gateOperand;
   RULE_externArgument; RULE_argumentDefinition; RULE_argumentDefinitionList;
   RULE_defcalArgumentDefinitionList; RULE_defcalOperandList; RULE_expressionList; RULE_identifierList;
   RULE_gateOperandList; RULE_externArgumentList].

Definition table := list (qasm3Rule * list Z).
Definition entry (tab : table) (r : qasm3Rule) : list Z :=
  default [] (snd <$> find (fun e => bool_decide (e.1 = r)) tab).
Definition insert_tokens (ts l : list Z) : list Z :=
  foldr (fun t l => if existsb (Z.eqb t) l then l else t :: l) l ts.

Definition first_step (tab : table) : table :=
  map (fun r => (r, foldr (fun k l => if bool_decide (qasm3_rule_of k = r)
    then insert_tokens (first (FT := {| first_of := entry tab |}) (qasm3_rhs k)) l else l) [] all_contexts_kinds)) all_rules.
Definition first_table : table := Eval vm_compute in Nat.iter 6 first_step [].
#[export] Instance qasm3_first : FirstTokens qasm3Context qasm3Rule := {| first_of := entry first_table |}.

#[export] Instance qasm3_first_laws : FirstLaws qasm3Context qasm3Rule.
Proof.
  split.
  - intros k z Hz. assert (forallb (fun z => existsb (Z.eqb z) (first_of (rule_of k))) (first (rhs k)) = true) as H
      by (destruct k; vm_compute; reflexivity).
    eapply forallb_forall in H; [|by apply list_elem_of_In]. apply existsb_exists in H as (z' & Hin & ->%Z.eqb_eq). by apply list_elem_of_In.
  - intros k. destruct k; vm_compute; congruence.
Qed.

(** The calls of a right-hand side, with what can follow each. *)
Fixpoint calls (r : re qasm3Rule) (F : list Z) : table :=
  match r with
  | NT x _ => [(x, F)]
  | Seq a b => calls a (starts b F) ++ calls b F
  | Alt a b => calls a F ++ calls b F
  | Star a => calls a (first a ++ F)
  | Tok _ | Eps => []
  end.
Definition follow_step (tab : table) : table :=
  let all := concat (map (fun k => calls (qasm3_rhs k) (entry tab (qasm3_rule_of k))) all_contexts_kinds) in
  map (fun r => (r, foldr (fun e l => if bool_decide (e.1 = r) then insert_tokens e.2 l else l) (entry tab r) all)) all_rules.
Definition follow_table : table := Eval vm_compute in Nat.iter 10 follow_step [(RULE_program, [TokenEOF])].
Definition follow (r : qasm3Rule) : list Z := entry follow_table r.

(** ** Every body *)

Section complete.
Context (call : qasm3Rule -> Z -> PM (machine qasm3Context) (node qasm3Context)) (fuel N : nat).
#[local] Hint Extern 0 (ParserRuntime _ (machine _)) => exact (runtime decision_alts) : typeclass_instances.
Local Abbreviation accepts := (accepts (G := qasm3_grammar)).
Local Abbreviation silent := (silent (K := qasm3Context)).
Hypothesis Hcall : forall z r lvl F, forallb (fun x => existsb (Z.eqb x) (follow r)) F = true ->
  accepts z N (call r lvl) (NT r lvl) F.
Hypothesis Hfuel : (N < fuel)%nat.

Ltac solve_silent :=
  lazymatch goal with
  | |- AntlrComplete.silent (SetState _) => apply silent_SetState
  | |- AntlrComplete.silent (EnterOuterAlt _) => apply silent_EnterOuterAlt
  | |- AntlrComplete.silent p_Sync => apply silent_Sync
  | |- AntlrComplete.silent ReportMatch => apply silent_ReportMatch
  | |- AntlrComplete.silent (SetField _ _) => apply silent_SetField
  | |- AntlrComplete.silent (pret _) => apply silent_ret
  | |- AntlrComplete.silent (pdo _) => by apply silent_do
  | |- AntlrComplete.silent (pbind _ _) => apply silent_bind; [solve_silent|intros ?; solve_silent]
  | |- AntlrComplete.silent (if _ then _ else _) => apply silent_if; solve_silent
  | |- AntlrComplete.silent _ => apply silent_get; reflexivity
  end.

Ltac solve_peeks :=
  lazymatch goal with
  | |- peeks LA1 => apply peeks_la
  | |- peeks (pbind _ _) => apply peeks_silent; [solve_silent|solve_peeks]
  end.

Ltac by_compute := vm_compute; reflexivity.

Ltac accept :=
  lazymatch goal with
  | |- AntlrComplete.accepts _ _ _ (Opt _) _ => unfold Opt; accept
  | |- AntlrComplete.accepts _ _ _ (Alt _ _) _ => apply accepts_alt; accept
  | |- AntlrComplete.accepts _ _ (pbind (SetState _) _) _ _ => apply accepts_silent; [apply silent_SetState|intros ?; accept]
  | |- AntlrComplete.accepts _ _ (pbind (EnterOuterAlt _) _) _ _ => apply accepts_silent; [apply silent_EnterOuterAlt|intros ?; accept]
  | |- AntlrComplete.accepts _ _ (pbind p_Sync _) _ _ => apply accepts_silent; [apply silent_Sync|intros ?; accept]
  | |- AntlrComplete.accepts _ _ (pbind ReportMatch _) _ _ => apply accepts_silent; [apply silent_ReportMatch|intros ?; accept]
  | |- AntlrComplete.accepts _ _ (pbind (SetField _ _) _) _ _ => apply accepts_silent; [apply silent_SetField|intros ?; accept]
  | |- AntlrComplete.accepts _ _ (pbind LT1 _) _ _ => apply accepts_silent; [apply silent_get; reflexivity|intros ?; accept]
  | |- AntlrComplete.accepts _ _ (pbind LA1 _) _ _ => apply accepts_la; cbv beta; accept
  | |- AntlrComplete.accepts ?z _ (if ?b then _ else _) _ _ =>
      let c := eval pattern z in b in
      lazymatch c with
      | ?f z => first [apply (accepts_yes z N f); [by_compute|accept]|apply (accepts_no z N f); [by_compute|accept]]
      end
  | |- AntlrComplete.accepts _ _ (pbind (p_AdaptivePredict _) (fun a => pbind (for_loop _ _ _ _ a) _)) _ _ =>
      apply accepts_assoc; apply accepts_seq; [accept|intros ? ?; accept]
  | |- AntlrComplete.accepts _ _ (pbind (p_AdaptivePredict _) _) (Star _) _ =>
      apply (accepts_predict_for decision_alts (NL := qasm3_grammar_laws));
        [exact Hfuel|reflexivity|reflexivity|reflexivity|reflexivity|intros ?; cbv beta; accept|solve_silent|solve_silent]
  | |- AntlrComplete.accepts _ _ (pbind (p_AdaptivePredict ?d) _) _ _ =>
      let n := eval vm_compute in (decision_alts d) in choose n
  | |- AntlrComplete.accepts _ _ (for_loop _ _ _ _ _) (Star _) _ =>
      apply (accepts_for (NL := qasm3_grammar_laws)); [exact Hfuel|reflexivity|by_compute|by_compute|intros ? ?; cbv beta; accept|solve_peeks]
  | |- AntlrComplete.accepts _ _ (pret _) Eps _ => apply accepts_ret
  | |- AntlrComplete.accepts _ _ (Match _) (Tok _) _ => apply accepts_match; by_compute
  | |- AntlrComplete.accepts _ _ p_Consume (Tok _) _ => apply accepts_consume; by_compute
  | |- AntlrComplete.accepts _ _ (call _ _) (NT _ _) _ => apply Hcall; by_compute
  | |- AntlrComplete.accepts _ _ (pbind _ _) (Seq _ _) _ => apply accepts_seq; [accept|intros ? ?; accept]
  | |- AntlrComplete.accepts _ _ (pbind _ _) _ _ => apply accepts_then; [accept|intros ?; solve_silent]
  end
with choose n :=
  first [apply (accepts_predict _ _ _ _ n); [reflexivity|cbv beta; solve [accept]]
    |let n' := eval vm_compute in (n - 1) in lazymatch n' with 0 => fail | _ => choose n' end].

Lemma Program_accepts z : accepts z N (qasm3Parser_Program_body call fuel)
  (qasm3_rhs ProgramContext) (follow RULE_program).
Proof. cbv delta [qasm3_rhs] iota beta. unfold qasm3Parser_Program_body. accept. Qed.
Lemma Version_accepts z : accepts z N (qasm3Parser_Version_body)
  (qasm3_rhs VersionContext) (follow RULE_version).
Proof. cbv delta [qasm3_rhs] iota beta. unfold qasm3Parser_Version_body. accept. Qed.
Lemma Statement_accepts z : accepts z N (qasm3Parser_Statement_body call fuel)
  (qasm3_rhs StatementContext) (follow RULE_statement).
Proof. cbv delta [qasm3_rhs] iota beta. unfold qasm3Parser_Statement_body. accept. Qed.
Lemma Annotation_accepts z : accepts z N (qasm3Parser_Annotation_body)
  (qasm3_rhs AnnotationContext) (follow RULE_annotation).
Proof. cbv delta [qasm3_rhs] iota beta. unfold qasm3Parser_Annotation_body. accept. Qed.
Lemma Scope_accepts z : accepts z N (qasm3Parser_Scope_body call fuel)
  (qasm3_rhs ScopeContext) (follow RULE_scope).
Proof. cbv delta [qasm3_rhs] iota beta. unfold qasm3Parser_Scope_body. accept. Qed.
Lemma Pragma_accepts z : accepts z N (qasm3Parser_Pragma_body)
  (qasm3_rhs PragmaContext) (follow RULE_pragma).
Proof. cbv delta [qasm3_rhs] iota beta. unfold qasm3Parser_Pragma_body. accept. Qed.
Lemma StatementOrScope_accepts z : accepts z N (qasm3Parser_StatementOrScope_body call)
  (qasm3_rhs StatementOrScopeContext) (follow RULE_statementOrScope).
Proof. cbv delta [qasm3_rhs] iota beta. unfold qasm3Parser_StatementOrScope_body. accept. Qed.
Lemma CalibrationGrammarStatement_accepts z : accepts z N (qasm3Parser_CalibrationGrammarStatement_body)
  (qasm3_rhs CalibrationGrammarStatementContext) (follow RULE_calibrationGrammarStatement).
Proof. cbv delta [qasm3_rhs] iota beta. unfold qasm3Parser_CalibrationGrammarStatement_body. accept. Qed.
Lemma IncludeStatement_accepts z : accepts z N (qasm3Parser_IncludeStatement_body)
  (qasm3_rhs IncludeStatementContext) (follow RULE_includeStatement).
Proof. cbv delta [qasm3_rhs] iota beta. unfold qasm3Parser_IncludeStatement_body. accept. Qed.
Lemma BreakStatement_accepts z : accepts z N (qasm3Parser_BreakStatement_body)
  (qasm3_rhs BreakStatementContext) (follow RULE_breakStatement).
Proof. cbv delta [qasm3_rhs] iota beta. unfold qasm3Parser_BreakStatement_body. accept. Qed.
Lemma ContinueStatement_accepts z : accepts z N (qasm3Parser_ContinueStatement_body)
  (qasm3_rhs ContinueStatementContext) (follow RULE_continueStatement).
Proof. cbv delta [qasm3_rhs] iota beta. unfold qasm3Parser_ContinueStatement_body. accept. Qed.
Lemma EndStatement_accepts z : accepts z N (qasm3Parser_EndStatement_body)
  (qasm3_rhs EndStatementContext) (follow RULE_endStatement).
Proof. cbv delta [qasm3_rhs] iota beta. unfold qasm3Parser_EndStatement_body. accept. Qed.
Lemma ForStatement_accepts z : accepts z N (qasm3Parser_ForStatement_body call)
  (qasm3_rhs ForStatementContext) (follow RULE_forStatement).
Proof. cbv delta [qasm3_rhs] iota beta. unfold qasm3Parser_ForStatement_body. accept. Qed.
Lemma IfStatement_accepts z : accepts z N (qasm3Parser_IfStatement_body call)
  (qasm3_rhs IfStatementContext) (follow RULE_ifStatement).
Proof. cbv delta [qasm3_rhs] iota beta. unfold qasm3Parser_IfStatement_body. accept. Qed.
Lemma ReturnStatement_accepts z : accepts z N (qasm3Parser_ReturnStatement_body call)
  (qasm3_rhs ReturnStatementContext) (follow RULE_returnStatement).
Proof. cbv delta [qasm3_rhs] iota beta. unfold qasm3Parser_ReturnStatement_body. accept. Qed.
Lemma WhileStatement_accepts z : accepts z N (qasm3Parser_WhileStatement_body call)
  (qasm3_rhs WhileStatementContext) (follow RULE_whileStatement).
Proof. cbv delta [qasm3_rhs] iota beta. unfold qasm3Parser_WhileStatement_body. accept. Qed.
Lemma BarrierStatement_accepts z : accepts z N (qasm3Parser_BarrierStatement_body call)
  (qasm3_rhs BarrierStatementContext) (follow RULE_barrierStatement).
Proof. cbv delta [qasm3_rhs] iota beta. unfold qasm3Parser_BarrierStatement_body. accept. Qed.
Lemma BoxStatement_accepts z : accepts z N (qasm3Parser_BoxStatement_body call)
  (qasm3_rhs BoxStatementContext) (follow RULE_boxStatement).
Proof. cbv delta [qasm3_rhs] iota beta. unfold qasm3Parser_BoxStatement_body. accept. Qed.
Lemma DelayStatement_accepts z : accepts z N (qasm3Parser_DelayStatement_body call)
  (qasm3_rhs DelayStatementContext) (follow RULE_delayStatement).
Proof. cbv delta [qasm3_rhs] iota beta. unfold qasm3Parser_DelayStatement_body. accept. Qed.
Lemma GateCallStatement_accepts z : accepts z N (qasm3Parser_GateCallStatement_body call fuel)
  (qasm3_rhs GateCallStatementContext) (follow RULE_gateCallStatement).
Proof. cbv delta [qasm3_rhs] iota beta. unfold qasm3Parser_GateCallStatement_body. accept. Qed.
Lemma MeasureArrowAssignmentStatement_accepts z : accepts z N (qasm3Parser_MeasureArrowAssignmentStatement_body call)
  (qasm3_rhs MeasureArrowAssignmentStatementContext) (follow RULE_measureArrowAssignmentStatement).
Proof. cbv delta [qasm3_rhs] iota beta. unfold qasm3Parser_MeasureArrowAssignmentStatement_body. accept. Qed.
Lemma ResetStatement_accepts z : accepts z N (qasm3Parser_ResetStatement_body call)
  (qasm3_rhs ResetStatementContext) (follow RULE_resetStatement).
Proof. cbv delta [qasm3_rhs] iota beta. unfold qasm3Parser_ResetStatement_body. accept. Qed.
Lemma AliasDeclarationStatement_accepts z : accepts z N (qasm3Parser_AliasDeclarationStatement_body call)
  (qasm3_rhs AliasDeclarationStatementContext) (follow RULE_aliasDeclarationStatement).
Proof. cbv delta [qasm3_rhs] iota beta. unfold qasm3Parser_AliasDeclarationStatement_body. accept. Qed.
Lemma ClassicalDeclarationStatement_accepts z : accepts z N (qasm3Parser_ClassicalDeclarationStatement_body call)
  (qasm3_rhs ClassicalDeclarationStatementContext) (follow RULE_classicalDeclarationStatement).
Proof. cbv delta [qasm3_rhs] iota beta. unfold qasm3Parser_ClassicalDeclarationStatement_body. accept. Qed.
Lemma ConstDeclarationStatement_accepts z : accepts z N (qasm3Parser_ConstDeclarationStatement_body call)
  (qasm3_rhs ConstDeclarationStatementContext) (follow RULE_constDeclarationStatement).
Proof. cbv delta [qasm3_rhs] iota beta. unfold qasm3Parser_ConstDeclarationStatement_body. accept. Qed.
Lemma IoDeclarationStatement_accepts z : accepts z N (qasm3Parser_IoDeclarationStatement_body call)
  (qasm3_rhs IoDeclarationStatementContext) (follow RULE_ioDeclarationStatement).
Proof. cbv delta [qasm3_rhs] iota beta. unfold qasm3Parser_IoDeclarationStatement_body. accept. Qed.
Lemma OldStyleDeclarationStatement_accepts z : accepts z N (qasm3Parser_OldStyleDeclarationStatement_body call)
  (qasm3_rhs OldStyleDeclarationStatementContext) (follow RULE_oldStyleDeclarationStatement).
Proof. cbv delta [qasm3_rhs] iota beta. unfold qasm3Parser_OldStyleDeclarationStatement_body. accept. Qed.
Lemma QuantumDeclarationStatement_accepts z : accepts z N (qasm3Parser_QuantumDeclarationStatement_body call)
  (qasm3_rhs QuantumDeclarationStatementContext) (follow RULE_quantumDeclarationStatement).
Proof. cbv delta [qasm3_rhs] iota beta. unfold qasm3Parser_QuantumDeclarationStatement_body. accept. Qed.
Lemma DefStatement_accepts z : accepts z N (qasm3Parser_DefStatement_body call)
  (qasm3_rhs DefStatementContext) (follow RULE_defStatement).
Proof. cbv delta [qasm3_rhs] iota beta. unfold qasm3Parser_DefStatement_body. accept. Qed.
Lemma ExternStatement_accepts z : accepts z N (qasm3Parser_ExternStatement_body call)
  (qasm3_rhs ExternStatementContext) (follow RULE_externStatement).
Proof. cbv delta [qasm3_rhs] iota beta. unfold qasm3Parser_ExternStatement_body. accept. Qed.
Lemma GateStatement_accepts z : accepts z N (qasm3Parser_GateStatement_body call)
  (qasm3_rhs GateStatementContext) (follow RULE_gateStatement).
Proof. cbv delta [qasm3_rhs] iota beta. unfold qasm3Parser_GateStatement_body. accept. Qed.
Lemma AssignmentStatement_accepts z : accepts z N (qasm3Parser_AssignmentStatement_body call)
  (qasm3_rhs AssignmentStatementContext) (follow RULE_assignmentStatement).
Proof. cbv delta [qasm3_rhs] iota beta. unfold qasm3Parser_AssignmentStatement_body. accept. Qed.
Lemma ExpressionStatement_accepts z : accepts z N (qasm3Parser_ExpressionStatement_body call)
  (qasm3_rhs ExpressionStatementContext) (follow RULE_expressionStatement).
Proof. cbv delta [qasm3_rhs] iota beta. unfold qasm3Parser_ExpressionStatement_body. accept. Qed.
Lemma CalStatement_accepts z : accepts z N (qasm3Parser_CalStatement_body)
  (qasm3_rhs CalStatementContext) (follow RULE_calStatement).
Proof. cbv delta [qasm3_rhs] iota beta. unfold qasm3Parser_CalStatement_body. accept. Qed.
Lemma DefcalStatement_accepts z : accepts z N (qasm3Parser_DefcalStatement_body call)
  (qasm3_rhs DefcalStatementContext) (follow RULE_defcalStatement).
Proof. cbv delta [qasm3_rhs] iota beta. unfold qasm3Parser_DefcalStatement_body. accept. Qed.
Lemma AliasExpression_accepts z : accepts z N (qasm3Parser_AliasExpression_body call fuel)
  (qasm3_rhs AliasExpressionContext) (follow RULE_aliasExpression).
Proof. cbv delta [qasm3_rhs] iota beta. unfold qasm3Parser_AliasExpression_body. accept. Qed.
Lemma DeclarationExpression_accepts z : accepts z N (qasm3Parser_DeclarationExpression_body call)
  (qasm3_rhs DeclarationExpressionContext) (follow RULE_declarationExpression).
Proof. cbv delta [qasm3_rhs] iota beta. unfold qasm3Parser_DeclarationExpression_body. accept. Qed.
Lemma MeasureExpression_accepts z : accepts z N (qasm3Parser_MeasureExpression_body call)
  (qasm3_rhs MeasureExpressionContext) (follow RULE_measureExpression).
Proof. cbv delta [qasm3_rhs] iota beta. unfold qasm3Parser_MeasureExpression_body. accept. Qed.
Lemma RangeExpression_accepts z : accepts z N (qasm3Parser_RangeExpression_body call)
  (qasm3_rhs RangeExpressionContext) (follow RULE_rangeExpression).
Proof. cbv delta [qasm3_rhs] iota beta. unfold qasm3Parser_RangeExpression_body. accept. Qed.
Lemma SetExpression_accepts z : accepts z N (qasm3Parser_SetExpression_body call fuel)
  (qasm3_rhs SetExpressionContext) (follow RULE_setExpression).
Proof. cbv delta [qasm3_rhs] iota beta. unfold qasm3Parser_SetExpression_body. accept. Qed.
Lemma ArrayLiteral_accepts z : accepts z N (qasm3Parser_ArrayLiteral_body call fuel)
  (qasm3_rhs ArrayLiteralContext) (follow RULE_arrayLiteral).
Proof. cbv delta [qasm3_rhs] iota beta. unfold qasm3Parser_ArrayLiteral_body. accept. Qed.
Lemma IndexOperator_accepts z : accepts z N (qasm3Parser_IndexOperator_body call fuel)
  (qasm3_rhs IndexOperatorContext) (follow RULE_indexOperator).
Proof. cbv delta [qasm3_rhs] iota beta. unfold qasm3Parser_IndexOperator_body. accept. Qed.
Lemma IndexedIdentifier_accepts z : accepts z N (qasm3Parser_IndexedIdentifier_body call fuel)
  (qasm3_rhs IndexedIdentifierContext) (follow RULE_indexedIdentifier).
Proof. cbv delta [qasm3_rhs] iota beta. unfold qasm3Parser_IndexedIdentifier_body. accept. Qed.
Lemma ReturnSignature_accepts z : accepts z N (qasm3Parser_ReturnSignature_body call)
  (qasm3_rhs ReturnSignatureContext) (follow RULE_returnSignature).
Proof. cbv delta [qasm3_rhs] iota beta. unfold qasm3Parser_ReturnSignature_body. accept. Qed.
Lemma GateModifier_accepts z : accepts z N (qasm3Parser_GateModifier_body call)
  (qasm3_rhs GateModifierContext) (follow RULE_gateModifier).
Proof. cbv delta [qasm3_rhs] iota beta. unfold qasm3Parser_GateModifier_body. accept. Qed.
Lemma ScalarType_accepts z : accepts z N (qasm3Parser_ScalarType_body call)
  (qasm3_rhs ScalarTypeContext) (follow RULE_scalarType).
Proof. cbv delta [qasm3_rhs] iota beta. unfold qasm3Parser_ScalarType_body. accept. Qed.
Lemma QubitType_accepts z : accepts z N (qasm3Parser_QubitType_body call)
  (qasm3_rhs QubitTypeContext) (follow RULE_qubitType).
Proof. cbv delta [qasm3_rhs] iota beta. unfold qasm3Parser_QubitType_body. accept. Qed.
Lemma ArrayType_accepts z : accepts z N (qasm3Parser_ArrayType_body call)
  (qasm3_rhs ArrayTypeContext) (follow RULE_arrayType).
Proof. cbv delta [qasm3_rhs] iota beta. unfold qasm3Parser_ArrayType_body. accept. Qed.
Lemma ArrayReferenceType_accepts z : accepts z N (qasm3Parser_ArrayReferenceType_body call)
  (qasm3_rhs ArrayReferenceTypeContext) (follow RULE_arrayReferenceType).
Proof. cbv delta [qasm3_rhs] iota beta. unfold qasm3Parser_ArrayReferenceType_body. accept. Qed.
Lemma Designator_accepts z : accepts z N (qasm3Parser_Designator_body call)
  (qasm3_rhs DesignatorContext) (follow RULE_designator).
Proof. cbv delta [qasm3_rhs] iota beta. unfold qasm3Parser_Designator_body. accept. Qed.
Lemma DefcalTarget_accepts z : accepts z N (qasm3Parser_DefcalTarget_body)
  (qasm3_rhs DefcalTargetContext) (follow RULE_defcalTarget).
Proof. cbv delta [qasm3_rhs] iota beta. unfold qasm3Parser_DefcalTarget_body. accept. Qed.
Lemma DefcalArgumentDefinition_accepts z : accepts z N (qasm3Parser_DefcalArgumentDefinition_body call)
  (qasm3_rhs DefcalArgumentDefinitionContext) (follow RULE_defcalArgumentDefinition).
Proof. cbv delta [qasm3_rhs] iota beta. unfold qasm3Parser_DefcalArgumentDefinition_body. accept. Qed.
Lemma DefcalOperand_accepts z : accepts z N (qasm3Parser_DefcalOperand_body)
  (qasm3_rhs DefcalOperandContext) (follow RULE_defcalOperand).
Proof. cbv delta [qasm3_rhs] iota beta. unfold qasm3Parser_DefcalOperand_body. accept. Qed.
Lemma GateOperand_accepts z : accepts z N (qasm3Parser_GateOperand_body call)
  (qasm3_rhs GateOperandContext) (follow RULE_gateOperand).
Proof. cbv delta [qasm3_rhs] iota beta. unfold qasm3Parser_GateOperand_body. accept. Qed.
Lemma ExternArgument_accepts z : accepts z N (qasm3Parser_ExternArgument_body call)
  (qasm3_rhs ExternArgumentContext) (follow RULE_externArgument).
Proof. cbv delta [qasm3_rhs] iota beta. unfold qasm3Parser_ExternArgument_body. accept. Qed.
Lemma ArgumentDefinition_accepts z : accepts z N (qasm3Parser_ArgumentDefinition_body call)
  (qasm3_rhs ArgumentDefinitionContext) (follow RULE_argumentDefinition).
Proof. cbv delta [qasm3_rhs] iota beta. unfold qasm3Parser_ArgumentDefinition_body. accept. Qed.
Lemma ArgumentDefinitionList_accepts z : accepts z N (qasm3Parser_ArgumentDefinitionList_body call fuel)
  (qasm3_rhs ArgumentDefinitionListContext) (follow RULE_argumentDefinitionList).
Proof. cbv delta [qasm3_rhs] iota beta. unfold qasm3Parser_ArgumentDefinitionList_body. accept. Qed.
Lemma DefcalArgumentDefinitionList_accepts z : accepts z N (qasm3Parser_DefcalArgumentDefinitionList_body call fuel)
  (qasm3_rhs DefcalArgumentDefinitionListContext) (follow RULE_defcalArgumentDefinitionList).
Proof. cbv delta [qasm3_rhs] iota beta. unfold qasm3Parser_DefcalArgumentDefinitionList_body. accept. Qed.
Lemma DefcalOperandList_accepts z : accepts z N (qasm3Parser_DefcalOperandList_body call fuel)
  (qasm3_rhs DefcalOperandListContext) (follow RULE_defcalOperandList).
Proof. cbv delta [qasm3_rhs] iota beta. unfold qasm3Parser_DefcalOperandList_body. accept. Qed.
Lemma ExpressionList_accepts z : accepts z N (qasm3Parser_ExpressionList_body call fuel)
  (qasm3_rhs ExpressionListContext) (follow RULE_expressionList).
Proof. cbv delta [qasm3_rhs] iota beta. unfold qasm3Parser_ExpressionList_body. accept. Qed.
Lemma IdentifierList_accepts z : accepts z N (qasm3Parser_IdentifierList_body fuel)
  (qasm3_rhs IdentifierListContext) (follow RULE_identifierList).
Proof. cbv delta [qasm3_rhs] iota beta. unfold qasm3Parser_IdentifierList_body. accept. Qed.
Lemma GateOperandList_accepts z : accepts z N (qasm3Parser_GateOperandList_body call fuel)
  (qasm3_rhs GateOperandListContext) (follow RULE_gateOperandList).
Proof. cbv delta [qasm3_rhs] iota beta. unfold qasm3Parser_GateOperandList_body. accept. Qed.
Lemma ExternArgumentList_accepts z : accepts z N (qasm3Parser_ExternArgumentList_body call fuel)
  (qasm3_rhs ExternArgumentListContext) (follow RULE_externArgumentList).
Proof. cbv delta [qasm3_rhs] iota beta. unfold qasm3Parser_ExternArgumentList_body. accept. Qed.

(** *** expression *)

Lemma expression_left : left_law (R := qasm3Rule) RULE_expression.
Proof.
  intros k _ Hl. destruct k; try (vm_compute in Hl; discriminate Hl); eexists; (split; [reflexivity|reflexivity]).
Qed.

Ltac choose_opens n :=
  first [apply (opens_predict decision_alts _ _ _ _ n); [reflexivity|cbv beta; cbn [Z.eqb Pos.eqb]; cbv iota;
      apply opens_alternative; intros ?; cbn [rhs qasm3_grammar qasm3_rhs]; solve [accept]]
    |let n' := eval vm_compute in (n - 1) in lazymatch n' with 0 => fail | _ => choose_opens n' end].

Lemma primary_opens : opens RULE_expression N (qasm3Parser_expression_primary call) (follow RULE_expression).
Proof.
  intros k ch rest Hk Hl. assert (k <> ExpressionContext -> opens_as k (rhs k) N (qasm3Parser_expression_primary call) (follow RULE_expression)) as H.
  { intros Hne. unfold qasm3Parser_expression_primary. do 3 (apply opens_silent; [solve_silent|intros ?]).
    destruct k; try discriminate Hk; try (vm_compute in Hl; discriminate Hl); try done; choose_opens 6. }
  intros Hm. apply H; [|exact Hm]. intros ->. by eapply no_match.
Qed.

Ltac choose_extends n :=
  first [apply (extends_predict decision_alts _ _ _ _ n); [reflexivity|cbv beta; cbn [Z.eqb Pos.eqb]; cbv iota;
      apply extends_operator; [vm_compute; discriminate|intros ?; solve [accept]]]
    |let n' := eval vm_compute in (n - 1) in lazymatch n' with 0 => fail | _ => choose_extends n' end].

Lemma operator_extends s : extends RULE_expression N (qasm3Parser_expression_operator call s) (follow RULE_expression).
Proof.
  intros k r ch rest q _ Hl Hr.
  assert (extends_as k r N (qasm3Parser_expression_operator call s) (follow RULE_expression)) as H.
  { unfold qasm3Parser_expression_operator. destruct k; try (vm_compute in Hl; discriminate Hl); injection Hr as <-; choose_extends 12. }
  intros Hq Hm. by apply H.
Qed.

Lemma expression_accepts z q F : forallb (fun x => existsb (Z.eqb x) (follow RULE_expression)) F = true ->
  accepts z (S N) (qasm3Parser_expression call fuel q) (NT RULE_expression q) F.
Proof.
  intros HF. unfold qasm3Parser_expression, qasm3Parser_expression_body. cbv zeta.
  apply (accepts_recursion decision_alts RULE_expression z expression_left N _ _ _ _ _ _ _ _ _ _ _ _ _ _ (follow RULE_expression));
    try reflexivity; try exact Hfuel; try solve [solve_silent].
  - intros x Hx. eapply forallb_forall in HF; [|by apply list_elem_of_In].
    apply existsb_exists in HF as (y & Hy & ->%Z.eqb_eq). by apply list_elem_of_In.
  - intros k r x _ Hl Hr Hx.
    assert (forallb (fun x => existsb (Z.eqb x) (follow RULE_expression)) (first r) = true) as H
      by (destruct k; try (vm_compute in Hl; discriminate Hl); injection Hr as <-; by_compute).
    eapply forallb_forall in H; [|by apply list_elem_of_In].
    apply existsb_exists in H as (y & Hy & ->%Z.eqb_eq). by apply list_elem_of_In.
  - apply primary_opens.
  - cbv beta. cbn [Z.eqb Pos.eqb]. cbv iota. intros k r ch rest q' H1 H2 H3.
    assert (extends_as k r N (pbind (pget p_GetParseListeners) (fun _ls => pbind (if _ls then pdo p_TriggerExitRuleEvent else pret tt) (fun _ =>
      pbind (SetState 508) (fun _ => pbind p_Sync (fun _ => qasm3Parser_expression_operator call 70))))) (follow RULE_expression)) as H.
    { do 4 (apply extends_silent; [solve_silent|intros ?]). intros ch' rest' q'' Hq. by apply operator_extends. }
    intros Hq. by apply H.
Qed.
End complete.

(** ** Every rule *)

Section every_rule.
#[local] Hint Extern 0 (ParserRuntime _ (machine _)) => exact (runtime decision_alts) : typeclass_instances.

Lemma follow_sub r F : forallb (fun x => existsb (Z.eqb x) (follow r)) F = true -> forall x, x ∈ F -> x ∈ follow r.
Proof.
  intros HF x Hx. eapply forallb_forall in HF; [|by apply list_elem_of_In].
  apply existsb_exists in HF as (y & Hy & ->%Z.eqb_eq). by apply list_elem_of_In.
Qed.

Lemma accepts_nothing {A} z (m : PM (machine qasm3Context) A) r lvl F : accepts (G := qasm3_grammar) z 0 m (NT r lvl) F.
Proof.
  intros ns rest Hr _ Hn. inversion Hr as [|? k ls ch _ Hk| | | | | |]; subst. unfold sizes in Hn. cbn in Hn. lia.
Qed.

(** A rule with one kind of context, from the lemma on its body. *)
Ltac accepts_case k r lem Hcall HN HF :=
  match goal with |- accepts _ _ ?m _ _ => let h := head_of m in unfold h end;
  match goal with |- accepts ?z ?n ?m (NT _ ?l) ?F => change (accepts (G := qasm3_grammar) z n m (NT (rule_of k) l) F) end;
  apply (accepts_rule decision_alts _ _ k _ _ _ _ (follow r));
    [intros k' H; destruct k'; try discriminate H; reflexivity|exact (follow_sub r _ HF)
    |intros ?; eapply lem; first [exact Hcall|exact HN]].

Lemma run_rule_accepts fuel N z r lvl F : (N < fuel)%nat -> forallb (fun x => existsb (Z.eqb x) (follow r)) F = true ->
  accepts (G := qasm3_grammar) z N (run_rule fuel r lvl) (NT r lvl) F.
Proof.
  revert N z r lvl F. induction fuel as [|fuel IH]; intros N z r lvl F HN HF; [lia|]. destruct N as [|N]; [apply accepts_nothing|].
  apply Nat.succ_lt_mono in HN. cbn [run_rule].
  assert (forall z r lvl F, forallb (fun x => existsb (Z.eqb x) (follow r)) F = true ->
    accepts (G := qasm3_grammar) z N (run_rule fuel r lvl) (NT r lvl) F) as Hcall by (intros; by apply IH).
  destruct r; cbn [rule_method].
  - accepts_case ProgramContext RULE_program Program_accepts Hcall HN HF.
  - accepts_case VersionContext RULE_version Version_accepts Hcall HN HF.
  - accepts_case StatementContext RULE_statement Statement_accepts Hcall HN HF.
  - accepts_case AnnotationContext RULE_annotation Annotation_accepts Hcall HN HF.
  - accepts_case ScopeContext RULE_scope Scope_accepts Hcall HN HF.
  - accepts_case PragmaContext RULE_pragma Pragma_accepts Hcall HN HF.
  - accepts_case StatementOrScopeContext RULE_statementOrScope StatementOrScope_accepts Hcall HN HF.
  - accepts_case CalibrationGrammarStatementContext RULE_calibrationGrammarStatement CalibrationGrammarStatement_accepts Hcall HN HF.
  - accepts_case IncludeStatementContext RULE_includeStatement IncludeStatement_accepts Hcall HN HF.
  - accepts_case BreakStatementContext RULE_breakStatement BreakStatement_accepts Hcall HN HF.
  - accepts_case ContinueStatementContext RULE_continueStatement ContinueStatement_accepts Hcall HN HF.
  - accepts_case EndStatementContext RULE_endStatement EndStatement_accepts Hcall HN HF.
  - accepts_case ForStatementContext RULE_forStatement ForStatement_accepts Hcall HN HF.
  - accepts_case IfStatementContext RULE_ifStatement IfStatement_accepts Hcall HN HF.
  - accepts_case ReturnStatementContext RULE_returnStatement ReturnStatement_accepts Hcall HN HF.
  - accepts_case WhileStatementContext RULE_whileStatement WhileStatement_accepts Hcall HN HF.
  - accepts_case BarrierStatementContext RULE_barrierStatement BarrierStatement_accepts Hcall HN HF.
  - accepts_case BoxStatementContext RULE_boxStatement BoxStatement_accepts Hcall HN HF.
  - accepts_case DelayStatementContext RULE_delayStatement DelayStatement_accepts Hcall HN HF.
  - accepts_case GateCallStatementContext RULE_gateCallStatement GateCallStatement_accepts Hcall HN HF.
  - accepts_case MeasureArrowAssignmentStatementContext RULE_measureArrowAssignmentStatement MeasureArrowAssignmentStatement_accepts Hcall HN HF.
  - accepts_case ResetStatementContext RULE_resetStatement ResetStatement_accepts Hcall HN HF.
  - accepts_case AliasDeclarationStatementContext RULE_aliasDeclarationStatement AliasDeclarationStatement_accepts Hcall HN HF.
  - accepts_case ClassicalDeclarationStatementContext RULE_classicalDeclarationStatement ClassicalDeclarationStatement_accepts Hcall HN HF.
  - accepts_case ConstDeclarationStatementContext RULE_constDeclarationStatement ConstDeclarationStatement_accepts Hcall HN HF.
  - accepts_case IoDeclarationStatementContext RULE_ioDeclarationStatement IoDeclarationStatement_accepts Hcall HN HF.
  - accepts_case OldStyleDeclarationStatementContext RULE_oldStyleDeclarationStatement OldStyleDeclarationStatement_accepts Hcall HN HF.
  - accepts_case QuantumDeclarationStatementContext RULE_quantumDeclarationStatement QuantumDeclarationStatement_accepts Hcall HN HF.
  - accepts_case DefStatementContext RULE_defStatement DefStatement_accepts Hcall HN HF.
  - accepts_case ExternStatementContext RULE_externStatement ExternStatement_accepts Hcall HN HF.
  - accepts_case GateStatementContext RULE_gateStatement GateStatement_accepts Hcall HN HF.
  - accepts_case AssignmentStatementContext RULE_assignmentStatement AssignmentStatement_accepts Hcall HN HF.
  - accepts_case ExpressionStatementContext RULE_expressionStatement ExpressionStatement_accepts Hcall HN HF.
  - accepts_case CalStatementContext RULE_calStatement CalStatement_accepts Hcall HN HF.
  - accepts_case DefcalStatementContext RULE_defcalStatement DefcalStatement_accepts Hcall HN HF.
  - apply expression_accepts; [exact Hcall|exact HN|exact HF].
  - accepts_case AliasExpressionContext RULE_aliasExpression AliasExpression_accepts Hcall HN HF.
  - accepts_case DeclarationExpressionContext RULE_declarationExpression DeclarationExpression_accepts Hcall HN HF.
  - accepts_case MeasureExpressionContext RULE_measureExpression MeasureExpression_accepts Hcall HN HF.
  - accepts_case RangeExpressionContext RULE_rangeExpression RangeExpression_accepts Hcall HN HF.
  - accepts_case SetExpressionContext RULE_setExpression SetExpression_accepts Hcall HN HF.
  - accepts_case ArrayLiteralContext RULE_arrayLiteral ArrayLiteral_accepts Hcall HN HF.
  - accepts_case IndexOperatorContext RULE_indexOperator IndexOperator_accepts Hcall HN HF.
  - accepts_case IndexedIdentifierContext RULE_indexedIdentifier IndexedIdentifier_accepts Hcall HN HF.
  - accepts_case ReturnSignatureContext RULE_returnSignature ReturnSignature_accepts Hcall HN HF.
  - accepts_case GateModifierContext RULE_gateModifier GateModifier_accepts Hcall HN HF.
  - accepts_case ScalarTypeContext RULE_scalarType ScalarType_accepts Hcall HN HF.
  - accepts_case QubitTypeContext RULE_qubitType QubitType_accepts Hcall HN HF.
  - accepts_case ArrayTypeContext RULE_arrayType ArrayType_accepts Hcall HN HF.
  - accepts_case ArrayReferenceTypeContext RULE_arrayReferenceType ArrayReferenceType_accepts Hcall HN HF.
  - accepts_case DesignatorContext RULE_designator Designator_accepts Hcall HN HF.
  - accepts_case DefcalTargetContext RULE_defcalTarget DefcalTarget_accepts Hcall HN HF.
  - accepts_case DefcalArgumentDefinitionContext RULE_defcalArgumentDefinition DefcalArgumentDefinition_accepts Hcall HN HF.
  - accepts_case DefcalOperandContext RULE_defcalOperand DefcalOperand_accepts Hcall HN HF.
  - accepts_case GateOperandContext RULE_gateOperand GateOperand_accepts Hcall HN HF.
  - accepts_case ExternArgumentContext RULE_externArgument ExternArgument_accepts Hcall HN HF.
  - accepts_case ArgumentDefinitionContext RULE_argumentDefinition ArgumentDefinition_accepts Hcall HN HF.
  - accepts_case ArgumentDefinitionListContext RULE_argumentDefinitionList ArgumentDefinitionList_accepts Hcall HN HF.
  - accepts_case DefcalArgumentDefinitionListContext RULE_defcalArgumentDefinitionList DefcalArgumentDefinitionList_accepts Hcall HN HF.
  - accepts_case DefcalOperandListContext RULE_defcalOperandList DefcalOperandList_accepts Hcall HN HF.
  - accepts_case ExpressionListContext RULE_expressionList ExpressionList_accepts Hcall HN HF.
  - accepts_case IdentifierListContext RULE_identifierList IdentifierList_accepts Hcall HN HF.
  - accepts_case GateOperandListContext RULE_gateOperandList GateOperandList_accepts Hcall HN HF.
  - accepts_case ExternArgumentListContext RULE_externArgumentList ExternArgumentList_accepts Hcall HN HF.
Qed.
End every_rule.

(** ** The trees of the parser *)

#[export] Instance qasm3_machine : ParserRuntime qasm3Context (machine qasm3Context) := machine_runtime decision_alts.
#[export] Instance qasm3_machine_laws : ParserLaws qasm3Context (machine qasm3Context) decision_alts := machine_laws decision_alts.

Lemma node_size_erase (n : node qasm3Context) : node_size (erase n) = node_size n.
Proof.
  induction n as [t|k ls ch IH] using node_induction; cbn; [by destruct (_ =? _)|]. f_equal. f_equal.
  rewrite map_map. by apply map_ext_Forall.
Qed.

Lemma program_parse_complete ls ch fuel : derives (G := qasm3_grammar) (Node ProgramContext ls ch) ->
  (node_size (Node ProgramContext ls ch) < fuel)%nat ->
  exists choices nd m', Program_parse fuel (start_machine (tokens ch) choices) = (Ok nd, m') /\
    erase nd = erase (Node ProgramContext ls ch) /\ v_input (view_of m') = [].
Proof.
  intros Hd Hs. destruct fuel as [|fuel]; [lia|]. rewrite node_size_node in Hs. inversion Hd as [|? ? ? Hm Hch]; subst.
  pose proof (Program_accepts (run_rule fuel) fuel (sizes ch)
    (fun z r lvl F HF => run_rule_accepts fuel (sizes ch) z r lvl F ltac:(lia) HF) ltac:(lia) (la (tokens ch ++ []))) as Hacc.
  destruct (Hacc ch [] Hm Hch (le_n _)) with (f := mkFrame (K := qasm3Context) ProgramContext [] []) (fs := @nil (frame qasm3Context))
    (qs := @nil Z) as (cs & a & f' & [Hk Hc] & H); [done|vm_compute; by left|reflexivity|].
  exists cs, (node_of f'), (mkMachine (mkView [] [] []) []). split; [|split; [|done]].
  - specialize (H []). rewrite !app_nil_r in H. unfold Program_parse. cbn [run_rule rule_method].
    unfold qasm3Parser_Program, rule_function.
    assert (qasm3Parser_Program_body (run_rule fuel) fuel (p_EnterRule ProgramContext 0 (start_machine (tokens ch) cs)) =
      (Ok a, st [] f' [] [] [])) as E by exact H.
    unfold recovering. by rewrite E.
  - cbn in Hk, Hc. unfold node_of. cbn [erase]. by rewrite Hk, Hc.
Qed.

(** C8: The parser accepts exactly the grammar.  With fuel for the tokens and the
    tree, the trees it can return for a list of tokens, for some answers of the
    prediction and labels aside, are the derivations of a program in the grammar
    of qasm3Parser.g4 with these tokens: no test of the next token in the
    generated code, computed from first and follow sets, cuts off a derivation,
    and none lets anything else through. *)
Theorem parser_trees_exact ts t fuel : Forall no_eof ts -> (64 * length ts + 128 <= fuel)%nat -> (node_size t < fuel)%nat ->
  (exists choices nd m', Program_parse fuel (start_machine ts choices) = (Ok nd, m') /\ erase nd = t) <->
  (exists ls ch, derives (G := qasm3_grammar) (Node ProgramContext ls ch) /\ tokens ch = ts /\ erase (Node ProgramContext ls ch) = t).
Proof.
  intros Hts Hf Ht. split.
  - intros (cs & nd & m' & E & <-). pose proof (program_parse_built (start_machine ts cs) ts fuel eq_refl Hts Hf) as H.
    rewrite E in H. destruct H as (ls & ch & -> & Hm & Hch & Htok & _). exists ls, ch. split; [by constructor|done].
  - intros (ls & ch & Hd & <- & <-). rewrite node_size_erase in Ht.
    destruct (program_parse_complete ls ch fuel Hd Ht) as (cs & nd & m' & E & He & _). by exists cs, nd, m'.
Qed.
