(* ===== verification/Qasm3Listener.v ===== *)
(** * Listeners and visitors of parse trees (core/parser/qasm3parser_*listener.go, qasm3parser_*visitor.go)

    A listener is its methods ([qasm3ParserListener]); each context calls the
    methods of its own name when it is entered and left, as its generated
    [EnterRule] and [ExitRule] say.  The walk through a tree is the runtime's:
    [ContextWalker] states what it does. *)

From stdpp Require Import base list strings.
From Stdlib Require Import ZArith Lia.
From S2P Require Import Prelude Antlr AntlrLaws AntlrContexts Qasm3Grammar.

(** ** The interfaces *)

Inductive qasm3Method :=
| VisitTerminal | VisitErrorNode | EnterEveryRule | ExitEveryRule | EnterProgram | EnterVersion |
EnterStatement | EnterAnnotation | EnterScope | EnterPragma | EnterStatementOrScope |
EnterCalibrationGrammarStatement | EnterIncludeStatement | EnterBreakStatement |
EnterContinueStatement | EnterEndStatement | EnterForStatement | EnterIfStatement |
EnterReturnStatement | EnterWhileStatement | EnterBarrierStatement | EnterBoxStatement |
EnterDelayStatement | EnterGateCallStatement | EnterMeasureArrowAssignmentStatement |
EnterResetStatement | EnterAliasDeclarationStatement | EnterClassicalDeclarationStatement |
EnterConstDeclarationStatement | EnterIoDeclarationStatement | EnterOldStyleDeclarationStatement |
EnterQuantumDeclarationStatement | EnterDefStatement | EnterExternStatement | EnterGateStatement |
EnterAssignmentStatement | EnterExpressionStatement | EnterCalStatement | EnterDefcalStatement |
EnterBitwiseXorExpression | EnterAdditiveExpression | EnterDurationofExpression |
EnterParenthesisExpression | EnterComparisonExpression | EnterMultiplicativeExpression |
EnterLogicalOrExpression | EnterCastExpression | EnterPowerExpression | EnterBitwiseOrExpression |
EnterCallExpression | EnterBitshiftExpression | EnterBitwiseAndExpression | EnterEqualityExpression
| EnterLogicalAndExpression | EnterIndexExpression | EnterUnaryExpression | EnterLiteralExpression |
EnterAliasExpression | EnterDeclarationExpression | EnterMeasureExpression | EnterRangeExpression |
EnterSetExpression | EnterArrayLiteral | EnterIndexOperator | EnterIndexedIdentifier |
EnterReturnSignature | EnterGateModifier | EnterScalarType | EnterQubitType | EnterArrayType |
EnterArrayReferenceType | EnterDesignator | EnterDefcalTarget | EnterDefcalArgumentDefinition |
EnterDefcalOperand | EnterGateOperand | EnterExternArgument | EnterArgumentDefinition |
EnterArgumentDefinitionList | EnterDefcalArgumentDefinitionList | EnterDefcalOperandList |
EnterExpressionList | EnterIdentifierList | EnterGateOperandList | EnterExternArgumentList |
ExitProgram | ExitVersion | ExitStatement | ExitAnnotation | ExitScope | ExitPragma |
ExitStatementOrScope | ExitCalibrationGrammarStatement | ExitIncludeStatement | ExitBreakStatement |
ExitContinueStatement | ExitEndStatement | ExitForStatement | ExitIfStatement | ExitReturnStatement
| ExitWhileStatement | ExitBarrierStatement | ExitBoxStatement | ExitDelayStatement |
ExitGateCallStatement | ExitMeasureArrowAssignmentStatement | ExitResetStatement |
ExitAliasDeclarationStatement | ExitClassicalDeclarationStatement | ExitConstDeclarationStatement |
ExitIoDeclarationStatement | ExitOldStyleDeclarationStatement | ExitQuantumDeclarationStatement |
ExitDefStatement | ExitExternStatement | ExitGateStatement | ExitAssignmentStatement |
ExitExpressionStatement | ExitCalStatement | ExitDefcalStatement | ExitBitwiseXorExpression |
ExitAdditiveExpression | ExitDurationofExpression | ExitParenthesisExpression |
ExitComparisonExpression | ExitMultiplicativeExpression | ExitLogicalOrExpression |
ExitCastExpression | ExitPowerExpression | ExitBitwiseOrExpression | ExitCallExpression |
ExitBitshiftExpression | ExitBitwiseAndExpression | ExitEqualityExpression |
ExitLogicalAndExpression | ExitIndexExpression | ExitUnaryExpression | ExitLiteralExpression |
ExitAliasExpression | ExitDeclarationExpression | ExitMeasureExpression | ExitRangeExpression |
ExitSetExpression | ExitArrayLiteral | ExitIndexOperator | ExitIndexedIdentifier |
ExitReturnSignature | ExitGateModifier | ExitScalarType | ExitQubitType | ExitArrayType |
ExitArrayReferenceType | ExitDesignator | ExitDefcalTarget | ExitDefcalArgumentDefinition |
ExitDefcalOperand | ExitGateOperand | ExitExternArgument | ExitArgumentDefinition |
ExitArgumentDefinitionList | ExitDefcalArgumentDefinitionList | ExitDefcalOperandList |
ExitExpressionList | ExitIdentifierList | ExitGateOperandList | ExitExternArgumentList.

(** A listener of this parser; a struct that embeds the base listener overrides
    some of its methods, which do nothing. *)
Definition qasm3ParserListener (S : Type) : Type := qasm3Method -> node qasm3Context -> M S unit.
Definition Baseqasm3ParserListener {S} : qasm3ParserListener S := fun _ _ => ret tt.

Inductive qasm3Visit :=
| VisitProgram | VisitVersion | VisitStatement | VisitAnnotation | VisitScope | VisitPragma |
VisitStatementOrScope | VisitCalibrationGrammarStatement | VisitIncludeStatement |
VisitBreakStatement | VisitContinueStatement | VisitEndStatement | VisitForStatement |
VisitIfStatement | VisitReturnStatement | VisitWhileStatement | VisitBarrierStatement |
VisitBoxStatement | VisitDelayStatement | VisitGateCallStatement |
VisitMeasureArrowAssignmentStatement | VisitResetStatement | VisitAliasDeclarationStatement |
VisitClassicalDeclarationStatement | VisitConstDeclarationStatement | VisitIoDeclarationStatement |
VisitOldStyleDeclarationStatement | VisitQuantumDeclarationStatement | VisitDefStatement |
VisitExternStatement | VisitGateStatement | VisitAssignmentStatement | VisitExpressionStatement |
VisitCalStatement | VisitDefcalStatement | VisitBitwiseXorExpression | VisitAdditiveExpression |
VisitDurationofExpression | VisitParenthesisExpression | VisitComparisonExpression |
VisitMultiplicativeExpression | VisitLogicalOrExpression | VisitCastExpression |
VisitPowerExpression | VisitBitwiseOrExpression | VisitCallExpression | VisitBitshiftExpression |
VisitBitwiseAndExpression | VisitEqualityExpression | VisitLogicalAndExpression |
VisitIndexExpression | VisitUnaryExpression | VisitLiteralExpression | VisitAliasExpression |
VisitDeclarationExpression | VisitMeasureExpression | VisitRangeExpression | VisitSetExpression |
VisitArrayLiteral | VisitIndexOperator | VisitIndexedIdentifier | VisitReturnSignature |
VisitGateModifier | VisitScalarType | VisitQubitType | VisitArrayType | VisitArrayReferenceType |
VisitDesignator | VisitDefcalTarget | VisitDefcalArgumentDefinition | VisitDefcalOperand |
VisitGateOperand | VisitExternArgument | VisitArgumentDefinition | VisitArgumentDefinitionList |
VisitDefcalArgumentDefinitionList | VisitDefcalOperandList | VisitExpressionList |
VisitIdentifierList | VisitGateOperandList | VisitExternArgumentList.

(** A visitor of this parser, or another one with its [VisitChildren]; the base
    visitor goes on to the children. *)
Definition qasm3ParserVisitor (T : Type) : Type := qasm3Visit -> node qasm3Context -> T.
Definition visitor (T : Type) : Type := qasm3ParserVisitor T + (node qasm3Context -> T).
Definition Baseqasm3ParserVisitor {T} (VisitChildren : node qasm3Context -> T) : qasm3ParserVisitor T := fun _ ctx => VisitChildren ctx.

(** ** The contexts *)

Definition ProgramContext_EnterRule {S} (listener : option (qasm3ParserListener S)) (s : node qasm3Context) : M S unit :=
  match listener with Some listenerT => listenerT EnterProgram s | None => ret tt end.
Definition ProgramContext_ExitRule {S} (listener : option (qasm3ParserListener S)) (s : node qasm3Context) : M S unit :=
  match listener with Some listenerT => listenerT ExitProgram s | None => ret tt end.
Definition ProgramContext_Accept {T} (visitor : visitor T) (s : node qasm3Context) : T :=
  match visitor with inl t => t VisitProgram s | inr t => t s end.
Definition VersionContext_EnterRule {S} (listener : option (qasm3ParserListener S)) (s : node qasm3Context) : M S unit :=
  match listener with Some listenerT => listenerT EnterVersion s | None => ret tt end.
Definition VersionContext_ExitRule {S} (listener : option (qasm3ParserListener S)) (s : node qasm3Context) : M S unit :=
  match listener with Some listenerT => listenerT ExitVersion s | None => ret tt end.
Definition VersionContext_Accept {T} (visitor : visitor T) (s : node qasm3Context) : T :=
  match visitor with inl t => t VisitVersion s | inr t => t s end.
Definition StatementContext_EnterRule {S} (listener : option (qasm3ParserListener S)) (s : node qasm3Context) : M S unit :=
  match listener with Some listenerT => listenerT EnterStatement s | None => ret tt end.
Definition StatementContext_ExitRule {S} (listener : option (qasm3ParserListener S)) (s : node qasm3Context) : M S unit :=
  match listener with Some listenerT => listenerT ExitStatement s | None => ret tt end.
Definition StatementContext_Accept {T} (visitor : visitor T) (s : node qasm3Context) : T :=
  match visitor with inl t => t VisitStatement s | inr t => t s end.
Definition AnnotationContext_EnterRule {S} (listener : option (qasm3ParserListener S)) (s : node qasm3Context) : M S unit :=
  match listener with Some listenerT => listenerT EnterAnnotation s | None => ret tt end.
Definition AnnotationContext_ExitRule {S} (listener : option (qasm3ParserListener S)) (s : node qasm3Context) : M S unit :=
  match listener with Some listenerT => listenerT ExitAnnotation s | None => ret tt end.
Definition AnnotationContext_Accept {T} (visitor : visitor T) (s : node qasm3Context) : T :=
  match visitor with inl t => t VisitAnnotation s | inr t => t s end.
Definition ScopeContext_EnterRule {S} (listener : option (qasm3ParserListener S)) (s : node qasm3Context) : M S unit :=
  match listener with Some listenerT => listenerT EnterScope s | None => ret tt end.
Definition ScopeContext_ExitRule {S} (listener : option (qasm3ParserListener S)) (s : node qasm3Context) : M S unit :=
  match listener with Some listenerT => listenerT ExitScope s | None => ret tt end.
Definition ScopeContext_Accept {T} (visitor : visitor T) (s : node qasm3Context) : T :=
  match visitor with inl t => t VisitScope s | inr t => t s end.
Definition PragmaContext_EnterRule {S} (listener : option (qasm3ParserListener S)) (s : node qasm3Context) : M S unit :=
  match listener with Some listenerT => listenerT EnterPragma s | None => ret tt end.
Definition PragmaContext_ExitRule {S} (listener : option (qasm3ParserListener S)) (s : node qasm3Context) : M S unit :=
  match listener with Some listenerT => listenerT ExitPragma s | None => ret tt end.
Definition PragmaContext_Accept {T} (visitor : visitor T) (s : node qasm3Context) : T :=
  match visitor with inl t => t VisitPragma s | inr t => t s end.
Definition StatementOrScopeContext_EnterRule {S} (listener : option (qasm3ParserListener S)) (s : node qasm3Context) : M S unit :=
  match listener with Some listenerT => listenerT EnterStatementOrScope s | None => ret tt end.
Definition StatementOrScopeContext_ExitRule {S} (listener : option (qasm3ParserListener S)) (s : node qasm3Context) : M S unit :=
  match listener with Some listenerT => listenerT ExitStatementOrScope s | None => ret tt end.
Definition StatementOrScopeContext_Accept {T} (visitor : visitor T) (s : node qasm3Context) : T :=
  match visitor with inl t => t VisitStatementOrScope s | inr t => t s end.
Definition CalibrationGrammarStatementContext_EnterRule {S} (listener : option (qasm3ParserListener S)) (s : node qasm3Context) : M S unit :=
  match listener with Some listenerT => listenerT EnterCalibrationGrammarStatement s | None => ret tt end.
Definition CalibrationGrammarStatementContext_ExitRule {S} (listener : option (qasm3ParserListener S)) (s : node qasm3Context) : M S unit :=
  match listener with Some listenerT => listenerT ExitCalibrationGrammarStatement s | None => ret tt end.
Definition CalibrationGrammarStatementContext_Accept {T} (visitor : visitor T) (s : node qasm3Context) : T :=
  match visitor with inl t => t VisitCalibrationGrammarStatement s | inr t => t s end.
Definition IncludeStatementContext_EnterRule {S} (listener : option (qasm3ParserListener S)) (s : node qasm3Context) : M S unit :=
  match listener with Some listenerT => listenerT EnterIncludeStatement s | None => ret tt end.
Definition IncludeStatementContext_ExitRule {S} (listener : option (qasm3ParserListener S)) (s : node qasm3Context) : M S unit :=
  match listener with Some listenerT => listenerT ExitIncludeStatement s | None => ret tt end.
Definition IncludeStatementContext_Accept {T} (visitor : visitor T) (s : node qasm3Context) : T :=
  match visitor with inl t => t VisitIncludeStatement s | inr t => t s end.
Definition BreakStatementContext_EnterRule {S} (listener : option (qasm3ParserListener S)) (s : node qasm3Context) : M S unit :=
  match listener with Some listenerT => listenerT EnterBreakStatement s | None => ret tt end.
Definition BreakStatementContext_ExitRule {S} (listener : option (qasm3ParserListener S)) (s : node qasm3Context) : M S unit :=
  match listener with Some listenerT => listenerT ExitBreakStatement s | None => ret tt end.
Definition BreakStatementContext_Accept {T} (visitor : visitor T) (s : node qasm3Context) : T :=
  match visitor with inl t => t VisitBreakStatement s | inr t => t s end.
Definition ContinueStatementContext_EnterRule {S} (listener : option (qasm3ParserListener S)) (s : node qasm3Context) : M S unit :=
  match listener with Some listenerT => listenerT EnterContinueStatement s | None => ret tt end.
Definition ContinueStatementContext_ExitRule {S} (listener : option (qasm3ParserListener S)) (s : node qasm3Context) : M S unit :=
  match listener with Some listenerT => listenerT ExitContinueStatement s | None => ret tt end.
Definition ContinueStatementContext_Accept {T} (visitor : visitor T) (s : node qasm3Context) : T :=
  match visitor with inl t => t VisitContinueStatement s | inr t => t s end.
Definition EndStatementContext_EnterRule {S} (listener : option (qasm3ParserListener S)) (s : node qasm3Context) : M S unit :=
  match listener with Some listenerT => listenerT EnterEndStatement s | None => ret tt end.
Definition EndStatementContext_ExitRule {S} (listener : option (qasm3ParserListener S)) (s : node qasm3Context) : M S unit :=
  match listener with Some listenerT => listenerT ExitEndStatement s | None => ret tt end.
Definition EndStatementContext_Accept {T} (visitor : visitor T) (s : node qasm3Context) : T :=
  match visitor with inl t => t VisitEndStatement s | inr t => t s end.
Definition ForStatementContext_EnterRule {S} (listener : option (qasm3ParserListener S)) (s : node qasm3Context) : M S unit :=
  match listener with Some listenerT => listenerT EnterForStatement s | None => ret tt end.
Definition ForStatementContext_ExitRule {S} (listener : option (qasm3ParserListener S)) (s : node qasm3Context) : M S unit :=
  match listener with Some listenerT => listenerT ExitForStatement s | None => ret tt end.
Definition ForStatementContext_Accept {T} (visitor : visitor T) (s : node qasm3Context) : T :=
  match visitor with inl t => t VisitForStatement s | inr t => t s end.
Definition IfStatementContext_EnterRule {S} (listener : option (qasm3ParserListener S)) (s : node qasm3Context) : M S unit :=
  match listener with Some listenerT => listenerT EnterIfStatement s | None => ret tt end.
Definition IfStatementContext_ExitRule {S} (listener : option (qasm3ParserListener S)) (s : node qasm3Context) : M S unit :=
  match listener with Some listenerT => listenerT ExitIfStatement s | None => ret tt end.
Definition IfStatementContext_Accept {T} (visitor : visitor T) (s : node qasm3Context) : T :=
  match visitor with inl t => t VisitIfStatement s | inr t => t s end.
Definition ReturnStatementContext_EnterRule {S} (listener : option (qasm3ParserListener S)) (s : node qasm3Context) : M S unit :=
  match listener with Some listenerT => listenerT EnterReturnStatement s | None => ret tt end.
Definition ReturnStatementContext_ExitRule {S} (listener : option (qasm3ParserListener S)) (s : node qasm3Context) : M S unit :=
  match listener with Some listenerT => listenerT ExitReturnStatement s | None => ret tt end.
Definition ReturnStatementContext_Accept {T} (visitor : visitor T) (s : node qasm3Context) : T :=
  match visitor with inl t => t VisitReturnStatement s | inr t => t s end.
Definition WhileStatementContext_EnterRule {S} (listener : option (qasm3ParserListener S)) (s : node qasm3Context) : M S unit :=
  match listener with Some listenerT => listenerT EnterWhileStatement s | None => ret tt end.
Definition WhileStatementContext_ExitRule {S} (listener : option (qasm3ParserListener S)) (s : node qasm3Context) : M S unit :=
  match listener with Some listenerT => listenerT ExitWhileStatement s | None => ret tt end.
Definition WhileStatementContext_Accept {T} (visitor : visitor T) (s : node qasm3Context) : T :=
  match visitor with inl t => t VisitWhileStatement s | inr t => t s end.
Definition BarrierStatementContext_EnterRule {S} (listener : option (qasm3ParserListener S)) (s : node qasm3Context) : M S unit :=
  match listener with Some listenerT => listenerT EnterBarrierStatement s | None => ret tt end.
Definition BarrierStatementContext_ExitRule {S} (listener : option (qasm3ParserListener S)) (s : node qasm3Context) : M S unit :=
  match listener with Some listenerT => listenerT ExitBarrierStatement s | None => ret tt end.
Definition BarrierStatementContext_Accept {T} (visitor : visitor T) (s : node qasm3Context) : T :=
  match visitor with inl t => t VisitBarrierStatement s | inr t => t s end.
Definition BoxStatementContext_EnterRule {S} (listener : option (qasm3ParserListener S)) (s : node qasm3Context) : M S unit :=
  match listener with Some listenerT => listenerT EnterBoxStatement s | None => ret tt end.
Definition BoxStatementContext_ExitRule {S} (listener : option (qasm3ParserListener S)) (s : node qasm3Context) : M S unit :=
  match listener with Some listenerT => listenerT ExitBoxStatement s | None => ret tt end.
Definition BoxStatementContext_Accept {T} (visitor : visitor T) (s : node qasm3Context) : T :=
  match visitor with inl t => t VisitBoxStatement s | inr t => t s end.
Definition DelayStatementContext_EnterRule {S} (listener : option (qasm3ParserListener S)) (s : node qasm3Context) : M S unit :=
  match listener with Some listenerT => listenerT EnterDelayStatement s | None => ret tt end.
Definition DelayStatementContext_ExitRule {S} (listener : option (qasm3ParserListener S)) (s : node qasm3Context) : M S unit :=
  match listener with Some listenerT => listenerT ExitDelayStatement s | None => ret tt end.
Definition DelayStatementContext_Accept {T} (visitor : visitor T) (s : node qasm3Context) : T :=
  match visitor with inl t => t VisitDelayStatement s | inr t => t s end.
Definition GateCallStatementContext_EnterRule {S} (listener : option (qasm3ParserListener S)) (s : node qasm3Context) : M S unit :=
  match listener with Some listenerT => listenerT EnterGateCallStatement s | None => ret tt end.
Definition GateCallStatementContext_ExitRule {S} (listener : option (qasm3ParserListener S)) (s : node qasm3Context) : M S unit :=
  match listener with Some listenerT => listenerT ExitGateCallStatement s | None => ret tt end.
Definition GateCallStatementContext_Accept {T} (visitor : visitor T) (s : node qasm3Context) : T :=
  match visitor with inl t => t VisitGateCallStatement s | inr t => t s end.
Definition MeasureArrowAssignmentStatementContext_EnterRule {S} (listener : option (qasm3ParserListener S)) (s : node qasm3Context) : M S unit :=
  match listener with Some listenerT => listenerT EnterMeasureArrowAssignmentStatement s | None => ret tt end.
Definition MeasureArrowAssignmentStatementContext_ExitRule {S} (listener : option (qasm3ParserListener S)) (s : node qasm3Context) : M S unit :=
  match listener with Some listenerT => listenerT ExitMeasureArrowAssignmentStatement s | None => ret tt end.
Definition MeasureArrowAssignmentStatementContext_Accept {T} (visitor : visitor T) (s : node qasm3Context) : T :=
  match visitor with inl t => t VisitMeasureArrowAssignmentStatement s | inr t => t s end.
Definition ResetStatementContext_EnterRule {S} (listener : option (qasm3ParserListener S)) (s : node qasm3Context) : M S unit :=
  match listener with Some listenerT => listenerT EnterResetStatement s | None => ret tt end.
Definition ResetStatementContext_ExitRule {S} (listener : option (qasm3ParserListener S)) (s : node qasm3Context) : M S unit :=
  match listener with Some listenerT => listenerT ExitResetStatement s | None => ret tt end.
Definition ResetStatementContext_Accept {T} (visitor : visitor T) (s : node qasm3Context) : T :=
  match visitor with inl t => t VisitResetStatement s | inr t => t s end.
Definition AliasDeclarationStatementContext_EnterRule {S} (listener : option (qasm3ParserListener S)) (s : node qasm3Context) : M S unit :=
  match listener with Some listenerT => listenerT EnterAliasDeclarationStatement s | None => ret tt end.
Definition AliasDeclarationStatementContext_ExitRule {S} (listener : option (qasm3ParserListener S)) (s : node qasm3Context) : M S unit :=
  match listener with Some listenerT => listenerT ExitAliasDeclarationStatement s | None => ret tt end.
Definition AliasDeclarationStatementContext_Accept {T} (visitor : visitor T) (s : node qasm3Context) : T :=
  match visitor with inl t => t VisitAliasDeclarationStatement s | inr t => t s end.
Definition ClassicalDeclarationStatementContext_EnterRule {S} (listener : option (qasm3ParserListener S)) (s : node qasm3Context) : M S unit :=
  match listener with Some listenerT => listenerT EnterClassicalDeclarationStatement s | None => ret tt end.
Definition ClassicalDeclarationStatementContext_ExitRule {S} (listener : option (qasm3ParserListener S)) (s : node qasm3Context) : M S unit :=
  match listener with Some listenerT => listenerT ExitClassicalDeclarationStatement s | None => ret tt end.
Definition ClassicalDeclarationStatementContext_Accept {T} (visitor : visitor T) (s : node qasm3Context) : T :=
  match visitor with inl t => t VisitClassicalDeclarationStatement s | inr t => t s end.
Definition ConstDeclarationStatementContext_EnterRule {S} (listener : option (qasm3ParserListener S)) (s : node qasm3Context) : M S unit :=
  match listener with Some listenerT => listenerT EnterConstDeclarationStatement s | None => ret tt end.
Definition ConstDeclarationStatementContext_ExitRule {S} (listener : option (qasm3ParserListener S)) (s : node qasm3Context) : M S unit :=
  match listener with Some listenerT => listenerT ExitConstDeclarationStatement s | None => ret tt end.
Definition ConstDeclarationStatementContext_Accept {T} (visitor : visitor T) (s : node qasm3Context) : T :=
  match visitor with inl t => t VisitConstDeclarationStatement s | inr t => t s end.
Definition IoDeclarationStatementContext_EnterRule {S} (listener : option (qasm3ParserListener S)) (s : node qasm3Context) : M S unit :=
  match listener with Some listenerT => listenerT EnterIoDeclarationStatement s | None => ret tt end.
Definition IoDeclarationStatementContext_ExitRule {S} (listener : option (qasm3ParserListener S)) (s : node qasm3Context) : M S unit :=
  match listener with Some listenerT => listenerT ExitIoDeclarationStatement s | None => ret tt end.
Definition IoDeclarationStatementContext_Accept {T} (visitor : visitor T) (s : node qasm3Context) : T :=
  match visitor with inl t => t VisitIoDeclarationStatement s | inr t => t s end.
Definition OldStyleDeclarationStatementContext_EnterRule {S} (listener : option (qasm3ParserListener S)) (s : node qasm3Context) : M S unit :=
  match listener with Some listenerT => listenerT EnterOldStyleDeclarationStatement s | None => ret tt end.
Definition OldStyleDeclarationStatementContext_ExitRule {S} (listener : option (qasm3ParserListener S)) (s : node qasm3Context) : M S unit :=
  match listener with Some listenerT => listenerT ExitOldStyleDeclarationStatement s | None => ret tt end.
Definition OldStyleDeclarationStatementContext_Accept {T} (visitor : visitor T) (s : node qasm3Context) : T :=
  match visitor with inl t => t VisitOldStyleDeclarationStatement s | inr t => t s end.
Definition QuantumDeclarationStatementContext_EnterRule {S} (listener : option (qasm3ParserListener S)) (s : node qasm3Context) : M S unit :=
  match listener with Some listenerT => listenerT EnterQuantumDeclarationStatement s | None => ret tt end.
Definition QuantumDeclarationStatementContext_ExitRule {S} (listener : option (qasm3ParserListener S)) (s : node qasm3Context) : M S unit :=
  match listener with Some listenerT => listenerT ExitQuantumDeclarationStatement s | None => ret tt end.
Definition QuantumDeclarationStatementContext_Accept {T} (visitor : visitor T) (s : node qasm3Context) : T :=
  match visitor with inl t => t VisitQuantumDeclarationStatement s | inr t => t s end.
Definition DefStatementContext_EnterRule {S} (listener : option (qasm3ParserListener S)) (s : node qasm3Context) : M S unit :=
  match listener with Some listenerT => listenerT EnterDefStatement s | None => ret tt end.
Definition DefStatementContext_ExitRule {S} (listener : option (qasm3ParserListener S)) (s : node qasm3Context) : M S unit :=
  match listener with Some listenerT => listenerT ExitDefStatement s | None => ret tt end.
Definition DefStatementContext_Accept {T} (visitor : visitor T) (s : node qasm3Context) : T :=
  match visitor with inl t => t VisitDefStatement s | inr t => t s end.
Definition ExternStatementContext_EnterRule {S} (listener : option (qasm3ParserListener S)) (s : node qasm3Context) : M S unit :=
  match listener with Some listenerT => listenerT EnterExternStatement s | None => ret tt end.
Definition ExternStatementContext_ExitRule {S} (listener : option (qasm3ParserListener S)) (s : node qasm3Context) : M S unit :=
  match listener with Some listenerT => listenerT ExitExternStatement s | None => ret tt end.
Definition ExternStatementContext_Accept {T} (visitor : visitor T) (s : node qasm3Context) : T :=
  match visitor with inl t => t VisitExternStatement s | inr t => t s end.
Definition GateStatementContext_EnterRule {S} (listener : option (qasm3ParserListener S)) (s : node qasm3Context) : M S unit :=
  match listener with Some listenerT => listenerT EnterGateStatement s | None => ret tt end.
Definition GateStatementContext_ExitRule {S} (listener : option (qasm3ParserListener S)) (s : node qasm3Context) : M S unit :=
  match listener with Some listenerT => listenerT ExitGateStatement s | None => ret tt end.
Definition GateStatementContext_Accept {T} (visitor : visitor T) (s : node qasm3Context) : T :=
  match visitor with inl t => t VisitGateStatement s | inr t => t s end.
Definition AssignmentStatementContext_EnterRule {S} (listener : option (qasm3ParserListener S)) (s : node qasm3Context) : M S unit :=
  match listener with Some listenerT => listenerT EnterAssignmentStatement s | None => ret tt end.
Definition AssignmentStatementContext_ExitRule {S} (listener : option (qasm3ParserListener S)) (s : node qasm3Context) : M S unit :=
  match listener with Some listenerT => listenerT ExitAssignmentStatement s | None => ret tt end.
Definition AssignmentStatementContext_Accept {T} (visitor : visitor T) (s : node qasm3Context) : T :=
  match visitor with inl t => t VisitAssignmentStatement s | inr t => t s end.
Definition ExpressionStatementContext_EnterRule {S} (listener : option (qasm3ParserListener S)) (s : node qasm3Context) : M S unit :=
  match listener with Some listenerT => listenerT EnterExpressionStatement s | None => ret tt end.
Definition ExpressionStatementContext_ExitRule {S} (listener : option (qasm3ParserListener S)) (s : node qasm3Context) : M S unit :=
  match listener with Some listenerT => listenerT ExitExpressionStatement s | None => ret tt end.
Definition ExpressionStatementContext_Accept {T} (visitor : visitor T) (s : node qasm3Context) : T :=
  match visitor with inl t => t VisitExpressionStatement s | inr t => t s end.
Definition CalStatementContext_EnterRule {S} (listener : option (qasm3ParserListener S)) (s : node qasm3Context) : M S unit :=
  match listener with Some listenerT => listenerT EnterCalStatement s | None => ret tt end.
Definition CalStatementContext_ExitRule {S} (listener : option (qasm3ParserListener S)) (s : node qasm3Context) : M S unit :=
  match listener with Some listenerT => listenerT ExitCalStatement s | None => ret tt end.
Definition CalStatementContext_Accept {T} (visitor : visitor T) (s : node qasm3Context) : T :=
  match visitor with inl t => t VisitCalStatement s | inr t => t s end.
Definition DefcalStatementContext_EnterRule {S} (listener : option (qasm3ParserListener S)) (s : node qasm3Context) : M S unit :=
  match listener with Some listenerT => listenerT EnterDefcalStatement s | None => ret tt end.
Definition DefcalStatementContext_ExitRule {S} (listener : option (qasm3ParserListener S)) (s : node qasm3Context) : M S unit :=
  match listener with Some listenerT => listenerT ExitDefcalStatement s | None => ret tt end.
Definition DefcalStatementContext_Accept {T} (visitor : visitor T) (s : node qasm3Context) : T :=
  match visitor with inl t => t VisitDefcalStatement s | inr t => t s end.
Definition BitwiseXorExpressionContext_EnterRule {S} (listener : option (qasm3ParserListener S)) (s : node qasm3Context) : M S unit :=
  match listener with Some listenerT => listenerT EnterBitwiseXorExpression s | None => ret tt end.
Definition BitwiseXorExpressionContext_ExitRule {S} (listener : option (qasm3ParserListener S)) (s : node qasm3Context) : M S unit :=
  match listener with Some listenerT => listenerT ExitBitwiseXorExpression s | None => ret tt end.
Definition BitwiseXorExpressionContext_Accept {T} (visitor : visitor T) (s : node qasm3Context) : T :=
  match visitor with inl t => t VisitBitwiseXorExpression s | inr t => t s end.
Definition AdditiveExpressionContext_EnterRule {S} (listener : option (qasm3ParserListener S)) (s : node qasm3Context) : M S unit :=
  match listener with Some listenerT => listenerT EnterAdditiveExpression s | None => ret tt end.
Definition AdditiveExpressionContext_ExitRule {S} (listener : option (qasm3ParserListener S)) (s : node qasm3Context) : M S unit :=
  match listener with Some listenerT => listenerT ExitAdditiveExpression s | None => ret tt end.
Definition AdditiveExpressionContext_Accept {T} (visitor : visitor T) (s : node qasm3Context) : T :=
  match visitor with inl t => t VisitAdditiveExpression s | inr t => t s end.
Definition DurationofExpressionContext_EnterRule {S} (listener : option (qasm3ParserListener S)) (s : node qasm3Context) : M S unit :=
  match listener with Some listenerT => listenerT EnterDurationofExpression s | None => ret tt end.
Definition DurationofExpressionContext_ExitRule {S} (listener : option (qasm3ParserListener S)) (s : node qasm3Context) : M S unit :=
  match listener with Some listenerT => listenerT ExitDurationofExpression s | None => ret tt end.
Definition DurationofExpressionContext_Accept {T} (visitor : visitor T) (s : node qasm3Context) : T :=
  match visitor with inl t => t VisitDurationofExpression s | inr t => t s end.
Definition ParenthesisExpressionContext_EnterRule {S} (listener : option (qasm3ParserListener S)) (s : node qasm3Context) : M S unit :=
  match listener with Some listenerT => listenerT EnterParenthesisExpression s | None => ret tt end.
Definition ParenthesisExpressionContext_ExitRule {S} (listener : option (qasm3ParserListener S)) (s : node qasm3Context) : M S unit :=
  match listener with Some listenerT => listenerT ExitParenthesisExpression s | None => ret tt end.
Definition ParenthesisExpressionContext_Accept {T} (visitor : visitor T) (s : node qasm3Context) : T :=
  match visitor with inl t => t VisitParenthesisExpression s | inr t => t s end.
Definition ComparisonExpressionContext_EnterRule {S} (listener : option (qasm3ParserListener S)) (s : node qasm3Context) : M S unit :=
  match listener with Some listenerT => listenerT EnterComparisonExpression s | None => ret tt end.
Definition ComparisonExpressionContext_ExitRule {S} (listener : option (qasm3ParserListener S)) (s : node qasm3Context) : M S unit :=
  match listener with Some listenerT => listenerT ExitComparisonExpression s | None => ret tt end.
Definition ComparisonExpressionContext_Accept {T} (visitor : visitor T) (s : node qasm3Context) : T :=
  match visitor with inl t => t VisitComparisonExpression s | inr t => t s end.
Definition MultiplicativeExpressionContext_EnterRule {S} (listener : option (qasm3ParserListener S)) (s : node qasm3Context) : M S unit :=
  match listener with Some listenerT => listenerT EnterMultiplicativeExpression s | None => ret tt end.
Definition MultiplicativeExpressionContext_ExitRule {S} (listener : option (qasm3ParserListener S)) (s : node qasm3Context) : M S unit :=
  match listener with Some listenerT => listenerT ExitMultiplicativeExpression s | None => ret tt end.
Definition MultiplicativeExpressionContext_Accept {T} (visitor : visitor T) (s : node qasm3Context) : T :=
  match visitor with inl t => t VisitMultiplicativeExpression s | inr t => t s end.
Definition LogicalOrExpressionContext_EnterRule {S} (listener : option (qasm3ParserListener S)) (s : node qasm3Context) : M S unit :=
  match listener with Some listenerT => listenerT EnterLogicalOrExpression s | None => ret tt end.
Definition LogicalOrExpressionContext_ExitRule {S} (listener : option (qasm3ParserListener S)) (s : node qasm3Context) : M S unit :=
  match listener with Some listenerT => listenerT ExitLogicalOrExpression s | None => ret tt end.
Definition LogicalOrExpressionContext_Accept {T} (visitor : visitor T) (s : node qasm3Context) : T :=
  match visitor with inl t => t VisitLogicalOrExpression s | inr t => t s end.
Definition CastExpressionContext_EnterRule {S} (listener : option (qasm3ParserListener S)) (s : node qasm3Context) : M S unit :=
  match listener with Some listenerT => listenerT EnterCastExpression s | None => ret tt end.
Definition CastExpressionContext_ExitRule {S} (listener : option (qasm3ParserListener S)) (s : node qasm3Context) : M S unit :=
  match listener with Some listenerT => listenerT ExitCastExpression s | None => ret tt end.
Definition CastExpressionContext_Accept {T} (visitor : visitor T) (s : node qasm3Context) : T :=
  match visitor with inl t => t VisitCastExpression s | inr t => t s end.
Definition PowerExpressionContext_EnterRule {S} (listener : option (qasm3ParserListener S)) (s : node qasm3Context) : M S unit :=
  match listener with Some listenerT => listenerT EnterPowerExpression s | None => ret tt end.
Definition PowerExpressionContext_ExitRule {S} (listener : option (qasm3ParserListener S)) (s : node qasm3Context) : M S unit :=
  match listener with Some listenerT => listenerT ExitPowerExpression s | None => ret tt end.
Definition PowerExpressionContext_Accept {T} (visitor : visitor T) (s : node qasm3Context) : T :=
  match visitor with inl t => t VisitPowerExpression s | inr t => t s end.
Definition BitwiseOrExpressionContext_EnterRule {S} (listener : option (qasm3ParserListener S)) (s : node qasm3Context) : M S unit :=
  match listener with Some listenerT => listenerT EnterBitwiseOrExpression s | None => ret tt end.
Definition BitwiseOrExpressionContext_ExitRule {S} (listener : option (qasm3ParserListener S)) (s : node qasm3Context) : M S unit :=
  match listener with Some listenerT => listenerT ExitBitwiseOrExpression s | None => ret tt end.
Definition BitwiseOrExpressionContext_Accept {T} (visitor : visitor T) (s : node qasm3Context) : T :=
  match visitor with inl t => t VisitBitwiseOrExpression s | inr t => t s end.
Definition CallExpressionContext_EnterRule {S} (listener : option (qasm3ParserListener S)) (s : node qasm3Context) : M S unit :=
  match listener with Some listenerT => listenerT EnterCallExpression s | None => ret tt end.
Definition CallExpressionContext_ExitRule {S} (listener : option (qasm3ParserListener S)) (s : node qasm3Context) : M S unit :=
  match listener with Some listenerT => listenerT ExitCallExpression s | None => ret tt end.
Definition CallExpressionContext_Accept {T} (visitor : visitor T) (s : node qasm3Context) : T :=
  match visitor with inl t => t VisitCallExpression s | inr t => t s end.
Definition BitshiftExpressionContext_EnterRule {S} (listener : option (qasm3ParserListener S)) (s : node qasm3Context) : M S unit :=
  match listener with Some listenerT => listenerT EnterBitshiftExpression s | None => ret tt end.
Definition BitshiftExpressionContext_ExitRule {S} (listener : option (qasm3ParserListener S)) (s : node qasm3Context) : M S unit :=
  match listener with Some listenerT => listenerT ExitBitshiftExpression s | None => ret tt end.
Definition BitshiftExpressionContext_Accept {T} (visitor : visitor T) (s : node qasm3Context) : T :=
  match visitor with inl t => t VisitBitshiftExpression s | inr t => t s end.
Definition BitwiseAndExpressionContext_EnterRule {S} (listener : option (qasm3ParserListener S)) (s : node qasm3Context) : M S unit :=
  match listener with Some listenerT => listenerT EnterBitwiseAndExpression s | None => ret tt end.
Definition BitwiseAndExpressionContext_ExitRule {S} (listener : option (qasm3ParserListener S)) (s : node qasm3Context) : M S unit :=
  match listener with Some listenerT => listenerT ExitBitwiseAndExpression s | None => ret tt end.
Definition BitwiseAndExpressionContext_Accept {T} (visitor : visitor T) (s : node qasm3Context) : T :=
  match visitor with inl t => t VisitBitwiseAndExpression s | inr t => t s end.
Definition EqualityExpressionContext_EnterRule {S} (listener : option (qasm3ParserListener S)) (s : node qasm3Context) : M S unit :=
  match listener with Some listenerT => listenerT EnterEqualityExpression s | None => ret tt end.
Definition EqualityExpressionContext_ExitRule {S} (listener : option (qasm3ParserListener S)) (s : node qasm3Context) : M S unit :=
  match listener with Some listenerT => listenerT ExitEqualityExpression s | None => ret tt end.
Definition EqualityExpressionContext_Accept {T} (visitor : visitor T) (s : node qasm3Context) : T :=
  match visitor with inl t => t VisitEqualityExpression s | inr t => t s end.
Definition LogicalAndExpressionContext_EnterRule {S} (listener : option (qasm3ParserListener S)) (s : node qasm3Context) : M S unit :=
  match listener with Some listenerT => listenerT EnterLogicalAndExpression s | None => ret tt end.
Definition LogicalAndExpressionContext_ExitRule {S} (listener : option (qasm3ParserListener S)) (s : node qasm3Context) : M S unit :=
  match listener with Some listenerT => listenerT ExitLogicalAndExpression s | None => ret tt end.
Definition LogicalAndExpressionContext_Accept {T} (visitor : visitor T) (s : node qasm3Context) : T :=
  match visitor with inl t => t VisitLogicalAndExpression s | inr t => t s end.
Definition IndexExpressionContext_EnterRule {S} (listener : option (qasm3ParserListener S)) (s : node qasm3Context) : M S unit :=
  match listener with Some listenerT => listenerT EnterIndexExpression s | None => ret tt end.
Definition IndexExpressionContext_ExitRule {S} (listener : option (qasm3ParserListener S)) (s : node qasm3Context) : M S unit :=
  match listener with Some listenerT => listenerT ExitIndexExpression s | None => ret tt end.
Definition IndexExpressionContext_Accept {T} (visitor : visitor T) (s : node qasm3Context) : T :=
  match visitor with inl t => t VisitIndexExpression s | inr t => t s end.
Definition UnaryExpressionContext_EnterRule {S} (listener : option (qasm3ParserListener S)) (s : node qasm3Context) : M S unit :=
  match listener with Some listenerT => listenerT EnterUnaryExpression s | None => ret tt end.
Definition UnaryExpressionContext_ExitRule {S} (listener : option (qasm3ParserListener S)) (s : node qasm3Context) : M S unit :=
  match listener with Some listenerT => listenerT ExitUnaryExpression s | None => ret tt end.
Definition UnaryExpressionContext_Accept {T} (visitor : visitor T) (s : node qasm3Context) : T :=
  match visitor with inl t => t VisitUnaryExpression s | inr t => t s end.
Definition LiteralExpressionContext_EnterRule {S} (listener : option (qasm3ParserListener S)) (s : node qasm3Context) : M S unit :=
  match listener with Some listenerT => listenerT EnterLiteralExpression s | None => ret tt end.
Definition LiteralExpressionContext_ExitRule {S} (listener : option (qasm3ParserListener S)) (s : node qasm3Context) : M S unit :=
  match listener with Some listenerT => listenerT ExitLiteralExpression s | None => ret tt end.
Definition LiteralExpressionContext_Accept {T} (visitor : visitor T) (s : node qasm3Context) : T :=
  match visitor with inl t => t VisitLiteralExpression s | inr t => t s end.
Definition AliasExpressionContext_EnterRule {S} (listener : option (qasm3ParserListener S)) (s : node qasm3Context) : M S unit :=
  match listener with Some listenerT => listenerT EnterAliasExpression s | None => ret tt end.
Definition AliasExpressionContext_ExitRule {S} (listener : option (qasm3ParserListener S)) (s : node qasm3Context) : M S unit :=
  match listener with Some listenerT => listenerT ExitAliasExpression s | None => ret tt end.
Definition AliasExpressionContext_Accept {T} (visitor : visitor T) (s : node qasm3Context) : T :=
  match visitor with inl t => t VisitAliasExpression s | inr t => t s end.
Definition DeclarationExpressionContext_EnterRule {S} (listener : option (qasm3ParserListener S)) (s : node qasm3Context) : M S unit :=
  match listener with Some listenerT => listenerT EnterDeclarationExpression s | None => ret tt end.
Definition DeclarationExpressionContext_ExitRule {S} (listener : option (qasm3ParserListener S)) (s : node qasm3Context) : M S unit :=
  match listener with Some listenerT => listenerT ExitDeclarationExpression s | None => ret tt end.
Definition DeclarationExpressionContext_Accept {T} (visitor : visitor T) (s : node qasm3Context) : T :=
  match visitor with inl t => t VisitDeclarationExpression s | inr t => t s end.
Definition MeasureExpressionContext_EnterRule {S} (listener : option (qasm3ParserListener S)) (s : node qasm3Context) : M S unit :=
  match listener with Some listenerT => listenerT EnterMeasureExpression s | None => ret tt end.
Definition MeasureExpressionContext_ExitRule {S} (listener : option (qasm3ParserListener S)) (s : node qasm3Context) : M S unit :=
  match listener with Some listenerT => listenerT ExitMeasureExpression s | None => ret tt end.
Definition MeasureExpressionContext_Accept {T} (visitor : visitor T) (s : node qasm3Context) : T :=
  match visitor with inl t => t VisitMeasureExpression s | inr t => t s end.
Definition RangeExpressionContext_EnterRule {S} (listener : option (qasm3ParserListener S)) (s : node qasm3Context) : M S unit :=
  match listener with Some listenerT => listenerT EnterRangeExpression s | None => ret tt end.
Definition RangeExpressionContext_ExitRule {S} (listener : option (qasm3ParserListener S)) (s : node qasm3Context) : M S unit :=
  match listener with Some listenerT => listenerT ExitRangeExpression s | None => ret tt end.
Definition RangeExpressionContext_Accept {T} (visitor : visitor T) (s : node qasm3Context) : T :=
  match visitor with inl t => t VisitRangeExpression s | inr t => t s end.
Definition SetExpressionContext_EnterRule {S} (listener : option (qasm3ParserListener S)) (s : node qasm3Context) : M S unit :=
  match listener with Some listenerT => listenerT EnterSetExpression s | None => ret tt end.
Definition SetExpressionContext_ExitRule {S} (listener : option (qasm3ParserListener S)) (s : node qasm3Context) : M S unit :=
  match listener with Some listenerT => listenerT ExitSetExpression s | None => ret tt end.
Definition SetExpressionContext_Accept {T} (visitor : visitor T) (s : node qasm3Context) : T :=
  match visitor with inl t => t VisitSetExpression s | inr t => t s end.
Definition ArrayLiteralContext_EnterRule {S} (listener : option (qasm3ParserListener S)) (s : node qasm3Context) : M S unit :=
  match listener with Some listenerT => listenerT EnterArrayLiteral s | None => ret tt end.
Definition ArrayLiteralContext_ExitRule {S} (listener : option (qasm3ParserListener S)) (s : node qasm3Context) : M S unit :=
  match listener with Some listenerT => listenerT ExitArrayLiteral s | None => ret tt end.
Definition ArrayLiteralContext_Accept {T} (visitor : visitor T) (s : node qasm3Context) : T :=
  match visitor with inl t => t VisitArrayLiteral s | inr t => t s end.
Definition IndexOperatorContext_EnterRule {S} (listener : option (qasm3ParserListener S)) (s : node qasm3Context) : M S unit :=
  match listener with Some listenerT => listenerT EnterIndexOperator s | None => ret tt end.
Definition IndexOperatorContext_ExitRule {S} (listener : option (qasm3ParserListener S)) (s : node qasm3Context) : M S unit :=
  match listener with Some listenerT => listenerT ExitIndexOperator s | None => ret tt end.
Definition IndexOperatorContext_Accept {T} (visitor : visitor T) (s : node qasm3Context) : T :=
  match visitor with inl t => t VisitIndexOperator s | inr t => t s end.
Definition IndexedIdentifierContext_EnterRule {S} (listener : option (qasm3ParserListener S)) (s : node qasm3Context) : M S unit :=
  match listener with Some listenerT => listenerT EnterIndexedIdentifier s | None => ret tt end.
Definition IndexedIdentifierContext_ExitRule {S} (listener : option (qasm3ParserListener S)) (s : node qasm3Context) : M S unit :=
  match listener with Some listenerT => listenerT ExitIndexedIdentifier s | None => ret tt end.
Definition IndexedIdentifierContext_Accept {T} (visitor : visitor T) (s : node qasm3Context) : T :=
  match visitor with inl t => t VisitIndexedIdentifier s | inr t => t s end.
Definition ReturnSignatureContext_EnterRule {S} (listener : option (qasm3ParserListener S)) (s : node qasm3Context) : M S unit :=
  match listener with Some listenerT => listenerT EnterReturnSignature s | None => ret tt end.
Definition ReturnSignatureContext_ExitRule {S} (listener : option (qasm3ParserListener S)) (s : node qasm3Context) : M S unit :=
  match listener with Some listenerT => listenerT ExitReturnSignature s | None => ret tt end.
Definition ReturnSignatureContext_Accept {T} (visitor : visitor T) (s : node qasm3Context) : T :=
  match visitor with inl t => t VisitReturnSignature s | inr t => t s end.
Definition GateModifierContext_EnterRule {S} (listener : option (qasm3ParserListener S)) (s : node qasm3Context) : M S unit :=
  match listener with Some listenerT => listenerT EnterGateModifier s | None => ret tt end.
Definition GateModifierContext_ExitRule {S} (listener : option (qasm3ParserListener S)) (s : node qasm3Context) : M S unit :=
  match listener with Some listenerT => listenerT ExitGateModifier s | None => ret tt end.
Definition GateModifierContext_Accept {T} (visitor : visitor T) (s : node qasm3Context) : T :=
  match visitor with inl t => t VisitGateModifier s | inr t => t s end.
Definition ScalarTypeContext_EnterRule {S} (listener : option (qasm3ParserListener S)) (s : node qasm3Context) : M S unit :=
  match listener with Some listenerT => listenerT EnterScalarType s | None => ret tt end.
Definition ScalarTypeContext_ExitRule {S} (listener : option (qasm3ParserListener S)) (s : node qasm3Context) : M S unit :=
  match listener with Some listenerT => listenerT ExitScalarType s | None => ret tt end.
Definition ScalarTypeContext_Accept {T} (visitor : visitor T) (s : node qasm3Context) : T :=
  match visitor with inl t => t VisitScalarType s | inr t => t s end.
Definition QubitTypeContext_EnterRule {S} (listener : option (qasm3ParserListener S)) (s : node qasm3Context) : M S unit :=
  match listener with Some listenerT => listenerT EnterQubitType s | None => ret tt end.
Definition QubitTypeContext_ExitRule {S} (listener : option (qasm3ParserListener S)) (s : node qasm3Context) : M S unit :=
  match listener with Some listenerT => listenerT ExitQubitType s | None => ret tt end.
Definition QubitTypeContext_Accept {T} (visitor : visitor T) (s : node qasm3Context) : T :=
  match visitor with inl t => t VisitQubitType s | inr t => t s end.
Definition ArrayTypeContext_EnterRule {S} (listener : option (qasm3ParserListener S)) (s : node qasm3Context) : M S unit :=
  match listener with Some listenerT => listenerT EnterArrayType s | None => ret tt end.
Definition ArrayTypeContext_ExitRule {S} (listener : option (qasm3ParserListener S)) (s : node qasm3Context) : M S unit :=
  match listener with Some listenerT => listenerT ExitArrayType s | None => ret tt end.
Definition ArrayTypeContext_Accept {T} (visitor : visitor T) (s : node qasm3Context) : T :=
  match visitor with inl t => t VisitArrayType s | inr t => t s end.
Definition ArrayReferenceTypeContext_EnterRule {S} (listener : option (qasm3ParserListener S)) (s : node qasm3Context) : M S unit :=
  match listener with Some listenerT => listenerT EnterArrayReferenceType s | None => ret tt end.
Definition ArrayReferenceTypeContext_ExitRule {S} (listener : option (qasm3ParserListener S)) (s : node qasm3Context) : M S unit :=
  match listener with Some listenerT => listenerT ExitArrayReferenceType s | None => ret tt end.
Definition ArrayReferenceTypeContext_Accept {T} (visitor : visitor T) (s : node qasm3Context) : T :=
  match visitor with inl t => t VisitArrayReferenceType s | inr t => t s end.
Definition DesignatorContext_EnterRule {S} (listener : option (qasm3ParserListener S)) (s : node qasm3Context) : M S unit :=
  match listener with Some listenerT => listenerT EnterDesignator s | None => ret tt end.
Definition DesignatorContext_ExitRule {S} (listener : option (qasm3ParserListener S)) (s : node qasm3Context) : M S unit :=
  match listener with Some listenerT => listenerT ExitDesignator s | None => ret tt end.
Definition DesignatorContext_Accept {T} (visitor : visitor T) (s : node qasm3Context) : T :=
  match visitor with inl t => t VisitDesignator s | inr t => t s end.
Definition DefcalTargetContext_EnterRule {S} (listener : option (qasm3ParserListener S)) (s : node qasm3Context) : M S unit :=
  match listener with Some listenerT => listenerT EnterDefcalTarget s | None => ret tt end.
Definition DefcalTargetContext_ExitRule {S} (listener : option (qasm3ParserListener S)) (s : node qasm3Context) : M S unit :=
  match listener with Some listenerT => listenerT ExitDefcalTarget s | None => ret tt end.
Definition DefcalTargetContext_Accept {T} (visitor : visitor T) (s : node qasm3Context) : T :=
  match visitor with inl t => t VisitDefcalTarget s | inr t => t s end.
Definition DefcalArgumentDefinitionContext_EnterRule {S} (listener : option (qasm3ParserListener S)) (s : node qasm3Context) : M S unit :=
  match listener with Some listenerT => listenerT EnterDefcalArgumentDefinition s | None => ret tt end.
Definition DefcalArgumentDefinitionContext_ExitRule {S} (listener : option (qasm3ParserListener S)) (s : node qasm3Context) : M S unit :=
  match listener with Some listenerT => listenerT ExitDefcalArgumentDefinition s | None => ret tt end.
Definition DefcalArgumentDefinitionContext_Accept {T} (visitor : visitor T) (s : node qasm3Context) : T :=
  match visitor with inl t => t VisitDefcalArgumentDefinition s | inr t => t s end.
Definition DefcalOperandContext_EnterRule {S} (listener : option (qasm3ParserListener S)) (s : node qasm3Context) : M S unit :=
  match listener with Some listenerT => listenerT EnterDefcalOperand s | None => ret tt end.
Definition DefcalOperandContext_ExitRule {S} (listener : option (qasm3ParserListener S)) (s : node qasm3Context) : M S unit :=
  match listener with Some listenerT => listenerT ExitDefcalOperand s | None => ret tt end.
Definition DefcalOperandContext_Accept {T} (visitor : visitor T) (s : node qasm3Context) : T :=
  match visitor with inl t => t VisitDefcalOperand s | inr t => t s end.
Definition GateOperandContext_EnterRule {S} (listener : option (qasm3ParserListener S)) (s : node qasm3Context) : M S unit :=
  match listener with Some listenerT => listenerT EnterGateOperand s | None => ret tt end.
Definition GateOperandContext_ExitRule {S} (listener : option (qasm3ParserListener S)) (s : node qasm3Context) : M S unit :=
  match listener with Some listenerT => listenerT ExitGateOperand s | None => ret tt end.
Definition GateOperandContext_Accept {T} (visitor : visitor T) (s : node qasm3Context) : T :=
  match visitor with inl t => t VisitGateOperand s | inr t => t s end.
Definition ExternArgumentContext_EnterRule {S} (listener : option (qasm3ParserListener S)) (s : node qasm3Context) : M S unit :=
  match listener with Some listenerT => listenerT EnterExternArgument s | None => ret tt end.
Definition ExternArgumentContext_ExitRule {S} (listener : option (qasm3ParserListener S)) (s : node qasm3Context) : M S unit :=
  match listener with Some listenerT => listenerT ExitExternArgument s | None => ret tt end.
Definition ExternArgumentContext_Accept {T} (visitor : visitor T) (s : node qasm3Context) : T :=
  match visitor with inl t => t VisitExternArgument s | inr t => t s end.
Definition ArgumentDefinitionContext_EnterRule {S} (listener : option (qasm3ParserListener S)) (s : node qasm3Context) : M S unit :=
  match listener with Some listenerT => listenerT EnterArgumentDefinition s | None => ret tt end.
Definition ArgumentDefinitionContext_ExitRule {S} (listener : option (qasm3ParserListener S)) (s : node qasm3Context) : M S unit :=
  match listener with Some listenerT => listenerT ExitArgumentDefinition s | None => ret tt end.
Definition ArgumentDefinitionContext_Accept {T} (visitor : visitor T) (s : node qasm3Context) : T :=
  match visitor with inl t => t VisitArgumentDefinition s | inr t => t s end.
Definition ArgumentDefinitionListContext_EnterRule {S} (listener : option (qasm3ParserListener S)) (s : node qasm3Context) : M S unit :=
  match listener with Some listenerT => listenerT EnterArgumentDefinitionList s | None => ret tt end.
Definition ArgumentDefinitionListContext_ExitRule {S} (listener : option (qasm3ParserListener S)) (s : node qasm3Context) : M S unit :=
  match listener with Some listenerT => listenerT ExitArgumentDefinitionList s | None => ret tt end.
Definition ArgumentDefinitionListContext_Accept {T} (visitor : visitor T) (s : node qasm3Context) : T :=
  match visitor with inl t => t VisitArgumentDefinitionList s | inr t => t s end.
Definition DefcalArgumentDefinitionListContext_EnterRule {S} (listener : option (qasm3ParserListener S)) (s : node qasm3Context) : M S unit :=
  match listener with Some listenerT => listenerT EnterDefcalArgumentDefinitionList s | None => ret tt end.
Definition DefcalArgumentDefinitionListContext_ExitRule {S} (listener : option (qasm3ParserListener S)) (s : node qasm3Context) : M S unit :=
  match listener with Some listenerT => listenerT ExitDefcalArgumentDefinitionList s | None => ret tt end.
Definition DefcalArgumentDefinitionListContext_Accept {T} (visitor : visitor T) (s : node qasm3Context) : T :=
  match visitor with inl t => t VisitDefcalArgumentDefinitionList s | inr t => t s end.
Definition DefcalOperandListContext_EnterRule {S} (listener : option (qasm3ParserListener S)) (s : node qasm3Context) : M S unit :=
  match listener with Some listenerT => listenerT EnterDefcalOperandList s | None => ret tt end.
Definition DefcalOperandListContext_ExitRule {S} (listener : option (qasm3ParserListener S)) (s : node qasm3Context) : M S unit :=
  match listener with Some listenerT => listenerT ExitDefcalOperandList s | None => ret tt end.
Definition DefcalOperandListContext_Accept {T} (visitor : visitor T) (s : node qasm3Context) : T :=
  match visitor with inl t => t VisitDefcalOperandList s | inr t => t s end.
Definition ExpressionListContext_EnterRule {S} (listener : option (qasm3ParserListener S)) (s : node qasm3Context) : M S unit :=
  match listener with Some listenerT => listenerT EnterExpressionList s | None => ret tt end.
Definition ExpressionListContext_ExitRule {S} (listener : option (qasm3ParserListener S)) (s : node qasm3Context) : M S unit :=
  match listener with Some listenerT => listenerT ExitExpressionList s | None => ret tt end.
Definition ExpressionListContext_Accept {T} (visitor : visitor T) (s : node qasm3Context) : T :=
  match visitor with inl t => t VisitExpressionList s | inr t => t s end.
Definition IdentifierListContext_EnterRule {S} (listener : option (qasm3ParserListener S)) (s : node qasm3Context) : M S unit :=
  match listener with Some listenerT => listenerT EnterIdentifierList s | None => ret tt end.
Definition IdentifierListContext_ExitRule {S} (listener : option (qasm3ParserListener S)) (s : node qasm3Context) : M S unit :=
  match listener with Some listenerT => listenerT ExitIdentifierList s | None => ret tt end.
Definition IdentifierListContext_Accept {T} (visitor : visitor T) (s : node qasm3Context) : T :=
  match visitor with inl t => t VisitIdentifierList s | inr t => t s end.
Definition GateOperandListContext_EnterRule {S} (listener : option (qasm3ParserListener S)) (s : node qasm3Context) : M S unit :=
  match listener with Some listenerT => listenerT EnterGateOperandList s | None => ret tt end.
Definition GateOperandListContext_ExitRule {S} (listener : option (qasm3ParserListener S)) (s : node qasm3Context) : M S unit :=
  match listener with Some listenerT => listenerT ExitGateOperandList s | None => ret tt end.
Definition GateOperandListContext_Accept {T} (visitor : visitor T) (s : node qasm3Context) : T :=
  match visitor with inl t => t VisitGateOperandList s | inr t => t s end.
Definition ExternArgumentListContext_EnterRule {S} (listener : option (qasm3ParserListener S)) (s : node qasm3Context) : M S unit :=
  match listener with Some listenerT => listenerT EnterExternArgumentList s | None => ret tt end.
Definition ExternArgumentListContext_ExitRule {S} (listener : option (qasm3ParserListener S)) (s : node qasm3Context) : M S unit :=
  match listener with Some listenerT => listenerT ExitExternArgumentList s | None => ret tt end.
Definition ExternArgumentListContext_Accept {T} (visitor : visitor T) (s : node qasm3Context) : T :=
  match visitor with inl t => t VisitExternArgumentList s | inr t => t s end.

(** The methods of a context, by its kind. *)
Definition EnterRule {S} (listener : option (qasm3ParserListener S)) (s : node qasm3Context) : M S unit :=
  match s with
  | Leaf _ => ret tt
  | Node k _ _ =>
      match k with
      | ProgramContext => ProgramContext_EnterRule listener s
      | VersionContext => VersionContext_EnterRule listener s
      | StatementContext => StatementContext_EnterRule listener s
      | AnnotationContext => AnnotationContext_EnterRule listener s
      | ScopeContext => ScopeContext_EnterRule listener s
      | PragmaContext => PragmaContext_EnterRule listener s
      | StatementOrScopeContext => StatementOrScopeContext_EnterRule listener s
      | CalibrationGrammarStatementContext => CalibrationGrammarStatementContext_EnterRule listener s
      | IncludeStatementContext => IncludeStatementContext_EnterRule listener s
      | BreakStatementContext => BreakStatementContext_EnterRule listener s
      | ContinueStatementContext => ContinueStatementContext_EnterRule listener s
      | EndStatementContext => EndStatementContext_EnterRule listener s
      | ForStatementContext => ForStatementContext_EnterRule listener s
      | IfStatementContext => IfStatementContext_EnterRule listener s
      | ReturnStatementContext => ReturnStatementContext_EnterRule listener s
      | WhileStatementContext => WhileStatementContext_EnterRule listener s
      | BarrierStatementContext => BarrierStatementContext_EnterRule listener s
      | BoxStatementContext => BoxStatementContext_EnterRule listener s
      | DelayStatementContext => DelayStatementContext_EnterRule listener s
      | GateCallStatementContext => GateCallStatementContext_EnterRule listener s
      | MeasureArrowAssignmentStatementContext => MeasureArrowAssignmentStatementContext_EnterRule listener s
      | ResetStatementContext => ResetStatementContext_EnterRule listener s
      | AliasDeclarationStatementContext => AliasDeclarationStatementContext_EnterRule listener s
      | ClassicalDeclarationStatementContext => ClassicalDeclarationStatementContext_EnterRule listener s
      | ConstDeclarationStatementContext => ConstDeclarationStatementContext_EnterRule listener s
      | IoDeclarationStatementContext => IoDeclarationStatementContext_EnterRule listener s
      | OldStyleDeclarationStatementContext => OldStyleDeclarationStatementContext_EnterRule listener s
      | QuantumDeclarationStatementContext => QuantumDeclarationStatementContext_EnterRule listener s
      | DefStatementContext => DefStatementContext_EnterRule listener s
      | ExternStatementContext => ExternStatementContext_EnterRule listener s
      | GateStatementContext => GateStatementContext_EnterRule listener s
      | AssignmentStatementContext => AssignmentStatementContext_EnterRule listener s
      | ExpressionStatementContext => ExpressionStatementContext_EnterRule listener s
      | CalStatementContext => CalStatementContext_EnterRule listener s
      | DefcalStatementContext => DefcalStatementContext_EnterRule listener s
      | BitwiseXorExpressionContext => BitwiseXorExpressionContext_EnterRule listener s
      | AdditiveExpressionContext => AdditiveExpressionContext_EnterRule listener s
      | DurationofExpressionContext => DurationofExpressionContext_EnterRule listener s
      | ParenthesisExpressionContext => ParenthesisExpressionContext_EnterRule listener s
      | ComparisonExpressionContext => ComparisonExpressionContext_EnterRule listener s
      | MultiplicativeExpressionContext => MultiplicativeExpressionContext_EnterRule listener s
      | LogicalOrExpressionContext => LogicalOrExpressionContext_EnterRule listener s
      | CastExpressionContext => CastExpressionContext_EnterRule listener s
      | PowerExpressionContext => PowerExpressionContext_EnterRule listener s
      | BitwiseOrExpressionContext => BitwiseOrExpressionContext_EnterRule listener s
      | CallExpressionContext => CallExpressionContext_EnterRule listener s
      | BitshiftExpressionContext => BitshiftExpressionContext_EnterRule listener s
      | BitwiseAndExpressionContext => BitwiseAndExpressionContext_EnterRule listener s
      | EqualityExpressionContext => EqualityExpressionContext_EnterRule listener s
      | LogicalAndExpressionContext => LogicalAndExpressionContext_EnterRule listener s
      | IndexExpressionContext => IndexExpressionContext_EnterRule listener s
      | UnaryExpressionContext => UnaryExpressionContext_EnterRule listener s
      | LiteralExpressionContext => LiteralExpressionContext_EnterRule listener s
      | AliasExpressionContext => AliasExpressionContext_EnterRule listener s
      | DeclarationExpressionContext => DeclarationExpressionContext_EnterRule listener s
      | MeasureExpressionContext => MeasureExpressionContext_EnterRule listener s
      | RangeExpressionContext => RangeExpressionContext_EnterRule listener s
      | SetExpressionContext => SetExpressionContext_EnterRule listener s
      | ArrayLiteralContext => ArrayLiteralContext_EnterRule listener s
      | IndexOperatorContext => IndexOperatorContext_EnterRule listener s
      | IndexedIdentifierContext => IndexedIdentifierContext_EnterRule listener s
      | ReturnSignatureContext => ReturnSignatureContext_EnterRule listener s
      | GateModifierContext => GateModifierContext_EnterRule listener s
      | ScalarTypeContext => ScalarTypeContext_EnterRule listener s
      | QubitTypeContext => QubitTypeContext_EnterRule listener s
      | ArrayTypeContext => ArrayTypeContext_EnterRule listener s
      | ArrayReferenceTypeContext => ArrayReferenceTypeContext_EnterRule listener s
      | DesignatorContext => DesignatorContext_EnterRule listener s
      | DefcalTargetContext => DefcalTargetContext_EnterRule listener s
      | DefcalArgumentDefinitionContext => DefcalArgumentDefinitionContext_EnterRule listener s
      | DefcalOperandContext => DefcalOperandContext_EnterRule listener s
      | GateOperandContext => GateOperandContext_EnterRule listener s
      | ExternArgumentContext => ExternArgumentContext_EnterRule listener s
      | ArgumentDefinitionContext => ArgumentDefinitionContext_EnterRule listener s
      | ArgumentDefinitionListContext => ArgumentDefinitionListContext_EnterRule listener s
      | DefcalArgumentDefinitionListContext => DefcalArgumentDefinitionListContext_EnterRule listener s
      | DefcalOperandListContext => DefcalOperandListContext_EnterRule listener s
      | ExpressionListContext => ExpressionListContext_EnterRule listener s
      | IdentifierListContext => IdentifierListContext_EnterRule listener s
      | GateOperandListContext => GateOperandListContext_EnterRule listener s
      | ExternArgumentListContext => ExternArgumentListContext_EnterRule listener s
      | ExpressionContext => ret tt
      end
  end.
Definition ExitRule {S} (listener : option (qasm3ParserListener S)) (s : node qasm3Context) : M S unit :=
  match s with
  | Leaf _ => ret tt
  | Node k _ _ =>
      match k with
      | ProgramContext => ProgramContext_ExitRule listener s
      | VersionContext => VersionContext_ExitRule listener s
      | StatementContext => StatementContext_ExitRule listener s
      | AnnotationContext => AnnotationContext_ExitRule listener s
      | ScopeContext => ScopeContext_ExitRule listener s
      | PragmaContext => PragmaContext_ExitRule listener s
      | StatementOrScopeContext => StatementOrScopeContext_ExitRule listener s
      | CalibrationGrammarStatementContext => CalibrationGrammarStatementContext_ExitRule listener s
      | IncludeStatementContext => IncludeStatementContext_ExitRule listener s
      | BreakStatementContext => BreakStatementContext_ExitRule listener s
      | ContinueStatementContext => ContinueStatementContext_ExitRule listener s
      | EndStatementContext => EndStatementContext_ExitRule listener s
      | ForStatementContext => ForStatementContext_ExitRule listener s
      | IfStatementContext => IfStatementContext_ExitRule listener s
      | ReturnStatementContext => ReturnStatementContext_ExitRule listener s
      | WhileStatementContext => WhileStatementContext_ExitRule listener s
      | BarrierStatementContext => BarrierStatementContext_ExitRule listener s
      | BoxStatementContext => BoxStatementContext_ExitRule listener s
      | DelayStatementContext => DelayStatementContext_ExitRule listener s
      | GateCallStatementContext => GateCallStatementContext_ExitRule listener s
      | MeasureArrowAssignmentStatementContext => MeasureArrowAssignmentStatementContext_ExitRule listener s
      | ResetStatementContext => ResetStatementContext_ExitRule listener s
      | AliasDeclarationStatementContext => AliasDeclarationStatementContext_ExitRule listener s
      | ClassicalDeclarationStatementContext => ClassicalDeclarationStatementContext_ExitRule listener s
      | ConstDeclarationStatementContext => ConstDeclarationStatementContext_ExitRule listener s
      | IoDeclarationStatementContext => IoDeclarationStatementContext_ExitRule listener s
      | OldStyleDeclarationStatementContext => OldStyleDeclarationStatementContext_ExitRule listener s
      | QuantumDeclarationStatementContext => QuantumDeclarationStatementContext_ExitRule listener s
      | DefStatementContext => DefStatementContext_ExitRule listener s
      | ExternStatementContext => ExternStatementContext_ExitRule listener s
      | GateStatementContext => GateStatementContext_ExitRule listener s
      | AssignmentStatementContext => AssignmentStatementContext_ExitRule listener s
      | ExpressionStatementContext => ExpressionStatementContext_ExitRule listener s
      | CalStatementContext => CalStatementContext_ExitRule listener s
      | DefcalStatementContext => DefcalStatementContext_ExitRule listener s
      | BitwiseXorExpressionContext => BitwiseXorExpressionContext_ExitRule listener s
      | AdditiveExpressionContext => AdditiveExpressionContext_ExitRule listener s
      | DurationofExpressionContext => DurationofExpressionContext_ExitRule listener s
      | ParenthesisExpressionContext => ParenthesisExpressionContext_ExitRule listener s
      | ComparisonExpressionContext => ComparisonExpressionContext_ExitRule listener s
      | MultiplicativeExpressionContext => MultiplicativeExpressionContext_ExitRule listener s
      | LogicalOrExpressionContext => LogicalOrExpressionContext_ExitRule listener s
      | CastExpressionContext => CastExpressionContext_ExitRule listener s
      | PowerExpressionContext => PowerExpressionContext_ExitRule listener s
      | BitwiseOrExpressionContext => BitwiseOrExpressionContext_ExitRule listener s
      | CallExpressionContext => CallExpressionContext_ExitRule listener s
      | BitshiftExpressionContext => BitshiftExpressionContext_ExitRule listener s
      | BitwiseAndExpressionContext => BitwiseAndExpressionContext_ExitRule listener s
      | EqualityExpressionContext => EqualityExpressionContext_ExitRule listener s
      | LogicalAndExpressionContext => LogicalAndExpressionContext_ExitRule listener s
      | IndexExpressionContext => IndexExpressionContext_ExitRule listener s
      | UnaryExpressionContext => UnaryExpressionContext_ExitRule listener s
      | LiteralExpressionContext => LiteralExpressionContext_ExitRule listener s
      | AliasExpressionContext => AliasExpressionContext_ExitRule listener s
      | DeclarationExpressionContext => DeclarationExpressionContext_ExitRule listener s
      | MeasureExpressionContext => MeasureExpressionContext_ExitRule listener s
      | RangeExpressionContext => RangeExpressionContext_ExitRule listener s
      | SetExpressionContext => SetExpressionContext_ExitRule listener s
      | ArrayLiteralContext => ArrayLiteralContext_ExitRule listener s
      | IndexOperatorContext => IndexOperatorContext_ExitRule listener s
      | IndexedIdentifierContext => IndexedIdentifierContext_ExitRule listener s
      | ReturnSignatureContext => ReturnSignatureContext_ExitRule listener s
      | GateModifierContext => GateModifierContext_ExitRule listener s
      | ScalarTypeContext => ScalarTypeContext_ExitRule listener s
      | QubitTypeContext => QubitTypeContext_ExitRule listener s
      | ArrayTypeContext => ArrayTypeContext_ExitRule listener s
      | ArrayReferenceTypeContext => ArrayReferenceTypeContext_ExitRule listener s
      | DesignatorContext => DesignatorContext_ExitRule listener s
      | DefcalTargetContext => DefcalTargetContext_ExitRule listener s
      | DefcalArgumentDefinitionContext => DefcalArgumentDefinitionContext_ExitRule listener s
      | DefcalOperandContext => DefcalOperandContext_ExitRule listener s
      | GateOperandContext => GateOperandContext_ExitRule listener s
      | ExternArgumentContext => ExternArgumentContext_ExitRule listener s
      | ArgumentDefinitionContext => ArgumentDefinitionContext_ExitRule listener s
      | ArgumentDefinitionListContext => ArgumentDefinitionListContext_ExitRule listener s
      | DefcalArgumentDefinitionListContext => DefcalArgumentDefinitionListContext_ExitRule listener s
      | DefcalOperandListContext => DefcalOperandListContext_ExitRule listener s
      | ExpressionListContext => ExpressionListContext_ExitRule listener s
      | IdentifierListContext => IdentifierListContext_ExitRule listener s
      | GateOperandListContext => GateOperandListContext_ExitRule listener s
      | ExternArgumentListContext => ExternArgumentListContext_ExitRule listener s
      | ExpressionContext => ret tt
      end
  end.

(** ** Walking a tree *)

(** [ParseTreeWalker.Walk]: a terminal is visited; a context is entered, its
    children are walked in order, and it is left, with the methods for every
    rule around those of the context. *)
Class ContextWalker := {
  Walk : forall S, qasm3ParserListener S -> node qasm3Context -> M S unit;
  Walk_terminal : forall S (l : qasm3ParserListener S) t s, Walk S l (Leaf t) s = l VisitTerminal (Leaf t) s;
  Walk_context : forall S (l : qasm3ParserListener S) k ls ch s, let n := Node k ls ch in
    Walk S l n s = (l EnterEveryRule n ;;! EnterRule (Some l) n ;;!
                    mfor (Walk S l) ch ;;! ExitRule (Some l) n ;;! l ExitEveryRule n) s
}.
Arguments Walk {_ S}.

Fixpoint walk_tree {S} (l : qasm3ParserListener S) (n : node qasm3Context) : M S unit :=
  match n with
  | Leaf _ => l VisitTerminal n
  | Node _ _ ch =>
      l EnterEveryRule n ;;! EnterRule (Some l) n ;;!
      (fix walk_all (ch : list (node qasm3Context)) : M S unit :=
         match ch with [] => ret tt | c :: rest => walk_tree l c ;;! walk_all rest end) ch ;;!
      ExitRule (Some l) n ;;! l ExitEveryRule n
  end.

Lemma walk_tree_all {S} (l : qasm3ParserListener S) ch :
  (fix walk_all (ch : list (node qasm3Context)) : M S unit :=
     match ch with [] => ret tt | c :: rest => walk_tree l c ;;! walk_all rest end) ch = mfor (walk_tree l) ch.
Proof. induction ch as [|c ch IH]; [done|]. cbn [mfor]. by rewrite IH. Qed.

Definition tree_walker : ContextWalker.
Proof.
  refine {| Walk S l n := walk_tree l n |}; [done|]. intros S l k ls ch s n. subst n. cbn [walk_tree]. by rewrite walk_tree_all.
Defined.
