(* ===== verification/Qasm3Circuit.v ===== *)
(** * The circuit listener on the parser's contexts (qpu/ir.go)

    [CircuitIR_listener] is the listener of ir.go with the accessors of the
    contexts it calls; [circuit_tree] is what the listener sees of a parse tree,
    the tree of the file Circuit.  On trees the parser returns, both give the
    same representation. *)

From stdpp Require Import base list strings gmap.
From Stdlib Require Import ZArith Lia.
From S2P Require Import Prelude GoString Core Common Job Device Circuit.
From S2P Require Import Antlr AntlrLaws AntlrContexts Qasm3Grammar Qasm3Contexts Qasm3Listener Qasm3Parser Qasm3Sound.

(** [x.GetText()] on what an accessor returned. *)
Definition text (n : option (node qasm3Context)) : option string := GetText <$> n.

Section circuit_listener.
Context {CR : ContextRuntime qasm3Context}.

(** [ctx.IndexOperator(0).( *IndexOperatorContext).Expression(0).GetText()] as an
    [int], then the identifier. *)
Definition EnterIndexedIdentifier_context (ctx : node qasm3Context) : M CircuitIR unit :=
  match IndexedIdentifierContext_IndexOperator ctx 0 with
  | None => bad_assertion
  | Some io =>
      let! e := get_text (text (IndexOperatorContext_Expression io 0)) in
      let! ind := atoi e in
      let! name := get_text (text (IndexedIdentifierContext_Identifier ctx)) in
      modify (fun c => set_tmpQCbitIdentifiers (tmpQCbitIdentifiers c ++ [mkQCbit name ind]) c)
  end.

Definition CircuitIR_listener : qasm3ParserListener CircuitIR := fun m ctx =>
  match m with
  | EnterProgram => Circuit.EnterProgram
  | EnterVersion => Circuit.EnterVersion (text (VersionContext_VersionSpecifier ctx))
  | EnterQuantumDeclarationStatement => Circuit.EnterQuantumDeclarationStatement (text (QuantumDeclarationStatementContext_Identifier ctx))
  | ExitQuantumDeclarationStatement => Circuit.ExitQuantumDeclarationStatement
  | EnterDesignator => Circuit.EnterDesignator (text (DesignatorContext_Expression ctx))
  | EnterClassicalDeclarationStatement =>
      Circuit.EnterClassicalDeclarationStatement (text (ClassicalDeclarationStatementContext_Identifier ctx))
  | ExitClassicalDeclarationStatement => Circuit.ExitClassicalDeclarationStatement
  | EnterGateCallStatement => Circuit.EnterGateCallStatement (text (GateCallStatementContext_Identifier ctx))
  | ExitGateCallStatement => Circuit.ExitGateCallStatement
  | EnterGateOperandList => Circuit.EnterGateOperandList
  | EnterExpressionList => Circuit.EnterExpressionList
  | ExitExpressionList => Circuit.ExitExpressionList (GetText ctx)
  | EnterIndexedIdentifier => EnterIndexedIdentifier_context ctx
  | EnterAssignmentStatement => Circuit.EnterAssignmentStatement
  | EnterMeasureExpression => ret tt
  | ExitMeasureExpression => Circuit.ExitMeasureExpression
  | ExitAssignmentStatement => Circuit.ExitAssignmentStatement
  | _ => Baseqasm3ParserListener m ctx
  end.

Definition NewCircuitIR_contexts {CW : ContextWalker} (pc : node qasm3Context) : CircuitIR * option error :=
  match Walk CircuitIR_listener pc empty_circuit_ir with
  | (Ret _, c) => (c, None)
  | (Panic _, _) => (empty_circuit_ir, Some "failed to generate IR.")
  end.

(** ** The tree of the file Circuit *)

(** What the listener reads of a context. *)
Definition circuit_rule (n : node qasm3Context) : rule :=
  match n with
  | Leaf _ => ROther "terminal"
  | Antlr.Node k _ _ =>
      match k with
      | ProgramContext => RProgram
      | VersionContext => RVersion (text (VersionContext_VersionSpecifier n))
      | QuantumDeclarationStatementContext => RQuantumDeclarationStatement (text (QuantumDeclarationStatementContext_Identifier n))
      | ClassicalDeclarationStatementContext =>
          RClassicalDeclarationStatement (text (ClassicalDeclarationStatementContext_Identifier n))
      | DesignatorContext => RDesignator (text (DesignatorContext_Expression n))
      | GateCallStatementContext => RGateCallStatement (text (GateCallStatementContext_Identifier n))
      | GateOperandListContext => RGateOperandList
      | ExpressionListContext => RExpressionList (GetText n)
      | IndexedIdentifierContext =>
          RIndexedIdentifier (default "" (text (IndexedIdentifierContext_Identifier n)))
            (IndexedIdentifierContext_IndexOperator n 0 ≫= fun io => text (IndexOperatorContext_Expression io 0))
      | AssignmentStatementContext => RAssignmentStatement
      | MeasureExpressionContext => RMeasureExpression
      | _ => ROther (qasm3_rule_name (qasm3_rule_of k))
      end
  end.

Fixpoint circuit_trees (n : node qasm3Context) : list tree :=
  match n with
  | Leaf _ => []
  | Antlr.Node _ _ ch => [Circuit.Node (circuit_rule n) (concat (map circuit_trees ch))]
  end.
Definition circuit_tree (n : node qasm3Context) : tree :=
  Circuit.Node (circuit_rule n) (concat (map circuit_trees (children_of n))).
End circuit_listener.

(** ** Agreement up to the message of a panic *)

Definition agree {S} (m m' : M S unit) : Prop := forall s,
  match m s, m' s with
  | (Ret _, s1), (Ret _, s2) => s1 = s2
  | (Panic _, _), (Panic _, _) => True
  | _, _ => False
  end.

Lemma agree_same {S} (m m' : M S unit) : (forall s, m s = m' s) -> agree m m'.
Proof. intros H s. rewrite H. by destruct (m' s) as [[[]|] ?]. Qed.

Lemma agree_seq {S} (m1 m2 m1' m2' : M S unit) : agree m1 m1' -> agree m2 m2' -> agree (m1 ;;! m2) (m1' ;;! m2').
Proof.
  intros H1 H2 s. unfold bind. specialize (H1 s). destruct (m1 s) as [[[]|] s1], (m1' s) as [[[]|] s1']; try done.
  subst. apply H2.
Qed.

Lemma agree_mfor_app {S A} (body : A -> M S unit) l l' m m' :
  agree m (mfor body l) -> agree m' (mfor body l') -> agree (m ;;! m') (mfor body (l ++ l')).
Proof. intros H H' s. rewrite mfor_app. by apply (agree_seq _ _ _ _ H H'). Qed.

Section refinement.
Context {CR : ContextRuntime qasm3Context} {CL : ContextLaws qasm3Context} {CW : ContextWalker} {PW : ParseTreeWalker}.

(** The accessor [get] of a child with the symbol [s], which the rule requires. *)
Ltac required s get ls ch Hm :=
  refine (accessor_returns _ ls ch (one s get) Hm _ _); [solve [repeat first [by left | right]]|vm_compute; lia].

Lemma identifier_present ls ch : matches (G := qasm3_grammar) (qasm3_rhs IndexedIdentifierContext) ch ->
  is_Some (IndexedIdentifierContext_Identifier (Antlr.Node IndexedIdentifierContext ls ch)).
Proof.
  intros Hm. required (STok (R := qasm3Rule) qasm3ParserIdentifier) IndexedIdentifierContext_Identifier ls ch Hm.
Qed.

Lemma enter_agrees n : derives (G := qasm3_grammar) n -> agree (EnterRule (Some CircuitIR_listener) n) (enter_rule (circuit_rule n)).
Proof.
  intros Hd. destruct n as [t|k ls ch]; [by apply agree_same|].
  destruct k; try (apply agree_same; intros s; reflexivity).
  inversion Hd as [|? ? ? Hm _]; subst. destruct (identifier_present ls ch Hm) as [id Hid]. intros s.
  cbn [EnterRule IndexedIdentifierContext_EnterRule circuit_rule enter_rule CircuitIR_listener].
  unfold EnterIndexedIdentifier_context, Circuit.EnterIndexedIdentifier. rewrite Hid. cbn [text].
  destruct (IndexedIdentifierContext_IndexOperator _ 0) as [io|]; cbn; [|done].
  destruct (text (IndexOperatorContext_Expression io 0)) as [e|]; cbn; [|done].
  unfold bind, atoi. by destruct (Atoi e).
Qed.

Lemma exit_agrees n : agree (ExitRule (Some CircuitIR_listener) n) (exit_rule (circuit_rule n)).
Proof. destruct n as [t|k ls ch]; [by apply agree_same|]. destruct k; apply agree_same; intros s; reflexivity. Qed.

(** The events of a tree and of the trees below a node. *)
Lemma events_node r ts : concat (map walk [Circuit.Node r ts]) = Enter r :: concat (map walk ts) ++ [Exit r].
Proof. cbn [map concat]. by rewrite app_nil_r, walk_node. Qed.
Lemma events_children ch :
  concat (map walk (concat (map circuit_trees ch))) = concat (map (fun c => concat (map walk (circuit_trees c))) ch).
Proof. induction ch as [|c ch IH]; [done|]. cbn [map concat]. by rewrite map_app, concat_app, IH. Qed.

Lemma walk_agrees n : derives (G := qasm3_grammar) n ->
  agree (Walk CircuitIR_listener n) (mfor listen (concat (map walk (circuit_trees n)))).
Proof.
  induction n as [t|k ls ch IH] using node_induction; intros Hd.
  { intros s. rewrite Walk_terminal. done. }
  pose proof Hd as Hd'. inversion Hd as [|? ? ? _ Hch]; subst. cbn [circuit_trees]. rewrite events_node, events_children.
  assert (agree (mfor (Walk CircuitIR_listener) ch) (mfor listen (concat (map (fun c => concat (map walk (circuit_trees c))) ch)))) as Hall.
  { clear Hd Hd'. induction ch as [|c ch IHch]; [by apply agree_same|]. apply Forall_cons in IH as [IHc IH], Hch as [Hc Hch].
    cbn [mfor map concat]. apply agree_mfor_app; [by apply IHc|by apply IHch]. }
  intros s. rewrite Walk_context. cbn zeta. cbn [mfor].
  apply (agree_seq (ret tt) _ (ret tt) (listen (Enter (circuit_rule (Antlr.Node k ls ch))) ;;! _)); [by apply agree_same|].
  apply agree_seq; [by apply enter_agrees|]. apply agree_mfor_app; [exact Hall|].
  cbn [mfor]. apply agree_seq; [apply exit_agrees|by apply agree_same].
Qed.

Lemma new_circuit_ir_agrees k ls ch : derives (G := qasm3_grammar) (Antlr.Node k ls ch) ->
  NewCircuitIR_contexts (Antlr.Node k ls ch) = NewCircuitIR (circuit_tree (Antlr.Node k ls ch)).
Proof.
  intros Hd. pose proof (walk_agrees _ Hd empty_circuit_ir) as H. unfold NewCircuitIR_contexts, NewCircuitIR, circuit_tree.
  cbn [circuit_trees map concat] in H. rewrite app_nil_r in H. cbn [children_of].
  destruct (Walk _ _ _) as [[[]|] s1], (mfor listen _ _) as [[[]|] s2]; [by subst|done..].
Qed.

(** *** What can be missing *)

(** A gate call has a name or is a global phase. *)
Lemma gate_call_named ls ch : matches (G := qasm3_grammar) (qasm3_rhs GateCallStatementContext) ch ->
  let n := Antlr.Node GateCallStatementContext ls ch in
  is_Some (GateCallStatementContext_Identifier n) <-> GateCallStatementContext_GPHASE n = None.
Proof.
  intros Hm n. pose proof (token_sound (R := qasm3Rule) qasm3ParserIdentifier n) as Hi.
  pose proof (token_sound (R := qasm3Rule) qasm3ParserGPHASE n) as Hg. subst n. cbn [children_of] in Hi, Hg.
  unfold GateCallStatementContext_Identifier, GateCallStatementContext_GPHASE. rewrite Hi, Hg. clear Hi Hg.
  assert (forall r m, matches (G := qasm3_grammar) r ch -> forall s, most s r = Some m ->
    (least s r <= length (filter (is_symbol s) ch) <= m)%nat) as Hocc.
  { intros r m Hr s Hs. split; [by apply matches_least|by eapply matches_most]. }
  inversion Hm as [| | | |? ? ? Ha|? ? ? Hb| |]; subst.
  - pose proof (Hocc _ 1%nat Ha (STok qasm3ParserIdentifier) ltac:(vm_compute; reflexivity)) as Hi.
    pose proof (Hocc _ 0%nat Ha (STok qasm3ParserGPHASE) ltac:(vm_compute; reflexivity)) as Hg.
    vm_compute (least _ _) in Hi. destruct (filter _ ch) as [|c l]; [cbn in Hi; lia|].
    destruct (filter (is_symbol (STok qasm3ParserGPHASE)) ch); [|cbn in Hg; lia]. cbn. split; [done|by eexists].
  - pose proof (Hocc _ 0%nat Hb (STok qasm3ParserIdentifier) ltac:(vm_compute; reflexivity)) as Hi.
    pose proof (Hocc _ 1%nat Hb (STok qasm3ParserGPHASE) ltac:(vm_compute; reflexivity)) as Hg.
    vm_compute (least _ _) in Hg. destruct (filter (is_symbol (STok qasm3ParserIdentifier)) ch); [|cbn in Hi; lia].
    destruct (filter (is_symbol (STok qasm3ParserGPHASE)) ch); [cbn in Hg; lia|]. cbn. split; [by intros [? ?]|done].
Qed.

(** The contexts of a tree, and what the listener reads of one without meeting
    a nil node. *)
Fixpoint contexts_of (n : node qasm3Context) : list (node qasm3Context) :=
  match n with Leaf _ => [] | Antlr.Node _ _ ch => n :: concat (map contexts_of ch) end.
Definition readable (n : node qasm3Context) : Prop :=
  match circuit_rule n with
  | RVersion v | RQuantumDeclarationStatement v | RClassicalDeclarationStatement v | RDesignator v => is_Some v
  | RGateCallStatement v => is_Some v <-> GateCallStatementContext_GPHASE n = None
  | _ => True
  end.

Lemma text_some n : is_Some n -> is_Some (text n).
Proof. intros [x ->]. by eexists. Qed.

Lemma derived_readable n : derives (G := qasm3_grammar) n -> readable n.
Proof.
  intros Hd. destruct n as [t|k ls ch]; [done|]. inversion Hd as [|? ? ? Hm _]; subst.
  unfold readable. destruct k; cbn [circuit_rule]; try done.
  - apply text_some. required (STok (R := qasm3Rule) qasm3ParserVersionSpecifier) VersionContext_VersionSpecifier ls ch Hm.
  - rewrite <- gate_call_named by done. split; [|apply text_some]. intros [t Ht]. unfold text in Ht.
    destruct (GateCallStatementContext_Identifier _); [by eexists|done].
  - apply text_some.
    required (STok (R := qasm3Rule) qasm3ParserIdentifier) ClassicalDeclarationStatementContext_Identifier ls ch Hm.
  - apply text_some.
    required (STok (R := qasm3Rule) qasm3ParserIdentifier) QuantumDeclarationStatementContext_Identifier ls ch Hm.
  - apply text_some. required (SRule RULE_expression) DesignatorContext_Expression ls ch Hm.
Qed.

Lemma derived_contexts n : derives (G := qasm3_grammar) n -> Forall (derives (G := qasm3_grammar)) (contexts_of n).
Proof.
  induction n as [t|k ls ch IH] using node_induction; intros Hd; cbn [contexts_of]; [done|].
  constructor; [done|]. inversion Hd as [|? ? ? _ Hch]; subst. clear Hd. induction ch as [|c ch IHch]; [done|].
  apply Forall_cons in IH as [IHc IH], Hch as [Hc Hch]. cbn [map concat]. apply Forall_app. auto.
Qed.

(** *** The shape of the programs *)

(** [antlr.TreesGetNodeText] with the parser's table of rule names. *)
Definition TreesGetNodeText (n : node qasm3Context) : string :=
  match n with Leaf t => tok_text t | Antlr.Node k _ _ => qasm3_rule_name (qasm3_rule_of k) end.

Lemma circuit_rule_name k ls ch : rule_name (circuit_rule (Antlr.Node k ls ch)) = TreesGetNodeText (Antlr.Node k ls ch).
Proof. by destruct k. Qed.

Lemma statement_by_name k ls ch :
  is_statement (circuit_tree (Antlr.Node k ls ch)) = is_context RULE_statement (Antlr.Node k ls ch).
Proof. unfold is_statement, circuit_tree. cbn [node_rule]. rewrite circuit_rule_name. by destruct k. Qed.

Lemma statement_trees ns :
  List.filter is_statement (concat (map circuit_trees ns)) = map circuit_tree (filter (is_context RULE_statement) ns).
Proof.
  induction ns as [|[t|k ls ch] ns IH]; [done| |].
  - rewrite filter_miss by done. exact IH.
  - cbn [map concat]. rewrite List.filter_app, IH.
    change (circuit_trees (Antlr.Node k ls ch)) with [circuit_tree (Antlr.Node k ls ch)].
    cbn [List.filter]. rewrite statement_by_name. destruct (is_context _ _) eqn:E.
    + by rewrite filter_hit.
    + by rewrite filter_miss.
Qed.

(** A statement starts with a context, and [filterList] reads its rule. *)
Lemma derived_statement st : derives (G := qasm3_grammar) st -> is_context RULE_statement st = true ->
  exists c rest, children_of st = c :: rest /\ statement_name (circuit_tree st) = Ret (TreesGetNodeText c).
Proof.
  intros Hd. destruct st as [t|k ls ch]; [done|]. inversion Hd as [|? ? ? Hm Hch]; subst.
  destruct k; try done. intros _. pose proof (matches_nonempty _ _ Hm Hch eq_refl) as Hne.
  pose proof (matches_symbols _ _ Hm) as Hs. destruct ch as [|c rest]; [done|]. exists c, rest. split; [done|].
  apply Forall_cons in Hs as [Hs _]. destruct c as [t|k ls' ch'].
  - exfalso. vm_compute in Hs. repeat (apply elem_of_cons in Hs as [Hs|Hs]; [done|]). by apply elem_of_nil in Hs.
  - unfold statement_name, circuit_tree. cbn [node_children children_of map concat circuit_trees app node_rule].
    by rewrite circuit_rule_name.
Qed.

(** What the parser returns has the shape the validation of programs assumes,
    and the names it filters by are those of the generated contexts. *)
Lemma parsed_program_shape {P} {PR : ParserRuntime qasm3Context P} {PL : ParserLaws qasm3Context P decision_alts} p ts fuel :
  view_of p = mkView ts [] [] -> Forall no_eof ts -> (64 * length ts + 128 <= fuel)%nat ->
  match Program_parse fuel p with
  | (Ok nd, _) =>
      well_shaped (circuit_tree nd) /\
      exists sts, ProgramContext_AllStatement nd = map Some sts /\ AllStatement (circuit_tree nd) = map circuit_tree sts /\
        Forall (fun st => exists c rest, children_of st = c :: rest /\
                  statement_name (circuit_tree st) = Ret (TreesGetNodeText c)) sts
  | (Raise _, _) => True
  | (OutOfFuel, _) => False
  end.
Proof.
  intros Hv Hts Hfuel. pose proof (program_parse_built p ts fuel Hv Hts Hfuel) as H.
  destruct (Program_parse fuel p) as [[nd|e|] p']; [|done..]. destruct H as (ls & ns & -> & _ & Hch & _).
  set (sts := filter (is_context RULE_statement) ns).
  assert (AllStatement (circuit_tree (Antlr.Node ProgramContext ls ns)) = map circuit_tree sts) as Hall by apply statement_trees.
  assert (Forall (fun st => exists c rest, children_of st = c :: rest /\
                  statement_name (circuit_tree st) = Ret (TreesGetNodeText c)) sts) as Hsts.
  { apply Forall_forall. intros st [Hs Hin]%list_elem_of_filter. apply derived_statement; [|by apply Is_true_eq_true].
    rewrite Forall_forall in Hch. by apply Hch. }
  split.
  - split; [done|]. rewrite Hall. apply Forall_fmap. eapply Forall_impl; [exact Hsts|].
    intros st (c & rest & _ & Hn) Heq. unfold statement_name in Hn.
    change (node_children (circuit_tree st) = []) in Heq. by rewrite Heq in Hn.
  - exists sts. split; [|done]. unfold ProgramContext_AllStatement, sts. rewrite filter_is_context.
    exact (proj1 (all_contexts_sound RULE_statement (Antlr.Node ProgramContext ls ns))).
Qed.

(** C9: From tokens to the intermediate representation.  Of whatever the parser
    returns, the listener of ir.go over the generated contexts computes what
    [NewCircuitIR] computes of the tree [circuit_tree] shows; it meets a nil
    node for the name only at a global phase.  A representation that is
    generated has a program (the caller dereferences it), whose numbers for
    qubits and bits are consistent with its declarations. *)
Theorem parsed_circuit_numbered {P} {PR : ParserRuntime qasm3Context P} {PL : ParserLaws qasm3Context P decision_alts} p ts fuel :
  view_of p = mkView ts [] [] -> Forall no_eof ts -> (64 * length ts + 128 <= fuel)%nat ->
  match Program_parse fuel p with
  | (Ok nd, _) =>
      NewCircuitIR_contexts nd = NewCircuitIR (circuit_tree nd) /\ Forall readable (contexts_of nd) /\
      forall c, NewCircuitIR_contexts nd = (c, None) -> exists pr, IR_ProgramIR c = Some pr /\
        (let rs := registers qubit_register (Statements pr) in
         NoDup rs.*1 -> total_bits rs < 2 ^ 63 -> numbering rs (QubitCount pr) (QubitAbsNum pr)) /\
        (let rs := registers bit_register (Statements pr) in
         NoDup rs.*1 -> total_bits rs < 2 ^ 63 -> numbering rs (BitCount pr) (BitAbsNum pr))
  | (Raise _, _) => True
  | (OutOfFuel, _) => False
  end.
Proof.
  intros Hv Hts Hfuel. pose proof (program_parse_built p ts fuel Hv Hts Hfuel) as H.
  destruct (Program_parse fuel p) as [[nd|e|] p']; [|done..]. destruct H as (ls & ns & -> & Hm & Hch & _).
  assert (derives (G := qasm3_grammar) (Antlr.Node ProgramContext ls ns)) as Hd by by constructor.
  rewrite new_circuit_ir_agrees by done. split; [done|]. split.
  { eapply Forall_impl; [by apply derived_contexts|]. apply derived_readable. }
  unfold NewCircuitIR, circuit_tree. rewrite walk_node. cbn [circuit_rule mfor listen enter_rule].
  unfold bind at 1. unfold Circuit.EnterProgram at 1, modify at 1. set (l := _ ++ _). set (c0 := set_program _ _).
  destruct (mfor listen l c0) as [[[]|m] c1] eqn:E; [|done]. intros c [= <-].
  destruct (mfor_keeps_program _ _ _ E) as [pr Hpr]; [by eexists|]. exists pr. split; [done|].
  apply mfor_listen_numbered in E; [|intros q [= <-]; split; apply numbered_empty].
  destruct (E pr Hpr) as [H1 H2]. split; cbn zeta; intros Hnd Hlt; by apply numbered_numbering.
Qed.
End refinement.

(** ** The generated parser as the parser of the file Circuit

    [lex] and [start] stand for the generated lexer and the token stream: the
    parser is started on the tokens of the program. *)

Section generated.
Context {CR : ContextRuntime qasm3Context} {CL : ContextLaws qasm3Context}.
Context {P} {PR : ParserRuntime qasm3Context P} {PL : ParserLaws qasm3Context P decision_alts}.
Context (lex : string -> list token) (start : string -> P) (reports : string -> list report)
  (cancelled : exception -> bool) (tree_text : tree -> string).
Hypothesis started : forall qasm, view_of (start qasm) = mkView (lex qasm) [] [].
Hypothesis no_eof_inside : forall qasm, Forall no_eof (lex qasm).

Definition generated_parser : QASMParser := {|
  Program qasm :=
    (reports qasm,
     match Program_parse (64 * length (lex qasm) + 128) (start qasm) with
     | (Ok nd, _) => inl (circuit_tree nd)
     | (Raise e, _) => inr (cancelled e)
     | (OutOfFuel, _) => inr false
     end);
  RuleNames := qasm3_ruleNames;
  ToStringTree := tree_text
|}.

(** Its programs have the shape the validation relies on, and it never runs
    out of fuel. *)
Lemma generated_shape : ProgramShape (QP := generated_parser).
Proof.
  intros qasm rs pc. unfold Program, generated_parser. pose proof (parsed_program_shape (start qasm) (lex qasm) _ (started qasm) (no_eof_inside qasm) (le_n _)) as H.
  destruct (Program_parse _ _) as [[nd|e|] p']; intros Heq; simplify_eq. by destruct H.
Qed.
End generated.
