(* ===== verification/Qasm3Machine.v ===== *)
(** * A program through the parser

    The parser on the machine of AntlrMachine: a program, the answers of the
    prediction for it, its tree, and what is proved for every runtime at it. *)

From stdpp Require Import base list strings.
From Stdlib Require Import ZArith Lia.
From S2P Require Import Prelude Job Circuit Antlr AntlrLaws AntlrContexts AntlrMachine AntlrComplete Qasm3Grammar Qasm3Parser Qasm3Sound.
From S2P Require Import Qasm3Contexts Qasm3Listener Qasm3Circuit Qasm3Complete.

Module Qasm3Example.
Definition tok (t : Z) (s : string) : token := mkToken t s.

(** [OPENQASM 3; qubit[2] q; h q[0];] *)
Definition program : list token :=
  [tok qasm3ParserOPENQASM "OPENQASM"; tok qasm3ParserVersionSpecifier "3"; tok qasm3ParserSEMICOLON ";";
   tok qasm3ParserQUBIT "qubit"; tok qasm3ParserLBRACKET "["; tok qasm3ParserDecimalIntegerLiteral "2";
   tok qasm3ParserRBRACKET "]"; tok qasm3ParserIdentifier "q"; tok qasm3ParserSEMICOLON ";";
   tok qasm3ParserIdentifier "h"; tok qasm3ParserIdentifier "q"; tok qasm3ParserLBRACKET "[";
   tok qasm3ParserDecimalIntegerLiteral "0"; tok qasm3ParserRBRACKET "]"; tok qasm3ParserSEMICOLON ";"].

(** The alternatives: the declaration of a qubit (statement 25 of the rule
    [statement]) with a literal for its size; a gate call (18, without [gphase]),
    the literal as its index, nothing after the index and after the operand. *)
Definition choices : list Z := [25; 6; 2; 18; 1; 1; 6; 2; 2; 2].
Definition result : pres (node qasm3Context) := (Program_parse 2000 (start_machine program choices)).1.

Definition parsed : node qasm3Context := match result with Ok nd => nd | _ => Leaf eof_token end.
Definition finished : machine qasm3Context := (Program_parse 2000 (start_machine program choices)).2.

(** The parser reads the program to its end, with the last choice. *)
Lemma program_parsed : Program_parse 2000 (start_machine program choices) = (Ok parsed, finished).
Proof. vm_compute. reflexivity. Qed.
Example program_text : GetText parsed = "OPENQASM3;qubit[2]q;hq[0];<EOF>" /\ mc_choices finished = [].
Proof. vm_compute. by split. Qed.

Lemma program_no_eof : Forall no_eof program.
Proof. repeat (constructor; [by vm_compute|]). constructor. Qed.

Lemma program_parse_sound_witness :
  (exists ls ns, parsed = Node ProgramContext ls ns) /\ derives (G := qasm3_grammar) parsed /\ node_tokens parsed = program /\
  v_input (view_of finished) = [].
Proof.
  pose proof (program_parse_sound (start_machine program choices) program 2000 eq_refl program_no_eof) as H.
  rewrite program_parsed in H. apply H. vm_compute. lia.
Defined.

Lemma parser_trees_exact_witness : exists ls ch, derives (G := qasm3_grammar) (Node ProgramContext ls ch) /\
  tokens ch = program /\ erase (Node ProgramContext ls ch) = erase parsed.
Proof.
  apply (parser_trees_exact program (erase parsed) 2000 program_no_eof); [vm_compute; lia|vm_compute; lia|].
  exists choices, parsed, finished. split; [apply program_parsed|reflexivity].
Defined.

Lemma parsed_derives : derives (G := qasm3_grammar) parsed.
Proof.
  pose proof (program_parse_built (start_machine program choices) program 2000 eq_refl program_no_eof) as H.
  rewrite program_parsed in H. destruct H as (ls & ns & -> & Hm & Hch & _); [vm_compute; lia|]. by constructor.
Qed.

#[local] Existing Instances tree_contexts tree_contexts_laws tree_walker default_walker.

(** The names the filter lists are compared with. *)
Example program_statement_names :
  statement_names (circuit_tree parsed) = ["quantumDeclarationStatement"; "gateCallStatement"].
Proof. vm_compute. reflexivity. Qed.

(** The gate call of the program, its accessors and what they return. *)
Definition gate_call : node qasm3Context :=
  default parsed (head (filter (is_context RULE_gateCallStatement) (contexts_of parsed))).

Lemma context_accessors_exact_witness :
  length (children_of gate_call) = 3%nat /\
  concat (map (fun a => returned a gate_call) (qasm3_accessors GateCallStatementContext)) ≡ₚ map Some (children_of gate_call).
Proof.
  split; [vm_compute; reflexivity|].
  assert (gate_call = Node GateCallStatementContext [] (children_of gate_call)) as E by (vm_compute; reflexivity).
  rewrite E at 1. apply context_accessors_exact. rewrite <- E.
  pose proof (derived_contexts parsed parsed_derives) as Hall. rewrite Forall_forall in Hall. apply Hall.
  vm_compute. repeat first [by left|right].
Defined.

Lemma parsed_circuit_numbered_witness : exists c pr, NewCircuitIR_contexts parsed = (c, None) /\ IR_ProgramIR c = Some pr /\
  length (Statements pr) = 2%nat /\ numbering [("q", 2)] (QubitCount pr) (QubitAbsNum pr).
Proof.
  pose proof (parsed_circuit_numbered (start_machine program choices) program 2000 eq_refl program_no_eof) as H.
  rewrite program_parsed in H. destruct H as (_ & _ & H); [vm_compute; lia|].
  destruct (H (NewCircuitIR_contexts parsed).1) as (pr & Hpr & Hq & _); [vm_compute; reflexivity|].
  exists (NewCircuitIR_contexts parsed).1, pr. split; [vm_compute; reflexivity|]. split; [exact Hpr|].
  vm_compute in Hpr. injection Hpr as <-. split; [reflexivity|].
  apply Hq; [vm_compute; apply NoDup_singleton|vm_compute; reflexivity].
Defined.
End Qasm3Example.
